(* ===== verification/_CoqProject ===== *)
-Q . S2P
Prelude.v
ChannelFunctions.v
Proto.v
CallIds.v
Srpc.v
SrpcDirect.v
CLayout.v
CMembers.v
ProtoTypes.v
MultipartCall.v
ExtValue.v
ChannelExtValue.v
SrpcData.v
SrpcReceive.v
SrpcCalls.v
SrpcPacks.v
SrpcChunks.v
AsyncTask.v
AsyncTaskQueue.v
AsyncTaskInv.v
AsyncTaskLive.v
Caller.v
Actions.v
GateOpenClose.v
Scene.v
Json.v
ActivePeriod.v
VbtCondition.v
ChannelValues.v
Vbt.v
DObjects.v
Relations.v
ClientScenes.v
ObjContainer.v
ClientChannels.v
UserChannels.v
DeviceRequests.v
Throttling.v
SafeArray.v
IpcText.v
IpcCommands.v
IpcClient.v
SchedAction.v
Scheduler.v
SchedulerInv.v
Connection.v
AuthkeyCache.v
RegisterObject.v
RegisterDevice.v
RegisterClient.v
