(* ===== verification/Prelude.v ===== *)
(** * SUPLA core: a verification library

    SUPLA is a building automation system: devices and client applications keep
    connections to a server (supla-server), which registers them, passes values and
    commands between them, and runs scenes, gate control and other tasks in the
    background. This library models the parts of the repository below with Rocq
    definitions that are translated from the source, and proves theorems about
    them. File and function names without a directory are under src/.

    ** The parts and their files

    The protocol (src/supla-common, in C, shared by all programs):
    - Proto.v: proto.c, the buffers in which packets are assembled and cut into
      frames. Blocks are lists of cells with checked accesses, [realloc] answers are
      arguments.
    - CallIds.v, ProtoTypes.v, CLayout.v: proto.h, the identifiers of the calls, the
      constants and the structures that travel; sizes, offsets and integer members
      are computed from the description of a packed structure.
    - Srpc.v: srpc.c, the connection: two queues of packets, [srpc_iterate],
      asynchronous calls and the protocol version each needs; SrpcDirect.v: the same
      as the server builds it, without output queue and buffer.
    - SrpcData.v, SrpcReceive.v: [srpc_getdata], the decoding of every call into its
      structure, in the reachable states of a connection.
    - SrpcCalls.v, SrpcPacks.v, SrpcChunks.v: the srpc_*_async_* functions, which
      send structures, lists with captions, and registrations in chunks.
    - MultipartCall.v: srpc/multipart_call*.cpp and device/call_handler/set_device_config*.cpp
      of the server, calls that come in several parts.
    - CMembers.v, ExtValue.v: the srpc_evtool functions of srpc.c, which put
      measurements of meters and states of thermostats into extended values and
      convert between their versions.

    The server (src/supla-server/src):
    - AsyncTask.v, AsyncTaskQueue.v: asynctask/, a task, and the queue thread with
      its pools of threads as program counters over a shared heap of tasks, one
      step per section under a mutex; AsyncTaskInv.v and AsyncTaskLive.v have the
      invariants of all interleavings and the progress of the threads.
    - Caller.v, Actions.v: caller.cpp and actions/, who causes an action, and what
      an action makes of its parameters and subjects.
    - GateOpenClose.v, Scene.v: actions/action_gate_openclose*.cpp and scene/, two
      users of the tasks.
    - ChannelExtValue.v: device/extended_value/, the extended values that the server
      keeps of channels, for electricity meters.
    - ChannelFunctions.v: the functions of channels, from proto.h.
    - ChannelValues.v: device/value/, the eight bytes of a value: what each class of values
      reads and writes, and what the server changes before it keeps them.
    - Relations.v: device/abstract_common_channel_properties.cpp, which channels are parts
      of which.
    - UserChannels.v: device/devicechannel*.cpp and user/user.cpp, the values and the states
      of the channels of a user's devices, the calls that change them, what is answered for
      a channel, and whom a change is told.
    - DeviceRequests.v: the other half of device/devicechannels.cpp and
      user/userchannelgroups.cpp, the requests that leave for devices when a channel or a
      group is commanded; Actions.v ends with these commands.
    - DObjects.v, ClientScenes.v: distributedobjects/ and client/client_scene*.cpp, the marks
      of what changed for a client, the packs that tell it, and the scenes with their states
      and relations; ObjContainer.v, ClientChannels.v: client/clientobjcontainer.cpp,
      clientchannel*.cpp, the same for channels, with the answers of UserChannels.v.
    - Throttling.v: push/pn_throttling.cpp and http/http_throttling.cpp, limits and delays
      of notifications.
    - Json.v, ActivePeriod.v: active_period.cpp, when a trigger may act, from the
      texts in the database; doubles and cJSON documents.
    - VbtCondition.v, Vbt.v: vbt/, the conditions of value based triggers, the
      triggers of a user over a heap of shared objects, and the scheduler of the
      triggers that wait.
    - IpcText.v, IpcCommands.v: ipc/, the local socket: numbers as printf and sscanf
      treat them, the loop that cuts lines and gives each to the first command that knows
      it, and the commands that the scheduler uses, with all actions.
    - Connection.v: conn/connection.cpp, connection_objects.cpp and the collections of call
      handlers, the thread of a connection from its calls to its timeouts, which handler a
      call gets to, and the devices or clients of a user that are connected.
    - AuthkeyCache.v, RegisterObject.v, RegisterDevice.v, RegisterClient.v:
      conn/authkey_cache.cpp, conn/call_handler/abstract_register_object.cpp,
      device/call_handler/abstract_register_device.cpp and
      client/call_handler/abstract_register_client.cpp, with the transactions of
      db/dbcommon.cpp.

    The scheduler (src/supla-scheduler/src), a program of its own:
    - SafeArray.v: supla-common/safearray.c, the array of pointers of its queue.
    - IpcClient.v: ipcclient.cpp, what it asks the server and makes of the replies. A run
      is a function of the texts sent so far to a result and those texts.
    - SchedAction.v: action*.cpp and worker.cpp, the classes of actions as records of
      their methods, [execute], and the executions of a row until its result.
    - Scheduler.v, SchedulerInv.v: database.cpp, queue.cpp and abstract_worker.cpp, the
      table of executions, the loop and the workers as program counters, one step per
      section, statement or execution; and the invariant of their interleavings.

    This file has what they share: machine integers, checked memory, lists.

    ** How the code is modelled

    A C integer is a [Z] with the wrap of its type written out. An access out of a
    block, a null pointer that is followed, or a freed block give [None], so a
    theorem that a run is [Some] is a theorem of memory safety. What the
    environment decides is an argument: bytes read, answers of the allocator, times,
    the order of the threads. A component that another one uses through an
    interface is a class ([SceneDao], [ObjectDao], [DeviceDao], [ClientDao],
    [World], [CJson]); database queries, bcrypt and callbacks are parameters, and the
    theorems hold for all of them, under the hypotheses that each names. UserChannels.v
    has the documents of configurations read, extended values as an abstract type, and
    virtual channels as a function.
    Concurrent code is a step relation with one step per critical section; the
    theorems are about all interleavings. Loops whose bound is in the code are
    structural or carry fuel; where fuel is used a lemma says that it is enough
    ([iterate_spec], [scene_nesting_bounded], [gate_run_spec], [row_life_ends],
    [clean_spec]).

    ** What the theorems show

    - The stream: packets cut into any chunks are decoded to the same packets
      ([proto_transfer]), decoding is safe for any bytes and follows an abstract
      framing ([sproto_pop_in_sdp_refines]); appends near the limits.
    - The connection: nothing accepted for sending is lost, duplicated or reordered
      ([srpc_out_lossless], [server_calls_delivered]), what arrives is delivered
      ([srpc_in_delivers]), queues refine lists, states are well formed
      ([srpc_state_typed]).
    - The data: [srpc_getdata] is safe whatever the peer sends and accepts exactly
      the data with the layout of their call ([srpc_getdata_safe],
      [VALID_SIZE_exact]); what the srpc_*_async_* functions send arrives as it was
      ([call_arrives], [pack_call_arrives], [registration_in_chunks_equiv]).
    - Tasks: a state machine with final states, exclusive execution, no dangling
      reference, bounds of the pools, priority order, an iteration that ends and
      requests just what is due ([iterate_spec]), and two starvation scenarios.
    - Extended values: they survive their encoding ([em_values_travel],
      [several_values_refine]), decoding is safe but for two cases that are named
      ([srpc_evtool_value_get_safe]), and measurements get from a device of any
      version to a client of any version, with the prices that the server writes over
      them ([em_value_delivered]).
    - Channels: the relations of meters and thermostats are the same from both sides
      ([relations_agree], and [shared_sensor_one_sided] for others); every client is told of
      what it would see changed ([changes_told], but for devices with the number of a meter:
      [meter_number_unseen]), and what devices that do not sleep do is what the lists of the
      clients take for granted ([devices_refine]), which then, from protocol 9 on, end up with
      what the server answers ([clients_know_channels]); scenes likewise ([scenes_known],
      [scenes_sent]). Commands reach the channels that they name and no others
      ([commands_aim]), and what is switched is switched once the device answers
      ([switched], [group_toggled]). A change that falls between reading and unmarking is lost
      ([value_change_lost], [scene_change_lost]). Values are written as they are read
      ([light_assigned]) and counters do not wrap ([counters_saturate]).
    - Notifications: the limit, with one message more that tells of it, and the delays
      ([notifications_limited], [limit_not_kept], [bursts_are_delayed]); the parts of a call
      are put together ([config_put_together]).
    - The life of a connection: before a registration only those handlers run that need none
      ([session_follows_rules]), no connection stays open without calls
      ([open_connections_alive]), and an object that connects takes the place of those with
      its identifier or GUID ([registry_replaces], [only_last_terminated]).
    - Triggers: exactly those fire whose condition is met, whatever happened before
      ([triggers_fire_when_met]), reloading keeps what did not change ([load_spec]),
      pauses and durations ([condition_pauses], [condition_held_for_duration]),
      limits ([fire_is_limited]) and periods ([is_now_active_spec]).
    - Actions, gates and scenes: what is commanded concerns only the subject, the
      ranges of the values written, the schedule of a scene, its times, its
      interruption and nesting.
    - The scheduler: its requests are taken by the server for what they mean
      ([requests_understood]), and the values of the server reach it
      ([values_understood]); a scheduled execution ends in time, with bounded commands,
      whatever is answered ([row_life_ends]); no try is executed twice while no load falls
      between the pop and the count of a worker ([tries_executed_once]), and one may be
      when it does ([try_executed_twice]); shutters are not checked
      ([shutter_position_unchecked]); the array keeps what it is given
      ([safe_array_keeps]).
    - Registration: atomicity (one transaction, one answer, nothing kept after a
      refusal but for a locked device, whose registration stays), who is admitted, and the
      soundness of the key cache.

    ** Not modelled

    Third-party code (date/, external/, crypt_blowfish/), the clients and the device
    library examples (supla-client, supla-console-client, supla-dev), tests, logging,
    sockets, TLS, threads primitives and configuration files; the SQL of the DAO
    classes of the server; the JSON and HTTP adapters (mqtt/, http/, amazon/, google/,
    webhook/), which translate the state of channels to texts; the solar calculator, the
    analyzers, the data loggers and the values that are floating-point numbers; the
    documents of configurations (jsonconfig/); the commands of ipc/ that the scheduler does
    not use; and the handlers of devices and clients that pass a structure to a query or a
    channel and have no state of their own. Rows of the scheduler's table are planned by
    others; a schedule or a channel that changes between two executions of a row is not
    modelled. *)

From Stdlib Require Export ZArith Lia.
From stdpp Require Export base list gmap strings relations.

#[global] Open Scope Z_scope.
#[global] Set Default Proof Using "Type".

(** ** Machine integers

    A C integer of width [w] is a [Z] that stays in its range; every operation
    that can leave the range is followed by the wrap of its type. *)

Definition u8 (z : Z) : Z := z mod 2 ^ 8.
Definition u16 (z : Z) : Z := z mod 2 ^ 16.
Definition u32 (z : Z) : Z := z mod 2 ^ 32.
Definition u64 (z : Z) : Z := z mod 2 ^ 64.
Definition i8 (z : Z) : Z := (z + 2 ^ 7) mod 2 ^ 8 - 2 ^ 7.
Definition i32 (z : Z) : Z := (z + 2 ^ 31) mod 2 ^ 32 - 2 ^ 31.
Definition i64 (z : Z) : Z := (z + 2 ^ 63) mod 2 ^ 64 - 2 ^ 63.

Definition is_u8 (z : Z) : Prop := 0 <= z < 2 ^ 8.
Definition is_u32 (z : Z) : Prop := 0 <= z < 2 ^ 32.
Definition is_i32 (z : Z) : Prop := - 2 ^ 31 <= z < 2 ^ 31.
Definition is_i64 (z : Z) : Prop := - 2 ^ 63 <= z < 2 ^ 63.

Create HintDb wrap.

Lemma u8_id z : is_u8 z → u8 z = z.
Proof. apply Z.mod_small. Qed.

Lemma u16_id z : 0 <= z < 2 ^ 16 → u16 z = z.
Proof. apply Z.mod_small. Qed.

Lemma u32_id z : is_u32 z → u32 z = z.
Proof. apply Z.mod_small. Qed.

Lemma u64_id z : 0 <= z < 2 ^ 64 → u64 z = z.
Proof. apply Z.mod_small. Qed.

Lemma i32_id z : is_i32 z → i32 z = z.
Proof. unfold is_i32, i32. intros H. rewrite Z.mod_small; lia. Qed.

Lemma i64_id z : is_i64 z → i64 z = z.
Proof. unfold is_i64, i64. intros H. rewrite Z.mod_small; lia. Qed.

Lemma u8_range z : is_u8 (u8 z).
Proof. apply Z.mod_pos_bound. lia. Qed.

Lemma u32_range z : is_u32 (u32 z).
Proof. apply Z.mod_pos_bound. lia. Qed.

#[export] Hint Resolve u8_range u32_range : wrap.

(** Closes the side conditions of the wrap lemmas. *)
Ltac wrap := unfold is_u8, is_u32, is_i32, is_i64 in *; try lia; auto with wrap.

(** Decides a boolean comparison when [lia] alone does not see that the lengths
    in it are non-negative. *)
Ltac bool_lia :=
  first [ lia
        | symmetry;
          first [apply Z.ltb_lt | apply Z.ltb_ge | apply Z.leb_le | apply Z.leb_gt
                |apply Z.eqb_eq | apply Z.eqb_neq]; lia ].

(** ** Time

    [struct timeval], and the number of microseconds it stands for as the code
    computes it ([tv_sec * 1000000LL + tv_usec]). *)

Record timeval := Timeval { tv_sec : Z; tv_usec : Z }.

Definition timeval_zero : timeval := Timeval 0 0.

Definition usec_of (t : timeval) : Z := tv_sec t * 1000000 + tv_usec t.

#[export] Instance timeval_eq_dec : EqDecision timeval.
Proof. solve_decision. Defined.

(** ** Lists: the search loops of the code

    [find_first p l] is the loop "for (it = begin; it != end; ++it) if (p(it))
    break;", [erase_first p l] the same loop with [erase(it)] before the
    [break], [update_first p f l] the one that updates the element in place. *)

Section search_loops.
Context {A : Type}.
Implicit Types (p : A → bool) (f : A → A) (l : list A).

Fixpoint find_first p l : option A :=
  match l with
  | [] => None
  | x :: l' => if p x then Some x else find_first p l'
  end.

Fixpoint erase_first p l : list A :=
  match l with
  | [] => []
  | x :: l' => if p x then l' else x :: erase_first p l'
  end.

Fixpoint update_first p f l : list A :=
  match l with
  | [] => []
  | x :: l' => if p x then f x :: l' else x :: update_first p f l'
  end.

Lemma find_first_Some p l x :
  find_first p l = Some x → p x = true ∧ x ∈ l.
Proof.
  induction l as [|y l IH]; simpl; [done|].
  destruct (p y) eqn:Hy; intros E; simplify_eq.
  - split; [done|apply list_elem_of_here].
  - destruct (IH E). split; [done|by apply list_elem_of_further].
Qed.

Lemma find_first_None p l :
  find_first p l = None ↔ ∀ x, x ∈ l → p x = false.
Proof.
  induction l as [|y l IH]; simpl; [split; [intros _ x Hx; inversion Hx|done]|].
  destruct (p y) eqn:Hy.
  - split; [done|]. intros H. specialize (H y (list_elem_of_here _ _)). congruence.
  - rewrite IH. split; [intros H x [->|Hx]%elem_of_cons; auto|].
    intros H x Hx. apply H. by apply list_elem_of_further.
Qed.

Lemma erase_first_sublist p l : erase_first p l `sublist_of` l.
Proof.
  induction l as [|y l IH]; simpl; [done|].
  destruct (p y); [by apply sublist_cons|by apply sublist_skip].
Qed.

Lemma erase_first_None p l : find_first p l = None → erase_first p l = l.
Proof.
  induction l as [|y l IH]; simpl; [done|].
  destruct (p y); [done|]. intros H. by rewrite IH.
Qed.

(** Erasing removes exactly the element the search finds. *)
Lemma erase_first_Some p l x :
  find_first p l = Some x →
  ∃ l1 l2, l = l1 ++ x :: l2 ∧ erase_first p l = l1 ++ l2 ∧
           (∀ y, y ∈ l1 → p y = false) ∧ p x = true.
Proof.
  induction l as [|y l IH]; simpl; [done|].
  destruct (p y) eqn:Hy; intros E; simplify_eq.
  - exists [], l. repeat split; try done. intros z Hz; inversion Hz.
  - destruct (IH E) as (l1 & l2 & -> & -> & H1 & H2).
    exists (y :: l1), l2. repeat split; try done.
    intros z [->|Hz]%elem_of_cons; auto.
Qed.

Lemma update_first_length p f l : length (update_first p f l) = length l.
Proof. induction l as [|y l IH]; simpl; [done|]. destruct (p y); simpl; auto. Qed.

Lemma find_first_app p l1 l2 :
  find_first p (l1 ++ l2) =
  match find_first p l1 with Some x => Some x | None => find_first p l2 end.
Proof. induction l1 as [|y l IH]; simpl; [done|]. by destruct (p y). Qed.

Lemma find_first_update p f l :
  (∀ x, p x = true → p (f x) = true) →
  find_first p (update_first p f l) = f <$> find_first p l.
Proof.
  intros Hp. induction l as [|y l IH]; simpl; [done|].
  destruct (p y) eqn:Hy; simpl; [by rewrite Hp|by rewrite Hy].
Qed.

Lemma find_first_update_ne p q f l :
  (∀ x, p x = true → q x = false) → (∀ x, p x = true → q (f x) = false) →
  find_first q (update_first p f l) = find_first q l.
Proof.
  intros H1 H2. induction l as [|y l IH]; simpl; [done|].
  destruct (p y) eqn:Hy; simpl; [by rewrite (H1 y Hy), (H2 y Hy)|by rewrite IH].
Qed.

(** The element that the loops look for is at the end. *)
Lemma find_first_skip p l x : (∀ y, y ∈ l → p y = false) → p x = true →
  find_first p (l ++ [x]) = Some x.
Proof.
  intros Hl Hx. rewrite find_first_app. rewrite (proj2 (find_first_None p l) Hl). cbn. by rewrite Hx.
Qed.

Lemma erase_first_skip p l x : (∀ y, y ∈ l → p y = false) → p x = true →
  erase_first p (l ++ [x]) = l.
Proof.
  intros Hl Hx. induction l as [|y l IH]; cbn; [by rewrite Hx|].
  rewrite Hl by constructor. f_equal. apply IH. intros z Hz. apply Hl. by constructor.
Qed.

Lemma update_first_skip p f l x : (∀ y, y ∈ l → p y = false) → p x = true →
  update_first p f (l ++ [x]) = l ++ [f x].
Proof.
  intros Hl Hx. induction l as [|y l IH]; cbn; [by rewrite Hx|].
  rewrite Hl by constructor. f_equal. apply IH. intros z Hz. apply Hl. by constructor.
Qed.
End search_loops.

(** ** Allocated blocks

    A heap block is the list of its cells; reads and writes outside it are
    undefined behaviour, which the models make visible as [None]. *)

Section blocks.
Context {A : Type}.
Implicit Types (b : list A).

(** [memcpy(&b[off], src, n)]. *)
Definition memcpy_to (b : list A) (off : Z) (src : list A) (n : Z) : option (list A) :=
  if (0 <=? off) && (0 <=? n) && (off + n <=? Z.of_nat (length b))
     && (n <=? Z.of_nat (length src))
  then Some (take (Z.to_nat off) b ++ take (Z.to_nat n) src
             ++ drop (Z.to_nat (off + n)) b)
  else None.

(** [&b[off]], [n] cells read. *)
Definition read_at (b : list A) (off n : Z) : option (list A) :=
  if (0 <=? off) && (0 <=? n) && (off + n <=? Z.of_nat (length b))
  then Some (take (Z.to_nat n) (drop (Z.to_nat off) b))
  else None.

(** The loop "b = 0; for (a = from; a < from + n; a++) { buf[b] = buf[a]; b++; }"
    that moves the tail of a buffer to its front. *)
Fixpoint shift_down (n from to : nat) (b : list A) : option (list A) :=
  match n with
  | O => Some b
  | S n' => match b !! from with
            | Some x => if decide (to < length b)%nat
                        then shift_down n' (S from) (S to) (<[to := x]> b)
                        else None
            | None => None
            end
  end.

Lemma memcpy_to_length b off src n b' :
  memcpy_to b off src n = Some b' → length b' = length b.
Proof.
  unfold memcpy_to. case_match eqn:E; [|done]. intros ?; simplify_eq.
  rewrite !length_app, !length_take, length_drop. lia.
Qed.

Lemma memcpy_to_end b off src n :
  0 <= off → 0 <= n → off + n = Z.of_nat (length b) → n <= Z.of_nat (length src) →
  memcpy_to b off src n = Some (take (Z.to_nat off) b ++ take (Z.to_nat n) src).
Proof.
  intros. unfold memcpy_to.
  replace ((0 <=? off) && _ && _ && _)%bool with true by lia.
  rewrite (drop_ge b) by lia. by rewrite app_nil_r.
Qed.

Lemma read_at_0 b n :
  0 <= n <= Z.of_nat (length b) → read_at b 0 n = Some (take (Z.to_nat n) b).
Proof. intros. unfold read_at. by replace ((0 <=? 0) && _ && _)%bool with true by lia. Qed.

(** The general shape of the loop's invariant: the part already moved, then
    the untouched rest. *)
Lemma shift_down_spec n : ∀ from to b,
  (to <= from)%nat → (from + n <= length b)%nat →
  shift_down n from to b =
    Some (take to b ++ take n (drop from b) ++ drop (to + n) b).
Proof.
  induction n as [|n IH]; intros from to b Hle Hlen; simpl.
  { by rewrite Nat.add_0_r, take_drop. }
  destruct (lookup_lt_is_Some_2 b from) as [x Hx]; [lia|]. rewrite Hx.
  rewrite decide_True by lia.
  rewrite IH; [|lia|rewrite length_insert; lia].
  f_equal.
  rewrite (drop_S b x from Hx). simpl.
  rewrite (take_S_r (<[to:=x]> b) to x) by (apply list_lookup_insert_eq; lia).
  rewrite take_insert_ge by lia. rewrite <- app_assoc. simpl.
  f_equal. f_equal. f_equal.
  - by rewrite drop_insert_lt by lia.
  - rewrite drop_insert_lt by lia. f_equal. lia.
Qed.

Lemma shift_down_front n from b :
  (from + n <= length b)%nat →
  shift_down n from 0 b = Some (take n (drop from b) ++ drop n b).
Proof. intros H. rewrite shift_down_spec by lia. done. Qed.
End blocks.

Lemma mjoin_cons {A} (x : list A) ls : mjoin (x :: ls) = x ++ mjoin ls.
Proof. reflexivity. Qed.

(** ** Handlers: state, and early return

    [M S A] is the type of a code fragment that reads and writes a state [S]
    and either falls through with a value or leaves the enclosing function
    ("return;"). *)

Definition M (S A : Type) : Type := S → option A * S.

Definition ret {S A} (a : A) : M S A := λ s, (Some a, s).
Definition bind {S A B} (m : M S A) (k : A → M S B) : M S B := λ s,
  match m s with
  | (Some a, s') => k a s'
  | (None, s') => (None, s')
  end.
Definition leave {S A} : M S A := λ s, (None, s).
Definition get {S} : M S S := λ s, (Some s, s).
Definition gets {S A} (f : S → A) : M S A := λ s, (Some (f s), s).
Definition modify {S} (f : S → S) : M S unit := λ s, (Some tt, f s).
Definition when {S} (b : bool) (m : M S unit) : M S unit := if b then m else ret tt.

(** A call of a function: its own "return" does not leave the caller. *)
Definition call {S} (m : M S unit) : M S unit := λ s, (Some tt, (m s).2).

(** The state a handler leaves behind. *)
Definition run {S A} (m : M S A) (s : S) : S := (m s).2.

Declare Scope handler_scope.
Delimit Scope handler_scope with handler.
Notation "'let*' x ':=' m 'in' k" := (bind m (λ x, k))
  (at level 10, x pattern, k at level 200) : handler_scope.
Notation "m1 ;;; m2" := (bind m1 (λ _, m2))
  (at level 100, right associativity) : handler_scope.

(** What a fragment establishes: [Q] when it falls through, [E] when it leaves. *)
Section triples.
Context {S : Type}.
Implicit Types (P R : S → Prop).

Definition triple {A} P (m : M S A) (Q : A → S → Prop) (E : S → Prop) : Prop :=
  ∀ s, P s → match m s with (Some a, s') => Q a s' | (None, s') => E s' end.

Lemma triple_bind {A B} P (m : M S A) (k : A → M S B) (R' : B → S → Prop)
    (Q : A → S → Prop) (E : S → Prop) :
  triple P m Q E → (∀ a, triple (Q a) (k a) R' E) → triple P (bind m k) R' E.
Proof.
  intros Hm Hk s Hs. unfold bind. specialize (Hm s Hs).
  destruct (m s) as [[a|] s']; [by apply Hk|done].
Qed.

Lemma triple_ret {A} P (a : A) (Q : A → S → Prop) E :
  (∀ s, P s → Q a s) → triple P (ret a) Q E.
Proof. intros H s Hs. by apply H. Qed.

Lemma triple_modify P f (Q : unit → S → Prop) E :
  (∀ s, P s → Q tt (f s)) → triple P (modify f) Q E.
Proof. intros H s Hs. by apply H. Qed.

Lemma triple_read {A B} P (f : S → A) (k : A → M S B) Q E :
  (∀ a, triple (λ s, P s ∧ f s = a) (k a) Q E) → triple P (bind (gets f) k) Q E.
Proof. intros H s Hs. by apply (H (f s)). Qed.

Lemma triple_pre {A} P P' (m : M S A) Q E :
  triple P' m Q E → (∀ s, P s → P' s) → triple P m Q E.
Proof. intros H HP s Hs. by apply H, HP. Qed.

Lemma triple_weaken {A} P (m : M S A) (Q Q' : A → S → Prop) (E E' : S → Prop) :
  triple P m Q E → (∀ a s, Q a s → Q' a s) → (∀ s, E s → E' s) → triple P m Q' E'.
Proof.
  intros H HQ HE s Hs. specialize (H s Hs). destruct (m s) as [[a|] s']; auto.
Qed.

Lemma triple_leave {A} P (Q : A → S → Prop) (E : S → Prop) :
  (∀ s, P s → E s) → triple P leave Q E.
Proof. intros H s Hs. by apply H. Qed.

Lemma triple_pure {A} P (b : Prop) (m : M S A) Q E :
  (b → triple P m Q E) → triple (λ s, P s ∧ b) m Q E.
Proof. intros H s [Hs Hb]. by apply H. Qed.
End triples.

(** ** Reachability *)

(** An invariant of the initial states that every step preserves holds in
    every reachable state. *)
Lemma rtc_invariant {A} (R : relation A) (P : A → Prop) x y :
  rtc R x y → P x → (∀ a b, P a → R a b → P b) → P y.
Proof. induction 1; eauto. Qed.
