(* ===== verification/ChannelFunctions.v ===== *)
(** * ChannelFunctions: types and functions of channels

    The numbers of supla-common/proto.h for what a channel is and what it is used for. *)

From S2P Require Import Prelude.

#[local] Open Scope Z_scope.

(** ** Types *)

Definition SUPLA_CHANNELTYPE_SENSORNO : Z := 1000.
Definition SUPLA_CHANNELTYPE_BINARYSENSOR : Z := 1000.
Definition SUPLA_CHANNELTYPE_SENSORNC : Z := 1010.
Definition SUPLA_CHANNELTYPE_DISTANCESENSOR : Z := 1020.
Definition SUPLA_CHANNELTYPE_CALLBUTTON : Z := 1500.
Definition SUPLA_CHANNELTYPE_RELAYHFD4 : Z := 2000.
Definition SUPLA_CHANNELTYPE_RELAYG5LA1A : Z := 2010.
Definition SUPLA_CHANNELTYPE_2XRELAYG5LA1A : Z := 2020.
Definition SUPLA_CHANNELTYPE_RELAY : Z := 2900.
Definition SUPLA_CHANNELTYPE_THERMOMETERDS18B20 : Z := 3000.
Definition SUPLA_CHANNELTYPE_DHT11 : Z := 3010.
Definition SUPLA_CHANNELTYPE_DHT22 : Z := 3020.
Definition SUPLA_CHANNELTYPE_DHT21 : Z := 3022.
Definition SUPLA_CHANNELTYPE_AM2302 : Z := 3030.
Definition SUPLA_CHANNELTYPE_AM2301 : Z := 3032.
Definition SUPLA_CHANNELTYPE_THERMOMETER : Z := 3034.
Definition SUPLA_CHANNELTYPE_HUMIDITYSENSOR : Z := 3036.
Definition SUPLA_CHANNELTYPE_HUMIDITYANDTEMPSENSOR : Z := 3038.
Definition SUPLA_CHANNELTYPE_WINDSENSOR : Z := 3042.
Definition SUPLA_CHANNELTYPE_PRESSURESENSOR : Z := 3044.
Definition SUPLA_CHANNELTYPE_RAINSENSOR : Z := 3048.
Definition SUPLA_CHANNELTYPE_WEIGHTSENSOR : Z := 3050.
Definition SUPLA_CHANNELTYPE_WEATHER_STATION : Z := 3100.
Definition SUPLA_CHANNELTYPE_CONTAINER : Z := 3200.
Definition SUPLA_CHANNELTYPE_DIMMER : Z := 4000.
Definition SUPLA_CHANNELTYPE_RGBLEDCONTROLLER : Z := 4010.
Definition SUPLA_CHANNELTYPE_DIMMERANDRGBLED : Z := 4020.
Definition SUPLA_CHANNELTYPE_ELECTRICITY_METER : Z := 5000.
Definition SUPLA_CHANNELTYPE_IMPULSE_COUNTER : Z := 5010.
Definition SUPLA_CHANNELTYPE_THERMOSTAT : Z := 6000.
Definition SUPLA_CHANNELTYPE_THERMOSTAT_HEATPOL_HOMEPLUS : Z := 6010.
Definition SUPLA_CHANNELTYPE_HVAC : Z := 6100.
Definition SUPLA_CHANNELTYPE_VALVE_OPENCLOSE : Z := 7000.
Definition SUPLA_CHANNELTYPE_VALVE_PERCENTAGE : Z := 7010.
Definition SUPLA_CHANNELTYPE_BRIDGE : Z := 8000.
Definition SUPLA_CHANNELTYPE_GENERAL_PURPOSE_MEASUREMENT : Z := 9000.
Definition SUPLA_CHANNELTYPE_GENERAL_PURPOSE_METER : Z := 9010.
Definition SUPLA_CHANNELTYPE_ENGINE : Z := 10000.
Definition SUPLA_CHANNELTYPE_ACTIONTRIGGER : Z := 11000.
Definition SUPLA_CHANNELTYPE_DIGIGLASS : Z := 12000.

(** ** Functions *)

Definition SUPLA_CHANNELFNC_NONE : Z := 0.
Definition SUPLA_CHANNELFNC_CONTROLLINGTHEGATEWAYLOCK : Z := 10.
Definition SUPLA_CHANNELFNC_CONTROLLINGTHEGATE : Z := 20.
Definition SUPLA_CHANNELFNC_CONTROLLINGTHEGARAGEDOOR : Z := 30.
Definition SUPLA_CHANNELFNC_THERMOMETER : Z := 40.
Definition SUPLA_CHANNELFNC_HUMIDITY : Z := 42.
Definition SUPLA_CHANNELFNC_HUMIDITYANDTEMPERATURE : Z := 45.
Definition SUPLA_CHANNELFNC_OPENINGSENSOR_GATEWAY : Z := 50.
Definition SUPLA_CHANNELFNC_OPENINGSENSOR_GATE : Z := 60.
Definition SUPLA_CHANNELFNC_OPENINGSENSOR_GARAGEDOOR : Z := 70.
Definition SUPLA_CHANNELFNC_NOLIQUIDSENSOR : Z := 80.
Definition SUPLA_CHANNELFNC_CONTROLLINGTHEDOORLOCK : Z := 90.
Definition SUPLA_CHANNELFNC_OPENINGSENSOR_DOOR : Z := 100.
Definition SUPLA_CHANNELFNC_CONTROLLINGTHEROLLERSHUTTER : Z := 110.
Definition SUPLA_CHANNELFNC_CONTROLLINGTHEROOFWINDOW : Z := 115.
Definition SUPLA_CHANNELFNC_OPENINGSENSOR_ROLLERSHUTTER : Z := 120.
Definition SUPLA_CHANNELFNC_OPENINGSENSOR_ROOFWINDOW : Z := 125.
Definition SUPLA_CHANNELFNC_POWERSWITCH : Z := 130.
Definition SUPLA_CHANNELFNC_LIGHTSWITCH : Z := 140.
Definition SUPLA_CHANNELFNC_RING : Z := 150.
Definition SUPLA_CHANNELFNC_ALARM : Z := 160.
Definition SUPLA_CHANNELFNC_NOTIFICATION : Z := 170.
Definition SUPLA_CHANNELFNC_DIMMER : Z := 180.
Definition SUPLA_CHANNELFNC_DIMMER_CCT : Z := 185.
Definition SUPLA_CHANNELFNC_RGBLIGHTING : Z := 190.
Definition SUPLA_CHANNELFNC_DIMMERANDRGBLIGHTING : Z := 200.
Definition SUPLA_CHANNELFNC_DIMMER_CCT_AND_RGB : Z := 205.
Definition SUPLA_CHANNELFNC_DEPTHSENSOR : Z := 210.
Definition SUPLA_CHANNELFNC_DISTANCESENSOR : Z := 220.
Definition SUPLA_CHANNELFNC_OPENINGSENSOR_WINDOW : Z := 230.
Definition SUPLA_CHANNELFNC_HOTELCARDSENSOR : Z := 235.
Definition SUPLA_CHANNELFNC_ALARMARMAMENTSENSOR : Z := 236.
Definition SUPLA_CHANNELFNC_MAILSENSOR : Z := 240.
Definition SUPLA_CHANNELFNC_WINDSENSOR : Z := 250.
Definition SUPLA_CHANNELFNC_PRESSURESENSOR : Z := 260.
Definition SUPLA_CHANNELFNC_RAINSENSOR : Z := 270.
Definition SUPLA_CHANNELFNC_WEIGHTSENSOR : Z := 280.
Definition SUPLA_CHANNELFNC_WEATHER_STATION : Z := 290.
Definition SUPLA_CHANNELFNC_STAIRCASETIMER : Z := 300.
Definition SUPLA_CHANNELFNC_ELECTRICITY_METER : Z := 310.
Definition SUPLA_CHANNELFNC_IC_ELECTRICITY_METER : Z := 315.
Definition SUPLA_CHANNELFNC_IC_GAS_METER : Z := 320.
Definition SUPLA_CHANNELFNC_IC_WATER_METER : Z := 330.
Definition SUPLA_CHANNELFNC_IC_HEAT_METER : Z := 340.
Definition SUPLA_CHANNELFNC_IC_EVENTS : Z := 350.
Definition SUPLA_CHANNELFNC_IC_SECONDS : Z := 360.
Definition SUPLA_CHANNELFNC_THERMOSTAT_HEATPOL_HOMEPLUS : Z := 410.
Definition SUPLA_CHANNELFNC_HVAC_THERMOSTAT : Z := 420.
Definition SUPLA_CHANNELFNC_HVAC_THERMOSTAT_HEAT_COOL : Z := 422.
Definition SUPLA_CHANNELFNC_HVAC_DRYER : Z := 423.
Definition SUPLA_CHANNELFNC_HVAC_FAN : Z := 424.
Definition SUPLA_CHANNELFNC_HVAC_THERMOSTAT_DIFFERENTIAL : Z := 425.
Definition SUPLA_CHANNELFNC_HVAC_DOMESTIC_HOT_WATER : Z := 426.
Definition SUPLA_CHANNELFNC_HVAC_HRV : Z := 430.
Definition SUPLA_CHANNELFNC_VALVE_OPENCLOSE : Z := 500.
Definition SUPLA_CHANNELFNC_VALVE_PERCENTAGE : Z := 510.
Definition SUPLA_CHANNELFNC_GENERAL_PURPOSE_MEASUREMENT : Z := 520.
Definition SUPLA_CHANNELFNC_GENERAL_PURPOSE_METER : Z := 530.
Definition SUPLA_CHANNELFNC_CONTROLLINGTHEENGINESPEED : Z := 600.
Definition SUPLA_CHANNELFNC_ACTIONTRIGGER : Z := 700.
Definition SUPLA_CHANNELFNC_DIGIGLASS_HORIZONTAL : Z := 800.
Definition SUPLA_CHANNELFNC_DIGIGLASS_VERTICAL : Z := 810.
Definition SUPLA_CHANNELFNC_CONTROLLINGTHEFACADEBLIND : Z := 900.
Definition SUPLA_CHANNELFNC_TERRACE_AWNING : Z := 910.
Definition SUPLA_CHANNELFNC_PROJECTOR_SCREEN : Z := 920.
Definition SUPLA_CHANNELFNC_CURTAIN : Z := 930.
Definition SUPLA_CHANNELFNC_VERTICAL_BLIND : Z := 940.
Definition SUPLA_CHANNELFNC_ROLLER_GARAGE_DOOR : Z := 950.
Definition SUPLA_CHANNELFNC_PUMPSWITCH : Z := 960.
Definition SUPLA_CHANNELFNC_HEATORCOLDSOURCESWITCH : Z := 970.
Definition SUPLA_CHANNELFNC_CONTAINER : Z := 980.
Definition SUPLA_CHANNELFNC_SEPTIC_TANK : Z := 981.
Definition SUPLA_CHANNELFNC_WATER_TANK : Z := 982.
Definition SUPLA_CHANNELFNC_CONTAINER_LEVEL_SENSOR : Z := 990.
Definition SUPLA_CHANNELFNC_FLOOD_SENSOR : Z := 1000.
Definition SUPLA_CHANNELFNC_MOTION_SENSOR : Z := 1010.
Definition SUPLA_CHANNELFNC_BINARY_SENSOR : Z := 1020.
