(* ===== verification/Proto.v ===== *)
(** * Proto: the wire protocol buffers (supla-common/proto.c)

    The packet [TSuplaDataPacket], its byte image, and the operations of
    [TSuplaProtoData]: the input and output buffers, the extraction of packets
    from the input buffer, the numbering of packets.  The constants are those of
    the server build (neither ESP, AVR, ARDUINO nor SUPLA_DEVICE defined). *)

From S2P Require Import Prelude.

(** ** Constants (proto.h, proto.c) *)

Definition SUPLA_TAG_SIZE : Z := 5.
Definition SUPLA_MAX_DATA_SIZE : Z := 10240.
Definition SUPLA_PROTO_VERSION : Z := 28.
Definition SUPLA_PROTO_VERSION_MIN : Z := 1.
Definition BUFFER_MIN_SIZE : Z := 0.
Definition BUFFER_MAX_SIZE : Z := 131072.

Definition SUPLA_RESULT_CALL_NOT_ALLOWED : Z := -5.
Definition SUPLA_RESULT_DATA_TOO_LARGE : Z := -4.
Definition SUPLA_RESULT_BUFFER_OVERFLOW : Z := -3.
Definition SUPLA_RESULT_DATA_ERROR : Z := -2.
Definition SUPLA_RESULT_VERSION_ERROR : Z := -1.
Definition SUPLA_RESULT_FALSE : Z := 0.
Definition SUPLA_RESULT_TRUE : Z := 1.

(** "SUPLA" *)
Definition sproto_tag : list Z := [83; 85; 80; 76; 65].

(** ** The packet and its byte image *)

Record TSuplaDataPacket := SDP {
  sdp_tag : list Z;
  sdp_version : Z;
  sdp_rr_id : Z;
  sdp_call_id : Z;
  sdp_data_size : Z;
  sdp_data : list Z
}.

Definition le32 (z : Z) : list Z :=
  [z mod 256; z / 256 mod 256; z / 65536 mod 256; z / 16777216 mod 256].

Definition of_le32 (l : list Z) : Z :=
  match l with
  | [a; b; c; d] => a + 256 * b + 65536 * c + 16777216 * d
  | _ => 0
  end.

(** sizeof(TSuplaDataPacket) - SUPLA_MAX_DATA_SIZE, the structure is packed *)
Definition SDP_HEADER_SIZE : Z := SUPLA_TAG_SIZE + 1 + 4 + 4 + 4.
Definition SIZEOF_SDP : Z := SDP_HEADER_SIZE + SUPLA_MAX_DATA_SIZE.

Definition sdp_header (p : TSuplaDataPacket) : list Z :=
  sdp_tag p ++ [sdp_version p] ++ le32 (sdp_rr_id p) ++ le32 (sdp_call_id p)
  ++ le32 (sdp_data_size p).

Definition sdp_bytes (p : TSuplaDataPacket) : list Z := sdp_header p ++ sdp_data p.

Definition sdp_of_bytes (l : list Z) : TSuplaDataPacket :=
  SDP (take 5 l) (l !!! 5%nat) (of_le32 (take 4 (drop 6 l)))
      (of_le32 (take 4 (drop 10 l))) (of_le32 (take 4 (drop 14 l))) (drop 18 l).

(** ** The buffers

    A buffer pointer is a live block or one that [realloc] has released. *)

Inductive heap_block :=
  | Live (cells : list Z)
  | Freed.

Definition cells_of (b : heap_block) : option (list Z) :=
  match b with Live c => Some c | Freed => None end.

(** What the C library answers to a [realloc]: whether it returns a block, and
    whether [errno] reads [ENOMEM] afterwards ([realloc] does not clear it when
    it succeeds).  [ra_fill] is the content of the cells it adds. *)
Record realloc_answer := RA { ra_ok : bool; ra_enomem : bool; ra_fill : Z }.

Record TSuplaProtoInBuffer := InBuf {
  in_begin_tag : Z;
  in_size : Z;
  in_data_size : Z;
  in_buffer : heap_block
}.

Record TSuplaProtoOutBuffer := OutBuf {
  out_size : Z;
  out_data_size : Z;
  out_buffer : heap_block
}.

Record TSuplaProtoData := SPD {
  spd_next_rr_id : Z;
  spd_version : Z;
  spd_in : TSuplaProtoInBuffer;
  spd_out : TSuplaProtoOutBuffer
}.

Definition set_in (i : TSuplaProtoInBuffer) (s : TSuplaProtoData) : TSuplaProtoData :=
  SPD (spd_next_rr_id s) (spd_version s) i (spd_out s).
Definition set_out (o : TSuplaProtoOutBuffer) (s : TSuplaProtoData) : TSuplaProtoData :=
  SPD (spd_next_rr_id s) (spd_version s) (spd_in s) o.

Definition sproto_init : TSuplaProtoData :=
  SPD 0 SUPLA_PROTO_VERSION (InBuf 0 0 0 (Live [])) (OutBuf 0 0 (Live [])).

(** [realloc] of a live block to [size] cells. *)
Definition realloc (ra : realloc_answer) (c : list Z) (size : Z) : heap_block :=
  Live (resize (Z.to_nat size) (ra_fill ra) c).

(** The outcome of an append: the result code and the new triple
    (buffer, buffer_size, buffer_data_size); [None] is undefined behaviour. *)
Definition sproto_buffer_append (ra : realloc_answer) (buffer : heap_block)
    (buffer_size buffer_data_size : Z) (data : list Z) (data_size : Z)
    : option (Z * (heap_block * Z * Z)) :=
  let size := buffer_size in
  let size := if size <? BUFFER_MIN_SIZE then BUFFER_MIN_SIZE else size in
  let size :=
    if u32 (size - buffer_data_size) <? data_size
    then u32 (size + u32 (data_size - u32 (size - buffer_data_size)))
    else size in
  if BUFFER_MAX_SIZE <=? size
  then Some (SUPLA_RESULT_BUFFER_OVERFLOW, (buffer, buffer_size, buffer_data_size))
  else
    c ← cells_of buffer;
    let copy (b : list Z) :=
      b' ← memcpy_to b buffer_data_size data data_size;
      Some (SUPLA_RESULT_TRUE, (Live b', size, u32 (buffer_data_size + data_size))) in
    if negb (size =? buffer_size) then
      if (0 <? size) && negb (ra_ok ra)
      then Some (SUPLA_RESULT_FALSE, (buffer, buffer_size, buffer_data_size))
      else if ra_enomem ra
      then Some (SUPLA_RESULT_FALSE, (Freed, buffer_size, buffer_data_size))
      else copy (resize (Z.to_nat size) (ra_fill ra) c)
    else copy c.

Definition sproto_in_buffer_append (ra : realloc_answer) (spd : TSuplaProtoData)
    (data : list Z) (data_size : Z) : option (Z * TSuplaProtoData) :=
  let i := spd_in spd in
  '(r, (b, sz, ds)) ← sproto_buffer_append ra (in_buffer i) (in_size i)
                        (in_data_size i) data data_size;
  Some (r, set_in (InBuf (in_begin_tag i) sz ds b) spd).

Definition out_append (ra : realloc_answer) (o : TSuplaProtoOutBuffer)
    (data : list Z) (data_size : Z) : option (Z * TSuplaProtoOutBuffer) :=
  '(r, (b, sz, ds)) ← sproto_buffer_append ra (out_buffer o) (out_size o)
                        (out_data_size o) data data_size;
  Some (r, OutBuf sz ds b).

Definition sproto_out_buffer_append (ra1 ra2 : realloc_answer) (spd : TSuplaProtoData)
    (sdp : TSuplaDataPacket) : option (Z * TSuplaProtoData) :=
  let packet_size := u32 (SIZEOF_SDP - SUPLA_MAX_DATA_SIZE + sdp_data_size sdp) in
  if SIZEOF_SDP <? packet_size then Some (SUPLA_RESULT_DATA_TOO_LARGE, spd)
  else
    '(r, o) ← out_append ra1 (spd_out spd) (sdp_bytes sdp) packet_size;
    if r =? SUPLA_RESULT_TRUE then
      '(r2, o2) ← out_append ra2 o sproto_tag SUPLA_TAG_SIZE;
      Some (r2, set_out o2 spd)
    else Some (SUPLA_RESULT_FALSE, set_out o spd).

(** [(n, bytes, spd')]: the number of bytes written to the caller's buffer, the
    bytes, the new state. *)
Definition sproto_pop_out_data (ra : realloc_answer) (spd : TSuplaProtoData)
    (buffer_null : bool) (buffer_size : Z) : option (Z * list Z * TSuplaProtoData) :=
  let o := spd_out spd in
  if (out_data_size o <=? 0) || (buffer_size =? 0) || buffer_null
  then Some (0, [], spd)
  else
    let n := if out_data_size o <? buffer_size then out_data_size o else buffer_size in
    c ← cells_of (out_buffer o);
    bytes ← read_at c 0 n;
    c' ← shift_down (Z.to_nat (out_data_size o - n)) (Z.to_nat n) 0 c;
    let ds := out_data_size o - n in
    if ds <? out_size o then
      let size := if ds <? BUFFER_MIN_SIZE then BUFFER_MIN_SIZE else ds in
      if negb (out_size o =? size) then
        if negb (ra_ok ra) && (0 <? size)
        then Some (n, bytes, set_out (OutBuf (out_size o) ds (Live c')) spd)
        else Some (n, bytes, set_out (OutBuf size ds (realloc ra c' size)) spd)
      else Some (n, bytes, set_out (OutBuf size ds (Live c')) spd)
    else Some (n, bytes, set_out (OutBuf (out_size o) ds (Live c')) spd).

Definition sproto_out_dataexists (spd : TSuplaProtoData) : Z :=
  if 0 <? out_data_size (spd_out spd) then SUPLA_RESULT_TRUE else SUPLA_RESULT_FALSE.

Definition sproto_in_dataexists (spd : TSuplaProtoData) : Z :=
  if 0 <? in_data_size (spd_in spd) then SUPLA_RESULT_TRUE else SUPLA_RESULT_FALSE.

Definition sproto_shrink_in_buffer (ra : realloc_answer) (i : TSuplaProtoInBuffer)
    (size : Z) : option TSuplaProtoInBuffer :=
  let old_size := in_size i in
  let size := if in_data_size i <? size then in_data_size i else size in
  c ← cells_of (in_buffer i);
  c' ← shift_down (Z.to_nat (in_data_size i - size)) (Z.to_nat size) 0 c;
  let ds := in_data_size i - size in
  if ds <? in_size i then
    let nsize := if ds <? BUFFER_MIN_SIZE then BUFFER_MIN_SIZE else ds in
    if negb (old_size =? nsize) then
      if negb (ra_ok ra) && (0 <? nsize)
      then Some (InBuf 0 old_size ds (Live c'))
      else Some (InBuf 0 nsize ds (realloc ra c' nsize))
    else Some (InBuf 0 nsize ds (Live c'))
  else Some (InBuf 0 (in_size i) ds (Live c')).

Definition set_sdp_version (v : Z) (p : TSuplaDataPacket) : TSuplaDataPacket :=
  SDP (sdp_tag p) v (sdp_rr_id p) (sdp_call_id p) (sdp_data_size p) (sdp_data p).

(** "shrink, then return [r]": the way the extraction leaves the function. *)
Definition shrink_and (ra : realloc_answer) (spd : TSuplaProtoData) (r : Z)
    (sdp : TSuplaDataPacket) (i : TSuplaProtoInBuffer) (n : Z)
    : option (Z * TSuplaDataPacket * TSuplaProtoData) :=
  i' ← sproto_shrink_in_buffer ra i n; Some (r, sdp, set_in i' spd).

(** The part of [sproto_pop_in_sdp] that runs with [begin_tag == 1]. *)
Definition pop_tagged (ra : realloc_answer) (spd : TSuplaProtoData)
    (sdp : TSuplaDataPacket) (i : TSuplaProtoInBuffer)
    : option (Z * TSuplaDataPacket * TSuplaProtoData) :=
  let header_size := SIZEOF_SDP - SUPLA_MAX_DATA_SIZE in
  if header_size <=? u32 (in_data_size i - SUPLA_TAG_SIZE) then
    c ← cells_of (in_buffer i);
    h ← read_at c 0 header_size;
    let _sdp := sdp_of_bytes h in
    if (SUPLA_PROTO_VERSION <? sdp_version _sdp)
       || (sdp_version _sdp <? SUPLA_PROTO_VERSION_MIN) then
      shrink_and ra spd SUPLA_RESULT_VERSION_ERROR
        (set_sdp_version (sdp_version _sdp) sdp) i (in_data_size i)
    else if SIZEOF_SDP - header_size <? sdp_data_size _sdp then
      shrink_and ra spd SUPLA_RESULT_DATA_ERROR sdp i (in_data_size i)
    else
      let packet_size := header_size + sdp_data_size _sdp in
      if in_data_size i <? packet_size + SUPLA_TAG_SIZE
      then Some (SUPLA_RESULT_FALSE, sdp, set_in i spd)
      else if in_size i <=? packet_size
      then shrink_and ra spd SUPLA_RESULT_DATA_ERROR sdp i (in_data_size i)
      else
        end_tag ← read_at c packet_size SUPLA_TAG_SIZE;
        if negb (bool_decide (end_tag = sproto_tag))
        then shrink_and ra spd SUPLA_RESULT_DATA_ERROR sdp i (in_data_size i)
        else
          b ← read_at c 0 packet_size;
          shrink_and ra spd SUPLA_RESULT_TRUE
            (sdp_of_bytes (b ++ drop (length b) (sdp_bytes sdp)))
            i (packet_size + SUPLA_TAG_SIZE)
  else Some (SUPLA_RESULT_FALSE, sdp, set_in i spd).

(** [(code, sdp', spd')] *)
Definition sproto_pop_in_sdp (ra : realloc_answer) (spd : TSuplaProtoData)
    (sdp : TSuplaDataPacket) : option (Z * TSuplaDataPacket * TSuplaProtoData) :=
  let i := spd_in spd in
  if (in_begin_tag i =? 0) && (SUPLA_TAG_SIZE <=? in_data_size i) then
    c ← cells_of (in_buffer i);
    t ← read_at c 0 SUPLA_TAG_SIZE;
    if bool_decide (t = sproto_tag)
    then pop_tagged ra spd sdp (InBuf 1 (in_size i) (in_data_size i) (in_buffer i))
    else shrink_and ra spd SUPLA_RESULT_DATA_ERROR sdp i (in_data_size i)
  else if in_begin_tag i =? 1 then pop_tagged ra spd sdp i
  else Some (SUPLA_RESULT_FALSE, sdp, spd).

Definition sproto_set_version (spd : TSuplaProtoData) (version : Z) : TSuplaProtoData :=
  SPD (spd_next_rr_id spd)
      (if (SUPLA_PROTO_VERSION_MIN <=? version) && (version <=? SUPLA_PROTO_VERSION)
       then version else SUPLA_PROTO_VERSION)
      (spd_in spd) (spd_out spd).

Definition sproto_get_version (spd : TSuplaProtoData) : Z := spd_version spd.

Definition next_rr_id (id : Z) : Z :=
  let id := u32 (id + 1) in if id =? 0 then u32 (id + 1) else id.

Definition sproto_sdp_init (spd : TSuplaProtoData) : TSuplaDataPacket * TSuplaProtoData :=
  let id := next_rr_id (spd_next_rr_id spd) in
  (SDP sproto_tag (spd_version spd) id 0 0 (replicate (Z.to_nat SUPLA_MAX_DATA_SIZE) 0),
   SPD id (spd_version spd) (spd_in spd) (spd_out spd)).

(** [data = None] is the null pointer. *)
Definition sproto_set_data (sdp : TSuplaDataPacket) (data : option (list Z))
    (data_size call_id : Z) : option (Z * TSuplaDataPacket) :=
  if (SUPLA_MAX_DATA_SIZE <? data_size)
     || ((0 <? data_size) && bool_decide (data = None))
  then Some (SUPLA_RESULT_FALSE, sdp)
  else
    d ← (if 0 <? data_size
         then src ← data; memcpy_to (sdp_data sdp) 0 src data_size
         else Some (sdp_data sdp));
    Some (SUPLA_RESULT_TRUE,
          SDP (sdp_tag sdp) (sdp_version sdp) (sdp_rr_id sdp) call_id data_size d).

(** ** Strings that travel in packets

    [src] is the content of a C string (no NUL among its characters), [dest] the
    array of [max_size] characters.  [strnlen] looks for the first NUL. *)

Fixpoint strnlen (l : list Z) (n : nat) : Z :=
  match n, l with
  | O, _ | _, [] => 0
  | S n', x :: l' => if x =? 0 then 0 else 1 + strnlen l' n'
  end.

(** snprintf(dest, max_size, "%s", src), for [0 < max_size] *)
Definition snprintf_s (dest src : list Z) (max_size : Z) : option (list Z) :=
  let s := take (Z.to_nat (max_size - 1)) src ++ [0] in
  memcpy_to dest 0 s (Z.of_nat (length s)).

(** Both pointers non-null, as in every call of the code; the result is
    [(dest', dest_size')]. *)
Definition sproto__set_null_terminated_string (src : option (list Z)) (dest : list Z)
    (dest_size max_size : Z) : option (list Z * Z) :=
  if max_size =? 0 then Some (dest, dest_size)
  else match src with
       | Some s =>
           d ← snprintf_s dest s max_size;
           Some (d, u16 (strnlen d (Z.to_nat (max_size - 1)) + 1))
       | None => d ← memcpy_to dest 0 [0] 1; Some (d, 1)
       end.

(** ** Buffers that hold a given content *)

(** The block is live, as large as [size] says, its first [ds] cells are
    [content], and it is below the limit. *)
Definition buf_ok (b : heap_block) (size ds : Z) (content : list Z) : Prop :=
  ∃ c, b = Live c ∧ Z.of_nat (length c) = size ∧ 0 <= ds <= size ∧
       size < BUFFER_MAX_SIZE ∧ take (Z.to_nat ds) c = content.

Definition in_ok (i : TSuplaProtoInBuffer) (content : list Z) : Prop :=
  buf_ok (in_buffer i) (in_size i) (in_data_size i) content ∧
  (in_begin_tag i = 0 ∨ in_begin_tag i = 1 ∧ take 5 content = sproto_tag).

Definition out_ok (o : TSuplaProtoOutBuffer) (content : list Z) : Prop :=
  buf_ok (out_buffer o) (out_size o) (out_data_size o) content.

Lemma buf_ok_length b size ds l : buf_ok b size ds l → Z.of_nat (length l) = ds.
Proof. intros (c & -> & <- & ? & ? & <-). rewrite length_take. lia. Qed.

Lemma buf_ok_init : buf_ok (Live []) 0 0 [].
Proof. exists []. repeat split; done. Qed.

Ltac proto_consts :=
  unfold SIZEOF_SDP, SDP_HEADER_SIZE, SUPLA_TAG_SIZE, SUPLA_MAX_DATA_SIZE,
    BUFFER_MIN_SIZE, BUFFER_MAX_SIZE in *.

Lemma take_resize_copy (c data : list Z) (ds n size : Z) fill :
  0 <= ds <= Z.of_nat (length c) → 0 <= n <= Z.of_nat (length data) →
  ds + n <= size →
  ∃ b', memcpy_to (resize (Z.to_nat size) fill c) ds data n = Some b' ∧
        Z.of_nat (length b') = size ∧
        take (Z.to_nat (ds + n)) b' = take (Z.to_nat ds) c ++ take (Z.to_nat n) data.
Proof.
  intros Hds Hn Hsz. unfold memcpy_to. rewrite length_resize, Z2Nat.id by lia.
  replace ((0 <=? ds) && (0 <=? n) && (ds + n <=? size)
           && (n <=? Z.of_nat (length data)))%bool with true by lia.
  eexists; split; [done|]. split.
  - rewrite !length_app, !length_take, length_drop, length_resize. lia.
  - assert (Ht : take (Z.to_nat ds) (resize (Z.to_nat size) fill c) = take (Z.to_nat ds) c).
    { rewrite resize_spec, take_app_le by (rewrite length_take; lia).
      rewrite take_take. f_equal. lia. }
    rewrite Ht, app_assoc, take_app_length'; [done|].
    rewrite length_app, !length_take. lia.
Qed.

(** What an append does on every branch, for a buffer of any content and data
    of a length below 2^31. *)
Lemma sproto_buffer_append_cases ra b sz ds l data n :
  buf_ok b sz ds l → 0 <= n <= Z.of_nat (length data) → n < 2 ^ 31 →
  ra_enomem ra = false →
  ∃ r b' sz' ds', sproto_buffer_append ra b sz ds data n = Some (r, (b', sz', ds')) ∧
    ((r = SUPLA_RESULT_TRUE ∧ ds + n < BUFFER_MAX_SIZE ∧
      buf_ok b' sz' ds' (l ++ take (Z.to_nat n) data)) ∨
     (r = SUPLA_RESULT_BUFFER_OVERFLOW ∧ BUFFER_MAX_SIZE <= ds + n ∧
      b' = b ∧ sz' = sz ∧ ds' = ds) ∨
     (r = SUPLA_RESULT_FALSE ∧ sz < ds + n ∧ ra_ok ra = false ∧
      b' = b ∧ sz' = sz ∧ ds' = ds)).
Proof.
  intros (c & -> & Hc & Hds & Hmax & <-) Hn Hn31 He. proto_consts.
  unfold sproto_buffer_append. proto_consts.
  replace (sz <? 0) with false by lia.
  rewrite (u32_id (sz - ds)) by wrap.
  set (size := if sz - ds <? n then _ else sz).
  assert (Hsize : size = Z.max sz (ds + n)).
  { unfold size. destruct (Z.ltb_spec (sz - ds) n); [|lia].
    rewrite (u32_id (n - (sz - ds))), u32_id by wrap. lia. }
  clearbody size. simpl. rewrite He.
  destruct (Z.leb_spec 131072 size).
  { do 4 eexists; split; [done|]. right; left. repeat split; try done. lia. }
  rewrite (u32_id (ds + n)) by wrap.
  destruct (Z.eqb_spec size sz) as [->|Hne]; simpl.
  - destruct (take_resize_copy c data ds n sz 0) as (b' & Hm & Hlen & Ht); [lia..|].
    rewrite resize_all_alt in Hm by lia. rewrite Hm. simpl. do 4 eexists; split; [done|]. left. repeat split; [lia|].
    exists b'. repeat split; try done; lia.
  - destruct (Z.ltb_spec 0 size); simpl; [|lia].
    destruct (ra_ok ra); simpl.
    + destruct (take_resize_copy c data ds n size (ra_fill ra)) as (b' & -> & Hlen & Ht);
        [lia..|].
      simpl. do 4 eexists; split; [done|]. left. repeat split; [lia|].
      exists b'. repeat split; try done; lia.
    + do 4 eexists; split; [done|]. right; right. repeat split; try done. lia.
Qed.

Lemma shifted_content (c : list Z) (ds n : Z) :
  0 <= n <= ds → ds <= Z.of_nat (length c) →
  ∃ c', shift_down (Z.to_nat (ds - n)) (Z.to_nat n) 0 c = Some c' ∧
        length c' = length c ∧
        take (Z.to_nat (ds - n)) c' = drop (Z.to_nat n) (take (Z.to_nat ds) c).
Proof.
  intros Hn Hds. rewrite shift_down_front by lia. eexists; split; [done|]. split.
  - rewrite length_app, length_take, !length_drop. lia.
  - rewrite take_app_length' by (rewrite length_take, length_drop; lia).
    rewrite take_drop_commute. f_equal. f_equal. lia.
Qed.

Lemma take_resize_same (c : list Z) n fill :
  (n <= length c)%nat → take n (resize n fill c) = take n c.
Proof. intros H. rewrite resize_le by done. rewrite take_take. f_equal. lia. Qed.

Lemma sproto_shrink_in_buffer_ok ra i l n :
  buf_ok (in_buffer i) (in_size i) (in_data_size i) l → 0 <= n →
  ∃ i', sproto_shrink_in_buffer ra i n = Some i' ∧ in_ok i' (drop (Z.to_nat n) l).
Proof.
  intros (c & Hb & Hc & Hds & Hmax & <-) Hn. unfold sproto_shrink_in_buffer.
  rewrite Hb. simpl.
  set (m := if in_data_size i <? n then _ else n).
  assert (Hm : m = Z.min n (in_data_size i)) by (unfold m; case_match; lia).
  assert (Hdrop : drop (Z.to_nat n) (take (Z.to_nat (in_data_size i)) c)
                  = drop (Z.to_nat m) (take (Z.to_nat (in_data_size i)) c)).
  { destruct (Z.le_ge_cases n (in_data_size i)); [f_equal; lia|].
    rewrite !drop_ge by (rewrite length_take; lia). done. }
  rewrite Hdrop. clear Hdrop. clearbody m. proto_consts.
  destruct (shifted_content c (in_data_size i) m) as (c' & -> & Hlen & Hcont); [lia..|].
  simpl. unfold realloc.
  repeat (case_match; simpl); eexists; (split; [done|]);
    (split; [|by left]); simpl;
    eexists; (split; [done|]); rewrite ?length_resize; proto_consts;
    (split; [lia|]); (split; [lia|]); (split; [lia|]);
    first [lia | rewrite ?take_resize_same by lia; done].
Qed.

(** ** The abstract framing of the input stream

    What [sproto_pop_in_sdp] promises, stated on the bytes received and not yet
    consumed: a frame is a header with a supported version and a size within the
    limit, its data, and the tag that ends it. *)

Inductive frame :=
  | NeedMore
  | BadData
  | BadVersion (v : Z)
  | Packet (bytes rest : list Z).

Definition frame_spec (l : list Z) : frame :=
  if Z.of_nat (length l) <? 5 then NeedMore
  else if negb (bool_decide (take 5 l = sproto_tag)) then BadData
  else if Z.of_nat (length l) <? 23 then NeedMore
  else
    let h := sdp_of_bytes (take 18 l) in
    if (SUPLA_PROTO_VERSION <? sdp_version h)
       || (sdp_version h <? SUPLA_PROTO_VERSION_MIN) then BadVersion (sdp_version h)
    else if SUPLA_MAX_DATA_SIZE <? sdp_data_size h then BadData
    else
      let n := Z.to_nat (18 + sdp_data_size h) in
      if Z.of_nat (length l) <? 18 + sdp_data_size h + 5 then NeedMore
      else if negb (bool_decide (take 5 (drop n l) = sproto_tag)) then BadData
      else Packet (take n l) (drop (n + 5) l).

(** How a frame shows in the result of [sproto_pop_in_sdp]: the code, the packet
    written to the caller's structure and the bytes left. *)
Definition frame_result (f : frame) (sdp : TSuplaDataPacket) (l : list Z)
    : Z * TSuplaDataPacket * list Z :=
  match f with
  | NeedMore => (SUPLA_RESULT_FALSE, sdp, l)
  | BadData => (SUPLA_RESULT_DATA_ERROR, sdp, [])
  | BadVersion v => (SUPLA_RESULT_VERSION_ERROR, set_sdp_version v sdp, [])
  | Packet b rest =>
      (SUPLA_RESULT_TRUE, sdp_of_bytes (b ++ drop (length b) (sdp_bytes sdp)), rest)
  end.

(** Header sizes are unsigned: the bytes of a header decode to [0 <= size]. *)
Definition bytes (l : list Z) : Prop := Forall is_u8 l.

Lemma of_le32_nonneg l : bytes l → 0 <= of_le32 l.
Proof.
  unfold bytes. intros H. destruct l as [|a [|b [|c [|d [|]]]]]; simpl; try lia.
  repeat match goal with H : Forall _ (_ :: _) |- _ => apply Forall_cons in H as [? H] end.
  wrap.
Qed.

Lemma sdp_of_bytes_size_nonneg l : bytes l → 0 <= sdp_data_size (sdp_of_bytes l).
Proof. intros H. apply of_le32_nonneg, Forall_take, Forall_drop, H. Qed.

Lemma in_ok_tag i l : in_ok i l → in_ok (InBuf 0 (in_size i) (in_data_size i) (in_buffer i)) l.
Proof. intros [H _]. split; [done|by left]. Qed.

Lemma buf_ok_read c ds size l off n :
  buf_ok (Live c) size ds l → 0 <= off → 0 <= n → off + n <= ds →
  read_at c off n = Some (take (Z.to_nat n) (drop (Z.to_nat off) l)).
Proof.
  intros (c' & [= <-] & Hc & Hds & _ & <-) Ho Hn Hle. unfold read_at.
  replace ((0 <=? off) && (0 <=? n) && (off + n <=? Z.of_nat (length c)))%bool
    with true by lia.
  f_equal. rewrite skipn_firstn_comm, take_take. f_equal. lia.
Qed.

(** An outcome of the extraction that agrees with frame [f] of the bytes [l]. *)
Definition agrees (o : option (Z * TSuplaDataPacket * TSuplaProtoData)) (f : frame)
    (spd : TSuplaProtoData) (sdp : TSuplaDataPacket) (l : list Z) : Prop :=
  ∃ i', o = Some ((frame_result f sdp l).1, set_in i' spd) ∧
        in_ok i' (frame_result f sdp l).2.

Lemma shrink_and_agrees ra spd r sdp i n l f sdp0 l0 :
  buf_ok (in_buffer i) (in_size i) (in_data_size i) l → 0 <= n →
  frame_result f sdp0 l0 = (r, sdp, drop (Z.to_nat n) l) →
  agrees (shrink_and ra spd r sdp i n) f spd sdp0 l0.
Proof.
  intros Hb Hn Hf. unfold shrink_and, agrees. rewrite Hf.
  destruct (sproto_shrink_in_buffer_ok ra i l n Hb Hn) as (i' & -> & Hi').
  eauto.
Qed.

Lemma drop_all_result b size ds l :
  buf_ok b size ds l → drop (Z.to_nat ds) l = [].
Proof. intros H. apply buf_ok_length in H. apply drop_ge. lia. Qed.

Lemma header_size_18 : SIZEOF_SDP - SUPLA_MAX_DATA_SIZE = 18.
Proof. reflexivity. Qed.

(** Steps of the option monad. *)
Ltac obind := cbn [mbind option_bind cells_of].

(** Once the opening tag is recognised, the extraction follows the framing of
    the bytes held. *)
Lemma pop_tagged_agrees ra spd sdp i l :
  buf_ok (in_buffer i) (in_size i) (in_data_size i) l → in_begin_tag i = 1 →
  take 5 l = sproto_tag → bytes l →
  agrees (pop_tagged ra spd sdp i) (frame_spec l) spd sdp l.
Proof.
  intros Hbuf Hone Htag Hbytes.
  pose proof (buf_ok_length _ _ _ _ Hbuf) as Hlen.
  pose proof (drop_all_result _ _ _ _ Hbuf) as Hdrop.
  assert (H5 : (5 <= length l)%nat).
  { apply (f_equal length) in Htag. rewrite length_take in Htag. cbn [sproto_tag length] in Htag. lia. }
  pose proof Hbuf as (c & Hb & _ & Hds & Hmax & _).
  assert (Hread : ∀ off n, 0 <= off → 0 <= n → off + n <= in_data_size i →
            read_at c off n = Some (take (Z.to_nat n) (drop (Z.to_nat off) l))).
  { intros. eapply buf_ok_read; try done. rewrite Hb in Hbuf. exact Hbuf. }
  assert (Hsame : agrees (Some (SUPLA_RESULT_FALSE, sdp, set_in i spd)) NeedMore spd sdp l).
  { exists i. repeat split; [done..|]. by right. }
  unfold pop_tagged, frame_spec. rewrite Hb. cbn zeta. rewrite header_size_18.
  change (SIZEOF_SDP - 18) with SUPLA_MAX_DATA_SIZE.
  unfold SUPLA_TAG_SIZE. rewrite u32_id by (proto_consts; wrap).
  replace (Z.of_nat (length l) <? 5) with false by lia.
  rewrite bool_decide_true by done. cbn [negb].
  destruct (Z.ltb_spec (Z.of_nat (length l)) 23) as [|H23].
  { by replace (18 <=? in_data_size i - 5) with false by lia. }
  replace (18 <=? in_data_size i - 5) with true by lia. obind.
  rewrite (Hread 0 18) by lia. obind. rewrite drop_0.
  change (Z.to_nat 18) with 18%nat.
  set (h := sdp_of_bytes (take 18 l)).
  assert (Hsize : 0 <= sdp_data_size h)
    by (apply sdp_of_bytes_size_nonneg, Forall_take, Hbytes).
  destruct ((SUPLA_PROTO_VERSION <? _) || _) eqn:Hv.
  { eapply shrink_and_agrees; [done|lia|]. by rewrite Hdrop. }
  destruct (SUPLA_MAX_DATA_SIZE <? sdp_data_size h) eqn:Hbig.
  { eapply shrink_and_agrees; [done|lia|]. by rewrite Hdrop. }
  rewrite Hlen.
  destruct (in_data_size i <? 18 + sdp_data_size h + 5) eqn:Hmore; [done|].
  replace (in_size i <=? 18 + sdp_data_size h) with false by lia.
  rewrite (Hread (18 + sdp_data_size h) 5) by lia. obind.
  change (Z.to_nat 5) with 5%nat.
  destruct (negb _) eqn:Hend.
  { eapply shrink_and_agrees; [done|lia|]. by rewrite Hdrop. }
  rewrite (Hread 0 (18 + sdp_data_size h)) by lia. obind. rewrite drop_0.
  eapply shrink_and_agrees; [done|lia|]. cbn [frame_result]. do 2 f_equal. lia.
Qed.

(** The extraction refines the abstract framing: whatever bytes were received,
    it returns (no access outside the buffer), with the code, the packet and the
    remaining content that [frame_spec] gives, and the buffer stays well formed. *)
Lemma pop_agrees ra spd sdp l :
  in_ok (spd_in spd) l → bytes l →
  agrees (sproto_pop_in_sdp ra spd sdp) (frame_spec l) spd sdp l.
Proof.
  intros [Hbuf Htag] Hbytes. pose proof (buf_ok_length _ _ _ _ Hbuf) as Hlen.
  unfold sproto_pop_in_sdp. cbn zeta. destruct Htag as [H0|[H1 Htag]].
  - rewrite H0. cbn [Z.eqb andb]. unfold SUPLA_TAG_SIZE.
    destruct (Z.leb_spec 5 (in_data_size (spd_in spd))) as [H5|H5].
    + pose proof Hbuf as (c & Hb & _ & Hds & _ & _). rewrite Hb in *. obind.
      erewrite buf_ok_read by (first [exact Hbuf|lia]). obind. rewrite drop_0.
      change (Z.to_nat 5) with 5%nat.
      destruct (bool_decide_reflect (take 5 l = sproto_tag)) as [Ht|Ht].
      * by apply pop_tagged_agrees.
      * unfold frame_spec. replace (Z.of_nat (length l) <? 5) with false by lia.
        rewrite bool_decide_false by done. cbn [negb].
        eapply shrink_and_agrees; [by rewrite Hb|lia|].
        by rewrite (drop_all_result _ _ _ _ Hbuf).
    + unfold frame_spec. replace (Z.of_nat (length l) <? 5) with true by lia.
      exists (spd_in spd). split; [by destruct spd|]. split; [done|by left].
  - rewrite H1. cbn [Z.eqb andb]. by apply pop_tagged_agrees.
Qed.

(** ** The wire image of a packet *)

Definition wire (p : TSuplaDataPacket) : list Z :=
  take (Z.to_nat (18 + sdp_data_size p)) (sdp_bytes p) ++ sproto_tag.

Record sdp_wf (p : TSuplaDataPacket) : Prop := {
  wf_tag : sdp_tag p = sproto_tag;
  wf_version : SUPLA_PROTO_VERSION_MIN <= sdp_version p <= SUPLA_PROTO_VERSION;
  wf_rr_id : is_u32 (sdp_rr_id p);
  wf_call_id : is_u32 (sdp_call_id p);
  wf_data_size : 0 <= sdp_data_size p <= SUPLA_MAX_DATA_SIZE;
  wf_data_length : Z.of_nat (length (sdp_data p)) = SUPLA_MAX_DATA_SIZE;
  wf_data : bytes (sdp_data p)
}.

(** What the length of the image depends on. *)
Record sdp_shape (p : TSuplaDataPacket) : Prop := {
  sh_tag : sdp_tag p = sproto_tag;
  sh_data_size : 0 <= sdp_data_size p <= SUPLA_MAX_DATA_SIZE;
  sh_data_length : Z.of_nat (length (sdp_data p)) = SUPLA_MAX_DATA_SIZE
}.

Lemma wf_shape p : sdp_wf p → sdp_shape p.
Proof. by intros [? _ _ _ ? ? _]. Qed.

Coercion wf_shape : sdp_wf >-> sdp_shape.

(** The meaningful part of a packet: the cells of [data] beyond [data_size] are
    left over from whatever the structure held before. *)
Definition payload (p : TSuplaDataPacket) : Z * Z * Z * list Z :=
  (sdp_version p, sdp_rr_id p, sdp_call_id p,
   take (Z.to_nat (sdp_data_size p)) (sdp_data p)).

Lemma of_le32_le32 z : is_u32 z → of_le32 (le32 z) = z.
Proof.
  unfold is_u32. intros H. cbn [of_le32 le32].
  pose proof (Z.div_mod z 256). pose proof (Z.div_mod (z / 256) 256).
  pose proof (Z.div_mod (z / 65536) 256).
  replace 65536 with (256 * 256) in * by lia.
  replace 16777216 with (256 * 256 * 256) in * by lia.
  rewrite <- !Z.div_div in * by lia.
  assert (0 <= z / 256 / 256 / 256 < 256).
  { rewrite !Z.div_div by lia. split; [apply Z.div_pos; lia|].
    apply Z.div_lt_upper_bound; lia. }
  rewrite (Z.mod_small (z / 256 / 256 / 256)) by lia. lia.
Qed.

Lemma le32_bytes z : bytes (le32 z).
Proof. repeat constructor; apply Z.mod_pos_bound; lia. Qed.

Lemma sdp_bytes_length p : sdp_shape p → Z.of_nat (length (sdp_bytes p)) = SIZEOF_SDP.
Proof.
  intros [Ht _ Hl]. unfold sdp_bytes, sdp_header. rewrite Ht, !length_app.
  cbn [sproto_tag le32 length]. proto_consts. lia.
Qed.

Lemma sdp_bytes_bytes p : sdp_wf p → bytes (sdp_bytes p).
Proof.
  intros [Ht Hv _ _ _ _ Hd]. unfold sdp_bytes, sdp_header. rewrite Ht.
  unfold SUPLA_PROTO_VERSION, SUPLA_PROTO_VERSION_MIN in Hv.
  repeat apply Forall_app_2; try apply le32_bytes; try done;
    repeat constructor; wrap.
Qed.

(** Decoding a structure that starts with the header of [p]. *)
Lemma sdp_of_bytes_header p d :
  sdp_wf p →
  sdp_of_bytes (sdp_header p ++ d) =
  SDP sproto_tag (sdp_version p) (sdp_rr_id p) (sdp_call_id p) (sdp_data_size p) d.
Proof.
  intros [Ht _ Hr Hc Hs _ _]. unfold sdp_header. rewrite Ht.
  unfold sdp_of_bytes, sproto_tag.
  change (take 5 _) with sproto_tag.
  assert (is_u32 (sdp_data_size p)) by (proto_consts; wrap).
  f_equal; [exact (of_le32_le32 _ Hr)|exact (of_le32_le32 _ Hc)|by apply of_le32_le32].
Qed.

Lemma take_18_sdp_bytes p : sdp_wf p → take 18 (sdp_bytes p) = sdp_header p.
Proof.
  intros [Ht _ _ _ _ _ _]. unfold sdp_bytes.
  apply take_app_length'. unfold sdp_header. by rewrite Ht.
Qed.

Lemma wire_length p :
  sdp_shape p → Z.of_nat (length (wire p)) = 18 + sdp_data_size p + 5.
Proof.
  intros H. pose proof (sdp_bytes_length p H). destruct H as [_ Hs _].
  unfold wire. rewrite length_app, length_take. cbn [sproto_tag length].
  proto_consts. lia.
Qed.

Lemma wire_bytes p : sdp_wf p → bytes (wire p).
Proof.
  intros H. apply Forall_app_2; [by apply Forall_take, sdp_bytes_bytes|].
  repeat constructor; wrap.
Qed.

Lemma take_wire p n :
  sdp_wf p → (n <= 18)%nat → take n (wire p) = take n (sdp_header p).
Proof.
  intros H Hn. pose proof (sdp_bytes_length p H) as Hl.
  destruct (wf_data_size p H) as [Hs _]. unfold wire.
  rewrite take_app_le by (rewrite length_take; proto_consts; lia).
  rewrite take_take, <- take_18_sdp_bytes, take_take by done. f_equal. lia.
Qed.

Lemma take_prefix {A} n (l k : list A) :
  l `prefix_of` k → (n <= length l)%nat → take n l = take n k.
Proof. intros [x ->] Hn. by rewrite take_app_le. Qed.

Lemma frame_spec_prefix p l :
  sdp_wf p → l `prefix_of` wire p → l ≠ wire p → frame_spec l = NeedMore.
Proof.
  intros H Hpre Hne. unfold frame_spec.
  destruct (Z.ltb_spec (Z.of_nat (length l)) 5) as [|H5]; [done|].
  rewrite (take_prefix 5 l (wire p)), take_wire by (done || lia).
  rewrite bool_decide_true by (unfold sdp_header; by rewrite (wf_tag p H)). cbn [negb].
  destruct (Z.ltb_spec (Z.of_nat (length l)) 23) as [|H23]; [done|].
  rewrite (take_prefix 18 l (wire p)), take_wire by (done || lia).
  rewrite take_ge by (unfold sdp_header; by rewrite (wf_tag p H)).
  rewrite <- (app_nil_r (sdp_header p)), sdp_of_bytes_header by done.
  cbn [sdp_version sdp_data_size].
  destruct (wf_version p H) as [Hv1 Hv2]. destruct (wf_data_size p H) as [Hs1 Hs2].
  replace (_ || _)%bool with false by lia.
  replace (SUPLA_MAX_DATA_SIZE <? sdp_data_size p) with false by lia.
  pose proof (wire_length p H) as Hwl. destruct Hpre as [x Hx].
  destruct x as [|y x]; [by rewrite app_nil_r in Hx|].
  rewrite Hx, length_app in Hwl. cbn [length] in Hwl.
  by replace (_ <? _) with true by lia.
Qed.

Lemma frame_spec_wire p rest :
  sdp_wf p →
  frame_spec (wire p ++ rest) =
  Packet (take (Z.to_nat (18 + sdp_data_size p)) (sdp_bytes p)) rest.
Proof.
  intros H. pose proof (wire_length p H) as Hwl.
  pose proof (sdp_bytes_length p H) as Hbl.
  destruct (wf_version p H) as [Hv1 Hv2]. destruct (wf_data_size p H) as [Hs1 Hs2].
  unfold frame_spec.
  replace (Z.of_nat (length (wire p ++ rest)) <? 5) with false
    by (rewrite length_app; bool_lia).
  rewrite (take_app_le _ rest 5), take_wire by (done || lia).
  rewrite bool_decide_true by (unfold sdp_header; by rewrite (wf_tag p H)). cbn [negb].
  replace (Z.of_nat (length (wire p ++ rest)) <? 23) with false
    by (rewrite length_app; bool_lia).
  rewrite (take_app_le _ rest 18), take_wire by (done || lia).
  rewrite (take_ge (sdp_header p)) by (unfold sdp_header; by rewrite (wf_tag p H)).
  rewrite <- (app_nil_r (sdp_header p)), sdp_of_bytes_header by done.
  cbn [sdp_version sdp_data_size].
  replace (_ || _)%bool with false by lia.
  replace (SUPLA_MAX_DATA_SIZE <? sdp_data_size p) with false by lia.
  replace (_ <? 18 + sdp_data_size p + 5) with false by (rewrite length_app; bool_lia).
  unfold wire. rewrite <- app_assoc.
  set (n := Z.to_nat (18 + sdp_data_size p)). set (b := take n (sdp_bytes p)).
  assert (Hb : length b = n) by (unfold b; rewrite length_take; proto_consts; lia).
  rewrite (drop_app_length' b), (take_app_length' sproto_tag) by done.
  rewrite bool_decide_true by done. cbn [negb].
  rewrite take_app_length' by done.
  rewrite app_assoc, drop_app_length'; [done|].
  rewrite length_app, Hb. done.
Qed.

(** The packet that the extraction writes has the payload that was sent. *)
Lemma payload_decoded p old :
  sdp_wf p →
  let b := take (Z.to_nat (18 + sdp_data_size p)) (sdp_bytes p) in
  payload (sdp_of_bytes (b ++ drop (length b) (sdp_bytes old))) = payload p.
Proof.
  intros H b. destruct (wf_data_size p H) as [Hs1 Hs2].
  pose proof (wf_data_length p H) as Hdl.
  assert (Hb : b = sdp_header p ++ take (Z.to_nat (sdp_data_size p)) (sdp_data p)).
  { unfold b. rewrite <- (take_18_sdp_bytes p H) at 1.
    assert (Hd : sdp_data p = drop 18 (sdp_bytes p)).
    { unfold sdp_bytes. symmetry. apply drop_app_length'. unfold sdp_header.
      by rewrite (wf_tag p H). }
    rewrite Hd. rewrite take_take_drop. f_equal. lia. }
  rewrite Hb at 1. rewrite <- app_assoc, sdp_of_bytes_header by done.
  unfold payload. cbn [sdp_version sdp_rr_id sdp_call_id sdp_data_size sdp_data].
  f_equal. apply take_app_length'. rewrite length_take. lia.
Qed.

(** ** Receiving a stream

    "while ((result = sproto_pop_in_sdp(...)) == SUPLA_RESULT_TRUE)": the packets
    taken, the last result and the state.  Every packet shortens the buffer, so
    the size of the buffer is fuel enough. *)
Fixpoint pop_all (fuel : nat) (ra : realloc_answer) (spd : TSuplaProtoData)
    (sdp : TSuplaDataPacket)
    : option (list TSuplaDataPacket * Z * TSuplaDataPacket * TSuplaProtoData) :=
  match fuel with
  | O => None
  | S fuel' =>
      '(r, sdp', spd') ← sproto_pop_in_sdp ra spd sdp;
      if r =? SUPLA_RESULT_TRUE then
        '(ps, r', sdp'', spd'') ← pop_all fuel' ra spd' sdp';
        Some (sdp' :: ps, r', sdp'', spd'')
      else Some ([], r, sdp', spd')
  end.

(** One chunk read from the socket, then all the packets it completes. *)
Definition receive_chunk (ra : realloc_answer) (spd : TSuplaProtoData)
    (sdp : TSuplaDataPacket) (chunk : list Z)
    : option (list TSuplaDataPacket * Z * TSuplaDataPacket * TSuplaProtoData) :=
  '(r, spd') ← sproto_in_buffer_append ra spd chunk (Z.of_nat (length chunk));
  if r =? SUPLA_RESULT_TRUE
  then pop_all (S (Z.to_nat (in_data_size (spd_in spd')))) ra spd' sdp
  else Some ([], r, sdp, spd').

Fixpoint receive (ra : realloc_answer) (spd : TSuplaProtoData) (sdp : TSuplaDataPacket)
    (chunks : list (list Z)) : option (list TSuplaDataPacket * Z) :=
  match chunks with
  | [] => Some ([], SUPLA_RESULT_FALSE)
  | c :: chunks' =>
      '(ps, r, sdp', spd') ← receive_chunk ra spd sdp c;
      if r =? SUPLA_RESULT_FALSE then
        '(ps', r') ← receive ra spd' sdp' chunks'; Some (ps ++ ps', r')
      else Some (ps, r)
  end.

Definition wires (ps : list TSuplaDataPacket) : list Z := mjoin (wire <$> ps).

Lemma wires_bytes ps : Forall sdp_wf ps → bytes (wires ps).
Proof.
  unfold wires. induction 1; cbn; [constructor|].
  apply Forall_app_2; [by apply wire_bytes|done].
Qed.

Lemma pop_all_wires ra ps : ∀ fuel spd sdp tail,
  Forall sdp_wf ps → bytes tail → frame_spec tail = NeedMore →
  in_ok (spd_in spd) (wires ps ++ tail) → (length ps < fuel)%nat →
  ∃ out sdp' spd', pop_all fuel ra spd sdp = Some (out, SUPLA_RESULT_FALSE, sdp', spd') ∧
    payload <$> out = payload <$> ps ∧ in_ok (spd_in spd') tail.
Proof.
  induction ps as [|p ps IH]; intros [|fuel] spd sdp tail Hps Htb Htail Hok Hfuel;
    cbn [length] in Hfuel; try lia; cbn [pop_all].
  - change (wires []) with (@nil Z) in Hok. cbn [app] in Hok.
    destruct (pop_agrees ra spd sdp tail Hok Htb) as (i' & -> & Hi').
    rewrite Htail in *. cbn. eexists [], _, _. split; [done|]. split; [done|exact Hi'].
  - apply Forall_cons in Hps as [Hp Hps].
    assert (Hb : bytes (wires (p :: ps) ++ tail)).
    { apply Forall_app_2; [apply wires_bytes; by constructor|done]. }
    destruct (pop_agrees ra spd sdp _ Hok Hb) as (i' & -> & Hi').
    unfold wires in *. cbn [fmap list_fmap mjoin list_join] in *.
    rewrite <- app_assoc in *.
    rewrite (frame_spec_wire p _ Hp) in *. cbn [frame_result] in *. obind.
    cbn [Z.eqb SUPLA_RESULT_TRUE fst snd] in *.
    edestruct (IH fuel (set_in i' spd)) as (out & sdp' & spd' & -> & Hout & Hok');
      [done|exact Htb|done|exact Hi'|lia|].
    obind. do 3 eexists. split; [done|]. split; [|done].
    cbn [fmap list_fmap]. f_equal; [|done]. apply (payload_decoded p sdp Hp).
Qed.

(** A prefix of a stream of packets is some whole packets and an incomplete one. *)
Lemma wires_prefix ps : ∀ l more,
  Forall sdp_wf ps → l ++ more = wires ps →
  ∃ ps1 ps2 tail, ps = ps1 ++ ps2 ∧ l = wires ps1 ++ tail ∧
    tail ++ more = wires ps2 ∧ frame_spec tail = NeedMore ∧
    Z.of_nat (length tail) < SIZEOF_SDP + SUPLA_TAG_SIZE.
Proof.
  induction ps as [|p ps IH]; intros l more Hps Heq.
  - apply app_eq_nil in Heq as [-> ->]. exists [], [], [].
    split_and!; [done..|proto_consts; cbn; lia].
  - apply Forall_cons in Hps as [Hp Hps].
    unfold wires in Heq. cbn [fmap list_fmap mjoin list_join] in Heq.
    destruct (app_eq_inv _ _ _ _ Heq) as [(k & -> & Hk2)|(k & Hk1 & Hk2)].
    + symmetry in Hk2.
      destruct (IH k more Hps Hk2) as (ps1 & ps2 & tail & -> & -> & Ht & Hf & Hl).
      exists (p :: ps1), ps2, tail. split_and!; [done| |done..].
      unfold wires. cbn [fmap list_fmap mjoin list_join]. by rewrite <- app_assoc.
    + destruct (decide (k = [])) as [->|Hk].
      * rewrite app_nil_r in Hk1. subst l. exists [p], ps, [].
        split_and!; [done|by cbn; rewrite !app_nil_r|done|done|proto_consts; cbn; lia].
      * exists [], (p :: ps), l. split_and!; [done|done|done| |].
        -- apply (frame_spec_prefix p); [done|by exists k|].
           intros ->. apply (f_equal length) in Hk1. rewrite length_app in Hk1.
           destruct k; [done|]. cbn [length] in Hk1. lia.
        -- pose proof (wire_length p Hp) as Hl. destruct (wf_data_size p Hp).
           rewrite Hk1, length_app in Hl. destruct k; [done|]. cbn [length] in Hl.
           proto_consts. lia.
Qed.

Lemma length_wires_ge ps :
  Forall sdp_wf ps → (length ps <= length (wires ps))%nat.
Proof.
  induction 1 as [|p ps Hp Hps IH]; [done|].
  pose proof (wire_length p Hp). destruct (wf_data_size p Hp).
  change (wires (p :: ps)) with (wire p ++ wires ps). rewrite length_app. cbn. lia.
Qed.

(** The largest chunk [srpc_iterate] reads at a time. *)
Definition SRPC_BUFFER_SIZE : Z := 32768.

Lemma receive_wires ra chunks : ∀ ps spd sdp l,
  Forall sdp_wf ps → ra_ok ra = true → ra_enomem ra = false →
  Forall (λ c, Z.of_nat (length c) <= SRPC_BUFFER_SIZE) chunks →
  in_ok (spd_in spd) l → frame_spec l = NeedMore →
  Z.of_nat (length l) < SIZEOF_SDP + SUPLA_TAG_SIZE →
  l ++ mjoin chunks = wires ps →
  ∃ out, receive ra spd sdp chunks = Some (out, SUPLA_RESULT_FALSE) ∧
         payload <$> out = payload <$> ps.
Proof.
  induction chunks as [|c chunks IH]; intros ps spd sdp l Hps Hra Hen Hsz Hok Hf Hl Heq.
  { cbn [mjoin list_join] in Heq. rewrite app_nil_r in Heq. subst l.
    destruct ps as [|p ps]; [by eexists []|].
    apply Forall_cons in Hps as [Hp Hps].
    change (wires (p :: ps)) with (wire p ++ wires ps) in Hf.
    by rewrite frame_spec_wire in Hf. }
  apply Forall_cons in Hsz as [Hc Hsz]. unfold SRPC_BUFFER_SIZE in Hc.
  cbn [mjoin list_join] in Heq. rewrite app_assoc in Heq.
  destruct (wires_prefix ps _ _ Hps Heq) as (ps1 & ps2 & tail & -> & Hlc & Ht & Htf & Htl).
  apply Forall_app in Hps as [Hps1 Hps2].
  destruct Hok as [Hbuf Htag].
  pose proof (buf_ok_length _ _ _ _ Hbuf) as Hds.
  cbn [receive]. unfold receive_chunk, sproto_in_buffer_append.
  edestruct (sproto_buffer_append_cases ra) as (r & b' & sz' & ds' & -> & Hcases);
    [exact Hbuf|split; [lia|apply Z.le_refl]|lia|done|].
  proto_consts.
  destruct Hcases as [(-> & _ & Hbuf')|[(_ & Hov & _)|(_ & _ & Habs & _)]];
    [|lia|congruence].
  rewrite Nat2Z.id, firstn_all in Hbuf'. rewrite Hlc in Hbuf'. obind.
  assert (Htb : bytes tail).
  { pose proof (wires_bytes _ Hps2) as Hb. rewrite <- Ht in Hb.
    by apply Forall_app in Hb as [? _]. }
  pose proof (buf_ok_length _ _ _ _ Hbuf') as Hds'. rewrite length_app in Hds'.
  pose proof (length_wires_ge ps1 Hps1).
  change (SUPLA_RESULT_TRUE =? SUPLA_RESULT_TRUE) with true. cbn iota.
  set (spd1 := set_in (InBuf (in_begin_tag (spd_in spd)) sz' ds' b') spd).
  destruct (pop_all_wires ra ps1 (S (Z.to_nat (in_data_size (spd_in spd1)))) spd1 sdp tail)
    as (out1 & sdp1 & spd2 & -> & Hout1 & Hok2); [done..| |cbn; lia|].
  { split; [done|]. cbn. destruct Htag as [?|[? Htag]]; [by left|right].
    split; [done|]. rewrite <- Hlc. rewrite take_app_le; [done|].
    apply (f_equal length) in Htag. rewrite length_take in Htag.
    cbn [sproto_tag length] in Htag. lia. }
  obind. change (SUPLA_RESULT_FALSE =? SUPLA_RESULT_FALSE) with true. cbn iota.
  edestruct (IH ps2 spd2 sdp1 tail) as (out2 & -> & Hout2); [done..|].
  obind. eexists; split; [done|]. by rewrite !fmap_app, Hout1, Hout2.
Qed.

(** ** The input buffer *)

Lemma in_append_cases ra spd data n l :
  in_ok (spd_in spd) l → 0 <= n <= Z.of_nat (length data) → n < 2 ^ 31 →
  ra_enomem ra = false →
  ∃ r i', sproto_in_buffer_append ra spd data n = Some (r, set_in i' spd) ∧
    ((r = SUPLA_RESULT_TRUE ∧ Z.of_nat (length l) + n < BUFFER_MAX_SIZE ∧
      in_ok i' (l ++ take (Z.to_nat n) data)) ∨
     (r = SUPLA_RESULT_BUFFER_OVERFLOW ∧ BUFFER_MAX_SIZE <= Z.of_nat (length l) + n ∧
      i' = spd_in spd) ∨
     (r = SUPLA_RESULT_FALSE ∧ ra_ok ra = false ∧ i' = spd_in spd)).
Proof.
  intros [Hbuf Htag] Hn H31 Hen. pose proof (buf_ok_length _ _ _ _ Hbuf) as Hds.
  unfold sproto_in_buffer_append.
  destruct (sproto_buffer_append_cases ra _ _ _ _ data n Hbuf Hn H31 Hen)
    as (r & b' & sz' & ds' & -> & Hc). obind. do 2 eexists. split; [done|].
  destruct Hc as [(-> & Hlt & Hok)|[(-> & Hge & -> & -> & ->)|(-> & _ & Hra & -> & -> & ->)]].
  - left. split; [done|]. split; [lia|]. split; [done|]. cbn [in_begin_tag].
    destruct Htag as [?|[? Htag]]; [by left|right]. split; [done|].
    rewrite take_app_le; [done|]. apply (f_equal length) in Htag.
    rewrite length_take in Htag. cbn [sproto_tag length] in Htag. lia.
  - right; left. split_and!; [done|lia|by destruct (spd_in spd)].
  - right; right. split_and!; [done|done|by destruct (spd_in spd)].
Qed.

(** ** The output buffer *)

(** What [sproto_out_buffer_append] does on every branch. *)
Lemma out_append_cases ra1 ra2 spd p l :
  sdp_shape p → out_ok (spd_out spd) l → ra_enomem ra1 = false → ra_enomem ra2 = false →
  ∃ r o', sproto_out_buffer_append ra1 ra2 spd p = Some (r, set_out o' spd) ∧
    ((r = SUPLA_RESULT_TRUE ∧ out_ok o' (l ++ wire p)) ∨
     (r = SUPLA_RESULT_FALSE ∧ o' = spd_out spd ∧
      (ra_ok ra1 = false ∨
       BUFFER_MAX_SIZE <= Z.of_nat (length l) + 18 + sdp_data_size p)) ∨
     (r ≠ SUPLA_RESULT_TRUE ∧
      out_ok o' (l ++ take (Z.to_nat (18 + sdp_data_size p)) (sdp_bytes p)) ∧
      (ra_ok ra2 = false ∨
       BUFFER_MAX_SIZE <= Z.of_nat (length l) + Z.of_nat (length (wire p))))).
Proof.
  intros Hp Hok He1 He2. destruct (sh_data_size p Hp) as [Hs1 Hs2].
  pose proof (sdp_bytes_length p Hp) as Hbl. pose proof (buf_ok_length _ _ _ _ Hok) as Hds.
  unfold sproto_out_buffer_append. cbn zeta. rewrite header_size_18.
  rewrite u32_id by (proto_consts; wrap).
  replace (SIZEOF_SDP <? 18 + sdp_data_size p) with false by (proto_consts; lia).
  unfold out_append.
  destruct (sproto_buffer_append_cases ra1 _ _ _ _ (sdp_bytes p) (18 + sdp_data_size p) Hok)
    as (r & b' & sz' & ds' & -> & Hc); [proto_consts; lia..|done|]. obind.
  destruct Hc as [(-> & _ & Hok')|[(-> & Hov & -> & -> & ->)|(-> & _ & Hra & -> & -> & ->)]].
  - change (SUPLA_RESULT_TRUE =? SUPLA_RESULT_TRUE) with true. cbn iota.
    pose proof (buf_ok_length _ _ _ _ Hok') as Hds'. rewrite length_app, length_take in Hds'.
    destruct (sproto_buffer_append_cases ra2 _ _ _ _ sproto_tag SUPLA_TAG_SIZE Hok')
      as (r2 & b2 & sz2 & ds2 & E & Hc2); [done..|]. cbn [out_buffer out_size out_data_size].
    rewrite E. obind. pose proof (wire_length p Hp).
    do 2 eexists. split; [done|].
    destruct Hc2 as [(-> & _ & Hok2)|[(-> & Hov & -> & -> & ->)|(-> & _ & Hra & -> & -> & ->)]].
    + left. split; [done|]. unfold out_ok, wire. by rewrite app_assoc.
    + right; right. split_and!; [done|done|]. right. proto_consts. lia.
    + right; right. split_and!; [done|done|by left].
  - do 2 eexists. split; [done|]. right; left. split_and!; [done|by destruct (spd_out spd)|].
    right. proto_consts. lia.
  - do 2 eexists. split; [done|]. right; left. split_and!; [done|by destruct (spd_out spd)|].
    by left.
Qed.

(** Data leave the output buffer from its front, at most [n] cells at a time. *)
Lemma sproto_pop_out_data_ok ra spd n l :
  out_ok (spd_out spd) l → 0 <= n →
  ∃ o', sproto_pop_out_data ra spd false n =
          Some (Z.min n (Z.of_nat (length l)), take (Z.to_nat n) l, set_out o' spd) ∧
        out_ok o' (drop (Z.to_nat n) l).
Proof.
  intros Hok Hn. pose proof (buf_ok_length _ _ _ _ Hok) as Hlen.
  unfold sproto_pop_out_data. cbn zeta. rewrite orb_false_r.
  destruct ((out_data_size (spd_out spd) <=? 0) || (n =? 0)) eqn:H0.
  { exists (spd_out spd). apply orb_true_iff in H0 as [H0|H0].
    - assert (l = []) as -> by (destruct l; [done|cbn in Hlen; lia]).
      rewrite take_nil, drop_nil. split; [|done]. cbn. repeat f_equal; [lia|by destruct spd].
    - apply Z.eqb_eq in H0 as ->. cbn [Z.to_nat take drop]. rewrite take_0, drop_0.
      split; [|done]. repeat f_equal; [lia|by destruct spd]. }
  destruct Hok as (c & Hb & Hc & Hds & Hmax & Hl). rewrite Hb. obind.
  set (m := if out_data_size (spd_out spd) <? n then _ else n).
  assert (Hm : m = Z.min n (out_data_size (spd_out spd))) by (unfold m; case_match; lia).
  clearbody m. rewrite read_at_0 by lia. obind.
  destruct (shifted_content c (out_data_size (spd_out spd)) m)
    as (c' & -> & Hlen' & Hcont); [lia..|]. obind.
  assert (Htake : take (Z.to_nat m) c = take (Z.to_nat n) l).
  { rewrite <- Hl, take_take. f_equal. lia. }
  assert (Hdrop : drop (Z.to_nat m) (take (Z.to_nat (out_data_size (spd_out spd))) c)
                  = drop (Z.to_nat n) l).
  { rewrite Hl. destruct (Z.le_ge_cases n (out_data_size (spd_out spd))); [f_equal; lia|].
    rewrite !drop_ge by lia. done. }
  rewrite Htake. rewrite Hdrop in Hcont. replace m with (Z.min n (Z.of_nat (length l))) by lia.
  rewrite Hlen, <- Hm. unfold realloc, BUFFER_MIN_SIZE.
  replace (out_data_size (spd_out spd) - m <? 0) with false by lia.
  set (ds := out_data_size (spd_out spd) - m) in *.
  assert (Hds' : 0 <= ds <= out_size (spd_out spd)) by lia. clearbody ds.
  repeat case_match; eexists; (split; [done|]); cbn [out_buffer out_size out_data_size];
    (eexists; split_and!; [done|..|eassumption || (by rewrite take_resize_same by lia)]);
    cbn [out_size out_data_size]; rewrite ?length_resize; lia.
Qed.

(** ** A sender and a receiver *)

Fixpoint send_all (ra : realloc_answer) (spd : TSuplaProtoData)
    (ps : list TSuplaDataPacket) : option (Z * TSuplaProtoData) :=
  match ps with
  | [] => Some (SUPLA_RESULT_TRUE, spd)
  | p :: ps' =>
      '(r, spd') ← sproto_out_buffer_append ra ra spd p;
      if r =? SUPLA_RESULT_TRUE then send_all ra spd' ps' else Some (r, spd')
  end.

(** Everything in the output buffer, read [n] cells at a time. *)
Fixpoint drain_out (fuel : nat) (ra : realloc_answer) (spd : TSuplaProtoData) (n : Z)
    : option (list (list Z)) :=
  match fuel with
  | O => None
  | S fuel' =>
      '(k, bytes, spd') ← sproto_pop_out_data ra spd false n;
      if k =? 0 then Some []
      else rest ← drain_out fuel' ra spd' n; Some (bytes :: rest)
  end.

Lemma send_all_ok ra ps : ∀ spd l,
  Forall sdp_wf ps → ra_ok ra = true → ra_enomem ra = false → out_ok (spd_out spd) l →
  Z.of_nat (length (l ++ wires ps)) < BUFFER_MAX_SIZE →
  ∃ spd', send_all ra spd ps = Some (SUPLA_RESULT_TRUE, spd') ∧
          out_ok (spd_out spd') (l ++ wires ps).
Proof.
  induction ps as [|p ps IH]; intros spd l Hps Hra Hen Hok Hlen.
  { exists spd. cbn [send_all]. split; [done|]. by rewrite app_nil_r. }
  apply Forall_cons in Hps as [Hp Hps]. cbn [send_all].
  change (wires (p :: ps)) with (wire p ++ wires ps) in *.
  destruct (out_append_cases ra ra spd p l Hp Hok Hen Hen) as (r & o' & -> & Hc). obind.
  pose proof (wire_length p Hp) as Hw. rewrite !length_app in Hlen.
  destruct Hc as [(-> & Hok')|[(_ & _ & [?|?])|(_ & _ & [?|?])]];
    [|congruence|lia|congruence|lia].
  change (SUPLA_RESULT_TRUE =? SUPLA_RESULT_TRUE) with true. cbn iota.
  destruct (IH (set_out o' spd) (l ++ wire p)) as (spd' & -> & Hok2); try done.
  { rewrite !length_app. lia. }
  exists spd'. split; [done|]. by rewrite app_assoc.
Qed.

Lemma drain_out_ok ra n : 0 < n → ∀ fuel spd l,
  out_ok (spd_out spd) l → (length l < fuel)%nat →
  ∃ chunks, drain_out fuel ra spd n = Some chunks ∧ mjoin chunks = l ∧
            Forall (λ c, Z.of_nat (length c) <= n) chunks.
Proof.
  intros Hn. induction fuel as [|fuel IH]; intros spd l Hok Hf; [lia|].
  cbn [drain_out].
  destruct (sproto_pop_out_data_ok ra spd n l Hok) as (o' & -> & Hok'); [lia|]. obind.
  destruct (Z.eqb_spec (Z.min n (Z.of_nat (length l))) 0) as [H0|H0].
  { exists []. split; [done|]. destruct l; [by split|cbn in H0; lia]. }
  destruct (IH (set_out o' spd) (drop (Z.to_nat n) l) Hok') as (chunks & -> & Hj & Hc).
  { rewrite length_drop. lia. }
  obind. eexists; split; [done|]. rewrite mjoin_cons, Hj, take_drop.
  split; [done|]. constructor; [rewrite length_take; lia|done].
Qed.

(** ** Properties *)

(** C33. Everything a peer sends arrives: for every list of well-formed packets
    that fits in the output buffer, [sproto_out_buffer_append] accepts them all,
    [sproto_pop_out_data] gives their bytes in chunks of at most
    [SRPC_BUFFER_SIZE], and a fresh receiver that appends these chunks and pops
    packets ends without an error, having decoded exactly the packets sent, in
    their order (version, request id, call id and data). *)
Theorem proto_transfer ra ps sdp0 :
  Forall sdp_wf ps → ra_ok ra = true → ra_enomem ra = false →
  Z.of_nat (length (wires ps)) < BUFFER_MAX_SIZE →
  ∃ spd chunks out,
    send_all ra sproto_init ps = Some (SUPLA_RESULT_TRUE, spd) ∧
    drain_out (S (length (wires ps))) ra spd SRPC_BUFFER_SIZE = Some chunks ∧
    receive ra sproto_init sdp0 chunks = Some (out, SUPLA_RESULT_FALSE) ∧
    payload <$> out = payload <$> ps.
Proof.
  intros Hps Hra Hen Hlen.
  destruct (send_all_ok ra ps sproto_init []) as (spd & Hs & Hok); try done.
  { apply buf_ok_init. }
  destruct (drain_out_ok ra SRPC_BUFFER_SIZE eq_refl (S (length (wires ps))) spd _ Hok)
    as (chunks & Hd & Hj & Hc); [cbn [app]; lia|].
  destruct (receive_wires ra chunks ps sproto_init sdp0 []) as (out & Hr & Hout); try done.
  { split; [apply buf_ok_init|by left]. }
  by exists spd, chunks, out.
Qed.

(** The extraction of packets from the input buffer refines the abstract
    framing of the byte stream: whatever bytes were received (from any peer) and
    whatever [realloc] answers, [sproto_pop_in_sdp] returns (it makes no access
    outside the buffer), its code, the packet it writes and the bytes it leaves are
    those of [frame_spec], and the buffer stays well formed. *)
Theorem sproto_pop_in_sdp_refines ra spd sdp l :
  in_ok (spd_in spd) l → bytes l →
  ∃ i', sproto_pop_in_sdp ra spd sdp =
          Some ((frame_result (frame_spec l) sdp l).1, set_in i' spd) ∧
        in_ok i' (frame_result (frame_spec l) sdp l).2.
Proof. apply pop_agrees. Qed.

(** An append to the input buffer either adds the data at the end of the
    content, or is refused because the content would reach [BUFFER_MAX_SIZE], or
    is refused because [realloc] failed; when it is refused the buffer is
    unchanged. *)
Theorem sproto_in_buffer_append_spec ra spd data n l :
  in_ok (spd_in spd) l → 0 <= n <= Z.of_nat (length data) → n < 2 ^ 31 →
  ra_enomem ra = false →
  ∃ r i', sproto_in_buffer_append ra spd data n = Some (r, set_in i' spd) ∧
    ((r = SUPLA_RESULT_TRUE ∧ Z.of_nat (length l) + n < BUFFER_MAX_SIZE ∧
      in_ok i' (l ++ take (Z.to_nat n) data)) ∨
     (r = SUPLA_RESULT_BUFFER_OVERFLOW ∧ BUFFER_MAX_SIZE <= Z.of_nat (length l) + n ∧
      i' = spd_in spd) ∨
     (r = SUPLA_RESULT_FALSE ∧ ra_ok ra = false ∧ i' = spd_in spd)).
Proof. apply in_append_cases. Qed.

(** C34. [sproto_out_buffer_append] is not atomic: when the packet fits below the
    limit but its closing tag does not, the call reports a failure and leaves the
    packet, without its closing tag, in the output buffer.  When the packet does
    not fit at all the buffer is unchanged and the call returns
    [SUPLA_RESULT_FALSE], not the overflow code. *)
Theorem sproto_out_buffer_append_overflow ra spd p l :
  sdp_wf p → out_ok (spd_out spd) l → ra_ok ra = true → ra_enomem ra = false →
  BUFFER_MAX_SIZE <= Z.of_nat (length l) + Z.of_nat (length (wire p)) →
  ∃ r o', sproto_out_buffer_append ra ra spd p = Some (r, set_out o' spd) ∧
    if Z.of_nat (length l) + 18 + sdp_data_size p <? BUFFER_MAX_SIZE
    then r ≠ SUPLA_RESULT_TRUE ∧
         out_ok o' (l ++ take (Z.to_nat (18 + sdp_data_size p)) (sdp_bytes p))
    else r = SUPLA_RESULT_FALSE ∧ o' = spd_out spd.
Proof.
  intros Hp Hok Hra Hen Hov. pose proof (wire_length p Hp) as Hw.
  destruct (out_append_cases ra ra spd p l Hp Hok Hen Hen) as (r & o' & E & Hc).
  exists r, o'. split; [done|].
  destruct Hc as [(_ & Hok')|[(-> & -> & [?|?])|(Hr & Hok' & [?|?])]]; try congruence.
  - destruct Hok' as (c & _ & Hc & Hds & Hmax & Hcont).
    apply (f_equal length) in Hcont. rewrite length_take, length_app in Hcont. lia.
  - by replace (_ <? _) with false by lia.
  - destruct (Z.ltb_spec (Z.of_nat (length l) + 18 + sdp_data_size p) BUFFER_MAX_SIZE);
      [done|].
    destruct Hok' as (c & _ & Hc & Hds & Hmax & Hcont).
    apply (f_equal length) in Hcont.
    pose proof (sdp_bytes_length p Hp). destruct (wf_data_size p Hp).
    rewrite !length_take, length_app, length_take in Hcont. proto_consts. lia.
Qed.

(** A successful [realloc] followed by a test of a stale [errno] leaves the
    buffer pointer dangling: if [errno] still reads [ENOMEM] from an earlier
    failure when the append needs to grow the buffer, the append fails after the
    old block was released, and the next extraction of a packet reads freed
    memory. *)
Theorem sproto_buffer_append_stale_errno ra ra2 spd data n l sdp :
  in_ok (spd_in spd) l → 0 < n <= Z.of_nat (length data) →
  ra_ok ra = true → ra_enomem ra = true →
  in_size (spd_in spd) < Z.of_nat (length l) + n < BUFFER_MAX_SIZE →
  5 <= Z.of_nat (length l) → in_begin_tag (spd_in spd) = 0 →
  ∃ spd', sproto_in_buffer_append ra spd data n = Some (SUPLA_RESULT_FALSE, spd') ∧
          in_buffer (spd_in spd') = Freed ∧
          sproto_pop_in_sdp ra2 spd' sdp = None.
Proof.
  intros [Hbuf _] Hn Hra Hen Hsz H5 Hbt. pose proof (buf_ok_length _ _ _ _ Hbuf) as Hds.
  destruct Hbuf as (c & Hb & Hc & Hds2 & Hmax & Hl).
  unfold sproto_in_buffer_append, sproto_buffer_append. cbn zeta. proto_consts.
  replace (in_size (spd_in spd) <? 0) with false by lia.
  rewrite (u32_id (in_size (spd_in spd) - in_data_size (spd_in spd))) by wrap.
  replace (_ <? n) with true by lia.
  rewrite (u32_id (n - _)), u32_id by wrap.
  replace (131072 <=? _) with false by lia. rewrite Hb. obind.
  replace (_ =? _) with false by lia. cbn [negb].
  rewrite Hra, Hen, andb_false_r. obind. eexists. split; [done|]. split; [done|].
  unfold sproto_pop_in_sdp. cbn [spd_in set_in in_begin_tag in_data_size in_buffer].
  rewrite Hbt. cbn [Z.eqb andb]. unfold SUPLA_TAG_SIZE.
  by replace (5 <=? _) with true by lia.
Qed.

(** ** Witnesses *)

Definition ra_good : realloc_answer := RA true false 0.
Definition ra_stale : realloc_answer := RA true true 0.

Definition packet_ex : TSuplaDataPacket :=
  SDP sproto_tag 28 1 40 3 ([1; 2; 3] ++ replicate (Z.to_nat 10237) 0).

Lemma packet_ex_wf : sdp_wf packet_ex.
Proof.
  split; unfold packet_ex;
    cbn [sdp_tag sdp_version sdp_rr_id sdp_call_id sdp_data_size sdp_data];
    try done; try (unfold is_u32; lia).
  apply Forall_app_2; [|apply Forall_replicate; unfold is_u8; lia].
  repeat constructor; unfold is_u8; lia.
Qed.

Lemma proto_transfer_witness :
  ∃ spd chunks out,
    send_all ra_good sproto_init [packet_ex; packet_ex] = Some (SUPLA_RESULT_TRUE, spd) ∧
    drain_out (S (length (wires [packet_ex; packet_ex]))) ra_good spd SRPC_BUFFER_SIZE
      = Some chunks ∧
    receive ra_good sproto_init packet_ex chunks = Some (out, SUPLA_RESULT_FALSE) ∧
    payload <$> out = payload <$> [packet_ex; packet_ex].
Proof.
  apply (proto_transfer ra_good [packet_ex; packet_ex] packet_ex).
  - constructor; [|constructor; [|constructor]]; apply packet_ex_wf.
  - reflexivity.
  - reflexivity.
  - vm_compute. reflexivity.
Defined.

(** Garbage instead of a packet. *)
Lemma sproto_pop_in_sdp_refines_witness :
  ∃ i', sproto_pop_in_sdp ra_good
          (set_in (InBuf 0 6 6 (Live [1; 2; 3; 4; 5; 6])) sproto_init) packet_ex =
          Some ((SUPLA_RESULT_DATA_ERROR, packet_ex),
                set_in i' (set_in (InBuf 0 6 6 (Live [1; 2; 3; 4; 5; 6])) sproto_init)) ∧
        in_ok i' [].
Proof.
  apply (sproto_pop_in_sdp_refines ra_good
           (set_in (InBuf 0 6 6 (Live [1; 2; 3; 4; 5; 6])) sproto_init) packet_ex
           [1; 2; 3; 4; 5; 6]).
  - split; [|left; reflexivity]. exists [1; 2; 3; 4; 5; 6].
    split_and!; reflexivity || (vm_compute; congruence).
  - repeat constructor; vm_compute; congruence.
Defined.

Lemma sproto_in_buffer_append_spec_witness :
  ∃ r i', sproto_in_buffer_append ra_good sproto_init [7; 8; 9] 2 =
            Some (r, set_in i' sproto_init) ∧
    ((r = SUPLA_RESULT_TRUE ∧ 0 + 2 < BUFFER_MAX_SIZE ∧ in_ok i' [7; 8]) ∨
     (r = SUPLA_RESULT_BUFFER_OVERFLOW ∧ BUFFER_MAX_SIZE <= 0 + 2 ∧
      i' = spd_in sproto_init) ∨
     (r = SUPLA_RESULT_FALSE ∧ ra_ok ra_good = false ∧ i' = spd_in sproto_init)).
Proof.
  apply (sproto_in_buffer_append_spec ra_good sproto_init [7; 8; 9] 2 []).
  - split; [apply buf_ok_init|left; reflexivity].
  - cbn. lia.
  - lia.
  - reflexivity.
Defined.

Definition full_out (n : nat) : TSuplaProtoOutBuffer :=
  OutBuf (Z.of_nat n) (Z.of_nat n) (Live (replicate n 0)).

Lemma full_out_ok n : Z.of_nat n < BUFFER_MAX_SIZE → out_ok (full_out n) (replicate n 0).
Proof.
  intros H. exists (replicate n 0). cbn [full_out out_size out_data_size out_buffer].
  rewrite length_replicate, Nat2Z.id, take_replicate, Nat.min_id.
  split_and!; first [done|lia].
Qed.

Lemma sproto_out_buffer_append_overflow_witness :
  ∃ r o', sproto_out_buffer_append ra_good ra_good
            (set_out (full_out (Z.to_nat 131049)) sproto_init) packet_ex =
            Some (r, set_out o' (set_out (full_out (Z.to_nat 131049)) sproto_init)) ∧
    r ≠ SUPLA_RESULT_TRUE ∧
    out_ok o' (replicate (Z.to_nat 131049) 0 ++ take 21 (sdp_bytes packet_ex)).
Proof.
  apply (sproto_out_buffer_append_overflow ra_good
           (set_out (full_out (Z.to_nat 131049)) sproto_init) packet_ex
           (replicate (Z.to_nat 131049) 0)).
  - apply packet_ex_wf.
  - apply full_out_ok. reflexivity.
  - reflexivity.
  - reflexivity.
  - rewrite length_replicate. vm_compute. congruence.
Defined.

Lemma sproto_buffer_append_stale_errno_witness :
  ∃ spd', sproto_in_buffer_append ra_stale
            (set_in (InBuf 0 6 6 (Live [1; 2; 3; 4; 5; 6])) sproto_init) [7] 1 =
            Some (SUPLA_RESULT_FALSE, spd') ∧
          in_buffer (spd_in spd') = Freed ∧
          sproto_pop_in_sdp ra_good spd' packet_ex = None.
Proof.
  apply (sproto_buffer_append_stale_errno ra_stale ra_good
           (set_in (InBuf 0 6 6 (Live [1; 2; 3; 4; 5; 6])) sproto_init) [7] 1
           [1; 2; 3; 4; 5; 6]).
  - split; [|left; reflexivity]. exists [1; 2; 3; 4; 5; 6].
    split_and!; reflexivity || (vm_compute; congruence).
  - cbn. lia.
  - reflexivity.
  - reflexivity.
  - unfold BUFFER_MAX_SIZE. cbn. lia.
  - cbn. lia.
  - reflexivity.
Defined.
