(* ===== verification/CallIds.v ===== *)
(** * CallIds: the identifiers of the calls of the protocol (proto.h)

    One definition per [#define] of a call identifier, with its name and value. *)

From S2P Require Import Prelude.

Definition SUPLA_DCS_CALL_GETVERSION : Z := 10.
Definition SUPLA_SDC_CALL_GETVERSION_RESULT : Z := 20.
Definition SUPLA_SDC_CALL_VERSIONERROR : Z := 30.
Definition SUPLA_DCS_CALL_PING_SERVER : Z := 40.
Definition SUPLA_SDC_CALL_PING_SERVER_RESULT : Z := 50.
Definition SUPLA_DS_CALL_REGISTER_DEVICE : Z := 60.
Definition SUPLA_DS_CALL_REGISTER_DEVICE_B : Z := 65.
Definition SUPLA_DS_CALL_REGISTER_DEVICE_C : Z := 67.
Definition SUPLA_DS_CALL_REGISTER_DEVICE_D : Z := 68.
Definition SUPLA_DS_CALL_REGISTER_DEVICE_E : Z := 69.
Definition SUPLA_SD_CALL_REGISTER_DEVICE_RESULT : Z := 70.
Definition SUPLA_SD_CALL_REGISTER_DEVICE_RESULT_B : Z := 71.
Definition SUPLA_DS_CALL_REGISTER_DEVICE_F : Z := 75.
Definition SUPLA_DS_CALL_REGISTER_DEVICE_G : Z := 76.
Definition SUPLA_CS_CALL_REGISTER_CLIENT : Z := 80.
Definition SUPLA_CS_CALL_REGISTER_CLIENT_B : Z := 85.
Definition SUPLA_CS_CALL_REGISTER_CLIENT_C : Z := 86.
Definition SUPLA_CS_CALL_REGISTER_CLIENT_D : Z := 87.
Definition SUPLA_SC_CALL_REGISTER_CLIENT_RESULT : Z := 90.
Definition SUPLA_SC_CALL_REGISTER_CLIENT_RESULT_B : Z := 92.
Definition SUPLA_SC_CALL_REGISTER_CLIENT_RESULT_C : Z := 94.
Definition SUPLA_SC_CALL_REGISTER_CLIENT_RESULT_D : Z := 96.
Definition SUPLA_DS_CALL_DEVICE_CHANNEL_VALUE_CHANGED : Z := 100.
Definition SUPLA_DS_CALL_DEVICE_CHANNEL_VALUE_CHANGED_B : Z := 102.
Definition SUPLA_DS_CALL_DEVICE_CHANNEL_VALUE_CHANGED_C : Z := 103.
Definition SUPLA_DS_CALL_DEVICE_CHANNEL_EXTENDEDVALUE_CHANGED : Z := 105.
Definition SUPLA_SD_CALL_CHANNEL_SET_VALUE : Z := 110.
Definition SUPLA_SD_CALL_CHANNELGROUP_SET_VALUE : Z := 115.
Definition SUPLA_DS_CALL_CHANNEL_SET_VALUE_RESULT : Z := 120.
Definition SUPLA_SC_CALL_LOCATION_UPDATE : Z := 130.
Definition SUPLA_SC_CALL_LOCATIONPACK_UPDATE : Z := 140.
Definition SUPLA_SC_CALL_CHANNELPACK_UPDATE : Z := 160.
Definition SUPLA_SC_CALL_CHANNEL_VALUE_UPDATE : Z := 170.
Definition SUPLA_SC_CALL_CHANNEL_VALUE_UPDATE_B : Z := 171.
Definition SUPLA_CS_CALL_GET_NEXT : Z := 180.
Definition SUPLA_SC_CALL_EVENT : Z := 190.
Definition SUPLA_CS_CALL_CHANNEL_SET_VALUE : Z := 200.
Definition SUPLA_CS_CALL_CHANNEL_SET_VALUE_B : Z := 205.
Definition SUPLA_DCS_CALL_SET_ACTIVITY_TIMEOUT : Z := 210.
Definition SUPLA_SDC_CALL_SET_ACTIVITY_TIMEOUT_RESULT : Z := 220.
Definition SUPLA_DS_CALL_GET_FIRMWARE_UPDATE_URL : Z := 300.
Definition SUPLA_SD_CALL_GET_FIRMWARE_UPDATE_URL_RESULT : Z := 310.
Definition SUPLA_DCS_CALL_GET_REGISTRATION_ENABLED : Z := 320.
Definition SUPLA_SDC_CALL_GET_REGISTRATION_ENABLED_RESULT : Z := 330.
Definition SUPLA_CS_CALL_OAUTH_TOKEN_REQUEST : Z := 340.
Definition SUPLA_SC_CALL_OAUTH_TOKEN_REQUEST_RESULT : Z := 350.
Definition SUPLA_SC_CALL_CHANNELPACK_UPDATE_B : Z := 360.
Definition SUPLA_SC_CALL_CHANNELPACK_UPDATE_C : Z := 361.
Definition SUPLA_SC_CALL_CHANNELPACK_UPDATE_D : Z := 362.
Definition SUPLA_SC_CALL_CHANNELPACK_UPDATE_E : Z := 363.
Definition SUPLA_SC_CALL_CHANNELGROUP_PACK_UPDATE : Z := 380.
Definition SUPLA_SC_CALL_CHANNELGROUP_PACK_UPDATE_B : Z := 381.
Definition SUPLA_SC_CALL_CHANNELGROUP_RELATION_PACK_UPDATE : Z := 390.
Definition SUPLA_SC_CALL_CHANNEL_RELATION_PACK_UPDATE : Z := 395.
Definition SUPLA_SC_CALL_CHANNELVALUE_PACK_UPDATE : Z := 400.
Definition SUPLA_SC_CALL_CHANNELVALUE_PACK_UPDATE_B : Z := 401.
Definition SUPLA_SC_CALL_CHANNELEXTENDEDVALUE_PACK_UPDATE : Z := 405.
Definition SUPLA_SC_CALL_CHANNEL_STATE_PACK_UPDATE : Z := 408.
Definition SUPLA_CS_CALL_SET_VALUE : Z := 410.
Definition SUPLA_CS_CALL_SUPERUSER_AUTHORIZATION_REQUEST : Z := 420.
Definition SUPLA_CS_CALL_GET_SUPERUSER_AUTHORIZATION_RESULT : Z := 425.
Definition SUPLA_SC_CALL_SUPERUSER_AUTHORIZATION_RESULT : Z := 430.
Definition SUPLA_CS_CALL_DEVICE_CALCFG_REQUEST : Z := 440.
Definition SUPLA_CS_CALL_DEVICE_CALCFG_REQUEST_B : Z := 445.
Definition SUPLA_SC_CALL_DEVICE_CALCFG_RESULT : Z := 450.
Definition SUPLA_SD_CALL_DEVICE_CALCFG_REQUEST : Z := 460.
Definition SUPLA_DS_CALL_DEVICE_CALCFG_RESULT : Z := 470.
Definition SUPLA_DCS_CALL_GET_USER_LOCALTIME : Z := 480.
Definition SUPLA_DCS_CALL_GET_USER_LOCALTIME_RESULT : Z := 490.
Definition SUPLA_CSD_CALL_GET_CHANNEL_STATE : Z := 500.
Definition SUPLA_DSC_CALL_CHANNEL_STATE_RESULT : Z := 510.
Definition SUPLA_CS_CALL_GET_CHANNEL_BASIC_CFG : Z := 520.
Definition SUPLA_SC_CALL_CHANNEL_BASIC_CFG_RESULT : Z := 530.
Definition SUPLA_CS_CALL_SET_CHANNEL_FUNCTION : Z := 540.
Definition SUPLA_SC_CALL_SET_CHANNEL_FUNCTION_RESULT : Z := 550.
Definition SUPLA_CS_CALL_CLIENTS_RECONNECT_REQUEST : Z := 560.
Definition SUPLA_SC_CALL_CLIENTS_RECONNECT_REQUEST_RESULT : Z := 570.
Definition SUPLA_CS_CALL_SET_REGISTRATION_ENABLED : Z := 580.
Definition SUPLA_SC_CALL_SET_REGISTRATION_ENABLED_RESULT : Z := 590.
Definition SUPLA_CS_CALL_DEVICE_RECONNECT_REQUEST : Z := 600.
Definition SUPLA_SC_CALL_DEVICE_RECONNECT_REQUEST_RESULT : Z := 610.
Definition SUPLA_DS_CALL_GET_CHANNEL_FUNCTIONS : Z := 620.
Definition SUPLA_SD_CALL_GET_CHANNEL_FUNCTIONS_RESULT : Z := 630.
Definition SUPLA_DCS_CALL_SET_CHANNEL_CAPTION : Z := 640.
Definition SUPLA_CS_CALL_SET_CHANNEL_GROUP_CAPTION : Z := 642.
Definition SUPLA_CS_CALL_SET_LOCATION_CAPTION : Z := 645.
Definition SUPLA_SCD_CALL_SET_CHANNEL_CAPTION_RESULT : Z := 650.
Definition SUPLA_SC_CALL_SET_CHANNEL_GROUP_CAPTION_RESULT : Z := 652.
Definition SUPLA_SC_CALL_SET_LOCATION_CAPTION_RESULT : Z := 655.
Definition SUPLA_DS_CALL_GET_CHANNEL_CONFIG : Z := 680.
Definition SUPLA_DS_CALL_SET_CHANNEL_CONFIG : Z := 681.
Definition SUPLA_SD_CALL_SET_CHANNEL_CONFIG : Z := 682.
Definition SUPLA_SD_CALL_CHANNEL_CONFIG_FINISHED : Z := 683.
Definition SUPLA_DS_CALL_SET_DEVICE_CONFIG : Z := 684.
Definition SUPLA_SD_CALL_SET_DEVICE_CONFIG : Z := 685.
Definition SUPLA_SD_CALL_GET_CHANNEL_CONFIG_RESULT : Z := 690.
Definition SUPLA_SD_CALL_SET_CHANNEL_CONFIG_RESULT : Z := 691.
Definition SUPLA_DS_CALL_SET_CHANNEL_CONFIG_RESULT : Z := 692.
Definition SUPLA_SD_CALL_SET_DEVICE_CONFIG_RESULT : Z := 694.
Definition SUPLA_DS_CALL_SET_DEVICE_CONFIG_RESULT : Z := 695.
Definition SUPLA_DS_CALL_ACTIONTRIGGER : Z := 700.
Definition SUPLA_CS_CALL_TIMER_ARM : Z := 800.
Definition SUPLA_SC_CALL_SCENE_PACK_UPDATE : Z := 900.
Definition SUPLA_SC_CALL_SCENE_STATE_PACK_UPDATE : Z := 910.
Definition SUPLA_CS_CALL_EXECUTE_ACTION : Z := 1000.
Definition SUPLA_CS_CALL_EXECUTE_ACTION_WITH_AUTH : Z := 1010.
Definition SUPLA_SC_CALL_ACTION_EXECUTION_RESULT : Z := 1020.
Definition SUPLA_CS_CALL_GET_CHANNEL_VALUE_WITH_AUTH : Z := 1030.
Definition SUPLA_SC_CALL_GET_CHANNEL_VALUE_RESULT : Z := 1040.
Definition SUPLA_CS_CALL_SET_SCENE_CAPTION : Z := 1045.
Definition SUPLA_SC_CALL_SET_SCENE_CAPTION_RESULT : Z := 1055.
Definition SUPLA_DS_CALL_REGISTER_PUSH_NOTIFICATION : Z := 1100.
Definition SUPLA_DS_CALL_SEND_PUSH_NOTIFICATION : Z := 1110.
Definition SUPLA_CS_CALL_REGISTER_PN_CLIENT_TOKEN : Z := 1120.
Definition SUPLA_SC_CALL_REGISTER_PN_CLIENT_TOKEN_RESULT : Z := 1121.
Definition SUPLA_CS_CALL_GET_CHANNEL_CONFIG : Z := 1200.
Definition SUPLA_SC_CALL_CHANNEL_CONFIG_UPDATE_OR_RESULT : Z := 1210.
Definition SUPLA_CS_CALL_SET_CHANNEL_CONFIG : Z := 1220.
Definition SUPLA_CS_CALL_GET_DEVICE_CONFIG : Z := 1240.
Definition SUPLA_SC_CALL_DEVICE_CONFIG_UPDATE_OR_RESULT : Z := 1250.
Definition SUPLA_DS_CALL_SET_SUBDEVICE_DETAILS : Z := 1260.
