(* ===== verification/Srpc.v ===== *)
(** * Srpc: the remote procedure calls (supla-common/srpc.c)

    The packet queues, the two halves of [srpc_iterate], the asynchronous calls
    with the protocol version they need, over the buffers of Proto.v, for the
    builds with both queues on a host (ten packets that are allocated and freed,
    an event handler); SrpcDirect.v has the server, which is built without the
    output queue. The callbacks are parameters: what a callback does to the
    connection is a list of operations of this file. *)

From S2P Require Import Prelude Proto CallIds.

(** ** The queue: Tsrpc_Queue

    The slots hold a packet or the null pointer. *)

Definition SRPC_QUEUE_SIZE : Z := 10.
Definition SRPC_QUEUE_MIN_ALLOC_COUNT : Z := 0.

Record Tsrpc_Queue := Queue {
  item_count : Z;
  alloc_count : Z;
  item : list (option TSuplaDataPacket)
}.

Definition srpc_queue_init : Tsrpc_Queue := Queue 0 0 (replicate 10 None).

(** [malloc_ok]: whether a needed [malloc] gives a block. *)
Definition srpc_queue_push (malloc_ok : bool) (queue : Tsrpc_Queue)
    (sdp : TSuplaDataPacket) : option (Z * Tsrpc_Queue) :=
  if SRPC_QUEUE_SIZE <=? item_count queue then Some (SUPLA_RESULT_FALSE, queue)
  else
    slot ← item queue !! Z.to_nat (item_count queue);
    if negb malloc_ok && bool_decide (slot = None) then Some (SUPLA_RESULT_FALSE, queue)
    else Some (SUPLA_RESULT_TRUE,
               Queue (u8 (item_count queue + 1)) (u8 (alloc_count queue + 1))
                     (<[Z.to_nat (item_count queue) := Some sdp]> (item queue))).

(** The search of [srpc_queue_pop]: the index of the packet, if any; a null
    pointer met on the way is undefined behaviour. *)
Fixpoint srpc_queue_find (n a : nat) (rr_id : Z) (l : list (option TSuplaDataPacket))
    : option (option nat) :=
  match n with
  | O => Some None
  | S n' =>
      slot ← l !! a;
      p ← slot;
      if (rr_id =? 0) || (sdp_rr_id p =? rr_id) then Some (Some a)
      else srpc_queue_find n' (S a) rr_id l
  end.

(** "for (b = a; b < item_count - 1; b++) item[b] = item[b + 1];" *)
Fixpoint srpc_queue_shift (n b : nat) (l : list (option TSuplaDataPacket))
    : option (list (option TSuplaDataPacket)) :=
  match n with
  | O => Some l
  | S n' => x ← l !! S b; srpc_queue_shift n' (S b) (<[b := x]> l)
  end.

Definition srpc_queue_pop (queue : Tsrpc_Queue) (sdp : TSuplaDataPacket) (rr_id : Z)
    : option (Z * TSuplaDataPacket * Tsrpc_Queue) :=
  found ← srpc_queue_find (Z.to_nat (item_count queue)) 0 rr_id (item queue);
  match found with
  | None => Some (SUPLA_RESULT_FALSE, sdp, queue)
  | Some a =>
      slot ← item queue !! a;
      p ← slot;
      let '(alloc, slot', items) :=
        if SRPC_QUEUE_MIN_ALLOC_COUNT <? alloc_count queue
        then (alloc_count queue - 1, None, <[a := None]> (item queue))
        else (alloc_count queue, slot, item queue) in
      items ← srpc_queue_shift (Z.to_nat (item_count queue - 1) - a) a items;
      let count := item_count queue - 1 in
      Some (SUPLA_RESULT_TRUE, p,
            Queue count alloc (<[Z.to_nat count := slot']> items))
  end.

(** ** The connection: Tsrpc *)

Record Tsrpc := Srpc {
  srpc_proto : TSuplaProtoData;
  srpc_sdp : TSuplaDataPacket;
  in_queue : Tsrpc_Queue;
  out_queue : Tsrpc_Queue
}.

Definition sdp_zero : TSuplaDataPacket :=
  SDP [0; 0; 0; 0; 0] 0 0 0 0 (replicate (Z.to_nat SUPLA_MAX_DATA_SIZE) 0).

Definition srpc_init : Tsrpc := Srpc sproto_init sdp_zero srpc_queue_init srpc_queue_init.

Definition set_proto (p : TSuplaProtoData) (s : Tsrpc) : Tsrpc :=
  Srpc p (srpc_sdp s) (in_queue s) (out_queue s).
Definition set_sdp (sdp : TSuplaDataPacket) (s : Tsrpc) : Tsrpc :=
  Srpc (srpc_proto s) sdp (in_queue s) (out_queue s).
Definition set_in_queue (q : Tsrpc_Queue) (s : Tsrpc) : Tsrpc :=
  Srpc (srpc_proto s) (srpc_sdp s) q (out_queue s).
Definition set_out_queue (q : Tsrpc_Queue) (s : Tsrpc) : Tsrpc :=
  Srpc (srpc_proto s) (srpc_sdp s) (in_queue s) q.

(** What the connection does to the outside: the bytes written, the callbacks,
    the event raised to iterate again, and what the operations return.
    [EvAccepted] and [EvGot] name the packet that entered the output queue and
    the packet that left the input queue. *)
Inductive srpc_event :=
  | EvWrite (data : list Z)
  | EvRemoteCall (rr_id call_id version : Z)
  | EvVersionError (version : Z)
  | EvMinVersionRequired (call_id min_version : Z)
  | EvBeforeAsyncCall (call_id : Z)
  | EvRaise
  | EvAccepted (p : TSuplaDataPacket)
  | EvGot (p : TSuplaDataPacket)
  | EvReturn (r : Z)
  | EvIterated (r : Z).

(** ** Protocol versions *)

Definition call_in (call_id : Z) (l : list Z) : bool := existsb (Z.eqb call_id) l.

(** The protocol version from which a call exists; 255 for an unknown call. *)
Definition srpc_call_min_version_required (call_id : Z) : Z :=
  if call_in call_id [SUPLA_DCS_CALL_GETVERSION; SUPLA_SDC_CALL_GETVERSION_RESULT;
       SUPLA_SDC_CALL_VERSIONERROR; SUPLA_DCS_CALL_PING_SERVER;
       SUPLA_SDC_CALL_PING_SERVER_RESULT; SUPLA_DS_CALL_REGISTER_DEVICE;
       SUPLA_SD_CALL_REGISTER_DEVICE_RESULT; SUPLA_CS_CALL_REGISTER_CLIENT;
       SUPLA_SC_CALL_REGISTER_CLIENT_RESULT;
       SUPLA_DS_CALL_DEVICE_CHANNEL_VALUE_CHANGED; SUPLA_SD_CALL_CHANNEL_SET_VALUE;
       SUPLA_DS_CALL_CHANNEL_SET_VALUE_RESULT; SUPLA_SC_CALL_LOCATION_UPDATE;
       SUPLA_SC_CALL_LOCATIONPACK_UPDATE; SUPLA_SC_CALL_CHANNELPACK_UPDATE;
       SUPLA_SC_CALL_CHANNEL_VALUE_UPDATE; SUPLA_CS_CALL_GET_NEXT; SUPLA_SC_CALL_EVENT;
       SUPLA_CS_CALL_CHANNEL_SET_VALUE] then 1
  else
  if call_in call_id [SUPLA_DS_CALL_REGISTER_DEVICE_B;
       SUPLA_DCS_CALL_SET_ACTIVITY_TIMEOUT; SUPLA_SDC_CALL_SET_ACTIVITY_TIMEOUT_RESULT] then 2
  else
  if call_in call_id [SUPLA_CS_CALL_CHANNEL_SET_VALUE_B] then 3
  else
  if call_in call_id [SUPLA_DS_CALL_GET_FIRMWARE_UPDATE_URL;
       SUPLA_SD_CALL_GET_FIRMWARE_UPDATE_URL_RESULT] then 5
  else
  if call_in call_id [SUPLA_DS_CALL_REGISTER_DEVICE_C; SUPLA_CS_CALL_REGISTER_CLIENT_B] then 6
  else
  if call_in call_id [SUPLA_CS_CALL_REGISTER_CLIENT_C; SUPLA_DS_CALL_REGISTER_DEVICE_D;
       SUPLA_DCS_CALL_GET_REGISTRATION_ENABLED;
       SUPLA_SDC_CALL_GET_REGISTRATION_ENABLED_RESULT] then 7
  else
  if call_in call_id [SUPLA_SC_CALL_CHANNELPACK_UPDATE_B] then 8
  else
  if call_in call_id [SUPLA_SC_CALL_REGISTER_CLIENT_RESULT_B;
       SUPLA_SC_CALL_CHANNELGROUP_PACK_UPDATE;
       SUPLA_SC_CALL_CHANNELGROUP_RELATION_PACK_UPDATE;
       SUPLA_SC_CALL_CHANNELVALUE_PACK_UPDATE; SUPLA_CS_CALL_SET_VALUE] then 9
  else
  if call_in call_id [SUPLA_DS_CALL_DEVICE_CHANNEL_EXTENDEDVALUE_CHANGED;
       SUPLA_SC_CALL_CHANNELEXTENDEDVALUE_PACK_UPDATE;
       SUPLA_CS_CALL_OAUTH_TOKEN_REQUEST; SUPLA_SC_CALL_OAUTH_TOKEN_REQUEST_RESULT;
       SUPLA_DS_CALL_REGISTER_DEVICE_E; SUPLA_CS_CALL_SUPERUSER_AUTHORIZATION_REQUEST;
       SUPLA_SC_CALL_SUPERUSER_AUTHORIZATION_RESULT;
       SUPLA_CS_CALL_DEVICE_CALCFG_REQUEST; SUPLA_SC_CALL_DEVICE_CALCFG_RESULT;
       SUPLA_SD_CALL_DEVICE_CALCFG_REQUEST; SUPLA_DS_CALL_DEVICE_CALCFG_RESULT;
       SUPLA_SC_CALL_CHANNELGROUP_PACK_UPDATE_B; SUPLA_SC_CALL_CHANNELPACK_UPDATE_C] then 10
  else
  if call_in call_id [SUPLA_DCS_CALL_GET_USER_LOCALTIME;
       SUPLA_DCS_CALL_GET_USER_LOCALTIME_RESULT; SUPLA_CS_CALL_DEVICE_CALCFG_REQUEST_B] then 11
  else
  if call_in call_id [SUPLA_CS_CALL_REGISTER_CLIENT_D;
       SUPLA_CSD_CALL_GET_CHANNEL_STATE; SUPLA_DSC_CALL_CHANNEL_STATE_RESULT;
       SUPLA_CS_CALL_GET_CHANNEL_BASIC_CFG; SUPLA_SC_CALL_CHANNEL_BASIC_CFG_RESULT;
       SUPLA_CS_CALL_SET_CHANNEL_FUNCTION; SUPLA_SC_CALL_SET_CHANNEL_FUNCTION_RESULT;
       SUPLA_DCS_CALL_SET_CHANNEL_CAPTION; SUPLA_SCD_CALL_SET_CHANNEL_CAPTION_RESULT;
       SUPLA_CS_CALL_CLIENTS_RECONNECT_REQUEST;
       SUPLA_SC_CALL_CLIENTS_RECONNECT_REQUEST_RESULT;
       SUPLA_CS_CALL_SET_REGISTRATION_ENABLED;
       SUPLA_SC_CALL_SET_REGISTRATION_ENABLED_RESULT;
       SUPLA_CS_CALL_DEVICE_RECONNECT_REQUEST;
       SUPLA_SC_CALL_DEVICE_RECONNECT_REQUEST_RESULT;
       SUPLA_DS_CALL_DEVICE_CHANNEL_VALUE_CHANGED_B;
       SUPLA_DS_CALL_DEVICE_CHANNEL_VALUE_CHANGED_C;
       SUPLA_DS_CALL_GET_CHANNEL_FUNCTIONS; SUPLA_SD_CALL_GET_CHANNEL_FUNCTIONS_RESULT;
       SUPLA_CS_CALL_GET_SUPERUSER_AUTHORIZATION_RESULT] then 12
  else
  if call_in call_id [SUPLA_SD_CALL_CHANNELGROUP_SET_VALUE] then 13
  else
  if call_in call_id [SUPLA_CS_CALL_SET_LOCATION_CAPTION;
       SUPLA_SC_CALL_SET_LOCATION_CAPTION_RESULT] then 14
  else
  if call_in call_id [SUPLA_SC_CALL_CHANNELPACK_UPDATE_D;
       SUPLA_SC_CALL_CHANNEL_VALUE_UPDATE_B; SUPLA_SC_CALL_CHANNELVALUE_PACK_UPDATE_B] then 15
  else
  if call_in call_id [SUPLA_DS_CALL_GET_CHANNEL_CONFIG;
       SUPLA_SD_CALL_GET_CHANNEL_CONFIG_RESULT; SUPLA_DS_CALL_ACTIONTRIGGER] then 16
  else
  if call_in call_id [SUPLA_SC_CALL_REGISTER_CLIENT_RESULT_C; SUPLA_CS_CALL_TIMER_ARM] then 17
  else
  if call_in call_id [SUPLA_SC_CALL_SCENE_PACK_UPDATE;
       SUPLA_SC_CALL_SCENE_STATE_PACK_UPDATE] then 18
  else
  if call_in call_id [SUPLA_CS_CALL_EXECUTE_ACTION;
       SUPLA_CS_CALL_EXECUTE_ACTION_WITH_AUTH; SUPLA_SC_CALL_ACTION_EXECUTION_RESULT;
       SUPLA_SC_CALL_REGISTER_CLIENT_RESULT_D;
       SUPLA_CS_CALL_GET_CHANNEL_VALUE_WITH_AUTH;
       SUPLA_SC_CALL_GET_CHANNEL_VALUE_RESULT; SUPLA_CS_CALL_SET_SCENE_CAPTION;
       SUPLA_SC_CALL_SET_SCENE_CAPTION_RESULT] then 19
  else
  if call_in call_id [SUPLA_DS_CALL_REGISTER_PUSH_NOTIFICATION;
       SUPLA_DS_CALL_SEND_PUSH_NOTIFICATION; SUPLA_CS_CALL_REGISTER_PN_CLIENT_TOKEN;
       SUPLA_SC_CALL_REGISTER_PN_CLIENT_TOKEN_RESULT;
       SUPLA_CS_CALL_SET_CHANNEL_GROUP_CAPTION;
       SUPLA_SC_CALL_SET_CHANNEL_GROUP_CAPTION_RESULT] then 20
  else
  if call_in call_id [SUPLA_DS_CALL_SET_CHANNEL_CONFIG;
       SUPLA_SD_CALL_SET_CHANNEL_CONFIG_RESULT; SUPLA_SD_CALL_SET_CHANNEL_CONFIG;
       SUPLA_DS_CALL_SET_CHANNEL_CONFIG_RESULT; SUPLA_DS_CALL_SET_DEVICE_CONFIG;
       SUPLA_SD_CALL_SET_DEVICE_CONFIG_RESULT; SUPLA_SD_CALL_SET_DEVICE_CONFIG;
       SUPLA_DS_CALL_SET_DEVICE_CONFIG_RESULT;
       SUPLA_SC_CALL_CHANNEL_RELATION_PACK_UPDATE; SUPLA_CS_CALL_GET_CHANNEL_CONFIG;
       SUPLA_SC_CALL_CHANNEL_CONFIG_UPDATE_OR_RESULT; SUPLA_CS_CALL_SET_CHANNEL_CONFIG;
       SUPLA_CS_CALL_GET_DEVICE_CONFIG; SUPLA_SC_CALL_DEVICE_CONFIG_UPDATE_OR_RESULT;
       SUPLA_SD_CALL_CHANNEL_CONFIG_FINISHED] then 21
  else
  if call_in call_id [SUPLA_SC_CALL_CHANNELPACK_UPDATE_E;
       SUPLA_DS_CALL_REGISTER_DEVICE_F] then 23
  else
  if call_in call_id [SUPLA_DS_CALL_REGISTER_DEVICE_G;
       SUPLA_SD_CALL_REGISTER_DEVICE_RESULT_B; SUPLA_DS_CALL_SET_SUBDEVICE_DETAILS] then 25
  else
  if call_in call_id [SUPLA_SC_CALL_CHANNEL_STATE_PACK_UPDATE] then 26
  else
  255.

Definition srpc_get_proto_version (s : Tsrpc) : Z := sproto_get_version (srpc_proto s).
Definition srpc_set_proto_version (version : Z) (s : Tsrpc) : Tsrpc :=
  set_proto (sproto_set_version (srpc_proto s) version) s.

Definition srpc_call_allowed (s : Tsrpc) (call_id : Z) : bool :=
  let min_ver := srpc_call_min_version_required call_id in
  (min_ver =? 0) || (min_ver <=? srpc_get_proto_version s).

(** ** Operations *)

(** The result is the request identifier as a signed integer. *)
Definition srpc_async__call (malloc_ok : bool) (call_id : Z) (data : option (list Z))
    (data_size : Z) (version : option Z) (s : Tsrpc)
    : option (Z * Tsrpc * list srpc_event) :=
  if negb (srpc_call_allowed s call_id) then
    Some (SUPLA_RESULT_FALSE, s,
          [EvMinVersionRequired call_id (srpc_call_min_version_required call_id)])
  else
    let before := EvBeforeAsyncCall call_id in
    let '(sdp, proto) := sproto_sdp_init (srpc_proto s) in
    let sdp := match version with Some v => set_sdp_version v sdp | None => sdp end in
    '(r, sdp) ← sproto_set_data sdp data data_size call_id;
    let s := set_sdp sdp (set_proto proto s) in
    if r =? SUPLA_RESULT_TRUE then
      '(r2, q) ← srpc_queue_push malloc_ok (out_queue s) sdp;
      if negb (r2 =? SUPLA_RESULT_FALSE)
      then Some (i32 (sdp_rr_id sdp), set_out_queue q s, [before; EvAccepted sdp; EvRaise])
      else Some (SUPLA_RESULT_FALSE, set_out_queue q s, [before])
    else Some (SUPLA_RESULT_FALSE, s, [before]).

(** The beginning of [srpc_getdata]: the packet taken from the input queue. *)
Definition srpc_getdata_pop (rr_id : Z) (s : Tsrpc) : option (Tsrpc * list srpc_event) :=
  '(r, sdp, q) ← srpc_queue_pop (in_queue s) (srpc_sdp s) rr_id;
  Some (set_in_queue q (set_sdp sdp s),
        if r =? SUPLA_RESULT_TRUE then [EvGot sdp] else []).

(** What a callback may do. *)
Inductive srpc_op :=
  | OpGetData (rr_id : Z)
  | OpAsyncCall (malloc_ok : bool) (call_id : Z) (data : option (list Z)) (data_size : Z)
                (version : option Z)
  | OpSetProtoVersion (version : Z).

Definition srpc_do_op (op : srpc_op) (s : Tsrpc) : option (Tsrpc * list srpc_event) :=
  match op with
  | OpGetData rr_id => srpc_getdata_pop rr_id s
  | OpAsyncCall m call_id data size version =>
      '(r, s, evs) ← srpc_async__call m call_id data size version s;
      Some (s, evs ++ [EvReturn r])
  | OpSetProtoVersion v => Some (srpc_set_proto_version v s, [])
  end.

Fixpoint srpc_do_ops (ops : list srpc_op) (s : Tsrpc)
    : option (Tsrpc * list srpc_event) :=
  match ops with
  | [] => Some (s, [])
  | op :: rest =>
      '(s1, evs1) ← srpc_do_op op s;
      '(s2, evs2) ← srpc_do_ops rest s1;
      Some (s2, evs1 ++ evs2)
  end.

(** ** srpc_iterate *)

(** The answers of the allocator in one iteration. *)
Record allocs := Allocs {
  al_in : realloc_answer;
  al_pop : realloc_answer;
  al_push : bool;
  al_out1 : realloc_answer;
  al_out2 : realloc_answer;
  al_written : realloc_answer
}.

Section iterate.
(** The callback on_remote_call_received. *)
Context (on_remote_call_received : Z → Z → Z → Tsrpc → list srpc_op).

(** The part "IN". [input] is what [data_read] gives: [None] for a negative
    result, [Some []] for 0. The result says whether the function goes on, and
    then with which [raise_event]. The callback on_version_error runs last. *)
Definition srpc_iterate_in (al : allocs) (input : option (list Z)) (s : Tsrpc)
    : option (option bool * Tsrpc * list srpc_event) :=
  if bool_decide (input = Some []) then Some (None, s, [])
  else
    '(r, proto) ← match input with
                  | Some data => sproto_in_buffer_append (al_in al) (srpc_proto s) data
                                   (Z.of_nat (length data))
                  | None => Some (SUPLA_RESULT_TRUE, srpc_proto s)
                  end;
    let s := set_proto proto s in
    if negb (r =? SUPLA_RESULT_TRUE) then Some (None, s, [])
    else
      '(r, sdp, proto) ← sproto_pop_in_sdp (al_pop al) (srpc_proto s) (srpc_sdp s);
      let s := set_sdp sdp (set_proto proto s) in
      if r =? SUPLA_RESULT_TRUE then
        let raise_event := sproto_in_dataexists proto =? SUPLA_RESULT_TRUE in
        '(r2, q) ← srpc_queue_push (al_push al) (in_queue s) sdp;
        let s := set_in_queue q s in
        if r2 =? SUPLA_RESULT_TRUE then
          '(s, evs) ← srpc_do_ops
             (on_remote_call_received (sdp_rr_id sdp) (sdp_call_id sdp) (sdp_version sdp) s) s;
          Some (Some raise_event, s,
                EvRemoteCall (sdp_rr_id sdp) (sdp_call_id sdp) (sdp_version sdp) :: evs)
        else Some (None, s, [])
      else if negb (r =? SUPLA_RESULT_FALSE) then
        Some (None, s,
              if r =? SUPLA_RESULT_VERSION_ERROR then [EvVersionError (sdp_version sdp)] else [])
      else Some (Some false, s, []).

(** The part "OUT". *)
Definition srpc_iterate_out (al : allocs) (raise_event : bool) (s : Tsrpc)
    : option (Z * Tsrpc * list srpc_event) :=
  '(r, sdp, q) ← srpc_queue_pop (out_queue s) (srpc_sdp s) 0;
  let s := set_out_queue q (set_sdp sdp s) in
  '(r2, proto) ← (if r =? SUPLA_RESULT_TRUE
                  then sproto_out_buffer_append (al_out1 al) (al_out2 al) (srpc_proto s) sdp
                  else Some (SUPLA_RESULT_TRUE, srpc_proto s));
  let s := set_proto proto s in
  if negb (r2 =? SUPLA_RESULT_TRUE) && negb (r2 =? SUPLA_RESULT_FALSE)
  then Some (SUPLA_RESULT_FALSE, s, [])
  else
    '(n, data, proto) ← sproto_pop_out_data (al_written al) (srpc_proto s) false
                          SRPC_BUFFER_SIZE;
    let s := set_proto proto s in
    Some (SUPLA_RESULT_TRUE, s,
          (if negb (n =? 0) then [EvWrite data] else [])
          ++ (if (sproto_out_dataexists proto =? SUPLA_RESULT_TRUE)
                 || negb (item_count (out_queue s) =? 0) || raise_event
              then [EvRaise] else [])).

Definition srpc_iterate (al : allocs) (input : option (list Z)) (s : Tsrpc)
    : option (Z * Tsrpc * list srpc_event) :=
  '(go, s, evs) ← srpc_iterate_in al input s;
  match go with
  | None => Some (SUPLA_RESULT_FALSE, s, evs)
  | Some raise_event =>
      '(r, s, evs2) ← srpc_iterate_out al raise_event s;
      Some (r, s, evs ++ evs2)
  end.

(** ** Runs: what the thread of the connection and the others do, in order *)

Inductive srpc_action :=
  | AIterate (al : allocs) (input : option (list Z))
  | AOp (op : srpc_op).

Definition srpc_act (a : srpc_action) (s : Tsrpc) : option (Tsrpc * list srpc_event) :=
  match a with
  | AIterate al input =>
      '(r, s, evs) ← srpc_iterate al input s; Some (s, evs ++ [EvIterated r])
  | AOp op => srpc_do_op op s
  end.

Fixpoint srpc_run (l : list srpc_action) (s : Tsrpc) : option (Tsrpc * list srpc_event) :=
  match l with
  | [] => Some (s, [])
  | a :: l' =>
      '(s1, evs1) ← srpc_act a s;
      '(s2, evs2) ← srpc_run l' s1;
      Some (s2, evs1 ++ evs2)
  end.
End iterate.

(** ** The queue refines a list *)

(** The slots in use hold the packets, the others are null. *)
Record queue_ok (q : Tsrpc_Queue) (l : list TSuplaDataPacket) : Prop := {
  qk_count : item_count q = Z.of_nat (length l);
  qk_alloc : alloc_count q = Z.of_nat (length l);
  qk_size : (length l <= 10)%nat;
  qk_item : item q = (Some <$> l) ++ replicate (10 - length l) None
}.

Definition rr_matches (rr_id : Z) (p : TSuplaDataPacket) : bool :=
  (rr_id =? 0) || (sdp_rr_id p =? rr_id).

Lemma queue_ok_init : queue_ok srpc_queue_init [].
Proof. split; cbn; (done || lia). Qed.

Lemma queue_push_ok m q l p :
  queue_ok q l →
  ∃ r q', srpc_queue_push m q p = Some (r, q')
    ∧ ((r = SUPLA_RESULT_TRUE ∧ (length l < 10)%nat ∧ m = true ∧ queue_ok q' (l ++ [p]))
       ∨ (r = SUPLA_RESULT_FALSE ∧ q' = q ∧ ((10 <= length l)%nat ∨ m = false))).
Proof.
  intros [Hc Ha Hs Hi]. unfold srpc_queue_push, SRPC_QUEUE_SIZE. rewrite Hc.
  destruct (Z.leb_spec 10 (Z.of_nat (length l))) as [|Hlt].
  { do 2 eexists. split; [done|]. right. split_and!; [done|done|left; lia]. }
  rewrite Nat2Z.id, Hi.
  rewrite lookup_app_r, length_fmap, Nat.sub_diag by (by rewrite length_fmap).
  assert (∃ n, (10 - length l = S n)%nat) as [n Hn] by (exists (9 - length l)%nat; lia).
  rewrite Hn. cbn [replicate lookup list_lookup mbind option_bind].
  rewrite bool_decide_true, andb_true_r by done. destruct m; cbn [negb].
  - do 2 eexists. split; [done|]. left. split_and!; [done|lia|done|].
    split; cbn; rewrite ?length_app; cbn [length]; rewrite ?Ha.
    + rewrite u8_id by (unfold is_u8; lia). lia.
    + rewrite u8_id by (unfold is_u8; lia). lia.
    + lia.
    + rewrite insert_app_r_alt by (by rewrite length_fmap).
      rewrite length_fmap, Nat.sub_diag. cbn.
      rewrite fmap_app, <- app_assoc. cbn. do 3 f_equal. lia.
  - do 2 eexists. split; [done|]. right. by split_and!; [done|done|right].
Qed.

Lemma queue_find_none rr_id l : ∀ pre tail,
  (∀ p, p ∈ l → rr_matches rr_id p = false) →
  srpc_queue_find (length l) (length pre) rr_id ((Some <$> pre) ++ (Some <$> l) ++ tail)
  = Some None.
Proof.
  induction l as [|x l IH]; intros pre tail Hl; [done|].
  cbn [length srpc_queue_find]. rewrite lookup_app_r by (by rewrite length_fmap).
  rewrite length_fmap, Nat.sub_diag. cbn [fmap list_fmap lookup list_lookup app].
  cbn [mbind option_bind]. fold (rr_matches rr_id x).
  rewrite (Hl x) by apply list_elem_of_here.
  specialize (IH (pre ++ [x]) tail). rewrite length_app, fmap_app, <- app_assoc in IH.
  cbn [length fmap list_fmap app] in IH. rewrite Nat.add_1_r in IH. apply IH.
  intros p Hp. by apply Hl, list_elem_of_further.
Qed.

Lemma queue_find_some rr_id l1 x l2 : ∀ pre tail,
  (∀ p, p ∈ l1 → rr_matches rr_id p = false) → rr_matches rr_id x = true →
  srpc_queue_find (length (l1 ++ x :: l2)) (length pre) rr_id
    ((Some <$> pre) ++ (Some <$> l1 ++ x :: l2) ++ tail)
  = Some (Some (length pre + length l1)%nat).
Proof.
  induction l1 as [|y l1 IH]; intros pre tail Hl Hx; cbn [app length srpc_queue_find];
    (rewrite lookup_app_r by (by rewrite length_fmap));
    rewrite length_fmap, Nat.sub_diag; cbn [fmap list_fmap lookup list_lookup app];
    cbn [mbind option_bind].
  - fold (rr_matches rr_id x). rewrite Hx. by rewrite Nat.add_0_r.
  - fold (rr_matches rr_id y). rewrite (Hl y) by apply list_elem_of_here.
    specialize (IH (pre ++ [y]) tail). rewrite (length_app pre [y]), (fmap_app Some pre [y]), <- (app_assoc (Some <$> pre)) in IH.
    cbn [length fmap list_fmap app] in IH. rewrite Nat.add_1_r in IH.
    rewrite IH; [f_equal; f_equal; lia| |done].
    intros p Hp. by apply Hl, list_elem_of_further.
Qed.

(** The loop moves the slots after [x] one to the left. *)
Lemma queue_shift_ok n : ∀ b (pre : list (option TSuplaDataPacket)) x mid post,
  length pre = b → length mid = n →
  ∃ y, srpc_queue_shift n b (pre ++ x :: mid ++ post) = Some (pre ++ mid ++ y :: post).
Proof.
  induction n as [|n IH]; intros b pre x mid post Hb Hn.
  - destruct mid; [|done]. by exists x.
  - destruct mid as [|z mid]; [done|]. cbn [srpc_queue_shift].
    rewrite lookup_app_r by lia. rewrite Hb.
    replace (S b - b)%nat with 1%nat by lia. cbn [lookup list_lookup app].
    cbn [mbind option_bind].
    rewrite insert_app_r_alt by lia. rewrite Hb, Nat.sub_diag. cbn [insert list_insert].
    destruct (IH (S b) (pre ++ [z]) z mid post) as [y Hy].
    { rewrite length_app. cbn. lia. }
    { cbn in Hn. lia. }
    exists y. rewrite <- !app_assoc in Hy. exact Hy.
Qed.

Lemma queue_pop_ok q l sdp rr_id :
  queue_ok q l →
  match find_first (rr_matches rr_id) l with
  | None => srpc_queue_pop q sdp rr_id = Some (SUPLA_RESULT_FALSE, sdp, q)
  | Some p => ∃ q', srpc_queue_pop q sdp rr_id = Some (SUPLA_RESULT_TRUE, p, q')
                    ∧ queue_ok q' (erase_first (rr_matches rr_id) l)
  end.
Proof.
  intros [Hc Ha Hs Hi]. unfold srpc_queue_pop. rewrite Hc, Nat2Z.id, Hi.
  destruct (find_first _ l) as [p|] eqn:Ef.
  - destruct (erase_first_Some _ _ _ Ef) as (l1 & l2 & -> & He & Hn & Hp).
    pose proof (queue_find_some rr_id l1 p l2 [] (replicate (10 - length (l1 ++ p :: l2)) None)
      Hn Hp) as Hfind. cbn [fmap list_fmap app length] in Hfind. rewrite Hfind.
    cbn [mbind option_bind Nat.add].
    rewrite fmap_app, <- app_assoc. cbn [fmap list_fmap app].
    rewrite lookup_app_r by (by rewrite length_fmap).
    rewrite length_fmap, Nat.sub_diag. cbn [lookup list_lookup mbind option_bind].
    rewrite length_app in *. cbn [length] in *. rewrite Ha.
    rewrite (proj2 (Z.ltb_lt SRPC_QUEUE_MIN_ALLOC_COUNT _))
      by (unfold SRPC_QUEUE_MIN_ALLOC_COUNT; lia).
    rewrite insert_app_r_alt by (by rewrite length_fmap).
    rewrite length_fmap, Nat.sub_diag. cbn [insert list_insert].
    replace (Z.to_nat (Z.of_nat (length l1 + S (length l2)) - 1) - length l1)%nat
      with (length l2) by lia.
    destruct (queue_shift_ok (length l2) (length l1) (Some <$> l1) None (Some <$> l2)
                (replicate (10 - (length l1 + S (length l2))) None)) as [y Hy];
      [by rewrite length_fmap..|].
    change (list_fmap _ _ Some l2) with (Some <$> l2).
    rewrite Hy. cbn [mbind option_bind]. eexists. split; [reflexivity|].
    rewrite He. split; cbn; rewrite ?length_app; try lia.
    rewrite app_assoc, <- fmap_app, insert_app_r_alt
      by (rewrite length_fmap, length_app; lia).
    rewrite length_fmap, length_app.
    replace (Z.to_nat _ - _)%nat with 0%nat by lia. cbn [insert list_insert].
    f_equal. by replace (10 - (length l1 + length l2))%nat
      with (S (10 - (length l1 + S (length l2)))) by lia.
  - rewrite find_first_None in Ef.
    pose proof (queue_find_none rr_id l [] (replicate (10 - length l) None) Ef) as Hfind.
    cbn [fmap list_fmap app length] in Hfind. by rewrite Hfind.
Qed.

(** ** What a run did *)

Definition written (evs : list srpc_event) : list Z :=
  mjoin (omap (λ e, match e with EvWrite d => Some d | _ => None end) evs).
Definition accepted (evs : list srpc_event) : list TSuplaDataPacket :=
  omap (λ e, match e with EvAccepted p => Some p | _ => None end) evs.
Definition got (evs : list srpc_event) : list TSuplaDataPacket :=
  omap (λ e, match e with EvGot p => Some p | _ => None end) evs.
Definition results (evs : list srpc_event) : list Z :=
  omap (λ e, match e with EvIterated r => Some r | _ => None end) evs.

Lemma mjoin_app' {A} (a b : list (list A)) : mjoin (a ++ b) = mjoin a ++ mjoin b.
Proof.
  induction a as [|x a IH]; [done|].
  by rewrite <- app_comm_cons, !mjoin_cons, IH, app_assoc.
Qed.

Lemma written_app a b : written (a ++ b) = written a ++ written b.
Proof. unfold written. by rewrite omap_app, mjoin_app'. Qed.
Lemma accepted_app a b : accepted (a ++ b) = accepted a ++ accepted b.
Proof. apply omap_app. Qed.
Lemma results_app a b : results (a ++ b) = results a ++ results b.
Proof. apply omap_app. Qed.
Lemma got_app a b : got (a ++ b) = got a ++ got b.
Proof. apply omap_app. Qed.

Lemma wires_app a b : wires (a ++ b) = wires a ++ wires b.
Proof. unfold wires. by rewrite fmap_app, mjoin_app'. Qed.

(** ** The invariant between operations

    [c]: the bytes in the input buffer, [il] and [ol]: the packets in the
    queues. The output buffer is empty. *)
Record srpc_ok (s : Tsrpc) (c : list Z) (il ol : list TSuplaDataPacket) : Prop := {
  so_in : in_ok (spd_in (srpc_proto s)) c;
  so_bytes : bytes c;
  so_out : out_ok (spd_out (srpc_proto s)) [];
  so_in_queue : queue_ok (in_queue s) il;
  so_out_queue : queue_ok (out_queue s) ol;
  so_shape : Forall sdp_shape ol
}.

Lemma srpc_ok_init : srpc_ok srpc_init [] [] [].
Proof.
  split; try apply queue_ok_init; try constructor; try apply buf_ok_init.
  by left.
Qed.

(** The data of a call are there. *)
Definition op_ok (op : srpc_op) : Prop :=
  match op with
  | OpAsyncCall _ _ data size _ =>
      0 <= size ∧ ∀ src, data = Some src → size <= Z.of_nat (length src)
  | _ => True
  end.

(** What an operation takes from the input queue. *)
Definition op_takes (op : srpc_op) (il : list TSuplaDataPacket)
    : list TSuplaDataPacket * list TSuplaDataPacket :=
  match op with
  | OpGetData rr_id =>
      (match find_first (rr_matches rr_id) il with Some p => [p] | None => [] end,
       erase_first (rr_matches rr_id) il)
  | _ => ([], il)
  end.

(** When [sproto_set_data] refuses the data. *)
Definition data_refused (data : option (list Z)) (size : Z) : bool :=
  (SUPLA_MAX_DATA_SIZE <? size) || ((0 <? size) && bool_decide (data = None)).

Lemma set_data_ok sdp data size call_id :
  0 <= size → (∀ src, data = Some src → size <= Z.of_nat (length src)) →
  sdp_tag sdp = sproto_tag → Z.of_nat (length (sdp_data sdp)) = SUPLA_MAX_DATA_SIZE →
  if data_refused data size
  then sproto_set_data sdp data size call_id = Some (SUPLA_RESULT_FALSE, sdp)
  else ∃ sdp', sproto_set_data sdp data size call_id = Some (SUPLA_RESULT_TRUE, sdp')
    ∧ sdp_shape sdp' ∧ sdp_rr_id sdp' = sdp_rr_id sdp
    ∧ sdp_version sdp' = sdp_version sdp ∧ sdp_call_id sdp' = call_id
    ∧ sdp_data_size sdp' = size
    ∧ take (Z.to_nat size) (sdp_data sdp') = take (Z.to_nat size) (default [] data).
Proof.
  intros Hs Hd Ht Hl. unfold sproto_set_data. fold (data_refused data size).
  destruct (data_refused data size) eqn:E; [done|].
  apply orb_false_iff in E as [E1 E2]. unfold SUPLA_MAX_DATA_SIZE in *.
  destruct (Z.ltb_spec 0 size) as [Hpos|Hz].
  - cbn [andb] in E2. apply bool_decide_eq_false in E2.
    destruct data as [src|]; [|done]. specialize (Hd src eq_refl). cbn [mbind option_bind].
    unfold memcpy_to.
    replace ((0 <=? 0) && (0 <=? size) && (0 + size <=? Z.of_nat (length (sdp_data sdp)))
             && (size <=? Z.of_nat (length src))) with true by lia.
    cbn [mbind option_bind]. eexists. split; [reflexivity|]. cbn -[Z.to_nat take drop].
    change (take (Z.to_nat 0) (sdp_data sdp)) with (@nil Z). cbn [app].
    split_and!; [|done..|].
    + split; cbn -[Z.to_nat take drop]; [done|unfold SUPLA_MAX_DATA_SIZE; lia|].
      rewrite length_app, length_take, length_drop. unfold SUPLA_MAX_DATA_SIZE. lia.
    + apply take_app_length'. rewrite length_take. unfold id. lia.
  - eexists. split; [reflexivity|]. cbn. replace size with 0 by lia.
    split_and!; [|done..]. split; cbn; [done|unfold SUPLA_MAX_DATA_SIZE; lia|done].
Qed.

Lemma async_call_ok m call_id data size version s c il ol :
  srpc_ok s c il ol → op_ok (OpAsyncCall m call_id data size version) →
  ∃ r s' evs, srpc_async__call m call_id data size version s = Some (r, s', evs)
    ∧ srpc_ok s' c il (ol ++ accepted evs) ∧ written evs = [] ∧ got evs = [].
Proof.
  intros [H1 H2 H3 H4 H5 H6] [Hsz Hd]. unfold srpc_async__call.
  destruct (negb _).
  { do 3 eexists. split; [reflexivity|]. cbn. rewrite app_nil_r. by split_and!. }
  unfold sproto_sdp_init. cbn zeta.
  set (sdp0 := match version with Some v => _ | None => _ end).
  pose proof (set_data_ok sdp0 data size call_id Hsz Hd) as Hset.
  destruct (data_refused data size).
  { rewrite Hset by by destruct version. cbn [mbind option_bind].
    do 3 eexists. split; [reflexivity|]. cbn. rewrite app_nil_r. by split_and!. }
  destruct Hset as (sdp & -> & Hsh & _); [by destruct version..|].
  cbn [mbind option_bind].
  change (SUPLA_RESULT_TRUE =? SUPLA_RESULT_TRUE) with true. cbn iota.
  change (out_queue (set_sdp _ _)) with (out_queue s).
  destruct (queue_push_ok m _ _ sdp H5)
    as (r2 & q & -> & [(-> & _ & _ & Hq)|(-> & -> & _)]); cbn [mbind option_bind].
  - do 3 eexists. split; [reflexivity|]. cbn. split_and!; [|done..].
    split; try done. apply Forall_app_2; [done|by constructor].
  - do 3 eexists. split; [reflexivity|]. cbn. rewrite app_nil_r. by split_and!.
Qed.

Lemma do_op_ok op s c il ol :
  srpc_ok s c il ol → op_ok op →
  ∃ s' evs, srpc_do_op op s = Some (s', evs)
    ∧ srpc_ok s' c (op_takes op il).2 (ol ++ accepted evs) ∧ written evs = []
    ∧ got evs = (op_takes op il).1.
Proof.
  intros Hs Hop. destruct op as [rr|m call_id data size version|v]; cbn [srpc_do_op].
  - pose proof Hs as [H1 H2 H3 H4 H5 H6]. unfold srpc_getdata_pop.
    pose proof (queue_pop_ok _ _ (srpc_sdp s) rr H4) as Hp. cbn [op_takes].
    destruct (find_first _ il) as [p|] eqn:Ef.
    + destruct Hp as (q & -> & Hq). cbn [mbind option_bind].
      do 2 eexists. split; [reflexivity|]. cbn. rewrite app_nil_r. split_and!; done.
    + rewrite Hp. cbn [mbind option_bind]. rewrite (erase_first_None _ _ Ef).
      do 2 eexists. split; [reflexivity|]. cbn. rewrite app_nil_r. split_and!; done.
  - destruct (async_call_ok _ _ _ _ _ _ _ _ _ Hs Hop) as (r & s' & evs & -> & Hok & Hw & Hg).
    cbn [mbind option_bind]. do 2 eexists. split; [reflexivity|].
    rewrite accepted_app, written_app, got_app, Hw, Hg. cbn. rewrite app_nil_r.
    by split_and!.
  - destruct Hs as [H1 H2 H3 H4 H5 H6]. do 2 eexists. split; [reflexivity|]. cbn.
    rewrite app_nil_r. by split_and!.
Qed.

(** What a list of operations takes from the input queue. *)
Fixpoint ops_take (ops : list srpc_op) (il : list TSuplaDataPacket)
    : list TSuplaDataPacket * list TSuplaDataPacket :=
  match ops with
  | [] => ([], il)
  | op :: rest =>
      let '(a, il1) := op_takes op il in
      let '(b, il2) := ops_take rest il1 in (a ++ b, il2)
  end.

Lemma do_ops_ok ops : ∀ s c il ol,
  srpc_ok s c il ol → Forall op_ok ops →
  ∃ s' evs, srpc_do_ops ops s = Some (s', evs)
    ∧ srpc_ok s' c (ops_take ops il).2 (ol ++ accepted evs) ∧ written evs = []
    ∧ got evs = (ops_take ops il).1.
Proof.
  induction ops as [|op ops IH]; intros s c il ol Hs Hops.
  { do 2 eexists. split; [reflexivity|]. cbn. rewrite app_nil_r. by split_and!. }
  apply Forall_cons in Hops as [Hop Hops]. cbn [srpc_do_ops ops_take].
  destruct (do_op_ok op s c il ol Hs Hop) as (s1 & e1 & -> & Hs1 & Hw1 & Hg1).
  cbn [mbind option_bind]. destruct (op_takes op il) as [a il1]. cbn [fst snd] in *.
  destruct (IH s1 c il1 _ Hs1 Hops) as (s2 & e2 & -> & Hs2 & Hw2 & Hg2).
  cbn [mbind option_bind]. destruct (ops_take ops il1) as [b il2]. cbn [fst snd] in *.
  do 2 eexists. split; [reflexivity|].
  rewrite accepted_app, written_app, got_app, app_assoc, Hw1, Hw2, Hg1, Hg2. by split_and!.
Qed.

(** ** One iteration *)

Definition input_ok (input : option (list Z)) : Prop :=
  ∀ d, input = Some d → bytes d ∧ Z.of_nat (length d) <= SRPC_BUFFER_SIZE.

Section iteration.
Context (cb : Z → Z → Z → Tsrpc → list srpc_op).
Hypothesis Hcb : ∀ rr call v s, Forall op_ok (cb rr call v s).

(** The bytes after the read, and how the input buffer takes them. *)
Lemma read_ok al input s c il ol :
  srpc_ok s c il ol → ra_enomem (al_in al) = false → input_ok input →
  ∃ r proto c',
    match input with
    | Some data => sproto_in_buffer_append (al_in al) (srpc_proto s) data
                     (Z.of_nat (length data))
    | None => Some (SUPLA_RESULT_TRUE, srpc_proto s)
    end = Some (r, proto)
    ∧ srpc_ok (set_proto proto s) c' il ol
    ∧ (ra_ok (al_in al) = true →
       Z.of_nat (length (c ++ default [] input)) < BUFFER_MAX_SIZE →
       r = SUPLA_RESULT_TRUE ∧ c' = c ++ default [] input).
Proof.
  intros Hs He Hin. pose proof Hs as [H1 H2 H3 H4 H5 H6].
  destruct input as [d|]; cbn [default].
  - destruct (Hin d eq_refl) as [Hb Hl].
    destruct (in_append_cases (al_in al) (srpc_proto s) d (Z.of_nat (length d)) c H1)
      as (r & i' & -> & Hc); [lia|unfold SRPC_BUFFER_SIZE in Hl; lia|done|].
    rewrite Nat2Z.id, firstn_all in Hc.
    destruct Hc as [(-> & Hlt & Hok)|[(-> & Hge & ->)|(-> & Hra & ->)]].
    + do 2 eexists. exists (c ++ d). split_and!; [done| |done].
      split; try done. by apply Forall_app_2.
    + do 2 eexists. exists c. split_and!; [done|by split|].
      intros _. unfold id. rewrite length_app, Nat2Z.inj_add. lia.
    + do 2 eexists. exists c. split_and!; [done|by split|]. congruence.
  - exists SUPLA_RESULT_TRUE, (srpc_proto s), c. rewrite app_nil_r.
    split_and!; [done|by destruct s|done].
Qed.

(** What an iteration does with the frame at the front of the input buffer:
    the packet is queued, and the callback takes from the queue. *)
Definition frame_taken (f : frame) (c : list Z) (il : list TSuplaDataPacket)
    (go : option bool) (c' : list Z) (il' taken : list TSuplaDataPacket) : Prop :=
  match f with
  | NeedMore => go = Some false ∧ c' = c ∧ il' = il ∧ taken = []
  | Packet b rest =>
      ∃ old p s, p = sdp_of_bytes (b ++ drop (length b) (sdp_bytes old))
        ∧ go ≠ None ∧ c' = rest
        ∧ (taken, il') = ops_take (cb (sdp_rr_id p) (sdp_call_id p) (sdp_version p) s) (il ++ [p])
  | _ => go = None
  end.

Lemma iterate_in_ok al input s c il ol :
  srpc_ok s c il ol → ra_enomem (al_in al) = false → input_ok input →
  ∃ go s' evs c' il', srpc_iterate_in cb al input s = Some (go, s', evs)
    ∧ srpc_ok s' c' il' (ol ++ accepted evs) ∧ written evs = []
    ∧ (input ≠ Some [] → ra_ok (al_in al) = true → al_push al = true →
       Z.of_nat (length (c ++ default [] input)) < BUFFER_MAX_SIZE → (length il < 10)%nat →
       frame_taken (frame_spec (c ++ default [] input)) (c ++ default [] input) il
         go c' il' (got evs)).
Proof using Hcb.
  intros Hs He Hin. unfold srpc_iterate_in.
  destruct (bool_decide_reflect (input = Some [])) as [E|E].
  { do 3 eexists. exists c, il. split; [reflexivity|]. cbn. rewrite app_nil_r. by split_and!. }
  destruct (read_ok al input s c il ol Hs He Hin) as (r & proto & c1 & -> & Hs1 & Hr).
  cbn [mbind option_bind].
  destruct (Z.eqb_spec r SUPLA_RESULT_TRUE) as [->|Hne]; cbn [negb].
  2: { do 3 eexists. exists c1, il. split; [reflexivity|]. cbn. rewrite app_nil_r.
       split_and!; [done|done|]. intros _ Ha _ Hb _. by destruct (Hr Ha Hb). }
  pose proof Hs1 as [H1 H2 H3 H4 H5 H6].
  cbn [srpc_proto set_proto srpc_sdp in_queue out_queue] in *.
  destruct (pop_agrees (al_pop al) proto (srpc_sdp s) c1 H1 H2) as (i' & -> & Hi').
  cbn [mbind option_bind].
  assert (∀ sdp c2, frame_spec c1 = NeedMore ∧ c2 = c1 ∨ (∃ b, frame_spec c1 = Packet b c2)
            ∨ c2 = [] → in_ok i' c2 →
            srpc_ok (set_sdp sdp (set_proto (set_in i' proto) (set_proto proto s))) c2 il ol)
    as Hok.
  { intros sdp c2 Hc2 Hin2. split; try done.
    destruct Hc2 as [[_ ->]|[[b Hb]| ->]]; [done| |constructor].
    assert (c2 `suffix_of` c1) as [x Hx].
    { unfold frame_spec in Hb. repeat (case_match; try done). injection Hb as _ <-.
      apply suffix_drop. }
    rewrite Hx in H2. by apply Forall_app in H2 as [_ ?]. }
  destruct (frame_spec c1) as [| |v|b rest] eqn:Ef; cbn [frame_result fst snd] in *.
  - do 3 eexists. exists c1, il. split; [reflexivity|]. cbn. rewrite app_nil_r.
    split_and!; [by apply Hok; [left|]|done|]. intros _ Ha _ Hb _.
    destruct (Hr Ha Hb) as [_ <-]. by rewrite Ef.
  - do 3 eexists. exists [], il. split; [reflexivity|]. cbn. rewrite app_nil_r.
    split_and!; [by apply Hok; [right; right|]|done|]. intros _ Ha _ Hb _.
    destruct (Hr Ha Hb) as [_ <-]. by rewrite Ef.
  - do 3 eexists. exists [], il. split; [reflexivity|]. cbn. rewrite app_nil_r.
    split_and!; [by apply Hok; [right; right|]|done|]. intros _ Ha _ Hb _.
    destruct (Hr Ha Hb) as [_ <-]. by rewrite Ef.
  - change (SUPLA_RESULT_TRUE =? SUPLA_RESULT_TRUE) with true. cbn iota.
    set (p := sdp_of_bytes _) in *.
    specialize (Hok p rest ltac:(right; left; eauto) Hi').
    cbn [in_queue set_sdp set_proto].
    destruct (queue_push_ok (al_push al) _ _ p H4)
      as (r2 & q & -> & [(-> & _ & _ & Hq)|(-> & -> & Hfull)]); cbn [mbind option_bind].
    + change (SUPLA_RESULT_TRUE =? SUPLA_RESULT_TRUE) with true. cbn iota.
      match goal with |- context [srpc_do_ops ?ops ?s1] => set (s1' := s1) end.
      set (ops' := cb _ _ _ s1').
      assert (srpc_ok s1' rest (il ++ [p]) ol) as Hs1' by (by destruct Hok; split).
      destruct (do_ops_ok ops' s1' rest (il ++ [p]) ol Hs1' ltac:(apply Hcb))
        as (s2 & evs & -> & Hs2 & Hw & Hg). cbn [mbind option_bind].
      do 3 eexists. exists rest, (ops_take ops' (il ++ [p])).2. split; [reflexivity|].
      split_and!; [exact Hs2|exact Hw|]. intros _ Ha _ Hb _.
      destruct (Hr Ha Hb) as [_ <-]. rewrite Ef. cbn [frame_taken].
      exists (srpc_sdp s), p, s1'. split_and!; [done|done|done|].
      change (got (EvRemoteCall _ _ _ :: evs)) with (got evs). rewrite Hg.
      unfold ops'. by destruct (ops_take _ _).
    + do 3 eexists. exists rest, il. split; [reflexivity|]. cbn. rewrite app_nil_r.
      split_and!; [by destruct Hok; split|done|]. intros _ _ Hp _ Hl.
      destruct Hfull as [|]; [lia|congruence].
Qed.

(** The allocator answers that let an iteration go on. *)
Definition out_allocs_ok (al : allocs) : Prop :=
  ra_enomem (al_in al) = false ∧ ra_ok (al_out1 al) = true ∧ ra_enomem (al_out1 al) = false
  ∧ ra_ok (al_out2 al) = true ∧ ra_enomem (al_out2 al) = false.

(** The output buffer is written whole: a packet that leaves the queue is
    written by the same iteration. *)
Lemma iterate_out_ok al raise s c il ol :
  srpc_ok s c il ol → out_allocs_ok al →
  ∃ s' evs, srpc_iterate_out al raise s = Some (SUPLA_RESULT_TRUE, s', evs)
    ∧ srpc_ok s' c il (tail ol) ∧ wires ol = written evs ++ wires (tail ol)
    ∧ accepted evs = [] ∧ got evs = [].
Proof.
  intros Hs (_ & Ho1 & He1 & Ho2 & He2). pose proof Hs as [H1 H2 H3 H4 H5 H6].
  unfold srpc_iterate_out.
  pose proof (queue_pop_ok _ _ (srpc_sdp s) 0 H5) as Hp.
  destruct ol as [|p ol]; cbn [find_first rr_matches erase_first] in Hp.
  - rewrite Hp. cbn [mbind option_bind].
    change (SUPLA_RESULT_FALSE =? SUPLA_RESULT_TRUE) with false. cbn iota.
    cbn [mbind option_bind]. cbn [srpc_proto set_out_queue set_sdp].
    change (negb (SUPLA_RESULT_TRUE =? SUPLA_RESULT_TRUE)) with false. cbn [andb].
    cbn [srpc_proto set_proto].
    destruct (sproto_pop_out_data_ok (al_written al) (srpc_proto s) SRPC_BUFFER_SIZE [] H3)
      as (o' & -> & Ho'); [done|]. cbn [mbind option_bind].
    change (negb (Z.min SRPC_BUFFER_SIZE (Z.of_nat (length (@nil Z))) =? 0)) with false.
    do 2 eexists. split; [reflexivity|]. split_and!; [|by case_match|by case_match|by case_match].
    by split.
  - destruct Hp as (q & -> & Hq). cbn [mbind option_bind].
    change (SUPLA_RESULT_TRUE =? SUPLA_RESULT_TRUE) with true. cbn iota.
    cbn [srpc_proto set_out_queue set_sdp].
    apply Forall_cons in H6 as [Hsh H6]. pose proof (wire_length p Hsh) as Hw.
    pose proof (sh_data_size p Hsh) as Hds. unfold SUPLA_MAX_DATA_SIZE in Hds.
    destruct (out_append_cases (al_out1 al) (al_out2 al) (srpc_proto s) p [] Hsh H3 He1 He2)
      as (r & o1 & -> & Hc). cbn [mbind option_bind].
    assert (r = SUPLA_RESULT_TRUE ∧ out_ok o1 (wire p)) as [-> Hok1].
    { unfold BUFFER_MAX_SIZE in Hc. cbn [length] in Hc.
      destruct Hc as [?|[(_ & _ & [?|?])|(_ & _ & [?|?])]]; [done|congruence|lia|congruence|lia]. }
    change (negb (SUPLA_RESULT_TRUE =? SUPLA_RESULT_TRUE)) with false. cbn [andb].
    cbn [srpc_proto set_proto].
    destruct (sproto_pop_out_data_ok (al_written al) (set_out o1 (srpc_proto s))
                SRPC_BUFFER_SIZE (wire p) Hok1) as (o' & -> & Ho'); [done|].
    cbn [mbind option_bind]. unfold SRPC_BUFFER_SIZE in *.
    rewrite (proj2 (Z.eqb_neq _ 0)) by lia. cbn [negb].
    rewrite take_ge by lia. rewrite drop_ge in Ho' by lia.
    do 2 eexists. split; [reflexivity|]. rewrite written_app, accepted_app, got_app.
    assert (queue_ok q ol) as Hq' by exact Hq.
    split; [by split|]. split; [|split; by repeat case_match].
    change (written [EvWrite (wire p)]) with (wire p ++ []). rewrite app_nil_r.
    change (wires (p :: ol)) with (wire p ++ wires ol). rewrite <- app_assoc. f_equal.
    by repeat case_match.
Qed.

Lemma iterate_ok al input s c il ol :
  srpc_ok s c il ol → out_allocs_ok al → input_ok input →
  ∃ r s' evs c' il' ol', srpc_iterate cb al input s = Some (r, s', evs)
    ∧ srpc_ok s' c' il' ol'
    ∧ wires ol ++ wires (accepted evs) = written evs ++ wires ol'
    ∧ (input ≠ Some [] → ra_ok (al_in al) = true → al_push al = true →
       Z.of_nat (length (c ++ default [] input)) < BUFFER_MAX_SIZE → (length il < 10)%nat →
       ∃ go, frame_taken (frame_spec (c ++ default [] input)) (c ++ default [] input) il
               go c' il' (got evs)
             ∧ (go ≠ None → r = SUPLA_RESULT_TRUE)).
Proof using Hcb.
  intros Hs Hal Hin. unfold srpc_iterate.
  destruct (iterate_in_ok al input s c il ol Hs (proj1 Hal) Hin)
    as (go & s1 & e1 & c1 & il1 & -> & Hs1 & Hw1 & Hd). cbn [mbind option_bind].
  destruct go as [raise|].
  - destruct (iterate_out_ok al raise s1 _ _ _ Hs1 Hal) as (s2 & e2 & -> & Hs2 & Hw2 & Ha2 & Hg2).
    cbn [mbind option_bind]. do 6 eexists. split; [reflexivity|]. split; [exact Hs2|]. split.
    + rewrite accepted_app, written_app, Hw1, Ha2, app_nil_r, <- wires_app. exact Hw2.
    + intros. rewrite got_app, Hg2, app_nil_r. exists (Some raise). split; [by apply Hd|done].
  - do 6 eexists. split; [reflexivity|]. split; [exact Hs1|]. split.
    + by rewrite Hw1, wires_app.
    + intros. exists None. split; [by apply Hd|done].
Qed.
End iteration.

(** The code fragments in the option monad: their result, on every branch. *)
Ltac inv_option :=
  repeat match goal with
  | H : Some _ = Some _ |- _ => injection H; clear H; intros
  | H : mbind _ _ = Some _ |- _ => apply bind_Some in H as (? & ? & H)
  | p : _ * _ |- _ => destruct p
  | H : context [if ?b then _ else _] |- _ => destruct b eqn:?
  | H : context [let '(_, _) := ?x in _] |- _ => destruct x eqn:?
  | H : None = Some _ |- _ => discriminate
  end; subst.

Lemma do_op_results op s s' evs : srpc_do_op op s = Some (s', evs) → results evs = [].
Proof.
  destruct op; cbn [srpc_do_op]; unfold srpc_getdata_pop, srpc_async__call; intros H;
    inv_option; done.
Qed.

Lemma do_ops_results ops : ∀ s s' evs,
  srpc_do_ops ops s = Some (s', evs) → results evs = [].
Proof.
  induction ops as [|op ops IH]; cbn [srpc_do_ops]; intros s s' evs H; inv_option; [done|].
  rewrite results_app. by erewrite do_op_results, IH by eassumption.
Qed.

Lemma iterate_results cb al input s r s' evs :
  srpc_iterate cb al input s = Some (r, s', evs) → results evs = [].
Proof.
  unfold srpc_iterate. intros H. apply bind_Some in H as ([[go s1] e1] & H1 & H).
  assert (results e1 = []) as He1.
  { unfold srpc_iterate_in in H1. inv_option; try done.
    all: change (results (EvRemoteCall ?a ?b ?c :: ?l)) with (results l);
      by eapply do_ops_results. }
  destruct go as [raise|]; [|by inv_option]. unfold srpc_iterate_out in H.
  inv_option; by rewrite ?results_app, ?He1.
Qed.

(** ** Runs *)

Definition action_ok (a : srpc_action) : Prop :=
  match a with
  | AIterate al input => out_allocs_ok al ∧ input_ok input
  | AOp op => op_ok op
  end.

Section runs.
Context (cb : Z → Z → Z → Tsrpc → list srpc_op).
Hypothesis Hcb : ∀ rr call v s, Forall op_ok (cb rr call v s).

Lemma act_ok a s c il ol :
  srpc_ok s c il ol → action_ok a →
  ∃ s' evs c' il' ol', srpc_act cb a s = Some (s', evs) ∧ srpc_ok s' c' il' ol'
    ∧ wires ol ++ wires (accepted evs) = written evs ++ wires ol'.
Proof using Hcb.
  intros Hs Ha. destruct a as [al input|op]; cbn [srpc_act].
  - destruct Ha as [Hal Hin].
    destruct (iterate_ok cb Hcb al input s c il ol Hs Hal Hin)
      as (r & s' & evs & c' & il' & ol' & -> & Hs' & Hw & _). cbn [mbind option_bind].
    do 5 eexists. split; [reflexivity|]. split; [exact Hs'|].
    rewrite accepted_app, written_app, !app_nil_r. exact Hw.
  - destruct (do_op_ok op s c il ol Hs Ha) as (s' & evs & -> & Hs' & Hw & _).
    do 5 eexists. split; [reflexivity|]. split; [exact Hs'|].
    by rewrite Hw, wires_app.
Qed.

Lemma run_ok acts : ∀ s c il ol,
  srpc_ok s c il ol → Forall action_ok acts →
  ∃ s' evs c' il' ol', srpc_run cb acts s = Some (s', evs) ∧ srpc_ok s' c' il' ol'
    ∧ wires ol ++ wires (accepted evs) = written evs ++ wires ol'.
Proof using Hcb.
  induction acts as [|a acts IH]; intros s c il ol Hs Hacts.
  { do 5 eexists. split; [reflexivity|]. split; [exact Hs|]. cbn. by rewrite app_nil_r. }
  apply Forall_cons in Hacts as [Ha Hacts]. cbn [srpc_run].
  destruct (act_ok a s c il ol Hs Ha) as (s1 & e1 & c1 & il1 & ol1 & -> & Hs1 & Hw1).
  cbn [mbind option_bind].
  destruct (IH s1 c1 il1 ol1 Hs1 Hacts) as (s2 & e2 & c2 & il2 & ol2 & -> & Hs2 & Hw2).
  cbn [mbind option_bind]. do 5 eexists. split; [reflexivity|]. split; [exact Hs2|].
  by rewrite accepted_app, written_app, wires_app, app_assoc, Hw1, <- app_assoc, Hw2, app_assoc.
Qed.

(** *** Delivery *)

(** The callback takes the packet it is told about, and only that. *)
Hypothesis Hconsume : ∀ rr call v s,
  ∃ rest, cb rr call v s = OpGetData rr :: rest ∧ ∀ rr', OpGetData rr' ∉ rest.

Lemma ops_take_none ops il :
  (∀ rr, OpGetData rr ∉ ops) → ops_take ops il = ([], il).
Proof.
  induction ops as [|op ops IH]; intros H; [done|]. cbn [ops_take].
  assert (op_takes op il = ([], il)) as ->
    by (destruct op; [destruct (H rr_id); apply list_elem_of_here|done|done]).
  rewrite IH; [done|]. intros rr Hin. by apply (H rr), list_elem_of_further.
Qed.

Lemma callback_takes p s :
  ops_take (cb (sdp_rr_id p) (sdp_call_id p) (sdp_version p) s) [p] = ([p], []).
Proof using Hconsume.
  destruct (Hconsume (sdp_rr_id p) (sdp_call_id p) (sdp_version p) s) as (rest & -> & Hr).
  cbn [ops_take op_takes find_first erase_first].
  assert (rr_matches (sdp_rr_id p) p = true) as ->
    by (unfold rr_matches; rewrite Z.eqb_refl; apply orb_true_r).
  by rewrite ops_take_none.
Qed.

Definition allocs_good (al : allocs) : Prop :=
  out_allocs_ok al ∧ ra_ok (al_in al) = true ∧ al_push al = true.

(** One iteration on a stream of packets: the next packet is delivered as soon
    as it has arrived whole. *)
Lemma deliver_step al input s c ol ps more :
  srpc_ok s c [] ol → allocs_good al → input_ok input → input ≠ Some [] →
  Forall sdp_wf ps → (c ++ default [] input) ++ more = wires ps →
  Z.of_nat (length (wires ps)) < BUFFER_MAX_SIZE →
  ∃ s' evs c' ol' ps1 ps2, srpc_act cb (AIterate al input) s = Some (s', evs)
    ∧ srpc_ok s' c' [] ol' ∧ ps = ps1 ++ ps2 ∧ wires ps1 ++ c' = c ++ default [] input
    ∧ payload <$> got evs = payload <$> ps1 ∧ results evs = [SUPLA_RESULT_TRUE]
    ∧ (more = [] → (length ps2 <= length ps - 1)%nat).
Proof using Hcb Hconsume.
  intros Hs (Hal & Hra & Hpush) Hin Hne Hwf Heq Hmax. cbn [srpc_act].
  destruct (iterate_ok cb Hcb al input s c [] ol Hs Hal Hin)
    as (r & s' & evs & c' & il' & ol' & E & Hs' & _ & Hd).
  apply iterate_results in E as Er. rewrite E. cbn [mbind option_bind].
  destruct (Hd Hne Hra Hpush) as (go & Hf & Hr); [|cbn; lia|].
  { rewrite <- Heq, length_app, Nat2Z.inj_add in Hmax. lia. }
  clear Hd. set (l := c ++ default [] input) in *. clearbody l.
  assert (frame_spec l = NeedMore ∧ (more = [] → ps = [])
          ∨ ∃ p ps', ps = p :: ps' ∧ ∃ rest, l = wire p ++ rest ∧
            frame_spec l = Packet (take (Z.to_nat (18 + sdp_data_size p)) (sdp_bytes p)) rest)
    as [[Hfr Hm]|(p & ps' & -> & rest & -> & Hfr)].
  { destruct ps as [|p ps].
    - left. apply app_eq_nil in Heq as [-> ->]. done.
    - apply Forall_cons in Hwf as [Hp Hwf].
      change (wires (p :: ps)) with (wire p ++ wires ps) in Heq.
      destruct (app_eq_inv _ _ _ _ Heq) as [(k & -> & Hk)|(k & Hk & ->)].
      + right. exists p, ps. split; [done|]. exists k. split; [done|]. by apply frame_spec_wire.
      + destruct (decide (k = [])) as [->|Hkn].
        * right. exists p, ps. split; [done|]. exists []. rewrite app_nil_r in Hk. subst l.
          split; [by rewrite app_nil_r|]. rewrite <- (app_nil_r (wire p)) at 1.
          by apply frame_spec_wire.
        * left. split; [|by destruct k].
          apply (frame_spec_prefix p); [done|by exists k|]. intros ->.
          apply (f_equal length) in Hk. rewrite length_app in Hk.
          destruct k; [done|]. cbn [length] in Hk. lia. }
  - rewrite Hfr in Hf. destruct Hf as (-> & -> & -> & Hg). rewrite Hr by done.
    do 4 eexists. exists [], ps. split; [reflexivity|].
    rewrite got_app, results_app, Hg, Er.
    split_and!; [exact Hs'|done|done|done|done|]. intros Hmore. rewrite (Hm Hmore). cbn. lia.
  - rewrite Hfr in Hf. destruct Hf as (old & q & s1 & -> & Hgo & -> & Htk).
    set (q := sdp_of_bytes _) in *. rewrite callback_takes in Htk.
    injection Htk as Hg ->. rewrite Hr by done.
    do 4 eexists. exists [p], ps'. split; [reflexivity|].
    rewrite got_app, results_app, Hg, Er. apply Forall_cons in Hwf as [Hp _].
    split_and!; [exact Hs'|done|by cbn; rewrite app_nil_r| |done|cbn; lia].
    cbn. f_equal. apply (payload_decoded p old Hp).
Qed.

Lemma run_app a b s :
  srpc_run cb (a ++ b) s =
    '(s1, e1) ← srpc_run cb a s; '(s2, e2) ← srpc_run cb b s1; Some (s2, e1 ++ e2).
Proof.
  revert s. induction a as [|x a IH]; intros s; cbn [app srpc_run mbind option_bind].
  - by destruct (srpc_run cb b s) as [[? ?]|].
  - destruct (srpc_act cb x s) as [[s1 e1]|]; [|done]. cbn [mbind option_bind].
    rewrite IH. destruct (srpc_run cb a s1) as [[s2 e2]|]; [|done]. cbn [mbind option_bind].
    destruct (srpc_run cb b s2) as [[s3 e3]|]; [|done]. cbn [mbind option_bind].
    by rewrite app_assoc.
Qed.

(** The iterations that read the chunks [ins]. *)
Definition reads (al : allocs) (ins : list (list Z)) : list srpc_action :=
  (λ d, AIterate al (Some d)) <$> ins.

(** Iterations that read the chunks: what has been delivered and what is still
    in the buffer are the stream. *)
Lemma deliver_chunks al ins : ∀ s c ol ps,
  srpc_ok s c [] ol → allocs_good al →
  Forall (λ d, d ≠ [] ∧ Z.of_nat (length d) <= SRPC_BUFFER_SIZE) ins →
  Forall sdp_wf ps → c ++ mjoin ins = wires ps →
  Z.of_nat (length (wires ps)) < BUFFER_MAX_SIZE →
  ∃ s' evs ol' ps1 ps2,
    srpc_run cb (reads al ins) s = Some (s', evs)
    ∧ srpc_ok s' (wires ps2) [] ol' ∧ ps = ps1 ++ ps2
    ∧ payload <$> got evs = payload <$> ps1
    ∧ Forall (λ r, r = SUPLA_RESULT_TRUE) (results evs).
Proof using Hcb Hconsume.
  induction ins as [|d ins IH]; intros s c ol ps Hs Hal Hins Hwf Heq Hmax.
  { do 3 eexists. exists [], ps. split; [reflexivity|]. cbn in Heq. rewrite app_nil_r in Heq.
    subst c. by split_and!. }
  apply Forall_cons in Hins as [[Hd Hl] Hins]. rewrite mjoin_cons, app_assoc in Heq.
  assert (bytes d) as Hb.
  { pose proof (wires_bytes ps Hwf) as Hb. rewrite <- Heq in Hb.
    apply Forall_app in Hb as [Hb _]. by apply Forall_app in Hb as [_ ?]. }
  destruct (deliver_step al (Some d) s c ol ps (mjoin ins) Hs Hal)
    as (s1 & e1 & c1 & ol1 & ps1 & ps2 & E1 & Hs1 & -> & Hc1 & Hg1 & Hr1 & _); [|congruence|done..|].
  { by intros ? [= <-]. }
  rewrite wires_app in Heq, Hmax. rewrite length_app in Hmax. apply Forall_app in Hwf as [_ Hwf].
  destruct (IH s1 c1 ol1 ps2 Hs1 Hal Hins Hwf) as (s2 & e2 & ol2 & ps3 & ps4 & E2 & Hs2 & -> & Hg2 & Hr2).
  { change (default [] (Some d)) with d in Hc1. rewrite <- Hc1, <- app_assoc in Heq.
    by apply app_inv_head in Heq. }
  { lia. }
  change (reads al (d :: ins)) with (AIterate al (Some d) :: reads al ins).
  cbn [srpc_run]. rewrite E1. cbn [mbind option_bind].
  rewrite E2. cbn [mbind option_bind]. do 3 eexists. exists (ps1 ++ ps3), ps4.
  split; [reflexivity|]. rewrite got_app, results_app, !fmap_app, Hg1, Hg2, Hr1.
  split_and!; [exact Hs2|by rewrite app_assoc|done|by constructor].
Qed.

(** Further iterations deliver what is complete in the buffer, one packet each. *)
Lemma deliver_rest al n : ∀ s ol ps,
  srpc_ok s (wires ps) [] ol → allocs_good al → Forall sdp_wf ps →
  Z.of_nat (length (wires ps)) < BUFFER_MAX_SIZE → (length ps <= n)%nat →
  ∃ s' evs ol', srpc_run cb (replicate n (AIterate al None)) s = Some (s', evs)
    ∧ srpc_ok s' [] [] ol' ∧ payload <$> got evs = payload <$> ps
    ∧ Forall (λ r, r = SUPLA_RESULT_TRUE) (results evs).
Proof using Hcb Hconsume.
  induction n as [|n IH]; intros s ol ps Hs Hal Hwf Hmax Hn.
  { destruct ps; [|cbn in Hn; lia]. do 3 eexists. split; [reflexivity|]. by split_and!. }
  cbn [replicate srpc_run].
  destruct (deliver_step al None s (wires ps) ol ps [] Hs Hal)
    as (s1 & e1 & c1 & ol1 & ps1 & ps2 & -> & Hs1 & -> & Hc1 & Hg1 & Hr1 & Hlen); [done|done|done|
      by cbn; rewrite !app_nil_r|done|].
  cbn [default] in Hc1. rewrite app_nil_r, wires_app in Hc1. apply app_inv_head in Hc1 as ->.
  rewrite wires_app, length_app in Hmax. apply Forall_app in Hwf as [_ Hwf].
  specialize (Hlen eq_refl). cbn [mbind option_bind].
  destruct (IH s1 ol1 ps2 Hs1 Hal Hwf) as (s2 & e2 & ol2 & -> & Hs2 & Hg2 & Hr2); [lia|lia|].
  cbn [mbind option_bind]. do 3 eexists. split; [reflexivity|].
  rewrite got_app, results_app, !fmap_app, Hg1, Hg2, Hr1.
  split_and!; [exact Hs2|done|by constructor].
Qed.

(** The two together, from the creation of the connection. *)
Lemma deliver_all al ps ins :
  allocs_good al → Forall sdp_wf ps →
  Forall (λ d, d ≠ [] ∧ Z.of_nat (length d) <= SRPC_BUFFER_SIZE) ins →
  mjoin ins = wires ps → Z.of_nat (length (wires ps)) < BUFFER_MAX_SIZE →
  ∃ s evs,
    srpc_run cb (reads al ins ++ replicate (length ps) (AIterate al None)) srpc_init
      = Some (s, evs)
    ∧ payload <$> got evs = payload <$> ps
    ∧ Forall (λ r, r = SUPLA_RESULT_TRUE) (results evs)
    ∧ queue_ok (in_queue s) [] ∧ in_ok (spd_in (srpc_proto s)) [].
Proof using Hcb Hconsume.
  intros Hal Hps Hins Hstream Hsize.
  destruct (deliver_chunks al ins srpc_init [] [] ps srpc_ok_init)
    as (s1 & e1 & ol1 & ps1 & ps2 & E1 & Hs1 & -> & Hg1 & Hr1); try done.
  rewrite wires_app, length_app in Hsize. apply Forall_app in Hps as [_ Hps].
  destruct (deliver_rest al (length (ps1 ++ ps2)) s1 ol1 ps2 Hs1 Hal Hps)
    as (s2 & e2 & ol2 & E2 & Hs2 & Hg2 & Hr2); [lia|rewrite length_app; lia|].
  exists s2, (e1 ++ e2). rewrite run_app, E1. cbn [mbind option_bind]. rewrite E2.
  rewrite got_app, results_app, !fmap_app, Hg1, Hg2.
  split_and!; [done|done|by apply Forall_app_2|apply Hs2|apply Hs2].
Qed.
End runs.

(** ** Properties *)

(** C6. The array of slots with its two counters refines a list of packets: a
    push appends, unless ten packets are queued or memory is lacking, and then
    changes nothing; a pop removes and gives the first packet, or the first one
    with the request identifier asked for, whatever its place; no step reads a
    null slot or leaves the array. *)
Theorem srpc_queue_refines m q l p sdp rr_id
    (Hq : queue_ok q l) :
  (∃ r q', srpc_queue_push m q p = Some (r, q')
     ∧ if (length l <? 10)%nat && m
       then r = SUPLA_RESULT_TRUE ∧ queue_ok q' (l ++ [p])
       else r = SUPLA_RESULT_FALSE ∧ q' = q)
  ∧ match find_first (rr_matches rr_id) l with
    | Some x => ∃ q', srpc_queue_pop q sdp rr_id = Some (SUPLA_RESULT_TRUE, x, q')
                      ∧ queue_ok q' (erase_first (rr_matches rr_id) l)
    | None => srpc_queue_pop q sdp rr_id = Some (SUPLA_RESULT_FALSE, sdp, q)
    end.
Proof.
  split; [|by apply queue_pop_ok].
  destruct (queue_push_ok m q l p Hq) as (r & q' & E & Hc). exists r, q'. split; [done|].
  destruct Hc as [(-> & Hl & -> & ?)|(-> & -> & Hc)].
  - by rewrite (proj2 (Nat.ltb_lt _ _)).
  - destruct Hc as [Hl| ->]; [by rewrite (proj2 (Nat.ltb_ge _ _))|by rewrite andb_false_r].
Qed.

(** Packets with the identifiers 1, 2 and so on. *)
Definition numbered (i : Z) : TSuplaDataPacket := SDP sproto_tag 20 i 40 0 [].
Definition queue_ex : Tsrpc_Queue :=
  Queue 3 3 ((Some ∘ numbered <$> [1; 2; 3]) ++ replicate 7 None).

Lemma srpc_queue_refines_witness :
  ∃ q', srpc_queue_pop queue_ex sdp_zero 2 = Some (SUPLA_RESULT_TRUE, numbered 2, q')
        ∧ queue_ok q' [numbered 1; numbered 3].
Proof.
  assert (queue_ok queue_ex [numbered 1; numbered 2; numbered 3]) as Hq.
  { split; [reflexivity|reflexivity|cbn; lia|reflexivity]. }
  exact (proj2 (srpc_queue_refines true queue_ex _ (numbered 4) sdp_zero 2 Hq)).
Defined.

(** C5. Nothing that was accepted for sending is lost, duplicated or reordered:
    for any interleaving of iterations (with any bytes read, and any callback)
    and calls of other threads from the creation of the connection, the run
    makes no invalid access, and the bytes written followed by the images of the
    packets still in the output queue are the images of the accepted packets, in
    the order of the calls; at most ten packets wait. [realloc] must succeed for
    the output buffer. *)
Theorem srpc_out_lossless cb acts
    (Hcb : ∀ rr call v s, Forall op_ok (cb rr call v s))
    (Hacts : Forall action_ok acts) :
  ∃ s evs waiting, srpc_run cb acts srpc_init = Some (s, evs)
    ∧ queue_ok (out_queue s) waiting ∧ (length waiting <= 10)%nat
    ∧ written evs ++ wires waiting = wires (accepted evs).
Proof.
  destruct (run_ok cb Hcb acts srpc_init [] [] [] srpc_ok_init Hacts)
    as (s & evs & c & il & ol & Hrun & Hs & Hw).
  exists s, evs, ol. pose proof (so_out_queue _ _ _ _ Hs) as Hq.
  split_and!; [done|done|apply Hq|done].
Qed.

Definition al_ex : allocs := Allocs ra_good ra_good true ra_good ra_good ra_good.
Definition cb_ex (rr call v : Z) (s : Tsrpc) : list srpc_op :=
  [OpGetData rr; OpAsyncCall true SUPLA_SDC_CALL_PING_SERVER_RESULT (Some [1; 2]) 2 None].
Definition acts_ex : list srpc_action :=
  [AOp (OpAsyncCall true SUPLA_SDC_CALL_GETVERSION_RESULT (Some [7; 8; 9]) 3 None);
   AIterate al_ex (Some (wire packet_ex)); AIterate al_ex None].

Lemma al_ex_ok : out_allocs_ok al_ex.
Proof. by split_and!. Qed.

Lemma cb_ex_ok rr call v s : Forall op_ok (cb_ex rr call v s).
Proof.
  apply Forall_cons_2; [exact I|]. apply Forall_cons_2; [|constructor].
  split; [lia|]. intros src [= <-]. cbn. lia.
Qed.

Lemma cb_ex_consumes rr call v s :
  ∃ rest, cb_ex rr call v s = OpGetData rr :: rest ∧ ∀ rr', OpGetData rr' ∉ rest.
Proof.
  exists [OpAsyncCall true SUPLA_SDC_CALL_PING_SERVER_RESULT (Some [1; 2]) 2 None].
  split; [reflexivity|]. intros rr' H. apply list_elem_of_singleton in H. discriminate.
Qed.

Lemma packet_ex_input : input_ok (Some (wire packet_ex)).
Proof.
  intros d [= <-]. split; [apply wire_bytes, packet_ex_wf|].
  rewrite wire_length by apply wf_shape, packet_ex_wf. vm_compute. congruence.
Qed.

Lemma srpc_out_lossless_witness :
  ∃ s evs waiting, srpc_run cb_ex acts_ex srpc_init = Some (s, evs)
    ∧ written evs ++ wires waiting = wires (accepted evs).
Proof.
  destruct (srpc_out_lossless cb_ex acts_ex) as (s & evs & w & H1 & _ & _ & H2).
  - apply cb_ex_ok.
  - apply Forall_cons_2; [split; [lia|]; intros src [= <-]; cbn; lia|].
    apply Forall_cons_2; [exact (conj al_ex_ok packet_ex_input)|].
    apply Forall_cons_2; [|constructor]. split; [exact al_ex_ok|]. intros d [=].
  - exists s, evs, w. split; [exact H1|exact H2].
Defined.

(** A stream of packets is delivered: when the bytes of well-formed packets,
    cut into chunks of any size up to the read buffer, are read by successive
    iterations followed by as many iterations as there are packets, every
    iteration succeeds and the callback is given every packet once, in the order
    of the stream, with its version, identifiers and data, whatever it answers. The
    packets are fewer than 128 KiB together, and the callback takes the packet it is
    told about. *)
Theorem srpc_in_delivers cb al ps ins
    (Hcb : ∀ rr call v s, Forall op_ok (cb rr call v s))
    (Hconsume : ∀ rr call v s, ∃ rest, cb rr call v s = OpGetData rr :: rest
                                      ∧ ∀ rr', OpGetData rr' ∉ rest)
    (Hal : allocs_good al) (Hps : Forall sdp_wf ps)
    (Hins : Forall (λ d, d ≠ [] ∧ Z.of_nat (length d) <= SRPC_BUFFER_SIZE) ins)
    (Hstream : mjoin ins = wires ps)
    (Hsize : Z.of_nat (length (wires ps)) < BUFFER_MAX_SIZE) :
  ∃ s evs,
    srpc_run cb (reads al ins ++ replicate (length ps) (AIterate al None)) srpc_init
      = Some (s, evs)
    ∧ payload <$> got evs = payload <$> ps
    ∧ Forall (λ r, r = SUPLA_RESULT_TRUE) (results evs)
    ∧ queue_ok (in_queue s) [] ∧ in_ok (spd_in (srpc_proto s)) [].
Proof. by apply deliver_all. Qed.

Lemma srpc_in_delivers_witness :
  ∃ s evs,
    srpc_run cb_ex (reads al_ex [wire packet_ex] ++ replicate 1 (AIterate al_ex None)) srpc_init
      = Some (s, evs)
    ∧ payload <$> got evs = [payload packet_ex].
Proof.
  destruct (srpc_in_delivers cb_ex al_ex [packet_ex] [wire packet_ex])
    as (s & evs & H1 & H2 & _).
  - apply cb_ex_ok.
  - exact cb_ex_consumes.
  - split; [exact al_ex_ok|split; reflexivity].
  - apply Forall_cons_2; [exact packet_ex_wf|constructor].
  - apply Forall_cons_2; [|constructor].
    split; [vm_compute; discriminate|apply packet_ex_input; reflexivity].
  - reflexivity.
  - rewrite (app_nil_r (wire packet_ex) : wires [packet_ex] = wire packet_ex).
    rewrite wire_length by apply wf_shape, packet_ex_wf. vm_compute. reflexivity.
  - exists s, evs. split; [exact H1|exact H2].
Defined.

(** An asynchronous call, on every branch. A call the version of the peer does
    not have (in particular an unknown one) is refused before anything changes.
    Otherwise a request identifier is used up, it is never 0, and the call
    fails, leaving the queue as it is, if the data do not fit in a packet, ten
    packets wait or memory is lacking; else the packet with the identifier, the
    data and the version of the connection (or the one asked for) ends the
    queue, the event is raised, and the result is the identifier. *)
Theorem srpc_async__call_spec m call_id data size version s l
    (Hq : queue_ok (out_queue s) l)
    (Hid : is_u32 (spd_next_rr_id (srpc_proto s)))
    (Hsize : 0 <= size) (Hdata : ∀ src, data = Some src → size <= Z.of_nat (length src)) :
  ∃ r s' evs, srpc_async__call m call_id data size version s = Some (r, s', evs)
    ∧ if spd_version (srpc_proto s) <? srpc_call_min_version_required call_id
      then r = SUPLA_RESULT_FALSE ∧ s' = s ∧ accepted evs = []
      else
        let id := next_rr_id (spd_next_rr_id (srpc_proto s)) in
        1 <= id < 2 ^ 32 ∧ spd_next_rr_id (srpc_proto s') = id
        ∧ if data_refused data size || (10 <=? length l)%nat || negb m
          then r = SUPLA_RESULT_FALSE ∧ out_queue s' = out_queue s ∧ accepted evs = []
          else
            ∃ p, r = i32 id ∧ queue_ok (out_queue s') (l ++ [p]) ∧ accepted evs = [p]
              ∧ sdp_rr_id p = id ∧ sdp_call_id p = call_id ∧ sdp_data_size p = size
              ∧ sdp_version p = default (spd_version (srpc_proto s)) version
              ∧ take (Z.to_nat size) (sdp_data p) = take (Z.to_nat size) (default [] data).
Proof.
  unfold srpc_async__call, srpc_call_allowed, srpc_get_proto_version, sproto_get_version.
  assert (srpc_call_min_version_required call_id <> 0) as Hmin.
  { unfold srpc_call_min_version_required. by repeat case_match. }
  rewrite (proj2 (Z.eqb_neq _ 0) Hmin). cbn [orb]. rewrite <- Z.ltb_antisym.
  destruct (_ <? _); [by do 3 eexists|].
  unfold sproto_sdp_init. cbn zeta.
  set (id := next_rr_id _).
  assert (1 <= id < 2 ^ 32) as Hid'.
  { unfold id, next_rr_id. pose proof (u32_range (spd_next_rr_id (srpc_proto s) + 1)) as Hu.
    unfold is_u32 in Hu. destruct (Z.eqb_spec (u32 (spd_next_rr_id (srpc_proto s) + 1)) 0) as [->|];
      [vm_compute; by split|lia]. }
  clearbody id.
  set (sdp0 := match version with Some v => _ | None => _ end).
  pose proof (set_data_ok sdp0 data size call_id Hsize Hdata) as Hset.
  assert (sdp_rr_id sdp0 = id ∧ sdp_version sdp0 = default (spd_version (srpc_proto s)) version)
    as [Hrr Hver] by (by destruct version).
  destruct (data_refused data size).
  { rewrite Hset by by destruct version. cbn [mbind option_bind].
    do 3 eexists. split; [reflexivity|]. split; [exact Hid'|by split_and!]. }
  destruct Hset as (sdp & -> & Hsh & Hr & Hv & Hc & Hz & Ht); [by destruct version..|].
  cbn [mbind option_bind].
  change (SUPLA_RESULT_TRUE =? SUPLA_RESULT_TRUE) with true. cbn iota.
  change (out_queue (set_sdp _ _)) with (out_queue s).
  destruct (queue_push_ok m _ _ sdp Hq)
    as (r2 & q & -> & [(-> & Hl & -> & Hq')|(-> & -> & Hfull)]); cbn [mbind option_bind].
  - do 3 eexists. split; [reflexivity|]. split_and!; [lia|lia|done|].
    rewrite (proj2 (Nat.leb_gt _ _) Hl). cbn. exists sdp. split_and!; try done; congruence.
  - do 3 eexists. split; [reflexivity|]. split_and!; [lia|lia|done|].
    destruct Hfull as [Hl| ->]; [rewrite (proj2 (Nat.leb_le _ _) Hl); by cbn|].
    by rewrite orb_true_r.
Qed.

Lemma srpc_async__call_spec_witness :
  ∃ s' evs, srpc_async__call true SUPLA_CS_CALL_GET_NEXT (Some [5; 6]) 2 None srpc_init
            = Some (1, s', evs).
Proof.
  destruct (srpc_async__call_spec true SUPLA_CS_CALL_GET_NEXT (Some [5; 6]) 2 None srpc_init [])
    as (r & s' & evs & E & _ & _ & p & Hr & _).
  - exact queue_ok_init.
  - split; vm_compute; congruence.
  - lia.
  - intros src H. injection H as <-. vm_compute. congruence.
  - rewrite Hr in E. exists s', evs. exact E.
Defined.
