(* ===== verification/SrpcDirect.v ===== *)
(** * SrpcDirect: the calls of the server (SRPC_WITHOUT_OUT_QUEUE)

    The server and the Android client are built without the output queue and
    without the output buffer: a call writes its packet at once
    ([srpc_out_queue_push] of supla-common/srpc.c), and [srpc_iterate] only reads.
    The rest of the connection is that of Srpc.v; its output queue stays empty. *)

From S2P Require Import Prelude Proto CallIds Srpc.

(** The packet, its unused data cut off, and the end tag in a block of their own;
    without memory for it nothing is written. The result is 1 in any case. *)
Definition srpc_out_queue_push (malloc_ok : bool) (sdp : TSuplaDataPacket)
    : option (list srpc_event) :=
  let data_size :=
    if sdp_data_size sdp <? SUPLA_MAX_DATA_SIZE
    then SIZEOF_SDP - (SUPLA_MAX_DATA_SIZE - sdp_data_size sdp) else SIZEOF_SDP in
  if malloc_ok then
    buff ← read_at (sdp_bytes sdp) 0 data_size;
    Some [EvWrite (buff ++ sproto_tag)]
  else Some [].

(** [srpc_async__call] of Srpc.v with this [srpc_out_queue_push]. *)
Definition srpc_async__call_direct (malloc_ok : bool) (call_id : Z) (data : option (list Z))
    (data_size : Z) (version : option Z) (s : Tsrpc)
    : option (Z * Tsrpc * list srpc_event) :=
  if negb (srpc_call_allowed s call_id) then
    Some (SUPLA_RESULT_FALSE, s,
          [EvMinVersionRequired call_id (srpc_call_min_version_required call_id)])
  else
    let before := EvBeforeAsyncCall call_id in
    let '(sdp, proto) := sproto_sdp_init (srpc_proto s) in
    let sdp := match version with Some v => set_sdp_version v sdp | None => sdp end in
    '(r, sdp) ← sproto_set_data sdp data data_size call_id;
    let s := set_sdp sdp (set_proto proto s) in
    if r =? SUPLA_RESULT_TRUE then
      evs ← srpc_out_queue_push malloc_ok sdp;
      Some (i32 (sdp_rr_id sdp), s, [before; EvAccepted sdp] ++ evs ++ [EvRaise])
    else Some (SUPLA_RESULT_FALSE, s, [before]).

Definition direct_do_op (op : srpc_op) (s : Tsrpc) : option (Tsrpc * list srpc_event) :=
  match op with
  | OpAsyncCall m call_id data size version =>
      '(r, s, evs) ← srpc_async__call_direct m call_id data size version s;
      Some (s, evs ++ [EvReturn r])
  | _ => srpc_do_op op s
  end.

Fixpoint direct_do_ops (ops : list srpc_op) (s : Tsrpc)
    : option (Tsrpc * list srpc_event) :=
  match ops with
  | [] => Some (s, [])
  | op :: rest =>
      '(s1, evs1) ← direct_do_op op s;
      '(s2, evs2) ← direct_do_ops rest s1;
      Some (s2, evs1 ++ evs2)
  end.

Definition no_ops (rr_id call_id version : Z) (s : Tsrpc) : list srpc_op := [].

Section iterate.
Context (on_remote_call_received : Z → Z → Z → Tsrpc → list srpc_op).

(** The part "IN" is that of Srpc.v; the callback comes after everything else in
    it, so what it does to the connection follows here. *)
Definition srpc_iterate_direct (al : allocs) (input : option (list Z)) (s : Tsrpc)
    : option (Z * Tsrpc * list srpc_event) :=
  '(go, s, evs) ← srpc_iterate_in no_ops al input s;
  '(s, evs) ← match evs with
              | [EvRemoteCall rr_id call_id version] =>
                  '(s, evs2) ← direct_do_ops (on_remote_call_received rr_id call_id version s) s;
                  Some (s, evs ++ evs2)
              | _ => Some (s, evs)
              end;
  match go : option bool with
  | None => Some (SUPLA_RESULT_FALSE, s, evs)
  | Some raise_event =>
      Some (SUPLA_RESULT_TRUE, s, evs ++ (if raise_event then [EvRaise] else []))
  end.

Definition direct_act (a : srpc_action) (s : Tsrpc) : option (Tsrpc * list srpc_event) :=
  match a with
  | AIterate al input =>
      '(r, s, evs) ← srpc_iterate_direct al input s; Some (s, evs ++ [EvIterated r])
  | AOp op => direct_do_op op s
  end.

Fixpoint direct_run (l : list srpc_action) (s : Tsrpc) : option (Tsrpc * list srpc_event) :=
  match l with
  | [] => Some (s, [])
  | a :: l' =>
      '(s1, evs1) ← direct_act a s;
      '(s2, evs2) ← direct_run l' s1;
      Some (s2, evs1 ++ evs2)
  end.
End iterate.

(** ** What the calls write *)

(** The arguments of a call are there, and its packet travels: bytes, an identifier
    of 32 bits, and a version that the peer accepts; there is memory for it. *)
Definition call_ok (op : srpc_op) : Prop :=
  match op with
  | OpAsyncCall m call_id data _ version =>
      m = true ∧ is_u32 call_id ∧ (∀ src, data = Some src → bytes src)
      ∧ (∀ v, version = Some v → SUPLA_PROTO_VERSION_MIN <= v <= SUPLA_PROTO_VERSION)
  | _ => True
  end.

Definition version_ok (s : Tsrpc) : Prop :=
  SUPLA_PROTO_VERSION_MIN <= spd_version (srpc_proto s) <= SUPLA_PROTO_VERSION.

Lemma set_version_ok v spd :
  SUPLA_PROTO_VERSION_MIN <= spd_version (sproto_set_version spd v) <= SUPLA_PROTO_VERSION.
Proof.
  unfold sproto_set_version, SUPLA_PROTO_VERSION_MIN, SUPLA_PROTO_VERSION. cbn [spd_version].
  case_match eqn:E; [apply andb_true_iff in E as [E1 E2]; lia|lia].
Qed.

(** The bytes of [srpc_out_queue_push] are the image of the packet. *)
Lemma out_queue_push_wire m p :
  sdp_shape p → srpc_out_queue_push m p = Some (if m then [EvWrite (wire p)] else []).
Proof.
  intros Hp. pose proof (sdp_bytes_length p Hp) as Hl. destruct Hp as [Ht Hs Hd].
  unfold srpc_out_queue_push. cbn zeta.
  assert ((if sdp_data_size p <? SUPLA_MAX_DATA_SIZE
           then SIZEOF_SDP - (SUPLA_MAX_DATA_SIZE - sdp_data_size p) else SIZEOF_SDP)
          = 18 + sdp_data_size p) as ->.
  { unfold SIZEOF_SDP, SDP_HEADER_SIZE, SUPLA_TAG_SIZE, SUPLA_MAX_DATA_SIZE in *.
    case_match eqn:E; [lia|]. apply Z.ltb_ge in E. lia. }
  destruct m; [|done]. unfold SIZEOF_SDP, SDP_HEADER_SIZE, SUPLA_TAG_SIZE, SUPLA_MAX_DATA_SIZE in *.
  unfold read_at. rewrite !(proj2 (Z.leb_le _ _)) by lia. done.
Qed.

Lemma set_data_bytes sdp data size call_id r sdp' :
  bytes (sdp_data sdp) → (∀ src, data = Some src → bytes src) →
  sproto_set_data sdp data size call_id = Some (r, sdp') → bytes (sdp_data sdp').
Proof.
  intros Hb Hd H. unfold sproto_set_data in H. destruct (_ || _); [by simplify_eq|].
  apply bind_Some in H as (d & Hc & H). simplify_eq. cbn [sdp_data].
  destruct (0 <? size); [|by simplify_eq].
  apply bind_Some in Hc as (src & -> & Hc). specialize (Hd src eq_refl).
  unfold memcpy_to in Hc. case_match; [|done]. simplify_eq.
  apply Forall_app_2; [by apply Forall_take|].
  apply Forall_app_2; [by apply Forall_take|by apply Forall_drop].
Qed.

Lemma next_rr_id_u32 id : is_u32 (next_rr_id id).
Proof. unfold next_rr_id. cbn zeta. case_match; apply u32_range. Qed.

(** A call writes the packets it accepts. *)
Lemma async_call_direct_ok m call_id data size version s c il :
  srpc_ok s c il [] → version_ok s →
  op_ok (OpAsyncCall m call_id data size version) →
  call_ok (OpAsyncCall m call_id data size version) →
  ∃ r s' evs, srpc_async__call_direct m call_id data size version s = Some (r, s', evs)
    ∧ srpc_ok s' c il [] ∧ version_ok s' ∧ got evs = []
    ∧ written evs = wires (accepted evs) ∧ Forall sdp_wf (accepted evs).
Proof.
  intros [H1 H2 H3 H4 H5 H6] Hv [Hsz Hd] (-> & Hid & Hb & Hver). unfold srpc_async__call_direct.
  destruct (negb _); [do 3 eexists; split; [reflexivity|]; by split_and!|].
  unfold sproto_sdp_init. cbn zeta.
  set (sdp0 := match version with Some v => _ | None => _ end).
  assert (sdp_tag sdp0 = sproto_tag ∧ Z.of_nat (length (sdp_data sdp0)) = SUPLA_MAX_DATA_SIZE
          ∧ bytes (sdp_data sdp0) ∧ is_u32 (sdp_rr_id sdp0)
          ∧ SUPLA_PROTO_VERSION_MIN <= sdp_version sdp0 <= SUPLA_PROTO_VERSION)
    as (Ht0 & Hl0 & Hb0 & Hr0 & Hv0).
  { unfold sdp0. destruct version as [v|]; cbn [set_sdp_version sdp_tag sdp_data sdp_rr_id sdp_version];
      (split; [done|]; split; [by rewrite length_replicate|];
       split; [apply Forall_replicate; split; by vm_compute|]; split; [apply next_rr_id_u32|]);
      [by apply Hver|exact Hv]. }
  clearbody sdp0. pose proof (set_data_ok sdp0 data size call_id Hsz Hd Ht0 Hl0) as Hset.
  destruct (data_refused data size).
  { rewrite Hset. cbn [mbind option_bind]. do 3 eexists. split; [reflexivity|]. by split_and!. }
  destruct Hset as (sdp & Hset & Hsh & Hrr & Hvr & Hc & Hs & _). rewrite Hset.
  pose proof (set_data_bytes _ _ _ _ _ _ Hb0 Hb Hset) as Hbs.
  cbn [mbind option_bind]. rewrite Z.eqb_refl, (out_queue_push_wire true sdp Hsh).
  cbn [mbind option_bind]. do 3 eexists. split; [reflexivity|].
  split; [by split|]. split; [exact Hv|]. split; [done|]. split; [done|].
  apply Forall_cons_2; [|constructor]. destruct Hsh as [? ? ?].
  split; [done|by rewrite Hvr|by rewrite Hrr|by rewrite Hc|done|done|done].
Qed.

Lemma do_op_direct_ok op s c il :
  srpc_ok s c il [] → version_ok s → op_ok op → call_ok op →
  ∃ s' evs, direct_do_op op s = Some (s', evs)
    ∧ srpc_ok s' c (op_takes op il).2 [] ∧ version_ok s'
    ∧ written evs = wires (accepted evs) ∧ Forall sdp_wf (accepted evs).
Proof.
  intros Hs Hv Hop Hc. destruct op as [rr|m call_id data size version|v].
  - destruct (do_op_ok (OpGetData rr) s c il [] Hs Hop) as (s' & evs & E & Hs' & Hw & Hg).
    exists s', evs. split; [exact E|].
    assert (accepted evs = [] ∧ version_ok s') as [Ha Hv'].
    { cbn [srpc_do_op] in E. unfold srpc_getdata_pop in E. inv_option; done. }
    rewrite Ha in *. by split_and!.
  - destruct (async_call_direct_ok m call_id data size version s c il Hs Hv Hop Hc)
      as (r & s' & evs & E & Hs' & Hv' & _ & Hw & Ha). cbn [direct_do_op]. rewrite E.
    cbn [mbind option_bind]. do 2 eexists. split; [reflexivity|].
    rewrite accepted_app, written_app, Hw. cbn. rewrite !app_nil_r. by split_and!.
  - destruct (do_op_ok (OpSetProtoVersion v) s c il [] Hs Hop) as (s' & evs & E & Hs' & Hw & Hg).
    exists s', evs. split; [exact E|]. cbn [srpc_do_op] in E. simplify_eq.
    split_and!; try done. apply set_version_ok.
Qed.

Lemma do_ops_direct_ok ops : ∀ s c il,
  srpc_ok s c il [] → version_ok s → Forall op_ok ops → Forall call_ok ops →
  ∃ s' evs il', direct_do_ops ops s = Some (s', evs)
    ∧ srpc_ok s' c il' [] ∧ version_ok s'
    ∧ written evs = wires (accepted evs) ∧ Forall sdp_wf (accepted evs).
Proof.
  induction ops as [|op ops IH]; intros s c il Hs Hv Ho Hc; cbn [direct_do_ops].
  { do 3 eexists. split; [reflexivity|]. split; [exact Hs|]. by split_and!. }
  apply Forall_cons in Ho as [Ho1 Ho]. apply Forall_cons in Hc as [Hc1 Hc].
  destruct (do_op_direct_ok op s c il Hs Hv Ho1 Hc1) as (s1 & e1 & -> & Hs1 & Hv1 & Hw1 & Ha1).
  cbn [mbind option_bind].
  destruct (IH s1 c _ Hs1 Hv1 Ho Hc) as (s2 & e2 & il2 & -> & Hs2 & Hv2 & Hw2 & Ha2).
  cbn [mbind option_bind]. do 3 eexists. split; [reflexivity|]. split; [exact Hs2|].
  rewrite accepted_app, written_app, wires_app, Hw1, Hw2. split_and!; try done. by apply Forall_app.
Qed.

Lemma in_append_version ra spd d n r spd' :
  sproto_in_buffer_append ra spd d n = Some (r, spd') → spd_version spd' = spd_version spd.
Proof. unfold sproto_in_buffer_append. intros H. inv_option; done. Qed.

Lemma pop_version ra spd sdp r sdp' spd' :
  sproto_pop_in_sdp ra spd sdp = Some (r, sdp', spd') → spd_version spd' = spd_version spd.
Proof.
  unfold sproto_pop_in_sdp, pop_tagged, shrink_and. cbn zeta. intros H. inv_option; done.
Qed.

(** The part "IN" without its callback. *)
Lemma iterate_in_no_ops al input s go s' evs :
  srpc_iterate_in no_ops al input s = Some (go, s', evs) →
  accepted evs = [] ∧ written evs = [] ∧ spd_version (srpc_proto s') = spd_version (srpc_proto s).
Proof.
  unfold srpc_iterate_in. destruct (bool_decide _); [intros; by simplify_eq|]. intros H.
  apply bind_Some in H as ([r proto] & Hin & H).
  assert (spd_version proto = spd_version (srpc_proto s)) as Hv.
  { destruct input; [by eapply in_append_version|by simplify_eq]. }
  cbn zeta in H. destruct (negb _); [by simplify_eq|].
  apply bind_Some in H as ([[r2 sdp] proto2] & Hpop & H).
  apply pop_version in Hpop. cbn [srpc_proto set_proto] in Hpop. rewrite Hv in Hpop.
  destruct (r2 =? SUPLA_RESULT_TRUE).
  - apply bind_Some in H as ([r3 q] & _ & H). destruct (r3 =? SUPLA_RESULT_TRUE); [|by simplify_eq].
    cbn [no_ops srpc_do_ops mbind option_bind] in H. by simplify_eq.
  - destruct (negb _); [|by simplify_eq]. injection H as <- <- <-.
    by destruct (r2 =? SUPLA_RESULT_VERSION_ERROR).
Qed.

Section runs.
Context (cb : Z → Z → Z → Tsrpc → list srpc_op).
Hypothesis Hcb : ∀ rr call v s, Forall op_ok (cb rr call v s) ∧ Forall call_ok (cb rr call v s).

Lemma iterate_direct_ok al input s c il :
  srpc_ok s c il [] → version_ok s → ra_enomem (al_in al) = false → input_ok input →
  ∃ r s' evs c' il', srpc_iterate_direct cb al input s = Some (r, s', evs)
    ∧ srpc_ok s' c' il' [] ∧ version_ok s'
    ∧ written evs = wires (accepted evs) ∧ Forall sdp_wf (accepted evs).
Proof using Hcb.
  intros Hs Hv He Hin. unfold srpc_iterate_direct.
  assert (∀ rr call v s, Forall op_ok (no_ops rr call v s)) as Hno by (intros; constructor).
  destruct (iterate_in_ok no_ops Hno al input s c il [] Hs He Hin)
    as (go & s1 & e1 & c1 & il1 & E & Hs1 & _ & _).
  destruct (iterate_in_no_ops _ _ _ _ _ _ E) as (Ha & Hw & Hv1). rewrite E, Ha in *.
  assert (version_ok s1) as Hvs by (unfold version_ok; by rewrite Hv1). clear Hv1 E.
  cbn [mbind option_bind app] in *.
  assert (∃ s2 e2 il2, match e1 with
      | [EvRemoteCall rr_id call_id version] =>
          '(s, evs2) ← direct_do_ops (cb rr_id call_id version s1) s1; Some (s, e1 ++ evs2)
      | _ => Some (s1, e1) end = Some (s2, e2)
      ∧ srpc_ok s2 c1 il2 [] ∧ version_ok s2
      ∧ written e2 = wires (accepted e2) ∧ Forall sdp_wf (accepted e2))
    as (s2 & e2 & il2 & -> & Hs2 & Hv2 & Hw2 & Ha2).
  { assert (∃ s2 e2 il2, Some (s1, e1) = Some (s2, e2)
      ∧ srpc_ok s2 c1 il2 [] ∧ version_ok s2
      ∧ written e2 = wires (accepted e2) ∧ Forall sdp_wf (accepted e2)) as Hsame.
    { exists s1, e1, il1. rewrite Hw, Ha. by split_and!. }
    destruct e1 as [|[|rr call v| | | | | | | |] [|]]; try exact Hsame.
    destruct (do_ops_direct_ok (cb rr call v s1) s1 c1 il1 Hs1 Hvs)
      as (s2 & e2 & il2 & -> & Hs2 & Hv2 & Hw2 & Ha2); [apply Hcb|apply Hcb|].
    cbn [mbind option_bind]. exists s2, ([EvRemoteCall rr call v] ++ e2), il2.
    rewrite written_app, accepted_app, Hw2. by split_and!. }
  cbn [mbind option_bind]. destruct go as [raise|].
  - do 5 eexists. split; [reflexivity|]. split; [exact Hs2|]. split; [exact Hv2|].
    rewrite written_app, accepted_app, Hw2.
    destruct raise; cbn; rewrite !app_nil_r; by split.
  - do 5 eexists. split; [reflexivity|]. by split_and!.
Qed.

(** An iteration needs no memory for output. *)
Definition action_direct_ok (a : srpc_action) : Prop :=
  match a with
  | AIterate al input => ra_enomem (al_in al) = false ∧ input_ok input
  | AOp op => op_ok op ∧ call_ok op
  end.

Lemma run_direct_ok acts : ∀ s c il,
  srpc_ok s c il [] → version_ok s → Forall action_direct_ok acts →
  ∃ s' evs c' il', direct_run cb acts s = Some (s', evs)
    ∧ srpc_ok s' c' il' [] ∧ version_ok s'
    ∧ written evs = wires (accepted evs) ∧ Forall sdp_wf (accepted evs).
Proof using Hcb.
  induction acts as [|a acts IH]; intros s c il Hs Hv Hacts; cbn [direct_run].
  { do 4 eexists. split; [reflexivity|]. split; [exact Hs|]. by split_and!. }
  apply Forall_cons in Hacts as [Ha Hacts].
  assert (∃ s1 e1 c1 il1, direct_act cb a s = Some (s1, e1) ∧ srpc_ok s1 c1 il1 [] ∧ version_ok s1
    ∧ written e1 = wires (accepted e1) ∧ Forall sdp_wf (accepted e1))
    as (s1 & e1 & c1 & il1 & -> & Hs1 & Hv1 & Hw1 & Ha1).
  { destruct a as [al input|op]; cbn [direct_act].
    - destruct Ha as [He Hin].
      destruct (iterate_direct_ok al input s c il Hs Hv He Hin)
        as (r & s1 & e1 & c1 & il1 & -> & Hs1 & Hv1 & Hw1 & Ha1). cbn [mbind option_bind].
      do 4 eexists. split; [reflexivity|]. split; [exact Hs1|]. split; [exact Hv1|].
      rewrite written_app, accepted_app, !app_nil_r. by split.
    - destruct Ha as [Hop Hc].
      destruct (do_op_direct_ok op s c il Hs Hv Hop Hc) as (s1 & e1 & -> & Hs1 & Hv1 & Hw1 & Ha1).
      do 4 eexists. by split_and!. }
  cbn [mbind option_bind].
  destruct (IH s1 c1 il1 Hs1 Hv1 Hacts) as (s2 & e2 & c2 & il2 & -> & Hs2 & Hv2 & Hw2 & Ha2).
  cbn [mbind option_bind]. do 4 eexists. split; [reflexivity|]. split; [exact Hs2|].
  rewrite accepted_app, written_app, wires_app, Hw1, Hw2. split_and!; try done. by apply Forall_app.
Qed.
End runs.

(** ** Properties *)

(** The calls of the server reach their peer, all of them, once and in order. For
    any interleaving of iterations (with any bytes read and any callback) and of
    calls of other threads, every call that is accepted has been written whole
    when it returns: the bytes written are the images of the accepted packets, in
    the order of the calls. A peer that reads these bytes in chunks of any size
    is given each packet once, in this order, with its version, identifiers and
    data. There must be memory for the packets, and they must take less than the
    128 KiB of the input buffer together. *)
Theorem server_calls_delivered cb acts peer al
    (Hcb : ∀ rr call v s, Forall op_ok (cb rr call v s) ∧ Forall call_ok (cb rr call v s))
    (Hacts : Forall action_direct_ok acts)
    (Hpeer : ∀ rr call v s, Forall op_ok (peer rr call v s))
    (Hconsume : ∀ rr call v s, ∃ rest, peer rr call v s = OpGetData rr :: rest
                                      ∧ ∀ rr', OpGetData rr' ∉ rest)
    (Hal : allocs_good al) :
  ∃ s evs, direct_run cb acts srpc_init = Some (s, evs)
  ∧ written evs = wires (accepted evs)
  ∧ ∀ ins, mjoin ins = written evs → Z.of_nat (length (written evs)) < BUFFER_MAX_SIZE →
    Forall (λ d, d ≠ [] ∧ Z.of_nat (length d) <= SRPC_BUFFER_SIZE) ins →
    ∃ s' evs',
      srpc_run peer (reads al ins ++ replicate (length (accepted evs)) (AIterate al None)) srpc_init
        = Some (s', evs')
      ∧ payload <$> got evs' = payload <$> accepted evs
      ∧ Forall (λ r, r = SUPLA_RESULT_TRUE) (results evs').
Proof.
  assert (version_ok srpc_init) as Hv by (split; by vm_compute).
  destruct (run_direct_ok cb Hcb acts srpc_init [] [] srpc_ok_init Hv Hacts)
    as (s & evs & c & il & Hrun & _ & _ & Hw & Hwf).
  exists s, evs. split; [done|]. split; [done|]. intros ins Hins Hsize Hch. rewrite Hw in *.
  destruct (deliver_all peer Hpeer Hconsume al (accepted evs) ins Hal Hwf Hch Hins Hsize)
    as (s' & evs' & Hr & Hg & Hres & _). by exists s', evs'.
Qed.

(** Two calls of the server: the answer to a request, and a call of another thread. *)
Definition direct_acts_ex : list srpc_action :=
  [AIterate al_ex (Some (wire packet_ex));
   AOp (OpAsyncCall true SUPLA_SDC_CALL_GETVERSION_RESULT (Some [7; 8; 9]) 3 None)].

Lemma server_calls_delivered_witness :
  ∃ s evs s' evs', direct_run cb_ex direct_acts_ex srpc_init = Some (s, evs)
  ∧ length (accepted evs) = 2%nat
  ∧ srpc_run cb_ex (reads al_ex [written evs] ++ replicate 2 (AIterate al_ex None)) srpc_init
    = Some (s', evs')
  ∧ payload <$> got evs' = payload <$> accepted evs.
Proof.
  assert (match direct_run cb_ex direct_acts_ex srpc_init with
          | Some (_, evs) => length (accepted evs) = 2%nat ∧ (length (written evs) < 200)%nat
                             ∧ (0 < length (written evs))%nat
          | None => False end) as Hlen by (vm_compute; lia).
  destruct (server_calls_delivered cb_ex direct_acts_ex cb_ex al_ex) as (s & evs & E & Hw & H).
  - intros. split; [apply cb_ex_ok|]. apply Forall_cons_2; [exact I|].
    apply Forall_cons_2; [|constructor]. split; [reflexivity|]. split; [unfold is_u32, SUPLA_SDC_CALL_PING_SERVER_RESULT; lia|].
    split; [intros src [= <-]; repeat constructor; lia|intros ? [=]].
  - apply Forall_cons_2; [split; [reflexivity|exact packet_ex_input]|].
    apply Forall_cons_2; [|constructor].
    split; [split; [lia|intros src [= <-]; cbn; lia]|]. split; [reflexivity|].
    split; [unfold is_u32, SUPLA_SDC_CALL_GETVERSION_RESULT; lia|].
    split; [intros src [= <-]; repeat constructor; lia|intros ? [=]].
  - exact cb_ex_ok.
  - exact cb_ex_consumes.
  - split; [exact al_ex_ok|split; reflexivity].
  - rewrite E in Hlen. destruct Hlen as (Hl & Hlt & Hgt).
    destruct (H [written evs]) as (s' & evs' & Hr & Hg & _).
    + apply app_nil_r.
    + unfold BUFFER_MAX_SIZE. lia.
    + apply Forall_cons_2; [|constructor]. split; [by intros He; rewrite He in Hgt; cbn in Hgt; lia|].
      unfold SRPC_BUFFER_SIZE. lia.
    + rewrite Hl in Hr. exists s, evs, s', evs'. split; [exact E|]. split; [exact Hl|].
      split; [exact Hr|exact Hg].
Defined.
