(* ===== verification/CLayout.v ===== *)
(** * CLayout: the layout of packed C structures

    The types of proto.h are packed (pragma pack(push, 1)), so the size of a
    structure is the sum of the sizes of its members and every member starts where
    the one before it ends. A type is a value of [ctype]; [sizeof], [offsetof] and
    the value of an integer member are computed from it. Integers are little
    endian and [char] is signed, as on the hosts of the server. *)

From stdpp Require Import strings.
From S2P Require Import Prelude.

Inductive ctype :=
  | CInt (bytes : Z) (signed : bool)
  | CArr (n : Z) (t : ctype)
  | CStruct (members : list (string * ctype))
  | CUnion (members : list (string * ctype)).

Definition schar : ctype := CInt 1 true.
Definition uchar : ctype := CInt 1 false.
Definition int16 : ctype := CInt 2 true.
Definition uint16 : ctype := CInt 2 false.
Definition int32 : ctype := CInt 4 true.
Definition uint32 : ctype := CInt 4 false.
Definition int64 : ctype := CInt 8 true.
Definition uint64 : ctype := CInt 8 false.

Fixpoint sizeof (t : ctype) : Z :=
  match t with
  | CInt n _ => n
  | CArr n t => n * sizeof t
  | CStruct ms => (fix go ms := match ms with [] => 0 | (_, t) :: ms => sizeof t + go ms end) ms
  | CUnion ms =>
      (fix go ms := match ms with [] => 0 | (_, t) :: ms => Z.max (sizeof t) (go ms) end) ms
  end.

(** The offset and the type of a member; the members of an anonymous structure or
    union belong to the one around it. *)
Fixpoint member (f : string) (t : ctype) : option (Z * ctype) :=
  match t with
  | CStruct ms =>
      (fix go ms off :=
         match ms with
         | [] => None
         | (name, t) :: ms =>
             if bool_decide (name = f) then Some (off, t)
             else match (if bool_decide (name = ""%string) then member f t else None) with
                  | Some (o, t') => Some (off + o, t')
                  | None => go ms (off + sizeof t)
                  end
         end) ms 0
  | CUnion ms =>
      (fix go ms :=
         match ms with
         | [] => None
         | (name, t) :: ms =>
             if bool_decide (name = f) then Some (0, t)
             else match (if bool_decide (name = ""%string) then member f t else None) with
                  | Some r => Some r
                  | None => go ms
                  end
         end) ms
  | _ => None
  end.

(** [path]: "Token.TokenSize" is ["Token"; "TokenSize"]. *)
Fixpoint place (path : list string) (t : ctype) : option (Z * ctype) :=
  match path with
  | [] => Some (0, t)
  | f :: path =>
      '(o, t) ← member f t;
      '(o', t') ← place path t;
      Some (o + o', t')
  end.

(** ** Integers in memory *)

Fixpoint of_le (l : list Z) : Z :=
  match l with [] => 0 | b :: l => b + 256 * of_le l end.

Fixpoint to_le (n : nat) (z : Z) : list Z :=
  match n with 0%nat => [] | S n => z mod 256 :: to_le n (z / 256) end.

Definition to_signed (bytes z : Z) : Z :=
  if z <? 2 ^ (8 * bytes - 1) then z else z - 2 ^ (8 * bytes).

(** The integer at [off]; [None] out of the memory. *)
Definition int_at (off : Z) (t : ctype) (mem : list Z) : option Z :=
  match t with
  | CInt n signed =>
      l ← read_at mem off n;
      let z := of_le l in Some (if signed then to_signed n z else z)
  | _ => None
  end.

(** The value of an integer member of the structure that starts at [off]. *)
Definition value_of (path : list string) (t : ctype) (off : Z) (mem : list Z) : option Z :=
  '(o, m) ← place path t; int_at (off + o) m mem.

(** "s->member = z" for an integer member of the structure at [off]. *)
Definition assign (path : list string) (t : ctype) (off z : Z) (mem : list Z)
    : option (list Z) :=
  '(o, m) ← place path t;
  memcpy_to mem (off + o) (to_le (Z.to_nat (sizeof m)) z) (sizeof m).

(** The end of a member. *)
Definition member_end (path : list string) (t : ctype) : option Z :=
  '(o, m) ← place path t; Some (o + sizeof m).

(** ** Facts *)

Lemma to_le_length n : ∀ z, length (to_le n z) = n.
Proof. induction n as [|n IH]; intros z; cbn; [done|]. by rewrite IH. Qed.

Lemma of_to_le n : ∀ z, 0 <= z < 256 ^ Z.of_nat n → of_le (to_le n z) = z.
Proof.
  induction n as [|n IH]; intros z Hz; cbn [to_le of_le]; [cbn in Hz; lia|].
  rewrite Nat2Z.inj_succ, Z.pow_succ_r in Hz by lia.
  rewrite IH.
  - pose proof (Z.div_mod z 256). lia.
  - split; [apply Z.div_pos; lia|]. apply Z.div_lt_upper_bound; lia.
Qed.

Lemma to_of_le l : Forall is_u8 l → to_le (length l) (of_le l) = l.
Proof.
  induction l as [|b l IH]; intros Hl; [done|].
  apply Forall_cons in Hl as [Hb Hl]. unfold is_u8 in Hb.
  cbn [length to_le of_le]. f_equal.
  - rewrite (Z.mul_comm 256), Z.mod_add by lia. apply Z.mod_small. lia.
  - rewrite (Z.mul_comm 256), Z.div_add by lia. rewrite Z.div_small by lia. by apply IH.
Qed.

Lemma of_le_range l : Forall is_u8 l → 0 <= of_le l < 256 ^ Z.of_nat (length l).
Proof.
  induction l as [|b l IH]; intros Hl; [cbn; lia|].
  apply Forall_cons in Hl as [Hb Hl]. specialize (IH Hl). unfold is_u8 in Hb.
  cbn [length of_le]. rewrite Nat2Z.inj_succ, Z.pow_succ_r by lia. lia.
Qed.

(** Reading below [n] only depends on the first [n] cells. *)
Lemma read_at_agree {A} off k n (m1 m2 : list A) l :
  off + k <= n → take (Z.to_nat n) m1 = take (Z.to_nat n) m2 →
  n <= Z.of_nat (length m2) → read_at m1 off k = Some l → read_at m2 off k = Some l.
Proof.
  unfold read_at. intros Hk Ht Hn H. case_match eqn:E1; [|done].
  replace ((0 <=? off) && _ && _)%bool with true by lia. rewrite <- H.
  apply (f_equal (λ l, take (Z.to_nat k) (drop (Z.to_nat off) l))) in Ht.
  rewrite !skipn_firstn_comm, !take_take in Ht.
  replace (Z.to_nat k `min` (Z.to_nat n - Z.to_nat off))%nat with (Z.to_nat k) in Ht by lia.
  by rewrite Ht.
Qed.

Lemma read_at_Some {A} off k (m : list A) :
  0 <= off → 0 <= k → off + k <= Z.of_nat (length m) →
  read_at m off k = Some (take (Z.to_nat k) (drop (Z.to_nat off) m)).
Proof. intros. unfold read_at. by replace ((0 <=? off) && _ && _)%bool with true by lia. Qed.

Lemma int_at_agree off t n m1 m2 z :
  off + sizeof t <= n → take (Z.to_nat n) m1 = take (Z.to_nat n) m2 →
  n <= Z.of_nat (length m2) → int_at off t m1 = Some z → int_at off t m2 = Some z.
Proof.
  intros Hk Ht Hn. destruct t as [k s| | |]; cbn [int_at sizeof] in *; try done.
  intros H. apply bind_Some in H as (l & Hl & H).
  by rewrite (read_at_agree _ _ _ _ _ _ Hk Ht Hn Hl).
Qed.

Lemma value_of_agree path t off n m1 m2 z e :
  member_end path t = Some e → off + e <= n → take (Z.to_nat n) m1 = take (Z.to_nat n) m2 →
  n <= Z.of_nat (length m2) → value_of path t off m1 = Some z → value_of path t off m2 = Some z.
Proof.
  unfold member_end, value_of. intros He Hn Ht Hl H.
  apply bind_Some in H as ([o m] & Hp & H). rewrite Hp in He |- *. cbn in He |- *. simplify_eq.
  eapply int_at_agree; [|exact Ht|done|exact H]. lia.
Qed.
