(* ===== verification/CMembers.v ===== *)
(** * CMembers: structures as families of members

    Reading, writing and copying the members of a structure in memory. For a flat
    structure (no anonymous members, no name twice) a write of one member leaves the
    others, and the memory is determined by its members: what happens to a
    structure can be said member by member. *)

From stdpp Require Import strings.
From S2P Require Import Prelude CLayout.

(** "s->f", as the bytes of the member. *)
Definition read_member (f : string) (t : ctype) (mem : list Z) : option (list Z) :=
  '(o, m) ← member f t; read_at mem o (sizeof m).

Definition write_member (f : string) (t : ctype) (bytes mem : list Z) : option (list Z) :=
  '(o, m) ← member f t; memcpy_to mem o bytes (sizeof m).

(** "dest->f = source->f" for members of one type, or a copy of the whole array. *)
Definition copy_member (f : string) (s t : ctype) (source dest : list Z) : option (list Z) :=
  bytes ← read_member f s source; write_member f t bytes dest.

Fixpoint copy_members (fs : list string) (s t : ctype) (source dest : list Z)
    : option (list Z) :=
  match fs with
  | [] => Some dest
  | f :: fs => dest ← copy_member f s t source dest; copy_members fs s t source dest
  end.

Definition members_of (t : ctype) : list (string * ctype) :=
  match t with CStruct ms => ms | _ => [] end.

Definition names_of (t : ctype) : list string := (members_of t).*1.

Definition flat (t : ctype) : bool :=
  match t with
  | CStruct ms =>
      forallb (λ p, negb (bool_decide (p.1 = ""%string)) && (0 <=? sizeof p.2)) ms
      && bool_decide (NoDup ms.*1)
  | _ => false
  end.

(** ** The members of a flat structure *)

Lemma member_shift f ms off :
  (fix go ms off :=
     match ms with
     | [] => None
     | (name, t) :: ms =>
         if bool_decide (name = f) then Some (off, t)
         else match (if bool_decide (name = ""%string) then member f t else None) with
              | Some (o, t') => Some (off + o, t')
              | None => go ms (off + sizeof t)
              end
     end) ms off
  = ('(o, m) ← member f (CStruct ms); Some (off + o, m)).
Proof.
  cbn [member]. rewrite <- (Z.add_0_r off) at 1. generalize 0 as z.
  induction ms as [|[n t] ms IH]; intros z; [done|].
  case_bool_decide; [done|]. case_match; [by destruct p; cbn; rewrite Z.add_assoc|].
  rewrite <- IH. f_equal. lia.
Qed.

Lemma member_cons f n t ms : n ≠ ""%string →
  member f (CStruct ((n, t) :: ms)) =
  if bool_decide (n = f) then Some (0, t)
  else '(o, m) ← member f (CStruct ms); Some (sizeof t + o, m).
Proof.
  intros Hn. cbn [member]. case_bool_decide; [done|].
  rewrite bool_decide_eq_false_2 by done. apply (member_shift f ms).
Qed.

Lemma sizeof_cons n t ms : sizeof (CStruct ((n, t) :: ms)) = sizeof t + sizeof (CStruct ms).
Proof. done. Qed.

Lemma flat_cons n t ms :
  flat (CStruct ((n, t) :: ms)) = true →
  n ≠ ""%string ∧ 0 <= sizeof t ∧ n ∉ ms.*1 ∧ flat (CStruct ms) = true.
Proof.
  unfold flat. cbn [forallb fst snd fmap list_fmap]. intros H.
  rewrite !andb_true_iff, negb_true_iff, bool_decide_eq_false, Z.leb_le, bool_decide_eq_true in H.
  destruct H as [[[Hn Ht] Hf] Hd]. apply NoDup_cons in Hd as [Hi Hd].
  split; [done|]. split; [done|]. split; [done|]. rewrite Hf.
  by rewrite bool_decide_eq_true_2.
Qed.

Lemma sizeof_flat ms : flat (CStruct ms) = true → 0 <= sizeof (CStruct ms).
Proof.
  induction ms as [|[n t] ms IH]; intros Hf; [done|].
  apply flat_cons in Hf as (_ & Ht & _ & Hf). rewrite sizeof_cons. specialize (IH Hf). lia.
Qed.

Lemma member_name f ms : flat (CStruct ms) = true →
  is_Some (member f (CStruct ms)) ↔ f ∈ ms.*1.
Proof.
  induction ms as [|[n t] ms IH]; intros Hf.
  { cbn. rewrite elem_of_nil. split; [by intros []|done]. }
  apply flat_cons in Hf as (Hn & _ & _ & Hf). rewrite (member_cons f n t ms Hn).
  cbn [fmap list_fmap fst]. rewrite elem_of_cons, <- (IH Hf). case_bool_decide as E.
  - subst. split; [by left|done].
  - destruct (member f (CStruct ms)) as [[o m]|]; cbn; split; try by (intros []; congruence).
    + intros _. right. done.
    + done.
Qed.

Lemma member_bounds f ms o m :
  flat (CStruct ms) = true → member f (CStruct ms) = Some (o, m) →
  0 <= o ∧ 0 <= sizeof m ∧ o + sizeof m <= sizeof (CStruct ms).
Proof.
  revert o. induction ms as [|[n t] ms IH]; intros o Hf H; [done|].
  apply flat_cons in Hf as (Hn & Ht & _ & Hf). rewrite (member_cons f n t ms Hn) in H.
  pose proof (sizeof_flat ms Hf). rewrite sizeof_cons. case_bool_decide; simplify_eq; [lia|].
  apply bind_Some in H as ([o' m'] & Hm & [= <- <-]). specialize (IH o' Hf Hm). lia.
Qed.

Lemma member_disjoint f g ms o m o' m' :
  flat (CStruct ms) = true → f ≠ g →
  member f (CStruct ms) = Some (o, m) → member g (CStruct ms) = Some (o', m') →
  o + sizeof m <= o' ∨ o' + sizeof m' <= o.
Proof.
  revert o o'. induction ms as [|[n t] ms IH]; intros o o' Hf Hfg H H'; [done|].
  pose proof Hf as Hfl. apply flat_cons in Hf as (Hn & Ht & _ & Hf).
  rewrite (member_cons f n t ms Hn) in H. rewrite (member_cons g n t ms Hn) in H'.
  repeat case_bool_decide; simplify_eq.
  1,2: match goal with
       | H : _ ≫= _ = Some _ |- _ =>
           apply bind_Some in H as ([o2 m2] & Hm & [= <- <-]);
           pose proof (member_bounds _ _ _ _ Hf Hm); lia
       end.
  - apply bind_Some in H as ([o2 m2] & Hm & [= <- <-]).
    apply bind_Some in H' as ([o3 m3] & Hm' & [= <- <-]).
    specialize (IH _ _ Hf Hfg Hm Hm'). lia.
Qed.

(** ** Reading after writing *)

Lemma memcpy_to_Some {A} (b : list A) off src n :
  0 <= off → 0 <= n → off + n <= Z.of_nat (length b) → n <= Z.of_nat (length src) →
  memcpy_to b off src n =
  Some (take (Z.to_nat off) b ++ take (Z.to_nat n) src ++ drop (Z.to_nat (off + n)) b).
Proof.
  intros. unfold memcpy_to. by replace ((0 <=? off) && _ && _ && _)%bool with true by lia.
Qed.

Lemma memcpy_to_inv {A} (b : list A) off src n b' :
  memcpy_to b off src n = Some b' →
  0 <= off ∧ 0 <= n ∧ off + n <= Z.of_nat (length b) ∧ n <= Z.of_nat (length src) ∧
  b' = take (Z.to_nat off) b ++ take (Z.to_nat n) src ++ drop (Z.to_nat (off + n)) b.
Proof. unfold memcpy_to. case_match eqn:E; [|done]. intros [= <-].
  rewrite !andb_true_iff, !Z.leb_le in E. intuition. Qed.

Lemma read_after_memcpy {A} (b : list A) off src n b' :
  memcpy_to b off src n = Some b' → read_at b' off n = Some (take (Z.to_nat n) src).
Proof.
  intros H. pose proof (memcpy_to_length _ _ _ _ _ H) as Hl.
  apply memcpy_to_inv in H as (? & ? & ? & ? & ->).
  rewrite read_at_Some by lia. f_equal.
  rewrite drop_app_length' by (rewrite length_take; lia).
  by rewrite take_app_length' by (rewrite length_take; lia).
Qed.

Lemma read_outside_memcpy {A} (b : list A) off src n b' o k :
  memcpy_to b off src n = Some b' → o + k <= off ∨ off + n <= o →
  read_at b' o k = read_at b o k.
Proof.
  intros H Ho. pose proof (memcpy_to_length _ _ _ _ _ H) as Hl.
  apply memcpy_to_inv in H as (? & ? & ? & ? & ->).
  unfold read_at. rewrite Hl. case_match eqn:E; [|done]. f_equal.
  rewrite !andb_true_iff, !Z.leb_le in E.
  destruct Ho.
  - rewrite drop_app_le by (rewrite length_take; lia).
    rewrite take_app_le by (rewrite length_drop, length_take; lia).
    rewrite skipn_firstn_comm, take_take. f_equal. lia.
  - rewrite app_assoc, drop_app_ge by (rewrite length_app, !length_take; lia).
    rewrite drop_drop. do 2 f_equal. rewrite length_app, !length_take. lia.
Qed.

Lemma read_write_member f g ms bytes mem mem' :
  flat (CStruct ms) = true → g ∈ ms.*1 → write_member f (CStruct ms) bytes mem = Some mem' →
  read_member g (CStruct ms) mem' =
  if bool_decide (g = f) then
    '(_, m) ← member f (CStruct ms); Some (take (Z.to_nat (sizeof m)) bytes)
  else read_member g (CStruct ms) mem.
Proof.
  intros Hf Hg H. apply bind_Some in H as ([o m] & Hm & H).
  unfold read_member. case_bool_decide as E.
  - subst. rewrite Hm. cbn. by eapply read_after_memcpy.
  - apply (member_name g ms Hf) in Hg as [[o' m'] Hm']. rewrite Hm'. cbn.
    eapply read_outside_memcpy; [done|].
    eapply member_disjoint in Hm' as []; [..|exact Hm]; [right|left|done|done]; done.
Qed.

Lemma write_member_length f t bytes mem mem' :
  write_member f t bytes mem = Some mem' → length mem' = length mem.
Proof. intros H. apply bind_Some in H as ([o m] & _ & H). by eapply memcpy_to_length. Qed.

(** A structure is determined by its members. *)
Lemma members_ext ms : ∀ mem mem',
  flat (CStruct ms) = true →
  Z.of_nat (length mem) = sizeof (CStruct ms) → Z.of_nat (length mem') = sizeof (CStruct ms) →
  (∀ f, f ∈ ms.*1 → read_member f (CStruct ms) mem = read_member f (CStruct ms) mem') →
  mem = mem'.
Proof.
  induction ms as [|[n t] ms IH]; intros mem mem' Hf Hl Hl' H.
  { cbn in Hl, Hl'. destruct mem, mem'; try done; cbn in *; lia. }
  pose proof Hf as Hfl. apply flat_cons in Hf as (Hn & Ht & Hi & Hf).
  pose proof (sizeof_flat ms Hf) as Hs. rewrite sizeof_cons in Hl, Hl'.
  rewrite <- (take_drop (Z.to_nat (sizeof t)) mem), <- (take_drop (Z.to_nat (sizeof t)) mem').
  f_equal.
  - specialize (H n ltac:(cbn; left)). unfold read_member in H.
    rewrite (member_cons n n t ms Hn) in H. rewrite bool_decide_eq_true_2 in H by done.
    cbn in H. rewrite !read_at_Some in H by lia. by injection H.
  - apply IH; [done|rewrite length_drop; lia..|].
    intros f Hin. specialize (H f ltac:(cbn; by right)). unfold read_member in H |- *.
    rewrite (member_cons f n t ms Hn) in H.
    rewrite bool_decide_eq_false_2 in H by (intros ->; done).
    destruct (member f (CStruct ms)) as [[o m]|] eqn:E; [|done]. cbn in H |- *.
    pose proof (member_bounds _ _ _ _ Hf E).
    rewrite !read_at_Some in H |- * by (rewrite ?length_drop; lia).
    rewrite !drop_drop. replace (Z.to_nat (sizeof t) + Z.to_nat o)%nat
      with (Z.to_nat (sizeof t + o)) by lia. done.
Qed.

(** ** Copies of members *)

Definition same_type (s t : ctype) (f : string) : bool :=
  match member f s, member f t with
  | Some (_, m), Some (_, m') => sizeof m =? sizeof m'
  | _, _ => false
  end.

Lemma copy_members_spec fs ms ms' source : ∀ dest,
  flat (CStruct ms) = true → flat (CStruct ms') = true →
  forallb (same_type (CStruct ms) (CStruct ms')) fs = true →
  sizeof (CStruct ms) <= Z.of_nat (length source) →
  sizeof (CStruct ms') <= Z.of_nat (length dest) →
  ∃ dest', copy_members fs (CStruct ms) (CStruct ms') source dest = Some dest' ∧
    length dest' = length dest ∧
    ∀ g, g ∈ ms'.*1 →
      read_member g (CStruct ms') dest' =
      if bool_decide (g ∈ fs) then read_member g (CStruct ms) source
      else read_member g (CStruct ms') dest.
Proof.
  induction fs as [|f fs IH]; intros dest Hf Hf' Hs Hl Hl'.
  { exists dest. split; [done|]. split; [done|]. intros g _.
    by rewrite bool_decide_eq_false_2 by apply not_elem_of_nil. }
  cbn [forallb] in Hs. apply andb_true_iff in Hs as [Hff Hs].
  unfold same_type in Hff. case_match eqn:Em; [|done]. destruct p as [o m].
  destruct (member f (CStruct ms')) as [[o' m']|] eqn:Em'; [|done].
  pose proof (member_bounds _ _ _ _ Hf Em). pose proof (member_bounds _ _ _ _ Hf' Em').
  assert (Hr : read_member f (CStruct ms) source
               = Some (take (Z.to_nat (sizeof m)) (drop (Z.to_nat o) source))).
  { unfold read_member. rewrite Em. cbn. apply read_at_Some; lia. }
  cbn [copy_members]. unfold copy_member. rewrite Hr. cbn [mbind option_bind].
  destruct (write_member f (CStruct ms') (take (Z.to_nat (sizeof m)) (drop (Z.to_nat o) source))
              dest) as [d1|] eqn:Ew.
  2: { unfold write_member in Ew. rewrite Em' in Ew. cbn in Ew.
       rewrite memcpy_to_Some in Ew by (rewrite ?length_take, ?length_drop; lia). done. }
  pose proof (write_member_length _ _ _ _ _ Ew) as Hd1. cbn [mbind option_bind].
  destruct (IH d1 Hf Hf' Hs Hl ltac:(lia)) as (dest' & -> & Hd & Hm).
  exists dest'. split; [done|]. split; [lia|]. intros g Hg. rewrite (Hm g Hg).
  rewrite (read_write_member f g ms' _ _ _ Hf' Hg Ew).
  destruct (decide (g ∈ fs)) as [Hi|Hi].
  - rewrite !bool_decide_eq_true_2; [done|by right|done].
  - rewrite (bool_decide_eq_false_2 (g ∈ fs)) by done. destruct (decide (g = f)) as [->|Hne].
    + rewrite !bool_decide_eq_true_2; [|by left|done]. rewrite Em', Hr. cbn.
      rewrite take_take. do 2 f_equal. lia.
    + rewrite !bool_decide_eq_false_2; [done| |done]. by rewrite elem_of_cons; intros [].
Qed.
