(* ===== verification/ProtoTypes.v ===== *)
(** * ProtoTypes: the structures of the calls (supla-common/proto.h)

    One definition per structure that srpc.c reads or sends, with the members of the
    source in their order, for the build of the server: maximal packet of 10240
    bytes, the electricity meter values of versions 1 and 2 included, and the
    timeval of a 64-bit Linux host. *)

From stdpp Require Import strings.
From S2P Require Import Prelude CLayout Proto.

(** ** Sizes *)

Definition SUPLA_SOFTVER_MAXSIZE : Z := 21.
Definition SUPLA_CAPTION_MAXSIZE : Z := 401.
Definition SUPLA_GUID_SIZE : Z := 16.
Definition SUPLA_LOCATION_PWD_MAXSIZE : Z := 33.
Definition SUPLA_ACCESSID_PWD_MAXSIZE : Z := 33.
Definition SUPLA_LOCATION_CAPTION_MAXSIZE : Z := SUPLA_CAPTION_MAXSIZE.
Definition SUPLA_LOCATIONPACK_MAXCOUNT : Z := 20.
Definition SUPLA_CHANNEL_CAPTION_MAXSIZE : Z := SUPLA_CAPTION_MAXSIZE.
Definition SUPLA_CHANNELPACK_MAXCOUNT : Z := 20.
Definition SUPLA_URL_HOST_MAXSIZE : Z := 101.
Definition SUPLA_URL_PATH_MAXSIZE : Z := 101.
Definition SUPLA_SERVER_NAME_MAXSIZE : Z := 65.
Definition SUPLA_EMAIL_MAXSIZE : Z := 256.
Definition SUPLA_PASSWORD_MAXSIZE : Z := 64.
Definition SUPLA_AUTHKEY_SIZE : Z := 16.
Definition SUPLA_OAUTH_TOKEN_MAXSIZE : Z := 256.
Definition SUPLA_CHANNELGROUP_PACK_MAXCOUNT : Z := 20.
Definition SUPLA_CHANNELGROUP_CAPTION_MAXSIZE : Z := 401.
Definition SUPLA_CHANNELVALUE_PACK_MAXCOUNT : Z := 20.
Definition SUPLA_CHANNELEXTENDEDVALUE_PACK_MAXCOUNT : Z := 5.
Definition SUPLA_CHANNELEXTENDEDVALUE_PACK_MAXDATASIZE : Z := SUPLA_MAX_DATA_SIZE - 50.
Definition SUPLA_CALCFG_DATA_MAXSIZE : Z := 128.
Definition SUPLA_TIMEZONE_MAXSIZE : Z := 51.
Definition SUPLA_ACTION_PARAM_MAXSIZE : Z := 500.
Definition SUPLA_CHANNELGROUP_RELATION_PACK_MAXCOUNT : Z := 100.
Definition SUPLA_SCENE_CAPTION_MAXSIZE : Z := SUPLA_CAPTION_MAXSIZE.
Definition SUPLA_SCENE_PACK_MAXCOUNT : Z := 20.
Definition SUPLA_SCENE_STATE_PACK_MAXCOUNT : Z := 20.
Definition SUPLA_CHANNEL_RELATION_PACK_MAXCOUNT : Z := 100.
Definition SUPLA_CHANNEL_STATE_PACK_MAXCOUNT : Z := 20.
Definition SUPLA_DEVICE_NAME_MAXSIZE : Z := 201.
Definition SUPLA_CLIENT_NAME_MAXSIZE : Z := 201.
Definition SUPLA_SENDER_NAME_MAXSIZE : Z := 201.
Definition SUPLA_INITIATOR_NAME_MAXSIZE : Z := SUPLA_SENDER_NAME_MAXSIZE.
Definition SUPLA_CHANNELMAXCOUNT : Z := 128.
Definition SUPLA_CHANNELVALUE_SIZE : Z := 8.
Definition SUPLA_CHANNELEXTENDEDVALUE_SIZE : Z := 1024.
Definition SUPLA_CHANNEL_OFFLINE_FLAG_OFFLINE : Z := 1.
Definition SUPLA_CHANNEL_OFFLINE_FLAG_FIRMWARE_UPDATE_ONGOING : Z := 4.
Definition SUPLA_CHANNEL_OFFLINE_FLAG_MAX : Z :=
  SUPLA_CHANNEL_OFFLINE_FLAG_FIRMWARE_UPDATE_ONGOING.
Definition CHANNEL_REPORT_MAXSIZE : Z := 256.
Definition EM_MEASUREMENT_COUNT : Z := 5.
Definition SUPLA_CHANNEL_CONFIG_MAXSIZE : Z := 512.
Definition SUPLA_DEVICE_CONFIG_MAXSIZE : Z := 512.
Definition SUPLA_PN_TITLE_MAXSIZE : Z := 101.
Definition SUPLA_PN_BODY_MAXSIZE : Z := 256.
Definition SUPLA_PN_PROFILE_NAME_MAXSIZE : Z := 51.
Definition SUPLA_SUBDEVICE_PRODUCT_CODE_MAXSIZE : Z := 51.
Definition SUPLA_SUBDEVICE_SERIAL_NUMBER_MAXSIZE : Z := 51.
Definition SUPLA_PN_CLIENT_TOKEN_MAXSIZE : Z := 256.

(** ** Structures *)

(** struct timeval. *)
Definition supla_timeval : ctype := CStruct [("tv_sec", int64); ("tv_usec", int64)].

Open Scope string_scope.

Definition TSDC_SuplaGetVersionResult : ctype := CStruct [
  ("proto_version_min", uchar); ("proto_version", uchar);
  ("SoftVer", CArr SUPLA_SOFTVER_MAXSIZE schar)].

Definition TSDC_SuplaVersionError : ctype := CStruct [
  ("server_version_min", uchar); ("server_version", uchar)].

Definition TDCS_SuplaPingServer : ctype := CStruct [
  ("now", supla_timeval)].

Definition timeval_compat : ctype := CStruct [
  ("tv_sec", int32); ("tv_usec", int32)].

Definition TDCS_SuplaPingServer_COMPAT : ctype := CStruct [
  ("now", timeval_compat)].

Definition TSDC_SuplaPingServerResult : ctype := CStruct [
  ("now", supla_timeval)].

Definition TDCS_SuplaSetActivityTimeout : ctype := CStruct [
  ("activity_timeout", uchar)].

Definition TSDC_SuplaSetActivityTimeoutResult : ctype := CStruct [
  ("activity_timeout", uchar); ("min", uchar); ("max", uchar)].

Definition TSuplaChannelValue : ctype := CStruct [
  ("value", CArr SUPLA_CHANNELVALUE_SIZE schar);
  ("sub_value", CArr SUPLA_CHANNELVALUE_SIZE schar)].

Definition TSuplaChannelValue_B : ctype := CStruct [
  ("value", CArr SUPLA_CHANNELVALUE_SIZE schar);
  ("sub_value", CArr SUPLA_CHANNELVALUE_SIZE schar); ("sub_value_type", schar)].

Definition TSuplaChannelExtendedValue : ctype := CStruct [
  ("type", schar); ("size", uint32); ("value", CArr SUPLA_CHANNELEXTENDEDVALUE_SIZE schar)].

Definition TSC_SuplaLocation : ctype := CStruct [
  ("EOL", schar); ("Id", int32); ("CaptionSize", uint32);
  ("Caption", CArr SUPLA_LOCATION_CAPTION_MAXSIZE schar)].

Definition TSC_SuplaLocationPack : ctype := CStruct [
  ("count", int32); ("total_left", int32);
  ("items", CArr SUPLA_LOCATIONPACK_MAXCOUNT TSC_SuplaLocation)].

Definition TDS_SuplaDeviceChannel : ctype := CStruct [
  ("Number", uchar); ("Type", int32); ("value", CArr SUPLA_CHANNELVALUE_SIZE schar)].

Definition TDS_SuplaRegisterDevice : ctype := CStruct [
  ("LocationID", int32); ("LocationPWD", CArr SUPLA_LOCATION_PWD_MAXSIZE schar);
  ("GUID", CArr SUPLA_GUID_SIZE schar); ("Name", CArr SUPLA_DEVICE_NAME_MAXSIZE schar);
  ("SoftVer", CArr SUPLA_SOFTVER_MAXSIZE schar); ("channel_count", uchar);
  ("channels", CArr SUPLA_CHANNELMAXCOUNT TDS_SuplaDeviceChannel)].

Definition TDS_SuplaDeviceChannel_B : ctype := CStruct [
  ("Number", uchar); ("Type", int32); ("FuncList", int32); ("Default", int32);
  ("value", CArr SUPLA_CHANNELVALUE_SIZE schar)].

Definition TActionTriggerProperties : ctype := CStruct [
  ("relatedChannelNumber", uchar); ("disablesLocalOperation", uint32); ("ButtonMode", uchar);
  ("Flags", uchar)].

Definition THVACValue : ctype := CStruct [
  ("IsOn", uchar); ("Mode", uchar); ("SetpointTemperatureHeat", int16);
  ("SetpointTemperatureCool", int16); ("Flags", uint16)].

Definition TDS_SuplaDeviceChannel_C : ctype := CStruct [
  ("Number", uchar); ("Type", int32);
  ("", CUnion [
    ("FuncList", int32); ("ActionTriggerCaps", uint32)]);
  ("Default", int32); ("Flags", int32);
  ("", CUnion [
    ("value", CArr SUPLA_CHANNELVALUE_SIZE schar);
    ("actionTriggerProperties", TActionTriggerProperties); ("hvacValue", THVACValue)])].

Definition TDS_SuplaDeviceChannel_D : ctype := CStruct [
  ("Number", uchar); ("Type", int32);
  ("", CUnion [
    ("FuncList", int32); ("ActionTriggerCaps", uint32)]);
  ("Default", int32); ("Flags", int64); ("Offline", uchar); ("ValueValidityTimeSec", uint32);
  ("", CUnion [
    ("value", CArr SUPLA_CHANNELVALUE_SIZE schar);
    ("actionTriggerProperties", TActionTriggerProperties); ("hvacValue", THVACValue)]);
  ("DefaultIcon", uchar)].

Definition TDS_SuplaDeviceChannel_E : ctype := CStruct [
  ("Number", uchar); ("Type", int32);
  ("", CUnion [
    ("FuncList", int32); ("ActionTriggerCaps", uint32); ("RGBW_FuncList", uint32)]);
  ("Default", int32); ("Flags", int64); ("Offline", uchar); ("ValueValidityTimeSec", uint32);
  ("", CUnion [
    ("value", CArr SUPLA_CHANNELVALUE_SIZE schar);
    ("actionTriggerProperties", TActionTriggerProperties); ("hvacValue", THVACValue)]);
  ("DefaultIcon", uchar); ("SubDeviceId", uchar)].

Definition TDS_SuplaRegisterDevice_B : ctype := CStruct [
  ("LocationID", int32); ("LocationPWD", CArr SUPLA_LOCATION_PWD_MAXSIZE schar);
  ("GUID", CArr SUPLA_GUID_SIZE schar); ("Name", CArr SUPLA_DEVICE_NAME_MAXSIZE schar);
  ("SoftVer", CArr SUPLA_SOFTVER_MAXSIZE schar); ("channel_count", uchar);
  ("channels", CArr SUPLA_CHANNELMAXCOUNT TDS_SuplaDeviceChannel_B)].

Definition TDS_SuplaRegisterDevice_C : ctype := CStruct [
  ("LocationID", int32); ("LocationPWD", CArr SUPLA_LOCATION_PWD_MAXSIZE schar);
  ("GUID", CArr SUPLA_GUID_SIZE schar); ("Name", CArr SUPLA_DEVICE_NAME_MAXSIZE schar);
  ("SoftVer", CArr SUPLA_SOFTVER_MAXSIZE schar);
  ("ServerName", CArr SUPLA_SERVER_NAME_MAXSIZE schar); ("channel_count", uchar);
  ("channels", CArr SUPLA_CHANNELMAXCOUNT TDS_SuplaDeviceChannel_B)].

Definition TDS_SuplaRegisterDevice_D : ctype := CStruct [
  ("Email", CArr SUPLA_EMAIL_MAXSIZE schar); ("AuthKey", CArr SUPLA_AUTHKEY_SIZE schar);
  ("GUID", CArr SUPLA_GUID_SIZE schar); ("Name", CArr SUPLA_DEVICE_NAME_MAXSIZE schar);
  ("SoftVer", CArr SUPLA_SOFTVER_MAXSIZE schar);
  ("ServerName", CArr SUPLA_SERVER_NAME_MAXSIZE schar); ("channel_count", uchar);
  ("channels", CArr SUPLA_CHANNELMAXCOUNT TDS_SuplaDeviceChannel_B)].

Definition TDS_SuplaRegisterDevice_E : ctype := CStruct [
  ("Email", CArr SUPLA_EMAIL_MAXSIZE schar); ("AuthKey", CArr SUPLA_AUTHKEY_SIZE schar);
  ("GUID", CArr SUPLA_GUID_SIZE schar); ("Name", CArr SUPLA_DEVICE_NAME_MAXSIZE schar);
  ("SoftVer", CArr SUPLA_SOFTVER_MAXSIZE schar);
  ("ServerName", CArr SUPLA_SERVER_NAME_MAXSIZE schar); ("Flags", int32);
  ("ManufacturerID", int16); ("ProductID", int16); ("channel_count", uchar);
  ("channels", CArr SUPLA_CHANNELMAXCOUNT TDS_SuplaDeviceChannel_C)].

Definition TDS_SuplaRegisterDeviceHeader : ctype := CStruct [
  ("Email", CArr SUPLA_EMAIL_MAXSIZE schar); ("AuthKey", CArr SUPLA_AUTHKEY_SIZE schar);
  ("GUID", CArr SUPLA_GUID_SIZE schar); ("Name", CArr SUPLA_DEVICE_NAME_MAXSIZE schar);
  ("SoftVer", CArr SUPLA_SOFTVER_MAXSIZE schar);
  ("ServerName", CArr SUPLA_SERVER_NAME_MAXSIZE schar); ("Flags", int32);
  ("ManufacturerID", int16); ("ProductID", int16); ("channel_count", uchar)].

Definition TDS_SuplaRegisterDevice_F : ctype := CStruct [
  ("Email", CArr SUPLA_EMAIL_MAXSIZE schar); ("AuthKey", CArr SUPLA_AUTHKEY_SIZE schar);
  ("GUID", CArr SUPLA_GUID_SIZE schar); ("Name", CArr SUPLA_DEVICE_NAME_MAXSIZE schar);
  ("SoftVer", CArr SUPLA_SOFTVER_MAXSIZE schar);
  ("ServerName", CArr SUPLA_SERVER_NAME_MAXSIZE schar); ("Flags", int32);
  ("ManufacturerID", int16); ("ProductID", int16); ("channel_count", uchar);
  ("channels", CArr SUPLA_CHANNELMAXCOUNT TDS_SuplaDeviceChannel_D)].

Definition TDS_SuplaRegisterDevice_G : ctype := CStruct [
  ("Email", CArr SUPLA_EMAIL_MAXSIZE schar); ("AuthKey", CArr SUPLA_AUTHKEY_SIZE schar);
  ("GUID", CArr SUPLA_GUID_SIZE schar); ("Name", CArr SUPLA_DEVICE_NAME_MAXSIZE schar);
  ("SoftVer", CArr SUPLA_SOFTVER_MAXSIZE schar);
  ("ServerName", CArr SUPLA_SERVER_NAME_MAXSIZE schar); ("Flags", int32);
  ("ManufacturerID", int16); ("ProductID", int16); ("channel_count", uchar);
  ("channels", CArr SUPLA_CHANNELMAXCOUNT TDS_SuplaDeviceChannel_E)].

Definition TSD_SuplaRegisterDeviceResult : ctype := CStruct [
  ("result_code", int32); ("activity_timeout", uchar); ("version", uchar);
  ("version_min", uchar)].

Definition TSD_SuplaRegisterDeviceResult_B : ctype := CStruct [
  ("result_code", int32); ("activity_timeout", uchar); ("version", uchar);
  ("version_min", uchar); ("channel_report_size", uint16);
  ("channel_report", CArr CHANNEL_REPORT_MAXSIZE uchar)].

Definition TDS_SuplaDeviceChannelValue : ctype := CStruct [
  ("ChannelNumber", uchar); ("value", CArr SUPLA_CHANNELVALUE_SIZE schar)].

Definition TDS_SuplaDeviceChannelValue_B : ctype := CStruct [
  ("ChannelNumber", uchar); ("Offline", uchar); ("value", CArr SUPLA_CHANNELVALUE_SIZE schar)].

Definition TDS_SuplaDeviceChannelValue_C : ctype := CStruct [
  ("ChannelNumber", uchar); ("Offline", uchar); ("ValidityTimeSec", uint32);
  ("value", CArr SUPLA_CHANNELVALUE_SIZE schar)].

Definition TDS_SuplaDeviceChannelExtendedValue : ctype := CStruct [
  ("ChannelNumber", uchar); ("value", TSuplaChannelExtendedValue)].

Definition TSD_SuplaChannelNewValue : ctype := CStruct [
  ("SenderID", int32); ("ChannelNumber", uchar);
  ("", CUnion [
    ("DurationMS", uint32); ("DurationSec", uint32)]);
  ("value", CArr SUPLA_CHANNELVALUE_SIZE schar)].

Definition TSD_SuplaChannelGroupNewValue : ctype := CStruct [
  ("SenderID", int32); ("GroupID", int32); ("EOL", uchar); ("ChannelNumber", uchar);
  ("", CUnion [
    ("DurationMS", uint32); ("DurationSec", uint32)]);
  ("value", CArr SUPLA_CHANNELVALUE_SIZE schar)].

Definition TDS_SuplaChannelNewValueResult : ctype := CStruct [
  ("ChannelNumber", uchar); ("SenderID", int32); ("Success", schar)].

Definition TSC_SuplaChannelValue : ctype := CStruct [
  ("EOL", schar); ("Id", int32); ("online", schar); ("value", TSuplaChannelValue)].

Definition TSC_SuplaChannelValue_B : ctype := CStruct [
  ("EOL", schar); ("Id", int32); ("online", schar); ("value", TSuplaChannelValue_B)].

Definition TSC_SuplaChannelValuePack : ctype := CStruct [
  ("count", int32); ("total_left", int32);
  ("items", CArr SUPLA_CHANNELVALUE_PACK_MAXCOUNT TSC_SuplaChannelValue)].

Definition TSC_SuplaChannelValuePack_B : ctype := CStruct [
  ("count", int32); ("total_left", int32);
  ("items", CArr SUPLA_CHANNELVALUE_PACK_MAXCOUNT TSC_SuplaChannelValue_B)].

Definition TSC_SuplaChannelExtendedValuePack : ctype := CStruct [
  ("count", int32); ("total_left", int32); ("pack_size", uint32);
  ("pack", CArr SUPLA_CHANNELEXTENDEDVALUE_PACK_MAXDATASIZE schar)].

Definition TSC_SuplaChannel : ctype := CStruct [
  ("EOL", schar); ("Id", int32); ("LocationID", int32); ("Func", int32); ("online", schar);
  ("value", TSuplaChannelValue); ("CaptionSize", uint32);
  ("Caption", CArr SUPLA_CHANNEL_CAPTION_MAXSIZE schar)].

Definition TSC_SuplaChannelPack : ctype := CStruct [
  ("count", int32); ("total_left", int32);
  ("items", CArr SUPLA_CHANNELPACK_MAXCOUNT TSC_SuplaChannel)].

Definition TSC_SuplaChannel_B : ctype := CStruct [
  ("EOL", schar); ("Id", int32); ("LocationID", int32); ("Func", int32); ("AltIcon", int32);
  ("Flags", uint32); ("ProtocolVersion", uchar); ("online", schar);
  ("value", TSuplaChannelValue); ("CaptionSize", uint32);
  ("Caption", CArr SUPLA_CHANNEL_CAPTION_MAXSIZE schar)].

Definition TSC_SuplaChannelPack_B : ctype := CStruct [
  ("count", int32); ("total_left", int32);
  ("items", CArr SUPLA_CHANNELPACK_MAXCOUNT TSC_SuplaChannel_B)].

Definition TSC_SuplaChannel_C : ctype := CStruct [
  ("EOL", schar); ("Id", int32); ("DeviceID", int32); ("LocationID", int32); ("Type", int32);
  ("Func", int32); ("AltIcon", int32); ("UserIcon", int32); ("ManufacturerID", int16);
  ("ProductID", int16); ("Flags", uint32); ("ProtocolVersion", uchar); ("online", schar);
  ("value", TSuplaChannelValue); ("CaptionSize", uint32);
  ("Caption", CArr SUPLA_CHANNEL_CAPTION_MAXSIZE schar)].

Definition TSC_SuplaChannel_D : ctype := CStruct [
  ("EOL", schar); ("Id", int32); ("DeviceID", int32); ("LocationID", int32); ("Type", int32);
  ("Func", int32); ("AltIcon", int32); ("UserIcon", int32); ("ManufacturerID", int16);
  ("ProductID", int16); ("Flags", uint32); ("ProtocolVersion", uchar); ("online", schar);
  ("value", TSuplaChannelValue_B); ("CaptionSize", uint32);
  ("Caption", CArr SUPLA_CHANNEL_CAPTION_MAXSIZE schar)].

Definition TSC_SuplaChannel_E : ctype := CStruct [
  ("EOL", schar); ("Id", int32); ("DeviceID", int32); ("LocationID", int32); ("Type", int32);
  ("Func", int32); ("AltIcon", int32); ("UserIcon", int32); ("ManufacturerID", int16);
  ("ProductID", int16); ("DefaultConfigCRC32", uint32); ("Flags", uint64);
  ("ProtocolVersion", uchar); ("online", schar); ("value", TSuplaChannelValue_B);
  ("CaptionSize", uint32); ("Caption", CArr SUPLA_CHANNEL_CAPTION_MAXSIZE schar)].

Definition TSC_SuplaChannelPack_C : ctype := CStruct [
  ("count", int32); ("total_left", int32);
  ("items", CArr SUPLA_CHANNELPACK_MAXCOUNT TSC_SuplaChannel_C)].

Definition TSC_SuplaChannelPack_D : ctype := CStruct [
  ("count", int32); ("total_left", int32);
  ("items", CArr SUPLA_CHANNELPACK_MAXCOUNT TSC_SuplaChannel_D)].

Definition TSC_SuplaChannelPack_E : ctype := CStruct [
  ("count", int32); ("total_left", int32);
  ("items", CArr SUPLA_CHANNELPACK_MAXCOUNT TSC_SuplaChannel_E)].

Definition TSC_SuplaChannelGroup : ctype := CStruct [
  ("EOL", schar); ("Id", int32); ("LocationID", int32); ("Func", int32); ("AltIcon", int32);
  ("Flags", uint32); ("CaptionSize", uint32);
  ("Caption", CArr SUPLA_CHANNELGROUP_CAPTION_MAXSIZE schar)].

Definition TSC_SuplaChannelGroup_B : ctype := CStruct [
  ("EOL", schar); ("Id", int32); ("LocationID", int32); ("Func", int32); ("AltIcon", int32);
  ("UserIcon", int32); ("Flags", uint32); ("CaptionSize", uint32);
  ("Caption", CArr SUPLA_CHANNELGROUP_CAPTION_MAXSIZE schar)].

Definition TSC_SuplaChannelGroupPack : ctype := CStruct [
  ("count", int32); ("total_left", int32);
  ("items", CArr SUPLA_CHANNELGROUP_PACK_MAXCOUNT TSC_SuplaChannelGroup)].

Definition TSC_SuplaChannelGroupPack_B : ctype := CStruct [
  ("count", int32); ("total_left", int32);
  ("items", CArr SUPLA_CHANNELGROUP_PACK_MAXCOUNT TSC_SuplaChannelGroup_B)].

Definition TSC_SuplaChannelGroupRelation : ctype := CStruct [
  ("EOL", schar); ("ChannelGroupID", int32); ("ChannelID", int32)].

Definition TSC_SuplaChannelGroupRelationPack : ctype := CStruct [
  ("count", int32); ("total_left", int32);
  ("items", CArr SUPLA_CHANNELGROUP_RELATION_PACK_MAXCOUNT TSC_SuplaChannelGroupRelation)].

Definition TSC_SuplaChannelRelation : ctype := CStruct [
  ("EOL", schar); ("Id", int32); ("ParentId", int32); ("Type", int16)].

Definition TSC_SuplaChannelRelationPack : ctype := CStruct [
  ("count", int32); ("total_left", int32);
  ("items", CArr SUPLA_CHANNEL_RELATION_PACK_MAXCOUNT TSC_SuplaChannelRelation)].

Definition TSC_SuplaScene : ctype := CStruct [
  ("EOL", schar); ("Id", int32); ("LocationId", int32); ("AltIcon", int32);
  ("UserIcon", int32); ("CaptionSize", uint16);
  ("Caption", CArr SUPLA_SCENE_CAPTION_MAXSIZE schar)].

Definition TSC_SuplaScenePack : ctype := CStruct [
  ("count", int32); ("total_left", int32);
  ("items", CArr SUPLA_SCENE_PACK_MAXCOUNT TSC_SuplaScene)].

Definition TSC_SuplaSceneState : ctype := CStruct [
  ("EOL", schar); ("SceneId", int32); ("MillisecondsFromStart", uint32);
  ("MillisecondsLeft", uint32); ("InitiatorId", int32); ("InitiatorNameSize", uint16);
  ("InitiatorName", CArr SUPLA_INITIATOR_NAME_MAXSIZE schar)].

Definition TSC_SuplaSceneStatePack : ctype := CStruct [
  ("count", int32); ("total_left", int32);
  ("items", CArr SUPLA_SCENE_STATE_PACK_MAXCOUNT TSC_SuplaSceneState)].

Definition TCS_Action : ctype := CStruct [
  ("ActionId", int32); ("SubjectId", int32); ("SubjectType", uchar); ("ParamSize", uint16);
  ("Param", CArr SUPLA_ACTION_PARAM_MAXSIZE schar)].

Definition TCS_ClientAuthorizationDetails : ctype := CStruct [
  ("AccessID", int32); ("AccessIDpwd", CArr SUPLA_ACCESSID_PWD_MAXSIZE schar);
  ("Email", CArr SUPLA_EMAIL_MAXSIZE schar); ("AuthKey", CArr SUPLA_AUTHKEY_SIZE schar);
  ("GUID", CArr SUPLA_GUID_SIZE schar); ("ServerName", CArr SUPLA_SERVER_NAME_MAXSIZE schar)].

Definition TCS_ActionWithAuth : ctype := CStruct [
  ("Auth", TCS_ClientAuthorizationDetails); ("Action", TCS_Action)].

Definition TSC_ActionExecutionResult : ctype := CStruct [
  ("ResultCode", uchar); ("ActionId", int32); ("SubjectId", int32); ("SubjectType", int32)].

Definition TSC_GetChannelValueResult : ctype := CStruct [
  ("ResultCode", uchar); ("ChannelId", int32); ("Function", int32);
  ("Value", TSuplaChannelValue_B); ("ExtendedValue", TSuplaChannelExtendedValue)].

Definition TCS_GetChannelValueWithAuth : ctype := CStruct [
  ("Auth", TCS_ClientAuthorizationDetails); ("ChannelId", int32)].

Definition TCS_SuplaRegisterClient : ctype := CStruct [
  ("AccessID", int32); ("AccessIDpwd", CArr SUPLA_ACCESSID_PWD_MAXSIZE schar);
  ("GUID", CArr SUPLA_GUID_SIZE schar); ("Name", CArr SUPLA_CLIENT_NAME_MAXSIZE schar);
  ("SoftVer", CArr SUPLA_SOFTVER_MAXSIZE schar)].

Definition TCS_SuplaRegisterClient_B : ctype := CStruct [
  ("AccessID", int32); ("AccessIDpwd", CArr SUPLA_ACCESSID_PWD_MAXSIZE schar);
  ("GUID", CArr SUPLA_GUID_SIZE schar); ("Name", CArr SUPLA_CLIENT_NAME_MAXSIZE schar);
  ("SoftVer", CArr SUPLA_SOFTVER_MAXSIZE schar);
  ("ServerName", CArr SUPLA_SERVER_NAME_MAXSIZE schar)].

Definition TCS_SuplaRegisterClient_C : ctype := CStruct [
  ("Email", CArr SUPLA_EMAIL_MAXSIZE schar); ("AuthKey", CArr SUPLA_AUTHKEY_SIZE schar);
  ("GUID", CArr SUPLA_GUID_SIZE schar); ("Name", CArr SUPLA_CLIENT_NAME_MAXSIZE schar);
  ("SoftVer", CArr SUPLA_SOFTVER_MAXSIZE schar);
  ("ServerName", CArr SUPLA_SERVER_NAME_MAXSIZE schar)].

Definition TCS_SuplaRegisterClient_D : ctype := CStruct [
  ("Email", CArr SUPLA_EMAIL_MAXSIZE schar); ("Password", CArr SUPLA_PASSWORD_MAXSIZE schar);
  ("AuthKey", CArr SUPLA_AUTHKEY_SIZE schar); ("GUID", CArr SUPLA_GUID_SIZE schar);
  ("Name", CArr SUPLA_CLIENT_NAME_MAXSIZE schar);
  ("SoftVer", CArr SUPLA_SOFTVER_MAXSIZE schar);
  ("ServerName", CArr SUPLA_SERVER_NAME_MAXSIZE schar)].

Definition TSC_SuplaRegisterClientResult : ctype := CStruct [
  ("result_code", int32); ("ClientID", int32); ("LocationCount", int32);
  ("ChannelCount", int32); ("activity_timeout", uchar); ("version", uchar);
  ("version_min", uchar)].

Definition TSC_SuplaRegisterClientResult_B : ctype := CStruct [
  ("result_code", int32); ("ClientID", int32); ("LocationCount", int32);
  ("ChannelCount", int32); ("ChannelGroupCount", int32); ("Flags", int32);
  ("activity_timeout", uchar); ("version", uchar); ("version_min", uchar)].

Definition TSC_SuplaRegisterClientResult_C : ctype := CStruct [
  ("result_code", int32); ("ClientID", int32); ("LocationCount", int32);
  ("ChannelCount", int32); ("ChannelGroupCount", int32); ("Flags", int32);
  ("activity_timeout", uchar); ("version", uchar); ("version_min", uchar);
  ("serverUnixTimestamp", uint32)].

Definition TSC_SuplaRegisterClientResult_D : ctype := CStruct [
  ("result_code", int32); ("ClientID", int32); ("LocationCount", int16);
  ("ChannelCount", int16); ("ChannelGroupCount", int16); ("SceneCount", int16);
  ("Flags", int32); ("activity_timeout", uchar); ("version", uchar); ("version_min", uchar);
  ("serverUnixTimestamp", uint32)].

Definition TCS_SuplaChannelNewValue : ctype := CStruct [
  ("ChannelId", uchar); ("value", CArr SUPLA_CHANNELVALUE_SIZE schar)].

Definition TCS_SuplaChannelNewValue_B : ctype := CStruct [
  ("ChannelId", int32); ("value", CArr SUPLA_CHANNELVALUE_SIZE schar)].

Definition TCS_SuplaNewValue : ctype := CStruct [
  ("Id", int32); ("Target", schar); ("value", CArr SUPLA_CHANNELVALUE_SIZE schar)].

Definition TSC_SuplaEvent : ctype := CStruct [
  ("Event", int32); ("ChannelID", int32); ("DurationMS", uint32); ("SenderID", int32);
  ("SenderNameSize", uint32); ("SenderName", CArr SUPLA_SENDER_NAME_MAXSIZE schar)].

Definition TDS_FirmwareUpdateParams : ctype := CStruct [
  ("Platform", schar); ("Param1", int32); ("Param2", int32); ("Param3", int32);
  ("Param4", int32)].

Definition TSD_FirmwareUpdate_Url : ctype := CStruct [
  ("available_protocols", schar); ("host", CArr SUPLA_URL_HOST_MAXSIZE schar);
  ("port", int32); ("path", CArr SUPLA_URL_PATH_MAXSIZE schar)].

Definition TSD_FirmwareUpdate_UrlResult : ctype := CStruct [
  ("exists", schar); ("url", TSD_FirmwareUpdate_Url)].

Definition TSDC_RegistrationEnabled : ctype := CStruct [
  ("client_timestamp", uint32); ("iodevice_timestamp", uint32)].

Definition TSC_OAuthToken : ctype := CStruct [
  ("ExpiresIn", uint32); ("TokenSize", uint32);
  ("Token", CArr SUPLA_OAUTH_TOKEN_MAXSIZE schar)].

Definition TSC_OAuthTokenRequestResult : ctype := CStruct [
  ("ResultCode", uchar); ("Token", TSC_OAuthToken)].

Definition TElectricityMeter_Measurement : ctype := CStruct [
  ("freq", uint16); ("voltage", CArr 3 uint16); ("current", CArr 3 uint16);
  ("power_active", CArr 3 int32); ("power_reactive", CArr 3 int32);
  ("power_apparent", CArr 3 int32); ("power_factor", CArr 3 int16);
  ("phase_angle", CArr 3 int16)].

Definition TElectricityMeter_ExtendedValue : ctype := CStruct [
  ("total_forward_active_energy", CArr 3 uint64);
  ("total_reverse_active_energy", CArr 3 uint64);
  ("total_forward_reactive_energy", CArr 3 uint64);
  ("total_reverse_reactive_energy", CArr 3 uint64); ("total_cost", int32);
  ("price_per_unit", int32); ("currency", CArr 3 schar); ("measured_values", int32);
  ("period", int32); ("m_count", int32);
  ("m", CArr EM_MEASUREMENT_COUNT TElectricityMeter_Measurement)].

Definition TElectricityMeter_ExtendedValue_V2 : ctype := CStruct [
  ("total_forward_active_energy", CArr 3 uint64);
  ("total_reverse_active_energy", CArr 3 uint64);
  ("total_forward_reactive_energy", CArr 3 uint64);
  ("total_reverse_reactive_energy", CArr 3 uint64);
  ("total_forward_active_energy_balanced", uint64);
  ("total_reverse_active_energy_balanced", uint64); ("total_cost", int32);
  ("total_cost_balanced", int32); ("price_per_unit", int32); ("currency", CArr 3 schar);
  ("measured_values", int32); ("period", int32); ("m_count", int32);
  ("m", CArr EM_MEASUREMENT_COUNT TElectricityMeter_Measurement)].

Definition TElectricityMeter_ExtendedValue_V3 : ctype := CStruct [
  ("total_forward_active_energy", CArr 3 uint64);
  ("total_reverse_active_energy", CArr 3 uint64);
  ("total_forward_reactive_energy", CArr 3 uint64);
  ("total_reverse_reactive_energy", CArr 3 uint64);
  ("total_forward_active_energy_balanced", uint64);
  ("total_reverse_active_energy_balanced", uint64); ("voltage_phase_angle_12", uint16);
  ("voltage_phase_angle_13", uint16); ("phase_sequence", uchar); ("total_cost", int32);
  ("total_cost_balanced", int32); ("price_per_unit", int32); ("currency", CArr 3 schar);
  ("measured_values", int32); ("period", int32); ("m_count", int32);
  ("m", CArr EM_MEASUREMENT_COUNT TElectricityMeter_Measurement)].

Definition TSC_ImpulseCounter_ExtendedValue : ctype := CStruct [
  ("total_cost", int32); ("price_per_unit", int32); ("currency", CArr 3 schar);
  ("custom_unit", CArr 9 schar); ("impulses_per_unit", int32); ("counter", uint64);
  ("calculated_value", int64)].

Definition TCS_SuperUserAuthorizationRequest : ctype := CStruct [
  ("Email", CArr SUPLA_EMAIL_MAXSIZE schar); ("Password", CArr SUPLA_PASSWORD_MAXSIZE schar)].

Definition TSC_SuperUserAuthorizationResult : ctype := CStruct [
  ("Result", int32)].

Definition TCS_DeviceCalCfgRequest : ctype := CStruct [
  ("ChannelID", int32); ("Command", int32); ("DataType", int32); ("DataSize", uint32);
  ("Data", CArr SUPLA_CALCFG_DATA_MAXSIZE schar)].

Definition TCS_DeviceCalCfgRequest_B : ctype := CStruct [
  ("Id", int32); ("Target", schar); ("Command", int32); ("DataType", int32);
  ("DataSize", uint32); ("Data", CArr SUPLA_CALCFG_DATA_MAXSIZE schar)].

Definition TSC_DeviceCalCfgResult : ctype := CStruct [
  ("ChannelID", int32); ("Command", int32); ("Result", int32); ("DataSize", uint32);
  ("Data", CArr SUPLA_CALCFG_DATA_MAXSIZE schar)].

Definition TSD_DeviceCalCfgRequest : ctype := CStruct [
  ("SenderID", int32); ("ChannelNumber", int32); ("Command", int32);
  ("SuperUserAuthorized", schar); ("DataType", int32); ("DataSize", uint32);
  ("Data", CArr SUPLA_CALCFG_DATA_MAXSIZE schar)].

Definition TDS_DeviceCalCfgResult : ctype := CStruct [
  ("ReceiverID", int32); ("ChannelNumber", int32); ("Command", int32); ("Result", int32);
  ("DataSize", uint32); ("Data", CArr SUPLA_CALCFG_DATA_MAXSIZE schar)].

Definition TThermostat_Time : ctype := CStruct [
  ("sec", uchar); ("min", uchar); ("hour", uchar); ("dayOfWeek", uchar)].

Definition TThermostat_Schedule : ctype := CStruct [
  ("ValueType", uchar); ("HourValue", CArr 7 (CArr 24 schar))].

Definition TThermostat_ExtendedValue : ctype := CStruct [
  ("Fields", uchar); ("MeasuredTemperature", CArr 10 int16);
  ("PresetTemperature", CArr 10 int16); ("Flags", CArr 8 int16); ("Values", CArr 8 int16);
  ("Time", TThermostat_Time); ("Schedule", TThermostat_Schedule)].

Definition TSDC_UserLocalTimeResult : ctype := CStruct [
  ("year", uint16); ("month", uchar); ("day", uchar); ("dayOfWeek", uchar); ("hour", uchar);
  ("min", uchar); ("sec", uchar); ("timezoneSize", uint32);
  ("timezone", CArr SUPLA_TIMEZONE_MAXSIZE schar)].

Definition TCSD_ChannelStateRequest : ctype := CStruct [
  ("SenderID", int32);
  ("", CUnion [
    ("ChannelID", int32); ("ChannelNumber", uchar)])].

Definition TDSC_ChannelState : ctype := CStruct [
  ("ReceiverID", int32);
  ("", CUnion [
    ("ChannelID", int32); ("ChannelNumber", uchar)]);
  ("Fields", int32);
  ("", CUnion [
    ("defaultIconField", int32); ("SwitchCycleCount", uint32)]);
  ("IPv4", uint32); ("MAC", CArr 6 uchar); ("BatteryLevel", uchar);
  ("BatteryPowered", uchar); ("WiFiRSSI", schar); ("WiFiSignalStrength", uchar);
  ("BridgeNodeOnline", uchar); ("BridgeNodeSignalStrength", uchar); ("Uptime", uint32);
  ("ConnectionUptime", uint32); ("BatteryHealth", uchar);
  ("LastConnectionResetCause", uchar); ("LightSourceLifespan", uint16);
  ("", CUnion [
    ("LightSourceLifespanLeft", int16); ("LightSourceOperatingTime", int32);
    ("OperatingTime", uint32)]);
  ("EOL", schar); ("EmptySpace", CArr 1 schar)].

Definition TCS_ChannelBasicCfgRequest : ctype := CStruct [
  ("ChannelID", int32)].

Definition TSC_ChannelBasicCfg : ctype := CStruct [
  ("DeviceName", CArr SUPLA_DEVICE_NAME_MAXSIZE schar);
  ("DeviceSoftVer", CArr SUPLA_SOFTVER_MAXSIZE schar); ("DeviceID", int32);
  ("DeviceFlags", int32); ("ManufacturerID", int16); ("ProductID", int16); ("ID", int32);
  ("Number", uchar); ("Type", int32); ("Func", int32); ("FuncList", int32);
  ("ChannelFlags", uint32); ("CaptionSize", uint32);
  ("Caption", CArr SUPLA_CHANNEL_CAPTION_MAXSIZE schar)].

Definition TCS_SetChannelFunction : ctype := CStruct [
  ("ChannelID", int32); ("Func", int32)].

Definition TSC_SetChannelFunctionResult : ctype := CStruct [
  ("ChannelID", int32); ("Func", int32); ("ResultCode", uchar)].

Definition TDCS_SetCaption : ctype := CStruct [
  ("", CUnion [
    ("ChannelNumber", uchar); ("ID", int32)]);
  ("CaptionSize", uint32); ("Caption", CArr SUPLA_CAPTION_MAXSIZE schar)].

Definition TSCD_SetCaptionResult : ctype := CStruct [
  ("", CUnion [
    ("ChannelNumber", uchar); ("ID", int32)]);
  ("ResultCode", uchar); ("CaptionSize", uint32);
  ("Caption", CArr SUPLA_CAPTION_MAXSIZE schar)].

Definition TSC_ClientsReconnectRequestResult : ctype := CStruct [
  ("ResultCode", uchar)].

Definition TCS_SetRegistrationEnabled : ctype := CStruct [
  ("IODeviceRegistrationTimeSec", int32); ("ClientRegistrationTimeSec", int32)].

Definition TSC_SetRegistrationEnabledResult : ctype := CStruct [
  ("ResultCode", uchar)].

Definition TCS_DeviceReconnectRequest : ctype := CStruct [
  ("DeviceID", int32)].

Definition TSC_DeviceReconnectRequestResult : ctype := CStruct [
  ("DeviceID", int32); ("ResultCode", uchar)].

Definition TSD_ChannelFunctions : ctype := CStruct [
  ("ChannelCount", uchar); ("Functions", CArr SUPLA_CHANNELMAXCOUNT int32)].

Definition TSDS_SetDeviceConfig : ctype := CStruct [
  ("EndOfDataFlag", uchar); ("zero", CArr 8 uchar); ("AvailableFields", uint64);
  ("Fields", uint64); ("ConfigSize", uint16);
  ("Config", CArr SUPLA_DEVICE_CONFIG_MAXSIZE schar)].

Definition TSDS_SetDeviceConfigResult : ctype := CStruct [
  ("Result", uchar); ("zero", CArr 9 uchar)].

Definition TSCS_DeviceConfig : ctype := CStruct [
  ("DeviceId", int32); ("EndOfDataFlag", uchar); ("zero", CArr 8 uchar);
  ("AvailableFields", uint64); ("Fields", uint64); ("ConfigSize", uint16);
  ("Config", CArr SUPLA_DEVICE_CONFIG_MAXSIZE schar)].

Definition TSC_DeviceConfigUpdateOrResult : ctype := CStruct [
  ("Result", uchar); ("Config", TSCS_DeviceConfig)].

Definition TCS_GetDeviceConfigRequest : ctype := CStruct [
  ("DeviceId", int32); ("Fields", uint64); ("zero", CArr 8 uchar)].

Definition TCS_GetChannelConfigRequest : ctype := CStruct [
  ("ChannelId", int32); ("ConfigType", uchar); ("Flags", uint32)].

Definition TSCS_ChannelConfig : ctype := CStruct [
  ("ChannelId", int32); ("Func", int32); ("ConfigType", uchar); ("ConfigSize", uint16);
  ("Config", CArr SUPLA_CHANNEL_CONFIG_MAXSIZE schar)].

Definition TSC_ChannelConfigUpdateOrResult : ctype := CStruct [
  ("Result", uchar); ("Config", TSCS_ChannelConfig)].

Definition TDS_GetChannelConfigRequest : ctype := CStruct [
  ("ChannelNumber", uchar); ("ConfigType", uchar); ("Flags", uint32)].

Definition TSD_ChannelConfig : ctype := CStruct [
  ("ChannelNumber", uchar); ("Func", int32); ("ConfigType", uchar); ("ConfigSize", uint16);
  ("Config", CArr SUPLA_CHANNEL_CONFIG_MAXSIZE schar)].

Definition TSDS_SetChannelConfig : ctype := TSD_ChannelConfig.

Definition TSDS_SetChannelConfigResult : ctype := CStruct [
  ("Result", uchar); ("ConfigType", uchar); ("ChannelNumber", uchar)].

Definition TSD_ChannelConfigFinished : ctype := CStruct [
  ("ChannelNumber", uchar)].

Definition TCS_TimerArmRequest : ctype := CStruct [
  ("ChannelID", int32);
  ("", CUnion [
    ("DurationMS", uint32); ("DurationSec", uint32)]);
  ("On", uchar)].

Definition TDS_ActionTrigger : ctype := CStruct [
  ("ChannelNumber", uchar); ("ActionTrigger", int32); ("zero", CArr 10 uchar)].

Definition TDS_RegisterPushNotification : ctype := CStruct [
  ("ServerManagedFields", uchar); ("Context", int16); ("Reserved", CArr 8 schar)].

Definition TDS_PushNotification : ctype := CStruct [
  ("Context", int16); ("Reserved", CArr 32 schar); ("SoundId", int32); ("TitleSize", uint16);
  ("BodySize", uint16);
  ("TitleAndBody", CArr (SUPLA_PN_TITLE_MAXSIZE + SUPLA_PN_BODY_MAXSIZE) schar)].

Definition TDS_SubdeviceDetails : ctype := CStruct [
  ("SubDeviceId", uchar); ("Name", CArr SUPLA_DEVICE_NAME_MAXSIZE schar);
  ("SoftVer", CArr SUPLA_SOFTVER_MAXSIZE schar);
  ("ProductCode", CArr SUPLA_SUBDEVICE_PRODUCT_CODE_MAXSIZE schar);
  ("SerialNumber", CArr SUPLA_SUBDEVICE_SERIAL_NUMBER_MAXSIZE schar)].

Definition TCS_PnClientToken : ctype := CStruct [
  ("DevelopmentEnv", uchar); ("Platform", int32); ("AppId", int32);
  ("ProfileName", CArr SUPLA_PN_PROFILE_NAME_MAXSIZE schar); ("RealTokenSize", uint16);
  ("TokenSize", uint16); ("Token", CArr SUPLA_PN_CLIENT_TOKEN_MAXSIZE schar)].

Definition TCS_RegisterPnClientToken : ctype := CStruct [
  ("Auth", TCS_ClientAuthorizationDetails); ("Token", TCS_PnClientToken)].

Definition TSC_RegisterPnClientTokenResult : ctype := CStruct [
  ("ResultCode", int32)].

Definition TSC_SuplaChannelStatePack : ctype := CStruct [
  ("count", int32); ("total_left", int32);
  ("items", CArr SUPLA_CHANNEL_STATE_PACK_MAXCOUNT TDSC_ChannelState)].
