(* ===== verification/MultipartCall.v ===== *)
(** * MultipartCall: calls that come in parts

    srpc/multipart_call.cpp, srpc/multipart_call_store.cpp and their use for the configuration
    of a device (device/call_handler/set_device_config*.cpp): the parts are kept until the last
    one has come, and then handled together. *)

From S2P Require Import Prelude Proto CallIds ProtoTypes.

#[local] Open Scope list_scope.
#[local] Open Scope Z_scope.

(** ** Calls and their store *)

(** A call, with the address of its object; [mc_expires_at] is in microseconds. *)
Record multipart_call (T : Type) := MultipartCall {
  mc_address : nat; mc_call_id : Z; mc_expires_at : Z; mc_parts : list T
}.

Arguments MultipartCall {T}.
Arguments mc_address {T}.
Arguments mc_call_id {T}.
Arguments mc_expires_at {T}.
Arguments mc_parts {T}.

Section store.
Context {T : Type}.
Implicit Types (c : multipart_call T) (calls : list (multipart_call T)).

Definition new_multipart_call (address : nat) (call_id expire_in_msec : Z) (now : timeval)
    : multipart_call T :=
  MultipartCall address call_id (usec_of now + expire_in_msec * 1000) [].

Definition is_expired (now : timeval) c : bool := mc_expires_at c <=? usec_of now.

Definition part_push (p : T) c : multipart_call T :=
  MultipartCall (mc_address c) (mc_call_id c) (mc_expires_at c) (mc_parts c ++ [p]).

Definition part_pop c : option T * multipart_call T :=
  match mc_parts c with
  | [] => (None, c)
  | p :: ps => (Some p, MultipartCall (mc_address c) (mc_call_id c) (mc_expires_at c) ps)
  end.

Definition of_call (call_id : Z) c : bool := mc_call_id c =? call_id.

Definition store_get (call_id : Z) (now : timeval) calls
    : option (multipart_call T) * list (multipart_call T) :=
  match find_first (of_call call_id) calls with
  | Some c => if is_expired now c then (None, erase_first (of_call call_id) calls)
              else (Some c, calls)
  | None => (None, calls)
  end.

Definition store_release (call_id : Z) calls : list (multipart_call T) :=
  erase_first (of_call call_id) calls.

Definition at_address (a : nat) c : bool := (mc_address c =? a)%nat.

Definition store_detach (a : nat) calls : list (multipart_call T) :=
  erase_first (at_address a) calls.

Definition store_add c calls : list (multipart_call T) :=
  store_release (mc_call_id c) calls ++ [c].

Definition store_size calls : Z := Z.of_nat (length calls).

(** There is one call of each number at most. *)
Definition one_per_call calls : Prop := NoDup (mc_call_id <$> calls).

Lemma erase_first_ids call_id calls : one_per_call calls →
  ∀ c, c ∈ erase_first (of_call call_id) calls → mc_call_id c ≠ call_id.
Proof.
  unfold one_per_call. induction calls as [|x calls IH]; intros Hd c Hc; [inversion Hc|].
  cbn in Hd. apply NoDup_cons in Hd as [Hn Hd]. cbn in Hc. destruct (of_call call_id x) eqn:E.
  - unfold of_call in E. intros Eq. apply Hn. replace (mc_call_id x) with (mc_call_id c) by lia.
    by apply list_elem_of_fmap_2.
  - apply elem_of_cons in Hc as [-> | Hc]; [unfold of_call in E; lia|by apply IH].
Qed.

Lemma store_add_one c calls : one_per_call calls → one_per_call (store_add c calls).
Proof.
  intros Hd. pose proof (erase_first_ids (mc_call_id c) calls Hd) as He.
  unfold one_per_call, store_add, store_release in *. rewrite fmap_app. apply NoDup_app.
  split_and!; [|intros i Hi Hc; apply list_elem_of_singleton in Hc|apply NoDup_singleton].
  - eapply sublist_NoDup; [exact Hd|]. apply fmap_sublist, erase_first_sublist.
  - apply list_elem_of_fmap in Hi as (x & -> & Hx). by apply (He x Hx).
Qed.
End store.

(** ** The configuration of a device *)

(** [TSDS_SetDeviceConfig]; [dc_Config] are all of its 512 bytes. *)
Record device_config := DeviceConfig {
  dc_EndOfDataFlag : Z; dc_zero : list Z; dc_AvailableFields : Z; dc_Fields : Z;
  dc_ConfigSize : Z; dc_Config : list Z
}.

(** The size of the structure without its last member, and its size. *)
Definition SIZEOF_header : Z := 27.
Definition SIZEOF_TSDS_SetDeviceConfig : Z := SIZEOF_header + SUPLA_DEVICE_CONFIG_MAXSIZE.

(** A part: the first [cp_size] bytes of the structure, which has at least its header. *)
Record config_part := ConfigPart { cp_config : device_config; cp_size : Z }.

Definition config_part_of (config : device_config) : config_part :=
  let data_size := SIZEOF_TSDS_SetDeviceConfig - SUPLA_DEVICE_CONFIG_MAXSIZE + dc_ConfigSize config in
  ConfigPart config
    (if SIZEOF_TSDS_SetDeviceConfig <? data_size then SIZEOF_TSDS_SetDeviceConfig else data_size).

(** [part_pop]: the bytes that were not kept are zero. *)
Definition config_of_part (p : config_part) : option device_config :=
  if (SIZEOF_header <=? cp_size p) && (cp_size p <=? SIZEOF_TSDS_SetDeviceConfig) then
    let c := cp_config p in
    let n := Z.to_nat (cp_size p - SIZEOF_header) in
    Some (DeviceConfig (dc_EndOfDataFlag c) (dc_zero c) (dc_AvailableFields c) (dc_Fields c)
            (if SUPLA_DEVICE_CONFIG_MAXSIZE <? dc_ConfigSize c
             then SUPLA_DEVICE_CONFIG_MAXSIZE else dc_ConfigSize c)
            (take n (dc_Config c)
             ++ replicate (Z.to_nat SUPLA_DEVICE_CONFIG_MAXSIZE - n) 0))
  else None.

Notation config_call := (multipart_call config_part).

(** [handle_call]: the part is kept, and the call is taken out of the store when it is the last
    one. [address] is the one of a new object. *)
Definition handle_config_call (now : timeval) (address : nat) (config : device_config)
    (calls : list config_call) : option config_call * list config_call :=
  let '(mp_call, calls) := store_get SUPLA_DS_CALL_SET_DEVICE_CONFIG now calls in
  let '(mp_call, calls) :=
    match mp_call with
    | Some c => (c, calls)
    | None => let c := new_multipart_call address SUPLA_DS_CALL_SET_DEVICE_CONFIG 3000 now in
              (c, store_add c calls)
    end in
  let mp_call := part_push (config_part_of config) mp_call in
  let calls := update_first (at_address (mc_address mp_call)) (λ _, mp_call) calls in
  if dc_EndOfDataFlag config =? 0 then (None, calls)
  else (Some mp_call, store_detach (mc_address mp_call) calls).

Section handling.
(** The configuration as a document, what is put into it, and its saving. *)
Context {Json : Type} (new_json : Json) (set_config : device_config → Json → Json)
  (leave_only : Z → Json → Json) (dao_set_device_config : Json → Z → bool).

(** The loop of [handle_multipart_call]: the fields and the available fields are kept in 16
    bits. The result is what is saved, if the last part was found. *)
Fixpoint config_loop (parts : list config_part) (json : Json) (fields available : Z)
    : option (Json * Z) :=
  match parts with
  | [] => None
  | p :: parts =>
      match config_of_part p with
      | None => None
      | Some config =>
          let json := set_config config json in
          let fields := u16 (Z.lor fields (dc_Fields config)) in
          let available := u16 (Z.lor available (dc_AvailableFields config)) in
          if dc_EndOfDataFlag config =? 0 then config_loop parts json fields available
          else Some (leave_only fields json, available)
      end
  end.

Definition handle_multipart_call (c : config_call) : bool :=
  match config_loop (mc_parts c) new_json 0 0 with
  | Some (json, available) => dao_set_device_config json available
  | None => false
  end.

(** *** The parts come together *)

(** The configuration that a part is: what follows the size is not looked at. *)
Definition normal (config : device_config) : device_config :=
  let n := Z.to_nat (Z.min (dc_ConfigSize config) SUPLA_DEVICE_CONFIG_MAXSIZE) in
  DeviceConfig (dc_EndOfDataFlag config) (dc_zero config) (dc_AvailableFields config)
    (dc_Fields config) (Z.min (dc_ConfigSize config) SUPLA_DEVICE_CONFIG_MAXSIZE)
    (take n (dc_Config config) ++ replicate (Z.to_nat SUPLA_DEVICE_CONFIG_MAXSIZE - n) 0).

Lemma part_round_trip config : 0 <= dc_ConfigSize config →
  config_of_part (config_part_of config) = Some (normal config).
Proof.
  intros Hs. unfold config_of_part, config_part_of, normal, SIZEOF_TSDS_SetDeviceConfig,
    SIZEOF_header, SUPLA_DEVICE_CONFIG_MAXSIZE. cbn [cp_size cp_config].
  destruct (Z.ltb_spec (27 + 512) (27 + 512 - 512 + dc_ConfigSize config)) as [H|H].
  - replace (512 <? dc_ConfigSize config) with true by lia. cbn [Z.leb Z.compare andb].
    replace (Z.min (dc_ConfigSize config) 512) with 512 by lia. done.
  - replace (512 <? dc_ConfigSize config) with false by lia.
    replace (27 <=? _) with true by lia. replace (_ <=? 27 + 512) with true by lia. cbn [andb].
    replace (Z.min (dc_ConfigSize config) 512) with (dc_ConfigSize config) by lia.
    by replace (27 + 512 - 512 + dc_ConfigSize config - 27) with (dc_ConfigSize config) by lia.
Qed.

Definition fields_of (configs : list device_config) : Z :=
  foldl (λ f c, u16 (Z.lor f (dc_Fields c))) 0 configs.

Definition available_of (configs : list device_config) : Z :=
  foldl (λ f c, u16 (Z.lor f (dc_AvailableFields c))) 0 configs.

Definition json_of (configs : list device_config) : Json :=
  foldl (λ j c, set_config (normal c) j) new_json configs.

(** A configuration in parts: only the last one says that it is. *)
Definition in_parts (configs : list device_config) (last : device_config) : Prop :=
  Forall (λ c, dc_EndOfDataFlag c = 0) configs ∧ dc_EndOfDataFlag last ≠ 0 ∧
  Forall (λ c, 0 <= dc_ConfigSize c) (configs ++ [last]).

Lemma config_loop_parts configs last json f a : in_parts configs last →
  config_loop (config_part_of <$> configs ++ [last]) json f a
  = Some (leave_only (foldl (λ f c, u16 (Z.lor f (dc_Fields c))) f (configs ++ [last]))
            (foldl (λ j c, set_config (normal c) j) json (configs ++ [last])),
          foldl (λ f c, u16 (Z.lor f (dc_AvailableFields c))) a (configs ++ [last])).
Proof.
  intros (He & Hl & Hs). revert json f a. induction He as [|c configs Hc _ IH]; intros json f a;
    cbn [app fmap list_fmap config_loop foldl] in *; apply Forall_cons in Hs as [Hs1 Hs2];
    rewrite part_round_trip by done; cbn [normal dc_EndOfDataFlag dc_Fields dc_AvailableFields].
  - by replace (dc_EndOfDataFlag last =? 0) with false by lia.
  - rewrite Hc. by apply IH.
Qed.

(** *** Through the store *)

Fixpoint receive_all (l : list (timeval * nat * device_config)) (calls : list config_call)
    : list config_call * list config_call :=
  match l with
  | [] => ([], calls)
  | (now, address, config) :: l =>
      let '(c, calls) := handle_config_call now address config calls in
      let '(cs, calls) := receive_all l calls in (option_list c ++ cs, calls)
  end.

(** No configuration is being received. *)
Definition none_in_progress (calls : list config_call) : Prop :=
  ∀ c, c ∈ calls → mc_call_id c ≠ SUPLA_DS_CALL_SET_DEVICE_CONFIG.

Definition free_address (a : nat) (calls : list config_call) : Prop :=
  ∀ c, c ∈ calls → mc_address c ≠ a.

Definition progress (c : config_call) (config : device_config) (calls : list config_call)
    : option config_call * list config_call :=
  let c := part_push (config_part_of config) c in
  if dc_EndOfDataFlag config =? 0 then (None, calls ++ [c]) else (Some c, calls).

(** The call that is at the end of the store gets the part. *)
Lemma push_last c config calls : free_address (mc_address c) calls →
  let mp_call := part_push (config_part_of config) c in
  let calls' := update_first (at_address (mc_address mp_call)) (λ _, mp_call) (calls ++ [c]) in
  (if dc_EndOfDataFlag config =? 0 then (None, calls')
   else (Some mp_call, store_detach (mc_address mp_call) calls')) = progress c config calls.
Proof.
  intros Ha. unfold progress.
  assert (Hs : ∀ y, y ∈ calls → at_address (mc_address c) y = false).
  { intros y Hy. apply Nat.eqb_neq. by apply Ha. }
  assert (Hc : at_address (mc_address c) c = true) by apply Nat.eqb_refl.
  cbn zeta. change (mc_address (part_push _ c)) with (mc_address c).
  rewrite update_first_skip by done. destruct (_ =? 0); [done|].
  unfold store_detach. rewrite erase_first_skip; [done|done|apply Nat.eqb_refl].
Qed.

Lemma receive_first now a config calls : none_in_progress calls → free_address a calls →
  handle_config_call now a config calls
  = progress (new_multipart_call a SUPLA_DS_CALL_SET_DEVICE_CONFIG 3000 now) config calls.
Proof.
  intros Hn Ha. unfold handle_config_call, store_get.
  assert (E : find_first (of_call SUPLA_DS_CALL_SET_DEVICE_CONFIG) calls = None).
  { apply find_first_None. intros c Hc. unfold of_call. specialize (Hn c Hc). lia. }
  rewrite E. unfold store_add, store_release. cbn [mc_call_id new_multipart_call].
  rewrite erase_first_None by done. exact (push_last (new_multipart_call a _ 3000 now) config calls Ha).
Qed.

Lemma receive_next now a config c calls : none_in_progress calls →
  mc_call_id c = SUPLA_DS_CALL_SET_DEVICE_CONFIG → free_address (mc_address c) calls →
  is_expired now c = false →
  handle_config_call now a config (calls ++ [c]) = progress c config calls.
Proof.
  intros Hn Hc Ha He. unfold handle_config_call, store_get.
  rewrite find_first_skip; [|intros y Hy; unfold of_call; specialize (Hn y Hy); lia
                            |unfold of_call; rewrite Hc; apply Z.eqb_refl].
  rewrite He. exact (push_last c config calls Ha).
Qed.

Lemma receive_expired now a config c calls : none_in_progress calls → free_address a calls →
  mc_call_id c = SUPLA_DS_CALL_SET_DEVICE_CONFIG → is_expired now c = true →
  handle_config_call now a config (calls ++ [c])
  = progress (new_multipart_call a SUPLA_DS_CALL_SET_DEVICE_CONFIG 3000 now) config calls.
Proof.
  intros Hn Ha Hc He. rewrite <- receive_first by done. unfold handle_config_call at 1, store_get.
  rewrite find_first_skip; [|intros y Hy; unfold of_call; specialize (Hn y Hy); lia
                            |unfold of_call; rewrite Hc; apply Z.eqb_refl].
  rewrite He, erase_first_skip; [|intros y Hy; unfold of_call; specialize (Hn y Hy); lia
                            |unfold of_call; rewrite Hc; apply Z.eqb_refl].
  unfold handle_config_call, store_get.
  assert (E : find_first (of_call SUPLA_DS_CALL_SET_DEVICE_CONFIG) calls = None).
  { apply find_first_None. intros y Hy. unfold of_call. specialize (Hn y Hy). lia. }
  by rewrite E.
Qed.

(** What a call has received, when its parts have come. *)
Definition with_parts (ps : list config_part) (c : config_call) : config_call :=
  MultipartCall (mc_address c) (mc_call_id c) (mc_expires_at c) (mc_parts c ++ ps).

Notation configs_of l := (snd <$> l).

Lemma receive_rest l c calls configs last : none_in_progress calls →
  mc_call_id c = SUPLA_DS_CALL_SET_DEVICE_CONFIG → free_address (mc_address c) calls →
  Forall (λ x, usec_of x.1.1 < mc_expires_at c) l → configs_of l = configs ++ [last] →
  Forall (λ c, dc_EndOfDataFlag c = 0) configs → dc_EndOfDataFlag last ≠ 0 →
  receive_all l (calls ++ [c])
  = ([with_parts (config_part_of <$> configs ++ [last]) c], calls).
Proof.
  intros Hn. revert c configs. induction l as [|[[now a] config] l IH];
    intros c configs Hc Ha Ht E He Hl; [by destruct configs|].
  apply Forall_cons in Ht as [Ht Hts]. cbn [fst] in Ht. cbn [receive_all].
  assert (Hx : is_expired now c = false) by (unfold is_expired; lia).
  rewrite (receive_next now a config c calls Hn Hc Ha Hx). unfold progress.
  destruct configs as [|config' configs]; cbn in E; injection E as -> E.
  - apply fmap_nil_inv in E as ->. by replace (dc_EndOfDataFlag last =? 0) with false by lia.
  - apply Forall_cons in He as [He Hes]. rewrite He. cbn [Z.eqb].
    rewrite (IH (part_push (config_part_of config') c) configs) by done.
    cbn [option_list app]. unfold with_parts, part_push. cbn [mc_parts mc_address mc_call_id mc_expires_at].
    by rewrite <- app_assoc.
Qed.

(** Since the first part. *)
Definition in_time (t0 : timeval) (l : list (timeval * nat * device_config)) : Prop :=
  Forall (λ x, usec_of x.1.1 < usec_of t0 + 3000 * 1000) l.

Lemma receive_whole t0 a config l calls configs last : none_in_progress calls →
  free_address a calls → in_time t0 ((t0, a, config) :: l) →
  configs_of ((t0, a, config) :: l) = configs ++ [last] → in_parts configs last →
  receive_all ((t0, a, config) :: l) calls
  = ([with_parts (config_part_of <$> configs ++ [last])
        (new_multipart_call a SUPLA_DS_CALL_SET_DEVICE_CONFIG 3000 t0)], calls).
Proof.
  intros Hn Ha Ht E (He & Hl & _). apply Forall_cons in Ht as [_ Ht]. cbn [receive_all].
  rewrite (receive_first t0 a config calls Hn Ha). unfold progress.
  destruct configs as [|config' configs]; cbn in E; injection E as -> E.
  - apply fmap_nil_inv in E as ->. by replace (dc_EndOfDataFlag last =? 0) with false by lia.
  - apply Forall_cons in He as [He Hes]. rewrite He. cbn [Z.eqb].
    rewrite (receive_rest l _ calls configs last) by done. done.
Qed.

(** What is saved of a configuration, from its parts. *)
Definition saved (configs : list device_config) : bool :=
  dao_set_device_config (leave_only (fields_of configs) (json_of configs)) (available_of configs).

(** C26. A configuration that a device sends in parts is put together again. Whatever other calls
    are in the store, when all parts come within three seconds of the first, nothing is handled
    before the last one; then all of them are put into the document in the order in which they
    were sent, each with the bytes its size tells and no others, what is not among their fields
    is left out, and the store is as it was before. *)
Theorem config_put_together t0 a config l calls configs last :
  none_in_progress calls → free_address a calls → in_time t0 ((t0, a, config) :: l) →
  configs_of ((t0, a, config) :: l) = configs ++ [last] → in_parts configs last →
  ∃ c, receive_all ((t0, a, config) :: l) calls = ([c], calls) ∧
    handle_multipart_call c = saved (configs ++ [last]).
Proof.
  intros Hn Ha Ht E Hp. eexists. split; [by apply (receive_whole t0 a config l calls configs last)|].
  unfold handle_multipart_call, with_parts. cbn [mc_parts new_multipart_call app].
  by rewrite (config_loop_parts configs last new_json 0 0 Hp).
Qed.

(** Parts that come later than three seconds after the first are taken for a configuration of
    their own: the parts before are dropped, and the result says that all is well. *)
Lemma late_parts_alone t0 a0 c0 t1 a1 c1 l calls configs last :
  none_in_progress calls → free_address a0 calls → free_address a1 calls →
  dc_EndOfDataFlag c0 = 0 → usec_of t0 + 3000 * 1000 <= usec_of t1 → in_time t1 ((t1, a1, c1) :: l) →
  configs_of ((t1, a1, c1) :: l) = configs ++ [last] → in_parts configs last →
  ∃ c, receive_all ((t0, a0, c0) :: (t1, a1, c1) :: l) calls = ([c], calls) ∧
    handle_multipart_call c = saved (configs ++ [last]).
Proof.
  intros Hn Ha0 Ha1 H0 Ht Hl E Hp.
  assert (Er : receive_all ((t0, a0, c0) :: (t1, a1, c1) :: l) calls
               = receive_all ((t1, a1, c1) :: l) calls).
  { cbn [receive_all]. rewrite (receive_first t0 a0 c0 calls Hn Ha0). unfold progress. rewrite H0.
    cbn [Z.eqb option_list app]. rewrite (receive_expired t1 a1 c1 _ calls Hn Ha1); [|done|].
    - rewrite (receive_first t1 a1 c1 calls Hn Ha1).
      destruct (progress _ c1 calls) as [c calls']. by destruct (receive_all l calls').
    - unfold is_expired. cbn. lia. }
  rewrite Er. eexists. split; [by apply (receive_whole t1 a1 c1 l calls configs last)|].
  unfold handle_multipart_call, with_parts. cbn [mc_parts new_multipart_call app].
  by rewrite (config_loop_parts configs last new_json 0 0 Hp).
Qed.
End handling.

(** Two parts, the second of which has a size that is too large; the document is the list of the
    fields, which is saved if it has something. *)
Lemma config_put_together_witness :
  let c1 := DeviceConfig 0 (replicate 8 0) 7 1 2 ([1; 2] ++ replicate 510 9) in
  let c2 := DeviceConfig 1 (replicate 8 0) 7 6 700 (replicate 512 3) in
  let l := [(Timeval 12 0, 4%nat, c2)] in
  (none_in_progress [] ∧ free_address 3 [] ∧ in_time (Timeval 10 0) ((Timeval 10 0, 3%nat, c1) :: l) ∧
   in_parts [c1] c2) ∧
  ∃ c, receive_all ((Timeval 10 0, 3%nat, c1) :: l) [] = ([c], []) ∧
    handle_multipart_call [] (λ c j, j ++ [dc_Fields c]) (λ f j, f :: j)
      (λ j a, bool_decide (j = [7; 1; 6]) && (a =? 7)) c
    = saved [] (λ c j, j ++ [dc_Fields c]) (λ f j, f :: j)
      (λ j a, bool_decide (j = [7; 1; 6]) && (a =? 7)) ([c1] ++ [c2]).
Proof.
  intros c1 c2 l. assert (Hp : in_parts [c1] c2) by (split_and!; [by repeat constructor|done|repeat constructor; done]).
  assert (Ht : in_time (Timeval 10 0) ((Timeval 10 0, 3%nat, c1) :: l)) by (repeat constructor).
  assert (Hn : none_in_progress []) by (intros c Hc; inversion Hc).
  assert (Ha : free_address 3 []) by (intros c Hc; inversion Hc).
  split; [done|].
  exact (config_put_together _ _ _ _ (Timeval 10 0) 3 c1 l [] [c1] c2 Hn Ha Ht eq_refl Hp).
Defined.
