(* ===== verification/ExtValue.v ===== *)
(** * ExtValue: extended values, the srpc_evtool functions of srpc.c

    An extended value is a type, a size and at most 1024 bytes: the measurements of
    an electricity meter in one of three versions, the state of a thermostat or of a
    counter, or several extended values one after the other. A structure is the
    list of its bytes; a pointer is [None] when it is null; a function returns its
    result and what it leaves in the structure it writes, and [None] when it
    accesses memory out of the structures. *)

From stdpp Require Import strings.
From S2P Require Import Prelude CLayout CMembers ProtoTypes.

#[local] Open Scope list_scope.
#[local] Open Scope Z_scope.

Definition EV_TYPE_NONE : Z := 0.
Definition EV_TYPE_ELECTRICITY_METER_MEASUREMENT_V1 : Z := 10.
Definition EV_TYPE_ELECTRICITY_METER_MEASUREMENT_V2 : Z := 12.
Definition EV_TYPE_ELECTRICITY_METER_MEASUREMENT_V3 : Z := 14.
Definition EV_TYPE_IMPULSE_COUNTER_DETAILS_V1 : Z := 20.
Definition EV_TYPE_THERMOSTAT_DETAILS_V1 : Z := 30.
Definition EV_TYPE_MULTI_VALUE : Z := 100.

Definition EM_VAR_FORWARD_ACTIVE_ENERGY_BALANCED : Z := 0x2000.
Definition EM_VAR_REVERSE_ACTIVE_ENERGY_BALANCED : Z := 0x4000.
Definition EM_VAR_VOLTAGE_PHASE_ANGLE_12 : Z := 0x10000.
Definition EM_VAR_VOLTAGE_PHASE_ANGLE_13 : Z := 0x20000.
Definition EM_VAR_VOLTAGE_PHASE_SEQUENCE : Z := 0x40000.
Definition EM_VAR_CURRENT_PHASE_SEQUENCE : Z := 0x80000.

Definition THERMOSTAT_FIELD_MeasuredTemperatures : Z := 0x01.
Definition THERMOSTAT_FIELD_PresetTemperatures : Z := 0x02.
Definition THERMOSTAT_FIELD_Flags : Z := 0x04.
Definition THERMOSTAT_FIELD_Values : Z := 0x08.
Definition THERMOSTAT_FIELD_Time : Z := 0x10.
Definition THERMOSTAT_FIELD_Schedule : Z := 0x20.

Notation EV := TSuplaChannelExtendedValue.
Notation outcome := (option (Z * option (list Z))).

Definition zeros (n : Z) : list Z := replicate (Z.to_nat n) 0.

(** "memset(p, 0, sizeof(t))" *)
Definition memset0 (t : ctype) (mem : list Z) : option (list Z) :=
  memcpy_to mem 0 (zeros (sizeof t)) (sizeof t).

(** "memcpy(ev->value, p, n)" and "memcpy(p, ev->value, n)" *)
Definition write_value (p : list Z) (n : Z) (ev : list Z) : option (list Z) :=
  '(o, _) ← member "value"%string EV; memcpy_to ev o p n.

Definition read_value (n : Z) (ev : list Z) : option (list Z) :=
  '(o, _) ← member "value"%string EV; read_at ev o n.

(** ** Electricity meters *)

(** The size of a structure with [m_count] measurements, in [size_t]. *)
Definition em_size (t : ctype) (m_count : Z) : Z :=
  u64 (sizeof t - sizeof TElectricityMeter_Measurement * EM_MEASUREMENT_COUNT
       + u64 (sizeof TElectricityMeter_Measurement * m_count)).

Definition emextended2extended (t : ctype) (ev_type : Z) (em_ev ev : option (list Z))
    : outcome :=
  match em_ev, ev with
  | Some em, Some e =>
      m_count ← value_of ["m_count"%string] t 0 em;
      if (EM_MEASUREMENT_COUNT <? m_count) || (m_count <? 0) then Some (0, ev)
      else
        e ← memset0 EV e;
        e ← assign ["type"%string] EV 0 ev_type e;
        let size := u32 (em_size t m_count) in
        e ← assign ["size"%string] EV 0 size e;
        if (0 <? size) && (size <=? SUPLA_CHANNELEXTENDEDVALUE_SIZE) then
          e ← write_value em size e; Some (1, Some e)
        else e ← assign ["size"%string] EV 0 0 e; Some (0, Some e)
  | _, _ => Some (0, ev)
  end.

Definition extended2emextended (t : ctype) (ev_type : Z) (ev em_ev : option (list Z))
    : outcome :=
  match em_ev, ev with
  | Some em, Some e =>
      type ← value_of ["type"%string] EV 0 e;
      size ← value_of ["size"%string] EV 0 e;
      if negb (type =? ev_type) || (size =? 0) || (sizeof t <? size) then Some (0, em_ev)
      else
        em ← memset0 t em;
        v ← read_value size e;
        em ← memcpy_to em 0 v size;
        m_count ← value_of ["m_count"%string] t 0 em;
        let expected_size :=
          if m_count <=? EM_MEASUREMENT_COUNT then i32 (em_size t m_count) else 0 in
        if negb (size =? u32 expected_size) then em ← memset0 t em; Some (0, Some em)
        else Some (1, Some em)
  | _, _ => Some (0, em_ev)
  end.

Definition srpc_evtool_v1_emextended2extended : option (list Z) → option (list Z) → outcome :=
  emextended2extended TElectricityMeter_ExtendedValue EV_TYPE_ELECTRICITY_METER_MEASUREMENT_V1.
Definition srpc_evtool_v2_emextended2extended : option (list Z) → option (list Z) → outcome :=
  emextended2extended TElectricityMeter_ExtendedValue_V2
    EV_TYPE_ELECTRICITY_METER_MEASUREMENT_V2.
Definition srpc_evtool_v3_emextended2extended : option (list Z) → option (list Z) → outcome :=
  emextended2extended TElectricityMeter_ExtendedValue_V3
    EV_TYPE_ELECTRICITY_METER_MEASUREMENT_V3.
Definition srpc_evtool_v1_extended2emextended : option (list Z) → option (list Z) → outcome :=
  extended2emextended TElectricityMeter_ExtendedValue EV_TYPE_ELECTRICITY_METER_MEASUREMENT_V1.
Definition srpc_evtool_v2_extended2emextended : option (list Z) → option (list Z) → outcome :=
  extended2emextended TElectricityMeter_ExtendedValue_V2
    EV_TYPE_ELECTRICITY_METER_MEASUREMENT_V2.
Definition srpc_evtool_v3_extended2emextended : option (list Z) → option (list Z) → outcome :=
  extended2emextended TElectricityMeter_ExtendedValue_V3
    EV_TYPE_ELECTRICITY_METER_MEASUREMENT_V3.

(** The members that EMEV_COPY copies, in its order. *)
Definition emev_copied : list string :=
  ["total_forward_active_energy"; "total_reverse_active_energy";
   "total_forward_reactive_energy"; "total_reverse_reactive_energy"; "total_cost";
   "price_per_unit"; "currency"; "measured_values"; "period"; "m_count"; "m"]%string.

Definition EMEV_COPY (s t : ctype) (source dest : list Z) : option (list Z) :=
  dest ← memset0 t dest; copy_members emev_copied s t source dest.

(** "p->measured_values ^= p->measured_values & flag" *)
Definition clear_measured (t : ctype) (flag : Z) (mem : list Z) : option (list Z) :=
  v ← value_of ["measured_values"%string] t 0 mem;
  assign ["measured_values"%string] t 0 (Z.lxor v (Z.land v flag)) mem.

Fixpoint clear_all_measured (t : ctype) (flags : list Z) (mem : list Z) : option (list Z) :=
  match flags with
  | [] => Some mem
  | flag :: flags => mem ← clear_measured t flag mem; clear_all_measured t flags mem
  end.

Definition balanced_flags : list Z :=
  [EM_VAR_FORWARD_ACTIVE_ENERGY_BALANCED; EM_VAR_REVERSE_ACTIVE_ENERGY_BALANCED].

Definition phase_flags : list Z :=
  [EM_VAR_VOLTAGE_PHASE_ANGLE_12; EM_VAR_VOLTAGE_PHASE_ANGLE_13;
   EM_VAR_VOLTAGE_PHASE_SEQUENCE; EM_VAR_CURRENT_PHASE_SEQUENCE].

(** The members that the second and the third version have besides. *)
Definition balanced_members : list string :=
  ["total_forward_active_energy_balanced"; "total_reverse_active_energy_balanced";
   "total_cost_balanced"]%string.

(** A conversion: EMEV_COPY, more members, flags that are cleared. *)
Definition emev_convert (s t : ctype) (more : list string) (flags : list Z)
    (source dest : option (list Z)) : outcome :=
  match source, dest with
  | Some v, Some d =>
      d ← EMEV_COPY s t v d;
      d ← copy_members more s t v d;
      d ← clear_all_measured t flags d;
      Some (1, Some d)
  | _, _ => Some (0, dest)
  end.

Definition srpc_evtool_emev_v1to2 : option (list Z) → option (list Z) → outcome :=
  emev_convert TElectricityMeter_ExtendedValue TElectricityMeter_ExtendedValue_V2
    [] balanced_flags.
Definition srpc_evtool_emev_v2to1 : option (list Z) → option (list Z) → outcome :=
  emev_convert TElectricityMeter_ExtendedValue_V2 TElectricityMeter_ExtendedValue
    [] balanced_flags.
Definition srpc_evtool_emev_v2to3 : option (list Z) → option (list Z) → outcome :=
  emev_convert TElectricityMeter_ExtendedValue_V2 TElectricityMeter_ExtendedValue_V3
    balanced_members phase_flags.
Definition srpc_evtool_emev_v3to2 : option (list Z) → option (list Z) → outcome :=
  emev_convert TElectricityMeter_ExtendedValue_V3 TElectricityMeter_ExtendedValue_V2
    balanced_members phase_flags.

Definition em_zero (t : ctype) : option (list Z) := Some (zeros (sizeof t)).

(** "a && b": the second call is made when the first one returned non-zero. *)
Definition and_then (r : outcome) (k : option (list Z) → outcome) (kept : option (list Z))
    : outcome :=
  '(ok, out) ← r; if ok =? 0 then Some (0, kept) else k out.

(** [ev->type] follows the pointer also when it is null. *)
Definition srpc_evtool_extended2emextended_latest (ev em_ev : option (list Z)) : outcome :=
  '(ok, em_ev) ← srpc_evtool_v3_extended2emextended ev em_ev;
  if negb (ok =? 0) then Some (1, em_ev)
  else
    e ← ev;
    type ← value_of ["type"%string] EV 0 e;
    if type =? EV_TYPE_ELECTRICITY_METER_MEASUREMENT_V2 then
      and_then (srpc_evtool_v2_extended2emextended ev
                  (em_zero TElectricityMeter_ExtendedValue_V2))
        (λ em_ev2, srpc_evtool_emev_v2to3 em_ev2 em_ev) em_ev
    else if type =? EV_TYPE_ELECTRICITY_METER_MEASUREMENT_V1 then
      and_then (srpc_evtool_v1_extended2emextended ev
                  (em_zero TElectricityMeter_ExtendedValue))
        (λ em_ev1, and_then (srpc_evtool_emev_v1to2 em_ev1
                               (em_zero TElectricityMeter_ExtendedValue_V2))
                     (λ em_ev2, srpc_evtool_emev_v2to3 em_ev2 em_ev) em_ev) em_ev
    else Some (0, em_ev).

(** ** Thermostats and counters *)

Definition srpc_evtool_v1_extended2thermostatextended (ev th_ev : option (list Z)) : outcome :=
  match ev, th_ev with
  | Some e, Some th =>
      type ← value_of ["type"%string] EV 0 e;
      size ← value_of ["size"%string] EV 0 e;
      if negb (type =? EV_TYPE_THERMOSTAT_DETAILS_V1) || (size =? 0)
         || (sizeof TThermostat_ExtendedValue <? size) then Some (0, th_ev)
      else
        th ← memset0 TThermostat_ExtendedValue th;
        v ← read_value size e;
        th ← memcpy_to th 0 v size;
        Some (1, Some th)
  | _, _ => Some (0, th_ev)
  end.

(** The members after [Fields] with their flags, from the last one: a member is cut
    off when neither it nor one after it is flagged. *)
Definition thermostat_fields : list (Z * string) :=
  [(THERMOSTAT_FIELD_Schedule, "Schedule"); (THERMOSTAT_FIELD_Time, "Time");
   (THERMOSTAT_FIELD_Values, "Values"); (THERMOSTAT_FIELD_Flags, "Flags");
   (THERMOSTAT_FIELD_PresetTemperatures, "PresetTemperature");
   (THERMOSTAT_FIELD_MeasuredTemperatures, "MeasuredTemperature")]%string.

Fixpoint thermostat_size (fields : Z) (l : list (Z * string)) (size : Z) : option Z :=
  match l with
  | [] => Some size
  | (flag, f) :: l =>
      if 0 =? Z.land fields flag then
        '(_, m) ← member f TThermostat_ExtendedValue;
        thermostat_size fields l (u32 (size - sizeof m))
      else Some size
  end.

Definition srpc_evtool_v1_thermostatextended2extended (th_ev ev : option (list Z)) : outcome :=
  match th_ev, ev with
  | Some th, Some e =>
      e ← memset0 EV e;
      e ← assign ["type"%string] EV 0 EV_TYPE_THERMOSTAT_DETAILS_V1 e;
      e ← assign ["size"%string] EV 0 0 e;
      fields ← value_of ["Fields"%string] TThermostat_ExtendedValue 0 th;
      size ← thermostat_size fields thermostat_fields (sizeof TThermostat_ExtendedValue);
      if 0 <? size then
        e ← assign ["size"%string] EV 0 size e;
        e ← write_value th size e;
        Some (1, Some e)
      else Some (0, Some e)
  | _, _ => Some (0, ev)
  end.

Definition srpc_evtool_v1_icextended2extended (ic_ev ev : option (list Z)) : outcome :=
  match ic_ev, ev with
  | Some ic, Some e =>
      e ← memset0 EV e;
      e ← assign ["type"%string] EV 0 EV_TYPE_IMPULSE_COUNTER_DETAILS_V1 e;
      e ← assign ["size"%string] EV 0 (sizeof TSC_ImpulseCounter_ExtendedValue) e;
      e ← write_value ic (sizeof TSC_ImpulseCounter_ExtendedValue) e;
      Some (1, Some e)
  | _, _ => Some (0, ev)
  end.

Definition srpc_evtool_v1_extended2icextended (ev ic_ev : option (list Z)) : outcome :=
  match ic_ev, ev with
  | Some ic, Some e =>
      type ← value_of ["type"%string] EV 0 e;
      size ← value_of ["size"%string] EV 0 e;
      if negb (type =? EV_TYPE_IMPULSE_COUNTER_DETAILS_V1) || (size =? 0)
         || negb (size =? sizeof TSC_ImpulseCounter_ExtendedValue) then Some (0, ic_ev)
      else
        ic ← memset0 TSC_ImpulseCounter_ExtendedValue ic;
        v ← read_value size e;
        ic ← memcpy_to ic 0 v size;
        Some (1, Some ic)
  | _, _ => Some (0, ic_ev)
  end.

(** ** Several values in one *)

(** "sizeof(TSuplaChannelExtendedValue) - (sizeof(value) - size)", kept in an
    unsigned int: the bytes of a value in use. *)
Definition used_size (size : Z) : Z :=
  u32 (u64 (sizeof EV - u64 (SUPLA_CHANNELEXTENDEDVALUE_SIZE - size))).

(** [fuel]: the function calls itself once, after it made [dest] a value of several
    values. *)
Fixpoint value_add (fuel : nat) (dest src : option (list Z)) : outcome :=
  match fuel with
  | 0%nat => None
  | S fuel =>
      match dest, src with
      | Some d, Some s =>
          src_type ← value_of ["type"%string] EV 0 s;
          size ← value_of ["size"%string] EV 0 s;
          if (src_type =? EV_TYPE_NONE) || (size =? 0) then Some (0, dest)
          else
            type ← value_of ["type"%string] EV 0 d;
            if type =? EV_TYPE_NONE then d ← memcpy_to d 0 s (sizeof EV); Some (1, Some d)
            else
              let src_size := used_size size in
              dest_size ← value_of ["size"%string] EV 0 d;
              if type =? EV_TYPE_MULTI_VALUE then
                if SUPLA_CHANNELEXTENDEDVALUE_SIZE <? u32 (dest_size + src_size)
                then Some (0, dest)
                else
                  '(o, _) ← member "value"%string EV;
                  d ← memcpy_to d (o + dest_size) s src_size;
                  d ← assign ["size"%string] EV 0 (u32 (dest_size + src_size)) d;
                  Some (1, Some d)
              else
                let prev_size := used_size dest_size in
                if SUPLA_CHANNELEXTENDEDVALUE_SIZE <? u32 (prev_size + src_size)
                then Some (0, dest)
                else
                  prev ← read_at d 0 (sizeof EV);
                  d ← assign ["type"%string] EV 0 EV_TYPE_MULTI_VALUE d;
                  d ← assign ["size"%string] EV 0 prev_size d;
                  d ← write_value prev prev_size d;
                  value_add fuel (Some d) src
      | _, _ => Some (0, dest)
      end
  end.

Definition srpc_evtool_value_add : option (list Z) → option (list Z) → outcome := value_add 2.

Definition header_size : Z := sizeof EV - SUPLA_CHANNELEXTENDEDVALUE_SIZE.

(** How the loop ends: with a return, with its condition, with an access out of the
    structures, or without fuel. *)
Inductive get_result :=
  | GReturn (result : Z) (dest : list Z)
  | GExit
  | GFault
  | GFuel.

Fixpoint value_get_loop (fuel : nat) (ev : list Z) (size index : Z) (dest : list Z)
    (offset n : Z) : get_result :=
  match fuel with
  | 0%nat => GFuel
  | S fuel =>
      if offset <? size then
        match value_of ["type"%string] EV (header_size + offset) ev with
        | None => GFault
        | Some type =>
            if type =? EV_TYPE_NONE then GReturn 0 dest
            else
              match value_of ["size"%string] EV (header_size + offset) ev with
              | None => GFault
              | Some next_size =>
                  if (next_size =? 0)
                     || (SUPLA_CHANNELEXTENDEDVALUE_SIZE
                         <? u32 (u32 (next_size + offset) + header_size))
                  then GReturn 0 dest
                  else
                    let len := u32 (header_size + next_size) in
                    if n =? index then
                      match (b ← read_at ev (header_size + offset) len;
                             memcpy_to dest 0 b len) with
                      | Some dest => GReturn 1 dest
                      | None => GFault
                      end
                    else value_get_loop fuel ev size index dest (u32 (offset + len))
                           (u16 (n + 1))
              end
        end
      else GExit
  end.

(** [index] is an unsigned short. The loop returns at the latest when [n] is [index]. *)
Definition srpc_evtool_value_get (ev : option (list Z)) (index : Z) (dest : option (list Z))
    : outcome :=
  match dest, ev with
  | Some d, Some e =>
      type ← value_of ["type"%string] EV 0 e;
      let first :=
        if index =? 0 then
          b ← read_at e 0 (sizeof EV); d ← memcpy_to d 0 b (sizeof EV); Some (1, Some d)
        else Some (0, dest) in
      if type =? EV_TYPE_NONE then Some (0, dest)
      else if type =? EV_TYPE_MULTI_VALUE then
        size ← value_of ["size"%string] EV 0 e;
        let size := if SUPLA_CHANNELEXTENDEDVALUE_SIZE <? size
                    then SUPLA_CHANNELEXTENDEDVALUE_SIZE else size in
        match value_get_loop (S (Z.to_nat index)) e (u32 (size - header_size)) index d 0 0 with
        | GReturn r d => Some (r, Some d)
        | GExit => first
        | GFault | GFuel => None
        end
      else first
  | _, _ => Some (0, dest)
  end.

(** ** The memory of an extended value *)

Definition ev_mem (type size : Z) (v : list Z) : list Z := [type] ++ to_le 4 size ++ v.

Section memory.
Local Arguments to_le : simpl never.
Local Arguments of_le : simpl never.

Lemma zeros_length n : 0 <= n → Z.of_nat (length (zeros n)) = n.
Proof. intros. unfold zeros. rewrite length_replicate. lia. Qed.

Lemma memset0_zeros t mem :
  0 <= sizeof t → Z.of_nat (length mem) = sizeof t → memset0 t mem = Some (zeros (sizeof t)).
Proof.
  intros Ht Hl. pose proof (zeros_length _ Ht). unfold memset0.
  rewrite memcpy_to_Some by lia. rewrite Z.add_0_l, drop_ge, app_nil_r by lia.
  by rewrite (take_ge (zeros _)) by lia.
Qed.

Lemma read_at_app {A} (pre b rest : list A) o n :
  o = Z.of_nat (length pre) → n = Z.of_nat (length b) →
  read_at (pre ++ b ++ rest) o n = Some b.
Proof.
  intros -> ->. rewrite read_at_Some by (rewrite ?length_app; lia).
  rewrite drop_app_length' by lia. by rewrite take_app_length' by lia.
Qed.

Lemma memcpy_to_app {A} (pre b rest src : list A) o n :
  o = Z.of_nat (length pre) → n = Z.of_nat (length b) → n <= Z.of_nat (length src) →
  memcpy_to (pre ++ b ++ rest) o src n = Some (pre ++ take (Z.to_nat n) src ++ rest).
Proof.
  intros -> -> ?. rewrite memcpy_to_Some by (rewrite ?length_app; lia).
  rewrite take_app_length' by lia. do 3 f_equal.
  rewrite drop_app_ge by lia. rewrite drop_app_length' by lia. done.
Qed.

Lemma ev_type_at pre t sz v rest :
  value_of ["type"%string] EV (Z.of_nat (length pre)) (pre ++ ev_mem t sz v ++ rest)
  = Some (to_signed 1 t).
Proof.
  change (value_of ["type"%string] EV (Z.of_nat (length pre)) (pre ++ ev_mem t sz v ++ rest))
    with (int_at (Z.of_nat (length pre) + 0) schar (pre ++ ev_mem t sz v ++ rest)).
  unfold ev_mem. rewrite Z.add_0_r, <- !app_assoc. unfold int_at, schar.
  rewrite (read_at_app pre [t]) by done. cbn. unfold of_le. do 2 f_equal. lia.
Qed.

Lemma ev_size_at pre t sz v rest : is_u32 sz →
  value_of ["size"%string] EV (Z.of_nat (length pre)) (pre ++ ev_mem t sz v ++ rest)
  = Some sz.
Proof.
  intros Hsz.
  change (value_of ["size"%string] EV (Z.of_nat (length pre)) (pre ++ ev_mem t sz v ++ rest))
    with (int_at (Z.of_nat (length pre) + (1 + 0)) uint32 (pre ++ ev_mem t sz v ++ rest)).
  unfold ev_mem, int_at, uint32. rewrite <- !app_assoc, (app_assoc pre [t]).
  rewrite (read_at_app (pre ++ [t]) (to_le 4 sz))
    by (rewrite ?length_app, ?to_le_length; cbn; lia).
  cbn [mbind option_bind]. by rewrite of_to_le by (unfold is_u32 in Hsz; cbn; lia).
Qed.

Lemma ev_type t sz v : value_of ["type"%string] EV 0 (ev_mem t sz v) = Some (to_signed 1 t).
Proof. pose proof (ev_type_at [] t sz v []) as H. by rewrite app_nil_r in H. Qed.

Lemma ev_size t sz v : is_u32 sz →
  value_of ["size"%string] EV 0 (ev_mem t sz v) = Some sz.
Proof.
  intros Hsz. pose proof (ev_size_at [] t sz v [] Hsz) as H. by rewrite app_nil_r in H.
Qed.

Lemma ev_assign_type t sz v t' :
  assign ["type"%string] EV 0 t' (ev_mem t sz v) = Some (ev_mem (t' mod 256) sz v).
Proof.
  change (assign ["type"%string] EV 0 t' (ev_mem t sz v))
    with (memcpy_to ([] ++ [t] ++ to_le 4 sz ++ v) 0 (to_le 1 t') 1).
  by rewrite memcpy_to_app.
Qed.

Lemma ev_assign_size t sz v sz' :
  assign ["size"%string] EV 0 sz' (ev_mem t sz v) = Some (ev_mem t sz' v).
Proof.
  change (assign ["size"%string] EV 0 sz' (ev_mem t sz v))
    with (memcpy_to ([t] ++ to_le 4 sz ++ v) 1 (to_le 4 sz') 4).
  rewrite memcpy_to_app by (rewrite ?to_le_length; cbn; lia).
  by rewrite take_ge by (rewrite to_le_length; cbn; lia).
Qed.

(** Writing and reading at an offset of the value. *)
Lemma ev_write_at o t sz v p n :
  0 <= o → 0 <= n → n <= Z.of_nat (length p) → o + n <= Z.of_nat (length v) →
  memcpy_to (ev_mem t sz v) (5 + o) p n =
  Some (ev_mem t sz (take (Z.to_nat o) v ++ take (Z.to_nat n) p
                     ++ drop (Z.to_nat (o + n)) v)).
Proof.
  intros. rewrite <- (take_drop (Z.to_nat (o + n)) v) at 1.
  rewrite <- (take_drop (Z.to_nat o) (take (Z.to_nat (o + n)) v)).
  rewrite take_take, <- app_assoc. replace (Z.to_nat o `min` Z.to_nat (o + n))%nat
    with (Z.to_nat o) by lia.
  unfold ev_mem. rewrite !(app_assoc [t]), (app_assoc _ (take _ _)).
  rewrite memcpy_to_app; [by rewrite <- !app_assoc| | |done].
  - rewrite !length_app, to_le_length, length_take. cbn [length]. lia.
  - rewrite length_drop, length_take. lia.
Qed.

Lemma ev_write_value t sz v p n :
  0 <= n → n <= Z.of_nat (length p) → n <= Z.of_nat (length v) →
  write_value p n (ev_mem t sz v) =
  Some (ev_mem t sz (take (Z.to_nat n) p ++ drop (Z.to_nat n) v)).
Proof. intros. apply (ev_write_at 0); lia. Qed.

Lemma ev_read_value t sz v n :
  0 <= n → n <= Z.of_nat (length v) →
  read_value n (ev_mem t sz v) = Some (take (Z.to_nat n) v).
Proof.
  intros. change (read_value n (ev_mem t sz v)) with (read_at (ev_mem t sz v) 5 n).
  unfold ev_mem. rewrite <- (take_drop (Z.to_nat n) v) at 1. rewrite app_assoc.
  apply read_at_app; rewrite ?length_app, ?to_le_length, ?length_take; cbn [length]; lia.
Qed.

Lemma ev_mem_length t sz v : length (ev_mem t sz v) = (5 + length v)%nat.
Proof. unfold ev_mem. by rewrite !length_app, to_le_length. Qed.

Lemma ev_zeros : zeros (sizeof EV) = ev_mem 0 0 (zeros SUPLA_CHANNELEXTENDEDVALUE_SIZE).
Proof. done. Qed.

(** Every block of bytes that is long enough is the memory of an extended value. *)
Lemma ev_mem_intro e :
  Forall is_u8 e → (5 <= length e)%nat →
  ∃ t sz v, e = ev_mem t sz v ∧ is_u8 t ∧ is_u32 sz ∧ Forall is_u8 v.
Proof.
  intros He Hl. destruct e as [|t e]; [cbn in Hl; lia|]. apply Forall_cons in He as [Ht He].
  exists t, (of_le (take 4 e)), (drop 4 e). cbn [length] in Hl.
  assert (H4 : length (take 4 e) = 4%nat) by (rewrite length_take; lia).
  pose proof (of_le_range _ (Forall_take _ 4 _ He)) as Hr. rewrite H4 in Hr.
  split; [|split; [done|split; [unfold is_u32; cbn in Hr; lia|by apply Forall_drop]]].
  unfold ev_mem. rewrite <- H4 at 1. rewrite to_of_le by by apply Forall_take.
  by rewrite take_drop.
Qed.
End memory.

(** ** Measurements of electricity meters *)

(** The three versions, to state theorems about all of them. *)
Inductive em_version := EM1 | EM2 | EM3.

Definition em_type (a : em_version) : ctype :=
  match a with
  | EM1 => TElectricityMeter_ExtendedValue
  | EM2 => TElectricityMeter_ExtendedValue_V2
  | EM3 => TElectricityMeter_ExtendedValue_V3
  end.

Definition em_ev_type (a : em_version) : Z :=
  match a with
  | EM1 => EV_TYPE_ELECTRICITY_METER_MEASUREMENT_V1
  | EM2 => EV_TYPE_ELECTRICITY_METER_MEASUREMENT_V2
  | EM3 => EV_TYPE_ELECTRICITY_METER_MEASUREMENT_V3
  end.

(** The size without measurements, which [m_count] ends. *)
Definition em_base (a : em_version) : Z := match a with EM1 => 119 | EM2 => 139 | EM3 => 144 end.

Notation em_value a mem := (value_of ["m_count"%string] (em_type a) 0 mem).

(** What arrives of the [n] bytes [v], in a structure of the version. *)
Definition em_received (a : em_version) (n : Z) (v : list Z) : list Z :=
  take (Z.to_nat n) v ++ zeros (sizeof (em_type a) - n).

Lemma em_layout a :
  flat (em_type a) = true ∧ sizeof (em_type a) = em_base a + 310 ∧ 119 <= em_base a <= 144 ∧
  member "m_count"%string (em_type a) = Some (em_base a - 4, int32) ∧
  0 <= em_ev_type a < 128.
Proof. destruct a; repeat split; by vm_compute. Qed.

Lemma em_member_end a : member_end ["m_count"%string] (em_type a) = Some (em_base a).
Proof. by destruct a. Qed.

Lemma u32_u64 z : u32 (u64 z) = u32 z.
Proof.
  unfold u32, u64. change (2 ^ 64) with (2 ^ 32 * 2 ^ 32).
  rewrite (Z.rem_mul_r z (2 ^ 32)) by lia.
  rewrite Z.add_mod, Z.mul_comm, Z.mod_mul, Z.add_0_r, !Z.mod_mod by lia. done.
Qed.

Lemma u32_i32 z : u32 (i32 z) = u32 z.
Proof.
  unfold u32, i32. rewrite Zminus_mod_idemp_l. f_equal. lia.
Qed.

Lemma em_size_u32 a k : u32 (em_size (em_type a) k) = u32 (em_base a + 62 * k).
Proof.
  destruct (em_layout a) as (_ & Hs & _). unfold em_size. rewrite u32_u64, Hs.
  change (sizeof TElectricityMeter_Measurement) with 62.
  change (62 * EM_MEASUREMENT_COUNT) with 310.
  unfold u32. rewrite Z.add_mod by lia. fold (u32 (u64 (62 * k))). rewrite u32_u64. unfold u32.
  rewrite <- Z.add_mod by lia. f_equal. lia.
Qed.

Lemma m_count_read a mem :
  Z.of_nat (length mem) = sizeof (em_type a) → is_Some (em_value a mem).
Proof.
  intros Hl. destruct (em_layout a) as (_ & Hs & Hb & Hm & _).
  unfold value_of. cbn [place]. rewrite Hm. cbn. rewrite read_at_Some by lia. by eexists.
Qed.

Lemma emextended2extended_ok a em ev k :
  Z.of_nat (length em) = sizeof (em_type a) → em_value a em = Some k →
  0 <= k <= EM_MEASUREMENT_COUNT → Z.of_nat (length ev) = sizeof EV →
  emextended2extended (em_type a) (em_ev_type a) (Some em) (Some ev) =
  Some (1, Some (ev_mem (em_ev_type a) (em_base a + 62 * k)
                   (take (Z.to_nat (em_base a + 62 * k)) em
                    ++ zeros (SUPLA_CHANNELEXTENDEDVALUE_SIZE - (em_base a + 62 * k))))).
Proof.
  intros Hl Hk Hr He. destruct (em_layout a) as (_ & Hs & Hb & _ & Hty).
  assert (Hr' : 0 <= k <= 5) by exact Hr. unfold emextended2extended. rewrite Hk.
  cbn [mbind option_bind].
  replace ((EM_MEASUREMENT_COUNT <? k) || (k <? 0))%bool with false by lia.
  rewrite memset0_zeros, ev_zeros by done. cbn [mbind option_bind].
  rewrite ev_assign_type. cbn [mbind option_bind]. rewrite ev_assign_size. cbn [mbind option_bind].
  rewrite em_size_u32, u32_id by (unfold is_u32; lia).
  unfold SUPLA_CHANNELEXTENDEDVALUE_SIZE.
  replace ((0 <? em_base a + 62 * k) && (em_base a + 62 * k <=? 1024))%bool with true by lia.
  rewrite ev_write_value by (rewrite ?zeros_length by lia; lia). cbn [mbind option_bind].
  rewrite Z.mod_small by lia. unfold zeros. rewrite drop_replicate. do 6 f_equal. lia.
Qed.

Lemma emextended2extended_refuses a em ev k :
  em_value a em = Some k → ¬ 0 <= k <= EM_MEASUREMENT_COUNT →
  emextended2extended (em_type a) (em_ev_type a) (Some em) (Some ev) = Some (0, Some ev).
Proof.
  intros Hk Hr. unfold emextended2extended. rewrite Hk. cbn [mbind option_bind].
  by replace ((EM_MEASUREMENT_COUNT <? k) || (k <? 0))%bool with true by lia.
Qed.

Lemma em_received_length a n v :
  0 <= n <= sizeof (em_type a) → n <= Z.of_nat (length v) →
  Z.of_nat (length (em_received a n v)) = sizeof (em_type a).
Proof.
  intros. unfold em_received. rewrite length_app, length_take, Nat2Z.inj_add, zeros_length by lia.
  lia.
Qed.

Lemma extended2emextended_cases a t sz v em :
  Z.of_nat (length em) = sizeof (em_type a) → is_u32 sz → sz <= Z.of_nat (length v) →
  extended2emextended (em_type a) (em_ev_type a) (Some (ev_mem t sz v)) (Some em) =
  if negb (to_signed 1 t =? em_ev_type a) || (sz =? 0) || (sizeof (em_type a) <? sz)
  then Some (0, Some em)
  else
    k ← em_value a (em_received a sz v);
    if (k <=? EM_MEASUREMENT_COUNT) && (sz =? u32 (em_base a + 62 * k))
    then Some (1, Some (em_received a sz v))
    else Some (0, Some (zeros (sizeof (em_type a)))).
Proof.
  intros Hl Hsz Hv. destruct (em_layout a) as (_ & Hs & Hb & _ & _).
  unfold extended2emextended. rewrite ev_type, ev_size by done. cbn [mbind option_bind].
  destruct (negb (to_signed 1 t =? em_ev_type a) || (sz =? 0) || (sizeof (em_type a) <? sz))
    eqn:E; [done|].
  assert (Hz : 0 < sz <= sizeof (em_type a)) by (unfold is_u32 in Hsz; lia).
  rewrite memset0_zeros by lia. cbn [mbind option_bind].
  rewrite ev_read_value by lia. cbn [mbind option_bind].
  assert (Hm : memcpy_to (zeros (sizeof (em_type a))) 0 (take (Z.to_nat sz) v) sz
               = Some (em_received a sz v)).
  { rewrite memcpy_to_Some by (rewrite ?zeros_length, ?length_take by lia; lia).
    rewrite take_take, Nat.min_id. change (Z.to_nat 0) with 0%nat. rewrite take_0, app_nil_l.
    unfold em_received, zeros. rewrite drop_replicate. do 3 f_equal. lia. }
  rewrite Hm. cbn [mbind option_bind].
  pose proof (em_received_length a sz v ltac:(lia) Hv) as Hrl.
  destruct (m_count_read a _ Hrl) as [k Hk]. rewrite Hk. cbn [mbind option_bind].
  destruct (k <=? EM_MEASUREMENT_COUNT) eqn:Ek.
  - rewrite u32_i32, em_size_u32. cbn [andb].
    destruct (sz =? u32 _); cbn [negb]; [done|]. by rewrite memset0_zeros by lia.
  - change (u32 0) with 0. replace (sz =? 0) with false by lia. cbn [negb andb].
    by rewrite memset0_zeros by lia.
Qed.

Lemma em_received_count a n v k :
  n <= sizeof (em_type a) → em_base a <= n → n <= Z.of_nat (length v) →
  em_value a v = Some k → em_value a (em_received a n v) = Some k.
Proof.
  intros Hs Hn Hl Hk. destruct (em_layout a) as (_ & _ & Hb & _).
  eapply value_of_agree; [apply em_member_end|..|exact Hk].
  - rewrite Z.add_0_l. exact Hn.
  - unfold em_received. rewrite take_app_le by (rewrite length_take; lia).
    rewrite take_take. f_equal. lia.
  - rewrite em_received_length; lia.
Qed.

Lemma em_type_signed a : to_signed 1 (em_ev_type a) = em_ev_type a.
Proof. by destruct a. Qed.

(** What one function writes the other one reads. *)
Lemma em_round_trip a em ev em0 k :
  Z.of_nat (length em) = sizeof (em_type a) → Z.of_nat (length ev) = sizeof EV →
  Z.of_nat (length em0) = sizeof (em_type a) → em_value a em = Some k →
  0 <= k <= EM_MEASUREMENT_COUNT →
  ∃ ev', emextended2extended (em_type a) (em_ev_type a) (Some em) (Some ev)
         = Some (1, Some ev') ∧
    extended2emextended (em_type a) (em_ev_type a) (Some ev') (Some em0)
    = Some (1, Some (em_received a (em_base a + 62 * k) em)).
Proof.
  intros Hl He H0 Hk Hr. destruct (em_layout a) as (_ & Hs & Hb & _ & Hty).
  assert (Hr' : 0 <= k <= 5) by exact Hr. set (n := em_base a + 62 * k).
  assert (Hn : em_base a <= n <= sizeof (em_type a)) by (unfold n; lia).
  eexists. split; [by apply emextended2extended_ok|]. fold n.
  set (v := take (Z.to_nat n) em ++ zeros (SUPLA_CHANNELEXTENDEDVALUE_SIZE - n)).
  assert (Hv : n <= Z.of_nat (length v)).
  { unfold v. rewrite length_app, length_take. lia. }
  assert (Hrec : em_received a n v = em_received a n em).
  { unfold em_received, v. f_equal. rewrite take_app_le by (rewrite length_take; lia).
    by rewrite take_take, Nat.min_id. }
  rewrite extended2emextended_cases by (try done; unfold is_u32; lia).
  rewrite em_type_signed, Z.eqb_refl, Hrec.
  replace (negb true || (n =? 0) || (sizeof (em_type a) <? n))%bool with false by lia.
  rewrite (em_received_count a n em k) by (try done; lia). cbn [mbind option_bind]. fold n.
  rewrite u32_id by (unfold is_u32; lia).
  by replace ((k <=? EM_MEASUREMENT_COUNT) && (n =? n))%bool with true by lia.
Qed.

(** The measurements of an electricity meter, in each of the three versions,
    survive the extended value they travel in: a structure with zero to five
    measurements is written whole and read back with the measurements in use, and a
    structure with another number of measurements is refused and nothing written.
    Whatever bytes an extended value has, reading it stays in its memory and succeeds
    exactly when its type is that of the version and its size is, modulo 2^32, the
    one that goes with the number of measurements in it, at most five; this leaves
    some negative numbers accepted. *)
Theorem em_values_travel a em ev em0 k :
  Z.of_nat (length em) = sizeof (em_type a) → Z.of_nat (length em0) = sizeof (em_type a) →
  Z.of_nat (length ev) = sizeof EV → Forall is_u8 ev → em_value a em = Some k →
  (if (0 <=? k) && (k <=? EM_MEASUREMENT_COUNT) then
     ∃ ev', emextended2extended (em_type a) (em_ev_type a) (Some em) (Some ev)
            = Some (1, Some ev') ∧
       extended2emextended (em_type a) (em_ev_type a) (Some ev') (Some em0)
       = Some (1, Some (em_received a (em_base a + 62 * k) em))
   else emextended2extended (em_type a) (em_ev_type a) (Some em) (Some ev)
        = Some (0, Some ev)) ∧
  ∃ r out, extended2emextended (em_type a) (em_ev_type a) (Some ev) (Some em0)
           = Some (r, Some out) ∧ length out = length em0 ∧ (r = 0 ∨ r = 1) ∧
    (r = 1 ↔ ∃ n m, value_of ["type"%string] EV 0 ev = Some (em_ev_type a) ∧
       value_of ["size"%string] EV 0 ev = Some n ∧ 0 < n <= sizeof (em_type a) ∧
       em_value a out = Some m ∧ m <= EM_MEASUREMENT_COUNT ∧
       n = u32 (em_base a + 62 * m) ∧ out = em_received a n (drop 5 ev)).
Proof.
  intros Hl H0 He Hu Hk. split.
  { destruct ((0 <=? k) && (k <=? EM_MEASUREMENT_COUNT)) eqn:E.
    - apply em_round_trip; try done. lia.
    - apply (emextended2extended_refuses a em ev k); [done|lia]. }
  destruct (ev_mem_intro ev Hu) as (t & sz & v & -> & Ht & Hsz & Hv).
  { change (sizeof EV) with 1029 in He. lia. }
  rewrite ev_mem_length in He. change (sizeof EV) with 1029 in He.
  destruct (em_layout a) as (_ & Hs & Hb & _). rewrite ev_type, (ev_size _ _ _ Hsz).
  change (drop 5 (ev_mem t sz v)) with v.
  destruct (decide (sz <= sizeof (em_type a))) as [Hle|Hgt].
  - rewrite extended2emextended_cases by (try done; lia).
    destruct (negb (to_signed 1 t =? em_ev_type a) || (sz =? 0) || (sizeof (em_type a) <? sz))
      eqn:E.
    { exists 0, em0. split; [done|]. split; [done|]. split; [by left|]. split; [done|].
      intros (n & m & [= Ht'] & [= <-] & Hn & _). lia. }
    unfold is_u32 in Hsz.
    assert (Hrl : Z.of_nat (length (em_received a sz v)) = sizeof (em_type a)).
    { apply em_received_length; lia. }
    destruct (m_count_read a _ Hrl) as [m Hm]. rewrite Hm. cbn [mbind option_bind].
    destruct ((m <=? EM_MEASUREMENT_COUNT) && (sz =? u32 (em_base a + 62 * m))) eqn:Em.
    + eexists 1, _. split; [done|]. split; [lia|]. split; [by right|]. split; [|done].
      intros _. exists sz, m. repeat split; try done; try lia. f_equal. lia.
    + eexists 0, _. split; [done|]. rewrite <- (Nat2Z.id (length (zeros _))), zeros_length by lia.
      split; [lia|]. split; [by left|]. split; [done|].
      intros (n & m' & _ & [= <-] & _ & Hm' & Hle' & Heq & Hout).
      rewrite Hout, Hm in Hm'. injection Hm' as <-. lia.
  - exists 0, em0. split; [|split; [done|split; [by left|]]].
    + unfold extended2emextended. rewrite ev_type, ev_size by done. cbn [mbind option_bind].
      by replace (negb _ || (sz =? 0) || (sizeof (em_type a) <? sz))%bool with true by lia.
    + split; [done|]. intros (n & m & _ & [= <-] & Hn & _). lia.
Qed.

(** ** Conversions between the versions *)

Definition masked (flags : list Z) (v : Z) : Z :=
  foldl (λ v flag, Z.lxor v (Z.land v flag)) v flags.

Lemma lxor_land x f : Z.lxor x (Z.land x f) = Z.ldiff x f.
Proof.
  apply Z.bits_inj'. intros n Hn. rewrite Z.lxor_spec, Z.land_spec, Z.ldiff_spec.
  by destruct (Z.testbit x n), (Z.testbit f n).
Qed.

Lemma ldiff_i32 x f : is_i32 x → 0 <= f < 2 ^ 31 → is_i32 (Z.ldiff x f).
Proof.
  intros Hx Hf. unfold is_i32 in *. set (r := x mod 2 ^ 31).
  assert (Hr : 0 <= r < 2 ^ 31) by (apply Z.mod_pos_bound; lia).
  assert (Hl : Z.land x f = Z.land r f).
  { rewrite <- (Z.mod_small f (2 ^ 31)) by lia. unfold r.
    rewrite <- !Z.land_ones by lia.
    rewrite !Z.land_assoc, <- (Z.land_assoc x (Z.ones 31) f), (Z.land_comm (Z.ones 31) f).
    by rewrite Z.land_assoc, <- (Z.land_assoc _ (Z.ones 31) (Z.ones 31)), Z.land_diag. }
  assert (H1 : Z.ldiff x f = x - Z.land x f).
  { rewrite <- lxor_land. symmetry. rewrite (Z.sub_nocarry_ldiff x (Z.land x f)).
    - symmetry. rewrite lxor_land. apply Z.bits_inj'. intros n Hn.
      rewrite !Z.ldiff_spec, Z.land_spec. by destruct (Z.testbit x n), (Z.testbit f n).
    - apply Z.bits_inj'. intros n Hn. rewrite Z.ldiff_spec, Z.land_spec, Z.bits_0.
      by destruct (Z.testbit x n), (Z.testbit f n). }
  assert (H2 : Z.ldiff r f = r - Z.land r f).
  { symmetry. rewrite (Z.sub_nocarry_ldiff r (Z.land r f)).
    - apply Z.bits_inj'. intros n Hn.
      rewrite !Z.ldiff_spec, Z.land_spec. by destruct (Z.testbit r n), (Z.testbit f n).
    - apply Z.bits_inj'. intros n Hn. rewrite Z.ldiff_spec, Z.land_spec, Z.bits_0.
      by destruct (Z.testbit r n), (Z.testbit f n). }
  assert (0 <= Z.ldiff r f) by (apply Z.ldiff_nonneg; lia).
  assert (0 <= Z.land r f) by (apply Z.land_nonneg; lia).
  pose proof (Z.div_mod x (2 ^ 31)). fold r in H3.
  assert (-1 <= x / 2 ^ 31 <= 0) by (split; [apply Z.div_le_lower_bound|
    apply Z.lt_succ_r, Z.div_lt_upper_bound]; lia).
  rewrite H1, Hl. lia.
Qed.

Lemma value_of_single f t mem :
  value_of [f] t 0 mem = ('(o, m) ← member f t; int_at o m mem).
Proof.
  unfold value_of. cbn [place]. destruct (member f t) as [[o m]|]; [|done].
  cbn [mbind option_bind]. by rewrite Z.add_0_r, Z.add_0_l.
Qed.

Lemma assign_single f t z mem :
  assign [f] t 0 z mem =
  ('(o, m) ← member f t; memcpy_to mem o (to_le (Z.to_nat (sizeof m)) z) (sizeof m)).
Proof.
  unfold assign. cbn [place]. destruct (member f t) as [[o m]|]; [|done].
  cbn [mbind option_bind]. by rewrite Z.add_0_r, Z.add_0_l.
Qed.

Lemma of_to_le_mod n : ∀ z, of_le (to_le n z) = z mod 256 ^ Z.of_nat n.
Proof.
  induction n as [|n IH]; intros z; [by rewrite Z.mod_1_r|].
  cbn [to_le of_le]. rewrite IH, Nat2Z.inj_succ, Z.pow_succ_r by lia.
  by rewrite Z.rem_mul_r by lia.
Qed.

Lemma i32_to_le z : is_i32 z → to_signed 4 (of_le (to_le 4 z)) = z.
Proof.
  intros Hz. unfold is_i32 in Hz. rewrite of_to_le_mod.
  change (256 ^ Z.of_nat 4) with (2 ^ 32). unfold to_signed.
  change (2 ^ (8 * 4 - 1)) with (2 ^ 31). change (2 ^ (8 * 4)) with (2 ^ 32).
  destruct (decide (0 <= z)).
  - rewrite Z.mod_small by lia. by replace (z <? 2 ^ 31) with true by lia.
  - rewrite <- (Z.mod_add _ 1), Z.mod_small by lia.
    replace (z + 1 * 2 ^ 32 <? 2 ^ 31) with false by lia. lia.
Qed.

Notation measured a mem := (value_of ["measured_values"%string] (em_type a) 0 mem).

Definition em_names (a : em_version) : list string := names_of (em_type a).

Lemma em_struct a : em_type a = CStruct (members_of (em_type a)).
Proof. by destruct a. Qed.

Lemma em_measured_member a :
  member "measured_values"%string (em_type a) = Some (em_base a - 12, int32).
Proof. by destruct a. Qed.

Lemma measured_member a mem :
  measured a mem = (b ← read_member "measured_values"%string (em_type a) mem;
                    Some (to_signed 4 (of_le b))).
Proof. rewrite value_of_single. unfold read_member. by rewrite em_measured_member. Qed.

Lemma clear_measured_ok a flag mem x :
  measured a mem = Some x → is_i32 x → 0 <= flag < 2 ^ 31 →
  ∃ mem', clear_measured (em_type a) flag mem = Some mem' ∧ length mem' = length mem ∧
    measured a mem' = Some (Z.ldiff x flag) ∧
    ∀ g, g ∈ em_names a → g ≠ "measured_values"%string →
      read_member g (em_type a) mem' = read_member g (em_type a) mem.
Proof.
  intros Hx Hi Hf. destruct (em_layout a) as (Hfl & Hs & Hb & _).
  unfold clear_measured. rewrite Hx. cbn [mbind option_bind]. rewrite lxor_land.
  set (z := Z.ldiff x flag). rewrite assign_single, em_measured_member. cbn [mbind option_bind].
  rewrite measured_member in Hx. unfold read_member in Hx. rewrite em_measured_member in Hx.
  cbn [mbind option_bind] in Hx. change (sizeof int32) with 4 in Hx |- *.
  unfold read_at in Hx. case_match eqn:E; [|done]. clear Hx.
  rewrite !andb_true_iff, !Z.leb_le in E.
  destruct (memcpy_to mem (em_base a - 12) (to_le (Z.to_nat 4) z) 4) as [mem'|] eqn:Em.
  2: { rewrite memcpy_to_Some in Em by (rewrite ?to_le_length; lia). done. }
  exists mem'. split; [done|]. split; [by eapply memcpy_to_length|]. split.
  - rewrite measured_member. unfold read_member. rewrite em_measured_member.
    cbn [mbind option_bind]. change (sizeof int32) with 4.
    rewrite (read_after_memcpy _ _ _ _ _ Em). cbn [mbind option_bind].
    rewrite take_ge by (rewrite to_le_length; lia). f_equal. by apply i32_to_le, ldiff_i32.
  - intros g Hg Hne. rewrite em_struct in Hfl |- *.
    rewrite (read_write_member "measured_values"%string g _ (to_le (Z.to_nat 4) z) mem mem');
      [by rewrite bool_decide_eq_false_2|done|done|].
    unfold write_member. rewrite <- em_struct, em_measured_member. exact Em.
Qed.

Lemma clear_all_measured_ok a flags : ∀ mem x,
  measured a mem = Some x → is_i32 x → Forall (λ f, 0 <= f < 2 ^ 31) flags →
  ∃ mem', clear_all_measured (em_type a) flags mem = Some mem' ∧ length mem' = length mem ∧
    measured a mem' = Some (masked flags x) ∧ is_i32 (masked flags x) ∧
    ∀ g, g ∈ em_names a → g ≠ "measured_values"%string →
      read_member g (em_type a) mem' = read_member g (em_type a) mem.
Proof.
  induction flags as [|f flags IH]; intros mem x Hx Hi Hf.
  { exists mem. auto. }
  apply Forall_cons in Hf as [Hf0 Hf]. cbn [clear_all_measured].
  destruct (clear_measured_ok a f mem x Hx Hi Hf0) as (m1 & -> & Hl & Hm & Ho).
  cbn [mbind option_bind].
  destruct (IH m1 _ Hm (ldiff_i32 _ _ Hi Hf0) Hf) as (m2 & -> & Hl2 & Hm2 & Hi2 & Ho2).
  exists m2. unfold masked. cbn [foldl]. rewrite lxor_land. fold (masked flags (Z.ldiff x f)).
  split; [done|]. split; [lia|]. split; [done|]. split; [done|].
  intros g Hg Hne. by rewrite Ho2, Ho.
Qed.

(** What a conversion leaves of the members and of the flags. *)
Definition converted (a b : em_version) (more : list string) (flags : list Z)
    (v d : list Z) : Prop :=
  Z.of_nat (length d) = sizeof (em_type b) ∧
  (∀ x, measured a v = Some x → measured b d = Some (masked flags x)) ∧
  ∀ g, g ∈ em_names b → g ≠ "measured_values"%string →
    read_member g (em_type b) d =
    if bool_decide (g ∈ emev_copied ++ more) then read_member g (em_type a) v
    else read_member g (em_type b) (zeros (sizeof (em_type b))).

Definition convertible (a b : em_version) (more : list string) (flags : list Z) : bool :=
  forallb (same_type (em_type a) (em_type b)) (emev_copied ++ more)
  && bool_decide ("measured_values"%string ∉ more)
  && bool_decide (Forall (λ f, 0 <= f < 2 ^ 31) flags).

Lemma emev_convert_ok a b more flags v d x :
  convertible a b more flags = true →
  Z.of_nat (length v) = sizeof (em_type a) → Z.of_nat (length d) = sizeof (em_type b) →
  measured a v = Some x → is_i32 x →
  ∃ d', emev_convert (em_type a) (em_type b) more flags (Some v) (Some d) = Some (1, Some d') ∧
    converted a b more flags v d' ∧ is_i32 (masked flags x).
Proof.
  intros Hc Hv Hd Hx Hi. unfold convertible in Hc.
  rewrite !andb_true_iff, !bool_decide_eq_true, forallb_app, andb_true_iff in Hc.
  destruct Hc as [[[Hc Hc'] Hnm] Hfl].
  destruct (em_layout a) as (Hfa & Ha & Hba & _), (em_layout b) as (Hfb & Hb & Hbb & _).
  unfold emev_convert, EMEV_COPY. rewrite memset0_zeros by lia. cbn [mbind option_bind].
  rewrite (em_struct a), (em_struct b) in Hc, Hc'. rewrite (em_struct a) in Hfa.
  rewrite (em_struct b) in Hfb.
  pose proof (zeros_length (sizeof (em_type b)) ltac:(lia)) as Hz.
  rewrite (em_struct a) in Hv. rewrite (em_struct b) in Hz, Hd |- *. rewrite (em_struct a).
  destruct (copy_members_spec _ _ _ v _ Hfa Hfb Hc ltac:(lia) (Z.eq_le_incl _ _ (eq_sym Hz)))
    as (d1 & -> & Hl1 & Hr1). cbn [mbind option_bind].
  destruct (copy_members_spec more _ _ v d1 Hfa Hfb Hc' ltac:(lia) ltac:(lia))
    as (d2 & -> & Hl2 & Hr2). cbn [mbind option_bind]. rewrite <- !em_struct in *.
  assert (Hread : ∀ g, g ∈ em_names b → read_member g (em_type b) d2 =
    if bool_decide (g ∈ emev_copied ++ more) then read_member g (em_type a) v
    else read_member g (em_type b) (zeros (sizeof (em_type b)))).
  { intros g Hg. rewrite (Hr2 g Hg), (Hr1 g Hg).
    rewrite (bool_decide_ext (g ∈ emev_copied ++ more) (g ∈ emev_copied ∨ g ∈ more))
      by apply elem_of_app.
    rewrite bool_decide_or. by do 2 destruct (bool_decide _). }
  assert (Hx2 : measured b d2 = Some x).
  { rewrite measured_member, Hread, bool_decide_eq_true_2, <- measured_member; [done| |].
    - apply elem_of_app. left. unfold emev_copied. by apply (bool_decide_unpack _).
    - by destruct b; apply (bool_decide_unpack _). }
  destruct (clear_all_measured_ok b flags d2 x Hx2 Hi Hfl) as (d3 & -> & Hl3 & Hm3 & Hi3 & Hr3).
  exists d3. split; [done|]. split; [|done]. split; [lia|]. split.
  - intros x'. rewrite Hx. intros [= <-]. done.
  - intros g Hg Hne. by rewrite (Hr3 g Hg Hne), Hread.
Qed.

(** ** A value as a list of values *)

(** A type and its data. *)
Notation item := (Z * list Z)%type.

Definition item_bytes (x : item) : list Z := ev_mem x.1 (Z.of_nat (length x.2)) x.2.

Definition item_ok (x : item) : Prop :=
  is_u8 x.1 ∧ x.1 ≠ EV_TYPE_NONE ∧ x.1 ≠ EV_TYPE_MULTI_VALUE ∧
  1 <= Z.of_nat (length x.2) <= SUPLA_CHANNELEXTENDEDVALUE_SIZE.

Definition joined (l : list item) : list Z := mjoin (item_bytes <$> l).

(** No value, one value as it is, or several one after the other. *)
Definition holds (ev : list Z) (l : list item) : Prop :=
  Z.of_nat (length ev) = sizeof EV ∧ Forall item_ok l ∧
  ∃ rest, ev = match l with
               | [] => [EV_TYPE_NONE]
               | [x] => item_bytes x
               | _ => ev_mem EV_TYPE_MULTI_VALUE (Z.of_nat (length (joined l))) (joined l)
               end ++ rest.

Definition fits (l : list item) : bool :=
  match l with
  | [] | [_] => true
  | _ => Z.of_nat (length (joined l)) <=? SUPLA_CHANNELEXTENDEDVALUE_SIZE
  end.

Lemma item_bytes_length x : length (item_bytes x) = (5 + length x.2)%nat.
Proof. apply ev_mem_length. Qed.

Lemma ev_mem_app t sz v rest : ev_mem t sz v ++ rest = ev_mem t sz (v ++ rest).
Proof. unfold ev_mem. by rewrite <- !app_assoc. Qed.

Lemma to_signed_type t : is_u8 t → (to_signed 1 t = EV_TYPE_NONE ↔ t = EV_TYPE_NONE) ∧
  (to_signed 1 t = EV_TYPE_MULTI_VALUE ↔ t = EV_TYPE_MULTI_VALUE).
Proof.
  unfold is_u8, to_signed, EV_TYPE_NONE, EV_TYPE_MULTI_VALUE. intros H.
  change (2 ^ (8 * 1 - 1)) with 128. change (2 ^ (8 * 1)) with 256.
  change (2 ^ 8) with 256 in H. destruct (Z.ltb_spec t 128); lia.
Qed.

Lemma item_type_tests x : item_ok x →
  (to_signed 1 x.1 =? EV_TYPE_NONE) = false ∧ (to_signed 1 x.1 =? EV_TYPE_MULTI_VALUE) = false.
Proof.
  intros (Hu & H0 & H1 & _). destruct (to_signed_type x.1 Hu) as [E0 E1].
  split; apply Z.eqb_neq; tauto.
Qed.

Lemma used_size_small n : 0 <= n <= SUPLA_CHANNELEXTENDEDVALUE_SIZE → used_size n = 5 + n.
Proof.
  unfold SUPLA_CHANNELEXTENDEDVALUE_SIZE. intros H. unfold used_size.
  change (sizeof EV) with 1029. rewrite (u64_id (SUPLA_CHANNELEXTENDEDVALUE_SIZE - n))
    by (unfold SUPLA_CHANNELEXTENDEDVALUE_SIZE; lia).
  rewrite u64_id, u32_id by (unfold is_u32, SUPLA_CHANNELEXTENDEDVALUE_SIZE; lia).
  unfold SUPLA_CHANNELEXTENDEDVALUE_SIZE. lia.
Qed.

Lemma holds_one ev x : holds ev [x] →
  ∃ v, ev = ev_mem x.1 (Z.of_nat (length x.2)) v ∧ Z.of_nat (length v) = 1024 ∧
    take (length x.2) v = x.2 ∧ item_ok x.
Proof.
  intros (Hl & Hx & rest & ->). apply Forall_cons in Hx as [Hx _]. exists (x.2 ++ rest).
  unfold item_bytes in *. rewrite ev_mem_app in *. change (sizeof EV) with 1029 in Hl.
  rewrite ev_mem_length in Hl. split; [done|]. split; [lia|]. split; [|done].
  by rewrite take_app_length.
Qed.

Lemma item_size_u32 x : item_ok x → is_u32 (Z.of_nat (length x.2)).
Proof.
  intros (_ & _ & _ & H). unfold SUPLA_CHANNELEXTENDEDVALUE_SIZE in H. unfold is_u32. lia.
Qed.

(** Adding to a value of several values. *)
Lemma value_add_multi fuel blk rest s x :
  Z.of_nat (length (blk ++ rest)) = SUPLA_CHANNELEXTENDEDVALUE_SIZE → holds s [x] →
  value_add (S fuel)
    (Some (ev_mem EV_TYPE_MULTI_VALUE (Z.of_nat (length blk)) (blk ++ rest))) (Some s) =
  if Z.of_nat (length (blk ++ item_bytes x)) <=? SUPLA_CHANNELEXTENDEDVALUE_SIZE then
    Some (1, Some (ev_mem EV_TYPE_MULTI_VALUE (Z.of_nat (length (blk ++ item_bytes x)))
                     (blk ++ item_bytes x ++ drop (5 + length x.2) rest)))
  else Some (0, Some (ev_mem EV_TYPE_MULTI_VALUE (Z.of_nat (length blk)) (blk ++ rest))).
Proof.
  unfold SUPLA_CHANNELEXTENDEDVALUE_SIZE. intros Hl Hs.
  apply holds_one in Hs as (v & -> & Hv & Htake & Hx). rewrite length_app in Hl.
  assert (Hb : is_u32 (Z.of_nat (length blk))) by (unfold is_u32; lia).
  pose proof (item_size_u32 x Hx) as Hxs. destruct (item_type_tests x Hx) as [Ht0 _].
  destruct Hx as (_ & _ & _ & Hn). unfold SUPLA_CHANNELEXTENDEDVALUE_SIZE in Hn.
  cbn [value_add]. rewrite !ev_type, !ev_size by done. cbn [mbind option_bind]. rewrite Ht0.
  replace (Z.of_nat (length x.2) =? 0) with false by lia. cbn [orb].
  change (to_signed 1 EV_TYPE_MULTI_VALUE =? EV_TYPE_NONE) with false.
  change (to_signed 1 EV_TYPE_MULTI_VALUE =? EV_TYPE_MULTI_VALUE) with true. cbn iota.
  rewrite used_size_small by (unfold SUPLA_CHANNELEXTENDEDVALUE_SIZE; lia).
  rewrite u32_id by (unfold is_u32; lia).
  rewrite length_app, item_bytes_length. unfold SUPLA_CHANNELEXTENDEDVALUE_SIZE.
  destruct (Z.ltb_spec 1024 (Z.of_nat (length blk) + (5 + Z.of_nat (length x.2)))) as [E|E].
  { rewrite (proj2 (Z.leb_gt _ 1024)); [done|lia]. }
  rewrite (proj2 (Z.leb_le _ 1024)) by lia.
  change (member "value"%string EV)
    with (Some (5, CArr SUPLA_CHANNELEXTENDEDVALUE_SIZE schar)).
  cbn [mbind option_bind].
  rewrite ev_write_at by (rewrite ?ev_mem_length, ?length_app; lia). cbn [mbind option_bind].
  rewrite ev_assign_size. cbn [mbind option_bind]. do 4 f_equal.
  - lia.
  - rewrite take_app_length' by lia. f_equal. f_equal.
    + unfold item_bytes, ev_mem. rewrite !app_assoc, take_app_ge
        by (rewrite length_app, to_le_length; cbn [length]; lia).
      f_equal. rewrite length_app, to_le_length. cbn [length].
      by replace (Z.to_nat (5 + Z.of_nat (length x.2)) - (1 + 4))%nat with (length x.2) by lia.
    + rewrite drop_app_ge by lia. f_equal. lia.
Qed.

Lemma joined_cons x l : joined (x :: l) = item_bytes x ++ joined l.
Proof. done. Qed.

Lemma joined_app l1 l2 : joined (l1 ++ l2) = joined l1 ++ joined l2.
Proof.
  induction l1 as [|x l1 IH]; [done|]. cbn [app]. by rewrite !joined_cons, IH, app_assoc.
Qed.

Lemma joined_one x : joined [x] = item_bytes x.
Proof. apply app_nil_r. Qed.

Lemma ev_type_head t rest : value_of ["type"%string] EV 0 (t :: rest) = Some (to_signed 1 t).
Proof.
  change (value_of ["type"%string] EV 0 (t :: rest)) with (int_at 0 schar ([] ++ [t] ++ rest)).
  unfold int_at, schar. rewrite (read_at_app [] [t]) by done. cbn. do 2 f_equal. lia.
Qed.

(** The three cases of an addition: to nothing, to one value, to several. *)
Lemma value_add_none fuel rest s x :
  Z.of_nat (length (EV_TYPE_NONE :: rest)) = sizeof EV → holds s [x] →
  value_add (S fuel) (Some (EV_TYPE_NONE :: rest)) (Some s) = Some (1, Some s).
Proof.
  intros Hd Hs. apply holds_one in Hs as (v & -> & Hv & _ & Hx).
  pose proof (item_size_u32 x Hx) as Hxs. destruct (item_type_tests x Hx) as [Ht0 _].
  destruct Hx as (_ & _ & _ & Hn). change (sizeof EV) with 1029 in Hd.
  cbn [value_add]. rewrite ev_type, ev_size, ev_type_head by done. cbn [mbind option_bind].
  rewrite Ht0, (proj2 (Z.eqb_neq _ 0)) by lia. cbn [orb].
  change (to_signed 1 EV_TYPE_NONE =? EV_TYPE_NONE) with true. cbn iota.
  change (sizeof EV) with 1029. rewrite memcpy_to_Some by (rewrite ?ev_mem_length; lia).
  cbn [mbind option_bind]. rewrite (drop_ge (_ :: rest)), app_nil_r by lia.
  by rewrite (take_ge (ev_mem _ _ _)) by (rewrite ev_mem_length; lia).
Qed.

Lemma value_add_one fuel y w s x :
  item_ok y → Z.of_nat (length w) = SUPLA_CHANNELEXTENDEDVALUE_SIZE →
  take (length y.2) w = y.2 → holds s [x] →
  let d := ev_mem y.1 (Z.of_nat (length y.2)) w in
  value_add (S fuel) (Some d) (Some s) =
  if SUPLA_CHANNELEXTENDEDVALUE_SIZE <? 5 + Z.of_nat (length y.2) + (5 + Z.of_nat (length x.2))
  then Some (0, Some d)
  else value_add fuel (Some (ev_mem EV_TYPE_MULTI_VALUE (Z.of_nat (length (item_bytes y)))
                               (item_bytes y ++ drop (5 + length y.2) w))) (Some s).
Proof.
  intros Hy Hw Hty Hs d. apply holds_one in Hs as (v & -> & Hv & _ & Hx).
  pose proof (item_size_u32 x Hx) as Hxs. destruct (item_type_tests x Hx) as [Ht0 _].
  pose proof (item_size_u32 y Hy) as Hys. destruct (item_type_tests y Hy) as [Hy0 Hy1].
  destruct Hx as (_ & _ & _ & Hn), Hy as (_ & _ & _ & Hyn).
  unfold SUPLA_CHANNELEXTENDEDVALUE_SIZE in Hn, Hyn, Hw. unfold d.
  cbn [value_add]. rewrite !ev_type, !ev_size by done. cbn [mbind option_bind].
  rewrite Ht0, Hy0, Hy1, (proj2 (Z.eqb_neq _ 0)) by lia. cbn [orb].
  rewrite !used_size_small by (unfold SUPLA_CHANNELEXTENDEDVALUE_SIZE; lia).
  rewrite u32_id by (unfold is_u32; lia). case_match eqn:Hfit; [done|].
  apply Z.ltb_ge in Hfit. unfold SUPLA_CHANNELEXTENDEDVALUE_SIZE in Hfit.
  rewrite read_at_Some by (rewrite ?ev_mem_length; change (sizeof EV) with 1029; lia).
  cbn [mbind option_bind]. rewrite ev_assign_type. cbn [mbind option_bind].
  rewrite ev_assign_size. cbn [mbind option_bind].
  rewrite take_ge by (rewrite length_drop, ev_mem_length; change (sizeof EV) with 1029; lia).
  change (Z.to_nat 0) with 0%nat. rewrite drop_0.
  rewrite ev_write_value by (rewrite ?ev_mem_length; lia). cbn [mbind option_bind].
  rewrite item_bytes_length. do 3 f_equal; [lia|]. f_equal; [|f_equal; lia].
  rewrite <- (take_drop (length y.2) w) at 1. rewrite Hty, <- ev_mem_app.
  by rewrite take_app_length' by (rewrite ev_mem_length; lia).
Qed.

Lemma value_add_holds d s l x :
  holds d l → holds s [x] →
  ∃ d', srpc_evtool_value_add (Some d) (Some s)
        = Some (if fits (l ++ [x]) then 1 else 0, Some d') ∧
    (if fits (l ++ [x]) then holds d' (l ++ [x]) else d' = d).
Proof.
  intros (Hd & Hl & rest & ->) Hs. unfold srpc_evtool_value_add.
  pose proof Hs as Hsx. apply holds_one in Hs as (_ & _ & _ & _ & Hx).
  destruct l as [|y [|y' l]].
  - exists s. split; [by apply (value_add_none 1 rest s x)|exact Hsx].
  - apply Forall_cons in Hl as [Hy _]. unfold item_bytes in Hd |- *.
    rewrite ev_mem_app in Hd |- *. rewrite ev_mem_length in Hd.
    change (sizeof EV) with 1029 in Hd.
    rewrite (value_add_one 1 y (y.2 ++ rest) s x); [|done| |by rewrite take_app_length|done].
    2: { unfold SUPLA_CHANNELEXTENDEDVALUE_SIZE. lia. }
    cbn [app fits]. rewrite joined_cons, joined_one, length_app, !item_bytes_length.
    unfold SUPLA_CHANNELEXTENDEDVALUE_SIZE.
    destruct (Z.leb_spec (Z.of_nat (5 + length y.2 + (5 + length x.2))) 1024) as [Hf|Hf].
    + rewrite (proj2 (Z.ltb_ge 1024 _)), <- item_bytes_length by lia.
      rewrite length_app in Hd. eexists. rewrite (value_add_multi 0 (item_bytes y) _ _ x);
        [|rewrite !length_app, length_drop, length_app, !item_bytes_length;
          unfold SUPLA_CHANNELEXTENDEDVALUE_SIZE; lia|exact Hsx].
      rewrite length_app, !item_bytes_length, (proj2 (Z.leb_le _ _)) by exact Hf.
      split; [done|]. split; [|split; [by repeat apply Forall_cons_2|]].
      * rewrite ev_mem_length, !length_app, !length_drop, length_app, !item_bytes_length.
        change (sizeof EV) with 1029. lia.
      * eexists. rewrite joined_cons, joined_one, ev_mem_app, length_app, !item_bytes_length,
          <- !app_assoc. done.
    + rewrite (proj2 (Z.ltb_lt 1024 _)) by lia. by eexists.
  - set (blk := joined (y :: y' :: l)) in *. rewrite ev_mem_app in Hd |- *.
    rewrite ev_mem_length in Hd. change (sizeof EV) with 1029 in Hd.
    rewrite (value_add_multi 1 blk rest _ x);
      [|unfold SUPLA_CHANNELEXTENDEDVALUE_SIZE; lia|exact Hsx].
    cbn [app fits]. rewrite app_comm_cons, app_comm_cons, joined_app, joined_one. fold blk.
    rewrite !length_app, item_bytes_length in *. unfold SUPLA_CHANNELEXTENDEDVALUE_SIZE.
    destruct (Z.leb_spec (Z.of_nat (length blk + (5 + length x.2))) 1024) as [Hf|Hf].
    + eexists. split; [done|]. split; [|split].
      * rewrite ev_mem_length, !length_app, !length_drop, item_bytes_length.
        change (sizeof EV) with 1029. lia.
      * apply Forall_app. split; [done|by apply Forall_cons_2].
      * eexists. cbn [app]. rewrite app_comm_cons, app_comm_cons, joined_app, joined_one.
        fold blk. rewrite ev_mem_app, <- app_assoc, length_app, item_bytes_length. done.
    + by eexists.
Qed.

Lemma value_get_loop_holds l2 : ∀ l1 t sz rest size index dest,
  Forall item_ok l2 →
  Z.of_nat (length (joined l1 ++ joined l2 ++ rest)) = SUPLA_CHANNELEXTENDEDVALUE_SIZE →
  size = Z.of_nat (length (joined (l1 ++ l2))) - header_size →
  Z.of_nat (length l1) <= index < 2 ^ 16 → Z.of_nat (length dest) = sizeof EV →
  value_get_loop (S (Z.to_nat index - length l1))
    (ev_mem t sz (joined l1 ++ joined l2 ++ rest)) size index dest
    (Z.of_nat (length (joined l1))) (Z.of_nat (length l1))
  = match l2 !! (Z.to_nat index - length l1)%nat with
    | Some x => GReturn 1 (item_bytes x ++ drop (5 + length x.2) dest)
    | None => GExit
    end.
Proof.
  unfold SUPLA_CHANNELEXTENDEDVALUE_SIZE. change header_size with 5. change (sizeof EV) with 1029.
  induction l2 as [|x l2 IH]; intros l1 t sz rest size index dest Hok Hl -> Hi Hd.
  { cbn [value_get_loop]. rewrite app_nil_r, (proj2 (Z.ltb_ge _ _)) by lia. done. }
  apply Forall_cons in Hok as [Hx Hok]. pose proof (item_size_u32 x Hx) as Hxs.
  destruct (item_type_tests x Hx) as [Ht0 _]. destruct Hx as (_ & _ & _ & Hn).
  unfold SUPLA_CHANNELEXTENDEDVALUE_SIZE in Hn.
  rewrite joined_app, joined_cons, !length_app, item_bytes_length.
  rewrite joined_cons, !length_app, item_bytes_length in Hl.
  set (mem := ev_mem t sz (joined l1 ++ (item_bytes x ++ joined l2) ++ rest)).
  assert (Hmem : mem = (ev_mem t sz (joined l1)) ++ item_bytes x ++ joined l2 ++ rest).
  { unfold mem. by rewrite ev_mem_app, <- !app_assoc. }
  assert (Hoff : header_size + Z.of_nat (length (joined l1))
                 = Z.of_nat (length (ev_mem t sz (joined l1)))).
  { rewrite ev_mem_length. change header_size with 5. lia. }
  cbn [value_get_loop]. rewrite (proj2 (Z.ltb_lt _ _)) by lia.
  rewrite Hoff, Hmem. unfold item_bytes at 1. rewrite ev_type_at, Ht0.
  unfold item_bytes at 1. rewrite ev_size_at by done.
  rewrite (proj2 (Z.eqb_neq _ 0)) by lia. cbn [orb].
  rewrite (u32_id (Z.of_nat (length x.2) + Z.of_nat (length (joined l1))))
    by (unfold is_u32; lia).
  change header_size with 5.
  rewrite !u32_id by (unfold is_u32; lia). unfold SUPLA_CHANNELEXTENDEDVALUE_SIZE.
  rewrite (proj2 (Z.ltb_ge 1024 _)) by lia.
  destruct (Z.eqb_spec (Z.of_nat (length l1)) index) as [E|E].
  - rewrite (read_at_app _ (item_bytes x)); [|done|rewrite item_bytes_length; lia].
    cbn [mbind option_bind].
    rewrite memcpy_to_Some by (rewrite ?item_bytes_length; lia).
    replace (Z.to_nat index - length l1)%nat with 0%nat by lia. cbn [lookup list_lookup].
    change (Z.to_nat 0) with 0%nat. rewrite take_0, app_nil_l, Z.add_0_l.
    rewrite take_ge by (rewrite item_bytes_length; lia).
    by replace (Z.to_nat (5 + Z.of_nat (length x.2))) with (5 + length x.2)%nat by lia.
  - rewrite <- Hmem. unfold mem.
    replace (Z.to_nat index - length l1)%nat with (S (Z.to_nat index - length (l1 ++ [x])))
      by (rewrite length_app; cbn [length]; lia).
    etransitivity; [|apply (IH (l1 ++ [x]) t sz rest
                              (Z.of_nat (length (joined ((l1 ++ [x]) ++ l2))) - 5) index dest);
      [done| |done|rewrite length_app; cbn [length]; lia|done]].
    + rewrite !joined_app, joined_one, !length_app, item_bytes_length, <- !app_assoc.
      cbn [length]. rewrite u16_id by lia. f_equal; lia.
    + rewrite joined_app, joined_one, !length_app, item_bytes_length. lia.
Qed.

Lemma value_get_holds ev l index d :
  holds ev l → 0 <= index < 2 ^ 16 → Z.of_nat (length d) = sizeof EV →
  match l !! Z.to_nat index with
  | Some x => ∃ d', srpc_evtool_value_get (Some ev) index (Some d) = Some (1, Some d') ∧
                holds d' [x]
  | None => srpc_evtool_value_get (Some ev) index (Some d) = Some (0, Some d)
  end.
Proof.
  intros (He & Hl & rest & Hev) Hi Hd. change (sizeof EV) with 1029 in He, Hd.
  destruct l as [|x [|x' l]]; unfold srpc_evtool_value_get.
  - subst ev. cbn [app]. by rewrite ev_type_head.
  - apply Forall_cons in Hl as [Hx _]. destruct (item_type_tests x Hx) as [Ht0 Ht1].
    assert (Hty : value_of ["type"%string] EV 0 ev = Some (to_signed 1 x.1)).
    { subst ev. unfold item_bytes. by rewrite ev_mem_app, ev_type. }
    rewrite Hty. cbn [mbind option_bind]. rewrite Ht0, Ht1.
    destruct (Z.eqb_spec index 0) as [->|Hne].
    + exists ev. rewrite read_at_Some by (change (sizeof EV) with 1029; lia).
      cbn [mbind option_bind]. change (sizeof EV) with 1029.
      change (Z.to_nat 0) with 0%nat. rewrite drop_0, take_ge by lia.
      rewrite memcpy_to_Some by lia. cbn [mbind option_bind].
      rewrite take_0, app_nil_l, take_ge, drop_ge, app_nil_r by lia. split; [done|].
      split; [done|]. split; [by apply Forall_cons_2|]. by exists rest.
    + by replace (Z.to_nat index) with (S (Z.to_nat index - 1)) by lia.
  - rewrite ev_mem_app in Hev. set (l' := x :: x' :: l) in *.
    assert (Hbl : 12 <= Z.of_nat (length (joined l'))).
    { unfold l'. rewrite !joined_cons, !length_app, !item_bytes_length.
      apply Forall_cons in Hl as [(_ & _ & _ & H1) Hl].
      apply Forall_cons in Hl as [(_ & _ & _ & H2) _]. lia. }
    rewrite Hev, ev_mem_length, length_app in He.
    assert (Hu : is_u32 (Z.of_nat (length (joined l')))) by (unfold is_u32; lia).
    rewrite Hev, ev_type, ev_size by done. cbn [mbind option_bind].
    change (to_signed 1 EV_TYPE_MULTI_VALUE =? EV_TYPE_NONE) with false.
    change (to_signed 1 EV_TYPE_MULTI_VALUE =? EV_TYPE_MULTI_VALUE) with true. cbn iota.
    rewrite (proj2 (Z.ltb_ge SUPLA_CHANNELEXTENDEDVALUE_SIZE _))
      by (unfold SUPLA_CHANNELEXTENDEDVALUE_SIZE; lia).
    rewrite u32_id by (unfold is_u32; change header_size with 5; lia).
    pose proof (value_get_loop_holds l' [] EV_TYPE_MULTI_VALUE (Z.of_nat (length (joined l')))
                  rest (Z.of_nat (length (joined l')) - header_size) index d Hl) as H.
    change (joined []) with (@nil Z) in H. cbn [app length] in H.
    rewrite Nat.sub_0_r in H. change (Z.of_nat 0) with 0 in H.
    rewrite length_app in H.
    rewrite H; [|unfold SUPLA_CHANNELEXTENDEDVALUE_SIZE; lia|done|lia|done].
    destruct (l' !! Z.to_nat index) as [y|] eqn:Ey.
    + assert (Hy : item_ok y) by (eapply Forall_lookup_1; [exact Hl|exact Ey]).
      eexists. split; [done|]. pose proof Hy as (_ & _ & _ & Hy3).
      unfold SUPLA_CHANNELEXTENDEDVALUE_SIZE in Hy3. split; [|split].
      * rewrite length_app, item_bytes_length, length_drop. change (sizeof EV) with 1029. lia.
      * by apply Forall_cons_2.
      * by eexists.
    + rewrite (proj2 (Z.eqb_neq index 0)); [done|]. intros ->. done.
Qed.

(** The other way round: extended values come from anywhere. *)

(** No size in the value is so large that it wraps when an offset is added. *)
Definition no_size_wraps (ev : list Z) : Prop :=
  ∀ o z, 0 <= o <= SUPLA_CHANNELEXTENDEDVALUE_SIZE →
    value_of ["size"%string] EV (header_size + o) ev = Some z → z < 2 ^ 32 - 1029.

Lemma value_get_loop_safe k : ∀ ev size index dest offset n,
  Z.of_nat (length ev) = sizeof EV → Z.of_nat (length dest) = sizeof EV → Forall is_u8 ev →
  no_size_wraps ev → 0 <= offset → size <= 1019 → 0 <= n <= index → index < 2 ^ 16 →
  k = (Z.to_nat index - Z.to_nat n)%nat →
  value_get_loop (S k) ev size index dest offset n = GExit ∨
  ∃ r d, value_get_loop (S k) ev size index dest offset n = GReturn r d ∧
    length d = length dest ∧ (r = 0 ∨ r = 1).
Proof.
  induction k as [|k IH]; intros ev size index dest offset n He Hd Hu Hw Ho Hsz Hn Hi Hk.
  all: change (sizeof EV) with 1029 in He, Hd; cbn [value_get_loop].
  all: destruct (Z.ltb_spec offset size) as [Hlt|]; [|by left].
  all: destruct (ev_mem_intro (drop (Z.to_nat (5 + offset)) ev)) as (t & z & v & Ev & Ht & Hz & _);
    [by apply Forall_drop|rewrite length_drop; lia|].
  all: set (p := take (Z.to_nat (5 + offset)) ev).
  all: assert (Hev : ev = p ++ ev_mem t z v ++ [])
         by (unfold p; by rewrite app_nil_r, <- Ev, take_drop).
  all: assert (Hp : header_size + offset = Z.of_nat (length p))
         by (unfold p; rewrite length_take; change header_size with 5; lia).
  all: assert (Hsize : value_of ["size"%string] EV (header_size + offset) ev = Some z)
         by (rewrite Hp, Hev; by apply ev_size_at).
  all: assert (Htype : value_of ["type"%string] EV (header_size + offset) ev
                       = Some (to_signed 1 t)) by (rewrite Hp, Hev; apply ev_type_at).
  all: pose proof (Hw offset z ltac:(unfold SUPLA_CHANNELEXTENDEDVALUE_SIZE; lia) Hsize) as Hzw.
  all: rewrite Hsize, Htype; unfold is_u32 in Hz.
  all: destruct (to_signed 1 t =? EV_TYPE_NONE); [right; by exists 0, dest; auto|].
  all: rewrite (u32_id (z + offset)) by (unfold is_u32; lia).
  all: change header_size with 5 in *; rewrite !u32_id by (unfold is_u32; lia).
  all: destruct ((z =? 0) || (SUPLA_CHANNELEXTENDEDVALUE_SIZE <? z + offset + 5)) eqn:E;
    [right; by exists 0, dest; auto|unfold SUPLA_CHANNELEXTENDEDVALUE_SIZE in E].
  all: destruct (Z.eqb_spec n index) as [Hni|Hni]; [|try lia].
  1, 2: right; rewrite read_at_Some by lia; cbn [mbind option_bind];
    rewrite memcpy_to_Some by (rewrite ?length_take, ?length_drop; lia); eexists 1, _;
    split; [done|]; split; [|by right]; rewrite !length_app, !length_take, !length_drop; lia.
  rewrite u16_id by lia. apply IH; try done; lia.
Qed.

(** ** Thermostats and counters travel too *)

Lemma memcpy_front t v n :
  0 <= n <= sizeof t → n <= Z.of_nat (length v) →
  memcpy_to (zeros (sizeof t)) 0 (take (Z.to_nat n) v) n
  = Some (take (Z.to_nat n) v ++ zeros (sizeof t - n)).
Proof.
  intros Hn Hv. rewrite memcpy_to_Some by (rewrite ?zeros_length, ?length_take by lia; lia).
  rewrite take_take, Nat.min_id. change (Z.to_nat 0) with 0%nat. rewrite take_0, app_nil_l.
  unfold zeros. rewrite drop_replicate. do 3 f_equal. lia.
Qed.

Lemma thermostat_size_cases f :
  ∃ n, thermostat_size f thermostat_fields (sizeof TThermostat_ExtendedValue) = Some n ∧
    1 <= n <= sizeof TThermostat_ExtendedValue.
Proof.
  unfold thermostat_fields. cbn [thermostat_size].
  repeat (destruct (0 =? Z.land f _); [cbn [mbind option_bind]|by eexists; split; [done|vm_compute]]).
  by eexists; split; [done|vm_compute].
Qed.

(** The state of a thermostat arrives up to the last member that is flagged. *)
Theorem thermostat_travels th ev th0 :
  Z.of_nat (length th) = sizeof TThermostat_ExtendedValue →
  Z.of_nat (length th0) = sizeof TThermostat_ExtendedValue →
  Z.of_nat (length ev) = sizeof EV →
  ∃ fields n ev',
    value_of ["Fields"%string] TThermostat_ExtendedValue 0 th = Some fields ∧
    thermostat_size fields thermostat_fields (sizeof TThermostat_ExtendedValue) = Some n ∧
    srpc_evtool_v1_thermostatextended2extended (Some th) (Some ev) = Some (1, Some ev') ∧
    srpc_evtool_v1_extended2thermostatextended (Some ev') (Some th0) =
    Some (1, Some (take (Z.to_nat n) th ++ zeros (sizeof TThermostat_ExtendedValue - n))).
Proof.
  intros Ht H0 He. change (sizeof TThermostat_ExtendedValue) with 246 in *.
  destruct th as [|f th]; [done|].
  assert (Hf : value_of ["Fields"%string] TThermostat_ExtendedValue 0 (f :: th) = Some f).
  { change (value_of ["Fields"%string] TThermostat_ExtendedValue 0 (f :: th))
      with (int_at 0 uchar ([] ++ [f] ++ th)).
    unfold int_at, uchar. rewrite (read_at_app [] [f]) by done. cbn. f_equal. lia. }
  destruct (thermostat_size_cases f) as (n & Hn & Hb).
  change (sizeof TThermostat_ExtendedValue) with 246 in *.
  eexists f, n, _. split; [done|]. split; [done|].
  unfold srpc_evtool_v1_thermostatextended2extended. rewrite memset0_zeros, ev_zeros by done.
  cbn [mbind option_bind]. rewrite ev_assign_type. cbn [mbind option_bind].
  rewrite ev_assign_size. cbn [mbind option_bind]. rewrite Hf. cbn [mbind option_bind].
  change (sizeof TThermostat_ExtendedValue) with 246.
  rewrite Hn. cbn [mbind option_bind]. rewrite (proj2 (Z.ltb_lt 0 n)) by lia.
  rewrite ev_assign_size. cbn [mbind option_bind].
  rewrite ev_write_value by (rewrite ?zeros_length; unfold SUPLA_CHANNELEXTENDEDVALUE_SIZE; lia).
  cbn [mbind option_bind]. split; [done|].
  unfold srpc_evtool_v1_extended2thermostatextended.
  rewrite ev_type, ev_size by (unfold is_u32; lia). cbn [mbind option_bind].
  change (sizeof TThermostat_ExtendedValue) with 246.
  change (negb (to_signed 1 (EV_TYPE_THERMOSTAT_DETAILS_V1 mod 256)
                =? EV_TYPE_THERMOSTAT_DETAILS_V1)) with false.
  rewrite (proj2 (Z.eqb_neq n 0)), (proj2 (Z.ltb_ge 246 n)) by lia. cbn [orb].
  rewrite memset0_zeros by done. cbn [mbind option_bind].
  assert (Hv : n <= Z.of_nat (length (take (Z.to_nat n) (f :: th) ++
              drop (Z.to_nat n) (zeros SUPLA_CHANNELEXTENDEDVALUE_SIZE)))).
  { rewrite length_app, length_take. lia. }
  rewrite ev_read_value by lia. cbn [mbind option_bind].
  rewrite memcpy_front by (change (sizeof TThermostat_ExtendedValue) with 246; lia).
  cbn [mbind option_bind]. do 4 f_equal.
  rewrite take_app_le by (rewrite length_take; lia). by rewrite take_take, Nat.min_id.
Qed.

(** C30. An extended value that holds several values is a list of values. Adding a
    value appends it to the list when the list still fits into the 1024 bytes (a
    single value always does) and otherwise refuses it and changes nothing; getting
    the value at an index gives that element of the list, and nothing past its
    end. *)
Theorem several_values_refine d s l x :
  holds d l → holds s [x] →
  (∃ d', srpc_evtool_value_add (Some d) (Some s)
         = Some (if fits (l ++ [x]) then 1 else 0, Some d') ∧
     (if fits (l ++ [x]) then holds d' (l ++ [x]) else d' = d)) ∧
  ∀ index out, 0 <= index < 2 ^ 16 → Z.of_nat (length out) = sizeof EV →
    match l !! Z.to_nat index with
    | Some y => ∃ out', srpc_evtool_value_get (Some d) index (Some out) = Some (1, Some out') ∧
                  holds out' [y]
    | None => srpc_evtool_value_get (Some d) index (Some out) = Some (0, Some out)
    end.
Proof.
  intros Hd Hs. split; [by apply value_add_holds|].
  intros index out Hi Ho. by apply value_get_holds.
Qed.

(** Getting a value out of any 1029 bytes ends and stays in the memory of the
    two structures, whatever the bytes and the index are, unless the value says
    that it has several values in less than five bytes or a size in it is within
    1029 of 2^32. *)
Theorem srpc_evtool_value_get_safe ev index d :
  Z.of_nat (length ev) = sizeof EV → Z.of_nat (length d) = sizeof EV → Forall is_u8 ev →
  0 <= index < 2 ^ 16 →
  (∀ size, value_of ["type"%string] EV 0 ev = Some EV_TYPE_MULTI_VALUE →
     value_of ["size"%string] EV 0 ev = Some size → header_size <= size) →
  no_size_wraps ev →
  ∃ r d', srpc_evtool_value_get (Some ev) index (Some d) = Some (r, Some d') ∧
    length d' = length d ∧ (r = 0 ∨ r = 1).
Proof.
  intros He Hd Hu Hi Hs Hw. pose proof He as He'. change (sizeof EV) with 1029 in He'.
  assert (Hfirst : ∃ r d',
    (if index =? 0 then b ← read_at ev 0 (sizeof EV); d' ← memcpy_to d 0 b (sizeof EV);
                        Some (1, Some d') else Some (0, Some d)) = Some (r, Some d') ∧
    length d' = length d ∧ (r = 0 ∨ r = 1)).
  { destruct (index =? 0); [|by exists 0, d; auto].
    rewrite read_at_Some by lia. cbn [mbind option_bind].
    rewrite memcpy_to_Some by (rewrite ?length_take, ?length_drop; lia). cbn [mbind option_bind].
    eexists 1, _. split; [done|]. split; [|by right].
    rewrite !length_app, !length_take, !length_drop. lia. }
  destruct (ev_mem_intro ev Hu) as (t & sz & v & Hev & Ht & Hz & _); [lia|].
  assert (Htype : value_of ["type"%string] EV 0 ev = Some (to_signed 1 t))
    by (rewrite Hev; apply ev_type).
  assert (Hsize : value_of ["size"%string] EV 0 ev = Some sz) by (rewrite Hev; by apply ev_size).
  unfold srpc_evtool_value_get. rewrite Htype. cbn [mbind option_bind].
  destruct (to_signed 1 t =? EV_TYPE_NONE); [by exists 0, d; auto|].
  destruct (Z.eqb_spec (to_signed 1 t) EV_TYPE_MULTI_VALUE) as [Em|]; [|exact Hfirst].
  rewrite Hsize. cbn [mbind option_bind]. rewrite Em in Htype.
  specialize (Hs sz Htype Hsize). change header_size with 5 in *. unfold is_u32 in Hz.
  set (size := if SUPLA_CHANNELEXTENDEDVALUE_SIZE <? sz then _ else sz).
  assert (Hsb : 5 <= size <= 1024).
  { unfold size, SUPLA_CHANNELEXTENDEDVALUE_SIZE. destruct (Z.ltb_spec 1024 sz); lia. }
  rewrite u32_id by (unfold is_u32; lia).
  destruct (value_get_loop_safe (Z.to_nat index) ev (size - 5) index d 0 0 He Hd Hu Hw
              ltac:(lia) ltac:(lia) ltac:(lia) ltac:(lia) ltac:(lia))
    as [->|(r & d' & -> & Hl & Hr)]; [exact Hfirst|]. by exists r, d'.
Qed.

(** Both exceptions are real: a value of several values with a size of two and an item
    that fills it, and one whose second item sends the offset backwards. *)
Definition ev_short : list Z :=
  ev_mem EV_TYPE_MULTI_VALUE 2 (ev_mem 14 1019 (zeros 1019)).

Definition ev_backwards : list Z :=
  ev_mem EV_TYPE_MULTI_VALUE 100
    (ev_mem 14 1 [9] ++ ev_mem 14 (2 ^ 32 - 10) [] ++ zeros 1013).

Theorem srpc_evtool_value_get_overruns :
  srpc_evtool_value_get (Some ev_short) 1 (Some (zeros 1029)) = None ∧
  srpc_evtool_value_get (Some ev_backwards) 1 (Some (zeros 1029)) = None ∧
  Z.of_nat (length ev_short) = sizeof EV ∧ Z.of_nat (length ev_backwards) = sizeof EV.
Proof. by vm_compute. Qed.

(** A negative number of measurements that is accepted: 62 * -2^31 is a multiple of
    2^32. *)
Theorem negative_m_count_accepted :
  let em := zeros 140 ++ to_le 4 (- 2 ^ 31) ++ zeros 310 in
  ∃ out, extended2emextended (em_type EM3) (em_ev_type EM3)
           (Some (ev_mem (em_ev_type EM3) 144 (take 144 em ++ zeros 880)))
           (Some (zeros 454)) = Some (1, Some out) ∧ em_value EM3 out = Some (- 2 ^ 31).
Proof.
  exists (em_received EM3 144 (zeros 140 ++ to_le 4 (- 2 ^ 31))). split; by vm_compute.
Qed.

(** ** Witnesses *)

Definition em_example : list Z := zeros 115 ++ to_le 4 2 ++ replicate 310 7.

Lemma em_values_travel_witness :
  ∃ r out, extended2emextended (em_type EM1) (em_ev_type EM1) (Some (zeros 1029))
             (Some (zeros 429)) = Some (r, Some out) ∧ length out = 429%nat.
Proof.
  destruct (em_values_travel EM1 em_example (zeros 1029) (zeros 429) 2)
    as (_ & r & out & He & Hl & _).
  - by vm_compute.
  - by vm_compute.
  - by vm_compute.
  - by apply Forall_replicate.
  - by vm_compute.
  - exists r, out. split; [exact He|exact Hl].
Defined.

Definition item_a : item := (14, [1; 2; 3]).
Definition item_b : item := (20, [4; 5]).

Lemma holds_example x : item_ok x →
  holds (item_bytes x ++ zeros (1024 - Z.of_nat (length x.2))) [x].
Proof.
  intros Hx. pose proof Hx as (_ & _ & _ & Hn). unfold SUPLA_CHANNELEXTENDEDVALUE_SIZE in Hn.
  split; [|split; [by apply Forall_cons_2|by eexists]].
  rewrite length_app, item_bytes_length, Nat2Z.inj_add, zeros_length by lia.
  change (sizeof EV) with 1029. lia.
Qed.

Lemma item_ok_examples : item_ok item_a ∧ item_ok item_b.
Proof. by repeat split. Qed.

Lemma several_values_refine_witness :
  ∃ d', srpc_evtool_value_add (Some (item_bytes item_a ++ zeros 1021))
          (Some (item_bytes item_b ++ zeros 1022)) = Some (1, Some d') ∧ holds d' [item_a; item_b].
Proof.
  destruct (several_values_refine (item_bytes item_a ++ zeros 1021)
              (item_bytes item_b ++ zeros 1022) [item_a] item_b
              (holds_example item_a (proj1 item_ok_examples))
              (holds_example item_b (proj2 item_ok_examples))) as [(d' & H & Hd) _].
  exists d'. split; [exact H|exact Hd].
Defined.

Lemma srpc_evtool_value_get_safe_witness :
  ∃ r d', srpc_evtool_value_get (Some (ev_mem EV_TYPE_MULTI_VALUE 20 (zeros 1024))) 3
            (Some (zeros 1029)) = Some (r, Some d') ∧ length d' = 1029%nat.
Proof.
  destruct (srpc_evtool_value_get_safe (ev_mem EV_TYPE_MULTI_VALUE 20 (zeros 1024)) 3
              (zeros 1029)) as (r & d' & H & Hl & _).
  - done.
  - done.
  - apply Forall_app. split; [by repeat constructor|]. apply Forall_app.
    split; [by repeat constructor|by apply Forall_replicate].
  - done.
  - intros size _ [= <-]. done.
  - intros o z Ho. unfold SUPLA_CHANNELEXTENDEDVALUE_SIZE in Ho.
    change (ev_mem EV_TYPE_MULTI_VALUE 20 (zeros 1024))
      with ([100; 20; 0; 0; 0] ++ zeros 1024).
    unfold value_of. change (place ["size"%string] EV) with (Some (1, uint32)).
    cbn [mbind option_bind int_at uint32]. unfold read_at. case_match; [|done].
    rewrite drop_app_ge by (change header_size with 5; cbn [length]; lia).
    unfold zeros. rewrite drop_replicate, take_replicate. cbn [mbind option_bind].
    assert (Hz : ∀ n, of_le (replicate n 0) = 0).
    { induction n as [|n IH]; [done|]. cbn [replicate of_le]. lia. }
    rewrite Hz. intros [= <-]. lia.
  - exists r, d'. split; [exact H|exact Hl].
Defined.
