(* ===== verification/ChannelExtValue.v ===== *)
(** * ChannelExtValue: the extended values that the server keeps

    device/extended_value/abstract_channel_extended_value.cpp, a value in a block of
    just the size it needs, and channel_em_extended_value.cpp, the measurements of an
    electricity meter, which are kept in the last version and given to each client in
    the version of its protocol. The sums of prices are floating-point products and
    are parameters. *)

From stdpp Require Import strings.
From S2P Require Import Prelude CLayout CMembers ProtoTypes ExtValue.

#[local] Open Scope list_scope.
#[local] Open Scope Z_scope.

(** ** supla_abstract_channel_extended_value *)

Record ext_value := ExtVal { value : option (list Z); real_size : Z }.

Definition no_value : ext_value := ExtVal None 0.

Definition get_type (v : ext_value) : option Z :=
  match value v with
  | Some b => value_of ["type"%string] EV 0 b
  | None => Some 0
  end.

(** [al]: what realloc answers, a block with any bytes where the old block had none, or
    the null pointer. *)
Definition _realloc (al : option (list Z)) (required_data_size : Z) (v : ext_value)
    : option ext_value :=
  if SUPLA_CHANNELEXTENDEDVALUE_SIZE <? required_data_size then Some no_value
  else
    let new_size := sizeof EV - SUPLA_CHANNELEXTENDEDVALUE_SIZE + required_data_size in
    if negb (new_size =? real_size v) then
      match al with
      | None => Some (ExtVal None new_size)
      | Some fresh =>
          let kept := match value v with
                      | Some b => take (Z.to_nat (real_size v `min` new_size)) b
                      | None => []
                      end in
          b ← assign ["size"%string] EV 0 required_data_size
                (kept ++ take (Z.to_nat new_size - length kept) fresh);
          b ← (if real_size v <? new_size
               then memcpy_to b (real_size v) (zeros (new_size - real_size v))
                      (new_size - real_size v)
               else Some b);
          Some (ExtVal (Some b) new_size)
      end
    else Some v.

Definition set_raw_value (al : option (list Z)) (from : option (list Z)) (v : ext_value)
    : option ext_value :=
  match from with
  | Some e =>
      size ← value_of ["size"%string] EV 0 e;
      v ← _realloc al size v;
      match value v with
      | Some b => b ← memcpy_to b 0 e (real_size v); Some (ExtVal (Some b) (real_size v))
      | None => Some v
      end
  | None => Some (match value v with Some _ => no_value | None => v end)
  end.

(** The result, and what is in the structure of the caller afterwards. *)
Definition get_raw_value (v : ext_value) (to : option (list Z))
    : option (bool * option (list Z)) :=
  match to with
  | Some d =>
      d ← memset0 EV d;
      match value v with
      | Some b => d ← memcpy_to d 0 b (real_size v); Some (true, Some d)
      | None => Some (false, Some d)
      end
  | None => Some (false, None)
  end.

(** ** supla_channel_em_extended_value *)

Definition em_is_ev_type_supported (type : Z) : bool :=
  (type =? EV_TYPE_ELECTRICITY_METER_MEASUREMENT_V1)
  || (type =? EV_TYPE_ELECTRICITY_METER_MEASUREMENT_V2)
  || (type =? EV_TYPE_ELECTRICITY_METER_MEASUREMENT_V3).

Section em_extended_value.
(** [get_cost price_per_unit sum] of the energies, in floating point. *)
Context (get_cost : Z → list Z → Z).

Notation V3 := TElectricityMeter_ExtendedValue_V3.

(** [supla_channel_billing_value::get_currency]; the text without its terminating
    null byte. *)
Definition get_currency (text_param1 : list Z) : list Z :=
  if Z.of_nat (length text_param1) `min` 4 =? 3 then text_param1 else zeros 3.

Definition total_energies (em : list Z) : option (list Z) :=
  b ← read_member "total_forward_active_energy"%string V3 em;
  e0 ← read_at b 0 8; e1 ← read_at b 8 8; e2 ← read_at b 16 8;
  Some [of_le e0; of_le e1; of_le e2].

(** The part of [set_raw_value] under "if (text_param1 && param2)". *)
Definition bill (text_param1 : list Z) (param2 : Z) (em : list Z) : option (list Z) :=
  energies ← total_energies em;
  em ← assign ["price_per_unit"%string] V3 0 param2 em;
  em ← write_member "currency"%string V3 (get_currency text_param1) em;
  em ← assign ["total_cost"%string] V3 0 (get_cost param2 energies) em;
  mv ← value_of ["measured_values"%string] V3 0 em;
  if negb (Z.land mv EM_VAR_FORWARD_ACTIVE_ENERGY_BALANCED =? 0) then
    balanced ← value_of ["total_forward_active_energy_balanced"%string] V3 0 em;
    assign ["total_cost_balanced"%string] V3 0 (get_cost param2 [balanced]) em
  else assign ["total_cost_balanced"%string] V3 0 0 em.

(** [set_raw_value] with a structure of the last version. The structure lies in the
    1024 bytes of the value, so it is billed in the copy of them. *)
Definition em_set_v3 (al : option (list Z)) (from : option (list Z))
    (billing : option (list Z * Z)) (v : ext_value) : option ext_value :=
  '(ok, new_value) ← srpc_evtool_v3_emextended2extended from (Some (zeros (sizeof EV)));
  if ok =? 0 then Some v
  else
    new_value ← match billing, new_value with
                | Some (text_param1, param2), Some e =>
                    em ← read_value (sizeof V3) e;
                    em ← bill text_param1 param2 em;
                    e ← write_value em (sizeof V3) e;
                    Some (Some e)
                | _, e => Some e
                end;
    set_raw_value al new_value v.

(** "if (!f(..) || !g(..) ..) return": the conversions to the last version. *)
Definition em_to_v3 (e : list Z) : outcome :=
  type ← value_of ["type"%string] EV 0 e;
  let v3 := em_zero V3 in
  if type =? EV_TYPE_ELECTRICITY_METER_MEASUREMENT_V1 then
    and_then (srpc_evtool_v1_extended2emextended (Some e)
                (em_zero TElectricityMeter_ExtendedValue))
      (λ v1, and_then (srpc_evtool_emev_v1to2 v1 (em_zero TElectricityMeter_ExtendedValue_V2))
               (λ v2, srpc_evtool_emev_v2to3 v2 v3) v3) v3
  else if type =? EV_TYPE_ELECTRICITY_METER_MEASUREMENT_V2 then
    and_then (srpc_evtool_v2_extended2emextended (Some e)
                (em_zero TElectricityMeter_ExtendedValue_V2))
      (λ v2, srpc_evtool_emev_v2to3 v2 v3) v3
  else if type =? EV_TYPE_ELECTRICITY_METER_MEASUREMENT_V3 then
    srpc_evtool_v3_extended2emextended (Some e) v3
  else Some (0, v3).

Definition em_set_raw_value (al : option (list Z)) (from : option (list Z))
    (billing : option (list Z * Z)) (v : ext_value) : option ext_value :=
  match from with
  | Some e =>
      '(ok, v3) ← em_to_v3 e;
      if ok =? 0 then Some v else em_set_v3 al v3 billing v
  | None => em_set_v3 al (em_zero V3) billing v
  end.

(** [get_raw_value] into a structure of the last version. *)
Definition em_get_v3 (v : ext_value) (to : list Z) : option (bool * list Z) :=
  '(ok, out) ← srpc_evtool_v3_extended2emextended (value v) (Some to);
  out ← out;
  if negb (ok =? 0) then Some (true, out) else out ← memset0 V3 out; Some (false, out).

Definition em_get_plain (v : ext_value) (to : option (list Z))
    : option (bool * option (list Z)) :=
  type ← get_type v;
  if em_is_ev_type_supported type then get_raw_value v to else Some (false, to).

(** [get_raw_value] for a client, in the version that its protocol has. *)
Definition em_get_raw_value (v : ext_value) (protocol_version : Z) (to : option (list Z))
    : option (bool * option (list Z)) :=
  let done (r : outcome) := '(ok, out) ← r; Some (negb (ok =? 0), out) in
  if (0 <? protocol_version) && (protocol_version <=? 12) then
    '(ok, v3) ← em_get_v3 v (zeros (sizeof V3));
    if ok : bool then
      done (and_then (srpc_evtool_emev_v3to2 (Some v3)
                        (em_zero TElectricityMeter_ExtendedValue_V2))
              (λ v2, and_then (srpc_evtool_emev_v2to1 v2
                                 (em_zero TElectricityMeter_ExtendedValue))
                       (λ v1, srpc_evtool_v1_emextended2extended v1 to) to) to)
    else Some (false, to)
  else if (0 <? protocol_version) && (protocol_version <? 25) then
    '(ok, v3) ← em_get_v3 v (zeros (sizeof V3));
    if ok : bool then
      done (and_then (srpc_evtool_emev_v3to2 (Some v3)
                        (em_zero TElectricityMeter_ExtendedValue_V2))
              (λ v2, srpc_evtool_v2_emextended2extended v2 to) to)
    else Some (false, to)
  else em_get_plain v to.
End em_extended_value.

(** ** What a conversion carries over *)

(** A structure of version [b] with what a structure of version [a] has: the members
    that both have, zero for the others, and the flags without [flags]. *)
Definition carries (a b : em_version) (flags : list Z) (s d : list Z) : Prop :=
  Z.of_nat (length s) = sizeof (em_type a) ∧ Z.of_nat (length d) = sizeof (em_type b) ∧
  (∃ x, measured a s = Some x ∧ is_i32 x ∧ measured b d = Some (masked flags x) ∧
     is_i32 (masked flags x)) ∧
  ∀ f, f ∈ em_names b → f ≠ "measured_values"%string →
    read_member f (em_type b) d =
    if bool_decide (f ∈ em_names a) then read_member f (em_type a) s
    else read_member f (em_type b) (zeros (sizeof (em_type b))).

(** The same, but for the members [skip]. *)
Definition carries_but (skip : list string) (a b : em_version) (flags : list Z) (s d : list Z) : Prop :=
  Z.of_nat (length s) = sizeof (em_type a) ∧ Z.of_nat (length d) = sizeof (em_type b) ∧
  (∃ x, measured a s = Some x ∧ is_i32 x ∧ measured b d = Some (masked flags x) ∧
     is_i32 (masked flags x)) ∧
  ∀ f, f ∈ em_names b → f ≠ "measured_values"%string → f ∉ skip →
    read_member f (em_type b) d =
    if bool_decide (f ∈ em_names a) then read_member f (em_type a) s
    else read_member f (em_type b) (zeros (sizeof (em_type b))).

(** What the versions have in common, decided by evaluation. *)
Definition between (a b c : em_version) : bool :=
  forallb (λ f, negb (bool_decide (f ∈ em_names a)) || bool_decide (f ∈ em_names b))
    (em_names c)
  && forallb (λ f, negb (bool_decide (f ∈ em_names b))
                   || bool_decide (f ∈ em_names a)
                   || bool_decide (read_member f (em_type b) (zeros (sizeof (em_type b)))
                                   = read_member f (em_type c) (zeros (sizeof (em_type c)))))
       (em_names c).

Lemma forallb_in {A} (P : A → bool) l x : forallb P l = true → x ∈ l → P x = true.
Proof.
  induction l as [|y l IH]; intros H Hx; [by apply not_elem_of_nil in Hx|].
  cbn in H. apply andb_true_iff in H as [Hy H].
  apply elem_of_cons in Hx as [->|Hx]; [done|by apply IH].
Qed.

Lemma masked_app f1 f2 x : masked (f1 ++ f2) x = masked f2 (masked f1 x).
Proof. apply foldl_app. Qed.

(** Two structures of a version differ in the members [skip] only. *)
Definition differ_in (skip : list string) (a : em_version) (m m' : list Z) : Prop :=
  ∀ f, f ∈ em_names a → f ∉ skip → read_member f (em_type a) m' = read_member f (em_type a) m.

Lemma carries_trans_but skip a b c f1 f2 s m m' d :
  between a b c = true → carries a b f1 s m → differ_in skip b m m' →
  measured b m' = measured b m → carries b c f2 m' d → carries_but skip a c (f1 ++ f2) s d.
Proof.
  intros Hb (Hs & _ & (x & Hx & Hi & Hmx & Hmi) & H1) Hsame Em
    (_ & Hd & (y & Hy & _ & Hdy & Hdi) & H2).
  rewrite Em, Hmx in Hy. injection Hy as <-. apply andb_true_iff in Hb as [Hb1 Hb2].
  split; [done|]. split; [done|]. split.
  { exists x. rewrite masked_app. auto. }
  intros f Hf Hne Hskip. rewrite (H2 f Hf Hne).
  pose proof (forallb_in _ _ _ Hb1 Hf) as B1. pose proof (forallb_in _ _ _ Hb2 Hf) as B2.
  cbn beta in B1, B2. destruct (decide (f ∈ em_names b)) as [Hfb|Hfb].
  - rewrite (bool_decide_eq_true_2 (f ∈ em_names b)) by done.
    rewrite (Hsame f Hfb Hskip), (H1 f Hfb Hne).
    destruct (decide (f ∈ em_names a)) as [Hfa|Hfa].
    + by rewrite !bool_decide_eq_true_2.
    + rewrite (bool_decide_eq_true_2 (f ∈ em_names b)), (bool_decide_eq_false_2 (f ∈ em_names a))
        in B2 by done. cbn [negb orb] in B2. apply bool_decide_eq_true in B2.
      by rewrite !(bool_decide_eq_false_2 (f ∈ em_names a)).
  - rewrite (bool_decide_eq_false_2 (f ∈ em_names b)) in B1 |- * by done.
    rewrite orb_false_r in B1. apply negb_true_iff in B1. by rewrite B1.
Qed.

Lemma carries_trans a b c f1 f2 s m d :
  between a b c = true → carries a b f1 s m → carries b c f2 m d →
  carries a c (f1 ++ f2) s d.
Proof.
  intros Hb H1 H2. destruct (carries_trans_but [] a b c f1 f2 s m m d Hb H1) as (Hs & Hd & Hm & H);
    [done|done|done|].
  split_and!; [done|done|done|]. intros f Hf Hne. apply H; [done|done|]. apply not_elem_of_nil.
Qed.

Lemma carries_refl a s x :
  Z.of_nat (length s) = sizeof (em_type a) → measured a s = Some x → is_i32 x →
  carries a a [] s s.
Proof.
  intros Hs Hx Hi. split; [done|]. split; [done|]. split; [by exists x|].
  intros f Hf _. by rewrite bool_decide_eq_true_2.
Qed.

(** A conversion that copies exactly the common members. *)
Definition copies_common (a b : em_version) (more : list string) : bool :=
  forallb (λ f, eqb (bool_decide (f ∈ emev_copied ++ more)) (bool_decide (f ∈ em_names a)))
    (em_names b).

Lemma convert_carries a b more flags s x d :
  convertible a b more flags && copies_common a b more = true →
  Z.of_nat (length s) = sizeof (em_type a) → measured a s = Some x → is_i32 x →
  Z.of_nat (length d) = sizeof (em_type b) →
  ∃ d', emev_convert (em_type a) (em_type b) more flags (Some s) (Some d) = Some (1, Some d') ∧
    carries a b flags s d'.
Proof.
  intros Hc Hs Hx Hi Hd. apply andb_true_iff in Hc as [Hc Hcc].
  destruct (emev_convert_ok a b more flags s d x Hc Hs Hd Hx Hi)
    as (d' & He & (Hl & Hm & Hr) & Hmi).
  exists d'. split; [done|]. split; [done|]. split; [done|]. split; [by exists x; auto|].
  intros f Hf Hne. rewrite (Hr f Hf Hne). pose proof (forallb_in _ _ _ Hcc Hf) as B.
  apply eqb_prop in B. by rewrite B.
Qed.

Lemma v1to2_carries s x d :
  Z.of_nat (length s) = sizeof (em_type EM1) → measured EM1 s = Some x → is_i32 x →
  Z.of_nat (length d) = sizeof (em_type EM2) →
  ∃ d', srpc_evtool_emev_v1to2 (Some s) (Some d) = Some (1, Some d') ∧
    carries EM1 EM2 balanced_flags s d'.
Proof. apply (convert_carries EM1 EM2 []). by vm_compute. Qed.

Lemma v2to1_carries s x d :
  Z.of_nat (length s) = sizeof (em_type EM2) → measured EM2 s = Some x → is_i32 x →
  Z.of_nat (length d) = sizeof (em_type EM1) →
  ∃ d', srpc_evtool_emev_v2to1 (Some s) (Some d) = Some (1, Some d') ∧
    carries EM2 EM1 balanced_flags s d'.
Proof. apply (convert_carries EM2 EM1 []). by vm_compute. Qed.

Lemma v2to3_carries s x d :
  Z.of_nat (length s) = sizeof (em_type EM2) → measured EM2 s = Some x → is_i32 x →
  Z.of_nat (length d) = sizeof (em_type EM3) →
  ∃ d', srpc_evtool_emev_v2to3 (Some s) (Some d) = Some (1, Some d') ∧
    carries EM2 EM3 phase_flags s d'.
Proof. apply (convert_carries EM2 EM3 balanced_members). by vm_compute. Qed.

Lemma v3to2_carries s x d :
  Z.of_nat (length s) = sizeof (em_type EM3) → measured EM3 s = Some x → is_i32 x →
  Z.of_nat (length d) = sizeof (em_type EM2) →
  ∃ d', srpc_evtool_emev_v3to2 (Some s) (Some d) = Some (1, Some d') ∧
    carries EM3 EM2 phase_flags s d'.
Proof. apply (convert_carries EM3 EM2 balanced_members). by vm_compute. Qed.

(** ** Structures with [k] measurements and nothing after them *)

Definition em_ready (a : em_version) (s : list Z) (k : Z) : Prop :=
  Z.of_nat (length s) = sizeof (em_type a) ∧ em_value a s = Some k ∧
  0 <= k <= EM_MEASUREMENT_COUNT ∧
  drop (Z.to_nat (em_base a + 62 * k)) s = zeros (310 - 62 * k) ∧
  ∃ x, measured a s = Some x ∧ is_i32 x.

Lemma em_m_count_member a mem :
  em_value a mem = (b ← read_member "m_count"%string (em_type a) mem;
                    Some (to_signed 4 (of_le b))).
Proof.
  rewrite value_of_single. unfold read_member.
  by replace (member "m_count"%string (em_type a)) with (Some (em_base a - 4, int32))
    by by destruct a.
Qed.

Lemma read_m a s :
  Z.of_nat (length s) = sizeof (em_type a) →
  read_member "m"%string (em_type a) s = Some (drop (Z.to_nat (em_base a)) s).
Proof.
  intros Hs. destruct (em_layout a) as (_ & Hz & Hb & _). unfold read_member.
  replace (member "m"%string (em_type a))
    with (Some (em_base a, CArr EM_MEASUREMENT_COUNT TElectricityMeter_Measurement))
    by by destruct a.
  cbn [mbind option_bind]. change (sizeof (CArr _ _)) with 310.
  rewrite read_at_Some by lia. by rewrite take_ge by (rewrite length_drop; lia).
Qed.

Lemma common_names a b :
  "m"%string ∈ em_names a ∧ "m"%string ∈ em_names b ∧
  "m_count"%string ∈ em_names a ∧ "m_count"%string ∈ em_names b.
Proof. destruct a, b; repeat split; by apply (bool_decide_unpack _). Qed.

Lemma carries_ready a b fl s d k : em_ready a s k → carries a b fl s d → em_ready b d k.
Proof.
  intros (Hs & Hk & Hr & Hz & _) (_ & Hd & (x & _ & _ & Hx & Hi) & Hm).
  destruct (common_names a b) as (Ma & Mb & Ca & Cb).
  destruct (em_layout a) as (_ & _ & Hba & _), (em_layout b) as (_ & _ & Hbb & _).
  split; [done|]. split; [|split; [done|split; [|by eexists]]].
  - rewrite em_m_count_member, (Hm _ Cb), bool_decide_eq_true_2 by done.
    by rewrite <- em_m_count_member.
  - specialize (Hm _ Mb). rewrite bool_decide_eq_true_2, !read_m in Hm by done.
    specialize (Hm ltac:(done)). injection Hm as Hm.
    rewrite <- Hz. apply (f_equal (drop (Z.to_nat (62 * k)))) in Hm.
    rewrite !drop_drop in Hm.
    replace (Z.to_nat (em_base a) + Z.to_nat (62 * k))%nat
      with (Z.to_nat (em_base a + 62 * k)) in Hm by lia.
    by replace (Z.to_nat (em_base b) + Z.to_nat (62 * k))%nat
      with (Z.to_nat (em_base b + 62 * k)) in Hm by lia.
Qed.

Lemma ready_bounds a s k : em_ready a s k →
  119 <= em_base a + 62 * k <= sizeof (em_type a) ∧ sizeof (em_type a) = em_base a + 310 ∧
  em_base a <= 144 ∧ 0 <= k <= 5.
Proof.
  intros (_ & _ & Hr & _). destruct (em_layout a) as (_ & Hz & Hb & _).
  assert (Hr' : 0 <= k <= 5) by exact Hr. lia.
Qed.

(** Reading an extended value with the bytes in use of such a structure gives it. *)
Lemma decode_ready a s k v em0 :
  em_ready a s k → Z.of_nat (length em0) = sizeof (em_type a) →
  em_base a + 62 * k <= Z.of_nat (length v) →
  take (Z.to_nat (em_base a + 62 * k)) v = take (Z.to_nat (em_base a + 62 * k)) s →
  extended2emextended (em_type a) (em_ev_type a)
    (Some (ev_mem (em_ev_type a) (em_base a + 62 * k) v)) (Some em0) = Some (1, Some s).
Proof.
  intros Hrd H0 Hv Ht. pose proof (ready_bounds a s k Hrd) as (Hn & Hs & Hb & Hk).
  pose proof Hrd as (Hl & Hc & _ & Hz & _). set (n := em_base a + 62 * k) in *.
  assert (Hrec : em_received a n v = s).
  { unfold em_received. rewrite Ht. rewrite <- (take_drop (Z.to_nat n) s) at 2. rewrite Hz.
    do 2 f_equal. lia. }
  rewrite extended2emextended_cases by (try done; unfold is_u32; lia).
  rewrite em_type_signed, Z.eqb_refl, Hrec, Hc. cbn [mbind option_bind].
  replace (negb true || (n =? 0) || (sizeof (em_type a) <? n))%bool with false by lia.
  fold n. rewrite u32_id by (unfold is_u32; lia). unfold EM_MEASUREMENT_COUNT.
  by replace ((k <=? 5) && (n =? n))%bool with true by lia.
Qed.

Lemma encode_ready a s k ev :
  em_ready a s k → Z.of_nat (length ev) = sizeof EV →
  ∃ v, emextended2extended (em_type a) (em_ev_type a) (Some s) (Some ev)
       = Some (1, Some (ev_mem (em_ev_type a) (em_base a + 62 * k) v)) ∧
    Z.of_nat (length v) = SUPLA_CHANNELEXTENDEDVALUE_SIZE ∧
    take (Z.to_nat (em_base a + 62 * k)) v = take (Z.to_nat (em_base a + 62 * k)) s.
Proof.
  intros Hrd He. pose proof (ready_bounds a s k Hrd) as (Hn & Hs & Hb & Hk).
  pose proof Hrd as (Hl & Hc & Hr & _).
  eexists. split; [by apply emextended2extended_ok|].
  unfold SUPLA_CHANNELEXTENDEDVALUE_SIZE. split.
  - rewrite length_app, length_take, Nat2Z.inj_add, zeros_length by lia. lia.
  - rewrite take_app_le by (rewrite length_take; lia). by rewrite take_take, Nat.min_id.
Qed.

(** What a peer decodes of a structure that was encoded is such a structure. *)
Lemma received_ready a em k :
  Z.of_nat (length em) = sizeof (em_type a) → Forall is_u8 em → em_value a em = Some k →
  0 <= k <= EM_MEASUREMENT_COUNT → em_ready a (em_received a (em_base a + 62 * k) em) k.
Proof.
  intros Hl Hu Hk Hr. destruct (em_layout a) as (_ & Hs & Hb & _).
  assert (Hr' : 0 <= k <= 5) by exact Hr.
  assert (Hrl : Z.of_nat (length (em_received a (em_base a + 62 * k) em)) = sizeof (em_type a)).
  { apply em_received_length; lia. }
  split; [done|]. split; [apply em_received_count; (done || lia)|]. split; [done|]. split.
  { unfold em_received. rewrite drop_app_length' by (rewrite length_take; lia).
    f_equal. lia. }
  rewrite measured_member. unfold read_member. rewrite em_measured_member.
  cbn [mbind option_bind]. change (sizeof int32) with 4.
  rewrite read_at_Some by lia. cbn [mbind option_bind]. eexists. split; [done|].
  set (b := take _ _). assert (Hb4 : length b = 4%nat).
  { unfold b. rewrite length_take, length_drop. lia. }
  assert (Hbu : Forall is_u8 b).
  { apply Forall_take, Forall_drop, Forall_app. split; [by apply Forall_take|].
    apply Forall_replicate. split; [done|]. reflexivity. }
  pose proof (of_le_range b Hbu) as Hr4. rewrite Hb4 in Hr4.
  change (256 ^ Z.of_nat 4) with (2 ^ 32) in Hr4. unfold is_i32, to_signed.
  change (2 ^ (8 * 4 - 1)) with (2 ^ 31). change (2 ^ (8 * 4)) with (2 ^ 32).
  destruct (Z.ltb_spec (of_le b) (2 ^ 31)); lia.
Qed.

(** ** The value that the server keeps *)

Definition ext_ok (v : ext_value) : Prop :=
  match value v with
  | Some b => Z.of_nat (length b) = real_size v ∧ header_size <= real_size v
  | None => real_size v = 0
  end.

Lemma realloc_ok fresh n v :
  ext_ok v → 0 <= n <= SUPLA_CHANNELEXTENDEDVALUE_SIZE →
  header_size + n <= Z.of_nat (length fresh) →
  ∃ b, _realloc (Some fresh) n v = Some (ExtVal (Some b) (header_size + n)) ∧
    Z.of_nat (length b) = header_size + n.
Proof.
  unfold ext_ok, _realloc, SUPLA_CHANNELEXTENDEDVALUE_SIZE. change (sizeof EV) with 1029.
  change header_size with 5. intros Hv Hn Hf. rewrite (proj2 (Z.ltb_ge 1024 n)) by lia.
  change (1029 - 1024) with 5. destruct v as [bv rs]. cbn [value real_size] in *.
  destruct (Z.eqb_spec (5 + n) rs) as [<-|Hne]; cbn [negb].
  { destruct bv as [b|]; [|lia]. exists b. by destruct Hv. }
  set (kept := match bv with Some b => take (Z.to_nat (rs `min` (5 + n))) b | None => [] end).
  assert (Hk : Z.of_nat (length kept) = rs `min` (5 + n)).
  { unfold kept. destruct bv as [b|]; [rewrite length_take|cbn [length]]; lia. }
  set (b0 := kept ++ take (Z.to_nat (5 + n) - length kept) fresh).
  assert (Hb0 : Z.of_nat (length b0) = 5 + n).
  { unfold b0. rewrite length_app, length_take. lia. }
  rewrite assign_single. change (member "size"%string EV) with (Some (1, uint32)).
  cbn [mbind option_bind]. change (sizeof uint32) with 4.
  rewrite memcpy_to_Some by (rewrite ?to_le_length; lia). cbn [mbind option_bind].
  set (b1 := take _ b0 ++ _). assert (Hb1 : Z.of_nat (length b1) = 5 + n).
  { unfold b1. rewrite !length_app, !length_take, length_drop, to_le_length. lia. }
  destruct (Z.ltb_spec rs (5 + n)) as [Hlt|Hge]; cbn [mbind option_bind].
  - rewrite memcpy_to_Some; [|destruct bv; lia|lia|lia|rewrite zeros_length; lia].
    cbn [mbind option_bind]. eexists. split; [done|].
    rewrite !length_app, !length_take, length_drop, !Nat2Z.inj_add, !Nat2Z.inj_min,
      zeros_length by lia. destruct bv; lia.
  - by exists b1.
Qed.

Lemma set_raw_value_ok fresh t n w v :
  ext_ok v → 0 <= n <= SUPLA_CHANNELEXTENDEDVALUE_SIZE → n <= Z.of_nat (length w) →
  header_size + n <= Z.of_nat (length fresh) →
  set_raw_value (Some fresh) (Some (ev_mem t n w)) v =
  Some (ExtVal (Some (ev_mem t n (take (Z.to_nat n) w))) (header_size + n)).
Proof.
  intros Hv Hn Hw Hf. unfold set_raw_value, SUPLA_CHANNELEXTENDEDVALUE_SIZE in *.
  rewrite ev_size by (unfold is_u32; lia). cbn [mbind option_bind].
  destruct (realloc_ok fresh n v Hv Hn Hf) as (b & -> & Hb). cbn [mbind option_bind].
  change header_size with 5 in *. cbn [value real_size].
  rewrite memcpy_to_Some by (rewrite ?ev_mem_length; lia). cbn [mbind option_bind].
  change (Z.to_nat 0) with 0%nat. rewrite take_0, app_nil_l, drop_ge, app_nil_r by lia.
  do 3 f_equal. unfold ev_mem. rewrite !app_assoc, take_app_ge
    by (rewrite length_app, to_le_length; cbn [length]; lia).
  f_equal. rewrite length_app, to_le_length. cbn [length]. f_equal. lia.
Qed.

(** The version of a client's protocol, and the flags that a way up to the last
    version and a way down from it clear. *)
Definition client_version (protocol_version : Z) : em_version :=
  if (0 <? protocol_version) && (protocol_version <=? 12) then EM1
  else if (0 <? protocol_version) && (protocol_version <? 25) then EM2 else EM3.

Definition up_flags (a : em_version) : list Z :=
  match a with EM1 => balanced_flags ++ phase_flags | EM2 => phase_flags | EM3 => [] end.

Definition down_flags (b : em_version) : list Z :=
  match b with EM1 => phase_flags ++ balanced_flags | EM2 => phase_flags | EM3 => [] end.

Lemma between_all a b : between a EM3 b = true.
Proof. by destruct a, b; vm_compute. Qed.

Lemma em_zeros_length a : Z.of_nat (length (zeros (sizeof (em_type a)))) = sizeof (em_type a).
Proof. by destruct a. Qed.

Lemma carries_measured a b fl s d : carries a b fl s d →
  Z.of_nat (length d) = sizeof (em_type b) ∧ ∃ x, measured b d = Some x ∧ is_i32 x.
Proof. intros (_ & Hd & (x & _ & _ & H & Hi) & _). by eauto. Qed.

Lemma em_to_v3_ready a s k w :
  em_ready a s k → em_base a + 62 * k <= Z.of_nat (length w) →
  take (Z.to_nat (em_base a + 62 * k)) w = take (Z.to_nat (em_base a + 62 * k)) s →
  ∃ v3, em_to_v3 (ev_mem (em_ev_type a) (em_base a + 62 * k) w) = Some (1, Some v3) ∧
    carries a EM3 (up_flags a) s v3.
Proof.
  intros Hrd Hw Ht. pose proof Hrd as (Hl & _ & _ & _ & x & Hx & Hi).
  unfold em_to_v3. rewrite ev_type, em_type_signed. cbn [mbind option_bind].
  pose proof (decode_ready a s k w _ Hrd (em_zeros_length a) Hw Ht) as Hdec.
  destruct a; cbn [em_ev_type em_type up_flags] in *;
    (repeat match goal with |- context [?x =? ?y] =>
       is_ground x; is_ground y; let b := eval vm_compute in (x =? y) in
       change (x =? y) with b; cbn iota end).
  - unfold srpc_evtool_v1_extended2emextended, em_zero at 1. rewrite Hdec.
    cbn [and_then mbind option_bind]. change (1 =? 0) with false. cbn iota.
    destruct (v1to2_carries s x (zeros (sizeof (em_type EM2))) Hl Hx Hi (em_zeros_length EM2))
      as (v2 & H2 & C2). unfold em_zero at 1. cbn [em_type] in H2. rewrite H2.
    cbn [and_then mbind option_bind]. change (1 =? 0) with false. cbn iota.
    destruct (carries_measured _ _ _ _ _ C2) as (L2 & y & Hy & Hyi).
    destruct (v2to3_carries v2 y (zeros (sizeof (em_type EM3))) L2 Hy Hyi (em_zeros_length EM3))
      as (v3 & H3 & C3). exists v3. split; [exact H3|].
    apply (carries_trans EM1 EM2 EM3 _ _ s v2 v3); [by vm_compute|done|done].
  - unfold srpc_evtool_v2_extended2emextended, em_zero at 1. rewrite Hdec.
    cbn [and_then mbind option_bind]. change (1 =? 0) with false. cbn iota.
    destruct (v2to3_carries s x (zeros (sizeof (em_type EM3))) Hl Hx Hi (em_zeros_length EM3))
      as (v3 & H3 & C3). by exists v3.
  - exists s. split; [exact Hdec|]. by apply (carries_refl EM3 s x).
Qed.

Section delivery.
Context (get_cost : Z → list Z → Z).

Notation V3 := TElectricityMeter_ExtendedValue_V3.

(** *** What the server writes over it *)

Definition billed_members : list string :=
  ["price_per_unit"; "currency"; "total_cost"; "total_cost_balanced"]%string.

Definition billed (billing : option (list Z * Z)) : list string :=
  match billing with Some _ => billed_members | None => [] end.

(** A structure of the last version before and after: the price and the currency of the channel's
    configuration, and what the energy costs at this price. *)
Definition bills (billing : option (list Z * Z)) (m m' : list Z) : Prop :=
  differ_in (billed billing) EM3 m m' ∧
  match billing with
  | None => m' = m
  | Some (text, price) =>
      let read f := read_member f (em_type EM3) m' in
      read "price_per_unit"%string = Some (to_le 4 price)
      ∧ read "currency"%string = Some (get_currency text)
      ∧ (∃ energies, total_energies m = Some energies
           ∧ read "total_cost"%string = Some (to_le 4 (get_cost price energies)))
      ∧ ∃ x energy, measured EM3 m = Some x
          ∧ value_of ["total_forward_active_energy_balanced"%string] (em_type EM3) 0 m = Some energy
          ∧ read "total_cost_balanced"%string
            = Some (to_le 4 (if Z.land x EM_VAR_FORWARD_ACTIVE_ENERGY_BALANCED =? 0 then 0
                             else get_cost price [energy]))
  end.

Lemma get_currency_length text : length (get_currency text) = 3%nat.
Proof.
  unfold get_currency. destruct (_ =? 3) eqn:E; [|done]. lia.
Qed.

(** A member of the last version is written; the others stay. *)
Lemma write_v3 f o t bytes mem :
  member f (em_type EM3) = Some (o, t) → Z.of_nat (length bytes) = sizeof t →
  Z.of_nat (length mem) = sizeof (em_type EM3) →
  ∃ mem', memcpy_to mem o bytes (sizeof t) = Some mem' ∧ length mem' = length mem
    ∧ read_member f (em_type EM3) mem' = Some bytes ∧ differ_in [f] EM3 mem mem'.
Proof.
  intros Hm Hb Hl. destruct (em_layout EM3) as (Hfl & _). rewrite (em_struct EM3) in Hm, Hfl, Hl.
  destruct (member_bounds _ _ _ _ Hfl Hm) as (H1 & H2 & H3).
  eexists. split; [apply memcpy_to_Some; lia|]. set (mem' := take _ _ ++ _).
  assert (Hw : write_member f (CStruct (members_of (em_type EM3))) bytes mem = Some mem').
  { unfold write_member. rewrite Hm. cbn [mbind option_bind]. apply memcpy_to_Some; lia. }
  assert (Hf : f ∈ em_names EM3) by (apply (member_name f _ Hfl); by eexists).
  split; [by eapply write_member_length|]. unfold differ_in. rewrite (em_struct EM3). split.
  - rewrite (read_write_member f f _ bytes mem mem' Hfl Hf Hw), bool_decide_eq_true_2, Hm by done.
    cbn [mbind option_bind]. by rewrite take_ge by lia.
  - intros g Hg Hne. rewrite (read_write_member f g _ bytes mem mem' Hfl Hg Hw).
    rewrite bool_decide_eq_false_2; [done|]. intros ->. by apply Hne, list_elem_of_singleton.
Qed.

Lemma assign_v3 f o z mem :
  member f (em_type EM3) = Some (o, int32) → Z.of_nat (length mem) = sizeof (em_type EM3) →
  ∃ mem', assign [f] (em_type EM3) 0 z mem = Some mem' ∧ length mem' = length mem
    ∧ read_member f (em_type EM3) mem' = Some (to_le 4 z) ∧ differ_in [f] EM3 mem mem'.
Proof.
  intros Hm Hl. rewrite assign_single, Hm. cbn [mbind option_bind].
  change (Z.to_nat (sizeof int32)) with 4%nat. apply write_v3; [done| |done].
  by rewrite to_le_length.
Qed.


Lemma differ_trans l1 l2 a m m1 m2 :
  differ_in l1 a m m1 → differ_in l2 a m1 m2 → differ_in (l1 ++ l2) a m m2.
Proof.
  intros H1 H2 f Hf [Hn1 Hn2]%not_elem_of_app. by rewrite (H2 f Hf Hn2), (H1 f Hf Hn1).
Qed.

Lemma balanced_member mem :
  value_of ["total_forward_active_energy_balanced"%string] (em_type EM3) 0 mem
  = (b ← read_member "total_forward_active_energy_balanced"%string (em_type EM3) mem;
     Some (of_le b)).
Proof. by rewrite value_of_single. Qed.

Lemma read_v3 f o t mem : member f (em_type EM3) = Some (o, t) →
  Z.of_nat (length mem) = sizeof (em_type EM3) →
  ∃ b, read_member f (em_type EM3) mem = Some b ∧ Z.of_nat (length b) = sizeof t.
Proof.
  intros Hm Hl. destruct (em_layout EM3) as (Hfl & _). rewrite (em_struct EM3) in Hm, Hfl, Hl |- *.
  destruct (member_bounds _ _ _ _ Hfl Hm) as (H1 & H2 & H3).
  unfold read_member. rewrite Hm. cbn [mbind option_bind].
  rewrite read_at_Some by lia. eexists. split; [done|]. rewrite length_take, length_drop. lia.
Qed.

Lemma total_energies_some mem : Z.of_nat (length mem) = sizeof (em_type EM3) →
  ∃ l, total_energies mem = Some l.
Proof.
  intros Hl. destruct (read_v3 "total_forward_active_energy"%string 0 (CArr 3 uint64) mem eq_refl Hl)
    as (b & Hb & Hlb). change (sizeof (CArr 3 uint64)) with 24 in Hlb.
  unfold total_energies. cbn [em_type] in Hb. rewrite Hb. cbn [mbind option_bind].
  rewrite !read_at_Some by lia. by eexists.
Qed.

(** The last step of [bill]. *)
Lemma bill_balanced price m x energy : Z.of_nat (length m) = sizeof (em_type EM3) →
  measured EM3 m = Some x →
  value_of ["total_forward_active_energy_balanced"%string] (em_type EM3) 0 m = Some energy →
  ∃ m', (mv ← value_of ["measured_values"%string] V3 0 m;
         if negb (Z.land mv EM_VAR_FORWARD_ACTIVE_ENERGY_BALANCED =? 0) then
           balanced ← value_of ["total_forward_active_energy_balanced"%string] V3 0 m;
           assign ["total_cost_balanced"%string] V3 0 (get_cost price [balanced]) m
         else assign ["total_cost_balanced"%string] V3 0 0 m) = Some m'
    ∧ length m' = length m ∧ differ_in ["total_cost_balanced"%string] EM3 m m'
    ∧ read_member "total_cost_balanced"%string (em_type EM3) m'
      = Some (to_le 4 (if Z.land x EM_VAR_FORWARD_ACTIVE_ENERGY_BALANCED =? 0 then 0
                       else get_cost price [energy])).
Proof.
  intros Hl Hx He. cbn [em_type] in Hx, He. rewrite Hx. cbn [mbind option_bind].
  destruct (Z.land x _ =? 0); cbn [negb]; [|rewrite He; cbn [mbind option_bind]].
  - destruct (assign_v3 "total_cost_balanced"%string 121 0 m eq_refl Hl) as (m' & E & L & R & D).
    by exists m'.
  - destruct (assign_v3 "total_cost_balanced"%string 121 (get_cost price [energy]) m eq_refl Hl)
      as (m' & E & L & R & D). by exists m'.
Qed.

Lemma bill_ok text price m x : Z.of_nat (length m) = sizeof (em_type EM3) → measured EM3 m = Some x →
  ∃ m', bill get_cost text price m = Some m' ∧ length m' = length m
    ∧ bills (Some (text, price)) m m'.
Proof.
  intros Hl Hx. unfold bill. destruct (total_energies_some m Hl) as [es He]. rewrite He.
  cbn [mbind option_bind].
  destruct (assign_v3 "price_per_unit"%string 125 price m eq_refl Hl) as (m1 & E1 & L1 & R1 & D1).
  cbn [em_type] in E1. rewrite E1. cbn [mbind option_bind].
  destruct (write_v3 "currency"%string 129 (CArr 3 schar) (get_currency text) m1 eq_refl)
    as (m2 & E2 & L2 & R2 & D2); [by rewrite get_currency_length|lia|].
  unfold write_member. change (member "currency"%string V3) with (Some (129, CArr 3 schar)).
  cbn [mbind option_bind]. rewrite E2. cbn [mbind option_bind].
  destruct (assign_v3 "total_cost"%string 117 (get_cost price es) m2 eq_refl ltac:(lia))
    as (m3 & E3 & L3 & R3 & D3).
  cbn [em_type] in E3. rewrite E3. cbn [mbind option_bind].
  pose proof (differ_trans _ _ _ _ _ _ D2 D3) as D23.
  pose proof (differ_trans _ _ _ _ _ _ D1 D23) as D123.
  assert (Hmv : measured EM3 m3 = Some x).
  { rewrite measured_member, D123, <- measured_member; [done|by apply (bool_decide_unpack _)..]. }
  destruct (read_v3 "total_forward_active_energy_balanced"%string 96 uint64 m eq_refl Hl) as (b & Hb & _).
  assert (Hbal : ∀ m', read_member "total_forward_active_energy_balanced"%string (em_type EM3) m' = Some b →
    value_of ["total_forward_active_energy_balanced"%string] (em_type EM3) 0 m' = Some (of_le b)).
  { intros m' E. by rewrite balanced_member, E. }
  destruct (bill_balanced price m3 x (of_le b)) as (m4 & E4 & L4 & D4 & R4); [lia|done| |].
  { apply Hbal. rewrite D123; [done|by apply (bool_decide_unpack _)..]. }
  exists m4. split; [exact E4|]. split; [lia|]. split; [exact (differ_trans _ _ _ _ _ _ D123 D4)|].
  pose proof (differ_trans _ _ _ _ _ _ D3 D4) as D34.
  pose proof (differ_trans _ _ _ _ _ _ D2 D34) as D234. cbn zeta. split_and!.
  - rewrite D234; [done|by apply (bool_decide_unpack _)..].
  - rewrite D34; [done|by apply (bool_decide_unpack _)..].
  - exists es. split; [done|]. rewrite D4; [done|by apply (bool_decide_unpack _)..].
  - exists x, (of_le b). split_and!; [done|by apply Hbal|done].
Qed.

(** What is kept: the bytes in use of a structure of the last version. *)
Definition keeps (v : ext_value) (s : list Z) (k : Z) : Prop :=
  ∃ w, v = ExtVal (Some (ev_mem (em_ev_type EM3) (em_base EM3 + 62 * k) w))
             (header_size + (em_base EM3 + 62 * k)) ∧
    Z.of_nat (length w) = em_base EM3 + 62 * k ∧ w = take (Z.to_nat (em_base EM3 + 62 * k)) s.

Lemma billed_other f billing : f ∉ billed_members → f ∉ billed billing.
Proof. destruct billing; [done|]. intros _. apply not_elem_of_nil. Qed.

Lemma bills_ready billing m m' k :
  em_ready EM3 m k → length m' = length m → bills billing m m' →
  em_ready EM3 m' k ∧ measured EM3 m' = measured EM3 m.
Proof.
  intros (Hl & Hk & Hr & Hz & Hx) Hl' [Hd _]. destruct (em_layout EM3) as (_ & Hs & Hb & _).
  assert (Hmv : measured EM3 m' = measured EM3 m).
  { rewrite !measured_member, Hd; [done|by apply (bool_decide_unpack _)|].
    apply billed_other. by apply (bool_decide_unpack _). }
  split; [|done]. split; [lia|]. split; [|split; [done|split; [|by rewrite Hmv]]].
  - rewrite em_m_count_member, Hd, <- em_m_count_member; [done|by apply (bool_decide_unpack _)|].
    apply billed_other. by apply (bool_decide_unpack _).
  - assert (Hm : read_member "m"%string (em_type EM3) m' = read_member "m"%string (em_type EM3) m).
    { apply Hd; [by apply (bool_decide_unpack _)|]. apply billed_other. by apply (bool_decide_unpack _). }
    rewrite !read_m in Hm by lia. apply (f_equal (λ o, drop (Z.to_nat (62 * k)) <$> o)) in Hm.
    cbn [fmap option_fmap option_map] in Hm. rewrite !drop_drop in Hm. injection Hm as Hm.
    assert (Hr' : 0 <= k <= 5) by exact Hr. rewrite <- Hz.
    replace (Z.to_nat (em_base EM3 + 62 * k)) with (Z.to_nat 144 + Z.to_nat (62 * k))%nat
      by (change (em_base EM3) with 144; lia). exact Hm.
Qed.

(** A structure lies in the value that was encoded, all of it: after what is in use come zeros. *)
Lemma ready_in_value m k : em_ready EM3 m k →
  take (Z.to_nat (sizeof (em_type EM3)))
    (take (Z.to_nat (em_base EM3 + 62 * k)) m
     ++ zeros (SUPLA_CHANNELEXTENDEDVALUE_SIZE - (em_base EM3 + 62 * k))) = m.
Proof.
  intros Hrd. pose proof (ready_bounds EM3 m k Hrd) as (Hn & Hs & Hb & Hk).
  pose proof Hrd as (Hl & _ & _ & Hz & _). set (n := em_base EM3 + 62 * k) in *.
  change (sizeof (em_type EM3)) with 454 in *. change (em_base EM3) with 144 in *.
  rewrite take_app_ge by (rewrite length_take; lia). rewrite length_take.
  rewrite <- (take_drop (Z.to_nat n) m) at 3. f_equal. rewrite Hz. unfold zeros.
  rewrite take_replicate. f_equal. unfold SUPLA_CHANNELEXTENDEDVALUE_SIZE, n. lia.
Qed.

Lemma em_set_keeps fresh v3 k v billing :
  em_ready EM3 v3 k → ext_ok v → Z.of_nat (length fresh) = sizeof EV →
  ∃ v' m, em_set_v3 get_cost (Some fresh) (Some v3) billing v = Some v' ∧ bills billing v3 m
    ∧ em_ready EM3 m k ∧ measured EM3 m = measured EM3 v3 ∧ keeps v' m k.
Proof.
  intros Hrd Hv Hf. pose proof (ready_bounds EM3 v3 k Hrd) as (Hn & Hs & Hb & Hk).
  change (sizeof EV) with 1029 in Hf. pose proof Hrd as (Hl & Hc & Hr & _ & x & Hx & _).
  unfold em_set_v3, srpc_evtool_v3_emextended2extended.
  pose proof (emextended2extended_ok EM3 v3 (zeros (sizeof EV)) k Hl Hc Hr (zeros_length 1029 ltac:(lia))) as Hw.
  cbn [em_type em_ev_type] in Hw. rewrite Hw. cbn [mbind option_bind].
  change (1 =? 0) with false. cbn iota. set (n := em_base EM3 + 62 * k) in *. clear Hw.
  pose proof (ready_in_value v3 k Hrd) as Hin. fold n in Hin. set (w := take _ v3 ++ _) in *.
  assert (Hwl : Z.of_nat (length w) = 1024).
  { unfold w. rewrite length_app, length_take, Nat2Z.inj_add.
    unfold SUPLA_CHANNELEXTENDEDVALUE_SIZE. rewrite zeros_length by lia. lia. }
  assert (Hset : ∀ w' m, em_ready EM3 m k → Z.of_nat (length w') = 1024 →
            take (Z.to_nat n) w' = take (Z.to_nat n) m →
            ∃ v', set_raw_value (Some fresh) (Some (ev_mem EV_TYPE_ELECTRICITY_METER_MEASUREMENT_V3 n w')) v
                  = Some v' ∧ keeps v' m k).
  { intros w' m (Hml & _) Hw'l Ht. eexists. split.
    - apply set_raw_value_ok; [done|unfold SUPLA_CHANNELEXTENDEDVALUE_SIZE|..|]; try lia.
      change header_size with 5. lia.
    - eexists. split; [done|]. rewrite Ht. split; [|done]. rewrite length_take. fold n. lia. }
  assert (Htw : take (Z.to_nat n) w = take (Z.to_nat n) v3).
  { unfold w. rewrite take_app_le by (rewrite length_take; lia). by rewrite take_take, Nat.min_id. }
  destruct billing as [[text price]|].
  - change (sizeof V3) with 454. change (sizeof (em_type EM3)) with 454 in *.
    rewrite ev_read_value by lia. cbn [mbind option_bind]. rewrite Hin.
    destruct (bill_ok text price v3 x Hl Hx) as (m & Em & Lm & Bm). rewrite Em. cbn [mbind option_bind].
    rewrite ev_write_value by lia. cbn [mbind option_bind].
    destruct (bills_ready _ _ _ k Hrd Lm Bm) as [Hm Hmv].
    destruct (Hset (take (Z.to_nat 454) m ++ drop (Z.to_nat 454) w) m Hm) as (v' & E & Hkeep).
    + rewrite length_app, length_take, length_drop. lia.
    + rewrite take_app_le by (rewrite length_take; lia). by rewrite (take_ge m) by lia.
    + by exists v', m.
  - cbn [mbind option_bind]. destruct (Hset w v3 Hrd Hwl Htw) as (v' & E & Hkeep).
    by exists v', v3.
Qed.

Lemma em_get_v3_keeps v s k to :
  em_ready EM3 s k → keeps v s k → Z.of_nat (length to) = sizeof (em_type EM3) →
  em_get_v3 v to = Some (true, s).
Proof.
  intros Hrd (w & -> & Hwl & ->) Ht. unfold em_get_v3. cbn [value].
  pose proof (decode_ready EM3 s k (take (Z.to_nat (em_base EM3 + 62 * k)) s) to Hrd Ht) as H.
  unfold srpc_evtool_v3_extended2emextended. cbn [em_type em_ev_type] in H |- *.
  rewrite H; [done|lia|]. by rewrite take_take, Nat.min_id.
Qed.

Lemma em_get_plain_keeps v s k to :
  em_ready EM3 s k → keeps v s k → Z.of_nat (length to) = sizeof EV →
  ∃ w, em_get_plain v (Some to)
       = Some (true, Some (ev_mem (em_ev_type EM3) (em_base EM3 + 62 * k) w)) ∧
    em_base EM3 + 62 * k <= Z.of_nat (length w) ∧
    take (Z.to_nat (em_base EM3 + 62 * k)) w = take (Z.to_nat (em_base EM3 + 62 * k)) s.
Proof.
  intros Hrd (w & -> & Hwl & Hw) Ht. pose proof (ready_bounds EM3 s k Hrd) as (Hn & Hs & _ & Hk).
  set (n := em_base EM3 + 62 * k) in *. assert (Hn' : n <= 454) by (change (sizeof (em_type EM3)) with 454 in Hn; lia).
  unfold em_get_plain, get_type, get_raw_value. cbn [value real_size].
  rewrite ev_type, em_type_signed. cbn [mbind option_bind].
  change (em_is_ev_type_supported (em_ev_type EM3)) with true. cbn iota.
  rewrite memset0_zeros by done. cbn [mbind option_bind]. change header_size with 5.
  change (sizeof EV) with 1029 in *.
  rewrite memcpy_to_Some by (rewrite ?ev_mem_length, ?zeros_length by lia; lia).
  cbn [mbind option_bind]. change (Z.to_nat 0) with 0%nat. rewrite take_0, app_nil_l.
  rewrite take_ge by (rewrite ev_mem_length; lia). rewrite ev_mem_app.
  eexists. split; [done|]. split; [rewrite length_app; lia|].
  rewrite take_app_le by lia. rewrite Hw, take_take, Nat.min_id. done.
Qed.

Lemma em_get_delivers v s k p to :
  em_ready EM3 s k → keeps v s k → Z.of_nat (length to) = sizeof EV →
  let b := client_version p in
  ∃ d w, em_get_raw_value v p (Some to)
         = Some (true, Some (ev_mem (em_ev_type b) (em_base b + 62 * k) w)) ∧
    carries EM3 b (down_flags b) s d ∧ em_base b + 62 * k <= Z.of_nat (length w) ∧
    take (Z.to_nat (em_base b + 62 * k)) w = take (Z.to_nat (em_base b + 62 * k)) d.
Proof.
  intros Hrd Hkeep Ht b. pose proof Hrd as (Hl & _ & _ & _ & x & Hx & Hi).
  unfold b, client_version, em_get_raw_value.
  pose proof (em_get_v3_keeps v s k _ Hrd Hkeep (em_zeros_length EM3)) as Hg.
  cbn [em_type] in Hg. rewrite Hg. cbn [mbind option_bind].
  destruct (v3to2_carries s x (zeros (sizeof (em_type EM2))) Hl Hx Hi (em_zeros_length EM2))
    as (v2 & H2 & C2). cbn [em_type] in H2.
  destruct (carries_measured _ _ _ _ _ C2) as (L2 & y & Hy & Hyi).
  pose proof (carries_ready _ _ _ _ _ _ Hrd C2) as Hr2.
  destruct ((0 <? p) && (p <=? 12)); [|destruct ((0 <? p) && (p <? 25))].
  - unfold em_zero at 1. rewrite H2. cbn [and_then mbind option_bind].
    change (1 =? 0) with false. cbn iota.
    destruct (v2to1_carries v2 y (zeros (sizeof (em_type EM1))) L2 Hy Hyi (em_zeros_length EM1))
      as (v1 & H1 & C1). unfold em_zero. cbn [em_type] in H1. rewrite H1.
    cbn [and_then mbind option_bind]. change (1 =? 0) with false. cbn iota.
    destruct (encode_ready EM1 v1 k to (carries_ready _ _ _ _ _ _ Hr2 C1) Ht)
      as (w & Hw & Hwl & Hwt). unfold srpc_evtool_v1_emextended2extended.
    cbn [em_type em_ev_type] in Hw. rewrite Hw. exists v1, w. split; [done|].
    split; [by apply (carries_trans EM3 EM2 EM1 phase_flags balanced_flags s v2 v1)|].
    split; [|done]. pose proof (ready_bounds _ _ _ (carries_ready _ _ _ _ _ _ Hr2 C1)) as Hb.
    unfold SUPLA_CHANNELEXTENDEDVALUE_SIZE in Hwl. cbn [em_base] in *. lia.
  - unfold em_zero. rewrite H2. cbn [and_then mbind option_bind].
    change (1 =? 0) with false. cbn iota.
    destruct (encode_ready EM2 v2 k to Hr2 Ht) as (w & Hw & Hwl & Hwt).
    unfold srpc_evtool_v2_emextended2extended. cbn [em_type em_ev_type] in Hw. rewrite Hw.
    exists v2, w. split; [done|]. split; [done|]. split; [|done].
    pose proof (ready_bounds _ _ _ Hr2). unfold SUPLA_CHANNELEXTENDEDVALUE_SIZE in Hwl.
    cbn [em_base] in *. lia.
  - destruct (em_get_plain_keeps v s k to Hrd Hkeep Ht) as (w & Hw & Hwl & Hwt).
    exists s, w. split; [exact Hw|]. split; [by apply (carries_refl EM3 s x)|done].
Qed.

(** C19. The measurements of an electricity meter get from a device to a client
    whatever versions the two have. The device encodes its structure; the server keeps
    it in the last version, with the price, the currency and the costs of the channel's
    configuration written over it, if it has one ([bills]); it gives it to the client in
    the version for the client's protocol - version 1 up to protocol 12, version 2 below
    25 - and the client decodes a structure with the same number of measurements. In each
    conversion every member that both versions have is carried over and every other one
    is zero. So every member that the device's and the client's version have, but for the
    four that are billed, is as the device set it, every other one is zero, and of the
    flags of what is measured those of the members that a version on the way lacks are
    cleared. *)
Theorem em_value_delivered a em ev k fresh v billing p to em0 :
  Z.of_nat (length em) = sizeof (em_type a) → Forall is_u8 em → em_value a em = Some k →
  0 <= k <= EM_MEASUREMENT_COUNT → Z.of_nat (length ev) = sizeof EV →
  ext_ok v → Z.of_nat (length fresh) = sizeof EV → Z.of_nat (length to) = sizeof EV →
  Z.of_nat (length em0) = sizeof (em_type (client_version p)) →
  let b := client_version p in
  let s := em_received a (em_base a + 62 * k) em in
  ∃ e v' out d m m',
    emextended2extended (em_type a) (em_ev_type a) (Some em) (Some ev) = Some (1, Some e) ∧
    em_set_raw_value get_cost (Some fresh) (Some e) billing v = Some v' ∧
    em_get_raw_value v' p (Some to) = Some (true, Some out) ∧
    extended2emextended (em_type b) (em_ev_type b) (Some out) (Some em0) = Some (1, Some d) ∧
    em_value b d = Some k ∧
    carries a EM3 (up_flags a) s m ∧ bills billing m m' ∧ carries EM3 b (down_flags b) m' d ∧
    carries_but (billed billing) a b (up_flags a ++ down_flags b) s d.
Proof.
  intros Hl Hu Hk Hr He Hv Hf Ht H0 b s.
  pose proof (received_ready a em k Hl Hu Hk Hr) as Hrd. fold s in Hrd.
  pose proof (ready_bounds a s k Hrd) as (Hn & _ & _ & Hk5).
  pose proof (emextended2extended_ok a em ev k Hl Hk Hr He) as Henc.
  set (w := take _ em ++ zeros _) in Henc.
  assert (Hw : em_base a + 62 * k <= Z.of_nat (length w)).
  { unfold w. rewrite length_app, length_take. lia. }
  assert (Hwt : take (Z.to_nat (em_base a + 62 * k)) w = take (Z.to_nat (em_base a + 62 * k)) s).
  { unfold w, s, em_received. by rewrite !take_app_le by (rewrite length_take; lia). }
  destruct (em_to_v3_ready a s k w Hrd Hw Hwt) as (v3 & H3 & C3).
  pose proof (carries_ready _ _ _ _ _ _ Hrd C3) as Hr3.
  destruct (em_set_keeps fresh v3 k v billing Hr3 Hv Hf) as (v' & m & Hset & Hbill & Hrm & Hmv & Hkeep).
  destruct (em_get_delivers v' m k p to Hrm Hkeep Ht) as (d & wb & Hget & Cb & Hwb & Hwbt).
  fold b in Hget, Cb, Hwb, Hwbt. pose proof (carries_ready _ _ _ _ _ _ Hrm Cb) as Hrb.
  eexists _, v', _, d, v3, m. split; [exact Henc|]. split; [|split; [exact Hget|split]].
  - unfold em_set_raw_value. rewrite H3. cbn [mbind option_bind].
    change (1 =? 0) with false. exact Hset.
  - by apply decode_ready.
  - split_and!; [apply Hrb|done..|].
    apply (carries_trans_but _ a EM3 b _ _ s v3 m d); [apply between_all|done|apply Hbill|done|done].
Qed.
End delivery.

(** A meter of the first version, in a channel with a price, and a client of protocol 20. *)
Lemma em_value_delivered_witness :
  ∃ d, Z.of_nat (length d) = sizeof (em_type EM2) ∧ em_value EM2 d = Some 2
    ∧ ∃ m m', bills (λ _ _, 250) (Some ([80; 76; 78], 12345)) m m' ∧ carries EM3 EM2 phase_flags m' d.
Proof.
  destruct (em_value_delivered (λ _ _, 250) EM1 em_example (zeros 1029) 2 (zeros 1029) no_value
              (Some ([80; 76; 78], 12345)) 20 (zeros 1029) (zeros 449))
    as (e & v' & out & d & m & m' & _ & _ & _ & _ & Hk & _ & Hb & Hc & _).
  - by vm_compute.
  - unfold em_example. apply Forall_app. split; [by apply Forall_replicate|].
    apply Forall_app. split; [by repeat constructor|by apply Forall_replicate].
  - by vm_compute.
  - done.
  - by vm_compute.
  - done.
  - by vm_compute.
  - by vm_compute.
  - by vm_compute.
  - exists d. split; [apply Hc|]. split; [exact Hk|]. by exists m, m'.
Defined.
