(* ===== verification/SrpcData.v ===== *)
(** * SrpcData: the data of the received calls (srpc_getdata of supla-common/srpc.c)

    What [srpc_getdata] does with the packet it takes from the input queue: the
    switch over the call identifiers with the size that each structure must have,
    the blocks it allocates, the unpacking of the lists with captions
    ([srpc_getpack]), and the copy. A table has a case of the switch per entry.
    Memory is explicit: reading or writing out of a block is [None]. *)

From stdpp Require Import strings.
From S2P Require Import Prelude CLayout Proto CallIds Srpc ProtoTypes.

Open Scope string_scope.

(** ** The cases of the switch *)

(** A block of [calloc] holds zeros, one of [malloc] nothing yet. *)
Inductive allocator := Calloc | Malloc.

(** The lists whose items end with a caption: the arguments of [srpc_getpack] and
    the member its callbacks read. *)
Record pack_type := Pack {
  pk_pack : ctype;
  pk_item : ctype;
  pk_max_count : Z;
  pk_caption_max : Z;
  pk_size_member : string
}.

Definition locationpack : pack_type :=
  Pack TSC_SuplaLocationPack TSC_SuplaLocation SUPLA_LOCATIONPACK_MAXCOUNT
    SUPLA_LOCATION_CAPTION_MAXSIZE "CaptionSize".
Definition channelpack : pack_type :=
  Pack TSC_SuplaChannelPack TSC_SuplaChannel SUPLA_CHANNELPACK_MAXCOUNT
    SUPLA_CHANNEL_CAPTION_MAXSIZE "CaptionSize".
Definition channelpack_b : pack_type :=
  Pack TSC_SuplaChannelPack_B TSC_SuplaChannel_B SUPLA_CHANNELPACK_MAXCOUNT
    SUPLA_CHANNEL_CAPTION_MAXSIZE "CaptionSize".
Definition channelpack_c : pack_type :=
  Pack TSC_SuplaChannelPack_C TSC_SuplaChannel_C SUPLA_CHANNELPACK_MAXCOUNT
    SUPLA_CHANNEL_CAPTION_MAXSIZE "CaptionSize".
Definition channelpack_d : pack_type :=
  Pack TSC_SuplaChannelPack_D TSC_SuplaChannel_D SUPLA_CHANNELPACK_MAXCOUNT
    SUPLA_CHANNEL_CAPTION_MAXSIZE "CaptionSize".
Definition channelpack_e : pack_type :=
  Pack TSC_SuplaChannelPack_E TSC_SuplaChannel_E SUPLA_CHANNELPACK_MAXCOUNT
    SUPLA_CHANNEL_CAPTION_MAXSIZE "CaptionSize".
Definition channelgroup_pack : pack_type :=
  Pack TSC_SuplaChannelGroupPack TSC_SuplaChannelGroup SUPLA_CHANNELGROUP_PACK_MAXCOUNT
    SUPLA_CHANNELGROUP_CAPTION_MAXSIZE "CaptionSize".
Definition channelgroup_pack_b : pack_type :=
  Pack TSC_SuplaChannelGroupPack_B TSC_SuplaChannelGroup_B SUPLA_CHANNELGROUP_PACK_MAXCOUNT
    SUPLA_CHANNELGROUP_CAPTION_MAXSIZE "CaptionSize".
Definition scene_pack : pack_type :=
  Pack TSC_SuplaScenePack TSC_SuplaScene SUPLA_SCENE_PACK_MAXCOUNT
    SUPLA_SCENE_CAPTION_MAXSIZE "CaptionSize".
Definition scene_state_pack : pack_type :=
  Pack TSC_SuplaSceneStatePack TSC_SuplaSceneState SUPLA_SCENE_STATE_PACK_MAXCOUNT
    SUPLA_INITIATOR_NAME_MAXSIZE "InitiatorNameSize".

(** What a case of the switch does. *)
Inductive decoder :=
  (* call_with_no_data = 1 *)
  | NoData
  (* if (data_size == sizeof(T)) *)
  | Sized (a : allocator) (t : ctype)
  (* if (VALID_SIZE(T, item, SIZE_VAR, max)); SIZE_VAR is a sum of members *)
  | Counted (a : allocator) (t item : ctype) (counts : list (list string)) (max : Z)
  (* srpc_getpack *)
  | Packed (p : pack_type)
  | PingServer
  | FirmwareUrl.

(** Calls of devices and clients alike. *)
Definition common_cases : list (Z * decoder) := [
  (SUPLA_DCS_CALL_GETVERSION, NoData);
  (SUPLA_CS_CALL_GET_NEXT, NoData);
  (SUPLA_DCS_CALL_GET_REGISTRATION_ENABLED, NoData);
  (SUPLA_SDC_CALL_GETVERSION_RESULT, Sized Calloc TSDC_SuplaGetVersionResult);
  (SUPLA_SDC_CALL_VERSIONERROR, Sized Calloc TSDC_SuplaVersionError);
  (SUPLA_DCS_CALL_PING_SERVER, PingServer);
  (SUPLA_SDC_CALL_PING_SERVER_RESULT, Sized Calloc TSDC_SuplaPingServerResult);
  (SUPLA_DCS_CALL_SET_ACTIVITY_TIMEOUT, Sized Calloc TDCS_SuplaSetActivityTimeout);
  (SUPLA_SDC_CALL_SET_ACTIVITY_TIMEOUT_RESULT, Sized Calloc TSDC_SuplaSetActivityTimeoutResult);
  (SUPLA_SDC_CALL_GET_REGISTRATION_ENABLED_RESULT, Sized Calloc TSDC_RegistrationEnabled);
  (SUPLA_DCS_CALL_GET_USER_LOCALTIME, NoData);
  (SUPLA_DCS_CALL_GET_USER_LOCALTIME_RESULT,
     Counted Calloc TSDC_UserLocalTimeResult schar [["timezoneSize"]] SUPLA_TIMEZONE_MAXSIZE);
  (SUPLA_CSD_CALL_GET_CHANNEL_STATE, Sized Calloc TCSD_ChannelStateRequest);
  (SUPLA_DSC_CALL_CHANNEL_STATE_RESULT, Sized Calloc TDSC_ChannelState);
  (SUPLA_SCD_CALL_SET_CHANNEL_CAPTION_RESULT,
     Counted Calloc TSCD_SetCaptionResult schar [["CaptionSize"]] SUPLA_CAPTION_MAXSIZE)].

(** Calls between a device and the server. *)
Definition device_cases_1 : list (Z * decoder) := [
  (SUPLA_DS_CALL_REGISTER_DEVICE,
     Counted Calloc TDS_SuplaRegisterDevice TDS_SuplaDeviceChannel
       [["channel_count"]] SUPLA_CHANNELMAXCOUNT);
  (SUPLA_DS_CALL_REGISTER_DEVICE_B,
     Counted Calloc TDS_SuplaRegisterDevice_B TDS_SuplaDeviceChannel_B
       [["channel_count"]] SUPLA_CHANNELMAXCOUNT);
  (SUPLA_DS_CALL_REGISTER_DEVICE_C,
     Counted Calloc TDS_SuplaRegisterDevice_C TDS_SuplaDeviceChannel_B
       [["channel_count"]] SUPLA_CHANNELMAXCOUNT);
  (SUPLA_DS_CALL_REGISTER_DEVICE_D,
     Counted Calloc TDS_SuplaRegisterDevice_D TDS_SuplaDeviceChannel_B
       [["channel_count"]] SUPLA_CHANNELMAXCOUNT);
  (SUPLA_DS_CALL_REGISTER_DEVICE_E,
     Counted Calloc TDS_SuplaRegisterDevice_E TDS_SuplaDeviceChannel_C
       [["channel_count"]] SUPLA_CHANNELMAXCOUNT);
  (SUPLA_DS_CALL_REGISTER_DEVICE_F,
     Counted Calloc TDS_SuplaRegisterDevice_F TDS_SuplaDeviceChannel_D
       [["channel_count"]] SUPLA_CHANNELMAXCOUNT);
  (SUPLA_DS_CALL_REGISTER_DEVICE_G,
     Counted Calloc TDS_SuplaRegisterDevice_G TDS_SuplaDeviceChannel_E
       [["channel_count"]] SUPLA_CHANNELMAXCOUNT);
  (SUPLA_SD_CALL_REGISTER_DEVICE_RESULT, Sized Calloc TSD_SuplaRegisterDeviceResult);
  (SUPLA_SD_CALL_REGISTER_DEVICE_RESULT_B,
     Counted Calloc TSD_SuplaRegisterDeviceResult_B uchar
       [["channel_report_size"]] CHANNEL_REPORT_MAXSIZE);
  (SUPLA_DS_CALL_DEVICE_CHANNEL_VALUE_CHANGED, Sized Calloc TDS_SuplaDeviceChannelValue);
  (SUPLA_DS_CALL_DEVICE_CHANNEL_VALUE_CHANGED_B, Sized Calloc TDS_SuplaDeviceChannelValue_B);
  (SUPLA_DS_CALL_DEVICE_CHANNEL_VALUE_CHANGED_C, Sized Calloc TDS_SuplaDeviceChannelValue_C);
  (SUPLA_DS_CALL_DEVICE_CHANNEL_EXTENDEDVALUE_CHANGED,
     Counted Calloc TDS_SuplaDeviceChannelExtendedValue schar
       [["value"; "size"]] SUPLA_CHANNELEXTENDEDVALUE_SIZE);
  (SUPLA_SD_CALL_CHANNEL_SET_VALUE, Sized Calloc TSD_SuplaChannelNewValue);
  (SUPLA_SD_CALL_CHANNELGROUP_SET_VALUE, Sized Calloc TSD_SuplaChannelGroupNewValue);
  (SUPLA_DS_CALL_CHANNEL_SET_VALUE_RESULT, Sized Calloc TDS_SuplaChannelNewValueResult)].

(** Calls between a device and the server, continued. *)
Definition device_cases_2 : list (Z * decoder) := [
  (SUPLA_DS_CALL_GET_FIRMWARE_UPDATE_URL, Sized Calloc TDS_FirmwareUpdateParams);
  (SUPLA_SD_CALL_GET_FIRMWARE_UPDATE_URL_RESULT, FirmwareUrl);
  (SUPLA_SD_CALL_DEVICE_CALCFG_REQUEST,
     Counted Calloc TSD_DeviceCalCfgRequest schar [["DataSize"]] SUPLA_CALCFG_DATA_MAXSIZE);
  (SUPLA_DS_CALL_DEVICE_CALCFG_RESULT,
     Counted Calloc TDS_DeviceCalCfgResult schar [["DataSize"]] SUPLA_CALCFG_DATA_MAXSIZE);
  (SUPLA_DS_CALL_GET_CHANNEL_FUNCTIONS, NoData);
  (SUPLA_SD_CALL_GET_CHANNEL_FUNCTIONS_RESULT,
     Counted Calloc TSD_ChannelFunctions int32 [["ChannelCount"]] SUPLA_CHANNELMAXCOUNT);
  (SUPLA_DS_CALL_GET_CHANNEL_CONFIG, Sized Calloc TDS_GetChannelConfigRequest);
  (SUPLA_SD_CALL_GET_CHANNEL_CONFIG_RESULT,
     Counted Calloc TSD_ChannelConfig schar [["ConfigSize"]] SUPLA_CHANNEL_CONFIG_MAXSIZE);
  (SUPLA_DS_CALL_ACTIONTRIGGER, Sized Calloc TDS_ActionTrigger);
  (SUPLA_DS_CALL_REGISTER_PUSH_NOTIFICATION, Sized Calloc TDS_RegisterPushNotification);
  (SUPLA_DS_CALL_SEND_PUSH_NOTIFICATION,
     Counted Calloc TDS_PushNotification schar
       [["TitleSize"]; ["BodySize"]] (SUPLA_PN_TITLE_MAXSIZE + SUPLA_PN_BODY_MAXSIZE));
  (SUPLA_DS_CALL_SET_CHANNEL_CONFIG,
     Counted Malloc TSDS_SetChannelConfig schar [["ConfigSize"]] SUPLA_CHANNEL_CONFIG_MAXSIZE);
  (SUPLA_SD_CALL_SET_CHANNEL_CONFIG,
     Counted Malloc TSDS_SetChannelConfig schar [["ConfigSize"]] SUPLA_CHANNEL_CONFIG_MAXSIZE);
  (SUPLA_DS_CALL_SET_CHANNEL_CONFIG_RESULT, Sized Malloc TSDS_SetChannelConfigResult);
  (SUPLA_SD_CALL_SET_CHANNEL_CONFIG_RESULT, Sized Malloc TSDS_SetChannelConfigResult);
  (SUPLA_SD_CALL_CHANNEL_CONFIG_FINISHED, Sized Malloc TSD_ChannelConfigFinished);
  (SUPLA_DS_CALL_SET_DEVICE_CONFIG,
     Counted Malloc TSDS_SetDeviceConfig schar [["ConfigSize"]] SUPLA_DEVICE_CONFIG_MAXSIZE);
  (SUPLA_SD_CALL_SET_DEVICE_CONFIG,
     Counted Malloc TSDS_SetDeviceConfig schar [["ConfigSize"]] SUPLA_DEVICE_CONFIG_MAXSIZE);
  (SUPLA_SD_CALL_SET_DEVICE_CONFIG_RESULT, Sized Malloc TSDS_SetDeviceConfigResult);
  (SUPLA_DS_CALL_SET_DEVICE_CONFIG_RESULT, Sized Malloc TSDS_SetDeviceConfigResult);
  (SUPLA_DS_CALL_SET_SUBDEVICE_DETAILS, Sized Malloc TDS_SubdeviceDetails)].

(** Calls between a client and the server. *)
Definition client_cases_1 : list (Z * decoder) := [
  (SUPLA_CS_CALL_REGISTER_CLIENT, Sized Calloc TCS_SuplaRegisterClient);
  (SUPLA_CS_CALL_REGISTER_CLIENT_B, Sized Calloc TCS_SuplaRegisterClient_B);
  (SUPLA_CS_CALL_REGISTER_CLIENT_C, Sized Calloc TCS_SuplaRegisterClient_C);
  (SUPLA_CS_CALL_REGISTER_CLIENT_D, Sized Calloc TCS_SuplaRegisterClient_D);
  (SUPLA_SC_CALL_REGISTER_CLIENT_RESULT, Sized Calloc TSC_SuplaRegisterClientResult);
  (SUPLA_SC_CALL_REGISTER_CLIENT_RESULT_B, Sized Calloc TSC_SuplaRegisterClientResult_B);
  (SUPLA_SC_CALL_REGISTER_CLIENT_RESULT_C, Sized Calloc TSC_SuplaRegisterClientResult_C);
  (SUPLA_SC_CALL_REGISTER_CLIENT_RESULT_D, Sized Calloc TSC_SuplaRegisterClientResult_D);
  (SUPLA_SC_CALL_LOCATION_UPDATE,
     Counted Calloc TSC_SuplaLocation schar [["CaptionSize"]] SUPLA_LOCATION_CAPTION_MAXSIZE);
  (SUPLA_SC_CALL_LOCATIONPACK_UPDATE, Packed locationpack);
  (SUPLA_SC_CALL_CHANNELPACK_UPDATE, Packed channelpack);
  (SUPLA_SC_CALL_CHANNELPACK_UPDATE_B, Packed channelpack_b);
  (SUPLA_SC_CALL_CHANNELPACK_UPDATE_C, Packed channelpack_c);
  (SUPLA_SC_CALL_CHANNELPACK_UPDATE_D, Packed channelpack_d);
  (SUPLA_SC_CALL_CHANNELPACK_UPDATE_E, Packed channelpack_e);
  (SUPLA_SC_CALL_CHANNEL_VALUE_UPDATE, Sized Calloc TSC_SuplaChannelValue);
  (SUPLA_SC_CALL_CHANNEL_VALUE_UPDATE_B, Sized Calloc TSC_SuplaChannelValue_B);
  (SUPLA_SC_CALL_CHANNELGROUP_PACK_UPDATE, Packed channelgroup_pack);
  (SUPLA_SC_CALL_CHANNELGROUP_PACK_UPDATE_B, Packed channelgroup_pack_b);
  (SUPLA_SC_CALL_CHANNELGROUP_RELATION_PACK_UPDATE,
     Counted Calloc TSC_SuplaChannelGroupRelationPack TSC_SuplaChannelGroupRelation
       [["count"]] SUPLA_CHANNELGROUP_RELATION_PACK_MAXCOUNT);
  (SUPLA_SC_CALL_CHANNEL_RELATION_PACK_UPDATE,
     Counted Calloc TSC_SuplaChannelRelationPack TSC_SuplaChannelRelation
       [["count"]] SUPLA_CHANNEL_RELATION_PACK_MAXCOUNT)].

(** Calls between a client and the server, continued. *)
Definition client_cases_2 : list (Z * decoder) := [
  (SUPLA_SC_CALL_CHANNELVALUE_PACK_UPDATE,
     Counted Calloc TSC_SuplaChannelValuePack TSC_SuplaChannelValue
       [["count"]] SUPLA_CHANNELVALUE_PACK_MAXCOUNT);
  (SUPLA_SC_CALL_CHANNELVALUE_PACK_UPDATE_B,
     Counted Calloc TSC_SuplaChannelValuePack_B TSC_SuplaChannelValue_B
       [["count"]] SUPLA_CHANNELVALUE_PACK_MAXCOUNT);
  (SUPLA_SC_CALL_CHANNELEXTENDEDVALUE_PACK_UPDATE,
     Counted Calloc TSC_SuplaChannelExtendedValuePack schar
       [["pack_size"]] SUPLA_CHANNELEXTENDEDVALUE_PACK_MAXDATASIZE);
  (SUPLA_SC_CALL_CHANNEL_STATE_PACK_UPDATE,
     Counted Calloc TSC_SuplaChannelStatePack TDSC_ChannelState
       [["count"]] SUPLA_CHANNEL_STATE_PACK_MAXCOUNT);
  (SUPLA_CS_CALL_CHANNEL_SET_VALUE, Sized Calloc TCS_SuplaChannelNewValue);
  (SUPLA_CS_CALL_SET_VALUE, Sized Calloc TCS_SuplaNewValue);
  (SUPLA_CS_CALL_CHANNEL_SET_VALUE_B, Sized Calloc TCS_SuplaChannelNewValue_B);
  (SUPLA_SC_CALL_EVENT,
     Counted Calloc TSC_SuplaEvent schar [["SenderNameSize"]] SUPLA_SENDER_NAME_MAXSIZE);
  (SUPLA_CS_CALL_OAUTH_TOKEN_REQUEST, NoData);
  (SUPLA_SC_CALL_OAUTH_TOKEN_REQUEST_RESULT,
     Counted Calloc TSC_OAuthTokenRequestResult schar
       [["Token"; "TokenSize"]] SUPLA_OAUTH_TOKEN_MAXSIZE);
  (SUPLA_CS_CALL_SUPERUSER_AUTHORIZATION_REQUEST, Sized Calloc TCS_SuperUserAuthorizationRequest);
  (SUPLA_CS_CALL_GET_SUPERUSER_AUTHORIZATION_RESULT, NoData);
  (SUPLA_SC_CALL_SUPERUSER_AUTHORIZATION_RESULT, Sized Calloc TSC_SuperUserAuthorizationResult);
  (SUPLA_CS_CALL_DEVICE_CALCFG_REQUEST,
     Counted Calloc TCS_DeviceCalCfgRequest schar [["DataSize"]] SUPLA_CALCFG_DATA_MAXSIZE);
  (SUPLA_CS_CALL_DEVICE_CALCFG_REQUEST_B,
     Counted Calloc TCS_DeviceCalCfgRequest_B schar [["DataSize"]] SUPLA_CALCFG_DATA_MAXSIZE);
  (SUPLA_SC_CALL_DEVICE_CALCFG_RESULT,
     Counted Calloc TSC_DeviceCalCfgResult schar [["DataSize"]] SUPLA_CALCFG_DATA_MAXSIZE);
  (SUPLA_CS_CALL_GET_CHANNEL_BASIC_CFG, Sized Calloc TCS_ChannelBasicCfgRequest);
  (SUPLA_SC_CALL_CHANNEL_BASIC_CFG_RESULT,
     Counted Calloc TSC_ChannelBasicCfg schar [["CaptionSize"]] SUPLA_CHANNEL_CAPTION_MAXSIZE);
  (SUPLA_CS_CALL_SET_CHANNEL_FUNCTION, Sized Calloc TCS_SetChannelFunction);
  (SUPLA_SC_CALL_SET_CHANNEL_FUNCTION_RESULT, Sized Calloc TSC_SetChannelFunctionResult)].

(** Calls between a client and the server, continued. *)
Definition client_cases_3 : list (Z * decoder) := [
  (SUPLA_DCS_CALL_SET_CHANNEL_CAPTION,
     Counted Calloc TDCS_SetCaption schar [["CaptionSize"]] SUPLA_CAPTION_MAXSIZE);
  (SUPLA_CS_CALL_SET_CHANNEL_GROUP_CAPTION,
     Counted Calloc TDCS_SetCaption schar [["CaptionSize"]] SUPLA_CAPTION_MAXSIZE);
  (SUPLA_CS_CALL_SET_LOCATION_CAPTION,
     Counted Calloc TDCS_SetCaption schar [["CaptionSize"]] SUPLA_CAPTION_MAXSIZE);
  (SUPLA_CS_CALL_SET_SCENE_CAPTION,
     Counted Calloc TDCS_SetCaption schar [["CaptionSize"]] SUPLA_CAPTION_MAXSIZE);
  (SUPLA_SC_CALL_SET_CHANNEL_GROUP_CAPTION_RESULT,
     Counted Calloc TSCD_SetCaptionResult schar [["CaptionSize"]] SUPLA_CAPTION_MAXSIZE);
  (SUPLA_SC_CALL_SET_LOCATION_CAPTION_RESULT,
     Counted Calloc TSCD_SetCaptionResult schar [["CaptionSize"]] SUPLA_CAPTION_MAXSIZE);
  (SUPLA_SC_CALL_SET_SCENE_CAPTION_RESULT,
     Counted Calloc TSCD_SetCaptionResult schar [["CaptionSize"]] SUPLA_CAPTION_MAXSIZE);
  (SUPLA_CS_CALL_CLIENTS_RECONNECT_REQUEST, NoData);
  (SUPLA_SC_CALL_CLIENTS_RECONNECT_REQUEST_RESULT,
     Sized Calloc TSC_ClientsReconnectRequestResult);
  (SUPLA_CS_CALL_SET_REGISTRATION_ENABLED, Sized Calloc TCS_SetRegistrationEnabled);
  (SUPLA_SC_CALL_SET_REGISTRATION_ENABLED_RESULT, Sized Calloc TSC_SetRegistrationEnabledResult);
  (SUPLA_CS_CALL_DEVICE_RECONNECT_REQUEST, Sized Calloc TCS_DeviceReconnectRequest);
  (SUPLA_SC_CALL_DEVICE_RECONNECT_REQUEST_RESULT, Sized Calloc TSC_DeviceReconnectRequestResult);
  (SUPLA_CS_CALL_TIMER_ARM, Sized Calloc TCS_TimerArmRequest);
  (SUPLA_SC_CALL_SCENE_PACK_UPDATE, Packed scene_pack);
  (SUPLA_SC_CALL_SCENE_STATE_PACK_UPDATE, Packed scene_state_pack);
  (SUPLA_CS_CALL_EXECUTE_ACTION,
     Counted Calloc TCS_Action schar [["ParamSize"]] SUPLA_ACTION_PARAM_MAXSIZE);
  (SUPLA_CS_CALL_EXECUTE_ACTION_WITH_AUTH,
     Counted Calloc TCS_ActionWithAuth schar
       [["Action"; "ParamSize"]] SUPLA_ACTION_PARAM_MAXSIZE);
  (SUPLA_SC_CALL_ACTION_EXECUTION_RESULT, Sized Calloc TSC_ActionExecutionResult);
  (SUPLA_CS_CALL_GET_CHANNEL_VALUE_WITH_AUTH, Sized Calloc TCS_GetChannelValueWithAuth);
  (SUPLA_SC_CALL_GET_CHANNEL_VALUE_RESULT,
     Counted Calloc TSC_GetChannelValueResult schar
       [["ExtendedValue"; "size"]] SUPLA_CHANNELEXTENDEDVALUE_SIZE);
  (SUPLA_CS_CALL_REGISTER_PN_CLIENT_TOKEN,
     Counted Calloc TCS_RegisterPnClientToken schar
       [["Token"; "TokenSize"]] SUPLA_PN_CLIENT_TOKEN_MAXSIZE);
  (SUPLA_SC_CALL_REGISTER_PN_CLIENT_TOKEN_RESULT, Sized Calloc TSC_RegisterPnClientTokenResult);
  (SUPLA_CS_CALL_SET_CHANNEL_CONFIG,
     Counted Malloc TSCS_ChannelConfig schar [["ConfigSize"]] SUPLA_CHANNEL_CONFIG_MAXSIZE);
  (SUPLA_CS_CALL_GET_CHANNEL_CONFIG, Sized Calloc TCS_GetChannelConfigRequest);
  (SUPLA_SC_CALL_CHANNEL_CONFIG_UPDATE_OR_RESULT,
     Counted Calloc TSC_ChannelConfigUpdateOrResult schar
       [["Config"; "ConfigSize"]] SUPLA_CHANNEL_CONFIG_MAXSIZE)].

(** Calls between a client and the server, continued. *)
Definition client_cases_4 : list (Z * decoder) := [
  (SUPLA_CS_CALL_GET_DEVICE_CONFIG, Sized Malloc TCS_GetDeviceConfigRequest);
  (SUPLA_SC_CALL_DEVICE_CONFIG_UPDATE_OR_RESULT,
     Counted Malloc TSC_DeviceConfigUpdateOrResult schar
       [["Config"; "ConfigSize"]] SUPLA_DEVICE_CONFIG_MAXSIZE)].

Open Scope Z_scope.

Definition getdata_cases : list (Z * decoder) :=
  common_cases ++ device_cases_1 ++ device_cases_2
  ++ client_cases_1 ++ client_cases_2 ++ client_cases_3 ++ client_cases_4.

Definition getdata_decoder (call_id : Z) : option decoder :=
  snd <$> find_first (λ c, c.1 =? call_id) getdata_cases.

(** ** Sizes *)

Definition cells : Type := list (option Z).

Definition allocate (alloc_ok : bool) (a : allocator) (n : Z) : option cells :=
  if alloc_ok
  then Some (replicate (Z.to_nat n) (match a with Calloc => Some 0 | Malloc => None end))
  else None.

(** sizeof(MIAN_TYPE) - sizeof(ITEM_TYPE) * MAX *)
Definition header_size (t item : ctype) (max : Z) : Z := u64 (sizeof t - sizeof item * max).

(** The macro VALID_SIZE; [v] is the value of SIZE_VAR, which the products and the
    differences with sizes turn into 64-bit unsigned numbers. *)
Definition VALID_SIZE (t item : ctype) (v max data_size : Z) : bool :=
  (v <=? max) && (header_size t item max <=? data_size) && (data_size <=? sizeof t)
  && (u64 (u64 v * sizeof item) =? u64 (data_size - header_size t item max)).

Fixpoint sum_of (counts : list (list string)) (t : ctype) (data : list Z) : option Z :=
  match counts with
  | [] => Some 0
  | c :: counts =>
      v ← value_of c t 0 data;
      w ← sum_of counts t data;
      Some (v + w)
  end.

(** ** srpc_getpack *)

Section getpack.
Variable p : pack_type.

Definition pack_header_size : Z := sizeof (pk_pack p) - sizeof (pk_item p) * pk_max_count p.
Definition c_header_size : Z := sizeof (pk_item p) - pk_caption_max p.

(** The callbacks. *)
Definition pack_get_count (pack : list Z) : option Z := value_of ["count"] (pk_pack p) 0 pack.
Definition pack_set_count (pack : list Z) (count : Z) (increment : bool) : option (list Z) :=
  old ← pack_get_count pack;
  assign ["count"] (pk_pack p) 0 (u32 (if increment then old + count else count)) pack.
Definition get_item_ptr (idx : Z) : option Z :=
  '(o, _) ← place ["items"] (pk_pack p); Some (o + idx * sizeof (pk_item p)).
Definition get_item_caption_size (off : Z) (data : list Z) : option Z :=
  value_of [pk_size_member p] (pk_item p) off data.

(** The items from the [a]-th on, [n] of them; the loop ends at an item that does
    not fit. *)
Fixpoint getpack_items (n : nat) (a offset data_size : Z) (data pack : list Z)
    : option (list Z) :=
  match n with
  | O => Some pack
  | S n =>
      if c_header_size <=? u32 (data_size - offset) then
        size ← get_item_caption_size offset data;
        let size := i32 size in
        if (0 <=? size) && (size <=? pk_caption_max p)
           && (c_header_size + size <=? u32 (data_size - offset)) then
          item ← read_at data offset (c_header_size + size);
          ptr ← get_item_ptr a;
          pack ← memcpy_to pack ptr item (c_header_size + size);
          pack ← pack_set_count pack 1 true;
          getpack_items n (a + 1) (offset + (c_header_size + size)) data_size data pack
        else Some pack
      else getpack_items n (a + 1) offset data_size data pack
  end.

(** [Some None]: refused. *)
Definition srpc_getpack (alloc_ok : bool) (data_size : Z) (data : list Z)
    : option (option (list Z)) :=
  if (data_size <? pack_header_size) || (sizeof (pk_pack p) <? data_size) then Some None
  else
    count ← pack_get_count data;
    if (count <? 0) || (pk_max_count p <? count) then Some None
    else if negb alloc_ok then Some None
    else
      let pack := replicate (Z.to_nat (pack_header_size + sizeof (pk_item p) * count)) 0 in
      pack ← memcpy_to pack 0 data pack_header_size;
      pack ← pack_set_count pack 0 false;
      pack ← getpack_items (Z.to_nat count) 0 pack_header_size data_size data pack;
      n ← pack_get_count pack;
      Some (if count =? n then Some pack else None).
End getpack.

(** ** srpc_getdata *)

(** TDCS_SuplaPingServer_COMPAT in a TDCS_SuplaPingServer. *)
Definition ping_of_compat (data : list Z) : option (list Z) :=
  sec ← value_of ["now"; "tv_sec"] TDCS_SuplaPingServer_COMPAT 0 data;
  usec ← value_of ["now"; "tv_usec"] TDCS_SuplaPingServer_COMPAT 0 data;
  let pack := replicate (Z.to_nat (sizeof TDCS_SuplaPingServer)) 0 in
  pack ← assign ["now"; "tv_sec"] TDCS_SuplaPingServer 0 sec pack;
  assign ["now"; "tv_usec"] TDCS_SuplaPingServer 0 usec pack.

(** What the switch leaves: a block for the copy, a call without data, or data
    that have been unpacked (the size is then 0, nothing is left to copy). *)
Inductive switch_result :=
  | Refused
  | CallWithNoData (block : option cells)
  | ToCopy (block : cells)
  | Unpacked (block : cells).

Definition to_copy (b : option cells) : switch_result :=
  match b with Some c => ToCopy c | None => Refused end.

Definition getdata_switch (alloc_ok : bool) (d : decoder) (data_size : Z) (data : list Z)
    : option switch_result :=
  match d with
  | NoData => Some (CallWithNoData None)
  | Sized a t =>
      Some (if data_size =? sizeof t then to_copy (allocate alloc_ok a (sizeof t)) else Refused)
  | Counted a t item counts max =>
      v ← sum_of counts t data;
      Some (if VALID_SIZE t item v max data_size
            then to_copy (allocate alloc_ok a (sizeof t)) else Refused)
  | Packed p =>
      r ← srpc_getpack p alloc_ok data_size data;
      Some (match r with Some pack => Unpacked (Some <$> pack) | None => Refused end)
  | PingServer =>
      let t := TDCS_SuplaPingServer in
      if data_size =? sizeof t then Some (to_copy (allocate alloc_ok Calloc (sizeof t)))
      else if (data_size =? sizeof TDCS_SuplaPingServer_COMPAT) && alloc_ok then
        pack ← ping_of_compat data;
        Some (CallWithNoData (Some (Some <$> pack)))
      else Some Refused
  | FirmwareUrl =>
      let t := TSD_FirmwareUpdate_UrlResult in
      Some (if (data_size =? sizeof t) || (data_size =? sizeof schar)
            then to_copy (allocate alloc_ok Calloc (sizeof t)) else Refused)
  end.

(** The end of the function: the result, the block of [rd->data] and the size
    that is left in the packet. *)
Definition getdata_finish (r : switch_result) (data_size : Z) (data : list Z)
    : option (Z * option cells * Z) :=
  match r with
  | Refused => Some (SUPLA_RESULT_DATA_ERROR, None, data_size)
  | CallWithNoData b => Some (SUPLA_RESULT_TRUE, b, data_size)
  | Unpacked b => Some (SUPLA_RESULT_TRUE, Some b, 0)
  | ToCopy b =>
      b ← (if 0 <? data_size then memcpy_to b 0 (Some <$> data) data_size else Some b);
      Some (SUPLA_RESULT_TRUE, Some b, data_size)
  end.

Definition getdata_decode (alloc_ok : bool) (call_id data_size : Z) (data : list Z)
    : option (Z * option cells * Z) :=
  r ← match getdata_decoder call_id with
      | Some d => getdata_switch alloc_ok d data_size data
      | None => Some Refused
      end;
  getdata_finish r data_size data.

(** TsrpcReceivedData *)
Record TsrpcReceivedData := ReceivedData {
  rd_call_id : Z;
  rd_rr_id : Z;
  rd_data : option cells
}.

Definition set_data_size (n : Z) (p : TSuplaDataPacket) : TSuplaDataPacket :=
  SDP (sdp_tag p) (sdp_version p) (sdp_rr_id p) (sdp_call_id p) n (sdp_data p).

(** The result, what is received (call identifier 0: nothing), the connection. *)
Definition srpc_getdata (alloc_ok : bool) (rr_id : Z) (s : Tsrpc)
    : option (Z * option TsrpcReceivedData * Tsrpc) :=
  '(r, sdp, q) ← srpc_queue_pop (in_queue s) (srpc_sdp s) rr_id;
  let s := set_in_queue q (set_sdp sdp s) in
  if r =? SUPLA_RESULT_TRUE then
    '(r, block, size) ← getdata_decode alloc_ok (sdp_call_id sdp) (sdp_data_size sdp)
                          (sdp_data sdp);
    Some (r, Some (ReceivedData (sdp_call_id sdp) (sdp_rr_id sdp) block),
          set_sdp (set_data_size size sdp) s)
  else Some (SUPLA_RESULT_FALSE, None, s).

(** ** The layouts the switch relies on *)

(** The array at the end of a structure. *)
Fixpoint tail_array (t : ctype) : option (Z * ctype) :=
  match t with
  | CArr n t => Some (n, t)
  | CStruct ms =>
      (fix go ms :=
         match ms with
         | [] => None
         | [(_, t)] => tail_array t
         | _ :: ms => go ms
         end) ms
  | _ => None
  end.

(** A member that is an integer of at most four bytes below [limit]. *)
Definition int_below (path : list string) (t : ctype) (limit : Z) : bool :=
  match place path t with
  | Some (o, CInt n _) => (0 <=? o) && (1 <=? n) && (n <=? 4) && (o + n <=? limit)
  | _ => false
  end.

(** The counters are members before the array, the array is the last member and
    has the size and the items of the condition. *)
Definition counted_ok (t item : ctype) (counts : list (list string)) (max : Z) : bool :=
  let header := sizeof t - sizeof item * max in
  (0 <=? header) && (header <=? SUPLA_MAX_DATA_SIZE) && (sizeof t <? 2 ^ 24)
  && (1 <=? sizeof item) && (1 <=? max) && (length counts <=? 2)%nat
  && forallb (λ c, int_below c t header) counts
  && match tail_array t with
     | Some (n, it) => (n =? max) && (sizeof it =? sizeof item)
     | None => false
     end.

Definition pack_ok (p : pack_type) : bool :=
  (match place ["count"] (pk_pack p) with
   | Some (o, CInt 4 true) => (0 <=? o) && (o + 4 <=? pack_header_size p)
   | _ => false
   end)
  && (match place ["items"] (pk_pack p) with
      | Some (o, CArr n t) => (o =? pack_header_size p) && (n =? pk_max_count p)
                              && (sizeof t =? sizeof (pk_item p))
      | _ => false
      end)
  && (match place [pk_size_member p] (pk_item p) with
      | Some (o, CInt n false) =>
          (0 <=? o) && (1 <=? n) && (n <=? 4) && (o + n <=? c_header_size p)
      | _ => false
      end)
  && (match tail_array (pk_item p) with
      | Some (n, t) => (n =? pk_caption_max p) && (sizeof t =? 1)
      | None => false
      end)
  && (0 <=? pk_caption_max p) && (pk_caption_max p <? 2 ^ 24) && (0 <=? pk_max_count p) && (sizeof (pk_pack p) <? 2 ^ 31)
  && (pack_header_size p <=? SUPLA_MAX_DATA_SIZE).

Definition decoder_ok (d : decoder) : bool :=
  match d with
  | Sized _ t => (1 <=? sizeof t) && (sizeof t <=? SUPLA_MAX_DATA_SIZE)
  | Counted _ t item counts max => counted_ok t item counts max
  | Packed p => pack_ok p
  | _ => true
  end.

Lemma getdata_cases_ok : forallb (λ c, decoder_ok c.2) getdata_cases = true.
Proof. vm_compute. reflexivity. Qed.

Lemma getdata_decoder_ok call_id d : getdata_decoder call_id = Some d → decoder_ok d = true.
Proof.
  unfold getdata_decoder. intros H. apply fmap_Some in H as ([id d'] & H & ->).
  apply find_first_Some in H as [_ Hin].
  pose proof getdata_cases_ok as Hok. rewrite forallb_forall in Hok.
  apply (Hok (id, d')). by apply list_elem_of_In.
Qed.

Close Scope string_scope.

(** ** Integers in a buffer *)

Lemma int_at_Some off n s mem :
  0 <= off → 0 <= n → off + n <= Z.of_nat (length mem) →
  int_at off (CInt n s) mem
  = Some (let z := of_le (take (Z.to_nat n) (drop (Z.to_nat off) mem)) in
          if s then to_signed n z else z).
Proof. intros. cbn [int_at]. by rewrite read_at_Some. Qed.

Lemma int_below_value path t limit data :
  int_below path t limit = true → limit <= Z.of_nat (length data) → bytes data →
  ∃ v, value_of path t 0 data = Some v ∧ - 2 ^ 31 <= v < 2 ^ 32.
Proof.
  unfold int_below, value_of. destruct (place path t) as [[o [n s| | |]]|]; try done.
  intros H Hl Hb. assert (0 <= o ∧ 1 <= n <= 4 ∧ o + n <= limit) as (? & ? & ?) by lia.
  cbn [mbind option_bind]. rewrite Z.add_0_l, int_at_Some by lia. eexists. split; [done|].
  set (l := take (Z.to_nat n) (drop (Z.to_nat o) data)).
  assert (length l = Z.to_nat n) as Hn.
  { unfold l. rewrite length_take, length_drop. lia. }
  pose proof (of_le_range l) as Hr. rewrite Hn, Z2Nat.id in Hr by lia.
  assert (bytes l) as Hbl by (by apply Forall_take, Forall_drop). specialize (Hr Hbl).
  assert (256 ^ n = 2 ^ (8 * n)) as E by (change 256 with (2 ^ 8); by rewrite <- Z.pow_mul_r by lia).
  rewrite E in Hr.
  assert (2 ^ (8 * n) = 2 * 2 ^ (8 * n - 1)) as E2.
  { rewrite <- Z.pow_succ_r by lia. f_equal. lia. }
  assert (2 ^ (8 * n) <= 2 ^ 32) by (apply Z.pow_le_mono_r; lia).
  cbn zeta. destruct s; [|lia]. unfold to_signed. case_match; lia.
Qed.

Lemma sum_of_value counts t limit data :
  forallb (λ c, int_below c t limit) counts = true → limit <= Z.of_nat (length data) →
  bytes data →
  ∃ v, sum_of counts t data = Some v
       ∧ Z.of_nat (length counts) * - 2 ^ 31 <= v <= Z.of_nat (length counts) * 2 ^ 32.
Proof.
  intros H Hl Hb. induction counts as [|c counts IH]; cbn [sum_of forallb length] in *.
  { exists 0. split; [done|lia]. }
  apply andb_true_iff in H as [Hc H].
  destruct (int_below_value _ _ _ _ Hc Hl Hb) as (v & -> & Hv).
  destruct (IH H) as (w & -> & Hw). cbn. exists (v + w). split; [done|]. lia.
Qed.

Lemma counted_ok_sizes t item counts max :
  counted_ok t item counts max = true →
  0 <= sizeof t - sizeof item * max <= SUPLA_MAX_DATA_SIZE ∧ 1 <= sizeof item < 2 ^ 24
  ∧ 1 <= max ∧ sizeof t < 2 ^ 24 ∧ (length counts <= 2)%nat
  ∧ forallb (λ c, int_below c t (sizeof t - sizeof item * max)) counts = true.
Proof.
  unfold counted_ok. cbn zeta. intros H. apply andb_true_iff in H as [H _].
  rewrite !andb_true_iff, !Z.leb_le, Z.ltb_lt, Nat.leb_le in H. destruct_and!.
  split_and!; (lia || nia || done).
Qed.

(** VALID_SIZE without wrap-around: the array has exactly [v] items. *)
Lemma VALID_SIZE_spec t item counts max v size :
  counted_ok t item counts max = true → - 2 ^ 33 <= v <= 2 ^ 33 → is_u32 size →
  VALID_SIZE t item v max size = true ↔
  0 <= v <= max ∧ size = sizeof t - sizeof item * max + v * sizeof item.
Proof.
  intros H Hv Hs. destruct (counted_ok_sizes _ _ _ _ H) as (Hh & Hi & Hm & Ht & _).
  unfold is_u32, SUPLA_MAX_DATA_SIZE in *. unfold VALID_SIZE, header_size.
  rewrite (u64_id (sizeof t - _)) by lia.
  set (h := sizeof t - sizeof item * max) in *.
  assert (u64 (u64 v * sizeof item) = u64 (v * sizeof item)) as ->
    by (unfold u64; by rewrite Zmult_mod_idemp_l).
  split.
  - intros HV. assert (v <= max ∧ h <= size <= sizeof t ∧ u64 (v * sizeof item) = u64 (size - h))
      as (? & ? & HE) by lia. rewrite (u64_id (size - h)) in HE by lia.
    destruct (Z.le_gt_cases 0 v) as [?|Hneg].
    + rewrite u64_id in HE by nia. lia.
    + exfalso. unfold u64 in HE. rewrite <- (Z.mod_unique (v * sizeof item) (2 ^ 64) (-1)
        (v * sizeof item + 2 ^ 64)) in HE; [nia|left; nia|lia].
  - intros [? ->]. replace (h + v * sizeof item - h) with (v * sizeof item) by lia.
    rewrite Z.eqb_refl. assert (v * sizeof item <= max * sizeof item) by nia. lia.
Qed.

(** ** The lists with captions *)

(** Where the members of a list are. *)
Record pack_layout (p : pack_type) (oc os ns : Z) : Prop := {
  pl_count : place ["count"%string] (pk_pack p) = Some (oc, CInt 4 true);
  pl_count_in : 0 <= oc ∧ oc + 4 <= pack_header_size p;
  pl_items : ∃ t, place ["items"%string] (pk_pack p) = Some (pack_header_size p, t);
  pl_size : place [pk_size_member p] (pk_item p) = Some (os, CInt ns false);
  pl_size_in : 0 <= os ∧ 1 <= ns <= 4 ∧ os + ns <= c_header_size p;
  pl_caption : 0 <= pk_caption_max p < 2 ^ 24;
  pl_max : 0 <= pk_max_count p;
  pl_pack : sizeof (pk_pack p) < 2 ^ 31;
  pl_header : pack_header_size p <= SUPLA_MAX_DATA_SIZE
}.

Lemma pack_ok_layout p : pack_ok p = true → ∃ oc os ns, pack_layout p oc os ns.
Proof.
  unfold pack_ok. intros H. rewrite !andb_true_iff, !Z.leb_le, !Z.ltb_lt in H. destruct_and!.
  repeat case_match; try done; subst.
  rewrite ?andb_true_iff, ?Z.leb_le, ?Z.eqb_eq in *. destruct_and!. subst.
  do 3 eexists. split; try eassumption; (lia || by eexists).
Qed.

Section packs.
Variables (p : pack_type) (oc os ns : Z).
Hypothesis Hlay : pack_layout p oc os ns.

Notation hdr := (pack_header_size p).
Notation chdr := (c_header_size p).
Notation isz := (sizeof (pk_item p)).
Notation cap := (pk_caption_max p).

Lemma pack_sizes : 0 < hdr ∧ 0 < chdr ∧ isz = chdr + cap ∧ 0 <= cap ∧ 0 <= pk_max_count p
  ∧ sizeof (pk_pack p) = hdr + isz * pk_max_count p ∧ sizeof (pk_pack p) < 2 ^ 31.
Proof using Hlay.
  destruct Hlay as [_ ? _ _ ? ? ? ? _]. unfold c_header_size, pack_header_size in *. lia.
Qed.

(** The size of the caption in the first bytes of an item. *)
Definition caption_size (l : list Z) : Z :=
  of_le (take (Z.to_nat ns) (drop (Z.to_nat os) l)).

(** The items at the beginning of a list of bytes, [n] at most. *)
Fixpoint split_items (n : nat) (l : list Z) : list (list Z) :=
  match n with
  | O => []
  | S n =>
      if chdr <=? Z.of_nat (length l) then
        let size := caption_size l in
        if (size <=? cap) && (chdr + size <=? Z.of_nat (length l)) then
          take (Z.to_nat (chdr + size)) l
            :: split_items n (drop (Z.to_nat (chdr + size)) l)
        else []
      else []
  end.

(** An item as it travels: its caption is cut. *)
Definition item_wf (it : list Z) : Prop :=
  bytes it ∧ 0 <= caption_size it <= cap ∧ Z.of_nat (length it) = chdr + caption_size it.

(** An item in the list. *)
Definition pad_item (it : list Z) : list Z :=
  it ++ replicate (Z.to_nat isz - length it) 0.

(** The header with the counter [k]. *)
Definition header_with (h : list Z) (k : Z) : list Z :=
  take (Z.to_nat oc) h ++ to_le 4 k ++ drop (Z.to_nat (oc + 4)) h.

Lemma caption_size_range l : bytes l → (Z.to_nat (os + ns) <= length l)%nat →
  0 <= caption_size l < 2 ^ 32.
Proof using Hlay.
  intros Hb Hl. destruct Hlay as [_ _ _ _ (Hos & Hns & Hon) _ _ _ _]. unfold caption_size.
  set (m := take _ _). assert (length m = Z.to_nat ns) as Hm.
  { unfold m. rewrite length_take, length_drop. lia. }
  pose proof (of_le_range m) as Hr. rewrite Hm, Z2Nat.id in Hr by lia.
  assert (256 ^ ns <= 256 ^ 4) by (apply Z.pow_le_mono_r; lia).
  specialize (Hr ltac:(by apply Forall_take, Forall_drop)). lia.
Qed.

Lemma caption_size_app l k : (Z.to_nat (os + ns) <= length l)%nat →
  caption_size (l ++ k) = caption_size l.
Proof using Hlay.
  intros Hl. destruct Hlay as [_ _ _ _ (Hos & Hns & Hon) _ _ _ _]. unfold caption_size.
  rewrite drop_app_le by lia. rewrite take_app_le; [done|]. rewrite length_drop. lia.
Qed.

Lemma split_items_wf n : ∀ l, bytes l → Forall item_wf (split_items n l).
Proof using Hlay.
  pose proof pack_sizes as (? & ? & ? & ? & ? & _ & _).
  destruct Hlay as [_ _ _ _ (Hos & Hns & Hon) _ _ _ _].
  induction n as [|n IH]; intros l Hb; cbn [split_items]; [constructor|].
  case_match eqn:E; [|constructor]. apply Z.leb_le in E. cbn zeta.
  case_match eqn:E2; [|constructor]. apply andb_true_iff in E2 as [E2 E3].
  apply Z.leb_le in E2. apply Z.leb_le in E3.
  pose proof (caption_size_range l Hb ltac:(lia)) as Hc.
  constructor; [|by apply IH, Forall_drop].
  assert (caption_size (take (Z.to_nat (chdr + caption_size l)) l) = caption_size l) as E4.
  { rewrite <- (take_drop (Z.to_nat (chdr + caption_size l)) l) at 3.
    rewrite caption_size_app; [done|]. rewrite length_take. lia. }
  unfold item_wf. rewrite E4, length_take. split_and!; [by apply Forall_take|lia..].
Qed.

Lemma split_items_length n : ∀ l, (length (split_items n l) <= n)%nat.
Proof.
  induction n as [|n IH]; intros l; cbn [split_items]; [done|]. cbn zeta.
  repeat case_match; cbn; try lia. specialize (IH (drop (Z.to_nat (chdr + caption_size l)) l)). lia.
Qed.

Lemma split_items_joined its rest : Forall item_wf its →
  split_items (length its) (mjoin its ++ rest) = its.
Proof using Hlay.
  pose proof pack_sizes as (? & ? & ? & ? & ? & _ & _).
  destruct Hlay as [_ _ _ _ (Hos & Hns & Hon) _ _ _ _].
  induction its as [|it its IH]; intros Hwf; [done|].
  apply Forall_cons in Hwf as [(Hb & Hc & Hl) Hwf]. cbn [length split_items].
  rewrite mjoin_cons, <- app_assoc. rewrite length_app.
  rewrite (proj2 (Z.leb_le _ _)) by lia. cbn zeta.
  rewrite caption_size_app by lia.
  rewrite (proj2 (Z.leb_le (caption_size it) cap)) by lia.
  rewrite (proj2 (Z.leb_le _ _)) by lia. cbn [andb].
  replace (Z.to_nat (chdr + caption_size it)) with (length it) by lia.
  rewrite take_app_length, drop_app_length. f_equal. by apply IH.
Qed.

Lemma header_with_length h k : Z.of_nat (length h) = hdr → length (header_with h k) = length h.
Proof using Hlay.
  intros Hh. destruct Hlay as [_ [? ?] _ _ _ _ _ _ _]. unfold header_with.
  rewrite !length_app, length_take, length_drop, to_le_length. lia.
Qed.

Lemma header_with_with h k j : Z.of_nat (length h) = hdr →
  header_with (header_with h k) j = header_with h j.
Proof using Hlay.
  intros Hh. destruct Hlay as [_ [? ?] _ _ _ _ _ _ _]. unfold header_with.
  rewrite (take_app_le (take _ h)) by (rewrite length_take; lia). rewrite take_take, Nat.min_id.
  f_equal. f_equal. rewrite app_assoc, drop_app_ge; rewrite length_app, length_take, to_le_length; [|lia].
  replace (Z.to_nat (oc + 4) - _)%nat with 0%nat by lia. by rewrite drop_0.
Qed.

Lemma get_count_header h k tail : Z.of_nat (length h) = hdr → 0 <= k < 2 ^ 31 →
  pack_get_count p (header_with h k ++ tail) = Some k.
Proof using Hlay.
  intros Hh Hk. destruct Hlay as [Hc [? ?] _ _ _ _ _ _ _]. unfold pack_get_count, value_of.
  rewrite Hc. cbn [mbind option_bind]. rewrite int_at_Some; try lia.
  - cbn zeta. rewrite Z.add_0_l. unfold header_with. rewrite <- app_assoc.
    rewrite drop_app_ge by (rewrite length_take; lia).
    rewrite length_take, Nat.min_l, Nat.sub_diag, drop_0 by lia.
    rewrite <- app_assoc, take_app_le by (rewrite to_le_length; lia).
    rewrite take_ge by (rewrite to_le_length; lia). rewrite of_to_le by lia.
    unfold to_signed. case_match; [done|lia].
  - rewrite length_app, header_with_length by done. lia.
Qed.

Lemma assign_count h k tail : Z.of_nat (length h) = hdr →
  assign ["count"%string] (pk_pack p) 0 k (h ++ tail) = Some (header_with h k ++ tail).
Proof using Hlay.
  intros Hh. destruct Hlay as [Hc [? ?] _ _ _ _ _ _ _]. unfold assign. rewrite Hc.
  cbn [mbind option_bind sizeof]. rewrite Z.add_0_l. unfold memcpy_to.
  rewrite to_le_length, length_app, !(proj2 (Z.leb_le _ _)) by lia. cbn [andb].
  f_equal. unfold header_with. rewrite take_app_le by lia. rewrite drop_app_le by lia.
  rewrite (take_ge (to_le _ _)) by (rewrite to_le_length; lia). by rewrite <- !app_assoc.
Qed.

Lemma set_count_header h k j inc tail : Z.of_nat (length h) = hdr → 0 <= k < 2 ^ 31 →
  0 <= (if inc : bool then k + j else j) < 2 ^ 32 →
  pack_set_count p (header_with h k ++ tail) j inc
  = Some (header_with h (if inc then k + j else j) ++ tail).
Proof using Hlay.
  intros Hh Hk Hj. unfold pack_set_count. rewrite get_count_header by done.
  cbn [mbind option_bind]. rewrite assign_count by (by rewrite header_with_length).
  rewrite header_with_with by done. by rewrite u32_id.
Qed.

(** The list after the items [its], with room for [n] more. *)
Definition packed (h : list Z) (its : list (list Z)) (n : nat) : list Z :=
  header_with h (Z.of_nat (length its)) ++ mjoin (pad_item <$> its)
    ++ replicate (n * Z.to_nat isz) 0.

Lemma pad_item_length it : item_wf it → length (pad_item it) = Z.to_nat isz.
Proof using Hlay.
  pose proof pack_sizes as (? & ? & ? & ? & _). intros (_ & ? & ?). unfold pad_item.
  rewrite length_app, length_replicate. lia.
Qed.

Lemma padded_length its : Forall item_wf its →
  length (mjoin (pad_item <$> its)) = (length its * Z.to_nat isz)%nat.
Proof using Hlay.
  induction 1 as [|it its Hit _ IH]; [done|].
  cbn [fmap list_fmap]. rewrite mjoin_cons, length_app, IH, pad_item_length by done. cbn. lia.
Qed.

Lemma memcpy_middle {A} (a b c src : list A) off n :
  off = Z.of_nat (length a) → n = Z.of_nat (length b) → n <= Z.of_nat (length src) →
  memcpy_to (a ++ b ++ c) off src n = Some (a ++ take (length b) src ++ c).
Proof.
  intros -> -> Hs. unfold memcpy_to. rewrite !length_app.
  rewrite !(proj2 (Z.leb_le _ _)) by lia. cbn [andb].
  rewrite !Nat2Z.id, take_app_length. rewrite <- Nat2Z.inj_add, Nat2Z.id.
  rewrite (app_assoc a b c). rewrite <- (length_app a b), drop_app_length. done.
Qed.

(** Writing an item after [its]. *)
Lemma write_item h its n it : Z.of_nat (length h) = hdr → Forall item_wf its → item_wf it →
  ∃ ptr, get_item_ptr p (Z.of_nat (length its)) = Some ptr ∧
  memcpy_to (packed h its (S n)) ptr it (Z.of_nat (length it))
  = Some (header_with h (Z.of_nat (length its)) ++ mjoin (pad_item <$> (its ++ [it]))
          ++ replicate (n * Z.to_nat isz) 0).
Proof using Hlay.
  intros Hh Hwf Hit. pose proof pack_sizes as (? & ? & ? & ? & _).
  pose proof (pl_items _ _ _ _ Hlay) as [t Ht]. unfold get_item_ptr. rewrite Ht.
  cbn [mbind option_bind]. eexists. split; [done|].
  pose proof (padded_length its Hwf) as Hl. destruct Hit as (Hb & Hc & Hli).
  unfold packed. cbn [Nat.mul].
  replace (Z.to_nat isz + n * Z.to_nat isz)%nat
    with (length it + (Z.to_nat isz - length it + n * Z.to_nat isz))%nat by lia.
  rewrite replicate_add, app_assoc. rewrite memcpy_middle.
  - rewrite length_replicate, take_ge by done. f_equal.
    rewrite fmap_app, join_app. cbn [fmap list_fmap]. rewrite mjoin_cons.
    change (mjoin (@nil (list Z))) with (@nil Z). rewrite app_nil_r.
    change (pad_item it) with (it ++ replicate (Z.to_nat isz - length it) 0).
    rewrite replicate_add, <- !app_assoc. done.
  - rewrite length_app, header_with_length by done. nia.
  - by rewrite length_replicate.
  - lia.
Qed.

(** The loop writes the items that [split_items] finds in the data. *)
Lemma getpack_items_ok h data_size data : Z.of_nat (length h) = hdr → bytes data →
  data_size <= Z.of_nat (length data) → is_u32 data_size →
  ∀ n its offset,
  0 <= offset <= data_size → Forall item_wf its → Z.of_nat (length its + n) < 2 ^ 31 →
  let more := split_items n (drop (Z.to_nat offset) (take (Z.to_nat data_size) data)) in
  getpack_items p n (Z.of_nat (length its)) offset data_size data (packed h its n)
  = Some (packed h (its ++ more) (n - length more)).
Proof using Hlay.
  intros Hh Hb Hds Hu. pose proof pack_sizes as (? & ? & ? & ? & ? & ? & ?).
  induction n as [|n IH]; intros its offset Ho Hwf Hn; cbn zeta; cbn [split_items getpack_items].
  { by rewrite app_nil_r. }
  set (l := drop (Z.to_nat offset) (take (Z.to_nat data_size) data)).
  assert (Z.of_nat (length l) = data_size - offset) as Hl.
  { unfold l. rewrite length_drop, length_take. lia. }
  unfold is_u32 in Hu. rewrite u32_id by (unfold is_u32; lia). rewrite Hl.
  destruct (c_header_size p <=? data_size - offset) eqn:Eh.
  2: { assert (∀ m a, getpack_items p m a offset data_size data (packed h its (S n))
         = Some (packed h its (S n))) as Hstop.
       { intros m. induction m as [|m IHm]; intros a; cbn [getpack_items]; [done|].
         rewrite u32_id by (unfold is_u32; lia). by rewrite Eh. }
       rewrite Hstop, app_nil_r. done. }
  apply Z.leb_le in Eh.
  assert (get_item_caption_size p offset data = Some (caption_size l)) as ->.
  { pose proof (pl_size _ _ _ _ Hlay) as Hs. pose proof (pl_size_in _ _ _ _ Hlay) as Hsi.
    unfold get_item_caption_size, value_of. rewrite Hs. cbn [mbind option_bind].
    rewrite int_at_Some by lia. cbn zeta. f_equal. unfold caption_size, l. f_equal.
    rewrite drop_drop. replace (Z.to_nat (offset + os)) with (Z.to_nat offset + Z.to_nat os)%nat by lia.
    rewrite skipn_firstn_comm, take_take. f_equal. lia. }
  cbn [mbind option_bind]. pose proof (pl_size_in _ _ _ _ Hlay) as Hsi.
  assert (bytes l) as Hbl by (by apply Forall_drop, Forall_take).
  pose proof (caption_size_range l Hbl ltac:(lia)) as Hcr.
  assert ((0 <=? i32 (caption_size l)) && (i32 (caption_size l) <=? pk_caption_max p)
          && (chdr + i32 (caption_size l) <=? data_size - offset)
          = (caption_size l <=? cap) && (chdr + caption_size l <=? data_size - offset)) as Ec.
  { pose proof (pl_caption _ _ _ _ Hlay). destruct (Z.lt_ge_cases (caption_size l) (2 ^ 31)).
    - rewrite i32_id by (unfold is_i32; lia). by rewrite (proj2 (Z.leb_le _ _)) by lia.
    - rewrite (proj2 (Z.leb_gt (caption_size l) cap)) by lia. cbn [andb].
      unfold i32. rewrite <- (Z.mod_unique (caption_size l + 2 ^ 31) (2 ^ 32) 1
        (caption_size l - 2 ^ 31)) by lia.
      by rewrite (proj2 (Z.leb_gt 0 _)) by lia. }
  cbn zeta. rewrite Ec. clear Ec.
  destruct ((caption_size l <=? cap) && (chdr + caption_size l <=? data_size - offset)) eqn:Ec.
  2: { by rewrite app_nil_r. }
  apply andb_true_iff in Ec as [Ec1 Ec2]. apply Z.leb_le in Ec1, Ec2.
  assert (i32 (caption_size l) = caption_size l) as ->.
  { apply i32_id. pose proof (pl_caption _ _ _ _ Hlay). unfold is_i32. lia. }
  set (k := Z.to_nat (chdr + caption_size l)). set (it := take k l).
  assert (read_at data offset (chdr + caption_size l) = Some it) as ->.
  { assert (Z.of_nat k = chdr + caption_size l) as Hk by lia. rewrite <- Hk.
    rewrite read_at_Some by lia. rewrite Nat2Z.id. f_equal. unfold it, l. clearbody k.
    rewrite skipn_firstn_comm, take_take. f_equal. lia. }
  cbn [mbind option_bind].
  assert (Z.of_nat (length it) = chdr + caption_size l) as Hil by (unfold it, k; rewrite length_take; lia).
  assert (item_wf it) as Hit.
  { assert (caption_size it = caption_size l) as E.
    { unfold it. rewrite <- (take_drop k l) at 2. rewrite caption_size_app; [done|].
      rewrite length_take. unfold k. lia. }
    unfold item_wf. rewrite E. split_and!; [by apply Forall_take|lia..]. }
  destruct (write_item h its n it Hh Hwf Hit) as (ptr & -> & Hw). cbn [mbind option_bind].
  rewrite <- Hil, Hw. cbn [mbind option_bind]. rewrite set_count_header by (done || lia).
  cbn [mbind option_bind].
  replace (Z.of_nat (length its) + 1) with (Z.of_nat (length (its ++ [it])))
    by (rewrite length_app; cbn; lia).
  change (header_with h (Z.of_nat (length (its ++ [it]))) ++ mjoin (pad_item <$> its ++ [it])
            ++ replicate (n * Z.to_nat isz) 0) with (packed h (its ++ [it]) n).
  rewrite IH.
  - replace (drop (Z.to_nat (offset + Z.of_nat (length it))) (take (Z.to_nat data_size) data))
      with (drop k l); [|unfold l; rewrite drop_drop; f_equal; lia].
    rewrite <- app_assoc. cbn [app length]. f_equal.
  - lia.
  - apply Forall_app. by split; [|constructor].
  - rewrite length_app. cbn. lia.
Qed.

(** The whole function: the list of the items found, if there are as many as the
    counter says. *)
Lemma srpc_getpack_ok alloc_ok data_size data : bytes data ->
  data_size <= Z.of_nat (length data) → Z.of_nat (length data) = SUPLA_MAX_DATA_SIZE →
  is_u32 data_size →
  let h := take (Z.to_nat hdr) data in
  ∃ count, pack_get_count p data = Some count ∧
  srpc_getpack p alloc_ok data_size data
  = Some (if (data_size <? hdr) || (sizeof (pk_pack p) <? data_size)
             || (count <? 0) || (pk_max_count p <? count) || negb alloc_ok then None
          else
            let its := split_items (Z.to_nat count)
                         (drop (Z.to_nat hdr) (take (Z.to_nat data_size) data)) in
            if Z.of_nat (length its) =? count then Some (packed h its 0) else None).
Proof using Hlay.
  intros Hb Hds Hmax Hu. cbn zeta. pose proof pack_sizes as (? & ? & ? & ? & ? & ? & ?).
  pose proof (pl_header _ _ _ _ Hlay). set (h := take (Z.to_nat hdr) data).
  assert (Z.of_nat (length h) = hdr) as Hh by (unfold h; rewrite length_take; lia).
  pose proof (pl_count _ _ _ _ Hlay) as Hc. pose proof (pl_count_in _ _ _ _ Hlay) as Hci.
  assert (∃ count, pack_get_count p data = Some count ∧ count < 2 ^ 31) as (count & Hcount & Hc31).
  { unfold pack_get_count, value_of. rewrite Hc. cbn [mbind option_bind].
    rewrite int_at_Some by lia. cbn zeta. eexists. split; [done|].
    set (m := take _ _). assert (length m = 4%nat) as Hm.
    { unfold m. rewrite length_take, length_drop. lia. }
    pose proof (of_le_range m ltac:(by apply Forall_take, Forall_drop)) as Hr. rewrite Hm in Hr.
    unfold to_signed. case_match; lia. }
  exists count. split; [done|]. unfold srpc_getpack.
  destruct ((data_size <? hdr) || (sizeof (pk_pack p) <? data_size)) eqn:E1; [done|].
  apply orb_false_iff in E1 as [E1 E2]. apply Z.ltb_ge in E1, E2.
  rewrite Hcount. cbn [mbind option_bind orb].
  destruct ((count <? 0) || (pk_max_count p <? count)) eqn:E3; [done|].
  cbn [orb]. apply orb_false_iff in E3 as [E3 E4]. apply Z.ltb_ge in E3, E4.
  destruct alloc_ok; cbn [negb]; [|done].
  assert (memcpy_to (replicate (Z.to_nat (hdr + isz * count)) 0) 0 data hdr
          = Some (h ++ replicate (Z.to_nat (isz * count)) 0)) as ->.
  { rewrite Z2Nat.inj_add, replicate_add by lia.
    pose proof (memcpy_middle [] (replicate (Z.to_nat hdr) 0)
      (replicate (Z.to_nat (isz * count)) 0) data 0 hdr) as Hm.
    cbn [app] in Hm. rewrite Hm; rewrite ?length_replicate; (done || cbn; lia). }
  cbn [mbind option_bind].
  assert (pack_set_count p (h ++ replicate (Z.to_nat (isz * count)) 0) 0 false
          = Some (packed h [] (Z.to_nat count))) as ->.
  { unfold pack_set_count. assert (∃ x, pack_get_count p (h ++ replicate (Z.to_nat (isz * count)) 0)
      = Some x) as [x ->].
    { unfold pack_get_count, value_of. rewrite Hc. cbn [mbind option_bind].
      rewrite int_at_Some by (rewrite ?length_app; lia). by eexists. }
    cbn [mbind option_bind]. rewrite u32_id by (unfold is_u32; lia).
    rewrite assign_count by done. unfold packed. cbn [fmap list_fmap length app].
    replace (Z.to_nat (isz * count)) with (Z.to_nat count * Z.to_nat isz)%nat by nia. done. }
  cbn [mbind option_bind].
  pose proof (getpack_items_ok h data_size data Hh Hb Hds Hu (Z.to_nat count) [] hdr) as Hi.
  cbn [length app] in Hi. change (Z.of_nat 0) with 0 in Hi. rewrite Hi by (done || lia). clear Hi. cbn [mbind option_bind app].
  set (its := split_items _ _).
  assert (length its <= Z.to_nat count)%nat as Hlen by apply split_items_length.
  assert (pack_get_count p (packed h its (Z.to_nat count - length its))
          = Some (Z.of_nat (length its))) as -> by (apply get_count_header; [done|lia]).
  cbn [mbind option_bind]. rewrite Z.eqb_sym. case_match eqn:E5; [|done].
  apply Z.eqb_eq in E5. replace (Z.to_nat count - length its)%nat with 0%nat by lia. done.
Qed.

Lemma split_items_prefix n : ∀ l, mjoin (split_items n l) `prefix_of` l.
Proof.
  induction n as [|n IH]; intros l; cbn [split_items]; [apply prefix_nil|]. cbn zeta.
  case_match; [|apply prefix_nil]. case_match; [|apply prefix_nil].
  rewrite mjoin_cons. generalize (Z.to_nat (chdr + caption_size l)). intros k.
  destruct (IH (drop k l)) as [t Ht]. exists t. rewrite <- app_assoc, <- Ht.
  symmetry. apply take_drop.
Qed.

(** The counter of the data is the one of the list. *)
Lemma header_same data k : hdr <= Z.of_nat (length data) → bytes data →
  pack_get_count p data = Some k → 0 <= k →
  header_with (take (Z.to_nat hdr) data) k = take (Z.to_nat hdr) data.
Proof using Hlay.
  intros Hh Hb Hk H0. pose proof (pl_count _ _ _ _ Hlay) as Hc.
  pose proof (pl_count_in _ _ _ _ Hlay) as Hci. unfold pack_get_count, value_of in Hk.
  rewrite Hc in Hk. cbn [mbind option_bind] in Hk. rewrite int_at_Some in Hk by lia.
  cbn zeta in Hk. rewrite Z.add_0_l in Hk. set (m := take _ _) in Hk. injection Hk as Hk.
  assert (length m = 4%nat) as Hm by (unfold m; rewrite length_take, length_drop; lia).
  pose proof (of_le_range m ltac:(by apply Forall_take, Forall_drop)) as Hr. rewrite Hm in Hr.
  assert (of_le m = k) as Hv by (unfold to_signed in Hk; case_match; lia).
  unfold header_with. rewrite <- Hv. rewrite <- Hm at 1.
  rewrite to_of_le by (by apply Forall_take, Forall_drop).
  assert (m = take 4 (drop (Z.to_nat oc) (take (Z.to_nat hdr) data))) as ->.
  { unfold m. rewrite skipn_firstn_comm, take_take. f_equal. lia. }
  rewrite Z2Nat.inj_add by lia. change (Z.to_nat 4) with 4%nat.
  rewrite <- (drop_drop (take (Z.to_nat hdr) data)), take_drop. apply take_drop.
Qed.

(** An item as it travels, without the positions of its members. *)
Lemma item_wf_size it : item_wf it → get_item_caption_size p 0 it = Some (caption_size it).
Proof using Hlay.
  pose proof pack_sizes as (? & ? & ? & ? & _). intros (_ & ? & ?).
  pose proof (pl_size _ _ _ _ Hlay) as Hs. pose proof (pl_size_in _ _ _ _ Hlay) as Hsi.
  unfold get_item_caption_size, value_of. rewrite Hs. cbn [mbind option_bind].
  rewrite int_at_Some by lia. cbn zeta. by rewrite Z.add_0_l.
Qed.
End packs.

Definition item_travels (p : pack_type) (it : list Z) : Prop :=
  bytes it ∧ ∃ size, get_item_caption_size p 0 it = Some size
                     ∧ 0 <= size <= pk_caption_max p ∧ Z.of_nat (length it) = c_header_size p + size.

(** ** What is accepted *)

Definition fill (a : allocator) : option Z := match a with Calloc => Some 0 | Malloc => None end.

(** The block [rd->data] points to for an accepted packet with [size] bytes of
    data; the rest of it is what the allocator left. *)
Definition accepted_block (d : decoder) (size : Z) (data : list Z) (block : option cells) : Prop :=
  let copied a t := Some ((Some <$> take (Z.to_nat size) data)
                          ++ replicate (Z.to_nat (sizeof t - size)) (fill a)) in
  match d with
  | NoData => block = None
  | Sized a t => size = sizeof t ∧ block = copied a t
  | Counted a t item counts max =>
      ∃ v, sum_of counts t (take (Z.to_nat size) data) = Some v ∧ 0 <= v <= max
           ∧ size + (max - v) * sizeof item = sizeof t ∧ block = copied a t
  | Packed p =>
      ∃ its, Forall (item_travels p) its
           ∧ pack_get_count p (take (Z.to_nat size) data) = Some (Z.of_nat (length its))
           ∧ Z.of_nat (length its) <= pk_max_count p ∧ size <= sizeof (pk_pack p)
           ∧ take (Z.to_nat (pack_header_size p)) data ++ mjoin its
               `prefix_of` take (Z.to_nat size) data
           ∧ block = Some (Some <$> take (Z.to_nat (pack_header_size p)) data
                                    ++ mjoin (pad_item p <$> its))
  | PingServer =>
      size = sizeof TDCS_SuplaPingServer ∧ block = copied Calloc TDCS_SuplaPingServer
      ∨ size = sizeof TDCS_SuplaPingServer_COMPAT
        ∧ ∃ b, ping_of_compat data = Some b ∧ block = Some (Some <$> b)
  | FirmwareUrl =>
      (size = sizeof TSD_FirmwareUpdate_UrlResult ∨ size = 1)
      ∧ block = copied Calloc TSD_FirmwareUpdate_UrlResult
  end.

Definition data_ok (size : Z) (data : list Z) : Prop :=
  Z.of_nat (length data) = SUPLA_MAX_DATA_SIZE ∧ bytes data ∧ 0 <= size <= SUPLA_MAX_DATA_SIZE.

(** The copy at the end fits in the block. *)
Lemma finish_copy a t size data :
  data_ok size data → size <= sizeof t →
  getdata_finish (to_copy (allocate true a (sizeof t))) size data
  = Some (SUPLA_RESULT_TRUE,
          Some ((Some <$> take (Z.to_nat size) data)
                ++ replicate (Z.to_nat (sizeof t - size)) (fill a)), size).
Proof.
  intros (Hl & _ & Hs) Ht. unfold to_copy, allocate, getdata_finish.
  change (match a with Calloc => Some 0 | Malloc => None end) with (fill a).
  replace (Z.to_nat (sizeof t)) with (Z.to_nat size + Z.to_nat (sizeof t - size))%nat by lia.
  rewrite replicate_add. case_match eqn:E.
  - pose proof (memcpy_middle [] (replicate (Z.to_nat size) (fill a))
      (replicate (Z.to_nat (sizeof t - size)) (fill a)) (Some <$> data) 0 size) as Hm.
    cbn [app] in Hm. rewrite Hm; rewrite ?length_replicate, ?length_fmap; [|done|lia|lia].
    cbn [mbind option_bind]. by rewrite fmap_take.
  - assert (size = 0) as -> by lia. cbn. done.
Qed.

(** The value of members of the header only depends on the data received. *)
Lemma sum_of_received counts t limit size data v :
  forallb (λ c, int_below c t limit) counts = true → limit <= size →
  size <= Z.of_nat (length data) →
  sum_of counts t data = Some v → sum_of counts t (take (Z.to_nat size) data) = Some v.
Proof.
  intros H Hl Hs. revert v. induction counts as [|c counts IH]; intros v; cbn [sum_of forallb] in *;
    [done|].
  apply andb_true_iff in H as [Hc H]. intros Hv.
  apply bind_Some in Hv as (x & Hx & Hv). apply bind_Some in Hv as (w & Hw & Hv).
  unfold int_below in Hc. destruct (place c t) as [[o [n sg| | |]]|] eqn:Ep; try done.
  rewrite (value_of_agree c t 0 size data _ x (o + n)); [|..|exact Hx].
  - cbn [mbind option_bind]. by rewrite (IH H _ Hw).
  - unfold member_end. by rewrite Ep.
  - lia.
  - rewrite take_take. by rewrite Nat.min_id.
  - rewrite length_take. lia.
Qed.

Lemma counted_switch alloc_ok a t item counts max size data :
  data_ok size data → counted_ok t item counts max = true →
  ∃ r, getdata_switch alloc_ok (Counted a t item counts max) size data = Some r
  ∧ (r = Refused
     ∨ r = to_copy (allocate true a (sizeof t)) ∧ size <= sizeof t
       ∧ ∃ v, sum_of counts t (take (Z.to_nat size) data) = Some v ∧ 0 <= v <= max
              ∧ size + (max - v) * sizeof item = sizeof t).
Proof.
  intros (Hl & Hb & Hs) Hok. destruct (counted_ok_sizes _ _ _ _ Hok) as (Hh & Hi & Hm & Ht & Hc & Hf).
  destruct (sum_of_value _ _ _ data Hf ltac:(lia) Hb) as (v & Hv & Hr).
  cbn [getdata_switch]. rewrite Hv. cbn [mbind option_bind]. eexists. split; [done|].
  destruct (VALID_SIZE t item v max size) eqn:EV; [|by left].
  unfold SUPLA_MAX_DATA_SIZE in Hs.
  apply (VALID_SIZE_spec _ _ _ _ _ _ Hok) in EV as [Hvm Hsz]; [|lia|unfold is_u32; lia].
  destruct alloc_ok; [|by left]. right. split; [done|]. split; [nia|].
  exists v. unfold SUPLA_MAX_DATA_SIZE in *.
  split_and!; [eapply sum_of_received; [exact Hf|nia|nia|done]|lia|lia|nia].
Qed.

Lemma getpack_switch alloc_ok p size data :
  data_ok size data → pack_ok p = true →
  ∃ r, getdata_switch alloc_ok (Packed p) size data = Some r
  ∧ (r = Refused
     ∨ ∃ block, r = Unpacked block ∧ accepted_block (Packed p) size data (Some block)).
Proof.
  intros (Hl & Hb & Hs) Hok. destruct (pack_ok_layout p Hok) as (oc & os & ns & Hlay).
  pose proof (pack_sizes _ _ _ _ Hlay) as (? & ? & ? & ? & ? & ? & ?).
  pose proof (pl_header _ _ _ _ Hlay) as Hhdr. unfold SUPLA_MAX_DATA_SIZE in *.
  destruct (srpc_getpack_ok _ _ _ _ Hlay alloc_ok size data Hb ltac:(lia)
    Hl ltac:(unfold is_u32; lia)) as (count & Hcount & Hg).
  cbn [getdata_switch]. rewrite Hg. cbn [mbind option_bind]. eexists. split; [done|].
  destruct ((size <? pack_header_size p) || _ || _ || _ || _) eqn:Ec; [by left|]. cbn zeta.
  set (its := split_items _ _ _ _ _).
  destruct (Z.of_nat (length its) =? count) eqn:En; [|by left]. right.
  apply Z.eqb_eq in En. rewrite !orb_false_iff, !Z.ltb_ge in Ec. destruct_and!.
  eexists. split; [done|].
  assert (Forall (item_wf p os ns) its) as Hwf
    by (eapply split_items_wf; [exact Hlay|by apply Forall_drop, Forall_take]).
  exists its. split_and!.
  - eapply Forall_impl; [exact Hwf|]. intros it Hit. pose proof Hit as (Hbi & Hsz & Hln).
    split; [done|]. exists (caption_size os ns it). split; [by eapply item_wf_size|done].
  - rewrite En. unfold pack_get_count in *. pose proof (pl_count_in _ _ _ _ Hlay).
    eapply (value_of_agree _ _ 0 size data); [|..|exact Hcount].
    + unfold member_end. by rewrite (pl_count _ _ _ _ Hlay).
    + cbn [sizeof]. lia.
    + by rewrite take_take, Nat.min_id.
    + rewrite length_take. lia.
  - lia.
  - lia.
  - destruct (split_items_prefix p os ns (Z.to_nat count)
      (drop (Z.to_nat (pack_header_size p)) (take (Z.to_nat size) data))) as [tl Htl].
    exists tl. rewrite <- app_assoc. fold its in Htl. rewrite <- Htl.
    rewrite <- (take_drop (Z.to_nat (pack_header_size p)) (take (Z.to_nat size) data)) at 1.
    rewrite take_take. do 2 f_equal. lia.
  - unfold packed. rewrite En, Nat.mul_0_l. cbn [replicate]. rewrite app_nil_r.
    rewrite (header_same _ _ _ _ Hlay data count); [done|lia|done|done|lia].
Qed.

Lemma compat_ping data : Z.of_nat (length data) = SUPLA_MAX_DATA_SIZE →
  ∃ b, ping_of_compat data = Some b.
Proof.
  intros Hl. unfold ping_of_compat, SUPLA_MAX_DATA_SIZE in *.
  assert (∀ f o, place ["now"%string; f] TDCS_SuplaPingServer_COMPAT = Some (o, int32) → 0 <= o <= 100 →
    ∃ v, value_of ["now"%string; f] TDCS_SuplaPingServer_COMPAT 0 data = Some v) as Hv.
  { intros f o Hp Ho. unfold value_of. rewrite Hp. cbn [mbind option_bind].
    unfold int32. rewrite int_at_Some by lia. by eexists. }
  destruct (Hv "tv_sec"%string 0) as [sec ->]; [vm_compute; reflexivity|lia|].
  destruct (Hv "tv_usec"%string 4) as [usec ->]; [vm_compute; reflexivity|lia|].
  cbn [mbind option_bind]. unfold assign.
  replace (place ["now"%string; "tv_sec"%string] TDCS_SuplaPingServer) with (Some (0, int64))
    by (vm_compute; reflexivity).
  replace (place ["now"%string; "tv_usec"%string] TDCS_SuplaPingServer) with (Some (8, int64))
    by (vm_compute; reflexivity).
  cbn. by eexists.
Qed.

(** The switch and the copy stay in their blocks; what they accept. *)
Lemma getdata_decode_ok alloc_ok call_id size data :
  data_ok size data →
  ∃ r block size', getdata_decode alloc_ok call_id size data = Some (r, block, size')
  ∧ (r = SUPLA_RESULT_DATA_ERROR ∧ block = None
     ∨ r = SUPLA_RESULT_TRUE ∧ ∃ d, getdata_decoder call_id = Some d
                                    ∧ accepted_block d size data block).
Proof.
  intros Hd. unfold getdata_decode.
  destruct (getdata_decoder call_id) as [d|] eqn:Ed; [|do 3 eexists; split; [done|by left]].
  assert (∀ r, r = Refused → ∃ r' block size', getdata_finish r size data = Some (r', block, size')
    ∧ (r' = SUPLA_RESULT_DATA_ERROR ∧ block = None
     ∨ r' = SUPLA_RESULT_TRUE ∧ ∃ d', Some d = Some d' ∧ accepted_block d' size data block)) as Href.
  { intros r ->. do 3 eexists. split; [done|]. by left. }
  assert (∀ a t, size <= sizeof t →
    accepted_block d size data (Some ((Some <$> take (Z.to_nat size) data)
                          ++ replicate (Z.to_nat (sizeof t - size)) (fill a))) →
    ∃ r' block size', getdata_finish (to_copy (allocate alloc_ok a (sizeof t))) size data
      = Some (r', block, size')
    ∧ (r' = SUPLA_RESULT_DATA_ERROR ∧ block = None
     ∨ r' = SUPLA_RESULT_TRUE ∧ ∃ d', Some d = Some d' ∧ accepted_block d' size data block)) as Hcopy.
  { intros a t Ht Ha. destruct alloc_ok; [|by apply Href]. rewrite finish_copy by done.
    do 3 eexists. split; [done|]. right. split; [done|]. by exists d. }
  pose proof (getdata_decoder_ok _ _ Ed) as Hok.
  destruct d as [|a t|a t item counts max|p| |].
  - cbn. do 3 eexists. split; [done|]. right. split; [done|]. by eexists.
  - cbn [getdata_switch mbind option_bind]. destruct (Z.eqb_spec size (sizeof t)) as [->|];
      [|by apply Href]. by apply Hcopy.
  - destruct (counted_switch alloc_ok a t item counts max size data Hd Hok)
      as (r & -> & [->|(-> & Ht & v & Hv)]); cbn [mbind option_bind]; [by apply Href|].
    rewrite finish_copy by done. do 3 eexists. split; [done|]. right. split; [done|].
    eexists. split; [done|]. exists v. destruct Hv as (? & ? & ?). by repeat (split; [assumption|]).
  - destruct (getpack_switch alloc_ok p size data Hd Hok) as (r & -> & [->|(b & -> & Hb)]);
      cbn [mbind option_bind]; [by apply Href|].
    do 3 eexists. split; [done|]. right. split; [done|]. by eexists.
  - cbn [getdata_switch]. cbn zeta. destruct (Z.eqb_spec size (sizeof TDCS_SuplaPingServer)) as [E|E].
    + cbn [mbind option_bind]. apply Hcopy; [lia|]. by left.
    + destruct (Z.eqb_spec size (sizeof TDCS_SuplaPingServer_COMPAT)) as [E2|E2];
        [|by apply Href]. destruct alloc_ok; cbn [andb]; [|by apply Href].
      destruct (compat_ping data) as [b Hb]; [apply Hd|]. rewrite Hb. cbn [mbind option_bind].
      do 3 eexists. split; [done|]. right. split; [done|]. eexists. split; [done|].
      right. split; [done|]. by exists b.
  - cbn [getdata_switch mbind option_bind]. cbn zeta.
    destruct ((size =? sizeof TSD_FirmwareUpdate_UrlResult) || (size =? sizeof schar)) eqn:E;
      [|by apply Href].
    assert (size = sizeof TSD_FirmwareUpdate_UrlResult ∨ size = 1) as Hsz.
    { apply orb_true_iff in E as [E|E]; apply Z.eqb_eq in E; [by left|by right]. }
    apply Hcopy; [destruct Hsz as [->| ->]; [done|vm_compute; done]|]. by split.
Qed.
