(* ===== verification/SrpcReceive.v ===== *)
(** * SrpcReceive: what a connection does with the packets of its peer

    The decoding of [SrpcData] accepts exactly the data with the layout of the
    call, and the packets that reach it from the network are well formed: every
    state of a connection keeps packets whose data are 10240 bytes with a size
    within them. Together: [srpc_getdata] is safe whatever the peer sends. *)

From stdpp Require Import strings.
From S2P Require Import Prelude CLayout Proto CallIds Srpc ProtoTypes SrpcData.

(** ** Accepted data are decoded *)

Section packs.
Variables (p : pack_type) (oc os ns : Z).
Hypothesis Hlay : pack_layout p oc os ns.

Lemma item_travels_wf it : item_travels p it → item_wf p os ns it.
Proof using Hlay.
  intros (Hb & size & Hs & Hr & Hl). pose proof (pl_size_in _ _ _ _ Hlay) as Hsi.
  unfold get_item_caption_size, value_of in Hs. rewrite (pl_size _ _ _ _ Hlay) in Hs.
  cbn [mbind option_bind] in Hs. rewrite int_at_Some in Hs by lia. cbn zeta in Hs.
  rewrite Z.add_0_l in Hs. injection Hs as Hs. unfold item_wf, caption_size. rewrite Hs. done.
Qed.

Lemma pack_count_received size data k :
  pack_header_size p <= size → size <= Z.of_nat (length data) →
  pack_get_count p (take (Z.to_nat size) data) = Some k → pack_get_count p data = Some k.
Proof using Hlay.
  intros Hh Hs H. pose proof (pl_count_in _ _ _ _ Hlay). unfold pack_get_count in *.
  eapply (value_of_agree _ _ 0 size (take (Z.to_nat size) data)); [|..|exact H].
  - unfold member_end. by rewrite (pl_count _ _ _ _ Hlay).
  - cbn [sizeof]. lia.
  - by rewrite take_take, Nat.min_id.
  - lia.
Qed.

(** The items of a prefix. *)
Lemma split_items_prefix_of its (l l' : list Z) : Forall (item_wf p os ns) its →
  mjoin its ++ l' = l → split_items p os ns (length its) l = its.
Proof using Hlay. intros Hwf <-. by eapply split_items_joined. Qed.
End packs.

Lemma getpack_complete p size data block :
  data_ok size data → pack_ok p = true → accepted_block (Packed p) size data block →
  ∃ b, block = Some b ∧ getdata_switch true (Packed p) size data = Some (Unpacked b).
Proof.
  intros (Hl & Hb & Hs) Hok (its & Hits & Hcount & Hmax & Hsz & Hpre & ->).
  eexists. split; [done|]. destruct (pack_ok_layout p Hok) as (oc & os & ns & Hlay).
  pose proof (pack_sizes _ _ _ _ Hlay) as (? & ? & ? & ? & ? & ? & ?).
  pose proof (pl_header _ _ _ _ Hlay) as Hhdr.
  assert (pack_header_size p <= size) as Hh.
  { apply prefix_length in Hpre. unfold SUPLA_MAX_DATA_SIZE in *.
    rewrite length_app, !length_take in Hpre. lia. }
  apply (pack_count_received _ _ _ _ Hlay) in Hcount; [|lia..].
  destruct (srpc_getpack_ok _ _ _ _ Hlay true size data Hb ltac:(lia) Hl
    ltac:(unfold is_u32, SUPLA_MAX_DATA_SIZE in *; lia)) as (count & Hc & Hg).
  rewrite Hcount in Hc. injection Hc as <-. cbn [getdata_switch]. rewrite Hg.
  rewrite !(proj2 (Z.ltb_ge _ _)) by lia. cbn [orb negb mbind option_bind]. cbn zeta.
  destruct Hpre as [rest Hrest]. rewrite <- app_assoc in Hrest.
  assert (drop (Z.to_nat (pack_header_size p)) (take (Z.to_nat size) data) = mjoin its ++ rest) as E.
  { rewrite Hrest. rewrite drop_app_length'; [done|]. rewrite length_take.
    unfold SUPLA_MAX_DATA_SIZE in *. lia. }
  rewrite Nat2Z.id, (split_items_prefix_of _ _ _ _ Hlay its _ rest); [|..|by rewrite E].
  2: { eapply Forall_impl; [exact Hits|]. intros it. by eapply item_travels_wf. }
  rewrite Z.eqb_refl. do 2 f_equal. unfold packed. cbn [Nat.mul replicate]. rewrite app_nil_r.
  rewrite (header_same _ _ _ _ Hlay data); [done|unfold SUPLA_MAX_DATA_SIZE in *; lia|done|done|lia].
Qed.

Lemma counted_complete a t item counts max size data v :
  data_ok size data → counted_ok t item counts max = true →
  sum_of counts t (take (Z.to_nat size) data) = Some v → 0 <= v <= max →
  size + (max - v) * sizeof item = sizeof t →
  getdata_switch true (Counted a t item counts max) size data
  = Some (to_copy (allocate true a (sizeof t))).
Proof.
  intros (Hl & Hb & Hs) Hok Hv Hvm Hsz.
  destruct (counted_ok_sizes _ _ _ _ Hok) as (Hh & Hi & Hm & Ht & Hc & Hf).
  destruct (sum_of_value _ _ _ data Hf ltac:(lia) Hb) as (v' & Hv' & Hr).
  unfold SUPLA_MAX_DATA_SIZE in *.
  assert (sizeof t - sizeof item * max <= size) as Hhs by nia.
  pose proof (sum_of_received _ _ _ size data _ Hf Hhs ltac:(lia) Hv') as E.
  rewrite E in Hv. injection Hv as ->. cbn [getdata_switch]. rewrite Hv'.
  cbn [mbind option_bind]. rewrite (proj2 (VALID_SIZE_spec t item counts max v size Hok ltac:(lia)
    ltac:(unfold is_u32; lia))); [done|]. lia.
Qed.

(** What is accepted is decoded to the block, when there is memory. *)
Lemma getdata_decode_complete call_id d size data block :
  data_ok size data → getdata_decoder call_id = Some d → accepted_block d size data block →
  ∃ size', getdata_decode true call_id size data = Some (SUPLA_RESULT_TRUE, block, size').
Proof.
  intros Hd Ed Ha. unfold getdata_decode. rewrite Ed.
  pose proof (getdata_decoder_ok _ _ Ed) as Hok.
  destruct d as [|a t|a t item counts max|p| |].
  - cbn in Ha. subst block. by eexists.
  - destruct Ha as [-> ->]. cbn [getdata_switch mbind option_bind]. rewrite Z.eqb_refl.
    rewrite finish_copy by done. by eexists.
  - destruct Ha as (v & Hv & Hvm & Hsz & ->). pose proof Hok as Hok'. cbn [decoder_ok] in Hok'.
    pose proof (counted_ok_sizes _ _ _ _ Hok').
    erewrite counted_complete by done. cbn [mbind option_bind].
    rewrite finish_copy by (done || nia). by eexists.
  - destruct (getpack_complete p size data block Hd Hok Ha) as (b & -> & ->). by eexists.
  - cbn [getdata_switch]. cbn zeta. destruct Ha as [[-> ->]|[-> (b & Hb & ->)]].
    + rewrite Z.eqb_refl. cbn [mbind option_bind]. rewrite finish_copy by done. by eexists.
    + change (sizeof TDCS_SuplaPingServer_COMPAT =? sizeof TDCS_SuplaPingServer) with false.
      rewrite Z.eqb_refl, Hb. by eexists.
  - destruct Ha as [Hsz ->]. cbn [getdata_switch mbind option_bind]. cbn zeta.
    assert ((size =? sizeof TSD_FirmwareUpdate_UrlResult) || (size =? sizeof schar) = true) as ->.
    { destruct Hsz as [->| ->]; [by rewrite Z.eqb_refl|done]. }
    rewrite finish_copy; [by eexists|done|]. destruct Hsz as [->| ->]; [done|vm_compute; done].
Qed.

(** The size left in the packet. *)
Lemma getdata_decode_size alloc_ok call_id size data r block size' :
  getdata_decode alloc_ok call_id size data = Some (r, block, size') → size' = size ∨ size' = 0.
Proof.
  unfold getdata_decode. intros H. apply bind_Some in H as (x & _ & H).
  destruct x; cbn [getdata_finish] in H; [by simplify_eq; left..| |by simplify_eq; right].
  apply bind_Some in H as (b & _ & H). simplify_eq. by left.
Qed.

(** ** The packets of a connection *)

(** A structure that holds a packet: its arrays are complete, and the size is in
    the data. *)
Definition packet_ok (p : TSuplaDataPacket) : Prop :=
  length (sdp_tag p) = 5%nat ∧ data_ok (sdp_data_size p) (sdp_data p).

Definition slots_ok (q : Tsrpc_Queue) : Prop := Forall (from_option packet_ok True) (item q).

Record packets_ok (s : Tsrpc) : Prop := {
  po_sdp : packet_ok (srpc_sdp s);
  po_in : slots_ok (in_queue s);
  po_out : slots_ok (out_queue s)
}.

Lemma bytes_zero n : bytes (replicate n 0).
Proof. apply Forall_replicate. split; by vm_compute. Qed.

Lemma packets_ok_init : packets_ok srpc_init.
Proof.
  split; [|apply Forall_replicate; exact I..].
  split; [done|]. unfold data_ok, srpc_init, sdp_zero. cbn [srpc_sdp sdp_data sdp_data_size].
  split; [by rewrite length_replicate|]. split; [apply bytes_zero|by vm_compute].
Qed.

Lemma slots_push m q p r q' :
  slots_ok q → packet_ok p → srpc_queue_push m q p = Some (r, q') → slots_ok q'.
Proof.
  unfold srpc_queue_push. intros Hq Hp H. case_match; [by simplify_eq|].
  apply bind_Some in H as (slot & _ & H). case_match; simplify_eq; [done|].
  unfold slots_ok. cbn [item]. by apply Forall_insert.
Qed.

Lemma slots_shift n : ∀ b l l', Forall (from_option packet_ok True) l →
  srpc_queue_shift n b l = Some l' → Forall (from_option packet_ok True) l'.
Proof.
  induction n as [|n IH]; intros b l l' Hl H; cbn [srpc_queue_shift] in H; [by simplify_eq|].
  apply bind_Some in H as (x & Hx & H). eapply IH; [|exact H].
  apply Forall_insert; [done|]. by eapply Forall_lookup_1.
Qed.

Lemma slots_pop q sdp rr r sdp' q' :
  slots_ok q → packet_ok sdp → srpc_queue_pop q sdp rr = Some (r, sdp', q') →
  packet_ok sdp' ∧ slots_ok q'.
Proof.
  unfold srpc_queue_pop. intros Hq Hp H. apply bind_Some in H as (found & _ & H).
  destruct found as [a|]; [|by simplify_eq].
  apply bind_Some in H as (slot & Ha & H). apply bind_Some in H as (p & -> & H).
  assert (packet_ok p) as Hpk by (by apply (Forall_lookup_1 _ _ _ _ Hq Ha)).
  destruct (SRPC_QUEUE_MIN_ALLOC_COUNT <? alloc_count q);
    apply bind_Some in H as (items & Hi & H); simplify_eq; (split; [done|]);
    (apply Forall_insert; [|done]); (eapply slots_shift; [|exact Hi]); [|done].
  by apply Forall_insert.
Qed.

(** Setting the data: an operation copies bytes. *)
Lemma set_data_packet_ok sdp data size call_id r sdp' :
  packet_ok sdp → 0 <= size → (∀ src, data = Some src → bytes src) →
  sproto_set_data sdp data size call_id = Some (r, sdp') → packet_ok sdp'.
Proof.
  unfold sproto_set_data. intros Hp Hz Hd H. destruct (_ || _) eqn:Em in H; [by simplify_eq|].
  apply orb_false_iff in Em as [Em _]. apply Z.ltb_ge in Em. destruct Hp as (Ht & Hl & Hb & Hs).
  apply bind_Some in H as (d & Hc & H). simplify_eq. split; [done|]. cbn [sdp_data sdp_data_size].
  enough (length d = length (sdp_data sdp) ∧ bytes d) as [Hld Hbd] by (split; [by rewrite Hld|done]).
  destruct (0 <? size); [|by simplify_eq].
  apply bind_Some in Hc as (src & -> & Hc). specialize (Hd src eq_refl).
  unfold memcpy_to in Hc. case_match eqn:E; [|done]. simplify_eq.
  rewrite !andb_true_iff, !Z.leb_le in E. destruct_and!. split.
  - rewrite !length_app, !length_take, length_drop. lia.
  - apply Forall_app_2; [by apply Forall_take|]. apply Forall_app_2; [by apply Forall_take|by apply Forall_drop].
Qed.

(** The packet of a frame. *)
Lemma frame_packet_ok l b rest sdp :
  frame_spec l = Packet b rest → bytes l → packet_ok sdp →
  packet_ok (sdp_of_bytes (b ++ drop (length b) (sdp_bytes sdp))).
Proof.
  unfold frame_spec. intros H Hl (Ht & Hd & Hb & Hs). cbn zeta in H.
  repeat (case_match; try done). simplify_eq.
  repeat match goal with
  | H : (_ <? _) = false |- _ => apply Z.ltb_ge in H
  | H : (_ || _) = false |- _ => apply orb_false_iff in H as [? H]
  end.
  pose proof (sdp_of_bytes_size_nonneg (take 18 l) ltac:(by apply Forall_take)) as Hn.
  set (z := sdp_data_size (sdp_of_bytes (take 18 l))) in *.
  set (n := Z.to_nat (18 + z)) in *.
  change (packet_ok (sdp_of_bytes (take n l ++ drop (length (take n l)) (sdp_bytes sdp)))).
  assert (length (take n l) = n) as Hln by (rewrite length_take; unfold n; lia).
  assert (length (sdp_header sdp) = 18%nat) as Hh by (unfold sdp_header; rewrite !length_app, Ht; done).
  assert (drop (length (take n l)) (sdp_bytes sdp) = drop (n - 18) (sdp_data sdp)) as ->.
  { rewrite Hln. unfold sdp_bytes. rewrite drop_app_ge by (unfold n; lia). by rewrite Hh. }
  assert (∀ k j, (j + k <= 18)%nat → take k (drop j (take n l ++ drop (n - 18) (sdp_data sdp)))
            = take k (drop j (take 18 l))) as Hk.
  { intros k j Hkj. rewrite drop_app_le by (rewrite Hln; unfold n; lia).
    rewrite take_app_le by (rewrite length_drop, Hln; unfold n; lia).
    rewrite !skipn_firstn_comm, !take_take. f_equal. unfold n. lia. }
  unfold packet_ok, sdp_of_bytes. cbn [sdp_tag sdp_data_size sdp_data]. split.
  - rewrite <- (drop_0 (take n l ++ _)), Hk by lia. rewrite drop_0, length_take, length_take. lia.
  - rewrite Hk by lia. fold (sdp_of_bytes (take 18 l)).
    change (of_le32 (take 4 (drop 14 (take 18 l)))) with z. split_and!.
    + rewrite length_drop, length_app, Hln, length_drop. unfold n, SUPLA_MAX_DATA_SIZE in *. lia.
    + apply Forall_drop, Forall_app_2; [by apply Forall_take|by apply Forall_drop].
    + done.
    + done.
Qed.

(** The branch that a computation takes. *)
Ltac if_head H :=
  match type of H with (if ?b then _ else _) = _ => destruct b eqn:? end.

(** The bytes of a call are bytes. *)
Definition op_bytes (op : srpc_op) : Prop :=
  match op with
  | OpAsyncCall _ _ data size _ => 0 <= size ∧ ∀ src, data = Some src → bytes src
  | _ => True
  end.

Lemma op_packets_ok op s s' evs :
  packets_ok s → op_bytes op → srpc_do_op op s = Some (s', evs) → packets_ok s'.
Proof.
  intros [H1 H2 H3] Hop H. destruct op as [rr|m call_id data size version|v]; cbn [srpc_do_op] in H.
  - unfold srpc_getdata_pop in H. apply bind_Some in H as ([[r sdp] q] & Hq & H). simplify_eq.
    destruct (slots_pop _ _ _ _ _ _ H2 H1 Hq). by split.
  - apply bind_Some in H as ([[r s1] e1] & Hc & H). simplify_eq. destruct Hop as [Hz Hb].
    unfold srpc_async__call in Hc. if_head Hc; [by simplify_eq|]. unfold sproto_sdp_init in Hc.
    cbn zeta in Hc. set (sdp0 := match version with Some v => _ | None => _ end) in Hc.
    assert (packet_ok sdp0) as H0.
    { subst sdp0. unfold packet_ok, data_ok.
      destruct version; cbn [set_sdp_version sdp_tag sdp_data_size sdp_data];
        (split; [done|]; rewrite length_replicate; split; [done|]; split;
         [apply bytes_zero|by vm_compute]). }
    clearbody sdp0. apply bind_Some in Hc as ([r2 sdp] & Hset & Hc).
    pose proof (set_data_packet_ok _ _ _ _ _ _ H0 Hz Hb Hset) as Hsdp. cbn zeta in Hc.
    if_head Hc; [|simplify_eq; by split].
    apply bind_Some in Hc as ([r3 q] & Hq & Hc).
    pose proof (slots_push _ _ _ _ _ H3 Hsdp Hq). if_head Hc; simplify_eq; by split.
  - simplify_eq. by split.
Qed.

Lemma ops_packets_ok ops : ∀ s s' evs,
  packets_ok s → Forall op_bytes ops → srpc_do_ops ops s = Some (s', evs) → packets_ok s'.
Proof.
  induction ops as [|op ops IH]; intros s s' evs Hs Hops H; cbn [srpc_do_ops] in H;
    [by simplify_eq|].
  apply Forall_cons in Hops as [Hop Hops]. apply bind_Some in H as ([s1 e1] & H1 & H).
  apply bind_Some in H as ([s2 e2] & H2 & H). simplify_eq.
  eapply IH; [|done|exact H2]. by eapply op_packets_ok.
Qed.

Section reachable.
Context (cb : Z → Z → Z → Tsrpc → list srpc_op).
Hypothesis Hcb : ∀ rr call v s, Forall op_ok (cb rr call v s) ∧ Forall op_bytes (cb rr call v s).

Lemma iterate_in_packets_ok al input s c il ol go s' evs :
  srpc_ok s c il ol → ra_enomem (al_in al) = false → input_ok input → packets_ok s →
  srpc_iterate_in cb al input s = Some (go, s', evs) → packets_ok s'.
Proof using Hcb.
  intros Hs He Hin [P1 P2 P3] H. unfold srpc_iterate_in in H. if_head H; [by simplify_eq|].
  destruct (read_ok al input s c il ol Hs He Hin) as (r & proto & c1 & Hr & Hs1 & _).
  rewrite Hr in H. cbn [mbind option_bind] in H. if_head H; [simplify_eq; by split|].
  pose proof Hs1 as [H1 H2 _ _ _ _]. cbn [srpc_proto set_proto srpc_sdp] in *.
  destruct (pop_agrees (al_pop al) proto (srpc_sdp s) c1 H1 H2) as (i' & Hpop & _).
  rewrite Hpop in H. cbn [mbind option_bind] in H.
  assert (packet_ok (frame_result (frame_spec c1) (srpc_sdp s) c1).1.2) as Hp.
  { destruct (frame_spec c1) eqn:Ef; cbn [frame_result fst snd]; try done.
    by eapply frame_packet_ok. }
  destruct (frame_result (frame_spec c1) (srpc_sdp s) c1) as [[r2 sdp] l2]. cbn [fst snd] in *.
  if_head H; [|if_head H; simplify_eq; by split].
  apply bind_Some in H as ([r3 q] & Hq & H).
  pose proof (slots_push _ _ _ _ _ P2 Hp Hq) as Hq'.
  if_head H; [|simplify_eq; by split].
  apply bind_Some in H as ([s2 e2] & Ho & H). simplify_eq.
  eapply ops_packets_ok; [|by apply Hcb|exact Ho]. by split.
Qed.

Lemma act_packets_ok a s c il ol s' evs :
  srpc_ok s c il ol → action_ok a →
  match a with AOp op => op_bytes op | _ => True end →
  packets_ok s → srpc_act cb a s = Some (s', evs) → packets_ok s'.
Proof using Hcb.
  intros Hs Ha Hb Hp H. destruct a as [al input|op]; cbn [srpc_act] in H;
    [|by eapply op_packets_ok].
  apply bind_Some in H as ([[r s1] e1] & H & E). simplify_eq. destruct Ha as [Hal Hin].
  unfold srpc_iterate in H. apply bind_Some in H as ([[go s2] e2] & H2 & H).
  eapply iterate_in_packets_ok in H2; [|exact Hs|apply Hal|done|done].
  destruct go as [raise|]; [|by simplify_eq]. destruct H2 as [P1 P2 P3].
  unfold srpc_iterate_out in H. apply bind_Some in H as ([[r1 s3] e3] & H & E). simplify_eq.
  apply bind_Some in H as ([[r2 sdp] q] & Hq & H).
  destruct (slots_pop _ _ _ _ _ _ P3 P1 Hq) as [P4 P5].
  apply bind_Some in H as ([r3 proto] & _ & H). if_head H; [simplify_eq; by split|].
  apply bind_Some in H as ([[n d] proto'] & _ & H). simplify_eq. by split.
Qed.

(** The states of a connection: iterations on whatever the network gives, calls,
    and received data taken. *)
Inductive srpc_reachable : Tsrpc → Prop :=
  | sr_init : srpc_reachable srpc_init
  | sr_act a s s' evs :
      srpc_reachable s → action_ok a →
      match a with AOp op => op_bytes op | _ => True end →
      srpc_act cb a s = Some (s', evs) → srpc_reachable s'
  | sr_getdata alloc_ok rr_id s r rd s' :
      srpc_reachable s → srpc_getdata alloc_ok rr_id s = Some (r, rd, s') → srpc_reachable s'.

(** What [srpc_getdata] does in a state whose packets are well formed. *)
Lemma getdata_spec alloc_ok rr_id s il :
  queue_ok (in_queue s) il → packets_ok s →
  ∃ r rd s', srpc_getdata alloc_ok rr_id s = Some (r, rd, s')
  ∧ srpc_proto s' = srpc_proto s ∧ out_queue s' = out_queue s ∧ packets_ok s'
  ∧ match find_first (rr_matches rr_id) il with
    | None => r = SUPLA_RESULT_FALSE ∧ rd = None ∧ in_queue s' = in_queue s
    | Some p =>
        queue_ok (in_queue s') (erase_first (rr_matches rr_id) il)
        ∧ ∃ block size', rd = Some (ReceivedData (sdp_call_id p) (sdp_rr_id p) block)
          ∧ data_ok (sdp_data_size p) (sdp_data p)
          ∧ getdata_decode alloc_ok (sdp_call_id p) (sdp_data_size p) (sdp_data p)
            = Some (r, block, size')
    end.
Proof.
  intros Hq [P1 P2 P3]. unfold srpc_getdata.
  pose proof (queue_pop_ok _ _ (srpc_sdp s) rr_id Hq) as Hpop.
  destruct (find_first (rr_matches rr_id) il) as [p|].
  - destruct Hpop as (q & Hpop & Hq'). destruct (slots_pop _ _ _ _ _ _ P2 P1 Hpop) as [P4 P5].
    rewrite Hpop. cbn [mbind option_bind]. rewrite Z.eqb_refl. destruct P4 as [Ht Hd].
    destruct (getdata_decode_ok alloc_ok (sdp_call_id p) _ _ Hd) as (r & block & size' & E & _).
    rewrite E. cbn [mbind option_bind]. do 3 eexists. split; [reflexivity|]. cbn.
    split; [done|]. split; [done|]. split; [|split; [done|by do 2 eexists]].
    split; [|done..]. cbn. split; [done|]. destruct Hd as (? & ? & ?).
    apply getdata_decode_size in E as [->| ->]; (split; [done|]; split; [done|]); cbn; [done|].
    by vm_compute.
  - rewrite Hpop. cbn [mbind option_bind].
    change (SUPLA_RESULT_FALSE =? SUPLA_RESULT_TRUE) with false. cbn iota.
    do 3 eexists. split; [reflexivity|]. cbn. split_and!; try done.
Qed.

(** In every reachable state the queues are lists of well-formed packets. *)
Lemma reachable_ok s : srpc_reachable s → packets_ok s ∧ ∃ c il ol, srpc_ok s c il ol.
Proof using Hcb.
  induction 1 as [|a s s' evs _ [Hp (c & il & ol & Hs)] Ha Hb Hact
                  |alloc_ok rr_id s r rd s' _ [Hp (c & il & ol & Hs)] Hg].
  - split; [apply packets_ok_init|]. do 3 eexists. apply srpc_ok_init.
  - split; [by eapply act_packets_ok|].
    destruct (act_ok cb (λ rr call v s, proj1 (Hcb rr call v s)) a s c il ol Hs Ha)
      as (s1 & e1 & c1 & il1 & ol1 & E & Hs1 & _). rewrite Hact in E. simplify_eq. eauto.
  - pose proof Hs as [H1 H2 H3 H4 H5 H6].
    destruct (getdata_spec alloc_ok rr_id s il H4 Hp) as (r1 & rd1 & s1 & E & Hpr & Hout & Hp1 & Hc).
    rewrite Hg in E. simplify_eq. split; [done|].
    destruct (find_first (rr_matches rr_id) il).
    + destruct Hc as [Hq _]. do 3 eexists. split; rewrite ?Hpr, ?Hout; done.
    + destruct Hc as (_ & _ & Hq). do 3 eexists. split; rewrite ?Hpr, ?Hout, ?Hq; done.
Qed.
End reachable.

(** The packets of a queue. *)
Lemma slots_queue q l : slots_ok q → queue_ok q l → Forall packet_ok l.
Proof.
  intros Hs [_ _ _ Hi]. unfold slots_ok in Hs. rewrite Hi in Hs.
  apply Forall_app in Hs as [Hs _]. clear Hi.
  induction l as [|p l IH]; [constructor|]. apply Forall_cons in Hs as [Hp Hs].
  constructor; [exact Hp|by apply IH].
Qed.

(** ** Properties *)

(** C1. Taking received data is safe whatever the peer sends. In every state that a
    connection reaches by iterations on arbitrary bytes, by calls and by taking
    data, [srpc_getdata] reads and writes only inside its blocks, and takes the
    first packet in the input queue (the first with the identifier asked for).
    The result is true exactly when the call is known and its data have the
    layout of its structure: the size of the structure, or of its header with as
    many items as its counters say, or a list whose items and captions are within
    the data received; the block then holds the bytes received, zeros or
    unwritten cells after them, and lists have their items at their places. Else
    it is a data error without a block. *)
Theorem srpc_getdata_safe cb alloc_ok rr_id s
    (Hcb : ∀ rr call v s, Forall op_ok (cb rr call v s) ∧ Forall op_bytes (cb rr call v s))
    (Hs : srpc_reachable cb s) :
  ∃ il r rd s', queue_ok (in_queue s) il
  ∧ srpc_getdata alloc_ok rr_id s = Some (r, rd, s')
  ∧ match find_first (rr_matches rr_id) il with
    | None => r = SUPLA_RESULT_FALSE ∧ rd = None ∧ in_queue s' = in_queue s
    | Some p =>
        queue_ok (in_queue s') (erase_first (rr_matches rr_id) il)
        ∧ ∃ block, rd = Some (ReceivedData (sdp_call_id p) (sdp_rr_id p) block)
          ∧ (r = SUPLA_RESULT_TRUE
             ∧ (∃ d, getdata_decoder (sdp_call_id p) = Some d
                     ∧ accepted_block d (sdp_data_size p) (sdp_data p) block)
             ∨ r = SUPLA_RESULT_DATA_ERROR ∧ block = None
               ∧ (alloc_ok = true → ∀ d b, getdata_decoder (sdp_call_id p) = Some d →
                  ¬ accepted_block d (sdp_data_size p) (sdp_data p) b))
    end.
Proof.
  destruct (reachable_ok cb Hcb s Hs) as [Hp (c & il & ol & Hok)].
  pose proof (so_in_queue _ _ _ _ Hok) as Hq.
  destruct (getdata_spec alloc_ok rr_id s il Hq Hp) as (r & rd & s' & Hg & _ & _ & _ & Hc).
  exists il, r, rd, s'. split; [done|]. split; [done|].
  destruct (find_first (rr_matches rr_id) il) as [p|]; [|exact Hc].
  destruct Hc as (Hq' & block & size' & Hrd & Hd & E). split; [done|]. exists block.
  split; [done|].
  destruct (getdata_decode_ok alloc_ok (sdp_call_id p) _ _ Hd) as (r1 & b1 & z1 & E1 & Hr).
  rewrite E in E1. simplify_eq. destruct Hr as [[-> ->]|[-> Ha]]; [right|by left].
  split; [done|]. split; [done|]. intros -> d b Ed Hab.
  destruct (getdata_decode_complete _ _ _ _ _ Hd Ed Hab) as (z & E2).
  unfold SUPLA_RESULT_TRUE, SUPLA_RESULT_DATA_ERROR in *. congruence.
Qed.

Definition cb_none (rr call v : Z) (s : Tsrpc) : list srpc_op := [].

(** The state after a packet has been read. *)
Definition received_ex : Tsrpc :=
  default srpc_init (fst <$> srpc_act cb_none (AIterate al_ex (Some (wire packet_ex))) srpc_init).

Lemma received_ex_reachable : srpc_reachable cb_none received_ex.
Proof.
  destruct (srpc_act cb_none (AIterate al_ex (Some (wire packet_ex))) srpc_init)
    as [[s evs]|] eqn:E.
  - eapply (sr_act cb_none (AIterate al_ex (Some (wire packet_ex))) srpc_init); [constructor| |exact I|].
    + exact (conj al_ex_ok packet_ex_input).
    + unfold received_ex. rewrite E. reflexivity.
  - unfold received_ex. rewrite E. constructor.
Qed.

Lemma srpc_getdata_safe_witness :
  item_count (in_queue received_ex) = 1 ∧
  ∃ r rd s', srpc_getdata true 0 received_ex = Some (r, rd, s').
Proof.
  split; [vm_compute; reflexivity|].
  destruct (srpc_getdata_safe cb_none true 0 received_ex) as (il & r & rd & s' & _ & H & _).
  - intros. split; constructor.
  - exact received_ex_reachable.
  - exists r, rd, s'. exact H.
Defined.

(** C40. The state of a connection is well formed in every reachable state, whatever
    bytes arrive and whichever calls are made: both queues are lists of at most
    ten packets with their counters right and no null slot before the end, every
    packet in them, and the one the connection works on, has its five bytes of
    tag, all of its data area filled with bytes, and a size within it; the input
    buffer is a live block below its limit, and the output buffer is empty. *)
Theorem srpc_state_typed cb s
    (Hcb : ∀ rr call v s, Forall op_ok (cb rr call v s) ∧ Forall op_bytes (cb rr call v s))
    (Hs : srpc_reachable cb s) :
  packet_ok (srpc_sdp s)
  ∧ ∃ c il ol, queue_ok (in_queue s) il ∧ Forall packet_ok il ∧ (length il <= 10)%nat
  ∧ queue_ok (out_queue s) ol ∧ Forall packet_ok ol ∧ (length ol <= 10)%nat
  ∧ in_ok (spd_in (srpc_proto s)) c ∧ bytes c ∧ out_ok (spd_out (srpc_proto s)) [].
Proof.
  destruct (reachable_ok cb Hcb s Hs) as [[P1 P2 P3] (c & il & ol & [H1 H2 H3 H4 H5 H6])].
  split; [done|]. exists c, il, ol. pose proof (qk_size _ _ H4). pose proof (qk_size _ _ H5).
  pose proof (slots_queue _ _ P2 H4). pose proof (slots_queue _ _ P3 H5).
  repeat (split; [assumption|]). assumption.
Qed.

(** The size check of the calls with items at the end of their structure is
    exact, and immune to wrap-around: for each of these calls, any counter that
    its fields can hold (negative ones of signed fields and sums of two fields
    included) and any 32-bit size, it accepts exactly a counter in the bounds of
    the array with the size of the header and that many items. *)
Theorem VALID_SIZE_exact call_id a t item counts max data v size
    (Hcall : getdata_decoder call_id = Some (Counted a t item counts max))
    (Hdata : data_ok size data) (Hv : sum_of counts t data = Some v) :
  VALID_SIZE t item v max size = true ↔
  0 <= v <= max ∧ size = sizeof t - sizeof item * max + v * sizeof item.
Proof.
  pose proof (getdata_decoder_ok _ _ Hcall) as Hok. destruct Hdata as (Hl & Hb & Hs).
  destruct (counted_ok_sizes _ _ _ _ Hok) as (Hh & Hi & Hm & Ht & Hc & Hf).
  destruct (sum_of_value _ _ _ data Hf ltac:(lia) Hb) as (v' & Hv' & Hr).
  rewrite Hv in Hv'. injection Hv' as <-. apply (VALID_SIZE_spec t item counts max v size Hok); [lia|].
  unfold is_u32, SUPLA_MAX_DATA_SIZE in *. lia.
Qed.

Lemma srpc_state_typed_witness : packet_ok (srpc_sdp received_ex).
Proof.
  destruct (srpc_state_typed cb_none received_ex) as [H _].
  - intros. split; constructor.
  - exact received_ex_reachable.
  - exact H.
Defined.

(** An update of a location with an empty caption. *)
Definition data_ex : list Z := replicate (Z.to_nat SUPLA_MAX_DATA_SIZE) 0.

Lemma VALID_SIZE_exact_witness :
  let t := TSC_SuplaLocation in
  let header := sizeof t - SUPLA_LOCATION_CAPTION_MAXSIZE in
  data_ok header data_ex
  ∧ (VALID_SIZE t schar 0 SUPLA_LOCATION_CAPTION_MAXSIZE header = true ↔
     0 <= 0 <= SUPLA_LOCATION_CAPTION_MAXSIZE
     ∧ header = sizeof t - sizeof schar * SUPLA_LOCATION_CAPTION_MAXSIZE + 0 * sizeof schar).
Proof.
  cbn zeta. assert (data_ok (sizeof TSC_SuplaLocation - SUPLA_LOCATION_CAPTION_MAXSIZE) data_ex) as Hd.
  { split; [vm_compute; reflexivity|]. split; [apply bytes_zero|by vm_compute]. }
  split; [exact Hd|].
  apply (VALID_SIZE_exact SUPLA_SC_CALL_LOCATION_UPDATE Calloc TSC_SuplaLocation schar
    [["CaptionSize"%string]] SUPLA_LOCATION_CAPTION_MAXSIZE data_ex 0); [|exact Hd|];
    vm_compute; reflexivity.
Defined.
