(* ===== verification/SrpcCalls.v ===== *)
(** * SrpcCalls: the calls of supla-common/srpc.c (srpc_*_async_* )

    What every function that makes a call hands to [srpc_async_call]: the call, the
    data and their size. Most check a structure of the caller and send the part of
    it that is in use ([sender]); the lists with captions are in SrpcPacks
    ([srpc_set_pack]). The round trip: what is sent is what [srpc_getdata] of the
    peer accepts, and the structure arrives as it was. *)

From stdpp Require Import strings.
From S2P Require Import Prelude CLayout Proto CallIds Srpc ProtoTypes SrpcData SrpcReceive.

Open Scope string_scope.

(** ** Calls with a structure *)

(** A condition on a member for which the function returns 0. *)
Inductive condition :=
  | Below (path : list string) (limit : Z)
  | Above (path : list string) (limit : Z).

(** How a function calls [srpc_async_call]. [NoArg]: with a null pointer.
    [Struct]: with its argument, a pointer to [t], after the test for the null
    pointer and the conditions; the size is sizeof(t) - sizeof(item) * max +
    sizeof(item) * count, the count being the sum of the members [counts];
    [checked]: the size, in a variable of type _supla_int_t, is compared with
    sizeof(t). *)
Inductive sender :=
  | NoArg (call_id : Z)
  | Struct (call_id : Z) (null_checked : bool) (guards : list condition) (t item : ctype)
           (counts : list (list string)) (max : Z) (checked : bool).

Definition whole (call_id : Z) (t : ctype) : sender :=
  Struct call_id false [] t schar [] 0 false.
Definition checked_whole (call_id : Z) (t : ctype) : sender :=
  Struct call_id true [] t schar [] 0 false.

Definition srpc_dcs_async_getversion : sender := NoArg SUPLA_DCS_CALL_GETVERSION.
Definition srpc_dcs_async_set_activity_timeout : sender := whole
    SUPLA_DCS_CALL_SET_ACTIVITY_TIMEOUT TDCS_SuplaSetActivityTimeout.
Definition srpc_dcs_async_set_activity_timeout_result : sender := whole
    SUPLA_SDC_CALL_SET_ACTIVITY_TIMEOUT_RESULT TSDC_SuplaSetActivityTimeoutResult.
Definition srpc_dcs_async_get_registration_enabled : sender := NoArg
    SUPLA_DCS_CALL_GET_REGISTRATION_ENABLED.
Definition srpc_sdc_async_get_registration_enabled_result : sender := whole
    SUPLA_SDC_CALL_GET_REGISTRATION_ENABLED_RESULT TSDC_RegistrationEnabled.
Definition srpc_dcs_async_get_user_localtime : sender := NoArg SUPLA_DCS_CALL_GET_USER_LOCALTIME.
Definition srpc_sdc_async_get_user_localtime_result : sender := Struct
    SUPLA_DCS_CALL_GET_USER_LOCALTIME_RESULT true [Above ["timezoneSize"] SUPLA_TIMEZONE_MAXSIZE]
    TSDC_UserLocalTimeResult schar [["timezoneSize"]] SUPLA_TIMEZONE_MAXSIZE false.
Definition srpc_csd_async_get_channel_state : sender := whole SUPLA_CSD_CALL_GET_CHANNEL_STATE
    TCSD_ChannelStateRequest.
Definition srpc_csd_async_channel_state_result : sender := whole
    SUPLA_DSC_CALL_CHANNEL_STATE_RESULT TDSC_ChannelState.
Definition srpc_dcs_async_set_caption (call_id : Z) : sender := Struct call_id false []
    TDCS_SetCaption schar [["CaptionSize"]] SUPLA_CAPTION_MAXSIZE true.
Definition srpc_dcs_async_set_channel_caption : sender := srpc_dcs_async_set_caption
    SUPLA_DCS_CALL_SET_CHANNEL_CAPTION.
Definition srpc_sc_async_set_caption_result (call_id : Z) : sender := Struct call_id false []
    TSCD_SetCaptionResult schar [["CaptionSize"]] SUPLA_CAPTION_MAXSIZE true.
Definition srpc_scd_async_set_channel_caption_result : sender := srpc_sc_async_set_caption_result
    SUPLA_SCD_CALL_SET_CHANNEL_CAPTION_RESULT.
Definition srpc_sd_async_get_firmware_update_url : sender := whole
    SUPLA_DS_CALL_GET_FIRMWARE_UPDATE_URL TDS_FirmwareUpdateParams.
Definition srpc_ds_async_registerdevice : sender := Struct SUPLA_DS_CALL_REGISTER_DEVICE false []
    TDS_SuplaRegisterDevice TDS_SuplaDeviceChannel [["channel_count"]] SUPLA_CHANNELMAXCOUNT true.
Definition srpc_ds_async_registerdevice_b : sender := Struct SUPLA_DS_CALL_REGISTER_DEVICE_B false
    [] TDS_SuplaRegisterDevice_B TDS_SuplaDeviceChannel_B [["channel_count"]]
    SUPLA_CHANNELMAXCOUNT true.
Definition srpc_ds_async_registerdevice_c : sender := Struct SUPLA_DS_CALL_REGISTER_DEVICE_C false
    [] TDS_SuplaRegisterDevice_C TDS_SuplaDeviceChannel_B [["channel_count"]]
    SUPLA_CHANNELMAXCOUNT true.
Definition srpc_ds_async_registerdevice_d : sender := Struct SUPLA_DS_CALL_REGISTER_DEVICE_D false
    [] TDS_SuplaRegisterDevice_D TDS_SuplaDeviceChannel_B [["channel_count"]]
    SUPLA_CHANNELMAXCOUNT true.
Definition srpc_ds_async_registerdevice_e : sender := Struct SUPLA_DS_CALL_REGISTER_DEVICE_E false
    [] TDS_SuplaRegisterDevice_E TDS_SuplaDeviceChannel_C [["channel_count"]]
    SUPLA_CHANNELMAXCOUNT true.
Definition srpc_ds_async_registerdevice_f : sender := Struct SUPLA_DS_CALL_REGISTER_DEVICE_F false
    [] TDS_SuplaRegisterDevice_F TDS_SuplaDeviceChannel_D [["channel_count"]]
    SUPLA_CHANNELMAXCOUNT true.
Definition srpc_ds_async_registerdevice_g : sender := Struct SUPLA_DS_CALL_REGISTER_DEVICE_G false
    [] TDS_SuplaRegisterDevice_G TDS_SuplaDeviceChannel_E [["channel_count"]]
    SUPLA_CHANNELMAXCOUNT true.
Definition srpc_sd_async_registerdevice_result : sender := whole
    SUPLA_SD_CALL_REGISTER_DEVICE_RESULT TSD_SuplaRegisterDeviceResult.
Definition srpc_sd_async_registerdevice_result_b : sender := Struct
    SUPLA_SD_CALL_REGISTER_DEVICE_RESULT_B true [Above ["channel_report_size"]
    CHANNEL_REPORT_MAXSIZE] TSD_SuplaRegisterDeviceResult_B schar [["channel_report_size"]]
    CHANNEL_REPORT_MAXSIZE false.
Definition srpc_sd_async_set_channel_value : sender := whole SUPLA_SD_CALL_CHANNEL_SET_VALUE
    TSD_SuplaChannelNewValue.
Definition srpc_sd_async_set_channelgroup_value : sender := whole
    SUPLA_SD_CALL_CHANNELGROUP_SET_VALUE TSD_SuplaChannelGroupNewValue.
Definition srpc_sd_async_device_calcfg_request : sender := Struct
    SUPLA_SD_CALL_DEVICE_CALCFG_REQUEST true [Above ["DataSize"] SUPLA_CALCFG_DATA_MAXSIZE]
    TSD_DeviceCalCfgRequest schar [["DataSize"]] SUPLA_CALCFG_DATA_MAXSIZE false.
Definition srpc_ds_async_device_calcfg_result : sender := Struct
    SUPLA_DS_CALL_DEVICE_CALCFG_RESULT true [Above ["DataSize"] SUPLA_CALCFG_DATA_MAXSIZE]
    TDS_DeviceCalCfgResult schar [["DataSize"]] SUPLA_CALCFG_DATA_MAXSIZE false.
Definition srpc_ds_async_get_channel_functions : sender := NoArg
    SUPLA_DS_CALL_GET_CHANNEL_FUNCTIONS.
Definition srpc_sd_async_get_channel_functions_result : sender := Struct
    SUPLA_SD_CALL_GET_CHANNEL_FUNCTIONS_RESULT true [Above ["ChannelCount"] SUPLA_CHANNELMAXCOUNT]
    TSD_ChannelFunctions int32 [["ChannelCount"]] SUPLA_CHANNELMAXCOUNT true.
Definition srpc_ds_async_get_channel_config_request : sender := checked_whole
    SUPLA_DS_CALL_GET_CHANNEL_CONFIG TDS_GetChannelConfigRequest.
Definition srpc_sd_async_get_channel_config_result : sender := Struct
    SUPLA_SD_CALL_GET_CHANNEL_CONFIG_RESULT true [Above ["ConfigSize"]
    SUPLA_CHANNEL_CONFIG_MAXSIZE] TSD_ChannelConfig schar [["ConfigSize"]]
    SUPLA_CHANNEL_CONFIG_MAXSIZE false.
Definition srpc_sd_async_set_channel_config_request : sender := Struct
    SUPLA_SD_CALL_SET_CHANNEL_CONFIG true [Above ["ConfigSize"] SUPLA_CHANNEL_CONFIG_MAXSIZE]
    TSDS_SetChannelConfig schar [["ConfigSize"]] SUPLA_CHANNEL_CONFIG_MAXSIZE false.
Definition srpc_ds_async_set_channel_config_result : sender := checked_whole
    SUPLA_DS_CALL_SET_CHANNEL_CONFIG_RESULT TSDS_SetChannelConfigResult.
Definition srpc_ds_async_set_channel_config_request : sender := Struct
    SUPLA_DS_CALL_SET_CHANNEL_CONFIG true [Above ["ConfigSize"] SUPLA_CHANNEL_CONFIG_MAXSIZE]
    TSDS_SetChannelConfig schar [["ConfigSize"]] SUPLA_CHANNEL_CONFIG_MAXSIZE false.
Definition srpc_sd_async_set_channel_config_result : sender := checked_whole
    SUPLA_SD_CALL_SET_CHANNEL_CONFIG_RESULT TSDS_SetChannelConfigResult.
Definition srpc_sd_async_channel_config_finished : sender := checked_whole
    SUPLA_SD_CALL_CHANNEL_CONFIG_FINISHED TSD_ChannelConfigFinished.
Definition srpc_sd_async_set_device_config_request : sender := Struct
    SUPLA_SD_CALL_SET_DEVICE_CONFIG true [Above ["ConfigSize"] SUPLA_DEVICE_CONFIG_MAXSIZE]
    TSDS_SetDeviceConfig schar [["ConfigSize"]] SUPLA_DEVICE_CONFIG_MAXSIZE false.
Definition srpc_ds_async_set_device_config_result : sender := checked_whole
    SUPLA_DS_CALL_SET_DEVICE_CONFIG_RESULT TSDS_SetDeviceConfigResult.
Definition srpc_ds_async_set_device_config_request : sender := Struct
    SUPLA_DS_CALL_SET_DEVICE_CONFIG true [Above ["ConfigSize"] SUPLA_DEVICE_CONFIG_MAXSIZE]
    TSDS_SetDeviceConfig schar [["ConfigSize"]] SUPLA_DEVICE_CONFIG_MAXSIZE false.
Definition srpc_sd_async_set_device_config_result : sender := checked_whole
    SUPLA_SD_CALL_SET_DEVICE_CONFIG_RESULT TSDS_SetDeviceConfigResult.
Definition srpc_ds_async_action_trigger : sender := checked_whole SUPLA_DS_CALL_ACTIONTRIGGER
    TDS_ActionTrigger.
Definition srpc_ds_async_register_push_notification : sender := checked_whole
    SUPLA_DS_CALL_REGISTER_PUSH_NOTIFICATION TDS_RegisterPushNotification.
Definition srpc_ds_async_send_push_notification : sender := Struct
    SUPLA_DS_CALL_SEND_PUSH_NOTIFICATION true [Above ["BodySize"] SUPLA_PN_BODY_MAXSIZE; Above
    ["TitleSize"] SUPLA_PN_TITLE_MAXSIZE] TDS_PushNotification schar [["TitleSize"]; ["BodySize"]]
    (SUPLA_PN_TITLE_MAXSIZE + SUPLA_PN_BODY_MAXSIZE) false.
Definition srpc_ds_async_set_subdevice_details : sender := checked_whole
    SUPLA_DS_CALL_SET_SUBDEVICE_DETAILS TDS_SubdeviceDetails.
Definition srpc_cs_async_registerclient : sender := whole SUPLA_CS_CALL_REGISTER_CLIENT
    TCS_SuplaRegisterClient.
Definition srpc_cs_async_registerclient_b : sender := whole SUPLA_CS_CALL_REGISTER_CLIENT_B
    TCS_SuplaRegisterClient_B.
Definition srpc_cs_async_registerclient_c : sender := whole SUPLA_CS_CALL_REGISTER_CLIENT_C
    TCS_SuplaRegisterClient_C.
Definition srpc_cs_async_registerclient_d : sender := whole SUPLA_CS_CALL_REGISTER_CLIENT_D
    TCS_SuplaRegisterClient_D.
Definition srpc_sc_async_registerclient_result : sender := whole
    SUPLA_SC_CALL_REGISTER_CLIENT_RESULT TSC_SuplaRegisterClientResult.
Definition srpc_sc_async_registerclient_result_b : sender := whole
    SUPLA_SC_CALL_REGISTER_CLIENT_RESULT_B TSC_SuplaRegisterClientResult_B.
Definition srpc_sc_async_registerclient_result_c : sender := whole
    SUPLA_SC_CALL_REGISTER_CLIENT_RESULT_C TSC_SuplaRegisterClientResult_C.
Definition srpc_sc_async_registerclient_result_d : sender := whole
    SUPLA_SC_CALL_REGISTER_CLIENT_RESULT_D TSC_SuplaRegisterClientResult_D.
Definition srpc_sc_async_location_update : sender := Struct SUPLA_SC_CALL_LOCATION_UPDATE false []
    TSC_SuplaLocation schar [["CaptionSize"]] SUPLA_LOCATION_CAPTION_MAXSIZE true.
Definition srpc_sc_async_channel_value_update : sender := whole SUPLA_SC_CALL_CHANNEL_VALUE_UPDATE
    TSC_SuplaChannelValue.
Definition srpc_sc_async_channel_value_update_b : sender := whole
    SUPLA_SC_CALL_CHANNEL_VALUE_UPDATE_B TSC_SuplaChannelValue_B.
Definition srpc_sc_async_channelgroup_relation_pack_update : sender := Struct
    SUPLA_SC_CALL_CHANNELGROUP_RELATION_PACK_UPDATE false [Below ["count"] 1; Above ["count"]
    SUPLA_CHANNELGROUP_RELATION_PACK_MAXCOUNT] TSC_SuplaChannelGroupRelationPack
    TSC_SuplaChannelGroupRelation [["count"]] SUPLA_CHANNELGROUP_RELATION_PACK_MAXCOUNT false.
Definition srpc_sc_async_channel_relation_pack_update : sender := Struct
    SUPLA_SC_CALL_CHANNEL_RELATION_PACK_UPDATE false [Below ["count"] 1; Above ["count"]
    SUPLA_CHANNEL_RELATION_PACK_MAXCOUNT] TSC_SuplaChannelRelationPack TSC_SuplaChannelRelation
    [["count"]] SUPLA_CHANNEL_RELATION_PACK_MAXCOUNT false.
Definition srpc_sc_async_channelvalue_pack_update : sender := Struct
    SUPLA_SC_CALL_CHANNELVALUE_PACK_UPDATE false [Below ["count"] 1; Above ["count"]
    SUPLA_CHANNELVALUE_PACK_MAXCOUNT] TSC_SuplaChannelValuePack TSC_SuplaChannelValue [["count"]]
    SUPLA_CHANNELVALUE_PACK_MAXCOUNT false.
Definition srpc_sc_async_channelvalue_pack_update_b : sender := Struct
    SUPLA_SC_CALL_CHANNELVALUE_PACK_UPDATE_B false [Below ["count"] 1; Above ["count"]
    SUPLA_CHANNELVALUE_PACK_MAXCOUNT] TSC_SuplaChannelValuePack_B TSC_SuplaChannelValue_B
    [["count"]] SUPLA_CHANNELVALUE_PACK_MAXCOUNT false.
Definition srpc_sc_async_channelextendedvalue_pack_update : sender := Struct
    SUPLA_SC_CALL_CHANNELEXTENDEDVALUE_PACK_UPDATE true [Below ["count"] 1; Above ["count"]
    SUPLA_CHANNELEXTENDEDVALUE_PACK_MAXCOUNT; Below ["pack_size"] 1; Above ["pack_size"]
    SUPLA_CHANNELEXTENDEDVALUE_PACK_MAXDATASIZE] TSC_SuplaChannelExtendedValuePack schar
    [["pack_size"]] SUPLA_CHANNELEXTENDEDVALUE_PACK_MAXDATASIZE false.
Definition srpc_sc_async_channel_state_pack_update : sender := Struct
    SUPLA_SC_CALL_CHANNEL_STATE_PACK_UPDATE false [Below ["count"] 1; Above ["count"]
    SUPLA_CHANNEL_STATE_PACK_MAXCOUNT] TSC_SuplaChannelStatePack TDSC_ChannelState [["count"]]
    SUPLA_CHANNEL_STATE_PACK_MAXCOUNT false.
Definition srpc_cs_async_get_next : sender := NoArg SUPLA_CS_CALL_GET_NEXT.
Definition srpc_sc_async_event : sender := Struct SUPLA_SC_CALL_EVENT false [] TSC_SuplaEvent
    schar [["SenderNameSize"]] SUPLA_SENDER_NAME_MAXSIZE true.
Definition srpc_cs_async_set_channel_value : sender := whole SUPLA_CS_CALL_CHANNEL_SET_VALUE
    TCS_SuplaChannelNewValue.
Definition srpc_cs_async_set_channel_value_b : sender := whole SUPLA_CS_CALL_CHANNEL_SET_VALUE_B
    TCS_SuplaChannelNewValue_B.
Definition srpc_cs_async_set_value : sender := whole SUPLA_CS_CALL_SET_VALUE TCS_SuplaNewValue.
Definition srpc_cs_async_oauth_token_request : sender := NoArg SUPLA_CS_CALL_OAUTH_TOKEN_REQUEST.
Definition srpc_cs_async_oauth_token_request_result : sender := Struct
    SUPLA_SC_CALL_OAUTH_TOKEN_REQUEST_RESULT true [Above ["Token"; "TokenSize"]
    SUPLA_OAUTH_TOKEN_MAXSIZE] TSC_OAuthTokenRequestResult schar [["Token"; "TokenSize"]]
    SUPLA_OAUTH_TOKEN_MAXSIZE false.
Definition srpc_cs_async_superuser_authorization_request : sender := whole
    SUPLA_CS_CALL_SUPERUSER_AUTHORIZATION_REQUEST TCS_SuperUserAuthorizationRequest.
Definition srpc_cs_async_get_superuser_authorization_result : sender := NoArg
    SUPLA_CS_CALL_GET_SUPERUSER_AUTHORIZATION_RESULT.
Definition srpc_sc_async_superuser_authorization_result : sender := whole
    SUPLA_SC_CALL_SUPERUSER_AUTHORIZATION_RESULT TSC_SuperUserAuthorizationResult.
Definition srpc_cs_async_device_calcfg_request : sender := Struct
    SUPLA_CS_CALL_DEVICE_CALCFG_REQUEST true [Above ["DataSize"] SUPLA_CALCFG_DATA_MAXSIZE]
    TCS_DeviceCalCfgRequest schar [["DataSize"]] SUPLA_CALCFG_DATA_MAXSIZE false.
Definition srpc_cs_async_device_calcfg_request_b : sender := Struct
    SUPLA_CS_CALL_DEVICE_CALCFG_REQUEST_B true [Above ["DataSize"] SUPLA_CALCFG_DATA_MAXSIZE]
    TCS_DeviceCalCfgRequest_B schar [["DataSize"]] SUPLA_CALCFG_DATA_MAXSIZE false.
Definition srpc_sc_async_device_calcfg_result : sender := Struct
    SUPLA_SC_CALL_DEVICE_CALCFG_RESULT true [Above ["DataSize"] SUPLA_CALCFG_DATA_MAXSIZE]
    TSC_DeviceCalCfgResult schar [["DataSize"]] SUPLA_CALCFG_DATA_MAXSIZE false.
Definition srpc_sc_async_channel_basic_cfg_result : sender := Struct
    SUPLA_SC_CALL_CHANNEL_BASIC_CFG_RESULT false [] TSC_ChannelBasicCfg schar [["CaptionSize"]]
    SUPLA_CHANNEL_CAPTION_MAXSIZE true.
Definition srpc_cs_async_set_channel_function : sender := whole SUPLA_CS_CALL_SET_CHANNEL_FUNCTION
    TCS_SetChannelFunction.
Definition srpc_sc_async_set_channel_function_result : sender := whole
    SUPLA_SC_CALL_SET_CHANNEL_FUNCTION_RESULT TSC_SetChannelFunctionResult.
Definition srpc_cs_async_set_channel_group_caption : sender := srpc_dcs_async_set_caption
    SUPLA_CS_CALL_SET_CHANNEL_GROUP_CAPTION.
Definition srpc_sc_async_set_channel_group_caption_result : sender :=
    srpc_sc_async_set_caption_result SUPLA_SC_CALL_SET_CHANNEL_GROUP_CAPTION_RESULT.
Definition srpc_cs_async_set_location_caption : sender := srpc_dcs_async_set_caption
    SUPLA_CS_CALL_SET_LOCATION_CAPTION.
Definition srpc_sc_async_set_location_caption_result : sender := srpc_sc_async_set_caption_result
    SUPLA_SC_CALL_SET_LOCATION_CAPTION_RESULT.
Definition srpc_cs_async_set_scene_caption : sender := srpc_dcs_async_set_caption
    SUPLA_CS_CALL_SET_SCENE_CAPTION.
Definition srpc_sc_async_set_scene_caption_result : sender := srpc_sc_async_set_caption_result
    SUPLA_SC_CALL_SET_SCENE_CAPTION_RESULT.
Definition srpc_cs_async_clients_reconnect_request : sender := NoArg
    SUPLA_CS_CALL_CLIENTS_RECONNECT_REQUEST.
Definition srpc_sc_async_clients_reconnect_request_result : sender := whole
    SUPLA_SC_CALL_CLIENTS_RECONNECT_REQUEST_RESULT TSC_ClientsReconnectRequestResult.
Definition srpc_cs_async_set_registration_enabled : sender := whole
    SUPLA_CS_CALL_SET_REGISTRATION_ENABLED TCS_SetRegistrationEnabled.
Definition srpc_sc_async_set_registration_enabled_result : sender := whole
    SUPLA_SC_CALL_SET_REGISTRATION_ENABLED_RESULT TSC_SetRegistrationEnabledResult.
Definition srpc_cs_async_device_reconnect_request : sender := whole
    SUPLA_CS_CALL_DEVICE_RECONNECT_REQUEST TCS_DeviceReconnectRequest.
Definition srpc_sc_async_device_reconnect_request_result : sender := whole
    SUPLA_SC_CALL_DEVICE_RECONNECT_REQUEST_RESULT TSC_DeviceReconnectRequestResult.
Definition srpc_cs_async_timer_arm : sender := whole SUPLA_CS_CALL_TIMER_ARM TCS_TimerArmRequest.
Definition srpc_cs_async_execute_action : sender := Struct SUPLA_CS_CALL_EXECUTE_ACTION true []
    TCS_Action schar [["ParamSize"]] SUPLA_ACTION_PARAM_MAXSIZE true.
Definition srpc_cs_async_execute_action_with_auth : sender := Struct
    SUPLA_CS_CALL_EXECUTE_ACTION_WITH_AUTH true [] TCS_ActionWithAuth schar [["Action";
    "ParamSize"]] SUPLA_ACTION_PARAM_MAXSIZE true.
Definition srpc_sc_async_action_execution_result : sender := checked_whole
    SUPLA_SC_CALL_ACTION_EXECUTION_RESULT TSC_ActionExecutionResult.
Definition srpc_cs_async_get_channel_value_with_auth : sender := checked_whole
    SUPLA_CS_CALL_GET_CHANNEL_VALUE_WITH_AUTH TCS_GetChannelValueWithAuth.
Definition srpc_sc_async_get_channel_value_result : sender := Struct
    SUPLA_SC_CALL_GET_CHANNEL_VALUE_RESULT true [] TSC_GetChannelValueResult schar
    [["ExtendedValue"; "size"]] SUPLA_CHANNELEXTENDEDVALUE_SIZE true.
Definition srpc_cs_async_register_pn_client_token : sender := Struct
    SUPLA_CS_CALL_REGISTER_PN_CLIENT_TOKEN true [Above ["Token"; "TokenSize"]
    SUPLA_PN_CLIENT_TOKEN_MAXSIZE] TCS_RegisterPnClientToken schar [["Token"; "TokenSize"]]
    SUPLA_PN_CLIENT_TOKEN_MAXSIZE false.
Definition srpc_sc_async_register_pn_client_token_result : sender := checked_whole
    SUPLA_SC_CALL_REGISTER_PN_CLIENT_TOKEN_RESULT TSC_RegisterPnClientTokenResult.
Definition srpc_cs_async_get_channel_config_request : sender := checked_whole
    SUPLA_CS_CALL_GET_CHANNEL_CONFIG TCS_GetChannelConfigRequest.
Definition srpc_sc_async_channel_config_update_or_result : sender := Struct
    SUPLA_SC_CALL_CHANNEL_CONFIG_UPDATE_OR_RESULT true [Above ["Config"; "ConfigSize"]
    SUPLA_CHANNEL_CONFIG_MAXSIZE] TSC_ChannelConfigUpdateOrResult schar [["Config"; "ConfigSize"]]
    SUPLA_CHANNEL_CONFIG_MAXSIZE false.
Definition srpc_cs_async_set_channel_config_request : sender := Struct
    SUPLA_CS_CALL_SET_CHANNEL_CONFIG true [Above ["ConfigSize"] SUPLA_CHANNEL_CONFIG_MAXSIZE]
    TSCS_ChannelConfig schar [["ConfigSize"]] SUPLA_CHANNEL_CONFIG_MAXSIZE false.
Definition srpc_cs_async_get_device_config_request : sender := checked_whole
    SUPLA_CS_CALL_GET_DEVICE_CONFIG TCS_GetDeviceConfigRequest.
Definition srpc_sc_async_device_config_update_or_result : sender := Struct
    SUPLA_SC_CALL_DEVICE_CONFIG_UPDATE_OR_RESULT true [Above ["Config"; "ConfigSize"]
    SUPLA_DEVICE_CONFIG_MAXSIZE] TSC_DeviceConfigUpdateOrResult schar [["Config"; "ConfigSize"]]
    SUPLA_DEVICE_CONFIG_MAXSIZE false.

(** Calls with a structure that the function fills in, see below. *)
Definition getversion_result : sender :=
  whole SUPLA_SDC_CALL_GETVERSION_RESULT TSDC_SuplaGetVersionResult.
Definition ping_server_result : sender :=
  whole SUPLA_SDC_CALL_PING_SERVER_RESULT TSDC_SuplaPingServerResult.
Definition set_channel_result : sender :=
  whole SUPLA_DS_CALL_CHANNEL_SET_VALUE_RESULT TDS_SuplaChannelNewValueResult.
Definition channel_value_changed : sender :=
  whole SUPLA_DS_CALL_DEVICE_CHANNEL_VALUE_CHANGED TDS_SuplaDeviceChannelValue.
Definition channel_value_changed_b : sender :=
  whole SUPLA_DS_CALL_DEVICE_CHANNEL_VALUE_CHANGED_B TDS_SuplaDeviceChannelValue_B.
Definition channel_value_changed_c : sender :=
  whole SUPLA_DS_CALL_DEVICE_CHANNEL_VALUE_CHANGED_C TDS_SuplaDeviceChannelValue_C.
Definition channel_extendedvalue_changed : sender :=
  Struct SUPLA_DS_CALL_DEVICE_CHANNEL_EXTENDEDVALUE_CHANGED false
    [Above ["value"; "size"] SUPLA_CHANNELEXTENDEDVALUE_SIZE; Below ["value"; "size"] 1]
    TDS_SuplaDeviceChannelExtendedValue schar [["value"; "size"]]
    SUPLA_CHANNELEXTENDEDVALUE_SIZE false.
Definition get_channel_basic_cfg : sender :=
  whole SUPLA_CS_CALL_GET_CHANNEL_BASIC_CFG TCS_ChannelBasicCfgRequest.

Definition senders : list sender := [getversion_result; ping_server_result; set_channel_result;
    channel_value_changed; channel_value_changed_b; channel_value_changed_c;
    channel_extendedvalue_changed; get_channel_basic_cfg;
    srpc_dcs_async_getversion;
    srpc_dcs_async_set_activity_timeout; srpc_dcs_async_set_activity_timeout_result;
    srpc_dcs_async_get_registration_enabled; srpc_sdc_async_get_registration_enabled_result;
    srpc_dcs_async_get_user_localtime; srpc_sdc_async_get_user_localtime_result;
    srpc_csd_async_get_channel_state; srpc_csd_async_channel_state_result;
    srpc_dcs_async_set_channel_caption; srpc_scd_async_set_channel_caption_result;
    srpc_sd_async_get_firmware_update_url; srpc_ds_async_registerdevice;
    srpc_ds_async_registerdevice_b; srpc_ds_async_registerdevice_c;
    srpc_ds_async_registerdevice_d; srpc_ds_async_registerdevice_e;
    srpc_ds_async_registerdevice_f; srpc_ds_async_registerdevice_g;
    srpc_sd_async_registerdevice_result; srpc_sd_async_registerdevice_result_b;
    srpc_sd_async_set_channel_value; srpc_sd_async_set_channelgroup_value;
    srpc_sd_async_device_calcfg_request; srpc_ds_async_device_calcfg_result;
    srpc_ds_async_get_channel_functions; srpc_sd_async_get_channel_functions_result;
    srpc_ds_async_get_channel_config_request; srpc_sd_async_get_channel_config_result;
    srpc_sd_async_set_channel_config_request; srpc_ds_async_set_channel_config_result;
    srpc_ds_async_set_channel_config_request; srpc_sd_async_set_channel_config_result;
    srpc_sd_async_channel_config_finished; srpc_sd_async_set_device_config_request;
    srpc_ds_async_set_device_config_result; srpc_ds_async_set_device_config_request;
    srpc_sd_async_set_device_config_result; srpc_ds_async_action_trigger;
    srpc_ds_async_register_push_notification; srpc_ds_async_send_push_notification;
    srpc_ds_async_set_subdevice_details; srpc_cs_async_registerclient;
    srpc_cs_async_registerclient_b; srpc_cs_async_registerclient_c;
    srpc_cs_async_registerclient_d; srpc_sc_async_registerclient_result;
    srpc_sc_async_registerclient_result_b; srpc_sc_async_registerclient_result_c;
    srpc_sc_async_registerclient_result_d; srpc_sc_async_location_update;
    srpc_sc_async_channel_value_update; srpc_sc_async_channel_value_update_b;
    srpc_sc_async_channelgroup_relation_pack_update; srpc_sc_async_channel_relation_pack_update;
    srpc_sc_async_channelvalue_pack_update; srpc_sc_async_channelvalue_pack_update_b;
    srpc_sc_async_channelextendedvalue_pack_update; srpc_sc_async_channel_state_pack_update;
    srpc_cs_async_get_next; srpc_sc_async_event; srpc_cs_async_set_channel_value;
    srpc_cs_async_set_channel_value_b; srpc_cs_async_set_value; srpc_cs_async_oauth_token_request;
    srpc_cs_async_oauth_token_request_result; srpc_cs_async_superuser_authorization_request;
    srpc_cs_async_get_superuser_authorization_result;
    srpc_sc_async_superuser_authorization_result; srpc_cs_async_device_calcfg_request;
    srpc_cs_async_device_calcfg_request_b; srpc_sc_async_device_calcfg_result;
    srpc_sc_async_channel_basic_cfg_result; srpc_cs_async_set_channel_function;
    srpc_sc_async_set_channel_function_result; srpc_cs_async_set_channel_group_caption;
    srpc_sc_async_set_channel_group_caption_result; srpc_cs_async_set_location_caption;
    srpc_sc_async_set_location_caption_result; srpc_cs_async_set_scene_caption;
    srpc_sc_async_set_scene_caption_result; srpc_cs_async_clients_reconnect_request;
    srpc_sc_async_clients_reconnect_request_result; srpc_cs_async_set_registration_enabled;
    srpc_sc_async_set_registration_enabled_result; srpc_cs_async_device_reconnect_request;
    srpc_sc_async_device_reconnect_request_result; srpc_cs_async_timer_arm;
    srpc_cs_async_execute_action; srpc_cs_async_execute_action_with_auth;
    srpc_sc_async_action_execution_result; srpc_cs_async_get_channel_value_with_auth;
    srpc_sc_async_get_channel_value_result; srpc_cs_async_register_pn_client_token;
    srpc_sc_async_register_pn_client_token_result; srpc_cs_async_get_channel_config_request;
    srpc_sc_async_channel_config_update_or_result; srpc_cs_async_set_channel_config_request;
    srpc_cs_async_get_device_config_request; srpc_sc_async_device_config_update_or_result].

Close Scope string_scope.

(** What the function does: returns 0, or calls [srpc_async_call]. *)
Inductive call_args :=
  | Nothing
  | Args (data : option (list Z)) (data_size : Z).

Definition condition_path (g : condition) : list string :=
  match g with Below p _ | Above p _ => p end.

Definition refuses (g : condition) (v : Z) : bool :=
  match g with Below _ limit => v <? limit | Above _ limit => limit <? v end.

(** The conditions, from left to right. [arg = None] is the null pointer. *)
Fixpoint any_refuses (gs : list condition) (t : ctype) (arg : option (list Z)) : option bool :=
  match gs with
  | [] => Some false
  | g :: gs =>
      mem ← arg;
      v ← value_of (condition_path g) t 0 mem;
      if refuses g v then Some true else any_refuses gs t arg
  end.

Definition count_of (counts : list (list string)) (t : ctype) (arg : option (list Z)) : option Z :=
  match counts with
  | [] => Some 0
  | _ => mem ← arg; sum_of counts t mem
  end.

Definition async_args (f : sender) (arg : option (list Z)) : option call_args :=
  match f with
  | NoArg _ => Some (Args None 0)
  | Struct _ null_checked guards t item counts max checked =>
      if null_checked && bool_decide (arg = None) then Some Nothing
      else
        refused ← any_refuses guards t arg;
        if refused : bool then Some Nothing
        else
          v ← count_of counts t arg;
          let size := u64 (sizeof t - sizeof item * max + sizeof item * v) in
          Some (if checked && (sizeof t <? u64 (i32 size)) then Nothing else Args arg (u32 size))
  end.

Definition sender_call (f : sender) : Z :=
  match f with NoArg call_id | Struct call_id _ _ _ _ _ _ _ => call_id end.

(** The whole call. *)
Definition srpc_send (malloc_ok : bool) (f : sender) (arg : option (list Z)) (s : Tsrpc)
    : option (Z * Tsrpc * list srpc_event) :=
  args ← async_args f arg;
  match args with
  | Nothing => Some (0, s, [])
  | Args data size => srpc_async__call malloc_ok (sender_call f) data size None s
  end.

(** *** Structures that the function fills in

    [x] is the variable of the function before its members are set. *)

Definition memcpy_member (path : list string) (t : ctype) (src : list Z) (n : Z) (mem : list Z)
    : option (list Z) :=
  '(o, _) ← place path t; memcpy_to mem o src n.

Open Scope string_scope.

Definition srpc_sdc_async_getversion_result (m : bool) (x SoftVer : list Z) (s : Tsrpc)
    : option (Z * Tsrpc * list srpc_event) :=
  let t := TSDC_SuplaGetVersionResult in
  x ← assign ["proto_version"] t 0 SUPLA_PROTO_VERSION x;
  x ← assign ["proto_version_min"] t 0 SUPLA_PROTO_VERSION_MIN x;
  x ← memcpy_member ["SoftVer"] t SoftVer SUPLA_SOFTVER_MAXSIZE x;
  srpc_send m getversion_result (Some x) s.

(** Sent with the version of the peer. *)
Definition srpc_sdc_async_versionerror (m : bool) (x : list Z) (remote_version : Z) (s : Tsrpc)
    : option (Z * Tsrpc * list srpc_event) :=
  let t := TSDC_SuplaVersionError in
  x ← assign ["server_version"] t 0 SUPLA_PROTO_VERSION x;
  x ← assign ["server_version_min"] t 0 SUPLA_PROTO_VERSION_MIN x;
  srpc_async__call m SUPLA_SDC_CALL_VERSIONERROR (Some x) (sizeof t) (Some remote_version) s.

Definition srpc_dcs_async_ping_server (m : bool) (x : list Z) (tv_sec tv_usec : Z) (s : Tsrpc)
    : option (Z * Tsrpc * list srpc_event) :=
  let t := TDCS_SuplaPingServer in
  x ← assign ["now"; "tv_sec"] t 0 tv_sec x;
  x ← assign ["now"; "tv_usec"] t 0 tv_usec x;
  srpc_async__call m SUPLA_DCS_CALL_PING_SERVER (Some x) (sizeof t) None s.

Definition srpc_sdc_async_ping_server_result (m : bool) (x : list Z) (tv_sec tv_usec : Z)
    (s : Tsrpc) : option (Z * Tsrpc * list srpc_event) :=
  let t := TSDC_SuplaPingServerResult in
  x ← assign ["now"; "tv_sec"] t 0 tv_sec x;
  x ← assign ["now"; "tv_usec"] t 0 tv_usec x;
  srpc_send m ping_server_result (Some x) s.

Definition srpc_ds_async_set_channel_result (m : bool) (x : list Z)
    (ChannelNumber SenderID Success : Z) (s : Tsrpc) : option (Z * Tsrpc * list srpc_event) :=
  let t := TDS_SuplaChannelNewValueResult in
  x ← assign ["ChannelNumber"] t 0 ChannelNumber x;
  x ← assign ["SenderID"] t 0 SenderID x;
  x ← assign ["Success"] t 0 Success x;
  srpc_send m set_channel_result (Some x) s.

Definition srpc_sd_async_get_firmware_update_url_result (m : bool) (result : list Z) (s : Tsrpc)
    : option (Z * Tsrpc * list srpc_event) :=
  let t := TSD_FirmwareUpdate_UrlResult in
  exists_ ← value_of ["exists"] t 0 result;
  srpc_async__call m SUPLA_SD_CALL_GET_FIRMWARE_UPDATE_URL_RESULT (Some result)
    (if (exists_ =? 1)%Z then sizeof t else sizeof schar) None s.

Definition srpc_ds_async_channel_value_changed (m : bool) (x : list Z) (channel_number : Z)
    (value : list Z) (s : Tsrpc) : option (Z * Tsrpc * list srpc_event) :=
  let t := TDS_SuplaDeviceChannelValue in
  x ← assign ["ChannelNumber"] t 0 channel_number x;
  x ← memcpy_member ["value"] t value SUPLA_CHANNELVALUE_SIZE x;
  srpc_send m channel_value_changed (Some x) s.

Definition srpc_ds_async_channel_value_changed_b (m : bool) (x : list Z) (channel_number : Z)
    (value : list Z) (offline : Z) (s : Tsrpc) : option (Z * Tsrpc * list srpc_event) :=
  let t := TDS_SuplaDeviceChannelValue_B in
  x ← assign ["ChannelNumber"] t 0 channel_number x;
  x ← assign ["Offline"] t 0 (if (offline =? 0)%Z then 0 else 1) x;
  x ← memcpy_member ["value"] t value SUPLA_CHANNELVALUE_SIZE x;
  srpc_send m channel_value_changed_b (Some x) s.

Definition srpc_ds_async_channel_value_changed_c (m : bool) (x : list Z) (channel_number : Z)
    (value : list Z) (offline validity_time_sec : Z) (s : Tsrpc)
    : option (Z * Tsrpc * list srpc_event) :=
  let t := TDS_SuplaDeviceChannelValue_C in
  x ← assign ["ChannelNumber"] t 0 channel_number x;
  let offline := if (SUPLA_CHANNEL_OFFLINE_FLAG_MAX <? offline)%Z
                 then SUPLA_CHANNEL_OFFLINE_FLAG_OFFLINE else offline in
  x ← assign ["Offline"] t 0 offline x;
  x ← assign ["ValidityTimeSec"] t 0 validity_time_sec x;
  x ← memcpy_member ["value"] t value SUPLA_CHANNELVALUE_SIZE x;
  srpc_send m channel_value_changed_c (Some x) s.

(** The conditions are on the argument, and hold of its copy. *)
Definition srpc_ds_async_channel_extendedvalue_changed (m : bool) (x : list Z)
    (channel_number : Z) (value : option (list Z)) (s : Tsrpc)
    : option (Z * Tsrpc * list srpc_event) :=
  match value with
  | None => Some (0%Z, s, [])
  | Some value =>
      size ← value_of ["size"] TSuplaChannelExtendedValue 0 value;
      if ((SUPLA_CHANNELEXTENDEDVALUE_SIZE <? size) || (size =? 0))%Z then Some (0%Z, s, [])
      else
        let t := TDS_SuplaDeviceChannelExtendedValue in
        x ← assign ["ChannelNumber"] t 0 channel_number x;
        x ← memcpy_member ["value"] t value (sizeof TSuplaChannelExtendedValue) x;
        srpc_send m channel_extendedvalue_changed (Some x) s
  end.

Definition srpc_cs_async_get_channel_basic_cfg (m : bool) (ChannelID : Z) (s : Tsrpc)
    : option (Z * Tsrpc * list srpc_event) :=
  let t := TCS_ChannelBasicCfgRequest in
  x ← assign ["ChannelID"] t 0 ChannelID (replicate (Z.to_nat (sizeof t)) 0%Z);
  srpc_send m get_channel_basic_cfg (Some x) s.

Close Scope string_scope.

(** ** The layout of what is sent *)

(** A sum of counters that the conditions leave: its upper bound. *)
Fixpoint above_limit (c : list string) (gs : list condition) : option Z :=
  match gs with
  | [] => None
  | Above p l :: gs => if bool_decide (p = c) then Some l else above_limit c gs
  | _ :: gs => above_limit c gs
  end.

Definition not_negative (c : list string) (t : ctype) (gs : list condition) : bool :=
  match place c t with Some (_, CInt _ false) => true | _ => false end
  || existsb (λ g, match g with Below p l => bool_decide (p = c) && (0 <=? l) | _ => false end) gs.

Fixpoint limit_sum (counts : list (list string)) (t : ctype) (gs : list condition) : option Z :=
  match counts with
  | [] => Some 0
  | c :: counts =>
      l ← above_limit c gs;
      if not_negative c t gs then rest ← limit_sum counts t gs; Some (l + rest) else None
  end.

(** The members are integers of the structure; a size without the check has
    counters bounded by the conditions. *)
Definition sender_ok (f : sender) : bool :=
  match f with
  | NoArg _ => true
  | Struct _ _ gs t item counts max checked =>
      (0 <=? sizeof t - sizeof item * max) && (1 <=? sizeof item) && (0 <=? max)
      && (sizeof t <? 2 ^ 24)
      && forallb (λ g, int_below (condition_path g) t (sizeof t)) gs
      && forallb (λ c, int_below c t (sizeof t)) counts
      && (checked || match limit_sum counts t gs with Some l => l <=? max | None => false end)
  end.

Lemma senders_ok : forallb sender_ok senders = true.
Proof. vm_compute. reflexivity. Qed.

(** What the peer does with the call: the switch of [srpc_getdata] has a case for
    the same structure. *)
Definition sender_decoded (f : sender) : Prop :=
  match f with
  | NoArg call_id => getdata_decoder call_id = Some NoData
  | Struct call_id _ gs t item counts max _ =>
      match counts with
      | [] => max = 0 ∧ gs = [] ∧ ∃ a, getdata_decoder call_id = Some (Sized a t)
      | _ => ∃ a item', getdata_decoder call_id = Some (Counted a t item' counts max)
                        ∧ sizeof item' = sizeof item
      end
  end.

Lemma senders_decoded : Forall sender_decoded senders.
Proof.
  unfold senders. repeat apply Forall_cons_2; [..|constructor].
  all: match goal with
  | |- sender_decoded ?f => let f' := eval hnf in f in change (sender_decoded f')
  end.
  all: unfold sender_decoded.
  all: try (vm_compute; reflexivity).
  all: first [ by (split; [reflexivity|]; split; [reflexivity|]; eexists; vm_compute; reflexivity)
             | by (do 2 eexists; split; [vm_compute; reflexivity|vm_compute; reflexivity]) ].
Qed.

(** ** The sizes *)

Lemma any_refuses_some gs t mem :
  forallb (λ g, int_below (condition_path g) t (sizeof t)) gs = true →
  bytes mem → Z.of_nat (length mem) = sizeof t → ∃ r, any_refuses gs t (Some mem) = Some r.
Proof.
  intros Hg Hb Hl. induction gs as [|g gs IH]; cbn [any_refuses forallb] in *; [by eexists|].
  apply andb_true_iff in Hg as [Hg Hgs].
  destruct (int_below_value _ _ _ mem Hg ltac:(lia) Hb) as (v & Hv & _).
  cbn [mbind option_bind]. rewrite Hv. cbn [mbind option_bind].
  destruct (refuses g v); [by eexists|by apply IH].
Qed.

Lemma not_refused gs t mem g :
  any_refuses gs t (Some mem) = Some false → g ∈ gs →
  ∃ v, value_of (condition_path g) t 0 mem = Some v ∧ refuses g v = false.
Proof.
  induction gs as [|g' gs IH]; intros H Hin; [by apply elem_of_nil in Hin|].
  cbn [any_refuses mbind option_bind] in H. apply bind_Some in H as (v & Hv & H).
  destruct (refuses g' v) eqn:E; [done|].
  apply elem_of_cons in Hin as [->|Hin]; [by exists v|by apply IH].
Qed.

Lemma above_limit_in c gs l : above_limit c gs = Some l → Above c l ∈ gs.
Proof.
  induction gs as [|g gs IH]; [done|]. cbn [above_limit].
  destruct g as [p b|p b]; [intros; apply list_elem_of_further; by apply IH|].
  case_bool_decide as E; [intros [= ->]; subst; apply list_elem_of_here|].
  intros; apply list_elem_of_further; by apply IH.
Qed.

(** An unsigned member. *)
Lemma unsigned_value c t mem o n v :
  place c t = Some (o, CInt n false) → bytes mem → value_of c t 0 mem = Some v → 0 <= v.
Proof.
  intros Hp Hb H. unfold value_of in H. rewrite Hp in H. cbn [mbind option_bind int_at] in H.
  apply bind_Some in H as (l & Hr & H). injection H as <-.
  unfold read_at in Hr. case_match; [|done]. injection Hr as <-.
  apply of_le_range. by apply Forall_take, Forall_drop.
Qed.

Lemma limit_sum_bounds counts t gs mem : ∀ l v,
  bytes mem → any_refuses gs t (Some mem) = Some false → limit_sum counts t gs = Some l →
  sum_of counts t mem = Some v → 0 <= v <= l.
Proof.
  intros l v Hb Hg. revert l v. induction counts as [|c counts IH]; intros l v Hl Hv;
    cbn [limit_sum sum_of] in *; [simplify_eq; lia|].
  apply bind_Some in Hl as (l1 & Hl1 & Hl). destruct (not_negative c t gs) eqn:En; [|done].
  apply bind_Some in Hl as (l2 & Hl2 & Hl). apply bind_Some in Hv as (v1 & Hv1 & Hv).
  apply bind_Some in Hv as (v2 & Hv2 & Hv). simplify_eq. specialize (IH _ _ Hl2 Hv2).
  destruct (not_refused _ _ _ _ Hg (above_limit_in _ _ _ Hl1)) as (x & Hx & Hr).
  cbn [condition_path refuses] in *. rewrite Hv1 in Hx. injection Hx as <-. apply Z.ltb_ge in Hr.
  assert (0 <= v1); [|lia]. unfold not_negative in En. apply orb_true_iff in En as [En|En].
  - destruct (place c t) as [[o [n [] | | |]]|] eqn:Ep; try done. by eapply unsigned_value.
  - apply existsb_exists in En as (g & Hin & Hgc). destruct g as [p b|]; [|done].
    apply andb_true_iff in Hgc as [Hp Hbz]. apply bool_decide_eq_true in Hp as ->.
    apply Z.leb_le in Hbz. apply list_elem_of_In in Hin.
    destruct (not_refused _ _ _ _ Hg Hin) as (y & Hy & Hry). cbn [condition_path refuses] in *.
    rewrite Hv1 in Hy. injection Hy as <-. apply Z.ltb_ge in Hry. lia.
Qed.

Lemma sum_of_below counts t limit mem v :
  forallb (λ c, int_below c t limit) counts = true → limit <= Z.of_nat (length mem) →
  bytes mem → sum_of counts t mem = Some v →
  Z.of_nat (length counts) * - 2 ^ 31 <= v <= Z.of_nat (length counts) * 2 ^ 32.
Proof.
  intros H Hl Hb Hv. destruct (sum_of_value _ _ _ _ H Hl Hb) as (x & Hx & Hr). congruence.
Qed.

Lemma count_of_sum counts t mem : count_of counts t (Some mem) = sum_of counts t mem.
Proof. by destruct counts. Qed.

(** A size that passes the comparison, after its conversions. *)
Lemma checked_size x n : 0 <= n < 2 ^ 24 → u64 (i32 x) <= n → 0 <= u32 x <= n.
Proof.
  intros Hn Hle. unfold u64, i32, u32 in *.
  pose proof (Z.mod_pos_bound (x + 2 ^ 31) (2 ^ 32) ltac:(lia)).
  set (y := (x + 2 ^ 31) mod 2 ^ 32 - 2 ^ 31) in *.
  assert (0 <= y <= n) as Hy.
  { destruct (Z.le_gt_cases 0 y); [rewrite Z.mod_small in Hle by lia; lia|].
    rewrite <- (Z.mod_unique y (2 ^ 64) (-1) (y + 2 ^ 64)) in Hle by lia. lia. }
  assert (x mod 2 ^ 32 = y) as ->; [|lia].
  symmetry. apply (Z.mod_unique x (2 ^ 32) ((x + 2 ^ 31) / 2 ^ 32)); [lia|].
  pose proof (Z.div_mod (x + 2 ^ 31) (2 ^ 32) ltac:(lia)). unfold y. lia.
Qed.

(** The size handed over. *)
Lemma async_args_struct call_id nc gs t item counts max checked mem :
  sender_ok (Struct call_id nc gs t item counts max checked) = true →
  bytes mem → Z.of_nat (length mem) = sizeof t →
  ∃ r, async_args (Struct call_id nc gs t item counts max checked) (Some mem) = Some r
  ∧ (r = Nothing
     ∨ ∃ size v, r = Args (Some mem) size ∧ sum_of counts t mem = Some v
       ∧ 0 <= size <= sizeof t
       ∧ (0 <= v <= max → size = sizeof t - sizeof item * max + sizeof item * v)).
Proof.
  intros Hok Hb Hl. unfold sender_ok in Hok.
  rewrite !andb_true_iff, !Z.leb_le, Z.ltb_lt in Hok.
  destruct Hok as ((((((H1 & H2) & H3) & H4) & H5) & H6) & H7).
  unfold async_args. rewrite bool_decide_false, andb_false_r by done.
  destruct (any_refuses_some gs t mem H5 Hb Hl) as [[] Hr]; rewrite Hr; cbn [mbind option_bind];
    [eexists; split; [done|by left]|].
  rewrite count_of_sum.
  destruct (sum_of_value _ _ _ mem H6 ltac:(lia) Hb) as (v & Hv & _).
  rewrite Hv. cbn [mbind option_bind]. cbn zeta. eexists. split; [done|].
  set (e := sizeof t - sizeof item * max + sizeof item * v).
  assert (0 <= v <= max → 0 <= e <= sizeof t) as He by (unfold e; nia).
  destruct checked; cbn [andb orb] in *.
  - destruct (Z.ltb_spec (sizeof t) (u64 (i32 (u64 e)))) as [|Hle]; [by left|]. right.
    exists (u32 (u64 e)), v. split; [done|]. split; [done|]. split.
    + apply checked_size; [lia|exact Hle].
    + intros Hvm. specialize (He Hvm). rewrite u64_id by lia. apply u32_id. unfold is_u32. lia.
  - destruct (limit_sum counts t gs) as [l|] eqn:El; [|done]. apply Z.leb_le in H7.
    pose proof (limit_sum_bounds _ _ _ _ _ _ Hb Hr El Hv). right. exists (u32 (u64 e)), v.
    specialize (He ltac:(lia)). rewrite u64_id by lia. rewrite u32_id by (unfold is_u32; lia).
    split; [done|]. split; [done|]. split; [lia|done].
Qed.

(** ** What the peer makes of it *)

Lemma sum_of_take counts t limit size mem v :
  forallb (λ c, int_below c t limit) counts = true → limit <= size →
  size <= Z.of_nat (length mem) → sum_of counts t mem = Some v →
  sum_of counts t (take (Z.to_nat size) mem) = Some v.
Proof. intros. by eapply sum_of_received. Qed.

Lemma struct_accepted call_id nc gs t item counts max checked mem size v :
  sender_decoded (Struct call_id nc gs t item counts max checked) →
  Z.of_nat (length mem) = sizeof t → sum_of counts t mem = Some v → 0 <= v <= max →
  size = sizeof t - sizeof item * max + sizeof item * v →
  ∃ d fill, getdata_decoder call_id = Some d ∧ (fill = None ∨ fill = Some 0)
  ∧ ∀ data, take (Z.to_nat size) data = take (Z.to_nat size) mem →
    accepted_block d size data
      (Some ((Some <$> take (Z.to_nat size) mem) ++ replicate (Z.to_nat (sizeof t - size)) fill)).
Proof.
  intros Hdec Hl Hv Hvm ->. unfold sender_decoded in Hdec.
  assert (∀ a, fill a = None ∨ fill a = Some 0) as Hfill by (intros []; cbn; auto).
  destruct counts as [|c counts].
  - destruct Hdec as (-> & _ & a & Hd). injection Hv as <-. exists (Sized a t), (fill a).
    split; [done|]. split; [apply Hfill|]. intros data Ht. cbn [accepted_block]. rewrite Ht.
    split; [lia|done].
  - destruct Hdec as (a & item' & Hd & Hi). exists (Counted a t item' (c :: counts) max), (fill a).
    split; [done|]. split; [apply Hfill|]. intros data Ht. cbn [accepted_block]. rewrite Ht.
    pose proof (getdata_decoder_ok _ _ Hd) as Hok.
    destruct (counted_ok_sizes _ _ _ _ Hok) as (Hh & Hi2 & Hm & Hst & Hc & Hf). rewrite Hi in *.
    exists v. split; [|split; [done|split; [lia|done]]].
    eapply sum_of_take; [exact Hf|nia|nia|done].
Qed.

(** The packet of an accepted call. *)
Lemma async_call_full m call_id data size s r s' evs p :
  0 <= size → (∀ src, data = Some src → size <= Z.of_nat (length src)) →
  srpc_async__call m call_id data size None s = Some (r, s', evs) → accepted evs = [p] →
  (sdp_call_id p = call_id ∧ sdp_data_size p = size ∧ size <= SUPLA_MAX_DATA_SIZE
   ∧ Z.of_nat (length (sdp_data p)) = SUPLA_MAX_DATA_SIZE
   ∧ take (Z.to_nat size) (sdp_data p) = take (Z.to_nat size) (default [] data))
  ∧ srpc_call_allowed s call_id = true ∧ r = i32 (sdp_rr_id p) ∧ sdp_tag p = sproto_tag
  ∧ sdp_version p = spd_version (srpc_proto s)
  ∧ sdp_rr_id p = next_rr_id (spd_next_rr_id (srpc_proto s)).
Proof.
  intros Hz Hd H Hp. unfold srpc_async__call in H. if_head H; [by simplify_eq|].
  apply negb_false_iff in Heqb.
  unfold sproto_sdp_init in H. cbn zeta in H. set (sdp0 := SDP _ _ _ _ _ _) in H.
  pose proof (set_data_ok sdp0 data size call_id Hz Hd eq_refl eq_refl) as Hset.
  destruct (data_refused data size) eqn:Er.
  { rewrite Hset in H. cbn [mbind option_bind] in H.
    change (SUPLA_RESULT_FALSE =? SUPLA_RESULT_TRUE) with false in H. cbn iota in H.
    injection H as <- <- <-. discriminate Hp. }
  destruct Hset as (sdp & Hset & Hsh & Hrr & Hv & Hc & Hs & Ht). rewrite Hset in H.
  cbn [mbind option_bind] in H. cbn zeta in H. if_head H; [|by simplify_eq].
  apply bind_Some in H as ([r2 q] & _ & H). if_head H; [|by simplify_eq].
  injection H as <- <- <-. injection Hp as <-. apply orb_false_iff in Er as [Er _].
  apply Z.ltb_ge in Er. destruct Hsh. split; [by split_and!|]. by split_and!.
Qed.

Lemma async_call_packet m call_id data size s r s' evs p :
  0 <= size → (∀ src, data = Some src → size <= Z.of_nat (length src)) →
  srpc_async__call m call_id data size None s = Some (r, s', evs) → accepted evs = [p] →
  sdp_call_id p = call_id ∧ sdp_data_size p = size ∧ size <= SUPLA_MAX_DATA_SIZE
  ∧ Z.of_nat (length (sdp_data p)) = SUPLA_MAX_DATA_SIZE
  ∧ take (Z.to_nat size) (sdp_data p) = take (Z.to_nat size) (default [] data).
Proof. intros. by eapply async_call_full. Qed.

(** The pointed structure of a call is there. *)
Definition arg_ok (f : sender) (mem : list Z) : Prop :=
  match f with
  | NoArg _ => True
  | Struct _ _ _ t _ _ _ _ => bytes mem ∧ Z.of_nat (length mem) = sizeof t
  end.

(** Its counters are within its arrays. *)
Definition counters_ok (f : sender) (mem : list Z) : Prop :=
  match f with
  | NoArg _ => True
  | Struct _ _ _ t _ counts max _ => ∃ v, sum_of counts t mem = Some v ∧ 0 <= v <= max
  end.

(** The block that the peer gets: the part of the structure in use, then zeros or
    cells that are not written. *)
Definition arrives (f : sender) (mem : list Z) (size : Z) (block : option cells) : Prop :=
  match f with
  | NoArg _ => block = None
  | Struct _ _ _ t item counts max _ =>
      ∃ v fill, sum_of counts t mem = Some v
        ∧ size = sizeof t - sizeof item * max + sizeof item * v
        ∧ (fill = None ∨ fill = Some 0)
        ∧ block = Some ((Some <$> take (Z.to_nat size) mem)
                        ++ replicate (Z.to_nat (sizeof t - size)) fill)
  end.

(** Packets with the same payload have the same sizes. *)
Lemma payload_same p q :
  0 <= sdp_data_size p <= SUPLA_MAX_DATA_SIZE → 0 <= sdp_data_size q <= SUPLA_MAX_DATA_SIZE →
  Z.of_nat (length (sdp_data p)) = SUPLA_MAX_DATA_SIZE →
  Z.of_nat (length (sdp_data q)) = SUPLA_MAX_DATA_SIZE → payload q = payload p →
  sdp_call_id q = sdp_call_id p ∧ sdp_data_size q = sdp_data_size p
  ∧ take (Z.to_nat (sdp_data_size p)) (sdp_data q) = take (Z.to_nat (sdp_data_size p)) (sdp_data p).
Proof.
  intros Hp Hq Hl Hl' H. unfold payload in H. injection H as _ _ Hcall Hdata.
  assert (sdp_data_size q = sdp_data_size p) as Hs.
  { apply (f_equal length) in Hdata. rewrite !length_take in Hdata.
    unfold SUPLA_MAX_DATA_SIZE in *. lia. }
  split; [done|]. split; [done|]. by rewrite Hs in Hdata.
Qed.

Lemma send_arrives m f mem s r s' evs p q :
  f ∈ senders → arg_ok f mem → counters_ok f mem →
  srpc_send m f (Some mem) s = Some (r, s', evs) → accepted evs = [p] →
  packet_ok q → payload q = payload p →
  ∃ block size', getdata_decode true (sdp_call_id q) (sdp_data_size q) (sdp_data q)
                 = Some (SUPLA_RESULT_TRUE, block, size')
                 ∧ sdp_call_id q = sender_call f ∧ arrives f mem (sdp_data_size q) block.
Proof.
  intros Hf Ha Hc Hsend Hp [_ Hq] Hpay.
  pose proof senders_decoded as Hdec. rewrite Forall_forall in Hdec. specialize (Hdec f Hf).
  pose proof senders_ok as Hok. rewrite forallb_forall in Hok.
  specialize (Hok f (proj1 (list_elem_of_In _ _) Hf)). unfold srpc_send in Hsend.
  destruct f as [call_id|call_id nc gs t item counts max checked].
  - cbn [async_args mbind option_bind] in Hsend.
    destruct (async_call_packet m call_id None 0 s r s' evs p ltac:(lia) ltac:(done) Hsend Hp)
      as (Hcall & Hsz & _ & Hlp & _).
    destruct (payload_same p q) as (Hcq & Hsq & _); [unfold SUPLA_MAX_DATA_SIZE in *; lia|apply Hq|done|apply Hq|done|].
    cbn [sender_decoded sender_call] in *. rewrite Hcq, Hcall.
    destruct (getdata_decode_complete call_id NoData _ _ None Hq Hdec eq_refl) as (z & E).
    do 2 eexists. by split.
  - destruct Ha as [Hb Hl]. destruct Hc as (v & Hv & Hvm).
    destruct (async_args_struct _ _ _ _ _ _ _ _ _ Hok Hb Hl)
      as (r0 & Hr & [->|(size & v' & -> & Hv' & Hsz & Hsize)]);
      rewrite Hr in Hsend; cbn [mbind option_bind] in Hsend; [by simplify_eq|].
    rewrite Hv in Hv'. injection Hv' as <-. specialize (Hsize Hvm).
    destruct (async_call_packet m call_id (Some mem) size s r s' evs p (proj1 Hsz)
      ltac:(intros ? [= <-]; lia) Hsend Hp) as (Hcall & Hsp & Hmax & Hlp & Ht).
    destruct (payload_same p q) as (Hcq & Hsq & Htq); [unfold SUPLA_MAX_DATA_SIZE in *; lia|apply Hq|done|apply Hq|done|].
    cbn [sender_call] in *. rewrite Hsq, Hsp in *. cbn [default] in Ht.
    destruct (struct_accepted _ _ _ _ _ _ _ _ mem size v Hdec Hl Hv Hvm Hsize)
      as (d & fl & Hd & Hfl & Hacc). unfold id in *.
    rewrite Hcq, Hcall.
    destruct (getdata_decode_complete call_id d size (sdp_data q) _ Hq Hd (Hacc (sdp_data q) (eq_trans Htq Ht)))
      as (z & E).
    do 2 eexists. split; [exact E|]. split; [done|]. by exists v, fl.
Qed.

(** An accepted call with [srpc_ok]. *)
Lemma async_call_total m call_id data size s c il ol :
  srpc_ok s c il ol → 0 <= size → (∀ src, data = Some src → size <= Z.of_nat (length src)) →
  ∃ r s' evs, srpc_async__call m call_id data size None s = Some (r, s', evs).
Proof.
  intros Hs Hz Hd. destruct (async_call_ok m call_id data size None s c il ol Hs) as
    (r & s' & evs & E & _); [by split|]. eauto.
Qed.

(** ** Properties *)

(** C39. Every call with a structure arrives as it was sent. For each of the functions
    in the table, in every state of the connection and for every content of the
    structure it is given, the function reads only the structure, and when the
    call is accepted for sending and the counters of the structure are within
    its arrays, the peer that gets the packet accepts it, for this call, and has
    in its block the part of the structure that is in use: the header and as
    many items as the counters say. *)
Theorem call_arrives m f mem s c il ol
    (Hf : f ∈ senders) (Hmem : arg_ok f mem) (Hs : srpc_ok s c il ol) :
  ∃ r s' evs, srpc_send m f (Some mem) s = Some (r, s', evs)
  ∧ ∀ p q, counters_ok f mem → accepted evs = [p] → packet_ok q → payload q = payload p →
    ∃ block size', getdata_decode true (sdp_call_id q) (sdp_data_size q) (sdp_data q)
                   = Some (SUPLA_RESULT_TRUE, block, size')
                   ∧ sdp_call_id q = sender_call f ∧ arrives f mem (sdp_data_size q) block.
Proof.
  enough (∃ x, srpc_send m f (Some mem) s = Some x) as [[[r s'] evs] E].
  { exists r, s', evs. split; [done|]. intros p q Hc Hp Hq Hpay. by eapply send_arrives. }
  unfold srpc_send. destruct f as [call_id|call_id nc gs t item counts max checked].
  - cbn [async_args mbind option_bind].
    destruct (async_call_total m call_id None 0 s c il ol Hs) as (r & s' & evs & E);
      [lia|done|by eexists].
  - pose proof senders_ok as Hok. rewrite forallb_forall in Hok.
    specialize (Hok _ (proj1 (list_elem_of_In _ _) Hf)). destruct Hmem as [Hb Hl].
    destruct (async_args_struct _ _ _ _ _ _ _ _ _ Hok Hb Hl)
      as (r0 & Hr & [->|(size & v & -> & _ & Hsz & _)]); rewrite Hr; [by eexists|].
    cbn [mbind option_bind sender_call].
    destruct (async_call_total m call_id (Some mem) size s c il ol Hs) as (r & s' & evs & E);
      [lia|intros ? [= <-]; lia|by eexists].
Qed.

(** *** At concrete inputs *)

Definition is_packet (p : TSuplaDataPacket) : bool :=
  (length (sdp_tag p) =? 5)%nat
  && (Z.of_nat (length (sdp_data p)) =? SUPLA_MAX_DATA_SIZE)
  && forallb (λ z, (0 <=? z) && (z <? 256)) (sdp_data p)
  && (0 <=? sdp_data_size p) && (sdp_data_size p <=? SUPLA_MAX_DATA_SIZE).

Lemma bytes_check l : forallb (λ z, (0 <=? z) && (z <? 256)) l = true → bytes l.
Proof.
  intros H. apply Forall_forall. intros z Hz. rewrite forallb_forall in H.
  specialize (H z (proj1 (list_elem_of_In _ _) Hz)). unfold is_u8. lia.
Qed.

Lemma is_packet_ok p : is_packet p = true → packet_ok p.
Proof.
  unfold is_packet. rewrite !andb_true_iff, Nat.eqb_eq, Z.eqb_eq, !Z.leb_le.
  intros ((((H1 & H2) & H3) & H4) & H5). split; [done|]. split; [done|].
  split; [by apply bytes_check|done].
Qed.

(** The location 7 with the caption "ab". *)
Definition location_ex : list Z :=
  [1; 7; 0; 0; 0; 3; 0; 0; 0; 97; 98; 0] ++ replicate (Z.to_nat SUPLA_LOCATION_CAPTION_MAXSIZE - 3) 0.

Definition sent_by (x : option (Z * Tsrpc * list srpc_event)) : list TSuplaDataPacket :=
  match x with Some (_, _, evs) => accepted evs | None => [] end.

(** The call is sent, and decoded from the packet itself. *)
Lemma call_arrives_witness :
  ∃ p block size', sent_by (srpc_send true srpc_sc_async_location_update (Some location_ex) srpc_init)
                   = [p]
  ∧ getdata_decode true (sdp_call_id p) (sdp_data_size p) (sdp_data p)
    = Some (SUPLA_RESULT_TRUE, block, size')
  ∧ arrives srpc_sc_async_location_update location_ex (sdp_data_size p) block.
Proof.
  destruct (call_arrives true srpc_sc_async_location_update location_ex srpc_init [] [] [])
    as (r & s' & evs & E & H).
  - unfold senders. repeat (apply list_elem_of_here || apply list_elem_of_further).
  - split; [apply bytes_check; vm_compute; reflexivity|vm_compute; reflexivity].
  - exact srpc_ok_init.
  - destruct (sent_by (srpc_send true srpc_sc_async_location_update (Some location_ex) srpc_init))
      as [|p [|]] eqn:Hs; [vm_compute in Hs; discriminate| |vm_compute in Hs; discriminate].
    assert (is_packet p = true) as Hp.
    { assert (forallb is_packet (sent_by (srpc_send true srpc_sc_async_location_update
        (Some location_ex) srpc_init)) = true) as Hall by (vm_compute; reflexivity).
      rewrite Hs in Hall. cbn [forallb] in Hall. by apply andb_true_iff in Hall as [? _]. }
    destruct (H p p) as (block & size' & Hd & _ & Ha).
    + exists 3. split; [vm_compute; reflexivity|split; vm_compute; congruence].
    + rewrite E in Hs. exact Hs.
    + by apply is_packet_ok.
    + reflexivity.
    + exists p, block, size'. split; [reflexivity|]. split; [exact Hd|exact Ha].
Defined.
