(* ===== verification/SrpcPacks.v ===== *)
(** * SrpcPacks: the lists with captions (srpc_set_pack of supla-common/srpc.c)

    Lists whose items end with a caption are sent without the padding of the
    captions. [srpc_set_pack] makes the packet; the peer's [srpc_getpack] gives
    the list back. *)

From stdpp Require Import strings.
From S2P Require Import Prelude CLayout Proto CallIds Srpc ProtoTypes SrpcData SrpcReceive SrpcCalls.

(** ** The calls *)

Definition srpc_sc_async_locationpack_update : Z * pack_type :=
    (SUPLA_SC_CALL_LOCATIONPACK_UPDATE, locationpack).
Definition srpc_sc_async_channelpack_update : Z * pack_type := (SUPLA_SC_CALL_CHANNELPACK_UPDATE,
    channelpack).
Definition srpc_sc_async_channelpack_update_b : Z * pack_type :=
    (SUPLA_SC_CALL_CHANNELPACK_UPDATE_B, channelpack_b).
Definition srpc_sc_async_channelpack_update_c : Z * pack_type :=
    (SUPLA_SC_CALL_CHANNELPACK_UPDATE_C, channelpack_c).
Definition srpc_sc_async_channelpack_update_d : Z * pack_type :=
    (SUPLA_SC_CALL_CHANNELPACK_UPDATE_D, channelpack_d).
Definition srpc_sc_async_channelpack_update_e : Z * pack_type :=
    (SUPLA_SC_CALL_CHANNELPACK_UPDATE_E, channelpack_e).
Definition srpc_sc_async_channelgroup_pack_update : Z * pack_type :=
    (SUPLA_SC_CALL_CHANNELGROUP_PACK_UPDATE, channelgroup_pack).
Definition srpc_sc_async_channelgroup_pack_update_b : Z * pack_type :=
    (SUPLA_SC_CALL_CHANNELGROUP_PACK_UPDATE_B, channelgroup_pack_b).
Definition srpc_sc_async_scene_pack_update : Z * pack_type := (SUPLA_SC_CALL_SCENE_PACK_UPDATE,
    scene_pack).
Definition srpc_sc_async_scene_state_pack_update : Z * pack_type :=
    (SUPLA_SC_CALL_SCENE_STATE_PACK_UPDATE, scene_state_pack).

Definition pack_senders : list (Z * pack_type) := [srpc_sc_async_locationpack_update;
    srpc_sc_async_channelpack_update; srpc_sc_async_channelpack_update_b;
    srpc_sc_async_channelpack_update_c; srpc_sc_async_channelpack_update_d;
    srpc_sc_async_channelpack_update_e; srpc_sc_async_channelgroup_pack_update;
    srpc_sc_async_channelgroup_pack_update_b; srpc_sc_async_scene_pack_update;
    srpc_sc_async_scene_state_pack_update].

(** ** The lists with captions *)

Section set_pack.
Variable p : pack_type.

(** The loop over the [n] items from the [a]-th on: [buffer] holds what is packed,
    [kept] counts the items; [Some None]: no memory. An item with a caption that
    is too long is left out. *)
Fixpoint set_pack_items (realloc_ok : Z → bool) (n : nat) (a : Z) (pack buffer : list Z)
    (kept : Z) : option (option (list Z * Z)) :=
  match n with
  | O => Some (Some (buffer, kept))
  | S n =>
      ptr ← get_item_ptr p a;
      size ← get_item_caption_size p ptr pack;
      if size <=? pk_caption_max p then
        if realloc_ok a then
          item ← read_at pack ptr (sizeof (pk_item p) - pk_caption_max p + size);
          set_pack_items realloc_ok n (a + 1) pack (buffer ++ item) (kept + 1)
        else Some None
      else set_pack_items realloc_ok n (a + 1) pack buffer kept
  end.

Definition srpc_set_pack (malloc_ok : bool) (realloc_ok : Z → bool) (m : bool) (call_id : Z)
    (pack : list Z) (s : Tsrpc) : option (Z * Tsrpc * list srpc_event) :=
  count ← pack_get_count p pack;
  if (count <? 1) || (pk_max_count p <? count) then Some (0, s, [])
  else
    let size := pack_header_size p in
    if negb malloc_ok then Some (0, s, [])
    else
      buffer ← read_at pack 0 size;
      r ← set_pack_items realloc_ok (Z.to_nat count) 0 pack buffer 0;
      match r with
      | None => Some (0, s, [])
      | Some (buffer, n) =>
          buffer ← pack_set_count p buffer n false;
          srpc_async__call m call_id (Some buffer) (Z.of_nat (length buffer)) None s
      end.
End set_pack.

(** *** What the lists hold *)

(** The [i]-th item of a list, its caption cut; none if the caption is too long. *)
Definition packed_item (p : pack_type) (pack : list Z) (i : nat) : list (list Z) :=
  let isz := Z.to_nat (sizeof (pk_item p)) in
  let it := take isz (drop (Z.to_nat (pack_header_size p) + i * isz) pack) in
  match get_item_caption_size p 0 it with
  | Some size =>
      if size <=? pk_caption_max p then [take (Z.to_nat (c_header_size p + size)) it] else []
  | None => []
  end.

Definition packed_items (p : pack_type) (pack : list Z) (n : nat) : list (list Z) :=
  mjoin (packed_item p pack <$> seq 0 n).

(** What a list becomes: its header with the number of the items that are kept,
    and these items, each at the place of an item with zeros after its caption. *)
Definition pack_arrives (p : pack_type) (pack : list Z) (block : option cells) : Prop :=
  ∃ count header, pack_get_count p pack = Some count
  ∧ let its := packed_items p pack (Z.to_nat count) in
    assign ["count"%string] (pk_pack p) 0 (Z.of_nat (length its))
      (take (Z.to_nat (pack_header_size p)) pack) = Some header
    ∧ block = Some (Some <$> header ++ mjoin (pad_item p <$> its)).

Section set_pack_ok.
Variables (p : pack_type) (oc os ns : Z).
Hypothesis Hlay : pack_layout p oc os ns.

Notation hdr := (pack_header_size p).
Notation chdr := (c_header_size p).
Notation isz := (sizeof (pk_item p)).
Notation cap := (pk_caption_max p).

(** An item with the positions of the members. *)
Definition cut_item (pack : list Z) (i : nat) : list (list Z) :=
  let it := take (Z.to_nat isz) (drop (Z.to_nat hdr + i * Z.to_nat isz) pack) in
  let size := caption_size os ns it in
  if size <=? cap then [take (Z.to_nat (chdr + size)) it] else [].

Definition cut_items (pack : list Z) (from n : nat) : list (list Z) :=
  mjoin (cut_item pack <$> seq from n).

Lemma cut_items_length pack from n : (length (cut_items pack from n) <= n)%nat.
Proof.
  revert from. induction n as [|n IH]; intros from; [done|]. unfold cut_items in *.
  cbn [seq fmap list_fmap]. rewrite mjoin_cons, length_app. specialize (IH (S from)).
  unfold cut_item at 1. cbn zeta. case_match; cbn [length]; lia.
Qed.

(** The size of what is packed. *)
Lemma items_size its : Forall (item_travels p) its →
  Z.of_nat (length (mjoin its)) <= Z.of_nat (length its) * isz.
Proof using Hlay.
  pose proof (pack_sizes _ _ _ _ Hlay) as (? & ? & ? & ? & _).
  induction 1 as [|it its (_ & size & _ & Hs & Hlen) _ IH]; [done|].
  rewrite mjoin_cons, length_app. cbn [length]. lia.
Qed.

Section items.
Variable pack : list Z.
Hypothesis Hb : bytes pack.
Hypothesis Hl : Z.of_nat (length pack) = sizeof (pk_pack p).

Lemma item_bounds i : Z.of_nat i < pk_max_count p →
  let it := take (Z.to_nat isz) (drop (Z.to_nat hdr + i * Z.to_nat isz) pack) in
  length it = Z.to_nat isz ∧ bytes it ∧ 0 <= caption_size os ns it < 2 ^ 32.
Proof using Hlay Hb Hl.
  intros Hi. cbn zeta. pose proof (pack_sizes _ _ _ _ Hlay) as (? & ? & ? & ? & ? & ? & ?).
  set (it := take _ _). assert (length it = Z.to_nat isz) as Hit.
  { unfold it. rewrite length_take, length_drop. nia. }
  assert (bytes it) as Hbi by (by apply Forall_take, Forall_drop).
  split; [done|]. split; [done|]. apply (caption_size_range _ _ _ _ Hlay); [done|].
  pose proof (pl_size_in _ _ _ _ Hlay). lia.
Qed.

Lemma cut_item_travels i it : Z.of_nat i < pk_max_count p → it ∈ cut_item pack i → item_travels p it.
Proof using Hlay Hb Hl.
  intros Hi Hin. destruct (item_bounds i Hi) as (Hlen & Hbi & Hc).
  pose proof (pack_sizes _ _ _ _ Hlay) as (? & ? & ? & ? & ? & ? & ?).
  pose proof (pl_size_in _ _ _ _ Hlay). unfold cut_item in Hin. cbn zeta in Hin.
  set (full := take (Z.to_nat isz) _) in *.
  destruct (Z.leb_spec (caption_size os ns full) cap) as [Hle|]; [|by apply elem_of_nil in Hin].
  apply list_elem_of_singleton in Hin as ->.
  set (k := Z.to_nat (chdr + caption_size os ns full)).
  assert (caption_size os ns (take k full) = caption_size os ns full) as E.
  { rewrite <- (take_drop k full) at 2. symmetry.
    apply (caption_size_app _ _ _ _ Hlay). rewrite length_take. lia. }
  assert (item_wf p os ns (take k full)) as Hwf.
  { unfold item_wf. rewrite E, length_take. split; [by apply Forall_take|]. lia. }
  split; [by apply Forall_take|]. exists (caption_size os ns (take k full)).
  split; [by apply (item_wf_size _ _ _ _ Hlay)|apply Hwf].
Qed.

Lemma cut_items_travel from n :
  Z.of_nat (from + n) <= pk_max_count p → Forall (item_travels p) (cut_items pack from n).
Proof using Hlay Hb Hl.
  revert from. induction n as [|n IH]; intros from Hn; [constructor|]. unfold cut_items.
  cbn [seq fmap list_fmap]. rewrite mjoin_cons. apply Forall_app. split; [|apply IH; lia].
  apply Forall_forall. intros it. apply cut_item_travels. lia.
Qed.

(** The loop packs the items that are cut. *)
Lemma set_pack_items_ok realloc_ok n : ∀ from buffer kept,
  Z.of_nat (from + n) <= pk_max_count p →
  ∃ r, set_pack_items p realloc_ok n (Z.of_nat from) pack buffer kept = Some r
  ∧ (r = None
     ∨ r = Some (buffer ++ mjoin (cut_items pack from n),
                 kept + Z.of_nat (length (cut_items pack from n)))).
Proof using Hlay Hb Hl.
  pose proof (pack_sizes _ _ _ _ Hlay) as (? & ? & ? & ? & ? & ? & ?).
  pose proof (pl_size_in _ _ _ _ Hlay) as Hsi.
  induction n as [|n IH]; intros from buffer kept Hn; cbn [set_pack_items].
  { eexists. split; [done|]. right. cbn. by rewrite app_nil_r, Z.add_0_r. }
  destruct (item_bounds from ltac:(lia)) as (Hlen & Hbi & Hc). cbn zeta in Hlen, Hbi, Hc.
  unfold cut_items in *. cbn [seq fmap list_fmap]. rewrite mjoin_cons.
  unfold cut_item at 1 3. cbn zeta.
  set (it := take (Z.to_nat isz) (drop (Z.to_nat hdr + from * Z.to_nat isz) pack)) in *.
  unfold get_item_ptr. destruct (pl_items _ _ _ _ Hlay) as [ti Hti]. rewrite Hti.
  cbn [mbind option_bind].
  assert (get_item_caption_size p (hdr + Z.of_nat from * isz) pack
          = Some (caption_size os ns it)) as ->.
  { unfold get_item_caption_size, value_of. rewrite (pl_size _ _ _ _ Hlay).
    cbn [mbind option_bind]. rewrite int_at_Some by nia. cbn zeta. f_equal. unfold caption_size.
    f_equal. unfold it. rewrite skipn_firstn_comm, take_take, drop_drop.
    rewrite Nat.min_l by lia. do 2 f_equal. nia. }
  cbn [mbind option_bind].
  replace (Z.of_nat from + 1) with (Z.of_nat (S from)) by lia.
  destruct (Z.leb_spec (caption_size os ns it) cap) as [Hle|Hgt].
  - destruct (realloc_ok (Z.of_nat from)); [|eexists; split; [done|by left]].
    assert (read_at pack (hdr + Z.of_nat from * isz) (isz - cap + caption_size os ns it)
            = Some (take (Z.to_nat (chdr + caption_size os ns it)) it)) as ->.
    { rewrite read_at_Some by nia. f_equal.
      replace (isz - cap + caption_size os ns it) with (chdr + caption_size os ns it) by lia.
      set (k := Z.to_nat (chdr + caption_size os ns it)).
      assert (k <= Z.to_nat isz)%nat as Hk by (unfold k; lia). clearbody k.
      unfold it. rewrite take_take, Nat.min_l by lia. do 2 f_equal. nia. }
    cbn [mbind option_bind].
    destruct (IH (S from) (buffer ++ take (Z.to_nat (chdr + caption_size os ns it)) it) (kept + 1))
      as (r & Hr & Hc2); [lia|].
    exists r. split; [exact Hr|]. destruct Hc2 as [->| ->]; [by left|]. right. do 2 f_equal.
    + cbn [app]. rewrite mjoin_cons, <- app_assoc. done.
    + rewrite length_app. cbn [length]. lia.
  - destruct (IH (S from) buffer kept) as (r & Hr & Hc2); [lia|]. exists r. split; [exact Hr|].
    cbn [app]. exact Hc2.
Qed.

Lemma packed_items_cut n :
  Z.of_nat n <= pk_max_count p → packed_items p pack n = cut_items pack 0 n.
Proof using Hlay Hb Hl.
  intros Hn. unfold packed_items, cut_items. f_equal. apply list_fmap_ext. intros k i Hi.
  apply lookup_seq in Hi as [-> Hk]. destruct (item_bounds k ltac:(lia)) as (Hlen & _ & _).
  unfold packed_item, cut_item. cbn zeta in *.
  set (it := take (Z.to_nat isz) _) in *.
  assert (get_item_caption_size p 0 it = Some (caption_size os ns it)) as E; [|by rewrite E].
  pose proof (pl_size_in _ _ _ _ Hlay). pose proof (pack_sizes _ _ _ _ Hlay) as (? & ? & ? & ? & _).
  unfold get_item_caption_size, value_of. rewrite (pl_size _ _ _ _ Hlay).
  cbn [mbind option_bind]. rewrite int_at_Some by lia. cbn zeta. by rewrite Z.add_0_l.
Qed.

(** The function returns 0, or sends the header with the number of items kept and
    these items. *)
Lemma set_pack_buffer ma re m call_id s :
  srpc_set_pack p ma re m call_id pack s = Some (0, s, [])
  ∨ ∃ count, pack_get_count p pack = Some count ∧ 1 <= count <= pk_max_count p ∧ count < 2 ^ 31 ∧
    let its := cut_items pack 0 (Z.to_nat count) in
    let buffer := header_with oc (take (Z.to_nat hdr) pack) (Z.of_nat (length its)) ++ mjoin its in
    srpc_set_pack p ma re m call_id pack s
    = srpc_async__call m call_id (Some buffer) (Z.of_nat (length buffer)) None s.
Proof using Hlay Hb Hl.
  pose proof (pack_sizes _ _ _ _ Hlay) as (? & ? & ? & ? & ? & ? & ?).
  pose proof (pl_count_in _ _ _ _ Hlay) as Hci.
  assert (hdr <= sizeof (pk_pack p)) as Hhp by nia.
  assert (∃ count, pack_get_count p pack = Some count) as [count Hcount].
  { unfold pack_get_count, value_of. rewrite (pl_count _ _ _ _ Hlay). cbn [mbind option_bind].
    rewrite int_at_Some by lia. by eexists. }
  unfold srpc_set_pack. rewrite Hcount. cbn [mbind option_bind].
  destruct ((count <? 1) || (pk_max_count p <? count)) eqn:Ec; [by left|].
  apply orb_false_iff in Ec as [Hc1 Hc2]. apply Z.ltb_ge in Hc1, Hc2. cbn zeta.
  destruct ma; cbn [negb]; [|by left].
  rewrite read_at_Some by lia. cbn [mbind option_bind].
  change (Z.to_nat 0) with 0%nat. rewrite drop_0.
  set (h := take (Z.to_nat hdr) pack) in *.
  assert (Z.of_nat (length h) = hdr) as Hh by (unfold h; rewrite length_take; lia).
  destruct (set_pack_items_ok re (Z.to_nat count) 0 h 0 ltac:(lia)) as (x & Hx & Hcase).
  change (Z.of_nat 0) with 0 in Hx. rewrite Hx. cbn [mbind option_bind].
  destruct Hcase as [->| ->]; [by left|]. right. exists count.
  assert (count < 2 ^ 31) as Hc31 by nia. split; [done|]. split; [done|]. split; [done|].
  pose proof (cut_items_length pack 0 (Z.to_nat count)) as Hlen.
  set (its := cut_items pack 0 (Z.to_nat count)) in *. rewrite Z.add_0_l.
  unfold pack_set_count.
  assert (∃ old, pack_get_count p (h ++ mjoin its) = Some old) as [old ->].
  { unfold pack_get_count, value_of. rewrite (pl_count _ _ _ _ Hlay). cbn [mbind option_bind].
    rewrite int_at_Some by (rewrite ?length_app; lia). by eexists. }
  cbn [mbind option_bind]. rewrite u32_id by (unfold is_u32; lia).
  by rewrite (assign_count _ _ _ _ Hlay).
Qed.

Lemma set_pack_arrives ma re m call_id s r s' evs pkt q :
  getdata_decoder call_id = Some (Packed p) →
  srpc_set_pack p ma re m call_id pack s = Some (r, s', evs) → accepted evs = [pkt] →
  packet_ok q → payload q = payload pkt →
  ∃ block size', getdata_decode true (sdp_call_id q) (sdp_data_size q) (sdp_data q)
                 = Some (SUPLA_RESULT_TRUE, block, size')
                 ∧ sdp_call_id q = call_id ∧ pack_arrives p pack block.
Proof using Hlay Hb Hl.
  intros Hdec H Hp [_ Hq] Hpay. pose proof (pack_sizes _ _ _ _ Hlay) as (? & ? & ? & ? & ? & ? & ?).
  destruct (set_pack_buffer ma re m call_id s) as [E|(count & Hcount & Hcm & Hc31 & E)];
    rewrite E in H; [by simplify_eq|]. clear E. set (h := take (Z.to_nat hdr) pack) in *.
  assert (Z.of_nat (length h) = hdr) as Hh by (unfold h; rewrite length_take; nia).
  set (its := cut_items pack 0 (Z.to_nat count)) in *.
  pose proof (cut_items_length pack 0 (Z.to_nat count)) as Hlen. fold its in Hlen.
  assert (Forall (item_travels p) its) as Htr by (apply cut_items_travel; lia).
  pose proof (items_size its Htr) as Hisz.
  set (hd := header_with oc h (Z.of_nat (length its))) in *.
  assert (Z.of_nat (length hd) = hdr) as Hhd
    by (unfold hd; by rewrite (header_with_length _ _ _ _ Hlay)).
  destruct (async_call_packet m call_id (Some (hd ++ mjoin its))
    (Z.of_nat (length (hd ++ mjoin its))) s r s' evs pkt ltac:(lia)
    ltac:(intros ? E; injection E as <-; apply Z.le_refl) H Hp) as (Hcall & Hsp & Hmax & Hlp & Ht).
  destruct (payload_same pkt q) as (Hcq & Hsq & Htq); [lia|apply Hq|done|apply Hq|done|].
  rewrite Hsq, Hsp, Hcq, Hcall in *. cbn [default] in Ht. unfold id in Ht.
  rewrite (Nat2Z.id (length _)), firstn_all in *. rewrite Ht in Htq.
  assert (pack_arrives p pack (Some (Some <$> hd ++ mjoin (pad_item p <$> its)))) as Harr.
  { exists count, hd. split; [done|]. cbn zeta. rewrite packed_items_cut by lia. fold its h.
    split; [|done]. pose proof (assign_count _ _ _ _ Hlay h (Z.of_nat (length its)) [] Hh) as Ha.
    by rewrite !app_nil_r in Ha. }
  assert (take (Z.to_nat hdr) (sdp_data q) = hd) as Hhq.
  { rewrite <- (take_app_length hd (mjoin its)), <- Htq, take_take. f_equal.
    rewrite length_app. lia. }
  assert (length (hd ++ mjoin its) = (length hd + length (mjoin its))%nat) as Hsize
    by apply length_app.
  destruct (getdata_decode_complete call_id (Packed p) (Z.of_nat (length (hd ++ mjoin its)))
    (sdp_data q) (Some (Some <$> hd ++ mjoin (pad_item p <$> its))) Hq Hdec) as (z & E).
  - exists its. rewrite Nat2Z.id, Htq, Hhq. split; [done|]. split.
    + apply (get_count_header _ _ _ _ Hlay); [done|lia].
    + split; [lia|]. split; [nia|]. split; [done|done].
  - do 2 eexists. split; [exact E|]. by split.
Qed.
End items.
End set_pack_ok.

Lemma pack_senders_decoded :
  Forall (λ c, getdata_decoder c.1 = Some (Packed c.2)) pack_senders.
Proof. unfold pack_senders. repeat apply Forall_cons_2; [vm_compute; reflexivity..|constructor]. Qed.

(** The lists with captions arrive, for every such call and every content of the
    list: the function stays within the list, and when the call is accepted for
    sending, the peer accepts the packet and has a list with the same header and
    the items whose captions are not too long, in their order, their number in
    the counter, with zeros after the captions; the packet carries the captions
    without their padding. *)
Theorem pack_call_arrives ma re m c p pack s b il ol
    (Hc : (c, p) ∈ pack_senders) (Hpack : bytes pack)
    (Hl : Z.of_nat (length pack) = sizeof (pk_pack p)) (Hs : srpc_ok s b il ol) :
  ∃ r s' evs, srpc_set_pack p ma re m c pack s = Some (r, s', evs)
  ∧ ∀ pkt q, accepted evs = [pkt] → packet_ok q → payload q = payload pkt →
    ∃ block size', getdata_decode true (sdp_call_id q) (sdp_data_size q) (sdp_data q)
                   = Some (SUPLA_RESULT_TRUE, block, size')
                   ∧ sdp_call_id q = c ∧ pack_arrives p pack block.
Proof.
  pose proof pack_senders_decoded as Hdec. rewrite Forall_forall in Hdec.
  specialize (Hdec _ Hc). cbn [fst snd] in Hdec.
  destruct (pack_ok_layout p (getdata_decoder_ok _ _ Hdec)) as (oc & os & ns & Hlay).
  assert (∃ r s' evs, srpc_set_pack p ma re m c pack s = Some (r, s', evs)) as (r & s' & evs & E).
  { destruct (set_pack_buffer p oc os ns Hlay pack Hpack Hl ma re m c s)
      as [->|(count & _ & _ & _ & ->)]; [by do 3 eexists|].
    eapply async_call_total; [exact Hs|lia|]. intros ? E. injection E as <-. apply Z.le_refl. }
  exists r, s', evs. split; [done|]. intros. by eapply set_pack_arrives.
Qed.

(** A list with two locations, the second with a caption that is too long. *)
Definition locations_ex : list Z :=
  [2; 0; 0; 0; 5; 0; 0; 0] ++ location_ex
  ++ [1; 8; 0; 0; 0; 0; 4; 0; 0] ++ replicate (Z.to_nat SUPLA_LOCATION_CAPTION_MAXSIZE) 0
  ++ replicate (Z.to_nat (18 * sizeof TSC_SuplaLocation)) 0.

Lemma pack_call_arrives_witness :
  ∃ p block size',
    sent_by (srpc_set_pack locationpack true (λ _, true) true SUPLA_SC_CALL_LOCATIONPACK_UPDATE
               locations_ex srpc_init) = [p]
  ∧ getdata_decode true (sdp_call_id p) (sdp_data_size p) (sdp_data p)
    = Some (SUPLA_RESULT_TRUE, block, size')
  ∧ pack_arrives locationpack locations_ex block.
Proof.
  destruct (pack_call_arrives true (λ _, true) true SUPLA_SC_CALL_LOCATIONPACK_UPDATE locationpack
    locations_ex srpc_init [] [] []) as (r & s' & evs & E & H).
  - apply list_elem_of_here.
  - apply bytes_check. vm_compute. reflexivity.
  - vm_compute. reflexivity.
  - exact srpc_ok_init.
  - set (sent := sent_by (srpc_set_pack locationpack true (λ _, true) true
      SUPLA_SC_CALL_LOCATIONPACK_UPDATE locations_ex srpc_init)).
    assert (sent = accepted evs) as Hs by (unfold sent; rewrite E; reflexivity).
    assert (length sent = 1%nat ∧ forallb is_packet sent = true) as [Hlen Hp]
      by (vm_compute; split; reflexivity).
    destruct sent as [|p [|]]; [discriminate| |discriminate].
    cbn [forallb] in Hp. apply andb_true_iff in Hp as [Hp _].
    destruct (H p p (eq_sym Hs) (is_packet_ok p Hp) eq_refl) as (block & size' & Hd & _ & Ha).
    exists p, block, size'. split; [reflexivity|]. split; [exact Hd|exact Ha].
Defined.
