(* ===== verification/SrpcChunks.v ===== *)
(** * SrpcChunks: registration in chunks (srpc_ds_async_registerdevice_in_chunks, _g)

    A device with little memory writes its registration without the packet: the
    header, then the channels one by one from a callback, then the end tag, past
    the output queue of the connection. *)

From stdpp Require Import strings.
From S2P Require Import Prelude CLayout Proto CallIds Srpc ProtoTypes SrpcData SrpcReceive SrpcCalls.

Open Scope string_scope.

Section in_chunks.
Variables (call_id : Z) (channel : ctype).

(** The loop; [get_channel_data_callback i = None] is the null pointer. *)
Fixpoint write_channels (get_channel_data_callback : Z → option (list Z)) (n : nat) (i : Z)
    : option (list srpc_event) :=
  match n with
  | O => Some []
  | S n =>
      match get_channel_data_callback i with
      | None => write_channels get_channel_data_callback n (i + 1)%Z
      | Some data =>
          written ← read_at data 0 (sizeof channel);
          evs ← write_channels get_channel_data_callback n (i + 1)%Z;
          Some (EvWrite written :: evs)
      end
  end.

Definition registerdevice_in_chunks (registerdevice : list Z)
    (get_channel_data_callback : Z → option (list Z)) (s : Tsrpc)
    : option (Z * Tsrpc * list srpc_event) :=
  let t := TDS_SuplaRegisterDeviceHeader in
  count ← value_of ["channel_count"] t 0 registerdevice;
  let full_size := i32 (sizeof t + sizeof channel * count) in
  if negb (srpc_call_allowed s call_id) then
    Some (SUPLA_RESULT_FALSE, s,
          [EvMinVersionRequired call_id (srpc_call_min_version_required call_id)])
  else
    let before := EvBeforeAsyncCall call_id in
    let '(sdp, proto) := sproto_sdp_init (srpc_proto s) in
    '(r, sdp) ← sproto_set_data sdp (Some registerdevice) (sizeof t) call_id;
    if (r =? SUPLA_RESULT_TRUE)%Z then
      let sdp := set_data_size (u32 full_size) sdp in
      let header_size := (SIZEOF_SDP - SUPLA_MAX_DATA_SIZE + sizeof t)%Z in
      header ← read_at (sdp_bytes sdp) 0 header_size;
      evs ← write_channels get_channel_data_callback (Z.to_nat count) 0;
      Some (i32 (sdp_rr_id sdp), set_sdp sdp (set_proto proto s),
            [before; EvWrite header] ++ evs ++ [EvWrite sproto_tag])%list
    else Some (SUPLA_RESULT_FALSE, set_sdp sdp (set_proto proto s), [before]).
End in_chunks.

Definition srpc_ds_async_registerdevice_in_chunks :=
  registerdevice_in_chunks SUPLA_DS_CALL_REGISTER_DEVICE_F TDS_SuplaDeviceChannel_D.
Definition srpc_ds_async_registerdevice_in_chunks_g :=
  registerdevice_in_chunks SUPLA_DS_CALL_REGISTER_DEVICE_G TDS_SuplaDeviceChannel_E.

Close Scope string_scope.

(** ** Registration in chunks *)

(** The [i]-th channel of a registration in memory. *)
Definition channel_of (channel : ctype) (mem : list Z) (i : Z) : option (list Z) :=
  let size := Z.to_nat (sizeof channel) in
  Some (take size (drop (Z.to_nat (sizeof TDS_SuplaRegisterDeviceHeader) + Z.to_nat i * size) mem)).

Definition header_of (mem : list Z) : list Z :=
  take (Z.to_nat (sizeof TDS_SuplaRegisterDeviceHeader)) mem.

Lemma write_channels_ok channel mem n : 0 < sizeof channel → ∀ i, 0 <= i →
  sizeof TDS_SuplaRegisterDeviceHeader + (i + Z.of_nat n) * sizeof channel
    <= Z.of_nat (length mem) →
  ∃ evs, write_channels channel (channel_of channel mem) n i = Some evs
  ∧ written evs = take (n * Z.to_nat (sizeof channel))
      (drop (Z.to_nat (sizeof TDS_SuplaRegisterDeviceHeader) + Z.to_nat i * Z.to_nat (sizeof channel)) mem).
Proof.
  set (h := sizeof TDS_SuplaRegisterDeviceHeader). assert (0 <= h) as Hh by done.
  intros Hc. induction n as [|n IH]; intros i Hi Hl; cbn [write_channels].
  { eexists. split; [done|]. by rewrite take_0. }
  unfold channel_of at 1. cbn zeta. fold h.
  set (rest := drop (Z.to_nat h + Z.to_nat i * Z.to_nat (sizeof channel)) mem).
  assert (Z.to_nat (sizeof channel) <= length rest)%nat as Hr.
  { unfold rest. rewrite length_drop. nia. }
  rewrite read_at_Some by (rewrite ?length_take; lia). change (Z.to_nat 0) with 0%nat.
  rewrite drop_0, take_take, Nat.min_id. cbn [mbind option_bind].
  destruct (IH (i + 1) ltac:(lia) ltac:(lia)) as (evs & -> & Hw). cbn [mbind option_bind].
  eexists. split; [done|].
  change (written (EvWrite ?d :: ?l)) with (d ++ written l). rewrite Hw.
  replace (drop (Z.to_nat h + Z.to_nat (i + 1) * Z.to_nat (sizeof channel)) mem)
    with (drop (Z.to_nat (sizeof channel)) rest) by (unfold rest; rewrite drop_drop; f_equal; nia).
  cbn [Nat.mul]. rewrite <- (take_drop (Z.to_nat (sizeof channel)) rest) at 3.
  rewrite take_app, length_take, Nat.min_l by lia.
  rewrite take_take, Nat.min_r by lia. do 2 f_equal. lia.
Qed.

(** What two structures of a registration share. *)
Definition chunked (t channel : ctype) : Prop :=
  sizeof t = sizeof TDS_SuplaRegisterDeviceHeader + sizeof channel * SUPLA_CHANNELMAXCOUNT
  ∧ 0 < sizeof channel < 1000
  ∧ ∃ o, place ["channel_count"%string] t = Some (o, uchar)
         ∧ place ["channel_count"%string] TDS_SuplaRegisterDeviceHeader = Some (o, uchar)
         ∧ 0 <= o ∧ o + 1 <= sizeof TDS_SuplaRegisterDeviceHeader.

(** The number of channels, in the structure and in its header. *)
Lemma channel_count_same t channel mem :
  chunked t channel → bytes mem → Z.of_nat (length mem) = sizeof t →
  ∃ v, value_of ["channel_count"%string] t 0 mem = Some v
       ∧ value_of ["channel_count"%string] TDS_SuplaRegisterDeviceHeader 0 (header_of mem) = Some v
       ∧ 0 <= v < 256.
Proof.
  intros (Ht & Hc & o & Hp1 & Hp2 & Ho & Hoh) Hb Hl. unfold SUPLA_CHANNELMAXCOUNT in *.
  set (h := sizeof TDS_SuplaRegisterDeviceHeader) in *.
  assert (Z.of_nat (length (header_of mem)) = h) as Hlh
    by (unfold header_of; fold h; rewrite length_take; lia).
  unfold value_of. rewrite Hp1, Hp2. cbn [mbind option_bind]. unfold uchar.
  rewrite !int_at_Some by lia. cbn zeta. rewrite Z.add_0_l. eexists. split; [done|].
  assert (take (Z.to_nat 1) (drop (Z.to_nat o) (header_of mem))
          = take (Z.to_nat 1) (drop (Z.to_nat o) mem)) as ->.
  { unfold header_of. fold h. rewrite skipn_firstn_comm, take_take. f_equal. lia. }
  split; [done|]. set (l := take (Z.to_nat 1) (drop (Z.to_nat o) mem)).
  assert (length l = 1%nat) as Hl1 by (unfold l; rewrite length_take, length_drop; lia).
  pose proof (of_le_range l ltac:(by apply Forall_take, Forall_drop)) as Hr.
  rewrite Hl1 in Hr. exact Hr.
Qed.

(** What the chunks are together. *)
Lemma in_chunks_written call_id channel mem s v :
  let h := sizeof TDS_SuplaRegisterDeviceHeader in
  let size := h + sizeof channel * v in
  let id := next_rr_id (spd_next_rr_id (srpc_proto s)) in
  value_of ["channel_count"%string] TDS_SuplaRegisterDeviceHeader 0 (header_of mem) = Some v →
  0 <= v < 256 → 0 < sizeof channel < 1000 → size <= Z.of_nat (length mem) →
  srpc_call_allowed s call_id = true →
  ∃ s2 evs2, registerdevice_in_chunks call_id channel (header_of mem) (channel_of channel mem) s
             = Some (i32 id, s2, evs2)
  ∧ written evs2 = sdp_header (SDP sproto_tag (spd_version (srpc_proto s)) id call_id size [])
                   ++ take (Z.to_nat size) mem ++ sproto_tag.
Proof.
  cbn zeta. set (h := sizeof TDS_SuplaRegisterDeviceHeader). intros Hvh Hv Hc Hl Hal.
  assert (0 < h <= 10240) as Hh by (split; vm_compute; congruence).
  assert (0 <= h + sizeof channel * v < 2 ^ 31) as Hsz by nia.
  assert (Z.of_nat (length (header_of mem)) = h) as Hlh
    by (unfold header_of; fold h; rewrite length_take; nia).
  unfold registerdevice_in_chunks. rewrite Hvh. cbn [mbind option_bind]. cbn zeta. fold h.
  rewrite Hal. cbn [negb]. unfold sproto_sdp_init. cbn zeta. set (sdp0 := SDP _ _ _ _ _ _).
  pose proof (set_data_ok sdp0 (Some (header_of mem)) h call_id ltac:(lia)
    ltac:(intros ? E; injection E as <-; lia) eq_refl eq_refl) as Hset.
  assert (data_refused (Some (header_of mem)) h = false) as Hnr.
  { unfold data_refused. rewrite bool_decide_false, andb_false_r by done.
    by rewrite (proj2 (Z.ltb_ge _ _)) by (unfold SUPLA_MAX_DATA_SIZE; lia). }
  rewrite Hnr in Hset. destruct Hset as (sdp & Hset & [Htg _ Hld] & Hrr & Hv2 & Hc2 & _ & Ht2).
  rewrite Hset. cbn [mbind option_bind]. rewrite Z.eqb_refl.
  rewrite (i32_id (h + _)) by (unfold is_i32; lia). rewrite u32_id by (unfold is_u32; lia).
  set (size := h + sizeof channel * v) in *. set (head := sdp_header _).
  assert (sdp_bytes (set_data_size size sdp) = head ++ sdp_data sdp) as ->.
  { unfold sdp_bytes, head, sdp_header, set_data_size.
    cbn [sdp_tag sdp_version sdp_rr_id sdp_call_id sdp_data_size sdp_data].
    rewrite Htg, Hv2, Hrr, Hc2. done. }
  assert (length head = 18%nat) as H18 by done. unfold SUPLA_MAX_DATA_SIZE in Hld.
  change (SIZEOF_SDP - SUPLA_MAX_DATA_SIZE) with 18.
  rewrite read_at_Some by (rewrite ?length_app; lia). change (Z.to_nat 0) with 0%nat.
  rewrite drop_0. cbn [mbind option_bind].
  destruct (write_channels_ok channel mem (Z.to_nat v) ltac:(lia) 0 ltac:(lia))
    as (evs & -> & Hw); [fold h; unfold size in *; lia|]. cbn [mbind option_bind].
  do 2 eexists. split; [cbn [set_data_size sdp_rr_id]; by rewrite Hrr|].
  change (written ([EvBeforeAsyncCall call_id; EvWrite ?d] ++ ?l)) with (d ++ written l).
  rewrite written_app, Hw. change (written [EvWrite sproto_tag]) with (sproto_tag ++ []).
  rewrite app_nil_r, take_app, H18, take_ge, <- app_assoc by lia. fold h. f_equal.
  replace (Z.to_nat (18 + h) - 18)%nat with (Z.to_nat h) by lia.
  cbn [default] in Ht2. unfold id, header_of in Ht2. fold h in Ht2.
  rewrite Ht2, take_take, Nat.min_id, app_assoc. f_equal.
  change (Z.to_nat 0) with 0%nat. rewrite Nat.mul_0_l, Nat.add_0_r, take_take_drop. unfold size.
  f_equal. nia.
Qed.

Lemma chunks_written call_id t channel m mem s r1 s1 evs1 p :
  chunked t channel → sizeof t < 2 ^ 24 →
  srpc_send m (Struct call_id false [] t channel [["channel_count"%string]] SUPLA_CHANNELMAXCOUNT true)
    (Some mem) s = Some (r1, s1, evs1) → accepted evs1 = [p] →
  bytes mem → Z.of_nat (length mem) = sizeof t →
  ∃ s2 evs2, registerdevice_in_chunks call_id channel (header_of mem) (channel_of channel mem) s
             = Some (r1, s2, evs2)
  ∧ written evs2 = wire p.
Proof.
  intros Hch Ht24 Hsend Hp Hb Hl.
  destruct (channel_count_same t channel mem Hch Hb Hl) as (v & Hv & Hvh & Hvr).
  destruct Hch as (Ht & Hc & _). set (h := sizeof TDS_SuplaRegisterDeviceHeader) in *.
  assert (0 < h <= 10240) as Hh by (split; vm_compute; congruence).
  unfold SUPLA_CHANNELMAXCOUNT in *. unfold srpc_send, async_args in Hsend.
  cbn [andb any_refuses mbind option_bind count_of sum_of sender_call] in Hsend.
  rewrite Hv in Hsend. cbn [mbind option_bind] in Hsend. cbn zeta in Hsend. rewrite Z.add_0_r in Hsend.
  replace (sizeof t - sizeof channel * 128 + sizeof channel * v) with (h + sizeof channel * v)
    in Hsend by lia.
  assert (0 <= h + sizeof channel * v < 2 ^ 31) as Hsz by nia.
  rewrite (u64_id (h + _)), (i32_id (h + _)), (u64_id (h + _)), (u32_id (h + _)) in Hsend
    by (unfold is_i32, is_u32; lia).
  destruct (Z.ltb_spec (sizeof t) (h + sizeof channel * v)) as [|Hle]; [by simplify_eq|].
  destruct (async_call_full m call_id (Some mem) (h + sizeof channel * v) s r1 s1 evs1 p (proj1 Hsz)
    ltac:(intros ? E; injection E as <-; lia) Hsend Hp)
    as ((Hcall & Hsp & Hmax & Hlp & Htk) & Hal & -> & Htag & Hver & Hrr).
  cbn [default] in Htk. unfold id in Htk.
  destruct (in_chunks_written call_id channel mem s v Hvh Hvr Hc ltac:(fold h; lia) Hal)
    as (s2 & evs2 & E & Hw). fold h in Hw.
  rewrite Hrr. exists s2, evs2. split; [exact E|]. rewrite Hw. unfold wire, sdp_bytes. rewrite Hsp.
  rewrite app_assoc. f_equal.
  assert (length (sdp_header p) = 18%nat) as H18 by (unfold sdp_header; by rewrite !length_app, Htag).
  rewrite take_app, H18, (take_ge (sdp_header p)) by lia. f_equal.
  - unfold sdp_header. cbn [sdp_tag sdp_version sdp_rr_id sdp_call_id sdp_data_size].
    by rewrite Htag, Hver, Hrr, Hcall, Hsp.
  - replace (Z.to_nat (18 + (h + sizeof channel * v)) - 18)%nat
      with (Z.to_nat (h + sizeof channel * v)) by lia. by rewrite Htk.
Qed.

(** Registration in chunks is registration. A device that gives its header and its
    channels one at a time writes, to the byte, the packet that the registration
    with the whole structure would put in the output queue, and returns the same
    identifier; for both versions of the structure, whenever that registration
    is accepted. *)
Theorem registration_in_chunks_equiv m mem s r1 s1 evs1 p
    (Hmem : bytes mem)
    (Hp : accepted evs1 = [p]) :
  (Z.of_nat (length mem) = sizeof TDS_SuplaRegisterDevice_F →
   srpc_send m srpc_ds_async_registerdevice_f (Some mem) s = Some (r1, s1, evs1) →
   ∃ s2 evs2, srpc_ds_async_registerdevice_in_chunks (header_of mem)
                (channel_of TDS_SuplaDeviceChannel_D mem) s = Some (r1, s2, evs2)
     ∧ written evs2 = wire p)
  ∧ (Z.of_nat (length mem) = sizeof TDS_SuplaRegisterDevice_G →
     srpc_send m srpc_ds_async_registerdevice_g (Some mem) s = Some (r1, s1, evs1) →
     ∃ s2 evs2, srpc_ds_async_registerdevice_in_chunks_g (header_of mem)
                  (channel_of TDS_SuplaDeviceChannel_E mem) s = Some (r1, s2, evs2)
       ∧ written evs2 = wire p).
Proof.
  split; intros Hl Hsend; eapply chunks_written; try eassumption; try (by vm_compute).
  all: split; [by vm_compute|split; [by vm_compute|]]; eexists;
    (split; [vm_compute; reflexivity|split; [vm_compute; reflexivity|by vm_compute]]).
Qed.

(** A registration with one channel. *)
Definition registration_ex : list Z :=
  replicate (Z.to_nat (sizeof TDS_SuplaRegisterDeviceHeader) - 1) 65 ++ [1]
  ++ replicate (Z.to_nat (sizeof TDS_SuplaDeviceChannel_E * SUPLA_CHANNELMAXCOUNT)) 7.

Lemma registration_in_chunks_equiv_witness :
  ∃ s2 evs2 p, srpc_ds_async_registerdevice_in_chunks_g (header_of registration_ex)
                 (channel_of TDS_SuplaDeviceChannel_E registration_ex) srpc_init = Some (1, s2, evs2)
  ∧ sent_by (srpc_send true srpc_ds_async_registerdevice_g (Some registration_ex) srpc_init) = [p]
  ∧ written evs2 = wire p.
Proof.
  assert (length (sent_by (srpc_send true srpc_ds_async_registerdevice_g (Some registration_ex)
    srpc_init)) = 1%nat) as Hlen by (vm_compute; reflexivity).
  assert ((λ x, x.1.1) <$> srpc_send true srpc_ds_async_registerdevice_g (Some registration_ex)
    srpc_init = Some 1) as Hr by (vm_compute; reflexivity).
  destruct (srpc_send true srpc_ds_async_registerdevice_g (Some registration_ex) srpc_init)
    as [[[r1 s1] evs1]|] eqn:E; [|discriminate].
  cbn [sent_by] in *. destruct (accepted evs1) as [|p [|]] eqn:Ha; [discriminate| |discriminate].
  cbn in Hr. injection Hr as ->.
  destruct (registration_in_chunks_equiv true registration_ex srpc_init 1 s1 evs1 p) as [_ H].
  - apply bytes_check. vm_compute. reflexivity.
  - exact Ha.
  - destruct H as (s2 & evs2 & H1 & H2); [vm_compute; reflexivity|exact E|].
    exists s2, evs2, p. split; [exact H1|]. split; [reflexivity|exact H2].
Defined.
