(* ===== verification/AsyncTask.v ===== *)
(** * AsyncTask: one asynchronous task (supla-server/src/asynctask)

    The object [supla_abstract_asynctask]: its state machine, its delay and its
    timeout, and the notification of the observers.  Every operation is one
    locked section of the code, so that the queue and the threads of
    AsyncTaskQueue.v can interleave them. *)

From S2P Require Import Prelude.

(** ** The object *)

(** [supla_asynctask_state::_state_e] *)
Inductive state_e :=
  | INIT | WAITING | PICKED | EXECUTING | SUCCESS | FAILURE | TIMEOUT | CANCELED.

#[export] Instance state_e_eq_dec : EqDecision state_e.
Proof. solve_decision. Defined.

(** [delay_usec] and the priority are signed, [timeout_usec] is unsigned; the
    pool is known by its address. *)
Record asynctask := ATask {
  observable : bool;
  observer_notified : bool;
  state : state_e;
  delay_usec : Z;
  started_at : timeval;
  execution_request_time : timeval;
  execution_start_time : timeval;
  timeout_usec : Z;
  pool : Z;
  priority : Z
}.

Definition new_asynctask (pool : Z) : asynctask :=
  ATask false false INIT 0 timeval_zero timeval_zero timeval_zero 0 pool 0.

Definition with_state (st : state_e) (t : asynctask) : asynctask :=
  ATask (observable t) (observer_notified t) st (delay_usec t) (started_at t)
        (execution_request_time t) (execution_start_time t) (timeout_usec t)
        (pool t) (priority t).
Definition with_start_time (d : Z) (st : timeval) (t : asynctask) : asynctask :=
  ATask (observable t) (observer_notified t) (state t) d (started_at t)
        (execution_request_time t) st (timeout_usec t) (pool t) (priority t).
Definition with_request_time (r : timeval) (t : asynctask) : asynctask :=
  ATask (observable t) (observer_notified t) (state t) (delay_usec t) (started_at t)
        r (execution_start_time t) (timeout_usec t) (pool t) (priority t).
Definition with_started_at (r : timeval) (t : asynctask) : asynctask :=
  ATask (observable t) (observer_notified t) (state t) (delay_usec t) r
        (execution_request_time t) (execution_start_time t) (timeout_usec t)
        (pool t) (priority t).
Definition with_notified (t : asynctask) : asynctask :=
  ATask (observable t) true (state t) (delay_usec t) (started_at t)
        (execution_request_time t) (execution_start_time t) (timeout_usec t)
        (pool t) (priority t).

(** ** The operations *)

Definition set_priority (p : Z) (t : asynctask) : asynctask :=
  if decide (state t = INIT)
  then ATask (observable t) (observer_notified t) (state t) (delay_usec t)
             (started_at t) (execution_request_time t) (execution_start_time t)
             (timeout_usec t) (pool t) p
  else t.

Definition set_observable (t : asynctask) : asynctask :=
  if negb (observable t)
  then ATask true (observer_notified t) (state t) (delay_usec t) (started_at t)
             (execution_request_time t) (execution_start_time t) (timeout_usec t)
             (pool t) (priority t)
  else t.

(** [set_delay_usec]; the flag tells whether the event of the queue is raised. *)
Definition set_delay_usec (now : timeval) (delay : Z) (t : asynctask)
    : asynctask * bool :=
  let est :=
    if 0 <? delay
    then Timeval (tv_sec now + Z.quot delay 1000000) (tv_usec now + Z.rem delay 1000000)
    else now in
  let t' := with_start_time delay est t in
  (t', negb (bool_decide (state t' = EXECUTING))).

Definition set_timeout (timeout : Z) (t : asynctask) : asynctask :=
  ATask (observable t) (observer_notified t) (state t) (delay_usec t) (started_at t)
        (execution_request_time t) (execution_start_time t) timeout
        (pool t) (priority t).

Definition time_diff_usec (now then_ : timeval) (default : Z) : Z :=
  if negb (tv_sec then_ =? 0) || negb (tv_usec then_ =? 0)
  then usec_of then_ - usec_of now
  else default.

Definition time_left_usec (now : timeval) (t : asynctask) : Z :=
  time_diff_usec now (execution_start_time t) 0.

(** The first section of [start]; [true] when the task has left [INIT]. *)
Definition start_begin (t : asynctask) : asynctask * bool :=
  if decide (state t = INIT) then (with_state WAITING t, true) else (t, false).

Definition pick_task (t : asynctask) : asynctask * bool :=
  if decide (state t = WAITING) then (with_state PICKED t, true) else (t, false).

(** The first section of [execute]: the new state, whether the execution is
    allowed, and [usec_after_timeout]. *)
Definition execute_begin (now : timeval) (t : asynctask) : asynctask * bool * Z :=
  let exec_allowed := bool_decide (state t = PICKED) in
  let '(t1, exec_allowed, usec_after_timeout) :=
    if exec_allowed && negb (timeout_usec t =? 0) then
      let time_left := time_left_usec now t in
      if time_left <? 0 then
        let time_left := time_left * (-1) in
        if timeout_usec t <=? u64 time_left
        then (with_state TIMEOUT t, false, u64 (u64 time_left - timeout_usec t + 1))
        else (t, exec_allowed, 0)
      else (t, exec_allowed, 0)
    else (t, exec_allowed, 0) in
  ((if exec_allowed then with_state EXECUTING t1 else t1),
   exec_allowed, usec_after_timeout).

(** The section that follows [_execute]; the flag tells whether the event of the
    queue is raised. *)
Definition execute_end (now : timeval) (result exec_again : bool) (t : asynctask)
    : asynctask * bool :=
  if decide (state t = CANCELED) then (t, false)
  else if exec_again then
    let t1 := with_state WAITING t in
    set_delay_usec now (delay_usec t1) t1
  else if result then (with_state SUCCESS t, false)
  else (with_state FAILURE t, false).

Definition is_finished (t : asynctask) : bool :=
  match state t with
  | SUCCESS | FAILURE | TIMEOUT | CANCELED => true
  | _ => false
  end.

(** [on_task_finished]: the observers are called when the flag is [true]. *)
Definition on_task_finished (t : asynctask) : asynctask * bool :=
  if observable t && negb (observer_notified t)
  then (with_notified t, true)
  else (t, false).

Definition set_execution_request_time (now : timeval) (reset : bool) (t : asynctask)
    : asynctask :=
  if reset then with_request_time timeval_zero t else with_request_time now t.

Definition is_execution_requested (t : asynctask) : bool :=
  negb (tv_sec (execution_request_time t) =? 0)
  || negb (tv_usec (execution_request_time t) =? 0).

Definition time_since_exec_request_usec (now : timeval) (t : asynctask) : Z :=
  time_diff_usec now (execution_request_time t) 1 * (-1).

Definition cancel (t : asynctask) : asynctask := with_state CANCELED t.

(** ** The whole of [execute], by one thread

    [body] is the virtual [_execute], a function of the object; it answers
    (result, exec_again).  The outcome lists what the call tells the outside. *)

Inductive task_event :=
  | EvBody
  | EvRaise
  | EvTimeout (timeout after : Z)
  | EvFinished.

Definition body_fun : Type := asynctask → asynctask * (bool * bool).

Definition execute (now1 now2 : timeval) (body : body_fun) (t : asynctask)
    : asynctask * list task_event :=
  let '(t1, exec_allowed, usec_after_timeout) := execute_begin now1 t in
  let '(t2, ev) :=
    if exec_allowed then
      let '(tb, (result, exec_again)) := body t1 in
      let '(te, raise) := execute_end now2 result exec_again tb in
      (te, EvBody :: (if raise then [EvRaise] else []))
    else if negb (usec_after_timeout =? 0)
    then (t1, [EvTimeout (timeout_usec t1) (u64 (usec_after_timeout - 1))])
    else (t1, []) in
  if is_finished t2 then
    let '(t3, told) := on_task_finished t2 in
    (t3, ev ++ (if told then [EvFinished] else []))
  else (t2, ev).

(** ** The state machine *)

(** The transitions the operations are meant to make. *)
Inductive transition : state_e → state_e → Prop :=
  | tr_start : transition INIT WAITING
  | tr_pick : transition WAITING PICKED
  | tr_execute : transition PICKED EXECUTING
  | tr_timeout : transition PICKED TIMEOUT
  | tr_again : transition EXECUTING WAITING
  | tr_success : transition EXECUTING SUCCESS
  | tr_failure : transition EXECUTING FAILURE
  | tr_cancel s : transition s CANCELED.

(** One operation on the object, by whichever thread. [execute_end] is only
    called on a task whose execution has begun. *)
Inductive task_op : asynctask → asynctask → Prop :=
  | op_priority p t : task_op t (set_priority p t)
  | op_observable t : task_op t (set_observable t)
  | op_delay now d t : task_op t (set_delay_usec now d t).1
  | op_timeout u t : task_op t (set_timeout u t)
  | op_start t : task_op t (start_begin t).1
  | op_pick t : task_op t (pick_task t).1
  | op_begin now t : task_op t (execute_begin now t).1.1
  | op_end now r a t :
      state t = EXECUTING ∨ state t = CANCELED → task_op t (execute_end now r a t).1
  | op_notify t : task_op t (on_task_finished t).1
  | op_request now r t : task_op t (set_execution_request_time now r t)
  | op_cancel t : task_op t (cancel t).

(** ** Lemmas *)

Create Rewrite HintDb task.

Lemma state_with_state st t : state (with_state st t) = st.
Proof. reflexivity. Qed.

Lemma time_left_with_state now st t :
  time_left_usec now (with_state st t) = time_left_usec now t.
Proof. reflexivity. Qed.

(** Neither the request time nor the notification flag is part of the state
    machine. *)
Lemma state_set_request now r t : state (set_execution_request_time now r t) = state t.
Proof. by destruct r. Qed.

Lemma state_on_task_finished t : state (on_task_finished t).1 = state t.
Proof. unfold on_task_finished. by destruct (observable t && _). Qed.

Lemma state_set_delay now d t : state (set_delay_usec now d t).1 = state t.
Proof. reflexivity. Qed.

#[export] Hint Rewrite state_with_state time_left_with_state state_set_request
  state_on_task_finished state_set_delay : task.

Lemma usec_of_after now d :
  0 < d →
  usec_of (Timeval (tv_sec now + Z.quot d 1000000) (tv_usec now + Z.rem d 1000000))
  = usec_of now + d.
Proof.
  intros Hd. unfold usec_of. cbn [tv_sec tv_usec].
  pose proof (Z.quot_rem' d 1000000). lia.
Qed.

(** The state after [execute_begin]. *)
Lemma execute_begin_cases now t :
  0 <= timeout_usec t < 2 ^ 64 → 0 <= - time_left_usec now t < 2 ^ 63 →
  execute_begin now t =
    if decide (state t = PICKED) then
      if negb (timeout_usec t =? 0) && (time_left_usec now t <? 0)
         && (timeout_usec t <=? - time_left_usec now t)
      then (with_state TIMEOUT t, false,
            u64 (- time_left_usec now t - timeout_usec t + 1))
      else (with_state EXECUTING t, true, 0)
    else (t, false, 0).
Proof.
  intros Ht Hl. unfold execute_begin. rewrite bool_decide_decide.
  destruct (decide (state t = PICKED)) as [E|E]; cbn; [|done].
  replace (time_left_usec now t * -1) with (- time_left_usec now t) by lia.
  rewrite (u64_id (- time_left_usec now t)) by lia.
  by destruct (timeout_usec t =? 0), (time_left_usec now t <? 0),
     (timeout_usec t <=? - time_left_usec now t).
Qed.

Lemma execute_end_state now r a t :
  state t = EXECUTING ∨ state t = CANCELED →
  state (execute_end now r a t).1 =
    if decide (state t = CANCELED) then CANCELED
    else if a then WAITING else if r then SUCCESS else FAILURE.
Proof.
  intros _. unfold execute_end. destruct (decide _) as [E|]; [done|].
  destruct a; [done|]. by destruct r.
Qed.

Lemma execute_begin_state now t :
  state (execute_begin now t).1.1 = state t
  ∨ state t = PICKED ∧
    (state (execute_begin now t).1.1 = EXECUTING
     ∨ state (execute_begin now t).1.1 = TIMEOUT).
Proof.
  unfold execute_begin. rewrite bool_decide_decide.
  destruct (decide (state t = PICKED)) as [E|E]; cbn; [right|by left].
  split; [done|].
  destruct (timeout_usec t =? 0); cbn; [by left|].
  destruct (time_left_usec now t <? 0); [|by left].
  destruct (timeout_usec t <=? _); [by right|by left].
Qed.

Lemma is_finished_true t :
  is_finished t = true ↔
  state t = SUCCESS ∨ state t = FAILURE ∨ state t = TIMEOUT ∨ state t = CANCELED.
Proof. unfold is_finished. destruct (state t); naive_solver. Qed.

Lemma task_op_transition t t' :
  task_op t t' → state t' = state t ∨ transition (state t) (state t').
Proof.
  intros H. destruct H; autorewrite with task; auto using transition.
  - left. unfold set_priority. by destruct (decide _).
  - left. unfold set_observable. by destruct (negb _).
  - unfold start_begin. destruct (decide _) as [E|]; [|by left].
    right. rewrite E. constructor.
  - unfold pick_task. destruct (decide _) as [E|]; [|by left].
    right. rewrite E. constructor.
  - destruct (execute_begin_state now t) as [->|[-> [->| ->]]];
      auto using transition.
  - rewrite execute_end_state by done.
    destruct (decide _) as [E|E]; [left; congruence|].
    destruct H as [-> | ?]; [|done].
    destruct a; [|destruct r]; auto using transition.
Qed.

(** A transition never leaves the finished states, and never enters [INIT]. *)
Lemma transition_finished s s' :
  transition s s' →
  (s ∈ [SUCCESS; FAILURE; TIMEOUT; CANCELED] → s' = CANCELED) ∧ s' ≠ INIT.
Proof. intros H. split; [|by destruct H].
  rewrite !elem_of_cons, elem_of_nil. destruct H; [..|done]; intros Hs; exfalso;
    repeat (destruct Hs as [Hs|Hs]; [discriminate|]); done. Qed.

(** C35. The state machine of a task: whatever operations the threads apply, the
    state only moves along INIT, WAITING, PICKED, EXECUTING and from there back
    to WAITING or to a final state; a finished task stays finished and can only
    become CANCELED; and no operation brings a started task back to INIT. *)
Theorem task_ops_state_machine t t' (H : rtc task_op t t') :
  rtc transition (state t) (state t')
  ∧ (is_finished t = true → is_finished t' = true
                            ∧ (state t' = state t ∨ state t' = CANCELED))
  ∧ (state t ≠ INIT → state t' ≠ INIT).
Proof.
  induction H as [t|t t1 t2 Hop _ (IH1 & IH2 & IH3)]; [split_and!; auto using rtc_refl|].
  pose proof (task_op_transition _ _ Hop) as Htr.
  split_and!.
  - destruct Htr as [<- | Htr]; [done|]. by eapply rtc_l.
  - intros Hf.
    assert (state t1 = state t ∨ state t1 = CANCELED) as Hs.
    { destruct Htr as [-> | Htr]; [by left|]. right.
      apply (transition_finished _ _ Htr).
      apply is_finished_true in Hf. rewrite !elem_of_cons. tauto. }
    assert (is_finished t1 = true) as Hf1.
    { apply is_finished_true. apply is_finished_true in Hf.
      by destruct Hs as [-> | ->]; [|do 3 right]. }
    destruct (IH2 Hf1) as [? [-> | ->]]; split; [done|exact Hs|done|by right].
  - intros Hi. apply IH3. destruct Htr as [-> | Htr]; [done|].
    by apply (transition_finished _ _ Htr).
Qed.

Lemma task_ops_state_machine_witness :
  rtc task_op (new_asynctask 1) (with_state PICKED (new_asynctask 1))
  ∧ rtc transition INIT PICKED.
Proof.
  assert (rtc task_op (new_asynctask 1) (with_state PICKED (new_asynctask 1))) as H.
  { apply (rtc_l _ _ (with_state WAITING (new_asynctask 1)));
      [apply (op_start (new_asynctask 1))|].
    apply rtc_once, (op_pick (with_state WAITING (new_asynctask 1))). }
  split; [exact H|].
  apply (task_ops_state_machine _ _ H).
Defined.

(** The body of a task does not touch the state itself; another thread may
    cancel the task meanwhile, and nothing else. *)
Definition body_ok (body : body_fun) : Prop :=
  ∀ t, state (body t).1 = state t ∨ state (body t).1 = CANCELED.

(** The microseconds by which the task is late with respect to the start its
    delay has set; 0 when no delay was ever set. *)
Definition late_usec (now : timeval) (t : asynctask) : Z := - time_left_usec now t.

Definition told (t : asynctask) : list task_event :=
  if observable t && negb (observer_notified t) then [EvFinished] else [].

(** [execute], on every branch: a task that is not PICKED is not touched
    (beyond the notification of a finished one); a PICKED task that is late by its timeout or
    more is not executed, becomes TIMEOUT and [on_timeout] is told by how much;
    every other PICKED task executes its body exactly once and then is WAITING again with a new start
    time and a wake-up of the queue, or SUCCESS, or FAILURE as the body answered, or CANCELED if it was cancelled
    meanwhile; and the observers are told when, and only when, the task is
    finished, observable and was not notified before. *)
Theorem execute_spec now1 now2 body t
    (Hbody : body_ok body)
    (Htimeout : 0 <= timeout_usec t < 2 ^ 64 - 1)
    (Hlate : 0 <= late_usec now1 t < 2 ^ 63) :
  execute now1 now2 body t =
    if negb (bool_decide (state t = PICKED)) then
      if is_finished t then ((on_task_finished t).1, told t) else (t, [])
    else if (0 <? timeout_usec t) && (timeout_usec t <=? late_usec now1 t) then
      let t1 := with_state TIMEOUT t in
      ((on_task_finished t1).1,
       EvTimeout (timeout_usec t) (late_usec now1 t - timeout_usec t) :: told t1)
    else
      let '(tb, (result, exec_again)) := body (with_state EXECUTING t) in
      if bool_decide (state tb = CANCELED) then
        ((on_task_finished tb).1, EvBody :: told tb)
      else if exec_again then
        ((set_delay_usec now2 (delay_usec tb) (with_state WAITING tb)).1,
         [EvBody; EvRaise])
      else
        let t1 := with_state (if result then SUCCESS else FAILURE) tb in
        ((on_task_finished t1).1, EvBody :: told t1).
Proof.
  unfold execute, late_usec, told in *. rewrite execute_begin_cases by lia.
  rewrite !bool_decide_decide.
  destruct (decide (state t = PICKED)) as [E|E]; cbn [negb].
  2:{ cbn [Z.eqb negb]. destruct (is_finished t); [|done].
      unfold on_task_finished. by destruct (observable t && _). }
  replace (negb (timeout_usec t =? 0) && _ && _)
    with ((0 <? timeout_usec t) && (timeout_usec t <=? - time_left_usec now1 t)) by lia.
  destruct (_ && _) eqn:Ho.
  - apply andb_prop in Ho as [Ho1 Ho2].
    rewrite u64_id by lia.
    replace (negb (_ =? 0)) with true by lia.
    replace (- time_left_usec now1 t - timeout_usec t + 1 - 1)
      with (- time_left_usec now1 t - timeout_usec t) by lia.
    rewrite u64_id by lia. cbn.
    unfold on_task_finished. cbn. by destruct (observable t && _).
  - specialize (Hbody (with_state EXECUTING t)).
    destruct (body (with_state EXECUTING t)) as [tb [result exec_again]].
    cbn in Hbody. unfold execute_end.
    destruct (decide (state tb = CANCELED)) as [Ec|Ec].
    { rewrite bool_decide_true by done. cbn. unfold is_finished. rewrite Ec. unfold on_task_finished.
      by destruct (observable tb && _). }
    rewrite bool_decide_false by done.
    destruct exec_again; [done|].
    destruct result; cbn; unfold on_task_finished; cbn; by destruct (observable tb && _).
Qed.

(** A body that fails after having been told to run again. *)
Definition body_ex : body_fun := λ t, (t, (false, true)).
Definition task_ex : asynctask :=
  ATask true false PICKED 5000000 (Timeval 90 0) (Timeval 100 1) (Timeval 100 0)
        3000000 1 0.

Lemma execute_spec_witness :
  execute (Timeval 104 0) (Timeval 105 0) body_ex task_ex
  = (with_notified (with_state TIMEOUT task_ex), [EvTimeout 3000000 1000000; EvFinished])
  ∧ execute (Timeval 101 0) (Timeval 105 999999) body_ex task_ex
    = (with_start_time 5000000 (Timeval 110 999999) (with_state WAITING task_ex),
       [EvBody; EvRaise]).
Proof.
  assert (body_ok body_ex) as Hb by (intros t; left; reflexivity).
  split.
  - rewrite (execute_spec (Timeval 104 0) (Timeval 105 0) body_ex task_ex Hb);
      [reflexivity|split; vm_compute; congruence..].
  - rewrite (execute_spec (Timeval 101 0) (Timeval 105 999999) body_ex task_ex Hb);
      [reflexivity|split; vm_compute; congruence..].
Defined.
