(* ===== verification/AsyncTaskQueue.v ===== *)
(** * AsyncTaskQueue: the queue of tasks and the thread pools
    (supla-server/src/asynctask)

    The queue thread ([supla_asynctask_queue::iterate]), the pools
    ([supla_abstract_asynctask_thread_pool]) and their threads run concurrently
    on shared task objects.  Each step of the model is one section of the code
    under one mutex; a program counter per thread says which section comes next. *)

From S2P Require Import Prelude AsyncTask.

Definition WARNING_MIN_FREQ_SEC : Z := 5.

(** ** State *)

(** The interface of a pool class: its virtual methods, by the address of the
    pool. *)
Class PoolClass := {
  thread_count_limit : Z → Z;
  tasks_per_thread : Z → Z;
  should_keep_alive : Z → Z → Z → bool;
  has_bucket : Z → bool;
  thread_count_limit_range p : is_u32 (thread_count_limit p)   (* unsigned int *)
}.

Record thread_pool := TPool {
  threads : list Z;
  requests : list Z;
  buckets : list Z;
  warinig_time : timeval;
  overload_count : Z;
  exec_count : Z;
  highest_number_of_threads : Z;
  holded : bool;
  terminated : bool
}.

Definition new_thread_pool : thread_pool :=
  TPool [] [] [] timeval_zero 0 0 0 false false.

Definition set_threads (l : list Z) (p : thread_pool) : thread_pool :=
  TPool l (requests p) (buckets p) (warinig_time p) (overload_count p) (exec_count p)
        (highest_number_of_threads p) (holded p) (terminated p).
Definition set_requests (l : list Z) (p : thread_pool) : thread_pool :=
  TPool (threads p) l (buckets p) (warinig_time p) (overload_count p) (exec_count p)
        (highest_number_of_threads p) (holded p) (terminated p).
Definition set_buckets (l : list Z) (p : thread_pool) : thread_pool :=
  TPool (threads p) (requests p) l (warinig_time p) (overload_count p) (exec_count p)
        (highest_number_of_threads p) (holded p) (terminated p).

(** Where a thread of a pool is in [execute(sthread)]. *)
Inductive pc :=
  | PcStart                (* get_bucket, add_bucket *)
  | PcPick                 (* queue->pick(this) *)
  | PcBegin (t : Z)        (* task->execute, up to _execute *)
  | PcBody (t : Z)         (* inside _execute *)
  | PcFinishedCheck (t : Z)  (* if (is_finished()) on_task_finished(): the test *)
  | PcNotify (t : Z)       (* on_task_finished: the calls *)
  | PcCount (t : Z)        (* _exec_count++ *)
  | PcAfter (t : Z)        (* task->is_finished() *)
  | PcDequeue (t : Z)      (* queue->remove_task(task) *)
  | PcReset (t : Z)        (* set_execution_request_time(true), raise_event *)
  | PcRemove (t : Z)       (* remove_task(task.get()) *)
  | PcDecide               (* iterate or leave the loop *)
  | PcLeave                (* remove_bucket *)
  | PcFinish.              (* on_thread_finish *)

Record thread := Thread {
  th_pool : Z;
  th_pc : pc;
  th_last_exec : timeval;
  th_terminated : bool     (* sthread_isterminated *)
}.

Definition goto (c : pc) (th : thread) : thread :=
  Thread (th_pool th) c (th_last_exec th) (th_terminated th).

(** Where the queue thread is in [iterate]; it holds the queue's mutex from
    [QScan] to [QSpawn]. *)
Inductive queue_pc :=
  | QIterate
  | QScan (now : timeval) (rest : list Z) (wait_time : Z)
  | QRequest (now : timeval) (t : Z) (rest : list Z) (wait_time : Z)
  | QEnqueue (now : timeval) (t : Z) (rest : list Z) (wait_time : Z)
  | QSpawn (now : timeval) (t : Z) (req_count : Z) (rest : list Z) (wait_time : Z)
  | QWait (wait_time : Z).

Inductive notice := Started (o t : Z) | Finished (o t : Z).

Record sys := Sys {
  heap : gmap Z asynctask;          (* the task objects, by address *)
  tasks : list Z;                   (* the queue *)
  observers : list Z;
  last_iterate_time_sec : Z;
  event : bool;                     (* the queue's event handler *)
  qpc : queue_pc;
  starting : list Z;                (* inside start(), before add_task *)
  pools : gmap Z thread_pool;
  live : gmap Z thread;             (* the running threads *)
  notices : list notice             (* what the observers were told *)
}.

Definition set_heap (h : gmap Z asynctask) (s : sys) : sys :=
  Sys h (tasks s) (observers s) (last_iterate_time_sec s) (event s) (qpc s)
      (starting s) (pools s) (live s) (notices s).
Definition set_tasks (l : list Z) (s : sys) : sys :=
  Sys (heap s) l (observers s) (last_iterate_time_sec s) (event s) (qpc s)
      (starting s) (pools s) (live s) (notices s).
Definition set_event (b : bool) (s : sys) : sys :=
  Sys (heap s) (tasks s) (observers s) (last_iterate_time_sec s) b (qpc s)
      (starting s) (pools s) (live s) (notices s).
Definition set_qpc (c : queue_pc) (s : sys) : sys :=
  Sys (heap s) (tasks s) (observers s) (last_iterate_time_sec s) (event s) c
      (starting s) (pools s) (live s) (notices s).
Definition set_last_iterate (z : Z) (s : sys) : sys :=
  Sys (heap s) (tasks s) (observers s) z (event s) (qpc s)
      (starting s) (pools s) (live s) (notices s).
Definition set_starting (l : list Z) (s : sys) : sys :=
  Sys (heap s) (tasks s) (observers s) (last_iterate_time_sec s) (event s) (qpc s)
      l (pools s) (live s) (notices s).
Definition set_pools (m : gmap Z thread_pool) (s : sys) : sys :=
  Sys (heap s) (tasks s) (observers s) (last_iterate_time_sec s) (event s) (qpc s)
      (starting s) m (live s) (notices s).
Definition set_live (m : gmap Z thread) (s : sys) : sys :=
  Sys (heap s) (tasks s) (observers s) (last_iterate_time_sec s) (event s) (qpc s)
      (starting s) (pools s) m (notices s).
Definition tell (l : list notice) (s : sys) : sys :=
  Sys (heap s) (tasks s) (observers s) (last_iterate_time_sec s) (event s) (qpc s)
      (starting s) (pools s) (live s) (notices s ++ l).
Definition set_observers (l : list Z) (s : sys) : sys :=
  Sys (heap s) (tasks s) l (last_iterate_time_sec s) (event s) (qpc s)
      (starting s) (pools s) (live s) (notices s).

Definition raise_event (s : sys) : sys := set_event true s.

Definition upd_task (t : Z) (f : asynctask → asynctask) (s : sys) : sys :=
  set_heap (alter f t (heap s)) s.
Definition upd_pool (p : Z) (f : thread_pool → thread_pool) (s : sys) : sys :=
  set_pools (alter f p (pools s)) s.
Definition upd_thread (h : Z) (f : thread → thread) (s : sys) : sys :=
  set_live (alter f h (live s)) s.

Definition init_sys : sys :=
  Sys ∅ [] [] 0 false QIterate [] ∅ ∅ [].

(** ** The queue: searches over the task vector *)

Section queue.
Context (h : gmap Z asynctask).

Definition task_state_is (st : state_e) (t : Z) : bool :=
  match h !! t with Some o => bool_decide (state o = st) | None => false end.

Definition prio (t : Z) : Z := match h !! t with Some o => priority o | None => 0 end.

(** [add_task] *)
Fixpoint insert_task (t : Z) (l : list Z) : list Z :=
  match l with
  | [] => [t]
  | x :: l' => if prio x <? prio t then t :: l else x :: insert_task t l'
  end.

(** [pick]: the condition of its loop. *)
Definition pickable (now : timeval) (p : Z) (t : Z) : bool :=
  match h !! t with
  | Some o => bool_decide (state o = WAITING) && (pool o =? p)
              && (time_left_usec now o <=? 0)
  | None => false
  end.

Definition pick_find (now : timeval) (p : Z) (l : list Z) : option Z :=
  find_first (pickable now p) l.

Definition waiting_count (l : list Z) : Z :=
  u32 (Z.of_nat (length (filter (λ t, task_state_is WAITING t = true) l))).

(** A search condition is a predicate on the object. *)
Definition condition_met (cnd : Z → asynctask → bool) (t : Z) : bool :=
  match h !! t with Some o => cnd t o | None => false end.

Definition find_task (cnd : Z → asynctask → bool) (l : list Z) : option Z :=
  find_first (condition_met cnd) l.

Definition get_task_state (cnd : Z → asynctask → bool) (l : list Z) : option state_e :=
  t ← find_task cnd l; o ← h !! t; Some (state o).

Definition get_task_count (cnd : Z → asynctask → bool) (l : list Z) : Z :=
  u32 (Z.of_nat (length (filter (λ t, condition_met cnd t = true) l))).

Definition task_exists (cnd : Z → asynctask → bool) (l : list Z) : bool :=
  bool_decide (find_task cnd l ≠ None).
End queue.

Definition add_task (t : Z) (s : sys) : sys :=
  raise_event (set_tasks (insert_task (heap s) t (tasks s)) s).

Definition remove_task (t : Z) (s : sys) : sys :=
  set_tasks (erase_first (Z.eqb t) (tasks s)) s.

Definition pick (now : timeval) (p : Z) (s : sys) : option Z * sys :=
  match pick_find (heap s) now p (tasks s) with
  | Some t => (Some t, upd_task t (λ o, (pick_task o).1) s)
  | None => (None, s)
  end.

Definition cancel_tasks (cnd : Z → asynctask → bool) (s : sys) : sys :=
  let found := filter (λ t, condition_met (heap s) cnd t = true) (tasks s) in
  foldl (λ s t, remove_task t (upd_task t cancel s)) s found.

Definition add_observer (o : Z) (s : sys) : sys :=
  if decide (o ∈ observers s) then s else set_observers (observers s ++ [o]) s.

Definition remove_observer (o : Z) (s : sys) : sys :=
  set_observers (erase_first (Z.eqb o) (observers s)) s.

Definition queue_on_task_started (t : Z) (s : sys) : sys :=
  tell (map (λ o, Started o t) (observers s)) s.

Definition queue_on_task_finished (t : Z) (s : sys) : sys :=
  tell (map (λ o, Finished o t) (observers s)) s.

Definition access_task (cnd : Z → asynctask → bool) (on_task : asynctask → asynctask)
    (s : sys) : bool * sys :=
  match find_task (heap s) cnd (tasks s) with
  | Some t => (true, upd_task t on_task s)
  | None => (false, s)
  end.

(** The number of seconds the warning prints, when it is printed. *)
Definition log_stuck_warning (now : timeval) (s : sys) : option Z :=
  let time := i32 (u64 (tv_sec now - last_iterate_time_sec s)) in
  if 5 <=? time then Some time else None.

(** ** The pools *)

(** What [sthread_run] leaves in its result: a running thread, a null pointer
    (no memory), or a thread object without a thread ([pthread_create] failed). *)
Inductive spawn_answer := SpawnOk (h : Z) | SpawnNull | SpawnDead (h : Z).

Definition vec_size {A} (l : list A) : Z := Z.of_nat (length l).

Section pools.
Context `{PoolClass}.

(** The first section of [execution_request]: the task joins the requests
    unless it is there; the answer is the number of requests. *)
Definition request_enqueue (now : timeval) (t : Z) (p : Z) (s : sys) : option (option Z * sys) :=
  tp ← pools s !! p;
  if existsb (Z.eqb t) (requests tp) then Some (None, s)
  else
    let s1 := upd_task t (set_execution_request_time now false) s in
    Some (Some (vec_size (requests tp ++ [t])),
          upd_pool p (set_requests (requests tp ++ [t])) s1).

(** Whether the second section starts a thread. *)
Definition wants_thread (p : Z) (req_count : Z) (tp : thread_pool) : bool :=
  (vec_size (threads tp) <? thread_count_limit p)
  && ((tasks_per_thread p =? 0)
      || (u64 (tasks_per_thread p * vec_size (threads tp)) <? req_count)).

Definition add_thread (h : Z) (tp : thread_pool) : thread_pool :=
  let l := threads tp ++ [h] in
  TPool l (requests tp) (buckets tp) (warinig_time tp) (overload_count tp)
        (exec_count tp)
        (if highest_number_of_threads tp <? vec_size l then u32 (vec_size l)
         else highest_number_of_threads tp)
        (holded tp) (terminated tp).

Definition overload (now : timeval) (tp : thread_pool) : thread_pool :=
  TPool (threads tp) (requests tp) (buckets tp)
        (if WARNING_MIN_FREQ_SEC <=? tv_sec now - tv_sec (warinig_time tp)
         then now else warinig_time tp)
        (u32 (overload_count tp + 1)) (exec_count tp)
        (highest_number_of_threads tp) (holded tp) (terminated tp).

(** The second section of [execution_request]. *)
Definition request_thread (now : timeval) (sp : spawn_answer) (p req_count : Z)
    (s : sys) : option sys :=
  tp ← pools s !! p;
  if vec_size (threads tp) <? thread_count_limit p then
    if wants_thread p req_count tp then
      match sp with
      | SpawnOk h =>
          Some (set_live (<[h := Thread p PcStart timeval_zero false]> (live s))
                  (upd_pool p (add_thread h) s))
      | SpawnDead h => Some (upd_pool p (add_thread h) s)
      | SpawnNull => Some s
      end
    else Some s
  else Some (upd_pool p (overload now) s).

Definition pool_remove_task (t p : Z) (s : sys) : sys :=
  upd_pool p (λ tp, set_requests (erase_first (Z.eqb t) (requests tp)) tp) s.

Definition add_bucket (b p : Z) (s : sys) : sys :=
  upd_pool p (λ tp, set_buckets (buckets tp ++ [b]) tp) s.

Definition remove_bucket (b p : Z) (s : sys) : sys :=
  upd_pool p (λ tp, set_buckets (erase_first (Z.eqb b) (buckets tp)) tp) s.

Definition on_thread_finish (h p : Z) (s : sys) : sys :=
  upd_pool p (λ tp,
    let tp1 := set_threads (erase_first (Z.eqb h) (threads tp)) tp in
    if vec_size (threads tp1) =? 0 then set_requests [] tp1 else tp1) s.

(** The decision at the end of an iteration of [execute]. *)
Definition iterate_again (now : timeval) (p : Z) (th : thread) (tp : thread_pool) : bool :=
  if negb (th_terminated th) then
    if vec_size (threads tp) <=? vec_size (requests tp) then true
    else should_keep_alive p
           (u64 (u64 (usec_of now) - u64 (usec_of (th_last_exec th))))
           (vec_size (threads tp))
  else false.

Definition hold (p : Z) (s : sys) : sys :=
  upd_pool p (λ tp, TPool (threads tp) (requests tp) (buckets tp) (warinig_time tp)
    (overload_count tp) (exec_count tp) (highest_number_of_threads tp) true
    (terminated tp)) s.

Definition unhold (p : Z) (s : sys) : sys :=
  upd_pool p (λ tp, TPool (threads tp) (requests tp) (buckets tp) (warinig_time tp)
    (overload_count tp) (exec_count tp) (highest_number_of_threads tp) false
    (terminated tp)) s.

(** The locked section of [terminate]. *)
Definition terminate (p : Z) (s : sys) : option sys :=
  tp ← pools s !! p;
  let s1 := upd_pool p (λ tp, TPool (threads tp) (requests tp) (buckets tp)
    (warinig_time tp) (overload_count tp) (exec_count tp)
    (highest_number_of_threads tp) (holded tp) true) s in
  Some (foldl (λ s h, upd_thread h (λ th,
          Thread (th_pool th) (th_pc th) (th_last_exec th) true) s) s1 (threads tp)).

Definition count_exec (p : Z) (s : sys) : sys :=
  upd_pool p (λ tp, TPool (threads tp) (requests tp) (buckets tp) (warinig_time tp)
    (overload_count tp) (u32 (exec_count tp + 1)) (highest_number_of_threads tp)
    (holded tp) (terminated tp)) s.

(** ** The queue thread: [iterate] *)

Definition queue_locked (s : sys) : bool :=
  match qpc s with QIterate | QWait _ => false | _ => true end.

Definition queue_step (now : timeval) (sp : spawn_answer) (s : sys) : option sys :=
  match qpc s with
  | QIterate =>
      Some (set_qpc (QScan now (tasks s) 1000000)
              (set_last_iterate (u64 (tv_sec now)) s))
  | QScan nw [] wait_time =>
      Some (set_qpc (QWait (if wait_time <? 10000 then 10000 else wait_time)) s)
  | QScan nw (t :: rest) wait_time =>
      o ← heap s !! t;
      if negb (is_execution_requested o) && bool_decide (state o = WAITING) then
        let time_left := time_left_usec nw o in
        if time_left <=? 0 then Some (set_qpc (QRequest nw t rest wait_time) s)
        else if time_left <? wait_time then Some (set_qpc (QScan nw rest time_left) s)
        else Some (set_qpc (QScan nw rest wait_time) s)
      else Some (set_qpc (QScan nw rest wait_time) s)
  | QRequest nw t rest wait_time =>
      o ← heap s !! t;
      tp ← pools s !! pool o;
      if terminated tp || holded tp then Some (set_qpc (QScan nw rest wait_time) s)
      else Some (set_qpc (QEnqueue nw t rest wait_time) s)
  | QEnqueue nw t rest wait_time =>
      o ← heap s !! t;
      r ← request_enqueue now t (pool o) s;
      match r with
      | (None, s1) => Some (set_qpc (QScan nw rest wait_time) s1)
      | (Some req_count, s1) => Some (set_qpc (QSpawn nw t req_count rest wait_time) s1)
      end
  | QSpawn nw t req_count rest wait_time =>
      o ← heap s !! t;
      s1 ← request_thread now sp (pool o) req_count s;
      Some (set_qpc (QScan nw rest wait_time) s1)
  | QWait wait_time => Some (set_event false (set_qpc QIterate s))
  end.

(** ** A thread of a pool: [execute(sthread)]

    [body] is what [_execute] answers, (result, exec_again); only the step that
    leaves the body reads it. A step that needs the queue's mutex is not
    enabled while the queue thread holds it. *)
Definition thread_step (now : timeval) (h : Z) (body : bool * bool) (s : sys)
    : option sys :=
  th ← live s !! h;
  let p := th_pool th in
  let next c s := upd_thread h (goto c) s in
  match th_pc th with
  | PcStart =>
      Some (next PcPick (if has_bucket p then add_bucket h p s else s))
  | PcPick =>
      if queue_locked s then None else
      match pick now p s with
      | (Some t, s1) => Some (next (PcBegin t) s1)
      | (None, s1) => Some (next PcDecide s1)
      end
  | PcBegin t =>
      o ← heap s !! t;
      let '(o1, exec_allowed, _) := execute_begin now o in
      let s1 := upd_task t (λ _, o1) s in
      Some (next (if exec_allowed then PcBody t else PcFinishedCheck t) s1)
  | PcBody t =>
      o ← heap s !! t;
      let '(o1, raise) := execute_end now body.1 body.2 o in
      let s1 := upd_task t (λ _, o1) s in
      Some (next (PcFinishedCheck t) (if raise then raise_event s1 else s1))
  | PcFinishedCheck t =>
      o ← heap s !! t;
      Some (next (if is_finished o && (on_task_finished o).2
                  then PcNotify t else PcCount t) s)
  | PcNotify t =>
      o ← heap s !! t;
      Some (next (PcCount t) (queue_on_task_finished t (upd_task t with_notified s)))
  | PcCount t => Some (next (PcAfter t) (count_exec p s))
  | PcAfter t =>
      o ← heap s !! t;
      Some (next (if is_finished o then PcDequeue t else PcReset t) s)
  | PcDequeue t =>
      if queue_locked s then None else Some (next (PcRemove t) (remove_task t s))
  | PcReset t =>
      Some (next (PcRemove t)
              (raise_event (upd_task t (set_execution_request_time now true) s)))
  | PcRemove t =>
      Some (upd_thread h (λ th, Thread (th_pool th) PcDecide now (th_terminated th))
              (pool_remove_task t p s))
  | PcDecide =>
      tp ← pools s !! p;
      Some (next (if iterate_again now p th tp then PcPick else PcLeave) s)
  | PcLeave =>
      Some (next PcFinish (if has_bucket p then remove_bucket h p s else s))
  | PcFinish =>
      Some (set_live (delete h (live s)) (on_thread_finish h p s))
  end.

(** ** The system: every thread, and the rest of the program *)

(** The task a thread holds a shared pointer to. *)
Definition held (c : pc) : option Z :=
  match c with
  | PcBegin t | PcBody t | PcFinishedCheck t | PcNotify t | PcCount t
  | PcAfter t | PcDequeue t | PcReset t | PcRemove t => Some t
  | _ => None
  end.

(** The operations the owner of a task object calls on it. *)
Inductive owner_op : asynctask → asynctask → Prop :=
  | own_priority p o : owner_op o (set_priority p o)
  | own_observable o : owner_op o (set_observable o)
  | own_delay now d o : owner_op o (set_delay_usec now d o).1
  | own_timeout u o : owner_op o (set_timeout u o).

Definition fresh_thread (h : Z) (s : sys) : Prop :=
  live s !! h = None ∧ ∀ p tp, pools s !! p = Some tp → h ∉ threads tp.

Definition spawn_ok (sp : spawn_answer) (s : sys) : Prop :=
  match sp with SpawnOk h | SpawnDead h => fresh_thread h s | SpawnNull => True end.

(** The destructor: the object is released when nothing holds it. *)
Definition unreferenced (t : Z) (s : sys) : Prop :=
  (t ∉ tasks s) ∧ (t ∉ starting s)
  ∧ ∀ h th, live s !! h = Some th → held (th_pc th) ≠ Some t.

Definition destroy (t : Z) (o : asynctask) (s : sys) : sys :=
  let s1 := if (on_task_finished o).2 then queue_on_task_finished t s else s in
  set_heap (delete t (heap s)) s1.

Inductive step : sys → sys → Prop :=
  | st_register p s :
      pools s !! p = None → step s (set_pools (<[p := new_thread_pool]> (pools s)) s)
  | st_new t p s :
      heap s !! t = None → is_Some (pools s !! p) →
      step s (set_heap (<[t := new_asynctask p]> (heap s)) s)
  | st_owner t o o' s :
      heap s !! t = Some o → owner_op o o' → step s (upd_task t (λ _, o') s)
  | st_raise s : step s (raise_event s)
  | st_start t o s :
      heap s !! t = Some o → (start_begin o).2 = true →
      step s (set_starting (starting s ++ [t]) (upd_task t (λ o, (start_begin o).1) s))
  | st_add now t s :
      t ∈ starting s → queue_locked s = false →
      step s (set_starting (erase_first (Z.eqb t) (starting s))
                (add_task t (queue_on_task_started t
                   (upd_task t (with_started_at now) s))))
  | st_cancel cnd s :
      queue_locked s = false → step s (cancel_tasks cnd s)
  | st_destroy t o s :
      heap s !! t = Some o → unreferenced t s → step s (destroy t o s)
  | st_observer o b s :
      step s (if b : bool then add_observer o s else remove_observer o s)
  | st_hold p b s : step s (if b : bool then hold p s else unhold p s)
  | st_terminate p s s' : terminate p s = Some s' → step s s'
  | st_queue now sp s s' :
      spawn_ok sp s → queue_step now sp s = Some s' → step s s'
  | st_thread now h body s s' :
      thread_step now h body s = Some s' → step s s'.

Definition reachable (s : sys) : Prop := rtc step init_sys s.
End pools.

(** ** Executable runs

    A run given by the list of its actions; the checks of [step] are decided. *)

Inductive act :=
  | ARegister (p : Z)
  | ANew (t p : Z)
  | AOwn (t : Z) (f : asynctask → asynctask)
  | AStart (t : Z)
  | AAdd (now : timeval) (t : Z)
  | ACancel (cnd : Z → asynctask → bool)
  | AObserve (o : Z)
  | AQueue (now : timeval)
  | ASpawn (now : timeval) (h : Z)
  | AThread (now : timeval) (h : Z) (body : bool * bool).

Section runs.
Context `{PoolClass}.

Definition do_act (a : act) (s : sys) : option sys :=
  match a with
  | ARegister p =>
      if decide (pools s !! p = None)
      then Some (set_pools (<[p := new_thread_pool]> (pools s)) s) else None
  | ANew t p =>
      if decide (heap s !! t = None ∧ is_Some (pools s !! p))
      then Some (set_heap (<[t := new_asynctask p]> (heap s)) s) else None
  | AOwn t f =>
      o ← heap s !! t; Some (upd_task t (λ _, f o) s)
  | AStart t =>
      o ← heap s !! t;
      if (start_begin o).2
      then Some (set_starting (starting s ++ [t]) (upd_task t (λ o, (start_begin o).1) s))
      else None
  | AAdd now t =>
      if decide (t ∈ starting s ∧ queue_locked s = false)
      then Some (set_starting (erase_first (Z.eqb t) (starting s))
                   (add_task t (queue_on_task_started t
                      (upd_task t (with_started_at now) s))))
      else None
  | ACancel cnd => if queue_locked s then None else Some (cancel_tasks cnd s)
  | AObserve o => Some (add_observer o s)
  | AQueue now => queue_step now SpawnNull s
  | ASpawn now h =>
      if decide (live s !! h = None ∧ map_Forall (λ _ tp, h ∉ threads tp) (pools s))
      then queue_step now (SpawnOk h) s else None
  | AThread now h body => thread_step now h body s
  end.

Fixpoint do_acts (l : list act) (s : sys) : option sys :=
  match l with
  | [] => Some s
  | a :: l' => s' ← do_act a s; do_acts l' s'
  end.

(** The functions a run may apply to a task are its owner's. *)
Definition act_ok (a : act) : Prop :=
  match a with AOwn _ f => ∀ o, owner_op o (f o) | _ => True end.

Lemma do_act_step a s s' : act_ok a → do_act a s = Some s' → step s s'.
Proof.
  destruct a; cbn; intros Hok.
  - destruct (decide _); intros; simplify_eq. by constructor.
  - destruct (decide _) as [[]|]; intros; simplify_eq. by constructor.
  - destruct (heap s !! t) as [o|] eqn:Eo; cbn; intros; simplify_eq. by eapply st_owner.
  - destruct (heap s !! t) as [o|] eqn:Eo; cbn; [|done].
    destruct (start_begin o).2 eqn:Es; intros; simplify_eq. by eapply st_start.
  - destruct (decide _) as [[]|]; intros; simplify_eq. by constructor.
  - destruct (queue_locked s) eqn:Eq; intros; simplify_eq. by constructor.
  - intros; simplify_eq. apply (st_observer o true).
  - intros. by eapply (st_queue now SpawnNull).
  - destruct (decide _) as [[]|]; intros; simplify_eq. by eapply (st_queue now (SpawnOk h)).
  - intros. by eapply st_thread.
Qed.

Lemma do_acts_reachable l s : Forall act_ok l → do_acts l init_sys = Some s → reachable s.
Proof.
  unfold reachable. generalize init_sys. induction l as [|a l IH]; intros s0 Hok; cbn.
  - intros; simplify_eq. apply rtc_refl.
  - destruct (do_act a s0) as [s1|] eqn:Ea; cbn; [|done].
    apply Forall_cons in Hok as [Ha Hok]. intros. eapply rtc_l; [by eapply do_act_step|].
    by eapply IH.
Qed.
End runs.

(** ** The pool classes of the server

    The default pool, the pool of the voice-assistant synchronisation, and the
    HTTP pool, whose numbers come from the configuration. *)

#[program] Definition supla_asynctask_default_thread_pool : PoolClass :=
  {| thread_count_limit _ := 20; tasks_per_thread _ := 0;
     should_keep_alive _ _ _ := false; has_bucket _ := false |}.
Next Obligation. wrap. Qed.

#[program] Definition supla_asynctask_http_thread_pool
    (limit per_thread keep_alive_usec keep_alive_max : Z) : PoolClass :=
  {| thread_count_limit _ := u32 limit; tasks_per_thread _ := per_thread;
     should_keep_alive _ usec n := (usec <? keep_alive_usec) && (n <=? keep_alive_max);
     has_bucket _ := true |}.
Next Obligation. intros. apply u32_range. Qed.

#[program] Definition supla_voice_assistant_sync_thread_pool : PoolClass :=
  {| thread_count_limit _ := 10; tasks_per_thread _ := 1;
     should_keep_alive _ _ _ := false; has_bucket _ := true |}.
Next Obligation. wrap. Qed.

(** A run that starts a task and brings a thread into its body: pool 1, task 7,
    thread 5. *)
Definition clock (n : Z) : timeval := Timeval (100 + n) 0.
Definition run_start : list act :=
  [ARegister 1; ANew 7 1; AOwn 7 set_observable; AStart 7; AAdd (clock 0) 7].
Definition run_request : list act :=
  [AQueue (clock 0); AQueue (clock 0); AQueue (clock 0); AQueue (clock 0);
   ASpawn (clock 0) 5; AQueue (clock 0); AQueue (clock 0)].
Definition thread_run (n : nat) (body : bool * bool) : list act :=
  repeat (AThread (clock 1) 5 body) n.
Definition run_body : list act := run_start ++ run_request ++ thread_run 3 (true, false).

Definition sys_after (c : PoolClass) (l : list act) : sys :=
  default init_sys (@do_acts c l init_sys).

Ltac run_ok := repeat constructor.
