(* ===== verification/AsyncTaskInv.v ===== *)
(** * AsyncTaskInv: the invariants of the queue and the pools

    Three invariants of the step relation of AsyncTaskQueue.v, each by induction
    on reachability: the references and the order of the queue ([wf]), mutual
    exclusion ([excl]), the bounds of the pools ([pools_ok]); and the theorems
    they give. *)

From Stdlib Require Import Sorting.Sorted.
From S2P Require Import Prelude AsyncTask AsyncTaskQueue.

(** ** The order of the queue *)

Definition by_priority (h : gmap Z asynctask) : list Z → Prop :=
  StronglySorted (λ x y, prio h y <= prio h x).

Section order.
Context (h : gmap Z asynctask).

Lemma by_priority_app l1 l2 :
  by_priority h (l1 ++ l2) ↔
  by_priority h l1 ∧ by_priority h l2
  ∧ ∀ x y, x ∈ l1 → y ∈ l2 → prio h y <= prio h x.
Proof.
  unfold by_priority. induction l1 as [|a l1 IH]; simpl.
  - split; [intros Hs; split_and!; [constructor|done|set_solver]|by intros (_ & ? & _)].
  - split.
    + intros Hs. inversion Hs as [|?? Hs' Hf]; subst.
      apply IH in Hs' as (H1 & H2 & H3).
      apply List.Forall_app in Hf as [Hf1 Hf2].
      split_and!; [by constructor|done|].
      intros x y [->|Hx]%elem_of_cons Hy; [|by apply H3].
      rewrite List.Forall_forall in Hf2. by apply Hf2, list_elem_of_In.
    + intros (Hs & H2 & H3). inversion Hs as [|?? Hs' Hf]; subst.
      constructor.
      * apply IH. split_and!; [done|done|]. intros x y ??. apply H3; set_solver.
      * apply List.Forall_app. split; [done|].
        apply List.Forall_forall. intros y Hy%list_elem_of_In. apply H3; set_solver.
Qed.

Lemma insert_task_split t l :
  ∃ l1 l2, l = l1 ++ l2 ∧ insert_task h t l = l1 ++ t :: l2
    ∧ (∀ x, x ∈ l1 → prio h t <= prio h x)
    ∧ (∀ x l3, l2 = x :: l3 → prio h x < prio h t).
Proof.
  induction l as [|a l IH]; simpl.
  - exists [], []. split_and!; set_solver.
  - destruct (prio h a <? prio h t) eqn:E.
    + exists [], (a :: l). split_and!; [done|done|set_solver|].
      intros ?? [= <- <-]. lia.
    + destruct IH as (l1 & l2 & -> & -> & H1 & H2).
      exists (a :: l1), l2. split_and!; [done|done| |done].
      intros x [->|Hx]%elem_of_cons; [lia|auto].
Qed.

Lemma insert_task_perm t l : insert_task h t l ≡ₚ t :: l.
Proof.
  destruct (insert_task_split t l) as (l1 & l2 & -> & -> & _ & _).
  by rewrite Permutation_middle.
Qed.

Lemma insert_task_sorted t l : by_priority h l → by_priority h (insert_task h t l).
Proof.
  destruct (insert_task_split t l) as (l1 & l2 & -> & -> & H1 & H2).
  rewrite !by_priority_app. intros (S1 & S2 & S3).
  assert (∀ x, x ∈ l2 → prio h x <= prio h t) as H3.
  { destruct l2 as [|b l2]; [set_solver|].
    specialize (H2 b l2 eq_refl). apply StronglySorted_inv in S2 as [_ Hf].
    rewrite List.Forall_forall in Hf.
    intros x [->|Hx]%elem_of_cons; [lia|].
    specialize (Hf x (proj1 (list_elem_of_In _ _) Hx)). lia. }
  split_and!; [done| |].
  - constructor; [done|]. apply List.Forall_forall.
    intros x Hx%list_elem_of_In. auto.
  - intros x y Hx [->|Hy]%elem_of_cons; auto.
Qed.

(** In a queue ordered by priority the new task goes behind the tasks of its
    own priority and above, and before the others. *)
Lemma insert_task_filter t l :
  by_priority h l →
  insert_task h t l = filter (λ x, prio h t <= prio h x) l
                      ++ t :: filter (λ x, prio h x < prio h t) l.
Proof.
  induction l as [|a l IH]; intros Hs; simpl; [done|].
  apply StronglySorted_inv in Hs as [Hs Hf].
  rewrite List.Forall_forall in Hf.
  rewrite !filter_cons.
  destruct (prio h a <? prio h t) eqn:E.
  - rewrite decide_False by lia. rewrite decide_True by lia.
    assert (∀ x, x ∈ l → prio h x < prio h t) as Hlt.
    { intros x Hx. specialize (Hf x (proj1 (list_elem_of_In _ _) Hx)). lia. }
    assert (filter (λ x, prio h t <= prio h x) l = []) as ->.
    { destruct (filter _ l) as [|b k] eqn:Ek; [done|].
      assert (b ∈ filter (λ x, prio h t <= prio h x) l) as Hb
        by (rewrite Ek; apply list_elem_of_here).
      apply list_elem_of_filter in Hb as [Hb1 Hb2]. specialize (Hlt b Hb2). lia. }
    assert (filter (λ x, prio h x < prio h t) l = l) as ->; [|done].
    clear -Hlt. induction l as [|b l IH]; [done|].
    rewrite filter_cons, decide_True by (apply Hlt; apply list_elem_of_here).
    f_equal. apply IH. intros. by apply Hlt, list_elem_of_further.
  - rewrite decide_True by lia. rewrite decide_False by lia. simpl. by rewrite IH.
Qed.
End order.

(** What [pick] finds first is the best candidate of an ordered queue. *)
Lemma find_first_best h p l t :
  by_priority h l → find_first p l = Some t →
  ∃ l1 l2, l = l1 ++ t :: l2 ∧ (∀ x, x ∈ l1 → p x = false)
           ∧ ∀ x, x ∈ l → p x = true → prio h x <= prio h t.
Proof.
  intros Hs Hf. destruct (erase_first_Some _ _ _ Hf) as (l1 & l2 & -> & _ & H1 & H2).
  exists l1, l2. split_and!; [done|done|].
  apply by_priority_app in Hs as (_ & Hs & _).
  apply StronglySorted_inv in Hs as [_ Hs]. rewrite List.Forall_forall in Hs.
  intros x [Hx|[->|Hx]%elem_of_cons]%elem_of_app Hp; [|lia|].
  - specialize (H1 x Hx). congruence.
  - by apply Hs, list_elem_of_In.
Qed.

(** ** Heaps that differ by an operation on one task *)

(** The started tasks of [h] are there in [h'], started, with the same pool and
    priority. *)
Definition heap_le (h h' : gmap Z asynctask) : Prop :=
  ∀ t o, h !! t = Some o → state o ≠ INIT →
         ∃ o', h' !! t = Some o' ∧ state o' ≠ INIT ∧ priority o' = priority o
               ∧ pool o' = pool o.

Definition started (h : gmap Z asynctask) (t : Z) : Prop :=
  ∃ o, h !! t = Some o ∧ state o ≠ INIT.

Lemma heap_le_refl h : heap_le h h.
Proof. intros t o H1 H2. eauto. Qed.

Lemma heap_le_trans h1 h2 h3 : heap_le h1 h2 → heap_le h2 h3 → heap_le h1 h3.
Proof.
  intros H1 H2 t o Ho Hs. destruct (H1 t o Ho Hs) as (o' & Ho' & Hs' & Hp & Hq).
  destruct (H2 t o' Ho' Hs') as (o'' & ? & ? & ? & ?). exists o''. split_and!; congruence.
Qed.

(** An operation that keeps a started task started, with its pool and priority. *)
Definition keeps (f : asynctask → asynctask) (o : asynctask) : Prop :=
  state o ≠ INIT →
  state (f o) ≠ INIT ∧ priority (f o) = priority o ∧ pool (f o) = pool o.

Lemma heap_le_alter h t f :
  (∀ o, h !! t = Some o → keeps f o) → heap_le h (alter f t h).
Proof.
  intros Hf u o Hu Hs. destruct (decide (u = t)) as [->|Hne].
  - exists (f o). destruct (Hf o Hu Hs) as (? & ? & ?).
    rewrite lookup_alter_eq, Hu. done.
  - exists o. by rewrite lookup_alter_ne.
Qed.

Lemma heap_le_insert h t o : h !! t = None → heap_le h (<[t := o]> h).
Proof.
  intros Ht u o' Hu Hs. exists o'. rewrite lookup_insert_ne by congruence. done.
Qed.

Lemma started_le h h' t : heap_le h h' → started h t → started h' t.
Proof. intros Hle (o & Ho & Hs). destruct (Hle t o Ho Hs) as (o' & ? & ? & _). by exists o'. Qed.

Lemma prio_le h h' t : heap_le h h' → started h t → prio h' t = prio h t.
Proof.
  intros Hle (o & Ho & Hs). destruct (Hle t o Ho Hs) as (o' & Ho' & ? & ? & _).
  unfold prio. by rewrite Ho, Ho'.
Qed.

Lemma by_priority_le h h' l :
  heap_le h h' → (∀ t, t ∈ l → started h t) → by_priority h l → by_priority h' l.
Proof.
  intros Hle. induction l as [|a l IH]; intros Hst Hs; [constructor|].
  apply StronglySorted_inv in Hs as [Hs Hf]. constructor.
  - apply IH; [|done]. intros. by apply Hst, list_elem_of_further.
  - rewrite List.Forall_forall in *. intros x Hx.
    rewrite !(prio_le h h') by (try done; apply Hst; (by apply list_elem_of_here)
                                || (by apply list_elem_of_further, list_elem_of_In)).
    by apply Hf.
Qed.

(** Every operation of AsyncTask.v keeps a started task. *)
Lemma keeps_owner o o' : owner_op o o' → keeps (λ _, o') o.
Proof.
  intros Ho Hs. destruct Ho; cbn; [..|done].
  - unfold set_priority. by rewrite decide_False.
  - unfold set_observable. by destruct (negb _).
  - done.
Qed.

Lemma keeps_with_state st o : st ≠ INIT → keeps (with_state st) o.
Proof. by intros ??. Qed.

Lemma keeps_start o : keeps (λ o, (start_begin o).1) o.
Proof. intros Hs. unfold start_begin. by rewrite decide_False. Qed.

Lemma keeps_pick o : keeps (λ o, (pick_task o).1) o.
Proof. intros Hs. unfold pick_task. by destruct (decide _). Qed.

Lemma keeps_request now r o : keeps (set_execution_request_time now r) o.
Proof. intros Hs. by destruct r. Qed.

Lemma keeps_begin now o : keeps (λ _, (execute_begin now o).1.1) o.
Proof.
  intros Hs. pose proof (execute_begin_state now o) as Hst.
  split; [destruct Hst as [-> |[? [-> | ->]]]; done|].
  unfold execute_begin. destruct (bool_decide _); cbn; [|done].
  destruct (negb _); [|done]. destruct (_ <? 0); [|done]. by destruct (_ <=? _).
Qed.

Lemma keeps_end now r a o : keeps (λ _, (execute_end now r a o).1) o.
Proof.
  intros Hs. unfold execute_end. destruct (decide _); [done|].
  destruct a; [done|]. by destruct r.
Qed.

Lemma keeps_notified o : keeps with_notified o.
Proof. by intros ?. Qed.

Lemma keeps_started_at now o : keeps (with_started_at now) o.
Proof. by intros ?. Qed.

Create HintDb keeps.
#[export] Hint Resolve keeps_owner keeps_start keeps_pick keeps_request keeps_begin
  keeps_end keeps_notified keeps_started_at : keeps.
#[export] Hint Extern 1 (keeps cancel _) => (apply keeps_with_state; discriminate) : keeps.

(** ** References and order: the first invariant *)

Definition scanned (c : queue_pc) : list Z :=
  match c with
  | QScan _ rest _ => rest
  | QRequest _ t rest _ | QEnqueue _ t rest _ | QSpawn _ t _ rest _ => t :: rest
  | QIterate | QWait _ => []
  end.

Record wf (s : sys) : Prop := {
  wf_nodup : NoDup (tasks s ++ starting s);
  wf_started : ∀ t, t ∈ tasks s ++ starting s → started (heap s) t;
  wf_sorted : by_priority (heap s) (tasks s);
  wf_held : ∀ h th t, live s !! h = Some th → held (th_pc th) = Some t →
                      started (heap s) t;
  wf_scanned : ∀ t, t ∈ scanned (qpc s) → t ∈ tasks s;
  wf_pool : ∀ t o, heap s !! t = Some o → is_Some (pools s !! pool o);
  wf_live : ∀ h th, live s !! h = Some th → is_Some (pools s !! th_pool th)
}.

Lemma wf_init : wf init_sys.
Proof. constructor; cbn; try set_solver; constructor. Qed.

(** The fields the invariant does not read. *)
Lemma wf_set_event b s : wf s → wf (set_event b s).
Proof. by intros []; constructor. Qed.
Lemma wf_set_last z s : wf s → wf (set_last_iterate z s).
Proof. by intros []; constructor. Qed.
Lemma wf_tell l s : wf s → wf (tell l s).
Proof. by intros []; constructor. Qed.
Lemma wf_set_observers l s : wf s → wf (set_observers l s).
Proof. by intros []; constructor. Qed.

Lemma wf_set_qpc c s : (∀ t, t ∈ scanned c → t ∈ tasks s) → wf s → wf (set_qpc c s).
Proof. by intros ? []; constructor. Qed.

Lemma wf_heap h' s :
  heap_le (heap s) h' →
  (∀ t o, h' !! t = Some o → is_Some (pools s !! pool o)) →
  wf s → wf (set_heap h' s).
Proof.
  intros Hle Hpool []; constructor; cbn; [done| | | |done|done|done].
  - intros t Ht. eapply started_le; [done|auto].
  - eapply by_priority_le; [done| |done]. intros t Ht. apply wf_started0. set_solver.
  - intros h th t H1 H2. eapply started_le; [done|eauto].
Qed.

Lemma wf_upd_task t f s :
  (∀ o, heap s !! t = Some o → keeps f o) →
  (∀ o, heap s !! t = Some o → pool (f o) = pool o) →
  wf s → wf (upd_task t f s).
Proof.
  intros Hk Hp Hwf. apply wf_heap; [by apply heap_le_alter| |done].
  intros u o. destruct (decide (u = t)) as [->|Hne].
  - rewrite lookup_alter_eq. intros [o' [Ho ->]]%fmap_Some.
    rewrite (Hp o' Ho). by eapply wf_pool.
  - rewrite lookup_alter_ne by done. by apply wf_pool.
Qed.

Lemma wf_pools m s :
  (∀ p, is_Some (pools s !! p) → is_Some (m !! p)) → wf s → wf (set_pools m s).
Proof. intros Hm []; constructor; cbn; eauto. Qed.

Lemma wf_upd_pool p f s : wf s → wf (upd_pool p f s).
Proof.
  apply wf_pools. intros q. destruct (decide (q = p)) as [->|Hne].
  - rewrite lookup_alter_eq. apply fmap_is_Some.
  - by rewrite lookup_alter_ne.
Qed.

Lemma wf_set_live m s :
  (∀ h th, m !! h = Some th → is_Some (pools s !! th_pool th)
     ∧ ∀ t, held (th_pc th) = Some t → started (heap s) t) →
  wf s → wf (set_live m s).
Proof.
  intros Hm []; constructor; cbn; try done.
  - intros h th t H1 H2. by eapply Hm.
  - intros h th H1. by eapply Hm.
Qed.

Lemma wf_upd_thread h f s :
  (∀ th, live s !! h = Some th → th_pool (f th) = th_pool th
     ∧ ∀ t, held (th_pc (f th)) = Some t → started (heap s) t) →
  wf s → wf (upd_thread h f s).
Proof.
  intros Hf Hwf. apply wf_set_live; [|done]. intros h' th'.
  destruct (decide (h' = h)) as [->|Hne].
  - rewrite lookup_alter_eq. intros [th [Hth ->]]%fmap_Some.
    destruct (Hf th Hth) as [-> ?]. split; [by eapply wf_live|done].
  - rewrite lookup_alter_ne by done. intros Hth. split; [by eapply wf_live|].
    intros t. by eapply wf_held.
Qed.

Lemma erase_first_subset {A} (p : A → bool) l x : x ∈ erase_first p l → x ∈ l.
Proof. intros Hx. by eapply elem_of_submseteq, sublist_submseteq, erase_first_sublist. Qed.

Lemma erase_first_nodup {A} (p : A → bool) l : NoDup l → NoDup (erase_first p l).
Proof. intros. by eapply sublist_NoDup, erase_first_sublist. Qed.

Lemma StronglySorted_sublist {A} (R : relation A) l1 l2 :
  l1 `sublist_of` l2 → StronglySorted R l2 → StronglySorted R l1.
Proof.
  induction 1 as [|x l1 l2 Hs IH|x l1 l2 Hs IH]; intros Ho; [done| |].
  - apply StronglySorted_inv in Ho as [Ho Hf]. constructor; [auto|].
    rewrite List.Forall_forall in *. intros y Hy. apply Hf.
    apply list_elem_of_In. eapply elem_of_submseteq; [by apply list_elem_of_In|].
    by apply sublist_submseteq.
  - apply StronglySorted_inv in Ho as [Ho _]. auto.
Qed.

Lemma wf_remove_task t s : scanned (qpc s) = [] → wf s → wf (remove_task t s).
Proof.
  intros Hq Hwf. pose proof Hwf as []. unfold remove_task. constructor; cbn; try done.
  - eapply sublist_NoDup; [done|]. apply sublist_app; [|done].
    apply erase_first_sublist.
  - intros u Hu. apply wf_started0. set_solver by eauto using erase_first_subset.
  - eapply StronglySorted_sublist; [apply erase_first_sublist|done].
  - rewrite Hq. set_solver.
Qed.

Lemma queue_unlocked_scanned s : queue_locked s = false → scanned (qpc s) = [].
Proof. unfold queue_locked. by destruct (qpc s). Qed.

Lemma wf_start t o s :
  heap s !! t = Some o → (start_begin o).2 = true → wf s →
  wf (set_starting (starting s ++ [t]) (upd_task t (λ o, (start_begin o).1) s)).
Proof.
  intros Ho Hst Hwf.
  assert (state o = INIT) as Hi by (revert Hst; unfold start_begin; by destruct (decide _)).
  assert (t ∉ tasks s ++ starting s) as Hnew.
  { intros Hin. destruct (wf_started s Hwf t Hin) as (o' & ? & ?). congruence. }
  assert (wf (upd_task t (λ o, (start_begin o).1) s)) as [].
  { apply wf_upd_task; [eauto with keeps| |done].
    intros o' _. unfold start_begin. by destruct (decide _). }
  constructor; cbn in *; try done.
  - rewrite app_assoc. apply NoDup_app. split_and!; [done| |apply NoDup_singleton].
    set_solver.
  - intros u. rewrite app_assoc, elem_of_app, list_elem_of_singleton.
    intros [Hu| ->]; [by apply wf_started0|].
    exists (with_state WAITING o). rewrite lookup_alter_eq, Ho.
    split; [|done]. cbn. unfold start_begin. by rewrite Hi.
Qed.

Lemma wf_add now t s :
  t ∈ starting s → queue_locked s = false → wf s →
  wf (set_starting (erase_first (Z.eqb t) (starting s))
        (add_task t (queue_on_task_started t (upd_task t (with_started_at now) s)))).
Proof.
  intros Ht Hq Hwf. apply queue_unlocked_scanned in Hq.
  assert (wf (upd_task t (with_started_at now) s)) as [].
  { apply wf_upd_task; eauto with keeps. }
  unfold add_task. constructor; cbn in *; try done.
  - set (h := alter _ _ _). rewrite insert_task_perm.
    assert (∃ l1 l2, starting s = l1 ++ t :: l2
                     ∧ erase_first (Z.eqb t) (starting s) = l1 ++ l2)
      as (l1 & l2 & E1 & ->).
    { destruct (find_first (Z.eqb t) (starting s)) as [x|] eqn:E.
      - destruct (erase_first_Some _ _ _ E) as (l1 & l2 & ? & ? & _ & ?).
        exists l1, l2. split; [|done]. by replace t with x by lia.
      - apply find_first_None with (x := t) in E; [|done]. lia. }
    rewrite E1 in wf_nodup0. revert wf_nodup0.
    by rewrite <- Permutation_middle, <- Permutation_middle.
  - intros u Hu. apply wf_started0. revert Hu.
    rewrite elem_of_app, insert_task_perm, elem_of_app, elem_of_cons.
    intros [[-> | ?] | ?%erase_first_subset]; auto.
  - by apply insert_task_sorted.
  - rewrite Hq. set_solver.
Qed.

Lemma wf_cancel_tasks cnd s :
  queue_locked s = false → wf s → wf (cancel_tasks cnd s).
Proof.
  intros Hq%queue_unlocked_scanned. unfold cancel_tasks.
  generalize (filter (λ t, condition_met (heap s) cnd t = true) (tasks s)). intros l.
  revert s Hq. induction l as [|t l IH]; intros s Hq Hwf; simpl; [done|].
  apply IH; [done|]. apply wf_remove_task; [done|].
  apply wf_upd_task; eauto with keeps.
Qed.

Lemma by_priority_delete h t l :
  t ∉ l → by_priority h l → by_priority (delete t h) l.
Proof.
  unfold by_priority. induction l as [|a l IH]; intros Hn Hss; [constructor|].
  apply not_elem_of_cons in Hn as [Hn1 Hn2].
  apply StronglySorted_inv in Hss as [Hss Hf]. constructor; [auto|].
  rewrite List.Forall_forall in *. intros x Hx. specialize (Hf x Hx).
  assert (t ≠ x) by (intros ->; by apply Hn2, list_elem_of_In).
  unfold prio in *. by rewrite !lookup_delete_ne.
Qed.

Lemma wf_destroy t o s :
  heap s !! t = Some o → unreferenced t s → wf s → wf (destroy t o s).
Proof.
  intros Ho (H1 & H2 & H3) Hwf.
  assert (∀ u, u ≠ t → started (heap s) u → started (delete t (heap s)) u) as Hs.
  { intros u Hu (o' & ? & ?). exists o'. by rewrite lookup_delete_ne. }
  assert (wf (set_heap (delete t (heap s)) s)) as Hd.
  { destruct Hwf. constructor; cbn; try done.
    - intros u Hu. apply Hs; [set_solver|auto].
    - by apply by_priority_delete.
    - intros h th u ? Hu. apply Hs; [|eauto]. intros ->. by eapply H3.
    - intros u o'. rewrite lookup_delete_Some. intros [_ ?]. eauto. }
  unfold destroy. destruct (on_task_finished o).2; [|done].
  by apply (wf_tell _ _ Hd).
Qed.

Section invariant.
Context `{PoolClass}.

Lemma wf_request_enqueue now t p s r s1 :
  request_enqueue now t p s = Some (r, s1) → wf s → wf s1.
Proof.
  unfold request_enqueue. destruct (pools s !! p) as [tp|]; cbn; [|done].
  destruct (existsb _ _); intros E Hwf; simplify_eq; [done|].
  apply wf_upd_pool, wf_upd_task; eauto with keeps.
Qed.

Lemma wf_request_thread now sp p n s s1 :
  request_thread now sp p n s = Some s1 → wf s → wf s1.
Proof.
  unfold request_thread. destruct (pools s !! p) as [tp|] eqn:Ep; cbn; [|done].
  destruct (_ <? _); [|intros [= <-]; by apply wf_upd_pool].
  destruct (wants_thread _ _ _); [|congruence].
  destruct sp as [h| |h]; intros [= <-] Hwf; [|done|by apply wf_upd_pool].
  apply (wf_upd_pool p (add_thread h)) in Hwf.
  apply (wf_set_live _ (upd_pool p (add_thread h) s)); [|done].
  intros h' th. cbn. destruct (decide (h' = h)) as [->|Hne].
  - rewrite lookup_insert_eq. intros [= <-]. split; [|done].
    cbn. rewrite lookup_alter_eq, Ep. by eexists.
  - rewrite lookup_insert_ne by done. intros Hh.
    split; [by eapply (wf_live _ Hwf)|]. intros t. by eapply (wf_held _ Hwf).
Qed.

Lemma request_enqueue_frame now t p s r s1 :
  request_enqueue now t p s = Some (r, s1) →
  tasks s1 = tasks s ∧ qpc s1 = qpc s ∧ starting s1 = starting s ∧ live s1 = live s.
Proof.
  unfold request_enqueue. destruct (pools s !! p); cbn; [|done].
  destruct (existsb _ _); intros; by simplify_eq.
Qed.

Lemma request_thread_frame now sp p n s s1 :
  request_thread now sp p n s = Some s1 →
  tasks s1 = tasks s ∧ qpc s1 = qpc s ∧ starting s1 = starting s ∧ heap s1 = heap s.
Proof.
  unfold request_thread. destruct (pools s !! p); cbn; [|done].
  destruct (_ <? _); [destruct (wants_thread _ _ _)|]; [destruct sp|..];
    intros; by simplify_eq.
Qed.

Lemma wf_queue_step now sp s s' :
  queue_step now sp s = Some s' → wf s → wf s'.
Proof.
  unfold queue_step. intros E Hwf. pose proof (wf_scanned _ Hwf) as Hsc.
  destruct (qpc s) as [|nw [|t rest] w|nw t rest w|nw t rest w|nw t n rest w|w]; cbn in Hsc.
  - simplify_eq. apply wf_set_qpc; [done|]. by apply wf_set_last.
  - simplify_eq. apply wf_set_qpc; [set_solver|done].
  - destruct (heap s !! t) as [o|]; cbn in E; [|done].
    destruct (_ && _); [|simplify_eq; apply wf_set_qpc; set_solver].
    destruct (_ <=? _); [simplify_eq; by apply wf_set_qpc|].
    destruct (_ <? w); simplify_eq; apply wf_set_qpc; set_solver.
  - destruct (heap s !! t) as [o|]; cbn in E; [|done].
    destruct (pools s !! pool o) as [tp|]; cbn in E; [|done].
    destruct (_ || _); simplify_eq; apply wf_set_qpc; set_solver.
  - destruct (heap s !! t) as [o|]; cbn in E; [|done].
    destruct (request_enqueue _ _ _ _) as [[r s1]|] eqn:Er; cbn in E; [|done].
    destruct (request_enqueue_frame _ _ _ _ _ _ Er) as (Ht & _).
    apply wf_request_enqueue in Er; [|done].
    destruct r; simplify_eq; apply wf_set_qpc; rewrite ?Ht; set_solver.
  - destruct (heap s !! t) as [o|]; cbn in E; [|done].
    destruct (request_thread _ _ _ _ _) as [s1|] eqn:Er; cbn in E; [|done].
    destruct (request_thread_frame _ _ _ _ _ _ Er) as (Ht & _).
    apply wf_request_thread in Er; [|done].
    simplify_eq; apply wf_set_qpc; rewrite ?Ht; set_solver.
  - simplify_eq. by apply wf_set_event, wf_set_qpc.
Qed.

(** Moving a thread on, when it keeps what it held or holds a started task. *)
Lemma wf_goto h c s :
  (∀ t, held c = Some t → started (heap s) t) → wf s → wf (upd_thread h (goto c) s).
Proof. intros Hc. by apply wf_upd_thread. Qed.

Lemma started_upd_task u t f s :
  (∀ o, heap s !! t = Some o → keeps f o) →
  started (heap s) u → started (heap (upd_task t f s)) u.
Proof. intros Hk. eapply started_le. cbn. by apply heap_le_alter. Qed.

Lemma pool_execute_begin now o : pool (execute_begin now o).1.1 = pool o.
Proof.
  unfold execute_begin. destruct (bool_decide _); cbn; [|done].
  destruct (negb _); [|done]. destruct (_ <? 0); [|done]. by destruct (_ <=? _).
Qed.

Lemma pool_execute_end now r a o : pool (execute_end now r a o).1 = pool o.
Proof.
  unfold execute_end. destruct (decide _); [done|]. destruct a; [done|]. by destruct r.
Qed.

Lemma wf_pick now p s r s1 :
  pick now p s = (r, s1) → wf s →
  wf s1 ∧ (∀ t, r = Some t → t ∈ tasks s ∧ started (heap s1) t).
Proof.
  unfold pick. destruct (pick_find _ _ _ _) as [t|] eqn:Ef; intros E Hwf; simplify_eq.
  - apply find_first_Some in Ef as [_ Hin]. split.
    + apply wf_upd_task; [eauto with keeps| |done].
      intros o _. unfold pick_task. by destruct (decide _).
    + intros t' [= <-]. split; [done|]. apply started_upd_task; [eauto with keeps|].
      apply (wf_started _ Hwf). set_solver.
  - by split.
Qed.

Lemma wf_replace_task t o o1 s :
  heap s !! t = Some o → keeps (λ _, o1) o → pool o1 = pool o → wf s →
  wf (upd_task t (λ _, o1) s)
  ∧ ∀ u, started (heap s) u → started (heap (upd_task t (λ _, o1) s)) u.
Proof.
  intros Ho Hk Hp Hwf.
  assert (∀ o', heap s !! t = Some o' → keeps (λ _, o1) o') by (intros; by simplify_eq).
  split; [|intros; by apply started_upd_task].
  apply wf_upd_task; [done| |done]. intros; by simplify_eq.
Qed.

Lemma wf_thread_step now h body s s' :
  thread_step now h body s = Some s' → wf s → wf s'.
Proof.
  unfold thread_step. destruct (live s !! h) as [th|] eqn:Eh; cbn; [|done].
  intros E Hwf. pose proof (wf_held _ Hwf h th) as Hh.
  assert (∀ t, held (th_pc th) = Some t → started (heap s) t) as Hst by eauto. clear Hh.
  destruct (th_pc th) as [| |t|t|t|t|t|t|t|t|t| | |]; cbn in Hst.
  - simplify_eq. apply wf_goto; [done|]. destruct (has_bucket _); [|done].
    by apply wf_upd_pool.
  - destruct (queue_locked s); [done|]. destruct (pick now (th_pool th) s) as [r s1] eqn:Ep.
    destruct (wf_pick _ _ _ _ _ Ep Hwf) as [Hwf1 Hr].
    destruct r as [t|]; simplify_eq; apply wf_goto; try done.
    intros u [= <-]. by apply Hr.
  - destruct (heap s !! t) as [o|] eqn:Eo; cbn in E; [|done].
    pose proof (keeps_begin now o) as Hk. pose proof (pool_execute_begin now o) as Hp.
    destruct (execute_begin now o) as [[o1 al] us]. cbn in Hk, Hp. simplify_eq.
    destruct (wf_replace_task t o o1 s Eo Hk Hp Hwf) as [Hwf1 Hs].
    apply wf_goto; [|done]. intros u Hu. apply Hs, Hst. by destruct al.
  - destruct (heap s !! t) as [o|] eqn:Eo; cbn in E; [|done].
    pose proof (keeps_end now body.1 body.2 o) as Hk.
    pose proof (pool_execute_end now body.1 body.2 o) as Hp.
    destruct (execute_end now body.1 body.2 o) as [o1 ra]. cbn in Hk, Hp. simplify_eq.
    destruct (wf_replace_task t o o1 s Eo Hk Hp Hwf) as [Hwf1 Hs].
    apply wf_goto; [|by destruct ra; [apply wf_set_event|]].
    intros u Hu. specialize (Hs u (Hst u Hu)). by destruct ra.
  - destruct (heap s !! t) as [o|]; cbn in E; [|done]. simplify_eq.
    apply wf_goto; [|done]. intros u Hu. apply Hst. by destruct (_ && _).
  - destruct (heap s !! t) as [o|]; cbn in E; [|done]. simplify_eq.
    apply wf_goto; [|apply wf_tell, wf_upd_task; eauto with keeps].
    intros u Hu. apply started_upd_task; eauto with keeps.
  - simplify_eq. apply wf_goto; [done|]. by apply wf_upd_pool.
  - destruct (heap s !! t) as [o|]; cbn in E; [|done]. simplify_eq.
    apply wf_goto; [|done]. intros u Hu. apply Hst. by destruct (is_finished o).
  - destruct (queue_locked s) eqn:Eq; [done|]. simplify_eq. apply wf_goto; [done|].
    apply wf_remove_task; [by apply queue_unlocked_scanned|done].
  - simplify_eq. apply wf_goto.
    + intros u Hu. apply (started_upd_task u t); eauto with keeps.
    + apply wf_set_event, wf_upd_task; eauto with keeps.
  - simplify_eq. apply wf_upd_thread; [done|]. by apply wf_upd_pool.
  - destruct (pools s !! th_pool th) as [tp|]; cbn in E; [|done]. simplify_eq.
    apply wf_goto; [|done]. by destruct (iterate_again _ _ _ _).
  - simplify_eq. apply wf_goto; [done|]. destruct (has_bucket _); [|done].
    by apply wf_upd_pool.
  - simplify_eq.
    assert (wf (on_thread_finish h (th_pool th) s)) as Hwf1 by (by apply wf_upd_pool).
    apply wf_set_live; [|exact Hwf1]. intros h' th' [_ Hl]%lookup_delete_Some.
    split; [by eapply (wf_live _ Hwf1)|intros t; by eapply (wf_held _ Hwf1)].
Qed.

Lemma wf_terminate p s s' : terminate p s = Some s' → wf s → wf s'.
Proof.
  unfold terminate. destruct (pools s !! p) as [tp|]; cbn; [|done].
  intros [= <-] Hwf.
  match goal with |- wf (foldl _ ?x _) => assert (wf x) as Hx by (by apply wf_upd_pool);
    revert Hx; generalize x end.
  induction (threads tp) as [|h l IH]; intros x Hx; simpl; [done|].
  apply IH, wf_upd_thread; [|done]. intros th Hth. split; [done|].
  intros t Hc. exact (wf_held _ Hx h th t Hth Hc).
Qed.

Lemma wf_step s s' : wf s → step s s' → wf s'.
Proof.
  intros Hwf Hs. revert Hwf.
  destruct Hs as [p s0 Hp|t p s0 Ht Hp|t o o' s0 Ho Hop|s0|t o s0 Ho Hst|now t s0 Ht Hq
    |cnd s0 Hq|t o s0 Ho Hu|o b s0|p b s0|p s0 s1 E|now sp s0 s1 _ E|now h body s0 s1 E]; intros Hwf.
  - apply wf_pools; [|done]. intros q Hq. apply lookup_insert_is_Some'. by right.
  - apply wf_heap; [by apply heap_le_insert| |done].
    intros u o. rewrite lookup_insert_Some.
    intros [[<- <-]|[_ ?]]; [done|by eapply (wf_pool _ Hwf)].
  - apply wf_upd_task; [|intros; simplify_eq|done].
    + intros o1 ?; simplify_eq. by apply keeps_owner.
    + destruct Hop; [|unfold set_observable; by destruct (negb _)|done..].
      unfold set_priority. by destruct (decide _).
  - by apply wf_set_event.
  - by eapply wf_start.
  - by apply wf_add.
  - by apply wf_cancel_tasks.
  - by apply wf_destroy.
  - destruct b; [unfold add_observer; destruct (decide _)|]; by try apply wf_set_observers.
  - destruct b; by apply wf_upd_pool.
  - by eapply wf_terminate.
  - by eapply wf_queue_step.
  - by eapply wf_thread_step.
Qed.

Lemma reachable_wf s : reachable s → wf s.
Proof. intros Hr. eapply rtc_invariant; [exact Hr|exact wf_init|exact wf_step]. Qed.

(** A thread that runs, or is about to run, the body of a task. *)
Definition running (c : pc) : option Z :=
  match c with PcBegin t | PcBody t => Some t | _ => None end.

Definition busy (t : Z) (s : sys) : Prop :=
  ∃ h th, live s !! h = Some th ∧ running (th_pc th) = Some t.

(** ** Mutual exclusion: the second invariant *)

Record excl (s : sys) : Prop := {
  ex_begin : ∀ h th t, live s !! h = Some th → th_pc th = PcBegin t →
    ∃ o, heap s !! t = Some o ∧ (state o = PICKED ∨ state o = CANCELED);
  ex_body : ∀ h th t, live s !! h = Some th → th_pc th = PcBody t →
    ∃ o, heap s !! t = Some o ∧ (state o = EXECUTING ∨ state o = CANCELED);
  ex_one : ∀ h1 h2 th1 th2 t, live s !! h1 = Some th1 → live s !! h2 = Some th2 →
    running (th_pc th1) = Some t → running (th_pc th2) = Some t → h1 = h2
}.

(** Steps that start no execution, and at most cancel the tasks being run. *)
Lemma excl_mono s s' :
  (∀ h th' t, live s' !! h = Some th' → running (th_pc th') = Some t →
     ∃ th, live s !! h = Some th ∧ th_pc th = th_pc th') →
  (∀ t o, busy t s' → heap s !! t = Some o →
     ∃ o', heap s' !! t = Some o' ∧ (state o' = state o ∨ state o' = CANCELED)) →
  excl s → excl s'.
Proof.
  intros Hl Hh [H1 H2 H3]. split.
  - intros h th' t Hth Hc.
    destruct (Hl h th' t Hth) as (th & Ha & Hb); [by rewrite Hc|].
    destruct (H1 h th t Ha) as (o & Ho & Hs); [congruence|].
    destruct (Hh t o) as (o' & Ho' & Hs'); [|done|].
    + exists h, th'. by rewrite Hc.
    + exists o'. split; [done|]. by destruct Hs' as [-> | ->]; [|right].
  - intros h th' t Hth Hc.
    destruct (Hl h th' t Hth) as (th & Ha & Hb); [by rewrite Hc|].
    destruct (H2 h th t Ha) as (o & Ho & Hs); [congruence|].
    destruct (Hh t o) as (o' & Ho' & Hs'); [|done|].
    + exists h, th'. by rewrite Hc.
    + exists o'. split; [done|]. by destruct Hs' as [-> | ->]; [|right].
  - intros h1 h2 th1 th2 t Ha Hb Hc Hd.
    destruct (Hl h1 th1 t Ha Hc) as (th1' & Ha' & Hc').
    destruct (Hl h2 th2 t Hb Hd) as (th2' & Hb' & Hd').
    eapply H3; [exact Ha'|exact Hb'|by rewrite Hc'|by rewrite Hd'].
Qed.

(** Steps of one task object that at most cancel it. *)
Definition calm (f : asynctask → asynctask) (o : asynctask) : Prop :=
  state (f o) = state o ∨ state (f o) = CANCELED.

Lemma excl_heap s s' t f :
  live s' = live s → heap s' = alter f t (heap s) →
  (∀ o, busy t s → heap s !! t = Some o → calm f o) → excl s → excl s'.
Proof.
  intros El Eh Hf. apply excl_mono.
  - rewrite El. eauto.
  - intros u o Hb Ho. rewrite Eh. unfold busy in Hb. rewrite El in Hb.
    destruct (decide (u = t)) as [->|Hne].
    + exists (f o). rewrite lookup_alter_eq, Ho. split; [done|]. by apply Hf.
    + exists o. rewrite lookup_alter_ne by done. eauto.
Qed.

Lemma excl_same s s' : live s' = live s → heap s' = heap s → excl s → excl s'.
Proof.
  intros El Eh. apply excl_mono; [rewrite El; eauto|].
  intros t o _ Ho. exists o. rewrite Eh. auto.
Qed.

(** A thread that moves to a place where it runs nothing. *)
Lemma excl_thread h f s :
  (∀ th, running (th_pc (f th)) = None) → excl s → excl (upd_thread h f s).
Proof.
  intros Hf. apply excl_mono; cbn; [|eauto].
  intros h' th' t. destruct (decide (h' = h)) as [->|Hne].
  - rewrite lookup_alter_eq. intros [th [_ ->]]%fmap_Some. by rewrite Hf.
  - rewrite lookup_alter_ne by done. eauto.
Qed.

(** The thread that picks a task is the only one that runs it. *)
Lemma excl_pick now h p t s s1 :
  excl s → pick now p s = (Some t, s1) → excl (upd_thread h (goto (PcBegin t)) s1).
Proof.
  unfold pick. intros Hex. destruct (pick_find _ _ _ _) as [t'|] eqn:Ef; [|done].
  intros E; simplify_eq. apply find_first_Some in Ef as [Hp _].
  unfold pickable in Hp. destruct (heap s !! t) as [o|] eqn:Eo; [|done].
  apply andb_prop in Hp as [[Hw%bool_decide_eq_true _]%andb_prop _].
  assert (¬ busy t s) as Hidle.
  { intros (h' & th' & Hl & Hr). destruct (th_pc th') eqn:Ec; simplify_eq/=.
    - destruct (ex_begin _ Hex h' th' t Hl Ec) as (? & ? & [?|?]); congruence.
    - destruct (ex_body _ Hex h' th' t Hl Ec) as (? & ? & [?|?]); congruence. }
  assert (alter (λ o, (pick_task o).1) t (heap s) !! t
          = Some (with_state PICKED o)) as Ht.
  { rewrite lookup_alter_eq, Eo. cbn. f_equal. unfold pick_task.
    by rewrite decide_True. }
  assert (excl (upd_task t (λ o, (pick_task o).1) s)) as [H1 H2 H3].
  { by eapply (excl_heap s _ t (λ o, (pick_task o).1)). }
  split; cbn; intros h1; [intros th u|intros th u|intros h2 th1 th2 u];
    rewrite ?lookup_alter_Some.
  - intros [(-> & th' & Hth & ->)|[Hne Hl]] Hc; [|by eapply H1].
    cbn in Hc. simplify_eq. exists (with_state PICKED o). split; [exact Ht|by left].
  - intros [(-> & th' & Hth & ->)|[Hne Hl]] Hc; [done|by eapply H2].
  - intros [(-> & th' & Hth & ->)|[Hne Hl]] [(-> & th'' & Hth' & ->)|[Hne' Hl']] Hc Hd;
      cbn in Hc, Hd; simplify_eq; try done.
    + exfalso. apply Hidle. by exists h2, th2.
    + exfalso. apply Hidle. by exists h1, th1.
    + by eapply H3.
Qed.

Lemma calm_owner o o' : owner_op o o' → calm (λ _, o') o.
Proof.
  intros Ho. left. destruct Ho; cbn; [..|done|done].
  - unfold set_priority. by destruct (decide _).
  - unfold set_observable. by destruct (negb _).
Qed.

(** The step of a thread that runs [t] and changes [t]: nobody else runs it. *)
Lemma excl_run h th t o o1 c s s' :
  live s !! h = Some th → running (th_pc th) = Some t → heap s !! t = Some o →
  live s' = alter (goto c) h (live s) → heap s' = alter (λ _, o1) t (heap s) →
  running c = None ∨ (c = PcBody t ∧ (state o1 = EXECUTING ∨ state o1 = CANCELED)) →
  excl s → excl s'.
Proof.
  intros Hl Hr Ho El Eh Hc Hex.
  assert (∀ h' th', h ≠ h' → live s !! h' = Some th' → running (th_pc th') ≠ Some t)
    as Hone by (intros h' th' Hne Hl' Hr'; by eapply Hne, (ex_one _ Hex)).
  assert (∀ u o, u ≠ t → heap s !! u = Some o → heap s' !! u = Some o) as Hsame
    by (intros u o' Hu Hu'; by rewrite Eh, lookup_alter_ne).
  destruct Hex as [H1 H2 H3].
  split; intros h1; [intros th1 u|intros th1 u|intros h2 th1 th2 u];
    rewrite El, ?lookup_alter_Some.
  - intros [(<- & th' & Hth & ->)|[Hne Hl1]] Hc1.
    { destruct Hc as [Hc|[-> _]]; simplify_eq/=. }
    destruct (H1 h1 th1 u Hl1 Hc1) as (o' & Ho' & Hs'). exists o'. split; [|done].
    apply Hsame; [|done]. intros ->. eapply Hone; [done..|]. by rewrite Hc1.
  - intros [(<- & th' & Hth & ->)|[Hne Hl1]] Hc1.
    { destruct Hc as [Hc|[-> Hs]]; simplify_eq/=.
      exists o1. by rewrite Eh, lookup_alter_eq, Ho. }
    destruct (H2 h1 th1 u Hl1 Hc1) as (o' & Ho' & Hs'). exists o'. split; [|done].
    apply Hsame; [|done]. intros ->. eapply Hone; [done..|]. by rewrite Hc1.
  - assert (∀ th', running (th_pc (goto c th')) = Some u → u = t) as Hcu.
    { intros th'. cbn. destruct Hc as [->|[-> _]]; [done|]. cbn. congruence. }
    intros [(<- & th' & Hth & ->)|[Hne Hl1]] [(<- & th'' & Hth' & ->)|[Hne' Hl2]] Ha Hb;
      [done| | |by eapply H3].
    + apply Hcu in Ha as ->. by apply (Hone h2 th2) in Hb.
    + apply Hcu in Hb as ->. by apply (Hone h1 th1) in Ha.
Qed.

Lemma excl_thread_step now h body s s' :
  thread_step now h body s = Some s' → excl s → excl s'.
Proof.
  unfold thread_step. destruct (live s !! h) as [th|] eqn:Eh; cbn; [|done].
  intros E Hex.
  destruct (th_pc th) as [| |t|t|t|t|t|t|t|t|t| | |] eqn:Ec.
  - simplify_eq. apply excl_thread; [done|].
    by destruct (has_bucket _); [apply (excl_same s)|].
  - destruct (queue_locked s); [done|].
    destruct (pick now (th_pool th) s) as [[t|] s1] eqn:Ep; simplify_eq.
    + by eapply excl_pick.
    + apply excl_thread; [done|]. unfold pick in Ep. by destruct (pick_find _ _ _ _); simplify_eq.
  - destruct (heap s !! t) as [o|] eqn:Eo; cbn in E; [|done].
    pose proof (execute_begin_state now o) as Hst.
    destruct (ex_begin _ Hex h th t Eh Ec) as (o' & Ho' & Hs'). simplify_eq.
    assert ((execute_begin now o).1.2 = true → state (execute_begin now o).1.1 = EXECUTING)
      as Hal.
    { unfold execute_begin. destruct (bool_decide _); cbn; [|done].
      destruct (negb _); [|done]. destruct (_ <? 0); [|done]. by destruct (_ <=? _). }
    destruct (execute_begin now o) as [[o1 al] us]. cbn in Hst, Hal. simplify_eq.
    eapply (excl_run h th t o o1); [done|by rewrite Ec|done|reflexivity|reflexivity| |done].
    destruct al; [right; auto|by left].
  - destruct (heap s !! t) as [o|] eqn:Eo; cbn in E; [|done].
    destruct (execute_end now body.1 body.2 o) as [o1 ra]. simplify_eq.
    eapply (excl_run h th t o o1 (PcFinishedCheck t));
      [done|by rewrite Ec|done|by destruct ra|by destruct ra|by left|done].
  - destruct (heap s !! t) as [o|]; cbn in E; [|done]. simplify_eq.
    apply excl_thread; [|done]. intros ?. by destruct (_ && _).
  - destruct (heap s !! t) as [o|]; cbn in E; [|done]. simplify_eq.
    apply excl_thread; [done|].
    apply (excl_heap s _ t with_notified); [done..| |done]. by left.
  - simplify_eq. apply excl_thread; [done|]. by apply (excl_same s).
  - destruct (heap s !! t) as [o|]; cbn in E; [|done]. simplify_eq.
    apply excl_thread; [|done]. intros ?. by destruct (is_finished o).
  - destruct (queue_locked s); [done|]. simplify_eq. apply excl_thread; [done|].
    by apply (excl_same s).
  - simplify_eq. apply excl_thread; [done|].
    apply (excl_heap s _ t (set_execution_request_time now true)); [done..| |done]. by left.
  - simplify_eq. apply excl_thread; [done|]. by apply (excl_same s).
  - destruct (pools s !! th_pool th) as [tp|]; cbn in E; [|done]. simplify_eq.
    apply excl_thread; [|done]. intros ?. by destruct (iterate_again _ _ _ _).
  - simplify_eq. apply excl_thread; [done|].
    by destruct (has_bucket _); [apply (excl_same s)|].
  - simplify_eq. revert Hex. apply excl_mono; cbn; [|eauto].
    intros h' th' t [_ ?]%lookup_delete_Some. eauto.
Qed.

Lemma excl_queue_step now sp s s' :
  queue_step now sp s = Some s' → spawn_ok sp s → excl s → excl s'.
Proof.
  unfold queue_step. intros E Hsp Hex.
  destruct (qpc s) as [|nw [|t rest] w|nw t rest w|nw t rest w|nw t n rest w|w];
    [simplify_eq; by apply (excl_same s)..| | | | |simplify_eq; by apply (excl_same s)];
    destruct (heap s !! t) as [o|] eqn:Eo; cbn in E; try done.
  - destruct (_ && _); [destruct (_ <=? _); [|destruct (_ <? w)]|];
      simplify_eq; by apply (excl_same s).
  - destruct (pools s !! pool o); cbn in E; [|done].
    destruct (_ || _); simplify_eq; by apply (excl_same s).
  - unfold request_enqueue in E. destruct (pools s !! pool o) as [tp|]; cbn in E; [|done].
    destruct (existsb _ _); cbn in E; simplify_eq; [by apply (excl_same s)|].
    apply (excl_heap s _ t (set_execution_request_time now false)); [done..| |done].
    by left.
  - unfold request_thread in E. destruct (pools s !! pool o) as [tp|]; cbn in E; [|done].
    destruct (_ <? _); [destruct (wants_thread _ _ _)|]; cbn in E;
      [destruct sp as [h| |h]|..]; cbn in E; simplify_eq; try by apply (excl_same s).
    destruct Hsp as [Hfr _]. revert Hex. apply excl_mono; cbn; [|eauto].
    intros h' th' u. rewrite lookup_insert_Some.
    intros [[<- <-]|[? ?]]; [done|eauto].
Qed.

Lemma excl_step s s' : excl s → step s s' → excl s'.
Proof.
  intros Hex Hs. revert Hex.
  destruct Hs as [p s0 Hp|t p s0 Ht Hp|t o o' s0 Ho Hop|s0|t o s0 Ho Hst|now t s0 Ht Hq
    |cnd s0 Hq|t o s0 Ho Hu|o b s0|p b s0|p s0 s1 E|now sp s0 s1 Hsp E|now h body s0 s1 E];
    intros Hex.
  - by apply (excl_same s0).
  - revert Hex. apply excl_mono; cbn; [eauto|]. intros u o _ Hu. exists o.
    rewrite lookup_insert_ne by congruence. auto.
  - apply (excl_heap s0 _ t (λ _, o')); [done..| |done].
    intros o1 _ ?; simplify_eq. by apply calm_owner.
  - by apply (excl_same s0).
  - apply (excl_heap s0 _ t (λ o, (start_begin o).1)); [done..| |done].
    intros o1 (h & th & Hl & Hr) ?; simplify_eq. unfold start_begin in *.
    destruct (decide (state o = INIT)) as [Hi|]; [|done].
    exfalso. destruct (th_pc th) eqn:Ec; simplify_eq/=.
    + destruct (ex_begin _ Hex h th _ Hl Ec) as (? & ? & [?|?]); congruence.
    + destruct (ex_body _ Hex h th _ Hl Ec) as (? & ? & [?|?]); congruence.
  - apply (excl_heap s0 _ t (with_started_at now)); [done..| |done]. by left.
  - unfold cancel_tasks.
    generalize (filter (λ t, condition_met (heap s0) cnd t = true) (tasks s0)). intros l.
    clear Hq. revert s0 Hex. induction l as [|t l IH]; intros s0 Hex; simpl; [done|].
    apply IH. apply (excl_heap s0 _ t cancel); [done..| |done]. by right.
  - revert Hex. apply excl_mono.
    + unfold destroy. destruct (on_task_finished o).2; cbn; eauto.
    + intros u o' (h & th & Hl & Hr) Hu'. destruct Hu as (_ & _ & Hu).
      assert (u ≠ t) as Hne.
      { intros ->. apply (Hu h th); [|by destruct (th_pc th)].
        unfold destroy in Hl. by destruct (on_task_finished o).2. }
      exists o'. split; [|by left]. unfold destroy.
      destruct (on_task_finished o).2; cbn; by rewrite lookup_delete_ne.
  - apply (excl_same s0); [..|done];
      (destruct b; [unfold add_observer; by destruct (decide _)|done]).
  - destruct b; by apply (excl_same s0).
  - unfold terminate in E. destruct (pools s0 !! p) as [tp|]; cbn in E; [|done].
    simplify_eq.
    match goal with |- excl (foldl _ ?x _) => assert (excl x) as Hx by (by apply (excl_same s0));
      revert Hx; generalize x end. clear Hex.
    induction (threads tp) as [|h l IH]; intros x Hx; simpl; [done|].
    apply IH. revert Hx. apply excl_mono; cbn; [|eauto].
    intros h' th' t Hl Hr. apply lookup_alter_Some in Hl as [(-> & th & Hth & ->)|[_ ?]]; eauto.
  - by eapply excl_queue_step.
  - by eapply excl_thread_step.
Qed.

Lemma reachable_excl s : reachable s → excl s.
Proof.
  intros Hr. eapply rtc_invariant; [exact Hr| |exact excl_step].
  split; intros *; change (live init_sys) with (∅ : gmap Z thread);
    by rewrite lookup_empty.
Qed.
End invariant.

(** C36. Memory safety of the queue and its pools: in every reachable state the
    queue thread can take its next step, and so can every thread of a pool,
    unless it waits for the mutex the queue thread holds; so no step
    reads a task or a pool object that does not exist. *)
Theorem no_dangling_reference `{PoolClass} s (Hr : reachable s) :
  (∀ now sp, is_Some (queue_step now sp s))
  ∧ ∀ now h body, is_Some (live s !! h) →
      is_Some (thread_step now h body s) ∨ queue_locked s = true.
Proof.
  pose proof (reachable_wf s Hr) as Hwf.
  assert (∀ t, started (heap s) t →
            ∃ o tp, heap s !! t = Some o ∧ pools s !! pool o = Some tp) as Hget.
  { intros t (o & Ho & _). destruct (wf_pool _ Hwf t o Ho) as [tp Htp]. eauto. }
  split.
  - intros now sp. unfold queue_step. pose proof (wf_scanned _ Hwf) as Hsc.
    assert (∀ t, t ∈ scanned (qpc s) → started (heap s) t) as Hst.
    { intros t Ht. apply (wf_started _ Hwf), elem_of_app. left. auto. }
    destruct (qpc s) as [|nw [|t rest] w|nw t rest w|nw t rest w|nw t n rest w|w];
      cbn in Hst; try done;
      destruct (Hget t (Hst t (list_elem_of_here _ _))) as (o & tp & Ho & Htp);
      rewrite Ho; cbn; rewrite ?Htp; cbn.
    + destruct (_ && _); [destruct (_ <=? _); [|destruct (_ <? w)]|]; done.
    + by destruct (_ || _).
    + unfold request_enqueue. rewrite Htp. cbn. by destruct (existsb _ _).
    + unfold request_thread. rewrite Htp. cbn.
      destruct (_ <? _); [destruct (wants_thread _ _ _); [destruct sp|]|]; done.
  - intros now h body [th Hth]. unfold thread_step. rewrite Hth. cbn.
    pose proof (wf_held _ Hwf h th) as Hst.
    destruct (wf_live _ Hwf h th Hth) as [tp Htp].
    destruct (th_pc th) as [| |t|t|t|t|t|t|t|t|t| | |]; cbn in Hst;
      try (destruct (Hget t (Hst t Hth eq_refl)) as (o & _ & Ho & _); rewrite Ho; cbn);
      try (by left).
    + destruct (queue_locked s); [by right|]. left. by destruct (pick _ _ _) as [[?|] ?].
    + left. by destruct (execute_begin now o) as [[? ?] ?].
    + left. by destruct (execute_end _ _ _ o).
    + destruct (queue_locked s); [by right|by left].
    + left. by rewrite Htp.
Qed.

Lemma no_dangling_reference_witness :
  let s := sys_after supla_asynctask_default_thread_pool run_body in
  th_pc <$> live s !! 5 = Some (PcBody 7)
  ∧ is_Some (@thread_step supla_asynctask_default_thread_pool (clock 2) 5 (true, true) s).
Proof.
  split; [vm_compute; reflexivity|].
  destruct (@no_dangling_reference supla_asynctask_default_thread_pool
              (sys_after supla_asynctask_default_thread_pool run_body)) as [_ Hth].
  - apply (@do_acts_reachable _ run_body); [run_ok|vm_compute; reflexivity].
  - destruct (Hth (clock 2) 5 (true, true)) as [Hs|Hl].
    + vm_compute. eexists. reflexivity.
    + exact Hs.
    + vm_compute in Hl. discriminate Hl.
Defined.

(** C7. Mutual exclusion: in every reachable state, while a thread is inside the
    body of a task no other thread is inside it or about to enter it, the task
    is EXECUTING or was cancelled meanwhile, and the queue does not hand it out
    again. *)
Theorem exclusive_execution `{PoolClass} s h1 h2 th1 th2 t
    (Hr : reachable s)
    (H1 : live s !! h1 = Some th1) (Hbody : th_pc th1 = PcBody t)
    (H2 : live s !! h2 = Some th2) (Hrun : running (th_pc th2) = Some t) :
  h1 = h2
  ∧ (∃ o, heap s !! t = Some o ∧ (state o = EXECUTING ∨ state o = CANCELED))
  ∧ ∀ now p, (pick now p s).1 ≠ Some t.
Proof.
  pose proof (reachable_excl s Hr) as Hex.
  destruct (ex_body _ Hex h1 th1 t H1 Hbody) as (o & Ho & Hs).
  split_and!.
  - eapply (ex_one _ Hex); [exact H1|exact H2|by rewrite Hbody|done].
  - by exists o.
  - intros now p. unfold pick. destruct (pick_find _ _ _ _) as [t'|] eqn:Ef; [|done].
    cbn. intros [= ->]. apply find_first_Some in Ef as [Hp _].
    unfold pickable in Hp. rewrite Ho in Hp.
    destruct Hs as [E|E]; rewrite E in Hp; done.
Qed.

Lemma exclusive_execution_witness :
  ∃ s, @reachable supla_asynctask_default_thread_pool s
       ∧ ∀ now p, (pick now p s).1 ≠ Some 7.
Proof.
  exists (sys_after supla_asynctask_default_thread_pool run_body).
  assert (@reachable supla_asynctask_default_thread_pool
            (sys_after supla_asynctask_default_thread_pool run_body)) as Hr.
  { apply (@do_acts_reachable _ run_body); [run_ok|vm_compute; reflexivity]. }
  split; [exact Hr|].
  apply (@exclusive_execution supla_asynctask_default_thread_pool _ 5 5
           (Thread 1 (PcBody 7) timeval_zero false)
           (Thread 1 (PcBody 7) timeval_zero false) 7 Hr); vm_compute; reflexivity.
Defined.

(** ** Bounds of the pools: the third invariant *)

Section bounds.
Context `{PoolClass}.

Record pool_ok (s : sys) (p : Z) (tp : thread_pool) : Prop := {
  po_requests : NoDup (requests tp);
  po_threads : NoDup (threads tp);
  po_limit : vec_size (threads tp) <= highest_number_of_threads tp;
  po_highest : highest_number_of_threads tp <= Z.max 0 (thread_count_limit p);
  po_live : ∀ h th, live s !! h = Some th → th_pool th = p → h ∈ threads tp;
  po_other : ∀ q tq h, pools s !! q = Some tq → q ≠ p → h ∈ threads tp → h ∉ threads tq
}.

Definition pools_ok (s : sys) : Prop := ∀ p tp, pools s !! p = Some tp → pool_ok s p tp.

(** Changes that keep the threads of the pools and start none. *)
Lemma pools_ok_mono s s' :
  (∀ p tp', pools s' !! p = Some tp' → ∃ tp, pools s !! p = Some tp
     ∧ threads tp' = threads tp
     ∧ highest_number_of_threads tp' = highest_number_of_threads tp
     ∧ (NoDup (requests tp) → NoDup (requests tp'))) →
  (∀ h th', live s' !! h = Some th' → ∃ th, live s !! h = Some th ∧ th_pool th' = th_pool th) →
  pools_ok s → pools_ok s'.
Proof.
  intros Hp Hl Hok p tp' Hp'. destruct (Hp p tp' Hp') as (tp & Htp & Et & Eh & Er).
  destruct (Hok p tp Htp) as [H1 H2 H3 H4 H5 H6].
  split; rewrite ?Et, ?Eh; auto.
  - intros h th' Hh Hpl. destruct (Hl h th' Hh) as (th & Hth & E).
    apply (H5 h th); congruence.
  - intros q tq' h Hq Hne Hh. destruct (Hp q tq' Hq) as (tq & Htq & -> & _). eauto.
Qed.

Lemma pools_ok_same s s' : pools s' = pools s → live s' = live s → pools_ok s → pools_ok s'.
Proof. intros Ep El. apply pools_ok_mono; [rewrite Ep|rewrite El]; eauto 10. Qed.

Lemma pools_ok_set_qpc c s : pools_ok s → pools_ok (set_qpc c s).
Proof. by apply pools_ok_same. Qed.

Lemma pools_ok_upd s p f :
  (∀ tp, threads (f tp) = threads tp
     ∧ highest_number_of_threads (f tp) = highest_number_of_threads tp
     ∧ (NoDup (requests tp) → NoDup (requests (f tp)))) →
  pools_ok s → pools_ok (upd_pool p f s).
Proof.
  intros Hf. apply pools_ok_mono; cbn; [|eauto].
  intros q tq. rewrite lookup_alter_Some.
  intros [(<- & tp & Htp & ->)|[_ ?]]; [|eauto 10]. exists tp. split; [done|]. apply Hf.
Qed.

Lemma pools_ok_upd_thread s h f :
  (∀ th, th_pool (f th) = th_pool th) → pools_ok s → pools_ok (upd_thread h f s).
Proof.
  intros Hf. apply pools_ok_mono; cbn; [eauto 10|].
  intros h' th'. rewrite lookup_alter_Some. intros [(-> & th & ? & ->)|[_ ?]]; eauto.
Qed.

(** Starting a thread (running, or not) in a pool below its limit. *)
Lemma pools_ok_add_thread s p h tp (alive : bool) :
  pools s !! p = Some tp → vec_size (threads tp) < thread_count_limit p →
  fresh_thread h s → pools_ok s →
  pools_ok (set_live (if alive then <[h := Thread p PcStart timeval_zero false]> (live s)
                      else live s) (upd_pool p (add_thread h) s)).
Proof.
  intros Hp Hlim [Hfr1 Hfr2] Hok q tq. pose proof (thread_count_limit_range p) as Hrng.
  cbn. rewrite lookup_alter_Some.
  assert (vec_size (threads tp ++ [h]) = vec_size (threads tp) + 1) as Esz
    by (unfold vec_size; rewrite length_app; cbn; lia).
  assert (0 <= vec_size (threads tp)) as Hsz by (unfold vec_size; lia).
  intros [(<- & tp' & Htp & ->)|[Hne Hq]]; simplify_eq.
  - destruct (Hok p tp Hp) as [H1 H2 H3 H4 H5 H6]. split; cbn; [done| | | | |].
    + apply NoDup_app. split_and!; [done| |apply NoDup_singleton].
      intros x Hx ->%list_elem_of_singleton. by apply (Hfr2 p tp Hp).
    + rewrite Esz. destruct (_ <? _) eqn:E; [rewrite u32_id; wrap|lia].
    + rewrite Esz. destruct (_ <? _) eqn:E; [rewrite u32_id; wrap|lia].
    + intros h' th Hl Hq. apply elem_of_app.
      destruct alive; [|left; eauto]. apply lookup_insert_Some in Hl as [[<- _]|[_ ?]].
      * right. apply list_elem_of_here.
      * left. eauto.
    + intros q tq h' Hq Hne [Hh| ->%list_elem_of_singleton]%elem_of_app.
      * rewrite lookup_alter_ne in Hq by done. eauto.
      * rewrite lookup_alter_ne in Hq by done. eauto.
  - destruct (Hok q tq Hq) as [H1 H2 H3 H4 H5 H6]. split; [done..| |].
    + intros h' th Hl Hpq. cbn in Hl. destruct alive; [|eauto].
      apply lookup_insert_Some in Hl as [[<- <-]|[_ ?]]; [by cbn in Hpq|eauto].
    + intros r tr h' Hr Hne' Hh. cbn in Hr. apply lookup_alter_Some in Hr as [(<- & x & Hx & ->)|[_ ?]].
      * cbn. simplify_eq. intros [Hin| ->%list_elem_of_singleton]%elem_of_app.
        -- by apply (H6 p tp h' Hp Hne' Hh).
        -- by apply (Hfr2 q tq Hq).
      * eauto.
Qed.

Lemma elem_of_erase_first_ne x h (l : list Z) :
  x ≠ h → x ∈ l → x ∈ erase_first (Z.eqb h) l.
Proof.
  intros Hne. induction l as [|a l IH]; cbn; [done|].
  intros [->|Hx]%elem_of_cons; destruct (h =? _) eqn:E; try lia; try done.
  - apply list_elem_of_here.
  - apply list_elem_of_further. auto.
Qed.

Lemma not_elem_of_erase_first h (l : list Z) : NoDup l → h ∉ erase_first (Z.eqb h) l.
Proof.
  induction l as [|a l IH]; intros Hnd; cbn; [set_solver|].
  apply NoDup_cons in Hnd as [Ha Hnd]. destruct (h =? a) eqn:E.
  - by replace h with a by lia.
  - apply not_elem_of_cons. split; [lia|auto].
Qed.

(** The end of a thread. *)
Lemma pools_ok_finish s h th :
  live s !! h = Some th → pools_ok s →
  pools_ok (set_live (delete h (live s)) (on_thread_finish h (th_pool th) s)).
Proof.
  intros Hth Hok q tq. cbn. rewrite lookup_alter_Some.
  assert (∀ p l, pools s !! p = Some l → vec_size (erase_first (Z.eqb h) (threads l))
          <= vec_size (threads l)) as Hsz.
  { intros p l _. unfold vec_size. pose proof (sublist_length _ _
      (erase_first_sublist (Z.eqb h) (threads l))). lia. }
  intros [(<- & tp & Htp & ->)|[Hne Hq]].
  - destruct (Hok _ tp Htp) as [H1 H2 H3 H4 H5 H6]. specialize (Hsz _ _ Htp).
    cbn. set (l := erase_first (Z.eqb h) (threads tp)) in *.
    assert (∀ (b : bool), threads (if b then set_requests [] (set_threads l tp)
              else set_threads l tp) = l) as Hl by (by intros []).
    split; cbn; rewrite ?Hl.
    + destruct (_ =? 0); [constructor|done].
    + by apply erase_first_nodup.
    + destruct (_ =? 0); cbn; lia.
    + destruct (_ =? 0); done.
    + intros h' th' [Hne Hl']%lookup_delete_Some Hp'.
      apply elem_of_erase_first_ne; [done|eauto].
    + intros q tq' h' Hq' Hne Hh'. rewrite lookup_alter_ne in Hq' by done.
      eapply H6; [done..|]. by eapply erase_first_subset.
  - destruct (Hok q tq Hq) as [H1 H2 H3 H4 H5 H6]. split; [done..| |].
    + cbn. intros h' th' [Hne' Hl']%lookup_delete_Some Hp'. eauto.
    + cbn. intros r tr h'. rewrite lookup_alter_Some.
      intros [(<- & tp & Htp & ->)|[_ ?]] ? Hh'; [|eauto].
      intros Hin. eapply (H6 _ tp h' Htp); [done..|]. revert Hin.
      destruct (_ =? 0); apply erase_first_subset.
Qed.

Lemma pools_ok_queue_step now sp s s' :
  queue_step now sp s = Some s' → spawn_ok sp s → pools_ok s → pools_ok s'.
Proof.
  unfold queue_step. intros E Hsp Hok.
  destruct (qpc s) as [|nw [|t rest] w|nw t rest w|nw t rest w|nw t n rest w|w];
    [simplify_eq; by apply (pools_ok_same s)..| | | |
    |simplify_eq; by apply (pools_ok_same s)];
    destruct (heap s !! t) as [o|] eqn:Eo; cbn in E; try done.
  - destruct (_ && _); [destruct (_ <=? _); [|destruct (_ <? w)]|];
      simplify_eq; by apply (pools_ok_same s).
  - destruct (pools s !! pool o); cbn in E; [|done].
    destruct (_ || _); simplify_eq; by apply (pools_ok_same s).
  - unfold request_enqueue in E. destruct (pools s !! pool o) as [tp|] eqn:Ep; cbn in E; [|done].
    destruct (existsb _ _) eqn:Ex; cbn in E; simplify_eq; [by apply (pools_ok_same s)|].
    revert Hok. apply pools_ok_mono; cbn; [|eauto]. intros q tq. rewrite lookup_alter_Some.
    intros [(<- & x & Hx & ->)|[_ ?]]; [|eauto 10]. simplify_eq.
    exists tp. split_and!; try done. intros Hnd. apply NoDup_app.
    split_and!; [done| |apply NoDup_singleton].
    intros u Hu ->%list_elem_of_singleton. apply not_true_iff_false in Ex.
    apply Ex, existsb_exists. exists t. split; [by apply list_elem_of_In|lia].
  - unfold request_thread in E. destruct (pools s !! pool o) as [tp|] eqn:Ep; cbn in E; [|done].
    destruct (vec_size (threads tp) <? _) eqn:El.
    + destruct (wants_thread _ _ _); cbn in E; [|simplify_eq; by apply (pools_ok_same s)].
      destruct sp as [h| |h]; cbn in E; simplify_eq; [|by apply (pools_ok_same s)|].
      * apply pools_ok_set_qpc.
        apply (pools_ok_add_thread s (pool o) h tp true); [done|lia|done|done].
      * apply pools_ok_set_qpc.
        apply (pools_ok_add_thread s (pool o) h tp false); [done|lia|done|done].
    + cbn in E. simplify_eq. apply pools_ok_set_qpc.
      apply (pools_ok_upd s (pool o) (overload now)); [done|done].
Qed.

Lemma pools_ok_thread_step now h body s s' :
  thread_step now h body s = Some s' → pools_ok s → pools_ok s'.
Proof.
  unfold thread_step. destruct (live s !! h) as [th|] eqn:Eh; cbn; [|done].
  intros E Hok.
  destruct (th_pc th) as [| |t|t|t|t|t|t|t|t|t| | |];
    try (destruct (heap s !! t) as [o|]; cbn in E; [|done]);
    try (destruct (queue_locked s); [done|]).
  - simplify_eq. apply pools_ok_upd_thread; [done|].
    destruct (has_bucket _); [by apply pools_ok_upd|done].
  - unfold pick in E. destruct (pick_find _ _ _ _); simplify_eq;
      (apply pools_ok_upd_thread; [done|]); by apply (pools_ok_same s).
  - destruct (execute_begin now o) as [[? ?] ?]; simplify_eq.
    apply pools_ok_upd_thread; [done|]. by apply (pools_ok_same s).
  - destruct (execute_end _ _ _ o) as [? []]; simplify_eq;
      (apply pools_ok_upd_thread; [done|]); by apply (pools_ok_same s).
  - simplify_eq. by apply pools_ok_upd_thread.
  - simplify_eq. apply pools_ok_upd_thread; [done|]. by apply (pools_ok_same s).
  - simplify_eq. apply pools_ok_upd_thread; [done|]. by apply pools_ok_upd.
  - simplify_eq. by apply pools_ok_upd_thread.
  - simplify_eq. apply pools_ok_upd_thread; [done|]. by apply (pools_ok_same s).
  - simplify_eq. apply pools_ok_upd_thread; [done|]. by apply (pools_ok_same s).
  - simplify_eq. apply pools_ok_upd_thread; [done|]. apply pools_ok_upd; [|done].
    intros tp. split_and!; [done..|]. apply erase_first_nodup.
  - destruct (pools s !! th_pool th); cbn in E; [|done]. simplify_eq.
    by apply pools_ok_upd_thread.
  - simplify_eq. apply pools_ok_upd_thread; [done|].
    destruct (has_bucket _); [by apply pools_ok_upd|done].
  - simplify_eq. by apply pools_ok_finish.
Qed.

Lemma pools_ok_register p s :
  wf s → pools s !! p = None → pools_ok s →
  pools_ok (set_pools (<[p := new_thread_pool]> (pools s)) s).
Proof.
  intros Hwf Hp Hok q tq. cbn. rewrite lookup_insert_Some. intros [[<- <-]|[Hne Hq]].
  - split; cbn; [apply NoDup_nil_2..|done|lia| |].
    + intros h th Hl <-. destruct (wf_live _ Hwf h th Hl). congruence.
    + intros ??????%elem_of_nil. done.
  - destruct (Hok q tq Hq) as [H1 H2 H3 H4 H5 H6]. split; cbn; [done..|].
    intros r tr h. rewrite lookup_insert_Some. intros [[<- <-]|[_ ?]] ??; [|eauto].
    cbn. apply not_elem_of_nil.
Qed.

Lemma pools_ok_step s s' : wf s → pools_ok s → step s s' → pools_ok s'.
Proof.
  intros Hwf Hok Hs. revert Hwf Hok.
  destruct Hs as [p s0 Hp|t p s0 Ht Hp|t o o' s0 Ho Hop|s0|t o s0 Ho Hst|now t s0 Ht Hq
    |cnd s0 Hq|t o s0 Ho Hu|o b s0|p b s0|p s0 s1 E|now sp s0 s1 Hsp E|now h body s0 s1 E];
    intros Hwf Hok; try by apply (pools_ok_same s0).
  - by apply pools_ok_register.
  - unfold cancel_tasks.
    generalize (filter (λ t, condition_met (heap s0) cnd t = true) (tasks s0)). intros l.
    clear Hq Hwf. revert s0 Hok. induction l as [|t l IH]; intros s0 Hok; simpl; [done|].
    apply IH. by apply (pools_ok_same s0).
  - apply (pools_ok_same s0); [..|done]; unfold destroy; by destruct (on_task_finished o).2.
  - apply (pools_ok_same s0); [..|done];
      (destruct b; [unfold add_observer; by destruct (decide _)|done]).
  - destruct b; by apply pools_ok_upd.
  - unfold terminate in E. destruct (pools s0 !! p) as [tp|]; cbn in E; [|done].
    simplify_eq.
    match goal with |- pools_ok (foldl _ ?x _) =>
      assert (pools_ok x) as Hx by (by apply pools_ok_upd); revert Hx; generalize x end.
    clear Hok. induction (threads tp) as [|h l IH]; intros x Hx; simpl; [done|].
    by apply IH, pools_ok_upd_thread.
  - by eapply pools_ok_queue_step.
  - by eapply pools_ok_thread_step.
Qed.

Lemma reachable_pools_ok s : reachable s → pools_ok s.
Proof.
  intros Hr. cut (wf s ∧ pools_ok s); [by intros []|].
  eapply (rtc_invariant step (λ s, wf s ∧ pools_ok s)); [exact Hr| |].
  - split; [exact wf_init|]. intros p tp. cbn. by rewrite lookup_empty.
  - intros a b [] ?. split; [by eapply wf_step|by eapply pools_ok_step].
Qed.
End bounds.

(** Bounds of a pool, in every reachable state: a pool never has more
    threads than its class allows, nor ever had; every running thread of the
    pool is one of its threads; and no task is requested twice. *)
Theorem pool_bounds `{PoolClass} s p tp (Hr : reachable s) (Hp : pools s !! p = Some tp) :
  vec_size (threads tp) <= highest_number_of_threads tp <= thread_count_limit p
  ∧ NoDup (threads tp) ∧ NoDup (requests tp)
  ∧ ∀ h th, live s !! h = Some th → th_pool th = p → h ∈ threads tp.
Proof.
  destruct (reachable_pools_ok s Hr p tp Hp) as [H1 H2 H3 H4 H5 _].
  pose proof (thread_count_limit_range p) as Hrng. split_and!; try done.
  unfold is_u32 in Hrng. lia.
Qed.

Lemma pool_bounds_witness :
  let s := sys_after supla_asynctask_default_thread_pool run_body in
  ∃ tp, pools s !! 1 = Some tp ∧ threads tp = [5] ∧ highest_number_of_threads tp <= 20.
Proof.
  assert (@reachable supla_asynctask_default_thread_pool
            (sys_after supla_asynctask_default_thread_pool run_body)) as Hr.
  { apply (@do_acts_reachable _ run_body); [run_ok|vm_compute; reflexivity]. }
  eexists. split; [vm_compute; reflexivity|]. split; [reflexivity|].
  refine (proj2 (proj1 (@pool_bounds supla_asynctask_default_thread_pool _ 1 _ Hr _))).
  vm_compute. reflexivity.
Defined.

(** The order of the queue, in every reachable state: [add_task] puts a
    task behind those of its own priority and above and before the rest; [pick]
    hands out a task that is waiting, due and of the pool, of the highest
    priority among those, and the first of them in the queue; it becomes
    PICKED and nothing else changes. *)
Theorem queue_priority_order `{PoolClass} s (Hr : reachable s) :
  (∀ t, tasks (add_task t s) =
     filter (λ x, prio (heap s) t <= prio (heap s) x) (tasks s)
     ++ t :: filter (λ x, prio (heap s) x < prio (heap s) t) (tasks s))
  ∧ ∀ now p t s', pick now p s = (Some t, s') →
      pickable (heap s) now p t = true
      ∧ (∀ x, x ∈ tasks s → pickable (heap s) now p x = true →
              prio (heap s) x <= prio (heap s) t)
      ∧ (∃ l1 l2, tasks s = l1 ++ t :: l2
                  ∧ ∀ x, x ∈ l1 → pickable (heap s) now p x = false)
      ∧ s' = set_heap (alter (with_state PICKED) t (heap s)) s.
Proof.
  pose proof (wf_sorted s (reachable_wf s Hr)) as Hs. split.
  - intros t. cbn. by apply insert_task_filter.
  - intros now p t s'. unfold pick.
    destruct (pick_find _ _ _ _) as [t'|] eqn:Ef; intros E; simplify_eq.
    pose proof Ef as [Hp _]%find_first_Some.
    destruct (find_first_best _ _ _ _ Hs Ef) as (l1 & l2 & El & H1 & H2).
    split_and!; [done|done|eauto|]. unfold upd_task. f_equal.
    apply map_eq. intros u. destruct (decide (u = t)) as [->|Hne];
      [|by rewrite !lookup_alter_ne].
    rewrite !lookup_alter_eq. unfold pickable in Hp.
    destruct (heap s !! t) as [o|]; [|done]. cbn. unfold pick_task.
    apply andb_prop in Hp as [[Hw%bool_decide_eq_true _]%andb_prop _].
    by rewrite decide_True.
Qed.

(** Two tasks of priorities 0 and 3, in this order; the second is picked. *)
Definition run_prio : list act :=
  [ARegister 1; ANew 7 1; AStart 7; AAdd (clock 0) 7; ANew 8 1;
   AOwn 8 (set_priority 3); AStart 8; AAdd (clock 0) 8].

Lemma queue_priority_order_witness :
  let s := sys_after supla_asynctask_default_thread_pool run_prio in
  tasks s = [8; 7] ∧ (pick (clock 1) 1 s).1 = Some 8 ∧ prio (heap s) 7 <= prio (heap s) 8.
Proof.
  assert (@reachable supla_asynctask_default_thread_pool
            (sys_after supla_asynctask_default_thread_pool run_prio)) as Hr.
  { apply (@do_acts_reachable _ run_prio); [run_ok|vm_compute; reflexivity]. }
  set (s := sys_after supla_asynctask_default_thread_pool run_prio) in *.
  assert (tasks s = [8; 7]) as Et by (vm_compute; reflexivity).
  assert ((pick (clock 1) 1 s).1 = Some 8) as Ep by (vm_compute; reflexivity).
  split; [exact Et|]. split; [exact Ep|].
  destruct (pick (clock 1) 1 s) as [r s'] eqn:E. cbn in Ep. subst r.
  destruct (proj2 (@queue_priority_order supla_asynctask_default_thread_pool s Hr)
              (clock 1) 1 8 s' E) as (_ & Hbest & _).
  apply Hbest; [|vm_compute; reflexivity].
  rewrite Et. apply list_elem_of_further, list_elem_of_here.
Defined.

(** ** What [cancel_tasks] does *)

Lemma erase_first_filter t (l : list Z) :
  NoDup l → erase_first (Z.eqb t) l = filter (λ x, x ≠ t) l.
Proof.
  induction l as [|x l IH]; intros Hnd; [done|]. apply NoDup_cons in Hnd as [Hx Hnd].
  cbn [erase_first]. rewrite filter_cons. destruct (t =? x) eqn:E.
  - replace x with t in * by lia. rewrite decide_False by (intros ?; done).
    clear IH. induction l as [|y l IH]; [done|]. rewrite filter_cons.
    apply not_elem_of_cons in Hx as [Hy Hx]. apply NoDup_cons in Hnd as [_ Hnd].
    rewrite decide_True by done. f_equal. by apply IH.
  - rewrite decide_True by lia. f_equal. by apply IH.
Qed.

Lemma cancel_list_spec l : ∀ s, NoDup (tasks s) →
  let s' := foldl (λ s t, remove_task t (upd_task t cancel s)) s l in
  tasks s' = filter (λ x, x ∉ l) (tasks s)
  ∧ ∀ u, heap s' !! u = (if bool_decide (u ∈ l) then cancel <$> heap s !! u
                         else heap s !! u).
Proof.
  induction l as [|t l IH]; intros s Hnd; cbn.
  - split; [|done]. clear. induction (tasks s) as [|x k IHk]; [done|].
    rewrite filter_cons, decide_True by apply not_elem_of_nil. by f_equal.
  - destruct (IH (remove_task t (upd_task t cancel s))) as [IH1 IH2].
    { cbn. by apply erase_first_nodup. }
    cbn in IH1, IH2. split.
    + rewrite IH1, erase_first_filter by done. rewrite list_filter_filter.
      apply list_filter_iff. intros x. rewrite not_elem_of_cons. tauto.
    + intros u. rewrite IH2. destruct (decide (u = t)) as [->|Hne].
      * rewrite lookup_alter_eq. rewrite (bool_decide_true (t ∈ t :: l))
          by apply list_elem_of_here.
        destruct (bool_decide (t ∈ l)); [|done]. by destruct (heap s !! t).
      * rewrite lookup_alter_ne by done.
        assert (bool_decide (u ∈ t :: l) = bool_decide (u ∈ l)) as ->; [|done].
        apply bool_decide_ext. rewrite elem_of_cons. tauto.
Qed.

Lemma cancel_tasks_spec cnd s :
  NoDup (tasks s) →
  tasks (cancel_tasks cnd s) = filter (λ t, condition_met (heap s) cnd t = false) (tasks s)
  ∧ ∀ u, heap (cancel_tasks cnd s) !! u =
      (if bool_decide (u ∈ tasks s) && condition_met (heap s) cnd u
       then cancel <$> heap s !! u else heap s !! u).
Proof.
  intros Hnd. unfold cancel_tasks.
  destruct (cancel_list_spec (filter (λ t, condition_met (heap s) cnd t = true) (tasks s)) s Hnd)
    as [H1 H2]. split.
  - rewrite H1. clear H1 H2.
    assert (∀ k : list Z, (∀ x, x ∈ k → x ∈ tasks s) →
      filter (λ x, x ∉ filter (λ t, condition_met (heap s) cnd t = true) (tasks s)) k
      = filter (λ t, condition_met (heap s) cnd t = false) k) as Hk; [|by apply Hk].
    induction k as [|x k IH]; intros Hin; [done|]. rewrite !filter_cons.
    rewrite IH by (intros; by apply Hin, list_elem_of_further).
    specialize (Hin x (list_elem_of_here _ _)).
    destruct (condition_met (heap s) cnd x) eqn:E.
    + rewrite decide_False; [by rewrite decide_False|]. intros Hn. apply Hn.
      by apply list_elem_of_filter.
    + rewrite decide_True; [by rewrite decide_True|].
      rewrite list_elem_of_filter. intros [? _]. congruence.
  - intros u. rewrite H2.
    assert (bool_decide (u ∈ filter (λ t, condition_met (heap s) cnd t = true) (tasks s))
            = bool_decide (u ∈ tasks s) && condition_met (heap s) cnd u) as ->; [|done].
    apply eq_bool_prop_intro. rewrite andb_True, !bool_decide_spec, list_elem_of_filter.
    rewrite Is_true_true. tauto.
Qed.
