(* ===== verification/AsyncTaskLive.v ===== *)
(** * AsyncTaskLive: what the queue and the pools get done

    One iteration of the queue thread, step by step; and two behaviours in which
    a request goes wrong: the request that is lost when the last thread of a
    pool ends, and the request a cancelled task leaves behind. *)

From S2P Require Import Prelude AsyncTask AsyncTaskQueue AsyncTaskInv.

(** ** One iteration of the queue thread, alone *)

Section iteration.
Context `{PoolClass}.

Fixpoint queue_run (l : list (timeval * spawn_answer)) (s : sys) : option sys :=
  match l with
  | [] => Some s
  | (now, sp) :: l' => s1 ← queue_step now sp s; queue_run l' s1
  end.

Lemma queue_run_cons now sp l s s1 :
  queue_step now sp s = Some s1 → queue_run ((now, sp) :: l) s = queue_run l s1.
Proof. intros E. cbn [queue_run]. by rewrite E. Qed.

Lemma queue_run_app l1 l2 s s1 :
  queue_run l1 s = Some s1 → queue_run (l1 ++ l2) s = queue_run l2 s1.
Proof.
  revert s. induction l1 as [|[now sp] l1 IH]; intros s; [by intros [= ->]|].
  cbn [queue_run app]. destruct (queue_step now sp s) as [s2|]; cbn; [|done]. apply IH.
Qed.

Lemma queue_run_wf l s s1 : queue_run l s = Some s1 → wf s → wf s1.
Proof.
  revert s. induction l as [|[now sp] l IH]; intros s; [by intros [= ->]|].
  cbn [queue_run]. destruct (queue_step now sp s) as [s2|] eqn:E; cbn; [|done].
  intros. eapply IH; [done|]. by eapply wf_queue_step.
Qed.

(** The wait the loop computes from the tasks not yet seen. *)
Fixpoint scan_wait (h : gmap Z asynctask) (now : timeval) (l : list Z) (w : Z) : Z :=
  match l with
  | [] => w
  | t :: l' =>
      scan_wait h now l'
        (match h !! t with
         | Some o => if negb (is_execution_requested o) && bool_decide (state o = WAITING)
                        && (0 <? time_left_usec now o)
                     then Z.min w (time_left_usec now o) else w
         | None => w
         end)
  end.

(** A task the iteration has to request from its pool. *)
Definition to_request (h : gmap Z asynctask) (ps : gmap Z thread_pool) (now : timeval)
    (t p : Z) : Prop :=
  ∃ o tp, h !! t = Some o ∧ pool o = p ∧ state o = WAITING
    ∧ is_execution_requested o = false ∧ time_left_usec now o <= 0
    ∧ ps !! p = Some tp ∧ terminated tp = false ∧ holded tp = false.

Record scan_post (now : timeval) (l : list Z) (s s' : sys) : Prop := {
  sp_tasks : tasks s' = tasks s;
  sp_other : ∀ t, t ∉ l → heap s' !! t = heap s !! t;
  sp_state : ∀ t o, heap s !! t = Some o → ∃ r, heap s' !! t = Some (with_request_time r o);
  sp_pools : ∀ p tp, pools s !! p = Some tp → ∃ tp', pools s' !! p = Some tp'
     ∧ terminated tp' = terminated tp ∧ holded tp' = holded tp
     ∧ ∀ t, t ∈ requests tp → t ∈ requests tp';
  sp_request : ∀ t p, t ∈ l → to_request (heap s) (pools s) now t p →
     ∃ tp', pools s' !! p = Some tp' ∧ t ∈ requests tp';
  sp_quiet : ∀ t, (∀ p, ¬ to_request (heap s) (pools s) now t p) → heap s' !! t = heap s !! t;
  sp_only : ∀ p tp', pools s' !! p = Some tp' → ∃ tp, pools s !! p = Some tp
     ∧ terminated tp' = terminated tp ∧ holded tp' = holded tp
     ∧ ∀ t, t ∈ requests tp' →
         t ∈ requests tp ∨ (t ∈ l ∧ to_request (heap s) (pools s) now t p)
}.

Lemma with_request_time_id o : with_request_time (execution_request_time o) o = o.
Proof. by destruct o. Qed.

Lemma scan_post_refl now s : scan_post now [] s s.
Proof.
  split; try done.
  - intros t o Ho. exists (execution_request_time o). by rewrite with_request_time_id.
  - intros p tp Hp. eauto 10.
  - intros t p Ht. by apply elem_of_nil in Ht.
  - intros p tp Hp. eauto 10.
Qed.

(** Whether another task is to be requested is not changed by the treatment of one. *)
Lemma to_request_back now l s s1 u p :
  scan_post now l s s1 → heap s1 !! u = heap s !! u →
  to_request (heap s1) (pools s1) now u p → to_request (heap s) (pools s) now u p.
Proof.
  intros Hpost Hh (o & tp & Ho & ? & ? & ? & ? & Hp & ? & ?).
  destruct (sp_only _ _ _ _ Hpost p tp Hp) as (tp0 & Hp0 & ? & ? & _). exists o, tp0.
  rewrite <- Hh. split_and!; congruence.
Qed.

(** A step that treats the head of the list, then the rest. *)
Lemma scan_post_cons now t l s s1 s' :
  t ∉ l → scan_post now [t] s s1 → scan_post now l s1 s' → scan_post now (t :: l) s s'.
Proof.
  intros Hnin HA HB. pose proof HA as [A1 A2 A3 A4 A5 A6 A7].
  pose proof HB as [B1 B2 B3 B4 B5 B6 B7]. split.
  - congruence.
  - intros u Hu. rewrite B2, A2; set_solver.
  - intros u o Ho. destruct (A3 u o Ho) as [r Hr]. destruct (B3 _ _ Hr) as [r' Hr'].
    by exists r'.
  - intros p tp Hp. destruct (A4 p tp Hp) as (tp1 & Hp1 & ? & ? & Hin).
    destruct (B4 p tp1 Hp1) as (tp2 & Hp2 & ? & ? & Hin'). exists tp2.
    split_and!; [done|congruence|congruence|auto].
  - intros u p [->|Hu]%elem_of_cons Hreq.
    + destruct (A5 t p (list_elem_of_here _ _) Hreq) as (tp1 & Hp1 & Hin).
      destruct (B4 p tp1 Hp1) as (tp2 & Hp2 & _ & _ & Hin'). eauto.
    + apply (B5 u p Hu). destruct Hreq as (o & tp & Ho & ? & ? & ? & ? & Hp & ? & ?).
      destruct (A4 p tp Hp) as (tp1 & Hp1 & ? & ? & _). exists o, tp1.
      rewrite A2 by set_solver. split_and!; congruence.
  - intros u Hu. destruct (decide (u = t)) as [->|Hne].
    + rewrite B2 by done. by apply A6.
    + rewrite B6, A2; [done|set_solver|]. intros p Hreq. apply (Hu p).
      eapply to_request_back; [exact HA|apply A2; set_solver|done].
  - intros p tp2 Hp2. destruct (B7 p tp2 Hp2) as (tp1 & Hp1 & ? & ? & Hb).
    destruct (A7 p tp1 Hp1) as (tp & Hp & ? & ? & Ha). exists tp.
    split_and!; [done|congruence|congruence|]. intros u [Hu|[Hu Hreq]]%Hb.
    + destruct (Ha u Hu) as [?|[->%list_elem_of_singleton ?]]; [by left|right].
      split; [apply list_elem_of_here|done].
    + right. split; [by apply list_elem_of_further|]. eapply to_request_back; [exact HA| |done].
      apply A2. set_solver.
Qed.

Lemma scan_wait_ext h h' now l : ∀ w,
  (∀ t, t ∈ l → h' !! t = h !! t) → scan_wait h' now l w = scan_wait h now l w.
Proof.
  induction l as [|t l IH]; intros w Hh; cbn; [done|].
  rewrite (Hh t) by apply list_elem_of_here. apply IH. intros. by apply Hh, list_elem_of_further.
Qed.

Lemma scan_post_skip now t s c :
  (∀ p, ¬ to_request (heap s) (pools s) now t p) → scan_post now [t] s (set_qpc c s).
Proof.
  intros Hno. split; try done.
  - intros u o Ho. exists (execution_request_time o). by rewrite with_request_time_id.
  - intros p tp Hp. eauto 10.
  - intros u p ->%list_elem_of_singleton Hreq. by destruct (Hno p).
  - intros p tp Hp. eauto 10.
Qed.

(** Enqueuing the task, then whatever happens to the threads of its pool. *)
Lemma scan_post_enqueue now0 now t o r s s1 c :
  heap s !! t = Some o → to_request (heap s) (pools s) now0 t (pool o) →
  request_enqueue now t (pool o) s = Some (r, s1) →
  scan_post now0 [t] s (set_qpc c s1)
  ∧ ∀ tp, pools s !! pool o = Some tp → is_Some r ∨ s1 = s.
Proof.
  intros Ho Hreq0. unfold request_enqueue.
  destruct (pools s !! pool o) as [tp|] eqn:Ep; cbn; [|done].
  destruct (existsb _ _) eqn:Ex; intros E; simplify_eq.
  - split; [|by right]. split; try done.
    + intros u o' Ho'. exists (execution_request_time o'). by rewrite with_request_time_id.
    + intros p tp' Hp. eauto 10.
    + intros u p ->%list_elem_of_singleton (o' & tp' & Ho' & Hp' & _ & _ & _ & Hq & _).
      simplify_eq. exists tp. split; [done|]. apply existsb_exists in Ex as (x & Hx & Heq).
      replace t with x by lia. by apply list_elem_of_In.
    + intros p tp' Hp. eauto 10.
  - split; [|intros; left; done]. split; try done; cbn.
    + intros u Hu. rewrite lookup_alter_ne by set_solver. done.
    + intros u o' Ho'. destruct (decide (u = t)) as [->|Hne].
      * rewrite lookup_alter_eq, Ho'. by exists now.
      * rewrite lookup_alter_ne, Ho' by done. exists (execution_request_time o').
        by rewrite with_request_time_id.
    + intros p tp' Hp. destruct (decide (p = pool o)) as [->|Hne].
      * rewrite lookup_alter_eq, Hp. simplify_eq. eexists. split_and!; [done..|].
        intros u Hu. cbn. apply elem_of_app. by left.
      * rewrite lookup_alter_ne by done. eauto 10.
    + intros u p ->%list_elem_of_singleton (o' & tp' & Ho' & Hp' & _ & _ & _ & Hq & _).
      simplify_eq. rewrite lookup_alter_eq, Ep. eexists. split; [done|]. cbn.
      apply elem_of_app. right. apply list_elem_of_here.
    + intros u Hu. rewrite lookup_alter_ne; [done|]. intros <-. by destruct (Hu (pool o)).
    + intros p tp'. destruct (decide (p = pool o)) as [->|Hne].
      * rewrite lookup_alter_eq, Ep. intros [= <-]. exists tp. split_and!; [done..|].
        cbn. intros u [?|Hu]%elem_of_app; [by left|right]. split; [done|].
        by apply list_elem_of_singleton in Hu as ->.
      * rewrite lookup_alter_ne by done. eauto 10.
Qed.

Lemma scan_post_threads now0 now t sp p n s s1 s2 c :
  request_thread now sp p n s1 = Some s2 →
  scan_post now0 [t] s s1 → scan_post now0 [t] s (set_qpc c s2).
Proof.
  unfold request_thread. destruct (pools s1 !! p) as [tp1|] eqn:Ep; cbn; [|done].
  intros E [A1 A2 A3 A4 A5 A6 A7].
  assert (Hback : ∀ q tq, pools s2 !! q = Some tq → ∃ tq', pools s1 !! q = Some tq'
       ∧ terminated tq = terminated tq' ∧ holded tq = holded tq' ∧ requests tq = requests tq').
  { destruct (_ <? _); [destruct (wants_thread _ _ _); [destruct sp|]|];
      simplify_eq; cbn; intros q tq Hq; eauto;
      (destruct (decide (q = p)) as [->|Hne];
       [rewrite lookup_alter_eq, Ep in Hq; injection Hq as <-; exists tp1; by split_and!
       |rewrite lookup_alter_ne in Hq by done; eauto]). }
  assert (heap s2 = heap s1 ∧ tasks s2 = tasks s1
     ∧ ∀ q tq, pools s1 !! q = Some tq → ∃ tq', pools s2 !! q = Some tq'
       ∧ terminated tq' = terminated tq ∧ holded tq' = holded tq
       ∧ requests tq' = requests tq) as (Eh & Et & Hp).
  { destruct (_ <? _); [destruct (wants_thread _ _ _); [destruct sp|]|];
      simplify_eq; cbn; (split_and!; [done..|]); intros q tq Hq; eauto;
      (destruct (decide (q = p)) as [->|Hne];
       [rewrite lookup_alter_eq, Hq; simplify_eq; eexists; by split_and!
       |rewrite lookup_alter_ne by done; eauto]). }
  split; cbn; [congruence|rewrite Eh; done|rewrite Eh; done| | |rewrite Eh; done|].
  - intros q tq Hq. destruct (A4 q tq Hq) as (tq1 & Hq1 & ? & ? & Hin).
    destruct (Hp q tq1 Hq1) as (tq2 & ? & ? & ? & Hreq). exists tq2.
    split_and!; [done|congruence|congruence|]. intros. rewrite Hreq. auto.
  - intros u q Hu Hreq. destruct (A5 u q Hu Hreq) as (tq1 & Hq1 & Hin).
    destruct (Hp q tq1 Hq1) as (tq2 & ? & ? & ? & Hr). exists tq2. by rewrite Hr.
  - intros q tq2 Hq2. destruct (Hback q tq2 Hq2) as (tq1 & Hq1 & ? & ? & Hr).
    destruct (A7 q tq1 Hq1) as (tq & Hq & ? & ? & Hin). exists tq.
    split_and!; [done|congruence|congruence|]. rewrite Hr. exact Hin.
Qed.

Lemma scan_post_qpc now l c s s' :
  scan_post now l (set_qpc c s) s' → scan_post now l s s'.
Proof. by intros []; split. Qed.

Definition next_wait (h : gmap Z asynctask) (now : timeval) (t w : Z) : Z :=
  scan_wait h now [t] w.

(** At most four steps of the queue thread treat one task. *)
Lemma scan_one answers nw t rest w s :
  wf s → qpc s = QScan nw (t :: rest) w → (4 <= length answers)%nat →
  ∃ l1 l2 s1, answers = l1 ++ l2 ∧ (length l1 <= 4)%nat ∧ queue_run l1 s = Some s1
    ∧ qpc s1 = QScan nw rest (next_wait (heap s) nw t w) ∧ scan_post nw [t] s s1.
Proof.
  intros Hwf Hq Hlen.
  destruct answers as [|[n1 a1] [|[n2 a2] [|[n3 a3] [|[n4 a4] l]]]]; cbn in Hlen; try lia.
  assert (started (heap s) t) as (o & Ho & Hs).
  { apply (wf_started _ Hwf), elem_of_app. left. apply (wf_scanned _ Hwf).
    rewrite Hq. apply list_elem_of_here. }
  destruct (wf_pool _ Hwf t o Ho) as [tp Hp].
  assert (queue_step n1 a1 s =
    if negb (is_execution_requested o) && bool_decide (state o = WAITING) then
      if time_left_usec nw o <=? 0 then Some (set_qpc (QRequest nw t rest w) s)
      else Some (set_qpc (QScan nw rest (next_wait (heap s) nw t w)) s)
    else Some (set_qpc (QScan nw rest (next_wait (heap s) nw t w)) s)) as E1.
  { unfold queue_step, next_wait. rewrite Hq, Ho. cbn. rewrite Ho.
    destruct (negb _ && _); cbn; [|done].
    destruct (_ <=? 0) eqn:El; [done|]. replace (0 <? _) with true by lia.
    destruct (_ <? w) eqn:Ew; repeat f_equal; lia. }
  destruct (negb (is_execution_requested o) && bool_decide (state o = WAITING)) eqn:Ec;
    [destruct (time_left_usec nw o <=? 0) eqn:El|].
  - assert (next_wait (heap s) nw t w = w) as ->.
    { unfold next_wait. cbn. rewrite Ho, Ec. by replace (0 <? _) with false by lia. }
    set (s1 := set_qpc (QRequest nw t rest w) s) in *.
    assert (queue_step n2 a2 s1 =
      Some (set_qpc (if terminated tp || holded tp then QScan nw rest w
                     else QEnqueue nw t rest w) s1)) as E2.
    { unfold queue_step. cbn. rewrite Ho. cbn. rewrite Hp. cbn. by destruct (_ || _). }
    destruct (terminated tp || holded tp) eqn:Et.
    { exists [(n1, a1); (n2, a2)], ((n3, a3) :: (n4, a4) :: l), (set_qpc (QScan nw rest w) s1).
      split_and!; [done|cbn; lia| |done|].
      - by rewrite (queue_run_cons _ _ _ _ _ E1), (queue_run_cons _ _ _ _ _ E2).
      - apply (scan_post_skip nw t s). intros p (o' & tp' & ? & <- & _ & _ & _ & ? & ? & ?).
        simplify_eq. by destruct (terminated tp), (holded tp). }
    set (s2 := set_qpc (QEnqueue nw t rest w) s1) in *.
    assert (∃ r s3, request_enqueue n3 t (pool o) s2 = Some (r, s3)) as (r & s3 & E3).
    { unfold request_enqueue. cbn. rewrite Hp. cbn. destruct (existsb _ _); eauto. }
    assert (∀ c, scan_post nw [t] s (set_qpc c s3)) as Hpost.
    { intros c. apply (scan_post_qpc _ _ (QRequest nw t rest w)),
        (scan_post_qpc _ _ (QEnqueue nw t rest w)).
      eapply (scan_post_enqueue nw n3 t o r s2); [done| |done].
      apply andb_true_iff in Ec as [?%negb_true_iff ?%bool_decide_eq_true].
      apply orb_false_iff in Et as [? ?]. exists o, tp. split_and!; (done || lia). }
    destruct r as [req_count|].
    + assert (∃ s4, request_thread n4 a4 (pool o) req_count
                      (set_qpc (QSpawn nw t req_count rest w) s3) = Some s4) as [s4 E4].
      { unfold request_thread. destruct (sp_pools _ _ _ _ (Hpost QIterate) _ tp Hp)
          as (tp3 & Hp3 & _). cbn in *. rewrite Hp3. cbn.
        destruct (_ <? _); [destruct (wants_thread _ _ _); [destruct a4|]|]; eauto. }
      destruct (sp_state _ _ _ _ (Hpost QIterate) t o Ho) as [tr Ho3]. cbn in Ho3.
      exists [(n1, a1); (n2, a2); (n3, a3); (n4, a4)], l, (set_qpc (QScan nw rest w) s4).
      split_and!; [done|cbn; lia| |done|by eapply scan_post_threads].
      rewrite (queue_run_cons _ _ _ _ _ E1), (queue_run_cons _ _ _ _ _ E2).
      rewrite (queue_run_cons _ _ _ _ (set_qpc (QSpawn nw t req_count rest w) s3)).
      2:{ unfold queue_step. cbn. rewrite Ho. cbn. by rewrite E3. }
      rewrite (queue_run_cons _ _ _ _ (set_qpc (QScan nw rest w) s4)); [done|].
      unfold queue_step. cbn. rewrite Ho3. cbn. by rewrite E4.
    + exists [(n1, a1); (n2, a2); (n3, a3)], ((n4, a4) :: l), (set_qpc (QScan nw rest w) s3).
      split_and!; [done|cbn; lia| |done|done].
      rewrite (queue_run_cons _ _ _ _ _ E1), (queue_run_cons _ _ _ _ _ E2).
      rewrite (queue_run_cons _ _ _ _ (set_qpc (QScan nw rest w) s3)); [done|].
      unfold queue_step. cbn. rewrite Ho. cbn. by rewrite E3.
  - exists [(n1, a1)], ((n2, a2) :: (n3, a3) :: (n4, a4) :: l). eexists.
    split_and!; [done|cbn; lia|by rewrite (queue_run_cons _ _ _ _ _ E1)|done|].
    apply scan_post_skip. intros p (o' & tp' & ? & _ & _ & _ & ? & _). simplify_eq. lia.
  - exists [(n1, a1)], ((n2, a2) :: (n3, a3) :: (n4, a4) :: l). eexists.
    split_and!; [done|cbn; lia|by rewrite (queue_run_cons _ _ _ _ _ E1)|done|].
    apply scan_post_skip. intros p (o' & tp' & ? & _ & Hw & Hreq & _). simplify_eq.
    rewrite Hw, Hreq in Ec. done.
Qed.

(** The whole scan. *)
Lemma scan_all answers nw l : ∀ w s, wf s → NoDup l → qpc s = QScan nw l w →
  (4 * length l <= length answers)%nat →
  ∃ l1 l2 s1, answers = l1 ++ l2 ∧ (length l1 <= 4 * length l)%nat
    ∧ queue_run l1 s = Some s1 ∧ qpc s1 = QScan nw [] (scan_wait (heap s) nw l w)
    ∧ scan_post nw l s s1.
Proof.
  revert answers. induction l as [|t l IH]; intros answers w s Hwf Hnd Hq Hlen.
  - exists [], answers, s. split_and!; [done|done|done|done|apply scan_post_refl].
  - apply NoDup_cons in Hnd as [Hnin Hnd]. cbn in Hlen.
    destruct (scan_one answers nw t l w s Hwf Hq) as
      (l1 & l2 & s1 & -> & Hl1 & Hrun & Hq1 & Hpost); [lia|].
    rewrite length_app in Hlen.
    destruct (IH l2 (next_wait (heap s) nw t w) s1) as
      (m1 & m2 & s2 & -> & Hm1 & Hrun2 & Hq2 & Hpost2); [|done|done|lia|].
    { by eapply queue_run_wf. }
    exists (l1 ++ m1), m2, s2. split_and!.
    + by rewrite app_assoc.
    + rewrite length_app. cbn. lia.
    + by rewrite (queue_run_app _ _ _ _ Hrun).
    + rewrite Hq2. f_equal. cbn. unfold next_wait. cbn. apply scan_wait_ext.
      intros u Hu. apply (sp_other _ _ _ _ Hpost). set_solver.
    + by eapply scan_post_cons.
Qed.

Lemma scan_wait_range h now l : ∀ w, scan_wait h now l w <= w.
Proof.
  induction l as [|t l IH]; intros w; cbn; [lia|].
  etrans; [apply IH|]. destruct (h !! t); [|lia]. destruct (_ && _); lia.
Qed.
End iteration.

(** C37. One iteration of the queue thread, from any reachable state and whatever
    the time and the thread creations answer: it takes at most 4 n + 2 steps
    for n tasks; it leaves the queue as it is; every waiting task that is due and
    not yet requested is in the requests of its pool afterwards, unless the pool is
    terminated or on hold; no other task is added to the requests of a pool, and no
    other task is changed; of those that are requested only the time of the request
    is; and the thread then waits for the shortest time left of the others, within
    10 ms and 1 s. *)
Theorem iterate_spec `{PoolClass} s now sp answers
    (Hr : reachable s) (Hq : qpc s = QIterate)
    (Hlen : (4 * length (tasks s) + 1 <= length answers)%nat) :
  ∃ l1 l2 s', answers = l1 ++ l2 ∧ (length l1 <= 4 * length (tasks s) + 1)%nat
    ∧ queue_run ((now, sp) :: l1) s = Some s'
    ∧ tasks s' = tasks s
    ∧ (∀ t o, heap s !! t = Some o → ∃ r, heap s' !! t = Some (with_request_time r o))
    ∧ (∀ t p, t ∈ tasks s → to_request (heap s) (pools s) now t p →
         ∃ tp, pools s' !! p = Some tp ∧ t ∈ requests tp)
    ∧ (∀ t, t ∉ tasks s ∨ (∀ p, ¬ to_request (heap s) (pools s) now t p) →
         heap s' !! t = heap s !! t)
    ∧ (∀ t p tp', pools s' !! p = Some tp' → t ∈ requests tp' →
         (∃ tp, pools s !! p = Some tp ∧ t ∈ requests tp)
         ∨ (t ∈ tasks s ∧ to_request (heap s) (pools s) now t p))
    ∧ qpc s' = QWait (Z.max 10000 (scan_wait (heap s) now (tasks s) 1000000))
    ∧ 10000 <= Z.max 10000 (scan_wait (heap s) now (tasks s) 1000000) <= 1000000.
Proof.
  pose proof (reachable_wf s Hr) as Hwf.
  set (s0 := set_qpc (QScan now (tasks s) 1000000) (set_last_iterate (u64 (tv_sec now)) s)).
  assert (queue_step now sp s = Some s0) as E0 by (unfold queue_step; by rewrite Hq).
  destruct (scan_all answers now (tasks s) 1000000 s0) as
    (l1 & l2 & s1 & -> & Hl & Hrun & Hq1 & Hpost); [| |done|lia|].
  { by eapply wf_queue_step. }
  { exact (proj1 (proj1 (NoDup_app _ _) (wf_nodup _ Hwf))). }
  rewrite length_app in Hlen. destruct l2 as [|[n a] l2]; [cbn in Hlen; lia|].
  pose proof (scan_wait_range (heap s) now (tasks s) 1000000) as Hw.
  exists (l1 ++ [(n, a)]), l2. eexists. split_and!; [by rewrite <- app_assoc| | | | | | | | | |lia].
  - rewrite length_app. cbn. lia.
  - rewrite (queue_run_cons _ _ _ _ _ E0), (queue_run_app _ _ _ _ Hrun).
    cbn. unfold queue_step. rewrite Hq1. done.
  - apply (sp_tasks _ _ _ _ Hpost).
  - apply (sp_state _ _ _ _ Hpost).
  - apply (sp_request _ _ _ _ Hpost).
  - intros t [Ht|Ht]; [by apply (sp_other _ _ _ _ Hpost)|by apply (sp_quiet _ _ _ _ Hpost)].
  - intros t p tp' Hp Ht. destruct (sp_only _ _ _ _ Hpost p tp' Hp) as (tp & Hp0 & _ & _ & Hin).
    destruct (Hin t Ht); [left; by exists tp|by right].
  - cbn. f_equal. destruct (_ <? 10000) eqn:E; lia.
  - lia.
Qed.

Lemma iterate_spec_witness :
  let s := sys_after supla_asynctask_default_thread_pool run_start in
  ∃ l s', @queue_run supla_asynctask_default_thread_pool
            ((clock 0, SpawnOk 5) :: l) s = Some s' ∧ qpc s' = QWait 1000000
        ∧ ∃ tp, pools s' !! 1 = Some tp ∧ 7 ∈ requests tp.
Proof.
  assert (@reachable supla_asynctask_default_thread_pool
            (sys_after supla_asynctask_default_thread_pool run_start)) as Hr.
  { apply (@do_acts_reachable _ run_start); [run_ok|vm_compute; reflexivity]. }
  set (s := sys_after supla_asynctask_default_thread_pool run_start) in *.
  assert (tasks s = [7]) as Et by (vm_compute; reflexivity).
  destruct (@iterate_spec supla_asynctask_default_thread_pool s (clock 0) (SpawnOk 5)
              (repeat (clock 0, SpawnOk 5) 5) Hr) as (l1 & l2 & s' & E & _ & Hrun & _ & _ & Hreq & _ & _ & Hq & _).
  - vm_compute. reflexivity.
  - rewrite Et. cbn. lia.
  - exists l1, s'. split; [exact Hrun|]. split; [rewrite Hq; vm_compute; reflexivity|].
    assert (∃ tp, pools s' !! 1 = Some tp ∧ 7 ∈ requests tp) as Htp.
    { apply Hreq; [rewrite Et; apply list_elem_of_here|].
      eexists _, _. split; [vm_compute; reflexivity|].
      split_and!; vm_compute; first [reflexivity|discriminate]. }
    exact Htp.
Defined.

(** ** A request that is lost

    [on_thread_finish] drops the requests of a pool when its last thread goes,
    but not the request time of the tasks, which is what [iterate] looks at. *)

Section lost.
Context `{PoolClass}.
Context (p t : Z).

(** The step keeps the task in the queue, does not cancel it, and no task of
    the pool is being started. *)
Definition starts_none (s : sys) : Prop :=
  ∀ u o, u ∈ starting s → heap s !! u = Some o → pool o ≠ p.

Definition quiet (s s' : sys) : Prop :=
  step s s' ∧ t ∈ tasks s'
  ∧ (∀ o, heap s' !! t = Some o → state o ≠ CANCELED)
  ∧ starts_none s ∧ starts_none s'.

Definition current (c : queue_pc) : option Z :=
  match c with
  | QRequest _ u _ _ | QEnqueue _ u _ _ | QSpawn _ u _ _ _ => Some u
  | _ => None
  end.

(** [u] is not a task of the pool. *)
Definition foreign (h : gmap Z asynctask) (u : Z) : Prop :=
  ∀ o, h !! u = Some o → pool o ≠ p.

Record stranded (s : sys) : Prop := {
  sd_task : ∃ o, heap s !! t = Some o ∧ pool o = p ∧ state o = WAITING
                 ∧ is_execution_requested o = true;
  sd_live : ∀ h th, live s !! h = Some th →
     th_pool th ≠ p ∧ ∀ u, held (th_pc th) = Some u → foreign (heap s) u;
  sd_others : ∀ u o, u ∈ tasks s → heap s !! u = Some o → pool o = p →
     state o = WAITING → is_execution_requested o = true;
  sd_current : ∀ u, current (qpc s) = Some u → foreign (heap s) u
}.

(** An operation on a task that keeps its pool, and all that matters of a task
    of the pool [p]. *)
Definition mild (f : asynctask → asynctask) (o : asynctask) : Prop :=
  pool (f o) = pool o
  ∧ (pool o = p → state (f o) = state o
                  ∧ is_execution_requested (f o) = is_execution_requested o).

Lemma foreign_alter h u f v :
  (∀ o, h !! u = Some o → pool (f o) = pool o) → foreign h v → foreign (alter f u h) v.
Proof.
  intros Hf Hv o. destruct (decide (v = u)) as [->|Hne].
  - rewrite lookup_alter_eq. intros [x [Hx ->]]%fmap_Some. rewrite Hf by done. by apply Hv.
  - rewrite lookup_alter_ne by done. apply Hv.
Qed.

Lemma stranded_heap u f s :
  (∀ o, heap s !! u = Some o → mild f o) → stranded s → stranded (upd_task u f s).
Proof.
  intros Hf [(o & Ho & Hp & Hw & Hr) H2 H3 H4].
  assert (∀ o, heap s !! u = Some o → pool (f o) = pool o) as Hpf by (intros; by apply Hf).
  split; cbn.
  - destruct (decide (t = u)) as [->|Hne].
    + destruct (Hf o Ho) as [E1 E2]. destruct (E2 Hp) as [E3 E4]. exists (f o).
      rewrite lookup_alter_eq, Ho. split_and!; [done|congruence..].
    + exists o. by rewrite lookup_alter_ne.
  - intros h th Hl. destruct (H2 h th Hl) as [? Hh]. split; [done|].
    intros v Hv. apply foreign_alter; auto.
  - intros v ov Hv. destruct (decide (v = u)) as [->|Hne].
    + rewrite lookup_alter_eq. intros [x [Hx ->]]%fmap_Some.
      destruct (Hf x Hx) as [E1 E2]. rewrite E1. intros E. destruct (E2 E) as [-> ->]. eauto.
    + rewrite lookup_alter_ne by done. eauto.
  - intros v Hv. apply foreign_alter; auto.
Qed.

Lemma mild_foreign f o : pool (f o) = pool o → pool o ≠ p → mild f o.
Proof. by split. Qed.

(** What does not touch the tasks of the pool. *)
Lemma stranded_frame s s' :
  heap s' = heap s → (∀ u, u ∈ tasks s' → u ∈ tasks s) →
  (∀ h th', live s' !! h = Some th' → th_pool th' ≠ p
      ∧ ∀ u, held (th_pc th') = Some u → foreign (heap s) u) →
  (∀ u, current (qpc s') = Some u → foreign (heap s) u) →
  stranded s → stranded s'.
Proof.
  intros Eh Ht Hl Hq [H1 H2 H3 H4]. split; rewrite ?Eh; eauto.
Qed.

Lemma stranded_thread h f s :
  (∀ th, live s !! h = Some th → th_pool (f th) = th_pool th
     ∧ ∀ u, held (th_pc (f th)) = Some u → foreign (heap s) u) →
  stranded s → stranded (upd_thread h f s).
Proof.
  intros Hf Hs. pose proof Hs as [H1 H2 H3 H4].
  apply (stranded_frame s); cbn; try done.
  intros h' th'. rewrite lookup_alter_Some. intros [(-> & th & Hth & ->)|[_ ?]]; [|eauto].
  destruct (Hf th Hth) as [-> ?]. split; [|done]. by eapply H2.
Qed.

Lemma stranded_same s s' :
  heap s' = heap s → tasks s' = tasks s → live s' = live s →
  current (qpc s') = current (qpc s) ∨ current (qpc s') = None →
  stranded s → stranded s'.
Proof.
  intros Eh Et El Eq Hs. pose proof Hs as [H1 H2 H3 H4].
  apply (stranded_frame s); rewrite ?Et, ?El; try done.
  destruct Eq as [-> | ->]; [done|]. by intros.
Qed.

(** The queue thread does not request any task of the pool. *)
Lemma stranded_queue_step now sp s s' :
  wf s → queue_step now sp s = Some s' → stranded s → stranded s'.
Proof.
  unfold queue_step. intros Hwf E Hs. pose proof Hs as [H1 H2 H3 H4].
  pose proof (wf_scanned _ Hwf) as Hsc.
  destruct (qpc s) as [|nw [|u rest] w|nw u rest w|nw u rest w|nw u n rest w|w] eqn:Eq;
    [simplify_eq; apply (stranded_same s); auto..| | | |
    |simplify_eq; apply (stranded_same s); auto];
    cbn in Hsc; try (pose proof (H4 u eq_refl) as Hfor);
    destruct (heap s !! u) as [o|] eqn:Eo; cbn in E; try done.
  - destruct (_ && _) eqn:Ec; [|simplify_eq; apply (stranded_same s); auto].
    apply andb_prop in Ec as [Ec1 Ec2%bool_decide_eq_true].
    destruct (_ <=? 0); [|destruct (_ <? w); simplify_eq; apply (stranded_same s); auto].
    simplify_eq. apply (stranded_frame s); cbn; try done. intros v [= <-] o' Ho' Hpo.
    simplify_eq. rewrite (H3 u o) in Ec1; [done|apply Hsc, list_elem_of_here|done..].
  - destruct (pools s !! pool o); cbn in E; [|done].
    destruct (_ || _); simplify_eq; apply (stranded_same s); auto.
    cbn. rewrite Eq. by left.
  - unfold request_enqueue in E. destruct (pools s !! pool o) as [tp|]; cbn in E; [|done].
    destruct (existsb _ _); cbn in E; simplify_eq; [apply (stranded_same s); auto|].
    assert (stranded (upd_task u (set_execution_request_time now false) s)) as Hs1.
    { apply stranded_heap; [|done]. intros o' Ho'. apply mild_foreign; [done|by apply Hfor]. }
    revert Hs1. apply stranded_same; cbn; auto. rewrite Eq. by left.
  - unfold request_thread in E. destruct (pools s !! pool o) as [tp|]; cbn in E; [|done].
    destruct (vec_size (threads tp) <? _);
      [destruct (wants_thread _ _ _); cbn in E; [destruct sp as [h| |h]|]|]; cbn in E;
      simplify_eq; try (apply (stranded_same s); auto; done).
    apply (stranded_frame s); cbn; try done. intros h' th'. rewrite lookup_insert_Some.
    intros [[<- <-]|[_ ?]]; [|eauto]. split; [by apply Hfor|done].
Qed.

Lemma stranded_thread_step now h body s s' :
  wf s → thread_step now h body s = Some s' → stranded s → stranded s'.
Proof.
  unfold thread_step. destruct (live s !! h) as [th|] eqn:Eh; cbn; [|done].
  intros Hwf E Hs. pose proof Hs as [H1 H2 H3 H4].
  destruct (H2 h th Eh) as [Hth Hheld].
  assert (∀ c s1, stranded s1 → live s1 = live s → heap s1 = heap s →
     (∀ u, held c = Some u → held (th_pc th) = Some u) → stranded (upd_thread h (goto c) s1))
    as Hgo.
  { intros c s1 Hs1 El E1 Hc. apply stranded_thread; [|done]. intros th'.
    rewrite El, E1. intros; simplify_eq. split; [done|]. auto. }
  assert (∀ c u f s1, held (th_pc th) = Some u → (∀ o, heap s !! u = Some o → pool (f o) = pool o) →
     live s1 = live s → heap s1 = alter f u (heap s) → tasks s1 = tasks s → qpc s1 = qpc s →
     (∀ v, held c = Some v → v = u) → stranded (upd_thread h (goto c) s1)) as Hgof.
  { intros c u f s1 Hu Hf El E1 Et Eq Hc.
    assert (stranded (upd_task u f s)) as Hs1.
    { apply stranded_heap; [|done]. intros o Ho. apply mild_foreign; [auto|]. by eapply Hheld. }
    assert (stranded s1) as Hs2 by (revert Hs1; apply stranded_same; cbn; rewrite ?Eq; auto).
    apply stranded_thread; [|done]. intros th'. rewrite El, E1. intros; simplify_eq.
    split; [done|]. intros v ->%Hc. apply foreign_alter; [done|auto]. }
  destruct (th_pc th) as [| |u|u|u|u|u|u|u|u|u| | |];
    try (destruct (heap s !! u) as [o|] eqn:Eo; cbn in E; [|done]);
    try (destruct (queue_locked s); [done|]).
  - simplify_eq. by destruct (has_bucket _); apply Hgo; try done; apply (stranded_same s); auto.
  - unfold pick in E. destruct (pick_find _ _ _ _) as [u|] eqn:Ef; simplify_eq; [|by apply Hgo].
    apply find_first_Some in Ef as [Hp _]. unfold pickable in Hp.
    destruct (heap s !! u) as [o|] eqn:Eo; [|done].
    assert (pool o = th_pool th) as Hpo by lia.
    assert (∀ o', pool (pick_task o').1 = pool o') as Hpick
      by (intros o'; unfold pick_task; by destruct (decide _)).
    apply stranded_thread.
    + intros th' Hth'. cbn in Hth'. simplify_eq. split; [done|]. intros v [= <-].
      apply foreign_alter; [done|]. intros o' Ho'. simplify_eq. by rewrite Hpo.
    + apply stranded_heap; [|done]. intros o' Ho'. apply mild_foreign; [done|].
      simplify_eq. by rewrite Hpo.
  - pose proof (pool_execute_begin now o) as Hp.
    destruct (execute_begin now o) as [[o1 al] ?]; simplify_eq.
    apply (Hgof _ u (λ _, o1)); try done; [intros; by simplify_eq|].
    by destruct al; intros v [= ->].
  - pose proof (pool_execute_end now body.1 body.2 o) as Hp.
    destruct (execute_end _ _ _ o) as [o1 ra]; simplify_eq.
    apply (Hgof _ u (λ _, o1)); try (by destruct ra); [intros; by simplify_eq|].
    by intros v [= ->].
  - simplify_eq. apply Hgo; try done. by destruct (_ && _).
  - simplify_eq. apply (Hgof _ u with_notified); try done. by intros v [= ->].
  - simplify_eq. apply Hgo; try done.
  - simplify_eq. apply Hgo; try done. by destruct (is_finished o).
  - simplify_eq. apply Hgo; try done. apply (stranded_frame s); cbn; try done.
    intros v. apply erase_first_subset.
  - simplify_eq. apply (Hgof _ u (set_execution_request_time now true)); try done.
    by intros v [= ->].
  - simplify_eq. apply stranded_thread; [by split|]. apply (stranded_same s); auto.
  - destruct (pools s !! th_pool th); cbn in E; [|done]. simplify_eq.
    apply Hgo; try done. by destruct (iterate_again _ _ _ _).
  - simplify_eq. by destruct (has_bucket _); apply Hgo; try done; apply (stranded_same s); auto.
  - simplify_eq. apply (stranded_frame s); cbn; try done.
    intros h' th' [_ ?]%lookup_delete_Some. eauto.
Qed.

(** Cancelling changes nothing of a task but its state. *)
Lemma cancel_tasks_cases cnd s :
  (∀ u o', heap (cancel_tasks cnd s) !! u = Some o' →
     heap s !! u = Some o' ∨ ∃ o, heap s !! u = Some o ∧ o' = cancel o)
  ∧ (∀ u, u ∈ tasks (cancel_tasks cnd s) → u ∈ tasks s)
  ∧ live (cancel_tasks cnd s) = live s ∧ qpc (cancel_tasks cnd s) = qpc s
  ∧ ∀ u, is_Some (heap s !! u) → is_Some (heap (cancel_tasks cnd s) !! u).
Proof.
  unfold cancel_tasks.
  generalize (filter (λ t, condition_met (heap s) cnd t = true) (tasks s)). intros l.
  revert s. induction l as [|v l IH]; intros s; cbn; [eauto 10|].
  destruct (IH (remove_task v (upd_task v cancel s))) as (A1 & A2 & A3 & A4 & A5).
  cbn in *. split_and!; [| |done|done|].
  - intros u o' Ho'. assert (∀ x, alter cancel v (heap s) !! u = Some x →
        heap s !! u = Some x ∨ ∃ o, heap s !! u = Some o ∧ x = cancel o) as Hx.
    { intros x. rewrite lookup_alter_Some. intros [(<- & o & ? & ->)|[_ ?]]; eauto. }
    destruct (A1 u o' Ho') as [Hu|(o & Hu & ->)]; [by apply Hx|].
    destruct (Hx o Hu) as [?|(o2 & ? & ->)]; eauto.
  - intros u Hu%A2. by eapply erase_first_subset.
  - intros u [o Ho]. apply A5. destruct (decide (u = v)) as [->|Hne].
    + rewrite lookup_alter_eq, Ho. by eexists.
    + rewrite lookup_alter_ne by done. by eexists.
Qed.

Lemma stranded_cancel cnd s :
  (∀ o, heap (cancel_tasks cnd s) !! t = Some o → state o ≠ CANCELED) →
  stranded s → stranded (cancel_tasks cnd s).
Proof.
  intros Hnc [(o & Ho & Hp & Hw & Hr) H2 H3 H4].
  destruct (cancel_tasks_cases cnd s) as (A1 & A2 & A3 & A4 & A5).
  assert (∀ v, foreign (heap s) v → foreign (heap (cancel_tasks cnd s)) v) as Hfor.
  { intros v Hv o' Ho'. destruct (A1 v o' Ho') as [?|(o2 & ? & ->)]; [by apply Hv|].
    by apply (Hv o2). }
  split.
  - destruct (A5 t) as [o' Ho']; [by eexists|]. specialize (Hnc o' Ho').
    destruct (A1 t o' Ho') as [?|(o2 & ? & ->)]; [|done]. simplify_eq. by exists o.
  - rewrite A3. intros h th Hl. destruct (H2 h th Hl). auto.
  - intros u o' Hu Ho' Hpo Hwo. destruct (A1 u o' Ho') as [?|(o2 & ? & ->)]; [eauto|done].
  - rewrite A4. auto.
Qed.

Lemma stranded_add now u s :
  starts_none s → u ∈ starting s → stranded s →
  stranded (set_starting (erase_first (Z.eqb u) (starting s))
     (add_task u (queue_on_task_started u (upd_task u (with_started_at now) s)))).
Proof.
  intros Hn Hu Hs.
  assert (stranded (upd_task u (with_started_at now) s)) as [H1 H2 H3 H4]
    by by apply stranded_heap.
  split; cbn; [done|done| |done].
  intros v o. rewrite insert_task_perm, elem_of_cons. intros [->|Hv]; [|by apply H3].
  rewrite lookup_alter_eq. intros [x [Hx ->]]%fmap_Some Hp. exfalso. by apply (Hn u x).
Qed.

Lemma stranded_destroy u o s :
  unreferenced u s → t ∈ tasks (destroy u o s) → stranded s → stranded (destroy u o s).
Proof.
  intros (Hu & _) Hin [(ot & Hot & Hpt & Hwt & Hrt) H2 H3 H4].
  assert (t ≠ u) by (intros ->; apply Hu; revert Hin; unfold destroy;
    by destruct (on_task_finished o).2).
  assert (∀ v, foreign (heap s) v → foreign (delete u (heap s)) v) as Hfor.
  { intros v Hv x [_ ?]%lookup_delete_Some. by apply Hv. }
  assert (stranded (set_heap (delete u (heap s)) s)) as Hd.
  { split; cbn.
    - exists ot. by rewrite lookup_delete_ne.
    - intros h th Hl. destruct (H2 h th Hl). auto.
    - intros v x Hv [_ ?]%lookup_delete_Some. eauto.
    - auto. }
  unfold destroy. destruct (on_task_finished o).2; [|done].
  revert Hd. apply stranded_same; auto.
Qed.

Lemma stranded_terminate q s s' : terminate q s = Some s' → stranded s → stranded s'.
Proof.
  unfold terminate. destruct (pools s !! q) as [tp|]; cbn; [|done]. intros [= <-] Hs.
  match goal with |- stranded (foldl _ ?x _) =>
    assert (stranded x) as Hx by (by apply (stranded_same s); auto);
    revert Hx; generalize x end.
  clear Hs. induction (threads tp) as [|h l IH]; intros x Hx; simpl; [done|].
  apply IH, stranded_thread; [|done]. intros th Hth. split; [done|].
  by apply (sd_live _ Hx h th Hth).
Qed.

Lemma stranded_step s s' : wf s → quiet s s' → stranded s → stranded s'.
Proof.
  intros Hwf (Hs & Hin & Hnc & Hstart0 & Hstart). revert Hwf Hin Hnc Hstart0 Hstart.
  destruct Hs as [q s0 Hp|u q s0 Hu Hp|u o o' s0 Ho Hop|s0|u o s0 Ho Hst|now u s0 Hu Hq
    |cnd s0 Hq|u o s0 Ho Hu|o b s0|q b s0|q s0 s1 E|now sp s0 s1 Hsp E|now h body s0 s1 E];
    intros Hwf Hin Hnc Hstart0 Hstart Hsd; pose proof Hsd as [(ot & Hot & Hpt & Hwt & Hrt) H2 H3 H4].
  - apply (stranded_same s0); auto.
  - assert (∀ v, started (heap s0) v → <[u := new_asynctask q]> (heap s0) !! v = heap s0 !! v)
      as Hsame by (intros v (? & ? & _); rewrite lookup_insert_ne; congruence).
    split; cbn.
    + exists ot. rewrite Hsame; [done|]. exists ot. by rewrite Hwt.
    + intros h th Hl. destruct (H2 h th Hl) as [? Hh]. split; [done|]. intros v Hv.
      unfold foreign. rewrite Hsame; [by apply Hh|]. by eapply (wf_held _ Hwf).
    + intros v o Hv. rewrite Hsame; [by apply H3|]. apply (wf_started _ Hwf).
      apply elem_of_app. by left.
    + intros v Hv. unfold foreign. rewrite Hsame; [by apply H4|]. apply (wf_started _ Hwf).
      apply elem_of_app. left. apply (wf_scanned _ Hwf).
      destruct (qpc s0); cbn in Hv |- *; simplify_eq; apply list_elem_of_here.
  - apply stranded_heap; [|done]. intros o1 ?; simplify_eq.
    destruct Hop; unfold set_priority, set_observable; [destruct (decide _)|
      destruct (negb _)|..]; done.
  - by apply (stranded_same s0); auto.
  - assert (stranded (upd_task u (λ o, (start_begin o).1) s0)) as Hs1.
    { apply stranded_heap; [|done]. intros o1 ?; simplify_eq.
      assert (pool (start_begin o).1 = pool o) as Ep
        by (unfold start_begin; by destruct (decide _)).
      apply mild_foreign; [done|]. rewrite <- Ep. apply (Hstart u).
      - cbn. apply elem_of_app. right. apply list_elem_of_here.
      - cbn. by rewrite lookup_alter_eq, Ho. }
    revert Hs1. apply stranded_same; cbn; auto.
  - by apply stranded_add.
  - by apply stranded_cancel.
  - by apply stranded_destroy.
  - destruct b; [unfold add_observer; destruct (decide _)|]; by apply (stranded_same s0); auto.
  - destruct b; by apply (stranded_same s0); auto.
  - by eapply stranded_terminate.
  - by eapply stranded_queue_step.
  - by eapply stranded_thread_step.
Qed.

Lemma stranded_forever s s' :
  reachable s → stranded s → rtc quiet s s' → stranded s'.
Proof.
  intros Hr%reachable_wf Hs Hq.
  apply (rtc_invariant quiet (λ s, wf s ∧ stranded s) s s' Hq (conj Hr Hs)).
  intros a b [Ha Hb] Hab. split; [|by eapply stranded_step].
  eapply wf_step; [done|]. apply Hab.
Qed.
End lost.

(** A run of the voice-assistant pool, one task at a time in a thread: thread 5
    has run task 7 and has decided to leave when task 8 is requested; no thread
    is started since one task per thread is allowed and the thread is still
    counted; then the thread ends. *)
Definition run_lost : list act :=
  run_body ++ thread_run 8 (true, false)
  ++ [ANew 8 1; AStart 8; AAdd (clock 1) 8]
  ++ repeat (AQueue (clock 1)) 7 ++ thread_run 2 (true, false).

(** A request can be lost: with the class of the voice-assistant pool
    there is a reachable state in which a started task that is due is waiting
    in the queue, its pool has neither a thread nor a request left, and from
    which on, whatever the queue and the threads do and however long it takes, the task is never executed
    as long as no other task of the pool is started. *)
Theorem request_lost :
  ∃ s o, @reachable supla_voice_assistant_sync_thread_pool s
    ∧ heap s !! 8 = Some o ∧ 8 ∈ tasks s ∧ pool o = 1
    ∧ (∀ now, time_left_usec now o <= 0)
    ∧ (∃ tp, pools s !! 1 = Some tp ∧ threads tp = [] ∧ requests tp = []
             ∧ terminated tp = false ∧ holded tp = false)
    ∧ ∀ s', rtc (@quiet supla_voice_assistant_sync_thread_pool 1 8) s s' →
        ∃ o', heap s' !! 8 = Some o' ∧ state o' = WAITING.
Proof.
  set (c := supla_voice_assistant_sync_thread_pool).
  set (s := sys_after c run_lost).
  assert (@reachable c s) as Hr.
  { apply (@do_acts_reachable _ run_lost); [run_ok|vm_compute; reflexivity]. }
  assert (∃ o, heap s !! 8 = Some o ∧ pool o = 1 ∧ state o = WAITING
     ∧ is_execution_requested o = true ∧ execution_start_time o = timeval_zero)
    as (o & Ho & Hp & Hw & Hreq & Hz) by (eexists; vm_compute; auto 10).
  assert (tasks s = [8]) as Et by (vm_compute; reflexivity).
  assert (live s = ∅) as El by (vm_compute; reflexivity).
  assert (current (qpc s) = None) as Eq by (vm_compute; reflexivity).
  assert (∃ tp, pools s !! 1 = Some tp ∧ threads tp = [] ∧ requests tp = []
             ∧ terminated tp = false ∧ holded tp = false) as Hpool.
  { eexists. split; [vm_compute; reflexivity|]. split_and!; reflexivity. }
  clearbody s.
  exists s, o. split_and!; [done|done|rewrite Et; apply list_elem_of_here|done| |done|].
  - intros now. unfold time_left_usec. by rewrite Hz.
  - intros s' Hq.
    assert (@stranded 1 8 s) as Hs.
    { split; [by exists o| | |].
      - intros h th. by rewrite El, lookup_empty.
      - rewrite Et. intros u o' ->%list_elem_of_singleton ?. by simplify_eq.
      - by rewrite Eq. }
    destruct (@stranded_forever c 1 8 s s' Hr Hs Hq) as [(o' & ? & _ & ? & _) _ _ _]. eauto.
Qed.

(** ** Cancelling a requested task *)

Section spin.
Context `{PoolClass}.

(** A thread alone, at the given times. *)
Fixpoint thread_alone (h : Z) (nows : list timeval) (s : sys) : option sys :=
  match nows with
  | [] => Some s
  | now :: l => s1 ← thread_step now h (false, false) s; thread_alone h l s1
  end.

Lemma cancel_tasks_pools cnd s : pools (cancel_tasks cnd s) = pools s.
Proof.
  unfold cancel_tasks.
  generalize (filter (λ t, condition_met (heap s) cnd t = true) (tasks s)). intros l.
  revert s. by induction l as [|v l IH]; intros s; cbn; [|rewrite IH].
Qed.

Lemma cancel_tasks_canceled cnd s u o' :
  u ∈ tasks s → condition_met (heap s) cnd u = true →
  heap (cancel_tasks cnd s) !! u = Some o' → state o' = CANCELED.
Proof.
  intros Hu Hc. unfold cancel_tasks.
  assert (u ∈ filter (λ t, condition_met (heap s) cnd t = true) (tasks s)) as Hin
    by by apply list_elem_of_filter.
  assert (∀ l s, (∀ x, heap s !! u = Some x → state x = CANCELED) →
    heap (foldl (λ s t, remove_task t (upd_task t cancel s)) s l) !! u = Some o' →
    state o' = CANCELED) as Hstay.
  { intros l. induction l as [|v l IH]; intros s0 H0; cbn; [auto|]. apply IH. cbn.
    intros x. rewrite lookup_alter_Some. intros [(_ & y & _ & ->)|[_ ?]]; [done|auto]. }
  revert Hin. generalize (filter (λ t, condition_met (heap s) cnd t = true) (tasks s)).
  clear Hu Hc. intros l. revert s. induction l as [|v l IH]; intros s; cbn; [by intros []%elem_of_nil|].
  intros [<-|Hu]%elem_of_cons; [|by apply IH].
  apply Hstay. cbn. intros x. rewrite lookup_alter_eq. by intros [y [_ ->]]%fmap_Some.
Qed.

Lemma thread_round now1 now2 h th tp s :
  live s !! h = Some th → th_pc th = PcPick → th_terminated th = false →
  queue_locked s = false → pools s !! th_pool th = Some tp →
  vec_size (threads tp) <= vec_size (requests tp) →
  pick_find (heap s) now1 (th_pool th) (tasks s) = None →
  thread_alone h [now1; now2] s = Some s.
Proof.
  intros Hl Hc Ht Hq Hp Hle Hn. cbn [thread_alone].
  assert (thread_step now1 h (false, false) s = Some (upd_thread h (goto PcDecide) s)) as ->.
  { unfold thread_step. rewrite Hl. cbn. rewrite Hc, Hq. unfold pick. by rewrite Hn. }
  cbn [mbind option_bind].
  assert (thread_step now2 h (false, false) (upd_thread h (goto PcDecide) s)
          = Some (upd_thread h (goto PcPick) (upd_thread h (goto PcDecide) s))) as ->.
  { unfold thread_step. cbn. rewrite lookup_alter_eq, Hl. cbn. rewrite Hp. cbn.
    unfold iterate_again. cbn. rewrite Ht. cbn. by replace (_ <=? _) with true by lia. }
  f_equal. unfold upd_thread. cbn. destruct s as [? ? ? ? ? ? ? ? live0 ?]; cbn in *. unfold set_live. cbn.
  enough (alter (goto PcPick) h (alter (goto PcDecide) h live0) = live0) as -> by done.
  apply map_eq. intros i. destruct (decide (i = h)) as [->|Hne];
    [|by rewrite !lookup_alter_ne].
  rewrite !lookup_alter_eq, Hl. cbn. f_equal. destruct th; cbn in *. by rewrite Hc.
Qed.
End spin.

(** Cancelling requested tasks leaves their requests in the pool: if all the
    tasks of a pool are cancelled while the pool has at least as many requests
    as threads, a thread of the pool that was about to pick finds nothing, never leaves its
    loop, and changes nothing, for any number of rounds. *)
Theorem cancelled_requests_spin `{PoolClass} s cnd h th tp nows
    (Hl : live s !! h = Some th) (Hc : th_pc th = PcPick)
    (Ht : th_terminated th = false) (Hq : queue_locked s = false)
    (Hp : pools s !! th_pool th = Some tp)
    (Hle : vec_size (threads tp) <= vec_size (requests tp))
    (Hcnd : ∀ t o, t ∈ tasks s → heap s !! t = Some o → pool o = th_pool th →
              cnd t o = true) :
  thread_alone h (mjoin (map (λ n : timeval * timeval, [n.1; n.2]) nows)) (cancel_tasks cnd s)
  = Some (cancel_tasks cnd s).
Proof.
  set (s' := cancel_tasks cnd s).
  destruct (cancel_tasks_cases cnd s) as (A1 & A2 & A3 & A4 & _).
  assert (∀ now, pick_find (heap s') now (th_pool th) (tasks s') = None) as Hnone.
  { intros now. apply find_first_None. intros u Hu%A2. unfold pickable.
    destruct (heap s' !! u) as [o'|] eqn:Ho; [|done].
    destruct (decide (pool o' = th_pool th)) as [Hpo|];
      [|by replace (pool o' =? th_pool th) with false by lia; rewrite andb_false_r].
    assert (state o' = CANCELED) as ->; [|done].
    assert (∃ o, heap s !! u = Some o ∧ pool o = th_pool th) as (o & Hou & Hpo').
    { destruct (A1 u o' Ho) as [?|(o & ? & ->)]; eauto. }
    eapply (cancel_tasks_canceled cnd s u); [done| |done].
    unfold condition_met. rewrite Hou. eauto. }
  induction nows as [|[n1 n2] nows IH]; [done|].
  change (thread_alone h (n1 :: n2 :: mjoin (map (λ n, [n.1; n.2]) nows)) s' = Some s').
  pose proof (thread_round n1 n2 h th tp s') as Hround.
  assert (∀ l1 l2 x y, thread_alone h l1 x = Some y →
            thread_alone h (l1 ++ l2) x = thread_alone h l2 y) as Happ.
  { intros l1. induction l1 as [|n l1 IH1]; intros l2 x y; cbn; [by intros [= ->]|].
    destruct (thread_step _ _ _ x); cbn; [apply IH1|done]. }
  transitivity (thread_alone h (mjoin (map (λ n, [n.1; n.2]) nows)) s'); [|exact IH].
  refine (Happ [n1; n2] _ s' s' _). apply Hround; try done.
  - unfold s'. by rewrite A3.
  - unfold s', queue_locked. by rewrite A4.
  - unfold s'. by rewrite cancel_tasks_pools.
Qed.

Definition run_pick : list act :=
  run_start ++ run_request ++ thread_run 1 (true, false).

Lemma cancelled_requests_spin_witness :
  let s := sys_after supla_asynctask_default_thread_pool run_pick in
  @thread_alone supla_asynctask_default_thread_pool 5
    [clock 2; clock 3; clock 4; clock 5] (cancel_tasks (λ _ _, true) s)
  = Some (cancel_tasks (λ _ _, true) s).
Proof.
  set (s := sys_after supla_asynctask_default_thread_pool run_pick).
  refine (@cancelled_requests_spin supla_asynctask_default_thread_pool s (λ _ _, true) 5
            (Thread 1 PcPick timeval_zero false) _
            [(clock 2, clock 3); (clock 4, clock 5)] _ _ _ _ _ _ _).
  - vm_compute. reflexivity.
  - reflexivity.
  - reflexivity.
  - vm_compute. reflexivity.
  - vm_compute. reflexivity.
  - vm_compute. discriminate.
  - reflexivity.
Defined.
