(* ===== verification/Caller.v ===== *)
(** * Caller: who asked for an action (supla-server/src/caller.cpp)

    A caller is a stack: each element points to the caller it acts for.  The
    scenes use it to stop a scene from executing itself through others. *)

From S2P Require Import Prelude.

Inductive callerType_e :=
  | ctUnknown | ctDevice | ctClient | ctIPC | ctMQTT | ctAmazonAlexa
  | ctGoogleHome | ctActionTrigger | ctScene | ctCyclicTask.

#[export] Instance callerType_e_eq_dec : EqDecision callerType_e.
Proof. solve_decision. Defined.

(** The null parent pointer is [None]. *)
Inductive supla_caller :=
    Caller (parent : option supla_caller) (type : callerType_e) (id : Z) (name : string).

Definition caller_parent (c : supla_caller) : option supla_caller :=
  match c with Caller p _ _ _ => p end.
Definition caller_type (c : supla_caller) : callerType_e :=
  match c with Caller _ t _ _ => t end.
Definition caller_id (c : supla_caller) : Z := match c with Caller _ _ i _ => i end.
Definition caller_name (c : supla_caller) : string :=
  match c with Caller _ _ _ n => n end.

(** ** The operations *)

Fixpoint clone (c : supla_caller) : supla_caller :=
  match c with
  | Caller p t i n =>
      Caller (match p with Some q => Some (clone q) | None => None end) t i n
  end.

(** The constructors that take a parent. *)
Definition caller_of (parent : supla_caller) (t : callerType_e) (i : Z) : supla_caller :=
  Caller (Some (clone parent)) t i "".

Fixpoint get_first (c : supla_caller) : supla_caller :=
  match caller_parent c with
  | None => c
  | Some _ => match c with
              | Caller (Some p) _ _ _ => get_first p
              | Caller None _ _ _ => c
              end
  end.

Definition get_id (c : supla_caller) : Z := caller_id (get_first c).
Definition get_type (c : supla_caller) : callerType_e := caller_type (get_first c).
Definition get_name (c : supla_caller) : string := caller_name (get_first c).

Definition convert_to_sender_id (c : supla_caller) : Z :=
  if decide (caller_type c = ctClient) then caller_id c else 0.

Definition is_caller (t : callerType_e) (i : Z) (c : supla_caller) : bool :=
  bool_decide (caller_type c = t) && (caller_id c =? i).

(** The loop of [find]: [count] elements seen, [n] the last that matched. *)
Fixpoint find_loop (t : callerType_e) (i : Z) (c : supla_caller) (count n : Z) : Z * Z :=
  let count := count + 1 in
  let n := if is_caller t i c then count else n in
  match c with
  | Caller (Some p) _ _ _ => find_loop t i p count n
  | Caller None _ _ _ => (count, n)
  end.

Definition find (t : callerType_e) (i : Z) (c : supla_caller) : Z :=
  let '(count, n) := find_loop t i c 0 0 in
  if n =? 0 then 0 else count - n + 1.

Fixpoint stack_size (c : supla_caller) : Z :=
  match c with
  | Caller (Some p) _ _ _ => 1 + stack_size p
  | Caller None _ _ _ => 1
  end.

(** [operator==] on callers: the first callers are compared. *)
Definition caller_eqb (c d : supla_caller) : bool :=
  (get_id c =? get_id d) && bool_decide (get_type c = get_type d).

(** ** The stack as a list, the first caller last *)

Fixpoint stack (c : supla_caller) : list (callerType_e * Z) :=
  (caller_type c, caller_id c) ::
  match c with Caller (Some p) _ _ _ => stack p | Caller None _ _ _ => [] end.

(** Induction along the parents. *)
Lemma caller_ind (P : supla_caller → Prop) :
  (∀ t i n, P (Caller None t i n)) →
  (∀ p t i n, P p → P (Caller (Some p) t i n)) →
  ∀ c, P c.
Proof.
  intros H1 H2. fix IH 1. intros [[p|] t i n]; [apply H2, IH|apply H1].
Qed.

Lemma clone_id c : clone c = c.
Proof. induction c as [t i n|p t i n IH] using caller_ind; cbn; [done|by rewrite IH]. Qed.

Lemma stack_caller_of p t i : stack (caller_of p t i) = (t, i) :: stack p.
Proof. cbn. by rewrite clone_id. Qed.

Lemma stack_size_length c : stack_size c = Z.of_nat (length (stack c)).
Proof. induction c as [t i n|p t i n IH] using caller_ind; cbn; [done|]. cbn in IH. lia. Qed.

Lemma stack_last c : last (stack c) = Some (get_type c, get_id c).
Proof.
  induction c as [t i n|p t i n IH] using caller_ind; [done|].
  change (last ((t, i) :: stack p) = Some (get_type p, get_id p)). rewrite <- IH.
  by destruct p as [[]].
Qed.

Lemma is_caller_true t i c : is_caller t i c = true ↔ (caller_type c, caller_id c) = (t, i).
Proof.
  unfold is_caller. rewrite andb_true_iff, bool_decide_eq_true, Z.eqb_eq.
  split; [intros [-> ->]; done|by intros [= -> ->]].
Qed.

Lemma is_caller_false t i c :
  is_caller t i c = false → (t, i) ≠ (caller_type c, caller_id c).
Proof.
  intros E Heq. assert (is_caller t i c = true); [by apply is_caller_true|congruence].
Qed.

(** What the loop computes: the length of the stack, and the position of the
    last match. *)
Lemma find_loop_spec t i c : ∀ count n,
  (find_loop t i c count n).1 = count + Z.of_nat (length (stack c))
  ∧ (((t, i) ∉ stack c) ∧ (find_loop t i c count n).2 = n
     ∨ ∃ l1 l2, stack c = l1 ++ (t, i) :: l2 ∧ ((t, i) ∉ l2)
         ∧ (find_loop t i c count n).2 = count + Z.of_nat (length l1) + 1).
Proof.
  induction c as [t' i' nm|p t' i' nm IH] using caller_ind; intros count n.
  - cbn. split; [lia|]. destruct (is_caller t i _) eqn:E.
    + apply is_caller_true in E as [= -> ->]. right. exists [], [].
      split_and!; [done|apply not_elem_of_nil|cbn; lia].
    + left. split; [|done]. intros Hin%list_elem_of_singleton.
      by apply (is_caller_false _ _ _ E).
  - cbn [find_loop]. set (n' := if is_caller t i _ then _ else n).
    destruct (IH (count + 1) n') as [E1 E2].
    change (stack (Caller (Some p) t' i' nm)) with ((t', i') :: stack p).
    split; [rewrite E1; cbn; lia|].
    destruct E2 as [[Hn ->]|(l1 & l2 & E & Hn & ->)].
    + unfold n'. destruct (is_caller t i _) eqn:Ei.
      * apply is_caller_true in Ei as [= -> ->]. right. exists [], (stack p).
        split_and!; [done|done|cbn; lia].
      * left. split; [|done]. intros [Hin|?]%elem_of_cons; [|done].
        by apply (is_caller_false _ _ _ Ei).
    + right. exists ((t', i') :: l1), l2. rewrite E. split_and!; [done|done|cbn; lia].
Qed.

(** [find] tells whether the type and the identifier occur in the stack, and
    at what depth counted from the first caller (1 for the first caller): when
    they occur several times the occurrence nearest to the first caller counts. *)
Theorem find_spec t i c :
  (((t, i) ∉ stack c) ∧ find t i c = 0)
  ∨ (∃ l1 l2, stack c = l1 ++ (t, i) :: l2 ∧ ((t, i) ∉ l2)
              ∧ find t i c = Z.of_nat (length l2) + 1).
Proof.
  unfold find. destruct (find_loop_spec t i c 0 0) as [E1 E2].
  destruct (find_loop t i c 0 0) as [count n]. cbn in E1, E2. subst count.
  destruct E2 as [[Hn ->]|(l1 & l2 & E & Hn & ->)]; [by left|right].
  exists l1, l2. split_and!; [done|done|]. destruct (_ =? 0) eqn:E0; [apply Z.eqb_eq in E0; lia|].
  rewrite E, length_app. cbn. lia.
Qed.

Lemma find_zero t i c : find t i c = 0 ↔ (t, i) ∉ stack c.
Proof.
  destruct (find_spec t i c) as [[Hn ->]|(l1 & l2 & E & Hn & ->)]; [done|].
  rewrite E. split; [lia|]. intros H. exfalso. apply H, elem_of_app. right.
  apply list_elem_of_here.
Qed.
