(* ===== verification/Actions.v ===== *)
(** * Actions: parameters of actions and their execution
    (supla-server/src/actions, supla-server/src/converter)

    The parameters an action carries, the position a roller shutter or a facade
    blind is told to take, and the executor: from an action identifier and a
    subject to the commands given to channels, groups, scenes, schedules and
    notifications. *)

From S2P Require Import Prelude ChannelFunctions Caller.

(** ** Constants (proto.h) *)

Definition ACTION_OPEN : Z := 10.
Definition ACTION_CLOSE : Z := 20.
Definition ACTION_SHUT : Z := 30.
Definition ACTION_REVEAL : Z := 40.
Definition ACTION_REVEAL_PARTIALLY : Z := 50.
Definition ACTION_SHUT_PARTIALLY : Z := 51.
Definition ACTION_TURN_ON : Z := 60.
Definition ACTION_TURN_OFF : Z := 70.
Definition ACTION_SET_RGBW_PARAMETERS : Z := 80.
Definition ACTION_OPEN_CLOSE : Z := 90.
Definition ACTION_STOP : Z := 100.
Definition ACTION_TOGGLE : Z := 110.
Definition ACTION_UP_OR_STOP : Z := 140.
Definition ACTION_DOWN_OR_STOP : Z := 150.
Definition ACTION_STEP_BY_STEP : Z := 160.
Definition ACTION_UP : Z := 170.
Definition ACTION_DOWN : Z := 180.
Definition ACTION_ENABLE : Z := 200.
Definition ACTION_DISABLE : Z := 210.
Definition ACTION_SEND : Z := 220.
Definition ACTION_HVAC_SET_PARAMETERS : Z := 230.
Definition ACTION_HVAC_SWITCH_TO_PROGRAM_MODE : Z := 231.
Definition ACTION_HVAC_SWITCH_TO_MANUAL_MODE : Z := 232.
Definition ACTION_HVAC_SET_TEMPERATURES : Z := 233.
Definition ACTION_HVAC_SET_TEMPERATURE : Z := 234.
Definition ACTION_EXECUTE : Z := 3000.
Definition ACTION_INTERRUPT : Z := 3001.
Definition ACTION_INTERRUPT_AND_EXECUTE : Z := 3002.
Definition ACTION_FORWARD_OUTSIDE : Z := 10000.
Definition ACTION_COPY : Z := 10100.


Definition SUPLA_CHANNEL_FLAG_RS_SBS_AND_STOP_ACTIONS : Z := 128.
Definition RGBW_BRIGHTNESS_ONOFF : Z := 1.
Definition RGBW_COLOR_ONOFF : Z := 2.
Definition RGBW_COMMAND_SET_WHITE_TEMPERATURE_WITHOUT_TURN_ON : Z := 19.
Definition SUPLA_CHANNELVALUE_SIZE : nat := 8.

Inductive subjectType_e :=
  | stUnknown | stChannel | stChannelGroup | stScene | stSchedule | stPushNotification.

#[export] Instance subjectType_e_eq_dec : EqDecision subjectType_e.
Proof. solve_decision. Defined.

(** ** Shading systems: supla_action_shading_system_parameters

    [percentage] and [tilt] are [char]s, signed in the server's build. *)

Record shading_parameters := SSP { percentage : Z; tilt : Z; ssp_flags : Z }.

Definition SSP_FLAG_PERCENTAGE_AS_DELTA : Z := 0.   (* bit numbers *)
Definition SSP_FLAG_TILT_AS_DELTA : Z := 1.

Definition new_ssp : shading_parameters := SSP (-1) (-1) 0.

Definition clamp (p : Z) (delta : bool) : Z :=
  if (p <? -1) && negb delta then -1
  else if p <? -100 then -100
  else if 100 <? p then 100
  else p.

Definition get_percentage (s : shading_parameters) : Z :=
  clamp (percentage s) (Z.testbit (ssp_flags s) SSP_FLAG_PERCENTAGE_AS_DELTA).
Definition get_tilt (s : shading_parameters) : Z :=
  clamp (tilt s) (Z.testbit (ssp_flags s) SSP_FLAG_TILT_AS_DELTA).
Definition set_percentage (p : Z) (s : shading_parameters) : shading_parameters :=
  SSP (i8 p) (tilt s) (ssp_flags s).

Definition ssp_is_any_param_set (s : shading_parameters) : bool :=
  negb (percentage s =? -1) || negb (tilt s =? -1) || negb (ssp_flags s =? 0).

Definition percentage_to_position (p : Z) : Z :=
  if p =? -1 then -1
  else if 100 <? p then 110
  else if p <? 0 then 10
  else i8 (p + 10).

Definition add_delta (current delta : Z) : Z :=
  let current := if 100 <? current then 100 else if current <? 0 then 0 else current in
  if 100 <? delta + current then 100
  else if delta + current <? 0 then 0
  else i8 (delta + current).

Definition is_shading_func (func : Z) : bool :=
  (func =? SUPLA_CHANNELFNC_CONTROLLINGTHEROLLERSHUTTER)
  || (func =? SUPLA_CHANNELFNC_CONTROLLINGTHEROOFWINDOW)
  || (func =? SUPLA_CHANNELFNC_CONTROLLINGTHEFACADEBLIND)
  || (func =? SUPLA_CHANNELFNC_TERRACE_AWNING)
  || (func =? SUPLA_CHANNELFNC_PROJECTOR_SCREEN)
  || (func =? SUPLA_CHANNELFNC_CURTAIN)
  || (func =? SUPLA_CHANNELFNC_VERTICAL_BLIND)
  || (func =? SUPLA_CHANNELFNC_ROLLER_GARAGE_DOOR).

Definition is_blind_func (func : Z) : bool :=
  (func =? SUPLA_CHANNELFNC_CONTROLLINGTHEFACADEBLIND)
  || (func =? SUPLA_CHANNELFNC_VERTICAL_BLIND).

(** The position and the tilt position the action asks for. The value is the
    eight raw bytes of the channel, as signed chars: the position is the first,
    the tilt of a blind the second. *)
Definition shading_target (s : shading_parameters) (action : Z) (value : list Z)
    (func channel_flags : Z) : Z * Z :=
  let sbs := Z.testbit channel_flags 7 in   (* ..._RS_SBS_AND_STOP_ACTIONS *)
  if action =? ACTION_STOP then (0, -1)
  else if action =? ACTION_DOWN then (1, -1)
  else if action =? ACTION_UP then (2, -1)
  else if action =? ACTION_DOWN_OR_STOP then ((if sbs then 3 else 0), -1)
  else if action =? ACTION_UP_OR_STOP then ((if sbs then 4 else 0), -1)
  else if action =? ACTION_STEP_BY_STEP then ((if sbs then 5 else 0), -1)
  else if action =? ACTION_SHUT then
    let percentage := get_percentage s in
    let tilt := get_tilt s in
    let percentage :=
      if Z.testbit (ssp_flags s) SSP_FLAG_PERCENTAGE_AS_DELTA
      then add_delta (value !!! 0%nat) percentage else percentage in
    let tilt :=
      if is_blind_func func && Z.testbit (ssp_flags s) SSP_FLAG_TILT_AS_DELTA
      then add_delta (value !!! 1%nat) tilt else tilt in
    (percentage_to_position percentage, percentage_to_position tilt)
  else if action =? ACTION_REVEAL then (10, -1)
  else (-1, -1).

(** [apply_on_value]: the result, and the value afterwards. *)
Definition apply_on_value (s : shading_parameters) (action : Z) (value : list Z)
    (func channel_flags : Z) : bool * list Z :=
  if negb (is_shading_func func) then (false, value)
  else
    let '(position, tilt_position) := shading_target s action value func channel_flags in
    let value := repeat 0 SUPLA_CHANNELVALUE_SIZE in
    if (-1 <=? position) && (position <=? 110) then
      if is_blind_func func then
        if (-1 <=? tilt_position) && (tilt_position <=? 110)
        then (true, <[1%nat := tilt_position]> (<[0%nat := position]> value))
        else (false, value)
      else (true, <[0%nat := position]> value)
    else (false, value).

(** ** RGBW: supla_action_rgbw_parameters *)

Record rgbw_parameters := RGBW {
  Brightness : Z; ColorBrightness : Z; Color : Z; ColorRandom : Z;
  OnOff : Z; Command : Z; WhiteTemperature : Z
}.

Definition new_rgbw : rgbw_parameters := RGBW 0 0 0 0 0 0 0.

(** [set_params]: refuses what is out of range. *)
Definition set_params (color : Z) (color_random : bool)
    (color_brightness brightness turn_onoff command white_temperature : Z)
    (r : rgbw_parameters) : bool * rgbw_parameters :=
  if (color_brightness <? -1) || (100 <? color_brightness) || (brightness <? -1)
     || (100 <? brightness) || (turn_onoff <? -1) || (3 <? turn_onoff)
     || (command <? -1)
     || (RGBW_COMMAND_SET_WHITE_TEMPERATURE_WITHOUT_TURN_ON <? command)
     || (white_temperature <? -1) || (100 <? white_temperature)
  then (false, r)
  else
    let color := if (color =? -1) || color_random then 0 else color in
    (true, RGBW brightness color_brightness (u32 color) (if color_random then 1 else 0)
                turn_onoff command white_temperature).

(** [get_rgbw]; a random colour comes from the clock, it is not zero. *)
Definition get_rgbw (random_color : Z) (r : rgbw_parameters) : rgbw_parameters :=
  if negb (ColorRandom r =? 0) && (Color r =? 0)
  then RGBW (Brightness r) (ColorBrightness r) random_color (ColorRandom r)
            (OnOff r) (Command r) (WhiteTemperature r)
  else r.

(** ** HVAC *)

Record hvac_parameters := HVAC {
  DurationSec : Z; Mode : Z; SetpointTemperatureHeat : Z;
  SetpointTemperatureCool : Z; hvac_flags : Z
}.

(** Bits 0 and 1 of the flags: ..._SETPOINT_TEMP_HEAT_SET, ..._COOL_SET;
    the mode 0 is SUPLA_HVAC_MODE_NOT_SET. *)
Definition hvac_is_any_param_set (h : hvac_parameters) : bool :=
  negb (Mode h =? 0) || Z.testbit (hvac_flags h) 0 || Z.testbit (hvac_flags h) 1.

Inductive action_parameters :=
  | PShading (s : shading_parameters)
  | PRgbw (r : rgbw_parameters)
  | PHvac (h : hvac_parameters)
  | PTemperature (t : Z)
  | PTemperatures (heating cooling : option Z).

Record action_config := AConfig {
  action_id : Z;
  subject_type : subjectType_e;
  subject_id : Z;
  source_device_id : Z;
  source_channel_id : Z;
  cap : Z;
  parameters : option action_parameters
}.

(** ** Values the COPY action reads (supla-server/src/device/value) *)

Inductive gate_sensor_level := gsl_unknown | gsl_closed | gsl_open.

#[export] Instance gate_sensor_level_eq_dec : EqDecision gate_sensor_level.
Proof. solve_decision. Defined.

(** The classes the converter distinguishes; the raw value is eight bytes. *)
Inductive channel_value :=
  | VGate (opening : gate_sensor_level)
  | VRollerShutter (raw : list Z)
  | VOnOff (raw : list Z)
  | VRgbw (raw : list Z)
  | VOther.

Definition char_at (raw : list Z) (i : nat) : Z := i8 (raw !!! i).

(** TRGBW_Value: brightness, colorBrightness, B, G, R, onOff, command,
    whiteTemperature. *)
Definition get_color (raw : list Z) : Z :=
  Z.lor (Z.lor (Z.land (Z.shiftl (raw !!! 4%nat) 16) 16711680)
               (Z.land (Z.shiftl (raw !!! 3%nat) 8) 65280))
        (Z.land (raw !!! 2%nat) 255).

(** ** The commands the executor gives *)

Inductive operation :=
  | OpSetOn (on : bool)
  | OpSetColor (color : Z) | OpSetBrightness (b : Z) | OpSetColorBrightness (b : Z)
  | OpRgbw (color color_brightness brightness on_off command white_temperature : option Z)
  | OpToggle | OpShut (params : shading_parameters) | OpReveal | OpStop | OpUp | OpDown
  | OpUpOrStop | OpDownOrStop | OpStepByStep | OpOpen | OpClose | OpOpenClose
  | OpOpenCloseNoCancel
  | OpHvacSetParameters (h : hvac_parameters) | OpHvacProgramMode | OpHvacManualMode
  | OpHvacTemperature (t : Z) | OpHvacTemperatures (heating cooling : option Z).

Inductive command :=
  | ToGroup (c : supla_caller) (user group : Z) (op : operation)
  | ToChannel (c : supla_caller) (device channel : Z) (op : operation)
  | SceneExecute (c : supla_caller) (user scene : Z) (interrupt_before_execute : bool)
  | SceneInterrupt (user scene : Z)
  | ScheduleEnable (user schedule : Z) (enabled : bool)
  | PushDeliver (c : supla_caller) (user push : Z)
  | ForwardOutside (c : supla_caller) (device channel cap : Z)
  | ValueChanged (c : supla_caller) (user device channel : Z).

(** What the executor asks of the users and their devices: the user of an
    identifier, the device of a user by its own identifier or by that of one of
    its channels, the value of a channel; and the clock's random colour. *)
Class World := {
  user_find : Z → option Z;
  device_get : Z → Z → Z → option Z;
  channel_property_value : Z → Z → Z → option channel_value;
  random_color : Z
}.

(** ** The executor *)

Record action_executor := Executor {
  ex_user : option Z;
  ex_device_id : Z;
  ex_subject_id : Z;
  ex_subject_type : subjectType_e;
  ex_caller : supla_caller
}.

Section executor.
Context `{World}.
Implicit Types e : action_executor.

Definition set_subject (user_id : Z) (st : subjectType_e) (id : Z) (e : action_executor)
    : action_executor :=
  Executor (if user_id =? 0 then None else user_find user_id) 0 id st (ex_caller e).

Definition set_channel_id (user_id device_id channel_id : Z) (e : action_executor)
    : action_executor :=
  Executor (if user_id =? 0 then None else user_find user_id) device_id channel_id
           stChannel (ex_caller e).

Definition set_unknown_subject_type (e : action_executor) : action_executor :=
  Executor (ex_user e) 0 0 stUnknown (ex_caller e).

Definition set_caller (c : supla_caller) (e : action_executor) : action_executor :=
  Executor (ex_user e) (ex_device_id e) (ex_subject_id e) (ex_subject_type e) c.

Definition id_if (st : subjectType_e) (e : action_executor) : Z :=
  if decide (ex_subject_type e = st) then ex_subject_id e else 0.
Definition get_channel_id := id_if stChannel.
Definition get_group_id := id_if stChannelGroup.
Definition get_scene_id := id_if stScene.
Definition get_schedule_id := id_if stSchedule.
Definition get_push_notification_id := id_if stPushNotification.

Definition get_user_id (e : action_executor) : Z := default 0 (ex_user e).

Definition get_device (e : action_executor) : option Z :=
  u ← ex_user e;
  if negb (ex_device_id e =? 0)
     || (negb (ex_subject_id e =? 0) && bool_decide (ex_subject_type e = stChannel))
  then device_get u (ex_device_id e)
         (if decide (ex_subject_type e = stChannelGroup) then 0 else ex_subject_id e)
  else None.

(** [execute_action] with a function: the operation goes to the channel groups
    or to the channels of the device. *)
Definition perform (op : operation) (e : action_executor) : list command :=
  match ex_user e, decide (ex_subject_type e = stChannelGroup) with
  | Some u, left _ => [ToGroup (ex_caller e) u (get_group_id e) op]
  | _, _ => match get_device e with
            | Some d => [ToChannel (ex_caller e) d (get_channel_id e) op]
            | None => []
            end
  end.

(** The operations of the executor that only differ in what they call. *)
Definition set_on (on : bool) e : list command := perform (OpSetOn on) e.
Definition set_color (color : Z) e : list command := perform (OpSetColor color) e.
Definition set_brightness (brightness : Z) e : list command :=
  perform (OpSetBrightness brightness) e.
Definition set_color_brightness (color_brightness : Z) e : list command :=
  perform (OpSetColorBrightness color_brightness) e.
Definition set_rgbw (color color_brightness brightness on_off cmd white_temperature : option Z)
    e : list command :=
  perform (OpRgbw color color_brightness brightness on_off cmd white_temperature) e.
Definition toggle e : list command := perform OpToggle e.
Definition shut (params : shading_parameters) e : list command :=
  perform (OpShut params) e.
Definition reveal e : list command := perform OpReveal e.
Definition stop e : list command := perform OpStop e.
Definition up e : list command := perform OpUp e.
Definition down e : list command := perform OpDown e.
Definition up_or_stop e : list command := perform OpUpOrStop e.
Definition down_or_stop e : list command := perform OpDownOrStop e.
Definition step_by_step e : list command := perform OpStepByStep e.
Definition open e : list command := perform OpOpen e.
Definition close e : list command := perform OpClose e.
Definition open_close e : list command := perform OpOpenClose e.
Definition hvac_set_parameters (h : hvac_parameters) e : list command :=
  perform (OpHvacSetParameters h) e.
Definition hvac_switch_to_program_mode e : list command :=
  perform OpHvacProgramMode e.
Definition hvac_switch_to_manual_mode e : list command := perform OpHvacManualMode e.
Definition hvac_set_temperature (t : Z) e : list command :=
  perform (OpHvacTemperature t) e.
Definition hvac_set_temperatures (heating cooling : option Z) e : list command :=
  perform (OpHvacTemperatures heating cooling) e.

Definition open_close_without_canceling_tasks (e : action_executor) : list command :=
  match ex_user e, decide (ex_subject_type e = stChannelGroup) with
  | Some u, left _ => []
  | _, _ => match get_device e with
            | Some d => [ToChannel (ex_caller e) d (get_channel_id e) OpOpenCloseNoCancel]
            | None => []
            end
  end.

(** [execute], [interrupt], [interrupt_and_execute]. *)
Definition with_scene (f : Z → Z → list command) (e : action_executor) : list command :=
  match ex_user e with
  | Some u => if negb (get_scene_id e =? 0) then f u (get_scene_id e) else []
  | None => []
  end.
Definition execute_scene (interrupt_before : bool) (e : action_executor) : list command :=
  with_scene (λ u s, [SceneExecute (ex_caller e) u s interrupt_before]) e.
Definition interrupt (e : action_executor) : list command :=
  with_scene (λ u s, [SceneInterrupt u s]) e.

Definition enable (enabled : bool) (e : action_executor) : list command :=
  [ScheduleEnable (get_user_id e) (get_schedule_id e) enabled].

Definition send (c : supla_caller) (e : action_executor) : list command :=
  match ex_user e with
  | Some u => [PushDeliver c u (get_push_notification_id e)]
  | None => []
  end.

Definition forward_outside (cap : Z) (e : action_executor) : list command :=
  match get_device e with
  | Some d => [ForwardOutside (ex_caller e) d (get_channel_id e) cap]
  | None => []
  end.

Definition on_correlation_token (e : action_executor) : list command :=
  match ex_user e with
  | Some u => match device_get u (ex_device_id e) (get_channel_id e) with
              | Some _ => [ValueChanged (ex_caller e) u (ex_device_id e) (get_channel_id e)]
              | None => []
              end
  | None => []
  end.

(** The converters of supla-server/src/converter: the result and the commands. *)
Definition convert_gate (opening : gate_sensor_level) (e : action_executor)
    : bool * list command :=
  match opening with
  | gsl_open => (true, open e)
  | gsl_closed => (true, close e)
  | gsl_unknown => (false, [])
  end.

Definition convert_rs (raw : list Z) (e : action_executor) : bool * list command :=
  let position := char_at raw 0 in
  (false, if (0 <=? position) && (position <=? 100)
          then shut (set_percentage position new_ssp) e else []).

Definition convert_onoff (raw : list Z) (e : action_executor) : bool * list command :=
  (true, set_on (0 <? char_at raw 0) e).

Definition convert_rgbw (raw : list Z) (e : action_executor) : bool * list command :=
  let brightness := char_at raw 0 in
  let color_brightness := char_at raw 1 in
  let on_off := if brightness =? 0 then RGBW_BRIGHTNESS_ONOFF else 0 in
  let on_off := if color_brightness =? 0 then Z.lor on_off RGBW_COLOR_ONOFF else on_off in
  (true, set_rgbw (Some (get_color raw)) (Some color_brightness) (Some brightness)
           (Some on_off) (Some (char_at raw 6)) (Some (char_at raw 7)) e).

Definition convert (v : channel_value) (e : action_executor) : bool * list command :=
  match v with
  | VGate opening => convert_gate opening e
  | VRollerShutter raw => convert_rs raw e
  | VOnOff raw => convert_onoff raw e
  | VRgbw raw => convert_rgbw raw e
  | VOther => (false, [])
  end.

Definition copy (source_device_id source_channel_id : Z) (e : action_executor)
    : list command :=
  match channel_property_value (get_user_id e) source_device_id source_channel_id with
  | Some v => (convert v e).2
  | None => []
  end.

Definition pos_opt (z : Z) : option Z := if -1 <? z then Some z else None.

(** The switch over the action identifiers. [getter]: whether a property getter
    was passed. *)
Definition dispatch (c : supla_caller) (action_id : Z) (params : option action_parameters)
    (getter : bool) (source_device_id source_channel_id cap : Z) (e : action_executor)
    : list command :=
  if action_id =? ACTION_OPEN then open e
  else if action_id =? ACTION_CLOSE then close e
  else if action_id =? ACTION_SHUT then shut (set_percentage 100 new_ssp) e
  else if action_id =? ACTION_REVEAL then reveal e
  else if action_id =? ACTION_UP_OR_STOP then up_or_stop e
  else if action_id =? ACTION_DOWN_OR_STOP then down_or_stop e
  else if action_id =? ACTION_STEP_BY_STEP then step_by_step e
  else if (action_id =? ACTION_SHUT_PARTIALLY) || (action_id =? ACTION_REVEAL_PARTIALLY) then
    match params with
    | Some (PShading ssp) =>
        let ssp :=
          if (action_id =? ACTION_REVEAL_PARTIALLY) && (-1 <? get_percentage ssp)
             && (get_percentage ssp <=? 100)
          then set_percentage (100 - get_percentage ssp) ssp else ssp in
        shut ssp e
    | _ => []
    end
  else if action_id =? ACTION_TURN_ON then set_on true e
  else if action_id =? ACTION_TURN_OFF then set_on false e
  else if action_id =? ACTION_SET_RGBW_PARAMETERS then
    match params with
    | Some (PRgbw rgbw) =>
        let p := get_rgbw random_color rgbw in
        if (Color p =? 0) || (-1 <? Brightness p) || (-1 <? ColorBrightness p)
           || negb (Color p =? 0) || (-1 <? Command p) || (-1 <? WhiteTemperature p)
        then set_rgbw (if negb (Color p =? 0) then Some (Color p) else None)
                        (pos_opt (ColorBrightness p)) (pos_opt (Brightness p))
                        (pos_opt (OnOff p)) (pos_opt (Command p))
                        (pos_opt (WhiteTemperature p)) e
        else []
    | _ => []
    end
  else if action_id =? ACTION_OPEN_CLOSE then open_close e
  else if action_id =? ACTION_EXECUTE then execute_scene false e
  else if action_id =? ACTION_ENABLE then enable true e
  else if action_id =? ACTION_DISABLE then enable false e
  else if action_id =? ACTION_SEND then send c e
  else if action_id =? ACTION_INTERRUPT then interrupt e
  else if action_id =? ACTION_INTERRUPT_AND_EXECUTE then execute_scene true e
  else if action_id =? ACTION_STOP then stop e
  else if action_id =? ACTION_TOGGLE then toggle e
  else if action_id =? ACTION_COPY then
    if getter then copy source_device_id source_channel_id e else []
  else if action_id =? ACTION_FORWARD_OUTSIDE then forward_outside cap e
  else if action_id =? ACTION_HVAC_SET_PARAMETERS then
    match params with
    | Some (PHvac h) =>
        if hvac_is_any_param_set h then hvac_set_parameters h e else []
    | _ => []
    end
  else if action_id =? ACTION_HVAC_SWITCH_TO_MANUAL_MODE then hvac_switch_to_manual_mode e
  else if action_id =? ACTION_HVAC_SWITCH_TO_PROGRAM_MODE then hvac_switch_to_program_mode e
  else if action_id =? ACTION_HVAC_SET_TEMPERATURE then
    match params with Some (PTemperature t) => hvac_set_temperature t e | _ => [] end
  else if action_id =? ACTION_HVAC_SET_TEMPERATURES then
    match params with
    | Some (PTemperatures a b) => hvac_set_temperatures a b e
    | _ => []
    end
  else [].

(** [execute_action] with every argument; [token]: whether an Alexa correlation
    token or a Google request identifier was passed. The executor keeps the
    subject it was last set to. *)
Definition execute_action (c : supla_caller) (user_id action_id : Z)
    (st : subjectType_e) (id : Z) (getter : bool) (params : option action_parameters)
    (source_device_id source_channel_id cap : Z) (token : bool) (e : action_executor)
    : action_executor * list command :=
  if (action_id =? 0) || (id =? 0) then (e, [])
  else
    let e := set_caller c e in
    let e := match st with
             | stChannel => set_channel_id user_id 0 id e
             | stUnknown => set_unknown_subject_type e
             | _ => set_subject user_id st id e
             end in
    (e, (if bool_decide (st = stChannel) && token then on_correlation_token e else [])
        ++ dispatch c action_id params getter source_device_id source_channel_id cap e).

(** [execute_action] with a configuration. *)
Definition execute_config (c : supla_caller) (user_id : Z) (config : action_config)
    (getter : bool) (e : action_executor) : action_executor * list command :=
  if (action_id config =? 0) || (subject_id config =? 0) then (e, [])
  else
    let copying := action_id config =? ACTION_COPY in
    execute_action c user_id (action_id config) (subject_type config) (subject_id config)
      getter (parameters config)
      (if copying then source_device_id config else 0)
      (if copying then source_channel_id config else 0)
      (if action_id config =? ACTION_FORWARD_OUTSIDE then cap config else 0) false e.
End executor.

(** ** What the executor aims at *)

Section targets.
Context `{World}.

(** The command concerns the caller, the user and the subject it was asked for. *)
Definition aims (c : supla_caller) (usr : option Z) (st : subjectType_e) (id : Z)
    (cmd : command) : Prop :=
  match cmd with
  | ToGroup c' u g _ =>
      c' = c ∧ st = stChannelGroup ∧ g = id ∧ usr = Some u
  | ToChannel c' d ch _ | ForwardOutside c' d ch _ =>
      c' = c ∧ st = stChannel ∧ ch = id
      ∧ ∃ u, usr = Some u ∧ device_get u 0 id = Some d
  | SceneExecute c' u s _ => c' = c ∧ st = stScene ∧ s = id ∧ usr = Some u
  | SceneInterrupt u s => st = stScene ∧ s = id ∧ usr = Some u
  | ScheduleEnable u s _ =>
      s = (if decide (st = stSchedule) then id else 0)
      ∧ u = default 0 (usr)
  | PushDeliver c' u p =>
      c' = c ∧ p = (if decide (st = stPushNotification) then id else 0)
      ∧ usr = Some u
  | ValueChanged c' u d ch =>
      c' = c ∧ st = stChannel ∧ ch = id ∧ usr = Some u
  end.

(** An executor set to a known subject. *)
Definition aimed (c : supla_caller) (usr : option Z) (st : subjectType_e) (id : Z)
    (e : action_executor) : Prop :=
  ex_caller e = c ∧ ex_user e = usr ∧ ex_device_id e = 0
  ∧ ex_subject_id e = id ∧ ex_subject_type e = st.

Definition commands_ok (c : supla_caller) (usr : option Z) (st : subjectType_e) (id : Z)
    (l : list command) : Prop :=
  (length l <= 1)%nat ∧ Forall (aims c usr st id) l.

Lemma commands_ok_nil c u st id : commands_ok c u st id [].
Proof. split; [cbn; lia|constructor]. Qed.

Lemma commands_ok_one c u st id cmd : aims c u st id cmd → commands_ok c u st id [cmd].
Proof. split; [cbn; lia|by constructor]. Qed.

Lemma id_if_aimed c u st id st' e :
  aimed c u st id e → id_if st' e = if decide (st = st') then id else 0.
Proof. intros (_ & _ & _ & <- & <-). reflexivity. Qed.

Lemma get_device_aimed c u st id e d :
  aimed c u st id e → get_device e = Some d →
  st = stChannel ∧ id ≠ 0 ∧ ∃ v, u = Some v ∧ device_get v 0 id = Some d.
Proof.
  intros (_ & Hu & Hd & Hi & Ht). unfold get_device. rewrite Hu, Hd, Hi, Ht.
  destruct u as [v|]; cbn; [|done].
  destruct (id =? 0) eqn:E; cbn; [done|].
  destruct (decide (st = stChannel)) as [->|Hne].
  - rewrite bool_decide_true by done. cbn. intros Hd'. split_and!; [done|lia|]. eauto.
  - by rewrite bool_decide_false.
Qed.

Lemma perform_ok c u st id op e :
  aimed c u st id e → commands_ok c u st id (perform op e).
Proof.
  intros He. unfold perform, get_group_id, get_channel_id.
  rewrite !(id_if_aimed _ _ _ _ _ _ He).
  assert (commands_ok c u st id
    (match get_device e with
     | Some d => [ToChannel (ex_caller e) d (if decide (st = stChannel) then id else 0) op]
     | None => [] end)) as Hdev.
  { destruct (get_device e) as [d|] eqn:Ed; [|apply commands_ok_nil].
    destruct (get_device_aimed _ _ _ _ _ _ He Ed) as (-> & _ & Hv).
    apply commands_ok_one. destruct He as (<- & _). rewrite decide_True by done.
    by split_and!. }
  destruct (ex_user e) as [v|] eqn:Eu; [|done].
  destruct (decide (ex_subject_type e = stChannelGroup)) as [Hg|]; [|done].
  apply commands_ok_one. destruct He as (<- & Hu & _ & _ & <-).
  rewrite decide_True by done. cbn. split_and!; congruence.
Qed.

Lemma scene_ok c u st id f e :
  aimed c u st id e →
  (∀ v, u = Some v → st = stScene → commands_ok c u st id (f v id)) →
  commands_ok c u st id (with_scene f e).
Proof.
  intros He Hf. unfold with_scene, get_scene_id. rewrite (id_if_aimed _ _ _ _ _ _ He).
  destruct (ex_user e) as [v|] eqn:Eu; [|apply commands_ok_nil].
  destruct (decide (st = stScene)); [|apply commands_ok_nil].
  destruct (negb (id =? 0)); [|apply commands_ok_nil].
  apply Hf; [|done]. destruct He as (_ & <- & _). done.
Qed.

Lemma convert_ok c u st id v e :
  aimed c u st id e → commands_ok c u st id (convert v e).2.
Proof.
  intros He. pose proof (λ op, perform_ok c u st id op e He) as Hp.
  pose proof (commands_ok_nil c u st id).
  destruct v as [[]| | | |]; cbn; try apply Hp; auto. by destruct (_ && _); [apply Hp|].
Qed.

Lemma dispatch_ok c u st id a params g sd sc cap e :
  aimed c u st id e → commands_ok c u st id (dispatch c a params g sd sc cap e).
Proof.
  intros He. pose proof (λ op, perform_ok c u st id op e He) as Hp.
  pose proof (commands_ok_nil c u st id) as Hnil.
  pose proof He as (Hc & Hu & Hd & Hi & Ht).
  assert (∀ b, commands_ok c u st id (execute_scene b e)) as Hs.
  { intros b. apply scene_ok; [done|]. intros v Hv ->. apply commands_ok_one.
    cbn. split_and!; congruence. }
  assert (∀ b, commands_ok c u st id (enable b e)) as He'.
  { intros b. unfold enable, get_schedule_id. rewrite (id_if_aimed _ _ _ _ _ _ He).
    apply commands_ok_one. unfold get_user_id. by rewrite Hu. }
  unfold dispatch.
  repeat (case_match; [try (first [apply Hp|apply Hs|apply He'|apply Hnil])|]); auto.
  all: repeat (case_match; auto); try apply Hp.
  - unfold send, get_push_notification_id. rewrite (id_if_aimed _ _ _ _ _ _ He).
    destruct (ex_user e) as [v|] eqn:Eu; [|done]. apply commands_ok_one. cbn.
    split_and!; congruence.
  - apply scene_ok; [done|]. intros v Hv ->. apply commands_ok_one. by split_and!.
  - unfold copy. case_match; [|done]. by apply convert_ok.
  - unfold forward_outside, get_channel_id. rewrite (id_if_aimed _ _ _ _ _ _ He).
    destruct (get_device e) as [d|] eqn:Ed; [|done].
    destruct (get_device_aimed _ _ _ _ _ _ He Ed) as (-> & _ & Hv).
    apply commands_ok_one. rewrite decide_True by done. by split_and!.
Qed.
End targets.

(** The one command of a configured action. *)
Lemma execute_config_aims_cmd `{World} c user_id config getter e cmd
    (Huser : user_id ≠ 0) (Hst : subject_type config ≠ stUnknown)
    (Hcmd : cmd ∈ (execute_config c user_id config getter e).2) :
  (execute_config c user_id config getter e).2 = [cmd]
  ∧ aims c (user_find user_id) (subject_type config) (subject_id config) cmd.
Proof.
  unfold execute_config in *.
  destruct (_ || _) eqn:E0; [by apply elem_of_nil in Hcmd|].
  unfold execute_action in *. rewrite E0 in *. cbn [snd] in *.
  rewrite andb_false_r in *. cbn [app] in *.
  match type of Hcmd with cmd ∈ dispatch ?c ?a ?p ?g ?sd ?sc ?cp ?e1 =>
    set (e' := e1) in *; assert (aimed c (user_find user_id) (subject_type config) (subject_id config) e')
      as He by (unfold aimed, e', set_channel_id, set_subject;
                replace (user_id =? 0) with false by lia;
                by destruct (subject_type config));
    destruct (dispatch_ok c (user_find user_id) _ _ a p g sd sc cp e' He) as [Hlen Hall];
    destruct (dispatch c a p g sd sc cp e') as [|x [|y l]]
  end.
  - by apply elem_of_nil in Hcmd.
  - apply list_elem_of_singleton in Hcmd as ->. split; [done|]. by inversion Hall.
  - cbn in Hlen. lia.
Qed.

(** Executing a configured action for a user gives at most one command, and
    that command concerns the caller, the user and the subject of the
    configuration: a channel command needs the user and the device of that
    channel, a scene is executed or interrupted only if the subject is a scene,
    and a schedule or a notification is named only if the subject is one
    (otherwise with the identifier 0). *)
Theorem execute_config_aims `{World} c user_id config getter e cmd
    (Huser : user_id ≠ 0) (Hst : subject_type config ≠ stUnknown)
    (Hcmd : cmd ∈ (execute_config c user_id config getter e).2) :
  (execute_config c user_id config getter e).2 = [cmd]
  ∧ aims c (user_find user_id) (subject_type config) (subject_id config) cmd.
Proof. by apply execute_config_aims_cmd. Qed.

(** A command to execute a scene comes from a configuration whose subject is that
    scene, whatever the state of the executor. *)
Lemma execute_config_scene `{World} c user_id config getter e c' u s b :
  user_id ≠ 0 →
  SceneExecute c' u s b ∈ (execute_config c user_id config getter e).2 →
  c' = c ∧ subject_type config = stScene ∧ s = subject_id config
  ∧ user_find user_id = Some u.
Proof.
  intros Hu Hin. destruct (decide (subject_type config = stUnknown)) as [Hst|Hst].
  - unfold execute_config in Hin. destruct (_ || _) eqn:E0; [by apply elem_of_nil in Hin|].
    unfold execute_action in Hin. rewrite E0, Hst in Hin. cbn [snd] in Hin.
    rewrite andb_false_r in Hin. cbn [app] in Hin.
    match type of Hin with _ ∈ dispatch ?c ?a ?p ?g ?sd ?sc ?cp ?e1 =>
      destruct (dispatch_ok c (ex_user e) stUnknown 0 a p g sd sc cp e1) as [_ Hall];
        [by unfold aimed|] end.
    rewrite Forall_forall in Hall. destruct (Hall _ Hin) as (_ & ? & _). done.
  - destruct (execute_config_aims_cmd c user_id config getter e _ Hu Hst Hin)
      as [_ (-> & ? & -> & ?)].
    done.
Qed.

(** A user 3 with the device 4 that has the channel 5. *)
Definition world_ex : World :=
  {| user_find u := if u =? 3 then Some 3 else None;
     device_get u d ch := if (u =? 3) && ((d =? 4) || (ch =? 5)) then Some 4 else None;
     channel_property_value _ _ _ := None;
     random_color := 255 |}.
Definition executor_ex : action_executor :=
  Executor None 0 0 stUnknown (Caller None ctUnknown 0 "").
Definition reveal_ex : action_config :=
  AConfig ACTION_REVEAL_PARTIALLY stChannel 5 0 0 0 (Some (PShading (SSP 30 (-1) 0))).

Lemma execute_config_aims_witness :
  let c := Caller None ctClient 9 "" in
  (@execute_config world_ex c 3 reveal_ex false executor_ex).2
  = [ToChannel c 4 5 (OpShut (SSP 70 (-1) 0))].
Proof.
  refine (proj1 (@execute_config_aims world_ex (Caller None ctClient 9 "") 3 reveal_ex false
                   executor_ex _ _ _ _)).
  - discriminate.
  - discriminate.
  - vm_compute. apply list_elem_of_here.
Defined.

(** ** Shading systems: the value written *)

Definition is_char (z : Z) : Prop := -128 <= z < 128.

Lemma i8_id z : is_char z → i8 z = z.
Proof. unfold is_char, i8. intros H. rewrite Z.mod_small; lia. Qed.

Lemma clamp_range p d : is_char p → -100 <= clamp p d <= 100 ∧ (d = false → -1 <= clamp p d).
Proof.
  unfold clamp, is_char. intros Hp.
  destruct (p <? -1) eqn:?, d, (p <? -100) eqn:?, (100 <? p) eqn:?; cbn; lia.
Qed.

Lemma add_delta_spec c d :
  is_char c → -100 <= d <= 100 →
  add_delta c d = Z.max 0 (Z.min 100 (Z.max 0 (Z.min 100 c) + d)).
Proof.
  unfold is_char, add_delta. intros Hc Hd.
  assert ((if 100 <? c then 100 else if c <? 0 then 0 else c) = Z.max 0 (Z.min 100 c)) as ->.
  { destruct (100 <? c) eqn:?; [lia|]. destruct (c <? 0) eqn:?; lia. }
  destruct (100 <? _) eqn:?; [lia|]. destruct (_ <? 0) eqn:?; [lia|].
  rewrite i8_id; [lia|unfold is_char; lia].
Qed.

Lemma percentage_to_position_spec p :
  -100 <= p <= 100 →
  percentage_to_position p = (if p =? -1 then -1 else Z.max 0 p + 10).
Proof.
  unfold percentage_to_position. intros Hp. destruct (p =? -1) eqn:?; [done|].
  replace (100 <? p) with false by lia. destruct (p <? 0) eqn:?; [lia|].
  rewrite i8_id; unfold is_char; lia.
Qed.

(** The percentage a SHUT asks for: the parameter, or the current position moved
    by it, within 0 and 100 (-1: leave as it is). *)
Definition asked (p : Z) (delta : bool) (current : Z) : Z :=
  if delta then Z.max 0 (Z.min 100 (Z.max 0 (Z.min 100 current) + clamp p true))
  else clamp p false.

Definition to_position (p : Z) : Z := if p =? -1 then -1 else Z.max 0 p + 10.

Definition position_valid (z : Z) : Prop := z = -1 ∨ 0 <= z <= 5 ∨ 10 <= z <= 110.

Lemma to_position_valid p :
  -100 <= p <= 100 →
  percentage_to_position p = to_position p
  ∧ (to_position p = -1 ∨ 10 <= to_position p <= 110).
Proof.
  intros Hp. rewrite percentage_to_position_spec by done. unfold to_position.
  destruct (p =? -1); [auto|]. split; [done|right; lia].
Qed.

Lemma asked_range p d c : is_char p → -100 <= asked p d c <= 100.
Proof.
  intros Hp. unfold asked. pose proof (clamp_range p d Hp). destruct d; lia.
Qed.

Lemma shading_target_shut s value func flags :
  is_char (percentage s) → is_char (tilt s) →
  (∀ i, (i < 8)%nat → is_char (value !!! i)) →
  let '(position, tilt_position) := shading_target s ACTION_SHUT value func flags in
  position = to_position (asked (percentage s) (Z.testbit (ssp_flags s) 0)
                            (value !!! 0%nat))
  ∧ (is_blind_func func = true →
     tilt_position = to_position (asked (tilt s) (Z.testbit (ssp_flags s) 1)
                                    (value !!! 1%nat))).
Proof.
  intros Hp Ht Hi. pose proof (Hi 0%nat ltac:(lia)) as H0. pose proof (Hi 1%nat ltac:(lia)) as H1.
  assert (∀ p d c, is_char p → is_char c →
    percentage_to_position (if d : bool then add_delta c (clamp p d) else clamp p d)
    = to_position (asked p d c)) as Hgo.
  { intros p d c Hpc Hc. pose proof (clamp_range p d Hpc) as [Hcl _].
    pose proof (asked_range p d c Hpc) as Ha.
    rewrite <- (proj1 (to_position_valid _ Ha)). f_equal. unfold asked.
    destruct d; [by rewrite add_delta_spec|done]. }
  cbn. unfold get_percentage, get_tilt, SSP_FLAG_PERCENTAGE_AS_DELTA, SSP_FLAG_TILT_AS_DELTA.
  split; [by apply Hgo|]. intros Hb. rewrite Hb. cbn [andb]. by apply Hgo.
Qed.

Lemma shading_target_range s action value func flags :
  is_char (percentage s) → is_char (tilt s) →
  (∀ i, (i < 8)%nat → is_char (value !!! i)) →
  position_valid (shading_target s action value func flags).1
  ∧ ((shading_target s action value func flags).2 = -1
     ∨ 10 <= (shading_target s action value func flags).2 <= 110).
Proof.
  intros Hp Ht Hi. pose proof (Hi 0%nat ltac:(lia)) as H0. pose proof (Hi 1%nat ltac:(lia)) as H1.
  assert (∀ p d b c, is_char p → is_char c →
    let q := percentage_to_position (if b : bool then add_delta c (clamp p d) else clamp p d) in
    q = -1 ∨ 10 <= q <= 110) as Hgo.
  { intros p d b c Hpc Hc. cbn. pose proof (clamp_range p d Hpc) as [Hcl _].
    assert (-100 <= (if b then add_delta c (clamp p d) else clamp p d) <= 100) as Hr
      by (destruct b; [rewrite add_delta_spec by done; lia|done]).
    destruct (to_position_valid _ Hr) as [-> ?]. done. }
  unfold shading_target, position_valid.
  destruct (action =? ACTION_STOP); [cbn; lia|].
  destruct (action =? ACTION_DOWN); [cbn; lia|].
  destruct (action =? ACTION_UP); [cbn; lia|].
  destruct (action =? ACTION_DOWN_OR_STOP); [destruct (Z.testbit flags 7); cbn; lia|].
  destruct (action =? ACTION_UP_OR_STOP); [destruct (Z.testbit flags 7); cbn; lia|].
  destruct (action =? ACTION_STEP_BY_STEP); [destruct (Z.testbit flags 7); cbn; lia|].
  destruct (action =? ACTION_SHUT); [|destruct (action =? ACTION_REVEAL); cbn; lia].
  split.
  - destruct (Hgo (percentage s) (Z.testbit (ssp_flags s) SSP_FLAG_PERCENTAGE_AS_DELTA)
                (Z.testbit (ssp_flags s) SSP_FLAG_PERCENTAGE_AS_DELTA) (value !!! 0%nat) Hp H0);
      auto.
  - apply Hgo; done.
Qed.

(** The value written for a shading system: nothing is written for another
    function; otherwise the eight bytes are zero but the position and, for a
    blind, the tilt; both are positions the device protocol defines (-1, a
    command 0 to 5, or 10 to 110 and for the tilt -1 or 10 to 110); and SHUT
    asks for the percentage plus 10, a delta being added to the current
    position and saturated at 0 and 100. *)
Theorem apply_on_value_spec s action value func flags
    (Hp : is_char (percentage s)) (Ht : is_char (tilt s))
    (Hv : Forall is_char value) (Hlen : length value = SUPLA_CHANNELVALUE_SIZE) :
  let '(position, tilt_position) := shading_target s action value func flags in
  apply_on_value s action value func flags =
    (if is_shading_func func
     then (true, [position; if is_blind_func func then tilt_position else 0;
                  0; 0; 0; 0; 0; 0])
     else (false, value))
  ∧ position_valid position
  ∧ (tilt_position = -1 ∨ 10 <= tilt_position <= 110)
  ∧ (action = ACTION_SHUT →
       position = to_position (asked (percentage s) (Z.testbit (ssp_flags s) 0)
                                 (value !!! 0%nat))
       ∧ (is_blind_func func = true →
          tilt_position = to_position (asked (tilt s) (Z.testbit (ssp_flags s) 1)
                                         (value !!! 1%nat)))).
Proof.
  assert (∀ i, (i < 8)%nat → is_char (value !!! i)) as Hi.
  { intros i Hi. rewrite Forall_lookup_total in Hv. apply Hv.
    rewrite Hlen. exact Hi. }
  pose proof (shading_target_range s action value func flags Hp Ht Hi) as Hr.
  pose proof (shading_target_shut s value func flags Hp Ht Hi) as Hshut.
  destruct (shading_target s action value func flags) as [pos tl] eqn:E.
  cbn [fst snd] in Hr. destruct Hr as [Hpos Htl]. split_and!; [|done|done|].
  - unfold apply_on_value. rewrite E. destruct (is_shading_func func); [|done]. cbn [negb].
    assert ((-1 <=? pos) && (pos <=? 110) = true) as -> by (unfold position_valid in Hpos; lia).
    assert ((-1 <=? tl) && (tl <=? 110) = true) as -> by lia.
    by destruct (is_blind_func func).
  - intros ->. rewrite E in Hshut. exact Hshut.
Qed.

(** A facade blind told to go 30 points up from 20 with its tilt left alone. *)
Lemma apply_on_value_spec_witness :
  apply_on_value (SSP (-30) (-1) 1) ACTION_SHUT [20; 40; 0; 0; 0; 0; 0; 0]
    SUPLA_CHANNELFNC_CONTROLLINGTHEFACADEBLIND 0
  = (true, [10; -1; 0; 0; 0; 0; 0; 0]).
Proof.
  refine (proj1 (apply_on_value_spec (SSP (-30) (-1) 1) ACTION_SHUT [20; 40; 0; 0; 0; 0; 0; 0]
            SUPLA_CHANNELFNC_CONTROLLINGTHEFACADEBLIND 0 _ _ _ _)).
  - split; vm_compute; congruence.
  - split; vm_compute; congruence.
  - repeat (constructor; [split; vm_compute; congruence|]). constructor.
  - reflexivity.
Defined.
