(* ===== verification/GateOpenClose.v ===== *)
(** * GateOpenClose: opening and closing a gate
    (supla-server/src/actions/action_gate_openclose.cpp)

    A gate is driven by a pulse that toggles it; an asynchronous task gives the
    pulse, waits, looks at the opening sensor and tries again, a limited number
    of times. *)

From S2P Require Import Prelude Caller Actions AsyncTask AsyncTaskQueue.

(** ** The configuration (jsonconfig/channel/controlling_the_gate_config) *)

Definition NOA_MIN : Z := 1.
Definition NOA_MAX : Z := 5.
Definition NOA_DEFAULT : Z := 5.

(** [value]: the number of the JSON document, if there is one. *)
Definition get_number_of_attempts (value : option Z) : Z :=
  match value with
  | Some v => if (NOA_MIN <=? v) && (v <=? NOA_MAX) then v else NOA_DEFAULT
  | None => NOA_DEFAULT
  end.

Definition VERIFICATION_DELAY_US : Z := 60000000.

(** ** The task *)

Record gate_task := Gate {
  g_caller : supla_caller;
  g_user_id : Z;
  g_device_id : Z;
  g_channel_id : Z;
  g_open : bool;
  g_attempt_count_left : Z;
  g_verification_delay_us : Z;
  g_executor : action_executor;
  g_task : asynctask
}.

Section gate.
Context `{World}.

(** The constructor; [to_open] and [to_close] are what the configuration of the
    channel has under the two keys. *)
Definition new_gate (pool : Z) (caller : supla_caller) (user_id device_id channel_id : Z)
    (to_open to_close : option Z) (verification_delay_us : Z) (open : bool)
    (e : action_executor) : gate_task :=
  Gate caller user_id device_id channel_id open
       (if open then get_number_of_attempts to_open else get_number_of_attempts to_close)
       verification_delay_us (set_channel_id user_id device_id channel_id e)
       (new_asynctask pool).

(** [get_closing_state]: [None] when the sensor says nothing. *)
Definition get_closing_state (g : gate_task) : option bool :=
  match channel_property_value (g_user_id g) (g_device_id g) (g_channel_id g) with
  | Some (VGate level) =>
      if decide (level = gsl_unknown) then None else Some (bool_decide (level = gsl_closed))
  | _ => None
  end.

(** [_execute]: the task afterwards, the result, whether to execute again, the
    commands. *)
Definition gate_execute (now : timeval) (g : gate_task)
    : gate_task * bool * bool * list command :=
  let attempts := i32 (g_attempt_count_left g - 1) in
  let g1 t := Gate (g_caller g) (g_user_id g) (g_device_id g) (g_channel_id g) (g_open g)
                   attempts (g_verification_delay_us g) (g_executor g) t in
  match get_closing_state g with
  | None => (g1 (g_task g), false, false, [])
  | Some is_closed =>
      if (attempts <? 0) || negb (eqb (g_open g) is_closed)
      then (g1 (g_task g), negb (eqb (g_open g) is_closed), false, [])
      else
        (g1 (set_delay_usec now (g_verification_delay_us g) (g_task g)).1, false, true,
         open_close_without_canceling_tasks (g_executor g))
  end.
End gate.

(** ** The queue: kinds of tasks, search, [open_close]

    What an asynchronous task is beyond supla_abstract_asynctask (the dynamic
    casts of the code), by the address of the object. *)

Inductive subtask :=
  | IsScene (user_id scene_id : Z) (caller : supla_caller)
  | IsGateOpenClose (user_id device_id channel_id : Z) (open : bool) (caller : supla_caller)
  | IsOther.

(** [skip] is a task to leave out; [check_action] the action to look for, if any. *)
Definition gate_condition_met (kind : Z → subtask) (skip : option Z)
    (user_id device_id channel_id : Z) (check_action : option bool) (t : Z) (o : asynctask)
    : bool :=
  if bool_decide (skip = Some t) then false else
  match kind t with
  | IsGateOpenClose u d c open _ =>
      (u =? user_id) && (d =? device_id) && (c =? channel_id)
      && match check_action with Some a => eqb open a | None => true end
  | _ => false
  end.

Definition gate_cancel_tasks (kind : Z → subtask) (user_id device_id channel_id : Z)
    (s : sys) : sys :=
  cancel_tasks (gate_condition_met kind None user_id device_id channel_id None) s.

(** [open_close], up to the creation of the task, which the flag announces. *)
Definition gate_open_close (kind : Z → subtask) (user_id device_id channel_id : Z)
    (open : bool) (s : sys) : bool * sys :=
  if task_exists (heap s) (gate_condition_met kind None user_id device_id channel_id (Some open))
       (tasks s)
  then (false, s)
  else (true, gate_cancel_tasks kind user_id device_id channel_id s).

(** ** Running the task

    The worlds the successive executions see differ in what the sensor says. *)

Fixpoint gate_run (worlds : list (World * timeval)) (g : gate_task)
    : list (list command) * option bool :=
  match worlds with
  | [] => ([], None)
  | (w, now) :: l =>
      let '(g1, result, again, commands) := @gate_execute w now g in
      if again then
        let '(cs, r) := gate_run l g1 in (commands :: cs, r)
      else ([commands], Some result)
  end.

Definition closed_in (g : gate_task) (w : World) : option bool := @get_closing_state w g.

(** What stays the same from one execution to the next. *)
Lemma gate_execute_again w now g g1 r cmds :
  @gate_execute w now g = (g1, r, true, cmds) →
  is_i32 (g_attempt_count_left g) → 0 <= g_attempt_count_left g →
  0 < g_attempt_count_left g ∧ g_attempt_count_left g1 = g_attempt_count_left g - 1
  ∧ g_open g1 = g_open g ∧ (∀ w', closed_in g1 w' = closed_in g w')
  ∧ closed_in g w = Some (g_open g).
Proof.
  unfold gate_execute, closed_in. intros E Hi Hpos. unfold is_i32 in Hi.
  rewrite (i32_id (g_attempt_count_left g - 1)) in E by (unfold is_i32; lia).
  destruct (@get_closing_state w g) as [c|] eqn:Ec; [|done].
  destruct (_ || _) eqn:Eb; [done|]. apply orb_false_iff in Eb as [Eb1 Eb2].
  simplify_eq. cbn. split_and!; [lia|done|done|done|].
  f_equal. by destruct c, (g_open g).
Qed.

(** C38. The gate task, whatever the sensor says over time: it ends after at most
    one execution more than it has attempts; at most as many
    pulses are given as it has attempts, each of them while the sensor shows
    the opposite of the requested state; and it reports success exactly when
    the sensor shows the requested state at the end. *)
Theorem gate_run_spec worlds : ∀ g
    (Hatt : 0 <= g_attempt_count_left g < 2 ^ 31)
    (Hlen : g_attempt_count_left g < Z.of_nat (length worlds)),
  ∃ n w result, Z.of_nat n <= g_attempt_count_left g
    ∧ (fst <$> worlds !! n) = Some w
    ∧ (gate_run worlds g).2 = Some result
    ∧ length (gate_run worlds g).1 = S n
    ∧ ((gate_run worlds g).1 !! n) = Some []
    ∧ (∀ i, (i < n)%nat → ∃ wi, fst <$> worlds !! i = Some wi
                                ∧ closed_in g wi = Some (g_open g))
    ∧ (result = true ↔ closed_in g w = Some (negb (g_open g))).
Proof.
  induction worlds as [|[w now] l IH]; intros g Hatt Hlen; [cbn in Hlen; lia|].
  cbn [gate_run]. destruct (@gate_execute w now g) as [[[g1 r] again] cmds] eqn:E.
  destruct again.
  - destruct (gate_execute_again _ _ _ _ _ _ E) as (Hp & Ha & Ho & Hc & Hw);
      [unfold is_i32; lia|lia|].
    destruct (IH g1) as (n & w' & res & Hn & Hlk & E1 & E2 & E3 & E4 & E5);
      [lia|cbn in Hlen; lia|].
    exists (S n), w', res. destruct (gate_run l g1) as [cs r']. cbn [fst snd] in *.
    split_and!; [lia|done|done|by cbn; rewrite E2|done| |].
    + intros [|i] Hi; [exists w; done|]. destruct (E4 i) as (wi & ? & Hci); [lia|].
      exists wi. by rewrite <- Hc, <- Ho.
    + by rewrite <- Hc, <- Ho.
  - exists 0%nat, w, r. revert E. unfold gate_execute, closed_in.
    rewrite (i32_id (g_attempt_count_left g - 1)) by (unfold is_i32; lia).
    destruct (@get_closing_state w g) as [c|]; [destruct (_ || _) eqn:Eb|]; intros E;
      simplify_eq; cbn; (split_and!; [lia|done|done|done|done|lia|]).
    + split; [|intros [= ->]; by destruct (g_open g)].
      intros Hr. f_equal. by destruct c, (g_open g).
    + done.
Qed.

(** Six executions that see a closed gate: the default of five attempts is enough. *)
Definition gate_world_ex : World :=
  {| user_find := @user_find world_ex; device_get := @device_get world_ex;
     channel_property_value _ _ _ := Some (VGate gsl_closed); random_color := 255 |}.

Lemma gate_run_spec_witness :
  let g := @new_gate gate_world_ex 1 (Caller None ctClient 9 "") 3 4 5 None (Some 9)
             VERIFICATION_DELAY_US true executor_ex in
  ∃ r, (gate_run (repeat (gate_world_ex, Timeval 1 0) 6) g).2 = Some r.
Proof.
  destruct (gate_run_spec (repeat (gate_world_ex, Timeval 1 0) 6)
     (@new_gate gate_world_ex 1 (Caller None ctClient 9 "") 3 4 5 None (Some 9)
        VERIFICATION_DELAY_US true executor_ex))
    as (n & w & r & _ & _ & Hr & _).
  - split; vm_compute; congruence.
  - vm_compute. reflexivity.
  - exists r. exact Hr.
Defined.
