(* ===== verification/Scene.v ===== *)
(** * Scene: scenes (supla-server/src/scene)

    A scene is an asynchronous task that executes a list of operations, each
    after its delay.  This file models the operations, the state shown to the
    clients, the task's [_execute], the static [execute] and [interrupt], and
    the search condition they use on the queue of AsyncTaskQueue.v. *)

From S2P Require Import Prelude Caller Actions AsyncTask AsyncTaskQueue AsyncTaskInv GateOpenClose.

(** ** Operations: supla_scene_operation, supla_scene_operations *)

Record scene_operation := SceneOp { delay_ms : Z; op_config : action_config }.

(** The deque: [pop] takes the front. *)
Definition op_pop (ops : list scene_operation)
    : option scene_operation * list scene_operation :=
  match ops with
  | [] => (None, [])
  | op :: rest => (Some op, rest)
  end.

Definition op_count (ops : list scene_operation) : Z := Z.of_nat (length ops).

(** The delay of the front operation, 0 if there is none. *)
Definition op_get_delay_ms (ops : list scene_operation) : Z :=
  match ops with [] => 0 | op :: _ => delay_ms op end.

Definition get_total_delay_ms (ops : list scene_operation) : Z :=
  foldl (λ r op, u32 (r + delay_ms op)) 0 ops.

(** ** The state of a scene: supla_scene_state *)

Record scene_state := SceneState {
  ss_started_at : timeval;
  ss_ending_at : timeval;
  ss_caller : supla_caller
}.

Definition usec_u64 (t : timeval) : Z := u64 (tv_sec t * 1000000 + tv_usec t).

Definition new_scene_state (caller : supla_caller) (started_at : timeval)
    (estimated_execution_time_ms : Z) : scene_state :=
  let ending_at_usec := u64 (usec_u64 started_at + estimated_execution_time_ms * 1000) in
  SceneState started_at (Timeval (ending_at_usec / 1000000) (ending_at_usec mod 1000000))
             caller.

Definition is_during_execution (now : timeval) (s : scene_state) : bool :=
  let started_at := ss_started_at s in
  let ending_at := ss_ending_at s in
  if negb (tv_sec started_at =? 0) || negb (tv_usec started_at =? 0) then
    ((tv_sec started_at <? tv_sec now)
     || ((tv_sec started_at =? tv_sec now) && (tv_usec started_at <=? tv_usec now)))
    && ((tv_sec now <? tv_sec ending_at)
        || ((tv_sec ending_at =? tv_sec now) && (tv_usec now <? tv_usec ending_at)))
  else false.

Definition get_milliseconds_from_start (now : timeval) (s : scene_state) : Z :=
  if negb (tv_sec (ss_started_at s) =? 0) || negb (tv_usec (ss_started_at s) =? 0) then
    if usec_u64 (ss_started_at s) <=? usec_u64 now
    then u32 ((usec_u64 now - usec_u64 (ss_started_at s)) / 1000) else 0
  else 0.

Definition get_milliseconds_left (now : timeval) (s : scene_state) : Z :=
  if negb (tv_sec (ss_ending_at s) =? 0) || negb (tv_usec (ss_ending_at s) =? 0) then
    if usec_u64 now <? usec_u64 (ss_ending_at s)
    then u32 ((usec_u64 (ss_ending_at s) - usec_u64 now) / 1000) else 0
  else 0.

Definition get_initiator_id (s : scene_state) : Z :=
  if decide (get_type (ss_caller s) = ctClient) then get_id (ss_caller s) else 0.

(** ** The task: supla_scene_asynctask *)

Record scene := Scene {
  sc_task : asynctask;
  sc_caller : supla_caller;
  sc_user_id : Z;
  sc_id : Z;
  sc_estimated : Z;
  sc_executor : action_executor;
  sc_operations : list scene_operation
}.

(** The constructor: the delay of the first operation, in 32-bit microseconds. *)
Definition new_scene (now : timeval) (pool : Z) (caller : supla_caller)
    (user_id scene_id estimated : Z) (executor : action_executor)
    (operations : list scene_operation) : scene :=
  let t := new_asynctask pool in
  let t := (AsyncTask.set_delay_usec now (u32 (op_get_delay_ms operations * 1000)) t).1 in
  Scene (set_observable t) caller user_id scene_id estimated executor operations.

Definition get_scene_state (sc : scene) : scene_state :=
  new_scene_state (sc_caller sc) (started_at (sc_task sc))
    (if is_finished (sc_task sc) then 0 else sc_estimated sc).

(** What one [_execute] does: the operations it takes with the commands each
    gives, and the sleeps between them. *)
Inductive scene_event :=
  | SeOperation (op : scene_operation) (commands : list command)
  | SeSleep (usec : Z).

Section execute.
Context `{World}.

(** One operation: executed unless it is a scene already among the callers. *)
Definition execute_operation (caller : supla_caller) (user_id scene_id : Z)
    (op : scene_operation) (e : action_executor) : action_executor * list command :=
  let cfg := op_config op in
  if negb (bool_decide (subject_type cfg = stScene))
     || (find ctScene (subject_id cfg) caller =? 0)
  then execute_config (caller_of caller ctScene scene_id) user_id cfg true e
  else (e, []).

(** The do-while loop of [_execute]. *)
Fixpoint scene_loop (caller : supla_caller) (user_id scene_id : Z)
    (ops : list scene_operation) (e : action_executor)
    : list scene_event * list scene_operation * action_executor :=
  match ops with
  | [] => ([], [], e)
  | op :: rest =>
      let '(e1, commands) := execute_operation caller user_id scene_id op e in
      if (op_count rest =? 0) || (1000 <? op_get_delay_ms rest)
      then ([SeOperation op commands], rest, e1)
      else
        let '(events, remaining, e2) := scene_loop caller user_id scene_id rest e1 in
        (SeOperation op commands :: SeSleep (u32 (op_get_delay_ms rest * 1000)) :: events,
         remaining, e2)
  end.

(** [_execute]: the scene afterwards, the result, whether to execute again, and
    the events. [now] is the time after the loop. *)
Definition scene_execute (now : timeval) (sc : scene)
    : scene * bool * bool * list scene_event :=
  let '(events, remaining, e) :=
    scene_loop (sc_caller sc) (sc_user_id sc) (sc_id sc) (sc_operations sc)
               (sc_executor sc) in
  let upd t := Scene t (sc_caller sc) (sc_user_id sc) (sc_id sc) (sc_estimated sc) e remaining in
  if negb (op_count remaining =? 0) then
    let t := (AsyncTask.set_delay_usec now (u32 (op_get_delay_ms remaining * 1000)) (sc_task sc)).1 in
    (upd t, false, true, events)
  else
    let state := get_scene_state sc in
    if 100 <? get_milliseconds_left now state then
      let t := (AsyncTask.set_delay_usec now (u32 (get_milliseconds_left now state * 1000))
                  (sc_task sc)).1 in
      (upd t, false, true, events)
    else (upd (sc_task sc), true, false, events).

(** ** Running a scene on an exact clock

    The task is executed as soon as it is due; a sleep takes the time it asks
    for; the rest takes no time. *)

Definition clock_at (usec : Z) : timeval := Timeval (usec / 1000000) (usec mod 1000000).

(** The operations with the time each is executed at, and the time at the end. *)
Fixpoint stamp (time : Z) (events : list scene_event)
    : list (Z * scene_operation) * Z :=
  match events with
  | [] => ([], time)
  | SeOperation op _ :: l => let '(r, t) := stamp time l in ((time, op) :: r, t)
  | SeSleep usec :: l => stamp (time + usec) l
  end.

(** Executions of the task until its operations are exhausted; at most [fuel]. *)
Fixpoint scene_run (fuel : nat) (sc : scene) : list (Z * scene_operation) * scene :=
  match fuel with
  | O => ([], sc)
  | S n =>
      let '(events, _, _) :=
        scene_loop (sc_caller sc) (sc_user_id sc) (sc_id sc) (sc_operations sc)
                   (sc_executor sc) in
      let '(done, time) := stamp (usec_of (execution_start_time (sc_task sc))) events in
      let '(sc', _, _, _) := scene_execute (clock_at time) sc in
      match sc_operations sc' with
      | [] => (done, sc')
      | _ => let '(later, sc'') := scene_run n sc' in (done ++ later, sc'')
      end
  end.
End execute.

(** When the operations are meant to be executed: each [delay_ms] after the one
    before it. *)
Fixpoint due (time : Z) (ops : list scene_operation) : list (Z * scene_operation) :=
  match ops with
  | [] => []
  | op :: rest => (time + delay_ms op * 1000, op) :: due (time + delay_ms op * 1000) rest
  end.

(** ** The schedule of the operations *)

Definition total_ms (ops : list scene_operation) : Z := foldr (λ op r, delay_ms op + r) 0 ops.

(** A delay whose microseconds fit in 32 bits. *)
Definition delay_fits (op : scene_operation) : Prop := 0 <= delay_ms op * 1000 < 2 ^ 32.

Lemma due_app T l1 l2 :
  due T (l1 ++ l2) = due T l1 ++ due (T + total_ms l1 * 1000) l2.
Proof.
  revert T. induction l1 as [|x l IH]; intros T; cbn [app due].
  - by replace (T + total_ms [] * 1000) with T by (cbn; lia).
  - rewrite IH. cbn [app].
    by replace (T + total_ms (x :: l) * 1000)
      with (T + delay_ms x * 1000 + total_ms l * 1000) by (unfold total_ms; cbn; lia).
Qed.

Lemma usec_of_clock_at t : usec_of (clock_at t) = t.
Proof. unfold usec_of, clock_at. cbn. pose proof (Z.div_mod t 1000000). lia. Qed.

Lemma set_delay_start now d t :
  0 <= d → usec_of (execution_start_time (AsyncTask.set_delay_usec now d t).1) = usec_of now + d.
Proof.
  intros Hd. cbn. destruct (0 <? d) eqn:E; [apply usec_of_after; lia|].
  replace d with 0 by lia. lia.
Qed.

Section schedule.
Context `{World}.

Lemma scene_loop_cons c u i op rest e :
  scene_loop c u i (op :: rest) e =
    let '(e1, commands) := execute_operation c u i op e in
    if (op_count rest =? 0) || (1000 <? op_get_delay_ms rest)
    then ([SeOperation op commands], rest, e1)
    else
      let '(events, remaining, e2) := scene_loop c u i rest e1 in
      (SeOperation op commands :: SeSleep (u32 (op_get_delay_ms rest * 1000)) :: events,
       remaining, e2).
Proof. reflexivity. Qed.

Lemma scene_loop_spec c u i e op ops T0 :
  Forall delay_fits (op :: ops) →
  ∃ done remaining, op :: ops = done ++ remaining ∧ done ≠ []
    ∧ (scene_loop c u i (op :: ops) e).1.2 = remaining
    ∧ stamp (T0 + delay_ms op * 1000) (scene_loop c u i (op :: ops) e).1.1
      = (due T0 done, T0 + total_ms done * 1000)
    ∧ ∀ x l, remaining = x :: l → 1000 < delay_ms x.
Proof.
  revert op e T0. induction ops as [|op2 ops IH]; intros op e T0 Hall.
  - exists [op], []. cbn. destruct (execute_operation _ _ _ _ _) as [e1 cmds]. cbn.
    split_and!; [done|done|done| |done]. change (op_count []) with 0. cbn.
    f_equal. lia.
  - apply Forall_cons in Hall as [Hop Hall]. rewrite scene_loop_cons.
    destruct (execute_operation c u i op e) as [e1 cmds].
    destruct ((op_count (op2 :: ops) =? 0) || _) eqn:Eb.
    + exists [op], (op2 :: ops). cbn. split_and!; [done|done|done| |].
      * f_equal. lia.
      * intros x l [= <- <-]. unfold op_count in Eb. cbn [length op_get_delay_ms] in Eb.
        apply orb_prop in Eb as [Eb|Eb]; [apply Z.eqb_eq in Eb; lia|lia].
    + destruct (IH op2 e1 (T0 + delay_ms op * 1000) Hall)
        as (done & remaining & Hsplit & Hne & E1 & E2 & Hx).
      destruct (scene_loop c u i (op2 :: ops) e1) as [[ev rem] e2]. cbn [fst snd] in E1, E2 |- *.
      exists (op :: done), remaining. subst rem.
      split_and!; [by rewrite Hsplit|discriminate|reflexivity| |exact Hx].
      apply Forall_cons in Hall as [Hop2 _]. unfold delay_fits in Hop2.
      cbn [stamp op_get_delay_ms]. rewrite u32_id by (unfold is_u32; lia). rewrite E2.
      cbn [due]. f_equal. unfold total_ms. cbn. lia.
Qed.

Lemma scene_run_spec fuel : ∀ sc op ops T0,
  sc_operations sc = op :: ops → (length (op :: ops) <= fuel)%nat →
  Forall delay_fits (op :: ops) →
  usec_of (execution_start_time (sc_task sc)) = T0 + delay_ms op * 1000 →
  (scene_run fuel sc).1 = due T0 (op :: ops) ∧ sc_operations (scene_run fuel sc).2 = [].
Proof.
  induction fuel as [|n IH]; intros sc op ops T0 Hops Hlen Hfit Hstart; [cbn in Hlen; lia|].
  cbn [scene_run]. unfold scene_execute. rewrite Hops, Hstart.
  destruct (scene_loop_spec (sc_caller sc) (sc_user_id sc) (sc_id sc) (sc_executor sc)
              op ops T0 Hfit) as (done & rem & Hsplit & Hne & E1 & E2 & Hx).
  destruct (scene_loop _ _ _ (op :: ops) _) as [[ev r] e]. cbn [fst snd] in E1, E2. subst r.
  rewrite E2. destruct rem as [|op' rem].
  - change (op_count [] =? 0) with true. cbn [negb]. rewrite app_nil_r in Hsplit.
    rewrite Hsplit. by destruct (100 <? _).
  - assert ((op_count (op' :: rem) =? 0) = false) as ->
      by (apply Z.eqb_neq; unfold op_count; cbn [length]; lia).
    cbn [negb]. cbn [sc_operations].
    assert (Forall delay_fits (op' :: rem)) as Hfit'
      by (rewrite Hsplit in Hfit; by apply Forall_app in Hfit as [_ ?]).
    assert (delay_fits op') as Hd by (by apply Forall_cons in Hfit' as [? _]).
    unfold delay_fits in Hd.
    match goal with |- context [scene_run n ?sc'] =>
      destruct (IH sc' op' rem (T0 + total_ms done * 1000)) as [IH1 IH2] end.
    + done.
    + apply (f_equal length) in Hsplit. rewrite length_app in Hsplit.
      destruct done; [done|]. cbn in Hsplit, Hlen |- *. lia.
    + done.
    + cbn [sc_task]. rewrite set_delay_start by (apply u32_range).
      rewrite usec_of_clock_at. cbn [op_get_delay_ms]. rewrite u32_id by (unfold is_u32; lia).
      done.
    + destruct (scene_run n _) as [later sc'']. cbn [fst snd] in *. split; [|done].
      by rewrite Hsplit, IH1, due_app.
Qed.
End schedule.

(** On an exact clock, a new scene executes all its operations, each once and
    in their order, each exactly [delay_ms] after the one before it (the first
    after the creation), provided every delay is below 2^32 microseconds; and
    one execution of the task per operation is enough. *)
Theorem scene_schedule `{World} now pool caller user_id scene_id estimated e ops
    (Hne : ops ≠ []) (Hfit : Forall delay_fits ops) :
  let sc := new_scene now pool caller user_id scene_id estimated e ops in
  (scene_run (length ops) sc).1 = due (usec_of now) ops
  ∧ sc_operations (scene_run (length ops) sc).2 = [].
Proof.
  cbn zeta. destruct ops as [|op ops]; [done|].
  pose proof Hfit as [Hd _]%Forall_cons. unfold delay_fits in Hd.
  eapply scene_run_spec; [reflexivity|lia|done|].
  change (usec_of (execution_start_time
    (AsyncTask.set_delay_usec now (u32 (delay_ms op * 1000)) (new_asynctask pool)).1)
    = usec_of now + delay_ms op * 1000).
  rewrite u32_id by (unfold is_u32; lia). apply set_delay_start. lia.
Qed.

Definition op_ex (delay subject : Z) : scene_operation :=
  SceneOp delay (AConfig ACTION_TURN_ON stChannel subject 0 0 0 None).

Lemma scene_schedule_witness :
  (@scene_run world_ex 3 (new_scene (Timeval 100 0) 1 (Caller None ctClient 9 "") 3 8 10000
     executor_ex [op_ex 500 5; op_ex 700 5; op_ex 3000 5])).1
  = [(100500000, op_ex 500 5); (101200000, op_ex 700 5); (104200000, op_ex 3000 5)].
Proof.
  refine (proj1 (@scene_schedule world_ex (Timeval 100 0) 1 (Caller None ctClient 9 "") 3 8 10000
                   executor_ex [op_ex 500 5; op_ex 700 5; op_ex 3000 5] _ _)).
  - discriminate.
  - repeat (constructor; [split; vm_compute; congruence|]). constructor.
Defined.

(** A delay of 2^32 microseconds or more (4294968 ms, about 71 minutes and a
    half) wraps around: the operation is executed too early, after the remainder. *)
Theorem scene_delay_wraps `{World} now pool caller user_id scene_id estimated e op
    (Hd : 4294967 < delay_ms op < 2 ^ 32) :
  let sc := new_scene now pool caller user_id scene_id estimated e [op] in
  (scene_run 1 sc).1 = [(usec_of now + delay_ms op * 1000 mod 2 ^ 32, op)]
  ∧ usec_of now + delay_ms op * 1000 mod 2 ^ 32 < usec_of now + delay_ms op * 1000.
Proof.
  cbn zeta. pose proof (Z.mod_pos_bound (delay_ms op * 1000) (2 ^ 32) ltac:(lia)).
  split; [|lia].
  cbn [scene_run]. unfold scene_execute. cbn [new_scene sc_operations sc_executor sc_caller
    sc_user_id sc_id sc_task].
  rewrite scene_loop_cons. destruct (execute_operation _ _ _ _ _) as [e1 cmds].
  change (op_count [] =? 0) with true. cbn [orb stamp].
  assert (usec_of (execution_start_time (set_observable
     (AsyncTask.set_delay_usec now (u32 (delay_ms op * 1000)) (new_asynctask pool)).1))
     = usec_of now + delay_ms op * 1000 mod 2 ^ 32) as E.
  { change (usec_of (execution_start_time
      (AsyncTask.set_delay_usec now (u32 (delay_ms op * 1000)) (new_asynctask pool)).1)
      = usec_of now + delay_ms op * 1000 mod 2 ^ 32).
    rewrite set_delay_start by apply u32_range. done. }
  cbn [op_get_delay_ms]. rewrite E. cbn [negb Z.eqb op_count length Z.of_nat].
  by destruct (100 <? _).
Qed.

Lemma scene_delay_wraps_witness :
  (@scene_run world_ex 1 (new_scene (Timeval 100 0) 1 (Caller None ctClient 9 "") 3 8 10000
     executor_ex [op_ex 4294968 5])).1
  = [(100000704, op_ex 4294968 5)].
Proof.
  refine (proj1 (@scene_delay_wraps world_ex (Timeval 100 0) 1 (Caller None ctClient 9 "") 3 8
                   10000 executor_ex (op_ex 4294968 5) _)).
  split; vm_compute; reflexivity.
Defined.

(** ** Scenes that execute scenes *)

Section nesting.
Context `{World}.

(** A scene running for a caller: executing one of its operations gives a
    command to execute another scene for the caller the command carries. *)
Inductive nests (uid : Z) : supla_caller * Z → supla_caller * Z → Prop :=
  | nests_op c s op e c' s' b :
      SceneExecute c' uid s' b ∈ (execute_operation c uid s op e).2 →
      nests uid (c, s) (c', s').

Lemma nests_spec uid c s c' s' :
  uid ≠ 0 → nests uid (c, s) (c', s') →
  stack c' = (ctScene, s) :: stack c ∧ (ctScene, s') ∉ stack c.
Proof.
  intros Hu Hn. inversion Hn as [? ? op e ? ? b Hin]; subst. revert Hin.
  unfold execute_operation.
  destruct (negb _ || _) eqn:Eg; [|by intros ?%elem_of_nil].
  intros (-> & Hst & -> & _)%execute_config_scene; [|done].
  rewrite stack_caller_of. split; [done|]. apply find_zero.
  rewrite bool_decide_true in Eg by done. cbn in Eg. lia.
Qed.

(** A chain of scenes each executed by the one before it. *)
Fixpoint chain (uid : Z) (l : list (supla_caller * Z)) : Prop :=
  match l with
  | x :: l' => match l' with
               | y :: _ => nests uid x y ∧ chain uid l'
               | [] => True
               end
  | [] => True
  end.

Lemma chain_stack uid x l :
  uid ≠ 0 → chain uid (x :: l) → ∀ y, y ∈ l → (ctScene, x.2) ∈ stack y.1.
Proof.
  intros Hu. revert x. induction l as [|y l IH]; intros x Hc z; [by intros ?%elem_of_nil|].
  destruct Hc as [Hxy Hc]. destruct x as [cx sx], y as [cy sy].
  destruct (nests_spec _ _ _ _ _ Hu Hxy) as [Est _].
  assert (∀ m w, chain uid (w :: m) → (ctScene, sx) ∈ stack w.1 →
            ∀ z, z ∈ m → (ctScene, sx) ∈ stack z.1) as Hkeep.
  { intros m. induction m as [|v m IHm]; intros w Hw Hin u; [by intros ?%elem_of_nil|].
    destruct Hw as [Hwv Hm]. destruct w as [cw sw], v as [cv sv].
    destruct (nests_spec _ _ _ _ _ Hu Hwv) as [Ev _].
    assert ((ctScene, sx) ∈ stack cv) as Hv
      by (rewrite Ev; by apply list_elem_of_further).
    intros [->|Hz]%elem_of_cons; [done|]. by apply (IHm (cv, sv)). }
  assert ((ctScene, sx) ∈ stack cy) as Hy by (rewrite Est; apply list_elem_of_here).
  intros [->|Hz]%elem_of_cons; [done|]. by apply (Hkeep l (cy, sy)).
Qed.

(** A scene only comes back as the scene it executes directly. *)
Lemma chain_fresh uid x y l :
  uid ≠ 0 → chain uid (x :: y :: l) → ∀ z, z ∈ l → z.2 ≠ x.2.
Proof.
  intros Hu Hc z Hz. pose proof (chain_stack uid x (y :: l) Hu Hc) as Hst.
  destruct Hc as [_ Hc]. revert y Hc Hst Hz.
  induction l as [|v l IH]; intros y Hc Hst; [by intros ?%elem_of_nil|].
  destruct Hc as [Hyv Hc]. intros [->|Hz]%elem_of_cons.
  - destruct y as [cy sy], v as [cv sv].
    destruct (nests_spec _ _ _ _ _ Hu Hyv) as [_ Hn]. intros Heq. apply Hn.
    cbn in Heq. rewrite Heq. apply (Hst (cy, sy)), list_elem_of_here.
  - apply (IH v); [done| |done]. intros w Hw. apply Hst, list_elem_of_further, Hw.
Qed.

Lemma chain_tail uid x l : chain uid (x :: l) → chain uid l.
Proof. destruct l; [done|]. by intros [_ ?]. Qed.

Lemma chain_bound uid n : ∀ l (ids : gset Z),
  (length l <= n)%nat → uid ≠ 0 → chain uid l → (∀ x, x ∈ l → x.2 ∈ ids) →
  (length l <= 2 * size ids)%nat.
Proof.
  induction n as [|n IH]; intros l ids Hn Hu Hc Hin.
  - destruct l; cbn in *; lia.
  - destruct l as [|x [|y l]]; [cbn; lia| |].
    + assert (x.2 ∈ ids) as Hx by (apply Hin, list_elem_of_here).
      assert (size ids ≠ 0%nat) by (intros ?%size_empty_inv; set_solver). cbn. lia.
    + assert (x.2 ∈ ids) as Hx by (apply Hin, list_elem_of_here).
      assert (length l <= 2 * size (ids ∖ {[x.2]}))%nat as Hl.
      { apply IH; [cbn in Hn; lia|done|by do 2 apply chain_tail in Hc|].
        intros z Hz. apply elem_of_difference. split.
        - apply Hin. by do 2 apply list_elem_of_further.
        - rewrite elem_of_singleton. by eapply chain_fresh. }
      assert (size ids = S (size (ids ∖ {[x.2]}))) as ->; [|cbn; lia].
      rewrite (union_difference_singleton_L (x.2) ids) at 1 by done.
      rewrite size_union by set_solver. by rewrite size_singleton.
Qed.
End nesting.

(** C29. Scenes that execute each other stop: in a chain of scenes each of which
    executes the next one (directly or after an interruption), when the scenes of
    the user have n identifiers the chain has at most 2 n elements, so the guard on the
    callers bounds the recursion whatever the operations are. *)
Theorem scene_nesting_bounded `{World} uid l (ids : gset Z)
    (Hu : uid ≠ 0) (Hc : chain uid l) (Hids : ∀ x, x ∈ l → x.2 ∈ ids) :
  (length l <= 2 * size ids)%nat.
Proof. by eapply chain_bound. Qed.

(** Scene 8, executed by the client, executes itself once. *)
Definition self_op : scene_operation :=
  SceneOp 0 (AConfig ACTION_INTERRUPT_AND_EXECUTE stScene 8 0 0 0 None).

Lemma scene_nesting_bounded_witness :
  let c := Caller None ctClient 9 "" in
  (length [(c, 8%Z); (caller_of c ctScene 8, 8%Z)] <= 2 * size ({[8%Z]} : gset Z))%nat.
Proof.
  set (c := Caller None ctClient 9 "").
  refine (@scene_nesting_bounded world_ex 3 [(c, 8); (caller_of c ctScene 8, 8)] {[8]} _ _ _).
  - discriminate.
  - split; [|exact I].
    apply (@nests_op world_ex 3 c 8 self_op executor_ex _ _ true). vm_compute.
    apply list_elem_of_here.
  - intros x. rewrite !elem_of_cons, elem_of_nil, elem_of_singleton.
    intros [->|[->|[]]]; reflexivity.
Defined.

(** ** Searching the queue: supla_scene_search_condition

    What an asynchronous task is beyond supla_abstract_asynctask (the dynamic
    casts of the code), by the address of the object. *)

Section search.
Context (kind : Z → subtask).

Definition scene_condition_met (user_id scene_id : Z) (include_sub_tasks : bool)
    (t : Z) (o : asynctask) : bool :=
  match kind t with
  | IsScene u s caller =>
      if (u =? user_id) && (s =? scene_id) then true
      else include_sub_tasks && negb (find ctScene scene_id caller =? 0)
  | IsGateOpenClose _ _ _ _ caller =>
      include_sub_tasks && negb (find ctScene scene_id caller =? 0)
  | IsOther => false
  end.

(** [interrupt] *)
Definition scene_interrupt (user_id scene_id : Z) (s : sys) : sys :=
  let is_finished :=
    match find_task (heap s) (scene_condition_met user_id scene_id false) (tasks s) with
    | Some t => match heap s !! t with Some o => is_finished o | None => true end
    | None => true
    end in
  if is_finished then s
  else cancel_tasks (scene_condition_met user_id scene_id true) s.

Inductive sceneExecutionResult_e :=
  serOK | serNotExists | serIsDuringExecution | serInactivePeriod.

(** What the database answers: the estimated time and whether the active period
    of the scene holds now, and the operations of the scene. *)
Class SceneDao := {
  get_estimated_execution_time_and_activity : Z → Z * bool;
  get_scene_operations : Z → option (list scene_operation)
}.

(** The static [execute], up to the creation of the task: the result, the queue
    after the interruption, and what the task is created with. *)
Definition scene_execute_static `{SceneDao} (user_id scene_id : Z)
    (interrupt_before_execute : bool) (s : sys)
    : sceneExecutionResult_e * sys * option (Z * list scene_operation) :=
  if negb interrupt_before_execute
     && task_exists (heap s) (scene_condition_met user_id scene_id false) (tasks s)
  then (serIsDuringExecution, s, None)
  else
    let '(estimated, active) := get_estimated_execution_time_and_activity scene_id in
    if negb active then (serInactivePeriod, s, None)
    else
      let s := if interrupt_before_execute then scene_interrupt user_id scene_id s else s in
      match get_scene_operations scene_id with
      | None | Some [] => (serNotExists, s, None)
      | Some ops => (serOK, s, Some (estimated, ops))
      end.
End search.

(** The tasks that belong to the scene: its own, and those started, at any depth,
    by an execution of it. *)
Definition belongs (kind : Z → subtask) (user_id scene_id t : Z) : Prop :=
  match kind t with
  | IsScene u s caller => (u = user_id ∧ s = scene_id) ∨ (ctScene, scene_id) ∈ stack caller
  | IsGateOpenClose _ _ _ _ caller => (ctScene, scene_id) ∈ stack caller
  | IsOther => False
  end.

Lemma scene_condition_belongs kind u i t o :
  scene_condition_met kind u i true t o = true ↔ belongs kind u i t.
Proof.
  unfold scene_condition_met, belongs.
  assert (∀ c, negb (find ctScene i c =? 0) = true ↔ (ctScene, i) ∈ stack c) as Hf.
  { intros c. destruct (find ctScene i c =? 0) eqn:E; cbn.
    - apply Z.eqb_eq, find_zero in E. by split.
    - apply Z.eqb_neq in E. split; [|done]. intros _.
      destruct (decide ((ctScene, i) ∈ stack c)) as [|Hn]; [done|]. by apply find_zero in Hn. }
  destruct (kind t) as [u' s' c|? ? ? ? c|]; cbn [andb]; [|apply Hf|done].
  destruct ((u' =? u) && (s' =? i)) eqn:E.
  - split; [left; lia|done].
  - rewrite Hf. split; [by right|]. intros [?|?]; [lia|done].
Qed.

(** Interrupting a scene: if the first task of that scene in the queue is not
    finished, all the tasks that belong to the scene, its own and those started
    by it at any depth, are cancelled and leave the queue, and every other task
    stays as it is and where it is; otherwise nothing happens. *)
Theorem scene_interrupt_spec `{PoolClass} kind user_id scene_id s
    (Hr : reachable s) :
  let s' := scene_interrupt kind user_id scene_id s in
  (∃ t o, find_task (heap s) (scene_condition_met kind user_id scene_id false) (tasks s)
            = Some t ∧ heap s !! t = Some o ∧ is_finished o = false
     ∧ (∀ u, u ∈ tasks s → belongs kind user_id scene_id u →
          u ∉ tasks s' ∧ ∃ o', heap s' !! u = Some o' ∧ state o' = CANCELED)
     ∧ (∀ u, ¬ belongs kind user_id scene_id u → heap s' !! u = heap s !! u)
     ∧ tasks s' = filter (λ u, condition_met (heap s)
                    (scene_condition_met kind user_id scene_id true) u = false) (tasks s))
  ∨ s' = s.
Proof.
  cbn zeta. unfold scene_interrupt.
  pose proof (reachable_wf s Hr) as Hwf.
  destruct (find_task _ _ _) as [t|] eqn:Ef; [|by right].
  destruct (heap s !! t) as [o|] eqn:Eo; [|by right].
  destruct (is_finished o) eqn:Efin; [by right|left].
  pose proof (proj1 (proj1 (NoDup_app _ _) (wf_nodup _ Hwf))) as Hnd.
  destruct (cancel_tasks_spec (scene_condition_met kind user_id scene_id true) s Hnd)
    as [Htasks Hheap].
  exists t, o. split_and!; [done|done|done| | |done].
  - intros u Hu Hb. destruct (wf_started _ Hwf u) as (ou & Hou & _); [set_solver|].
    assert (condition_met (heap s) (scene_condition_met kind user_id scene_id true) u = true)
      as Hc by (unfold condition_met; rewrite Hou; by apply scene_condition_belongs).
    rewrite Htasks, list_elem_of_filter. split; [intros [? _]; congruence|].
    exists (cancel ou). split; [|done]. rewrite Hheap, Hc. rewrite bool_decide_true by done.
    by rewrite Hou.
  - intros u Hb. rewrite Hheap.
    assert (condition_met (heap s) (scene_condition_met kind user_id scene_id true) u = false)
      as ->; [|by rewrite andb_false_r].
    unfold condition_met. destruct (heap s !! u) as [ou|]; [|done].
    apply not_true_iff_false. by rewrite scene_condition_belongs.
Qed.

(** Scene 8 is task 7, scene 9 started by it is task 10, scene 5 is task 11. *)
Definition kinds_ex (t : Z) : subtask :=
  let c := Caller None ctClient 9 "" in
  if t =? 7 then IsScene 3 8 c
  else if t =? 10 then IsScene 3 9 (caller_of c ctScene 8)
  else if t =? 11 then IsScene 3 5 c
  else IsOther.
Definition run_scenes : list act :=
  [ARegister 1; ANew 7 1; AStart 7; AAdd (clock 0) 7;
   ANew 10 1; AStart 10; AAdd (clock 0) 10; ANew 11 1; AStart 11; AAdd (clock 0) 11].

Lemma scene_interrupt_spec_witness :
  let s := sys_after supla_asynctask_default_thread_pool run_scenes in
  scene_interrupt kinds_ex 3 8 s = s ∨ tasks (scene_interrupt kinds_ex 3 8 s) = [11].
Proof.
  assert (@reachable supla_asynctask_default_thread_pool
            (sys_after supla_asynctask_default_thread_pool run_scenes)) as Hr.
  { apply (@do_acts_reachable _ run_scenes); [run_ok|vm_compute; reflexivity]. }
  destruct (@scene_interrupt_spec supla_asynctask_default_thread_pool kinds_ex 3 8
              (sys_after supla_asynctask_default_thread_pool run_scenes) Hr)
    as [(t & o & _ & _ & _ & _ & _ & Ht)|Hs].
  - right. rewrite Ht. vm_compute. reflexivity.
  - left. exact Hs.
Defined.

(** ** The times of a scene's state *)

Definition tv_ok (t : timeval) : Prop := 0 <= tv_sec t < 2 ^ 40 ∧ 0 <= tv_usec t < 1000000.

Lemma usec_u64_ok t : tv_ok t → usec_u64 t = usec_of t.
Proof. unfold tv_ok, usec_u64, usec_of. intros [? ?]. apply u64_id. lia. Qed.

Lemma tv_lex a b :
  tv_ok a → tv_ok b →
  ((tv_sec a <? tv_sec b) || ((tv_sec a =? tv_sec b) && (tv_usec a <? tv_usec b)))
  = (usec_of a <? usec_of b)
  ∧ ((tv_sec a <? tv_sec b) || ((tv_sec a =? tv_sec b) && (tv_usec a <=? tv_usec b)))
    = (usec_of a <=? usec_of b).
Proof.
  unfold tv_ok, usec_of. intros [? ?] [? ?].
  split; destruct (tv_sec a <? tv_sec b) eqn:?, (tv_sec a =? tv_sec b) eqn:?; cbn; lia.
Qed.

(** The state shown for a scene started at [started_at] with an estimated time
    of [ms] milliseconds: it is during execution exactly from the start until
    the start plus [ms]; and in that time the milliseconds from the start and
    the milliseconds left add up to [ms], or to [ms] - 1 by rounding. *)
Theorem scene_state_times caller started_at ms now
    (Hs : tv_ok started_at) (Hs0 : 0 < usec_of started_at)
    (Hs1 : tv_sec started_at < 2 ^ 39) (Hms : is_u32 ms)
    (Hn : tv_ok now) :
  let st := new_scene_state caller started_at ms in
  let t := usec_of now - usec_of started_at in
  (is_during_execution now st = true ↔ 0 <= t < ms * 1000)
  ∧ (0 <= t < ms * 1000 →
       get_milliseconds_from_start now st = t / 1000
       ∧ ms - 1 <= get_milliseconds_from_start now st + get_milliseconds_left now st <= ms).
Proof.
  cbn zeta. unfold is_u32 in Hms.
  assert (usec_of started_at < 2 ^ 61) as Hb by (unfold tv_ok, usec_of in *; lia).
  set (e := usec_of started_at + ms * 1000).
  assert (0 < e < 2 ^ 63) as He by (unfold e; lia).
  assert (ss_ending_at (new_scene_state caller started_at ms) = clock_at e) as Eend.
  { unfold new_scene_state. cbn. rewrite usec_u64_ok by done.
    rewrite u64_id by (fold e; lia). done. }
  assert (tv_ok (clock_at e)) as Hce.
  { unfold tv_ok, clock_at. cbn. pose proof (Z.mod_pos_bound e 1000000 ltac:(lia)).
    split; [|done]. split; [apply Z.div_pos; lia|].
    apply Z.div_lt_upper_bound; [lia|]. unfold e, tv_ok, usec_of in *. lia. }
  assert (∀ x, tv_ok x → 0 < usec_of x →
    negb (tv_sec x =? 0) || negb (tv_usec x =? 0) = true) as Hnz.
  { unfold tv_ok, usec_of. intros x [? ?] ?. destruct (tv_sec x =? 0) eqn:?, (tv_usec x =? 0) eqn:?;
      cbn; lia. }
  pose proof (usec_of_clock_at e) as Hue.
  unfold is_during_execution, get_milliseconds_from_start, get_milliseconds_left.
  rewrite Eend. cbn [ss_started_at new_scene_state].
  rewrite !(Hnz started_at), !(Hnz (clock_at e)) by (done || lia).
  rewrite (proj2 (tv_lex started_at now Hs Hn)).
  replace (tv_sec (clock_at e) =? tv_sec now) with (tv_sec now =? tv_sec (clock_at e)) by lia.
  rewrite (proj1 (tv_lex now (clock_at e) Hn Hce)), !usec_u64_ok, Hue by done.
  split; [unfold e; lia|]. intros Ht. unfold e.
  replace (usec_of started_at <=? usec_of now) with true by lia.
  replace (usec_of now <? _) with true by lia.
  set (t := usec_of now - usec_of started_at) in *.
  replace (usec_of started_at + ms * 1000 - usec_of now) with (ms * 1000 - t) by lia.
  assert (0 <= t / 1000 < 2 ^ 32 ∧ 0 <= (ms * 1000 - t) / 1000 < 2 ^ 32) as [Hd1 Hd2].
  { split; (split; [apply Z.div_pos; lia|apply Z.div_lt_upper_bound; lia]). }
  rewrite !u32_id by done. split; [done|].
  pose proof (Z.div_mod t 1000 ltac:(lia)). pose proof (Z.mod_pos_bound t 1000 ltac:(lia)).
  pose proof (Z.div_mod (ms * 1000 - t) 1000 ltac:(lia)).
  pose proof (Z.mod_pos_bound (ms * 1000 - t) 1000 ltac:(lia)). lia.
Qed.

Lemma scene_state_times_witness :
  is_during_execution (Timeval 101 500) (new_scene_state (Caller None ctClient 9 "")
    (Timeval 100 0) 5000) = true.
Proof.
  refine (proj2 (proj1 (scene_state_times (Caller None ctClient 9 "") (Timeval 100 0) 5000
                   (Timeval 101 500) _ _ _ _ _)) _).
  - split; split; vm_compute; congruence.
  - vm_compute. reflexivity.
  - vm_compute. reflexivity.
  - split; vm_compute; congruence.
  - split; split; vm_compute; congruence.
  - split; vm_compute; congruence.
Defined.
