(* ===== verification/Json.v ===== *)
(** * Json: doubles and JSON documents

    Doubles are IEEE 754 numbers with 53 bits, computed by the Standard Library's
    specification of them. cJSON is third-party code: the functions of it that the
    configurations use are a class. *)

From Stdlib Require Export Floats.SpecFloat.
From stdpp Require Import strings.
From S2P Require Import Prelude.

#[local] Open Scope list_scope.
#[local] Open Scope Z_scope.

(** ** Doubles *)

Notation double := spec_float.
Notation "x -_d y" := (SFsub 53 1024 x y) (at level 50, left associativity).
Notation "x <=_d y" := (SFleb x y) (at level 70).
Notation "x <_d y" := (SFltb x y) (at level 70).

(** An integer below 2^53, as in a literal. *)
Definition dbl (n : Z) : double := binary_normalize 53 1024 n 0 false.

(** The double that is nearest to 0.000001. *)
Definition epsilon : double := S754_finite false 4722366482869645 (-72).

(** The conversion to int, which cuts off the fraction (of a number in range). *)
Definition to_int (x : double) : Z :=
  match x with
  | S754_finite s m e =>
      let n := if 0 <=? e then Z.pos m * 2 ^ e else Z.pos m / 2 ^ (- e) in
      if s : bool then - n else n
  | _ => 0
  end.

(** ** cJSON *)

(** A member of an object, the number, text, truth value or elements of an item (or
    [None] when the item is of another kind), and whether an item is an object. *)
Class CJson (json : Type) := {
  GetObjectItem : json → string → option json;
  number_of : json → option double;
  string_of : json → option string;
  bool_of : json → option bool;
  array_of : json → option (list json);
  is_object : json → bool
}.
