(* ===== verification/ActivePeriod.v ===== *)
(** * ActivePeriod: when a trigger may act

    active_period.cpp: bounds in time, hours of the days of the week, and conditions
    about sunrise and sunset. The time zone database (the date library) and the time of
    sunrise and sunset (floating-point trigonometry) are parameters. *)

From Stdlib Require Import Ascii.
From stdpp Require Import strings.
From S2P Require Import Prelude Json.

#[local] Open Scope list_scope.
#[local] Open Scope Z_scope.

Inductive _cnd_type_e := afterSunset | beforeSunset | afterSunrise | beforeSunrise.

#[export] Instance cnd_type_eq_dec : EqDecision _cnd_type_e.
Proof. solve_decision. Defined.

Record _t_astro_condition := Astro { cnd_type : _cnd_type_e; minutes : Z }.

#[export] Instance astro_condition_eq_dec : EqDecision _t_astro_condition.
Proof. solve_decision. Defined.

Record active_period := Period {
  active_from_utc : Z;
  active_to_utc : Z;
  active_hours : gmap Z (list Z);
  astro_conditions : list (list _t_astro_condition)
}.

(** ** Texts *)

(** What getline finds between commas: an empty text has no line, and a comma at the end
    starts none. *)
Fixpoint getlines (s : list ascii) (line : list ascii) : list (list ascii) :=
  match s with
  | [] => if bool_decide (line = []) then [] else [line]
  | c :: s => if bool_decide (c = ","%char) then line :: getlines s [] else getlines s (line ++ [c])
  end.

Definition is_digit (c : ascii) : bool :=
  bool_decide (48 <= Z.of_nat (nat_of_ascii c) <= 57).

Definition is_space (c : ascii) : bool :=
  let n := Z.of_nat (nat_of_ascii c) in (n =? 32) || ((9 <=? n) && (n <=? 13)).

Fixpoint digits (s : list ascii) (n : Z) : Z :=
  match s with
  | c :: s => if is_digit c then digits s (10 * n + (Z.of_nat (nat_of_ascii c) - 48)) else n
  | [] => n
  end.

Fixpoint skip_space (s : list ascii) : list ascii :=
  match s with
  | c :: s' => if is_space c then skip_space s' else s
  | [] => []
  end.

(** [std::stoi]: white space, a sign, digits; it throws without digits and for a number
    that is no int. *)
Definition stoi (s : list ascii) : option Z :=
  let s := skip_space s in
  let '(sign, s) := match s with
                    | c :: s' => if bool_decide (c = "-"%char) then (-1, s')
                                 else if bool_decide (c = "+"%char) then (1, s') else (1, s)
                    | [] => (1, [])
                    end in
  match s with
  | c :: _ =>
      if is_digit c then
        let n := sign * digits s 0 in
        if bool_decide (is_i32 n) then Some n else None
      else None
  | [] => None
  end.

(** One entry of the hours: a digit for the day and the hour. *)
Definition add_hour (item : list ascii) (hours : gmap Z (list Z)) : gmap Z (list Z) :=
  match stoi (take 1 item), stoi (drop 1 item) with
  | Some d, Some h =>
      let day_of_week := u8 d in let hour := u8 h in
      if (1 <=? day_of_week) && (day_of_week <=? 7) && (0 <=? hour) && (hour <=? 23)
      then <[day_of_week := default [] (hours !! day_of_week) ++ [hour]]> hours
      else hours
  | _, _ => hours
  end.

Definition parse_hours (items : list (list ascii)) : gmap Z (list Z) :=
  foldl (λ m item, add_hour item m) ∅ items.

(** ([front] and [back] of an empty text read its terminating null byte.) *)
Definition set_active_hours (hours : list ascii) (ap : active_period) : active_period :=
  let with_hours m :=
    Period (active_from_utc ap) (active_to_utc ap) m (astro_conditions ap) in
  match head hours, last hours with
  | Some c, Some c' =>
      if negb (bool_decide (c = ","%char)) || negb (bool_decide (c' = ","%char))
      then with_hours ∅
      else with_hours (parse_hours (getlines (take (length hours - 2) (drop 1 hours)) []))
  | _, _ => with_hours ∅
  end.

(** ** Conditions about the sun *)

Section astro.
Context `{CJson json}.

(** The members are looked for in this order. *)
Definition astro_members : list (string * _cnd_type_e) :=
  [("beforeSunset"%string, beforeSunset); ("beforeSunrise"%string, beforeSunrise);
   ("afterSunset"%string, afterSunset); ("afterSunrise"%string, afterSunrise)].

Fixpoint find_astro (cnd : json) (l : list (string * _cnd_type_e))
    : option (json * _cnd_type_e) :=
  match l with
  | [] => None
  | (name, t) :: l =>
      match GetObjectItem cnd name with Some v => Some (v, t) | None => find_astro cnd l end
  end.

Definition astro_of (cnd : json) : option _t_astro_condition :=
  if is_object cnd then
    '(v, t) ← find_astro cnd astro_members;
    x ← number_of v;
    if SFleb (dbl (-1440)) x && SFleb x (dbl 1440) then Some (Astro t (to_int x)) else None
  else None.

Definition and_conditions (cnds : json) : list _t_astro_condition :=
  match array_of cnds with Some l => omap astro_of l | None => [] end.

Definition set_astro_conditions (root : option json) (ap : active_period) : active_period :=
  Period (active_from_utc ap) (active_to_utc ap) (active_hours ap)
    match r ← root; array_of r with
    | Some l => filter (λ g, g ≠ []) (and_conditions <$> l)
    | None => []
    end.
End astro.

(** ** Is it active now? *)

Section now.
(** The seconds of the local time in a time zone, [None] when the date library throws;
    and the second in which [midnight + sunrise] (or [sunset]) falls, for the day of a
    local time. *)
Context (local_time : string → Z → option Z) (sun : bool → Z → Z → Z).

Definition is_sunrise (t : _cnd_type_e) : bool :=
  bool_decide (t = afterSunrise ∨ t = beforeSunrise).

Definition is_after (t : _cnd_type_e) : bool :=
  bool_decide (t = afterSunrise ∨ t = afterSunset).

Definition midnight (local : Z) : Z := local - local mod 86400.

Definition week_day (local : Z) : Z := (local / 86400 + 3) mod 7 + 1.

Definition hour_of (local : Z) : Z := (local - midnight local) / 3600.

Definition sun_timestamp (local : Z) (c : _t_astro_condition) : Z :=
  u64 (sun (is_sunrise (cnd_type c)) local (midnight local) + minutes c * 60).

Definition astro_met (now_utc local : Z) (c : _t_astro_condition) : bool :=
  let timestamp := sun_timestamp local c in
  negb ((is_after (cnd_type c) && (now_utc <=? timestamp))
        || (negb (is_after (cnd_type c)) && (timestamp <=? now_utc))).

(** [None] when an exception leaves the function. *)
Definition _is_now_active (ap : active_period) (timezone : string) (now_utc : Z)
    : option bool :=
  match local_time timezone now_utc with
  | None => None
  | Some local => Some (
      if negb (active_from_utc ap =? 0) && (now_utc <? active_from_utc ap) then false
      else if negb (active_to_utc ap =? 0) && (active_to_utc ap <? now_utc) then false
      else if negb (bool_decide (active_hours ap = ∅))
              && negb (match active_hours ap !! week_day local with
                       | Some l => bool_decide (u8 (hour_of local) ∈ l)
                       | None => false
                       end) then false
      else if negb (bool_decide (astro_conditions ap = [])) then
        existsb (λ g, negb (bool_decide (g = [])) && forallb (astro_met now_utc local) g)
          (astro_conditions ap)
      else true)
  end.

Definition is_now_active (ap : active_period) (timezone : string) (now_utc : Z) : bool :=
  default false (_is_now_active ap timezone now_utc).
End now.

(** [operator==]: the lists are compared element by element. *)
Fixpoint same_conditions (l l' : list _t_astro_condition) : bool :=
  match l, l' with
  | [], [] => true
  | c :: l, c' :: l' =>
      bool_decide (cnd_type c = cnd_type c') && (minutes c =? minutes c') && same_conditions l l'
  | _, _ => false
  end.

Fixpoint same_groups (l l' : list (list _t_astro_condition)) : bool :=
  match l, l' with
  | [], [] => true
  | g :: l, g' :: l' => same_conditions g g' && same_groups l l'
  | _, _ => false
  end.

Definition period_eq (a b : active_period) : bool :=
  (active_from_utc a =? active_from_utc b) && (active_to_utc a =? active_to_utc b)
  && bool_decide (active_hours a = active_hours b)
  && same_groups (astro_conditions a) (astro_conditions b).

(** ** Facts *)

(** The hours that a text gives, whatever it is, are hours of days. *)
Definition hours_ok (m : gmap Z (list Z)) : Prop :=
  ∀ d l, m !! d = Some l → 1 <= d <= 7 ∧ Forall (λ h, 0 <= h <= 23) l.

Lemma add_hour_ok item m : hours_ok m → hours_ok (add_hour item m).
Proof.
  intros Hm. unfold add_hour. case_match; [|done]. case_match; [|done]. case_match eqn:E; [|done].
  rewrite !andb_true_iff, !Z.leb_le in E. intros d l Hl.
  apply lookup_insert_Some in Hl as [[<- <-]|[_ Hl]]; [|by apply Hm].
  split; [lia|]. apply Forall_app. split; [|apply Forall_cons_2; [lia|done]].
  destruct (m !! u8 z) as [l|] eqn:Em; [|done]. by apply (Hm (u8 z)).
Qed.

Lemma parse_hours_ok items : hours_ok (parse_hours items).
Proof.
  unfold parse_hours. induction items as [|i items IH] using rev_ind; [by intros d l Hl|].
  rewrite foldl_app. by apply add_hour_ok.
Qed.

Lemma set_active_hours_ok s ap : hours_ok (active_hours (set_active_hours s ap)).
Proof.
  unfold set_active_hours. repeat case_match; try by intros d l Hl. apply parse_hours_ok.
Qed.

(** Texts of days and hours. *)
Definition digit (n : Z) : ascii := ascii_of_nat (Z.to_nat (48 + n)).

Definition entry (p : Z * Z) : list ascii :=
  digit p.1 :: (if p.2 <? 10 then [digit p.2] else [digit (p.2 / 10); digit (p.2 mod 10)]).

Fixpoint entries_text (l : list (Z * Z)) : list ascii :=
  match l with [] => [] | p :: l => entry p ++ ","%char :: entries_text l end.

Definition hours_text (l : list (Z * Z)) : list ascii := ","%char :: entries_text l.

Definition entry_ok (p : Z * Z) : Prop := 1 <= p.1 <= 7 ∧ 0 <= p.2 <= 23.

(** By evaluation for the 168 hours of a week. *)
Lemma entry_parsed p : entry_ok p →
  stoi (take 1 (entry p)) = Some p.1 ∧ stoi (drop 1 (entry p)) = Some p.2 ∧
  ","%char ∉ entry p ∧ entry p ≠ [].
Proof.
  destruct p as [d h]. intros [Hd Hh]. cbn [fst snd] in Hd, Hh.
  assert (Hall : Forall (λ d, Forall (λ h,
      stoi (take 1 (entry (d, h))) = Some d ∧ stoi (drop 1 (entry (d, h))) = Some h ∧
      ","%char ∉ entry (d, h) ∧ entry (d, h) ≠ []) (seqZ 0 24)) (seqZ 1 7)).
  { apply (bool_decide_unpack _). by vm_compute. }
  assert (Hd' : d ∈ seqZ 1 7) by (apply elem_of_seqZ; lia).
  assert (Hh' : h ∈ seqZ 0 24) by (apply elem_of_seqZ; lia).
  rewrite Forall_forall in Hall. specialize (Hall d Hd').
  rewrite Forall_forall in Hall. exact (Hall h Hh').
Qed.

Lemma getlines_line line : ∀ acc rest,
  ","%char ∉ line → getlines (line ++ ","%char :: rest) acc = (acc ++ line) :: getlines rest [].
Proof.
  induction line as [|c line IH]; intros acc rest Hc; cbn [app getlines].
  { by rewrite bool_decide_eq_true_2, app_nil_r. }
  rewrite bool_decide_eq_false_2 by (intros ->; apply Hc; left).
  rewrite IH by (intros Hi; apply Hc; by right). by rewrite <- app_assoc.
Qed.

Lemma getlines_end line : ∀ acc, ","%char ∉ line → acc ++ line ≠ [] →
  getlines line acc = [acc ++ line].
Proof.
  induction line as [|c line IH]; intros acc Hc Hne; cbn [getlines].
  { rewrite app_nil_r in Hne |- *. by rewrite bool_decide_eq_false_2. }
  rewrite bool_decide_eq_false_2 by (intros ->; apply Hc; left).
  rewrite IH; [by rewrite <- app_assoc|intros Hi; apply Hc; by right|].
  by destruct acc.
Qed.

Lemma entries_text_snoc l p : entries_text (l ++ [p]) = (entries_text l ++ entry p) ++ [","%char].
Proof.
  induction l as [|q l IH]; [done|]. cbn [app entries_text]. rewrite IH.
  by rewrite <- (app_assoc (entry q)), <- (app_assoc (entry q)).
Qed.

(** The text without its first and its last comma, line by line. *)
Lemma hours_text_lines l p :
  Forall entry_ok (l ++ [p]) →
  let s := hours_text (l ++ [p]) in
  getlines (take (length s - 2) (drop 1 s)) [] = entry <$> (l ++ [p]).
Proof.
  intros Hl s. assert (Hs : take (length s - 2) (drop 1 s) = entries_text l ++ entry p).
  { unfold s, hours_text. cbn [length drop]. rewrite entries_text_snoc, length_app.
    cbn [length]. by rewrite drop_0, take_app_length' by lia. }
  rewrite Hs. clear s Hs. apply Forall_app in Hl as [Hl Hp].
  apply Forall_cons in Hp as [Hp _]. destruct (entry_parsed p Hp) as (_ & _ & Hc & Hne).
  induction l as [|q l IH]; [by apply (getlines_end (entry p) [])|].
  apply Forall_cons in Hl as [Hq Hl]. destruct (entry_parsed q Hq) as (_ & _ & Hcq & _).
  cbn [entries_text]. rewrite <- app_assoc, <- app_comm_cons, getlines_line by done.
  rewrite IH by done. done.
Qed.

Lemma add_hour_entry p m : entry_ok p →
  add_hour (entry p) m = <[p.1 := default [] (m !! p.1) ++ [p.2]]> m.
Proof.
  intros Hp. destruct (entry_parsed p Hp) as (Hd & Hh & _). unfold add_hour. rewrite Hd, Hh.
  destruct Hp as [Hpd Hph]. rewrite !u8_id by (unfold is_u8; lia).
  by replace ((1 <=? p.1) && (p.1 <=? 7) && (0 <=? p.2) && (p.2 <=? 23))%bool with true by lia.
Qed.

Lemma parse_hours_entries l d h : Forall entry_ok l →
  h ∈ default [] (parse_hours (entry <$> l) !! d) ↔ (d, h) ∈ l.
Proof.
  unfold parse_hours. induction l as [|p l IH] using rev_ind; intros Hl.
  { cbn [fmap list_fmap foldl]. rewrite lookup_empty. cbn [default]. by rewrite !elem_of_nil. }
  apply Forall_app in Hl as [Hl Hp]. apply Forall_cons in Hp as [Hp _].
  rewrite fmap_app, foldl_app. cbn [fmap list_fmap foldl]. rewrite (add_hour_entry p _ Hp).
  rewrite elem_of_app, list_elem_of_singleton, <- (IH Hl). destruct p as [d' h']. cbn [fst snd].
  destruct (decide (d' = d)) as [->|Hne].
  - rewrite lookup_insert_eq. cbn [default from_option id]. rewrite elem_of_app, list_elem_of_singleton.
    intuition congruence.
  - rewrite lookup_insert_ne by done. intuition congruence.
Qed.

Lemma parse_hours_empty l : Forall entry_ok l → parse_hours (entry <$> l) = ∅ ↔ l = [].
Proof.
  intros Hl. split; [|by intros ->]. intros Hm. destruct l as [|[d h] l]; [done|].
  pose proof (parse_hours_entries ((d, h) :: l) d h Hl) as H. rewrite Hm, lookup_empty in H.
  cbn in H. rewrite elem_of_nil in H. exfalso. apply H. left.
Qed.

Lemma set_active_hours_text l ap : Forall entry_ok l →
  set_active_hours (hours_text l) ap =
  Period (active_from_utc ap) (active_to_utc ap) (parse_hours (entry <$> l))
    (astro_conditions ap).
Proof.
  intros Hl. destruct l as [|p l] using rev_ind; [done|].
  pose proof (hours_text_lines l p Hl) as Hlines. unfold set_active_hours.
  assert (Hhead : head (hours_text (l ++ [p])) = Some ","%char) by done.
  assert (Hlast : last (hours_text (l ++ [p])) = Some ","%char).
  { unfold hours_text. rewrite entries_text_snoc, app_comm_cons. apply last_snoc. }
  rewrite Hhead, Hlast. cbn [negb orb]. rewrite !bool_decide_eq_true_2 by done. cbn [negb orb].
  by rewrite Hlines.
Qed.

Lemma existsb_exists' {A} (P : A → bool) l : existsb P l = true ↔ ∃ x, x ∈ l ∧ P x = true.
Proof.
  induction l as [|y l IH]; cbn [existsb].
  { split; [done|]. by intros (x & Hx & _); apply elem_of_nil in Hx. }
  rewrite orb_true_iff, IH. split.
  - intros [Hy|(x & Hx & Hp)]; [by exists y; split; [left|]|by exists x; split; [right|]].
  - intros (x & Hx & Hp). apply elem_of_cons in Hx as [->|Hx]; [by left|right]. by exists x.
Qed.

Lemma forallb_Forall {A} (P : A → bool) l : forallb P l = true ↔ Forall (λ x, P x = true) l.
Proof. induction l as [|y l IH]; cbn; [by split|]. by rewrite andb_true_iff, IH, Forall_cons. Qed.

(** The conditions about the sun, and the hours. *)
Lemma astro_spec sun astro now_utc local :
  (if negb (bool_decide (astro = [])) then
     existsb (λ g, negb (bool_decide (g = [])) && forallb (astro_met sun now_utc local) g) astro
   else true) = true ↔
  (astro = [] ∨ ∃ g, g ∈ astro ∧ g ≠ [] ∧
     Forall (λ c, if is_after (cnd_type c) then sun_timestamp sun local c < now_utc
                  else now_utc < sun_timestamp sun local c) g).
Proof.
  case_bool_decide as Ea; cbn [negb]; [by split; [left|]|].
  rewrite existsb_exists'. split.
  - intros (g & Hg & Hp). right. exists g. split; [done|].
    rewrite andb_true_iff, negb_true_iff, bool_decide_eq_false, forallb_Forall in Hp.
    destruct Hp as [Hne Hp]. split; [done|]. eapply Forall_impl; [exact Hp|].
    intros c Hc. unfold astro_met in Hc. destruct (is_after (cnd_type c)); lia.
  - intros [->|(g & Hg & Hne & Hp)]; [done|]. exists g. split; [done|].
    rewrite andb_true_iff, negb_true_iff, bool_decide_eq_false, forallb_Forall.
    split; [done|]. eapply Forall_impl; [exact Hp|].
    intros c Hc. unfold astro_met. cbn beta in Hc. destruct (is_after (cnd_type c)); lia.
Qed.

Lemma hour_of_u8 local : u8 (hour_of local) = hour_of local.
Proof.
  apply u8_id. unfold hour_of, midnight, is_u8.
  replace (local - (local - local mod 86400)) with (local mod 86400) by lia.
  pose proof (Z.mod_pos_bound local 86400 ltac:(lia)).
  split; [apply Z.div_pos; lia|apply Z.div_lt_upper_bound; lia].
Qed.

Lemma hours_spec l local : Forall entry_ok l →
  negb (bool_decide (parse_hours (entry <$> l) = ∅))
  && negb (match parse_hours (entry <$> l) !! week_day local with
           | Some hs => bool_decide (u8 (hour_of local) ∈ hs)
           | None => false
           end) = false ↔ (l = [] ∨ (week_day local, hour_of local) ∈ l).
Proof.
  intros Hl. rewrite hour_of_u8, <- (parse_hours_entries l _ _ Hl), andb_false_iff, !negb_false_iff.
  rewrite bool_decide_eq_true, (parse_hours_empty l Hl).
  destruct (parse_hours (entry <$> l) !! week_day local) as [hs|]; cbn [default from_option id].
  - by rewrite bool_decide_eq_true.
  - rewrite elem_of_nil. split; intros [|]; by auto.
Qed.

(** A period is in force exactly when the time is within its bounds (zero is no bound),
    the hour of the week in the user's time zone is one that the text of the hours names (a
    text without hours is no restriction), and of its groups of conditions about the sun
    one holds whole: "after" means that the second of the event, moved by the minutes,
    is past, "before" that it is not reached. It is never in force when the time
    zone is not known. *)
Theorem is_now_active_spec local_time sun from to m l astro timezone now_utc :
  Forall entry_ok l →
  let ap := set_active_hours (hours_text l) (Period from to m astro) in
  is_now_active local_time sun ap timezone now_utc = true ↔
  ∃ local, local_time timezone now_utc = Some local ∧
    (from = 0 ∨ from <= now_utc) ∧ (to = 0 ∨ now_utc <= to) ∧
    (l = [] ∨ (week_day local, hour_of local) ∈ l) ∧
    (astro = [] ∨ ∃ g, g ∈ astro ∧ g ≠ [] ∧
       Forall (λ c, if is_after (cnd_type c) then sun_timestamp sun local c < now_utc
                    else now_utc < sun_timestamp sun local c) g).
Proof.
  intros Hl ap. unfold ap. rewrite set_active_hours_text by done.
  unfold is_now_active, _is_now_active.
  cbn [active_from_utc active_to_utc active_hours astro_conditions].
  destruct (local_time timezone now_utc) as [local|]; cbn [default].
  2: { split; [done|]. by intros (? & [=] & _). }
  split.
  - intros H. exists local. split; [done|]. revert H.
    destruct (negb (from =? 0) && (now_utc <? from)) eqn:Ef; [done|].
    destruct (negb (to =? 0) && (to <? now_utc)) eqn:Et; [done|].
    destruct (negb _ && negb _) eqn:Eh; [done|]. intros H.
    split; [lia|]. split; [lia|]. split; [by apply (hours_spec l local Hl)|by apply (astro_spec sun)].
  - intros (local' & [= <-] & Hf & Ht & Hh & Ha).
    replace (negb (from =? 0) && (now_utc <? from))%bool with false by lia.
    replace (negb (to =? 0) && (to <? now_utc))%bool with false by lia.
    rewrite (proj2 (hours_spec l local Hl) Hh). by apply astro_spec.
Qed.

Lemma same_conditions_eq l : ∀ l', same_conditions l l' = true ↔ l = l'.
Proof.
  induction l as [|[t m] l IH]; intros [|[t' m'] l']; cbn [same_conditions]; try done.
  cbn [cnd_type minutes]. rewrite !andb_true_iff, bool_decide_eq_true, Z.eqb_eq, IH.
  split; [by intros [[-> ->] ->]|by intros [= -> -> ->]].
Qed.

Lemma same_groups_eq l : ∀ l', same_groups l l' = true ↔ l = l'.
Proof.
  induction l as [|g l IH]; intros [|g' l']; cbn [same_groups]; try done.
  rewrite andb_true_iff, same_conditions_eq, IH. split; [by intros [-> ->]|by intros [= -> ->]].
Qed.

Lemma period_eq_spec a b : period_eq a b = true ↔ a = b.
Proof.
  destruct a as [f t h c], b as [f' t' h' c']. unfold period_eq.
  cbn [active_from_utc active_to_utc active_hours astro_conditions].
  rewrite !andb_true_iff, !Z.eqb_eq, bool_decide_eq_true, same_groups_eq.
  split; [by intros [[[-> ->] ->] ->]|by intros [= -> -> -> ->]].
Qed.

(** A Monday, eight o'clock UTC; the sun rises at six. *)
Lemma is_now_active_spec_witness :
  is_now_active (λ _ t, Some t) (λ _ _ m, m + 21600)
    (set_active_hours (hours_text [(1, 8); (3, 22)]) (Period 0 0 ∅ [[Astro afterSunrise 30]]))
    "UTC"%string 28800 = false.
Proof.
  apply not_true_is_false.
  rewrite (is_now_active_spec (λ _ t, Some t) (λ _ _ m, m + 21600) 0 0 ∅ [(1, 8); (3, 22)]).
  - intros (local & [= <-] & _ & _ & [Hl|Hin] & _); [done|].
    revert Hin. by apply (bool_decide_unpack (¬ _)).
  - by repeat constructor.
Defined.
