(* ===== verification/VbtCondition.v ===== *)
(** * VbtCondition: the condition of a value based trigger

    vbt/vbt_on_change_condition.cpp. A condition compares the value that a variable of a
    channel had with the one it has; it can pause until a second condition, and it
    can ask that the value stays for some seconds. *)

From stdpp Require Import strings.
From S2P Require Import Prelude Json.

#[local] Open Scope list_scope.
#[local] Open Scope Z_scope.

(** ** The variables of values *)

Inductive _vbt_var_name_e :=
  | var_name_none | var_name_color | var_name_color_brightness | var_name_brightness
  | var_name_temperature | var_name_humidity | var_name_flooding | var_name_manually_closed
  | var_name_voltage_avg | var_name_voltage1 | var_name_voltage2 | var_name_voltage3
  | var_name_current_sum | var_name_current1 | var_name_current2 | var_name_current3
  | var_name_power_active_sum | var_name_power_active1 | var_name_power_active2
  | var_name_power_active3 | var_name_power_reactive_sum | var_name_power_reactive1
  | var_name_power_reactive2 | var_name_power_reactive3 | var_name_power_apparent_sum
  | var_name_power_apparent1 | var_name_power_apparent2 | var_name_power_apparent3
  | var_name_fae1 | var_name_fae2 | var_name_fae3 | var_name_fae_sum | var_name_fae_balanced
  | var_name_rae1 | var_name_rae2 | var_name_rae3 | var_name_rae_sum | var_name_rae_balanced
  | var_name_counter | var_name_calculated_value | var_name_heating | var_name_cooling
  | var_name_heating_or_cooling | var_name_is_on | var_name_is_any_error_set
  | var_name_calibration_failed | var_name_calibration_lost | var_name_motor_problem
  | var_name_calibration_in_progress | var_name_battery_level | var_name_battery_powered
  | var_name_is_battery_cover_open | var_name_thermometer_error | var_name_clock_error
  | var_name_invalid_value | var_name_alarm | var_name_sound_alarm_on | var_name_warning
  | var_name_invalid_sensor_state | var_name_connected | var_name_white_temperature.

#[export] Instance vbt_var_name_eq_dec : EqDecision _vbt_var_name_e.
Proof. solve_decision. Defined.

Inductive _vbt_operator_e := op_unknown | op_eq | op_ne | op_le | op_lt | op_gt | op_ge.

#[export] Instance vbt_operator_eq_dec : EqDecision _vbt_operator_e.
Proof. solve_decision. Defined.

(** A value of a channel, by what [get_vbt_value] answers: false, or the number. *)
Definition vbt_value : Type := _vbt_var_name_e → option double.

(** ** The condition *)

Record on_change_condition := Cnd {
  value : double;
  var_name : _vbt_var_name_e;
  op : _vbt_operator_e;
  resume_op : _vbt_operator_e;
  duration_sec : Z;
  saved_old_value : double;
  condition_met_at : timeval;
  resume_value : double;
  paused : bool;
  on_change : bool
}.

Definition new_condition : on_change_condition :=
  Cnd (S754_zero false) var_name_none op_unknown op_unknown 0 (S754_zero false)
    timeval_zero (S754_zero false) false false.

Definition with_paused (b : bool) (c : on_change_condition) : on_change_condition :=
  Cnd (value c) (var_name c) (op c) (resume_op c) (duration_sec c) (saved_old_value c)
    (condition_met_at c) (resume_value c) b (on_change c).

Definition with_met (old : double) (t : timeval) (c : on_change_condition)
    : on_change_condition :=
  Cnd (value c) (var_name c) (op c) (resume_op c) (duration_sec c) old t (resume_value c)
    (paused c) (on_change c).

Definition not_met (c : on_change_condition) : on_change_condition :=
  with_met (saved_old_value c) timeval_zero c.

Definition is_op (o o' : _vbt_operator_e) : bool := bool_decide (o = o').

(** [is_condition_met(op, old_value, new_value, expected)] *)
Definition op_is_met (o : _vbt_operator_e) (old_value new_value expected : double) : bool :=
  if SFabs (old_value -_d new_value) <=_d epsilon then false
  else
    (is_op o op_eq && (SFabs (new_value -_d expected) <=_d epsilon))
    || (is_op o op_ne && (epsilon <_d SFabs (new_value -_d expected)))
    || (is_op o op_gt && (expected <_d new_value) && (old_value <=_d expected))
    || (is_op o op_lt && (new_value <_d expected) && (expected <=_d old_value))
    || (is_op o op_ge && (expected <=_d new_value) && (old_value <_d expected))
    || (is_op o op_le && (new_value <=_d expected) && (expected <_d old_value)).

Definition ms_left (c : on_change_condition) (now : timeval) : Z :=
  Z.quot (usec_of (condition_met_at c) - usec_of now) 1000.

Definition is_timed (c : on_change_condition) : bool := negb (tv_sec (condition_met_at c) =? 0).

(** [is_condition_met(old_value, new_value, milliseconds_left)] of two doubles: the
    result, the milliseconds and the condition afterwards. *)
Definition doubles_is_met (c : on_change_condition) (now : timeval)
    (old_value new_value : double) : bool * Z * on_change_condition :=
  if on_change c then (epsilon <_d SFabs (new_value -_d old_value), 0, c)
  else if paused c then
    let c := if op_is_met (resume_op c) old_value new_value (resume_value c)
             then with_paused false c else c in
    (false, 0, not_met c)
  else if op_is_met (op c) (if is_timed c then saved_old_value c else old_value) new_value
            (value c) then
    if 0 <? duration_sec c then
      let c := if is_timed c then c
               else with_met old_value
                      (Timeval (tv_sec now + duration_sec c) (tv_usec now)) c in
      (true, ms_left c now, c)
    else if negb (is_op (resume_op c) op_unknown) then (true, 0, with_paused true c)
    else (true, 0, c)
  else (false, 0, not_met c).

(** The variable of two values; a pointer may be null. *)
Definition numbers (c : on_change_condition) (old_value new_value : option vbt_value)
    : option (double * double) :=
  if negb (on_change c) && is_op (op c) op_unknown then None
  else
    old ← old_value; oldv ← old (var_name c);
    new ← new_value; newv ← new (var_name c);
    Some (oldv, newv).

Definition values_is_met (c : on_change_condition) (now : timeval)
    (old_value new_value : option vbt_value) : bool * Z * on_change_condition :=
  match numbers c old_value new_value with
  | None => (false, 0, c)
  | Some (oldv, newv) => doubles_is_met c now oldv newv
  end.

(** [is_condition_met(milliseconds_left)], asked when the time is over. *)
Definition timed_is_met (c : on_change_condition) (now : timeval)
    : bool * Z * on_change_condition :=
  if is_timed c then
    if ms_left c now <=? 0 then
      (true, ms_left c now,
       not_met (if negb (is_op (resume_op c) op_unknown) then with_paused true c else c))
    else (false, ms_left c now, c)
  else (false, 0, c).

(** [operator==] *)
Definition cnd_eq (c d : on_change_condition) : bool :=
  SFeqb (value c) (value d) && bool_decide (var_name c = var_name d)
  && bool_decide (op c = op d) && bool_decide (resume_op c = resume_op d)
  && SFeqb (resume_value c) (resume_value d).

(** ** The configuration *)

Definition var_names : list (_vbt_var_name_e * string) :=
  [(var_name_color, "color"); (var_name_color_brightness, "color_brightness");
   (var_name_brightness, "brightness"); (var_name_temperature, "temperature");
   (var_name_humidity, "humidity"); (var_name_flooding, "flooding");
   (var_name_manually_closed, "manually_closed"); (var_name_voltage_avg, "voltage_avg");
   (var_name_voltage1, "voltage1"); (var_name_voltage2, "voltage2");
   (var_name_voltage3, "voltage3"); (var_name_current_sum, "current_sum");
   (var_name_current1, "current1"); (var_name_current2, "current2");
   (var_name_current3, "current3"); (var_name_power_active_sum, "power_active_sum");
   (var_name_power_active1, "power_active1"); (var_name_power_active2, "power_active2");
   (var_name_power_active3, "power_active3");
   (var_name_power_reactive_sum, "power_reactive_sum");
   (var_name_power_reactive1, "power_reactive1"); (var_name_power_reactive2, "power_reactive2");
   (var_name_power_reactive3, "power_reactive3");
   (var_name_power_apparent_sum, "power_apparent_sum");
   (var_name_power_apparent1, "power_apparent1"); (var_name_power_apparent2, "power_apparent2");
   (var_name_power_apparent3, "power_apparent3"); (var_name_fae1, "fae1");
   (var_name_fae2, "fae2"); (var_name_fae3, "fae3"); (var_name_fae_sum, "fae_sum");
   (var_name_fae_balanced, "fae_balanced"); (var_name_rae1, "rae1"); (var_name_rae2, "rae2");
   (var_name_rae3, "rae3"); (var_name_rae_sum, "rae_sum");
   (var_name_rae_balanced, "rae_balanced"); (var_name_counter, "counter");
   (var_name_calculated_value, "calculated_value"); (var_name_heating, "heating");
   (var_name_cooling, "cooling"); (var_name_heating_or_cooling, "heating_or_cooling");
   (var_name_is_on, "is_on"); (var_name_is_any_error_set, "is_any_error_set");
   (var_name_calibration_failed, "calibration_failed");
   (var_name_calibration_lost, "calibration_lost"); (var_name_motor_problem, "motor_problem");
   (var_name_calibration_in_progress, "calibration_in_progress");
   (var_name_battery_level, "battery_level"); (var_name_battery_powered, "battery_powered");
   (var_name_is_battery_cover_open, "is_battery_cover_open");
   (var_name_thermometer_error, "thermometer_error"); (var_name_clock_error, "clock_error");
   (var_name_invalid_value, "invalid_value"); (var_name_alarm, "alarm");
   (var_name_warning, "warning"); (var_name_invalid_sensor_state, "invalid_sensor_state");
   (var_name_sound_alarm_on, "sound_alarm_on"); (var_name_connected, "connected");
   (var_name_white_temperature, "white_temperature")]%string.

(** The operators, in the order of the enumeration, as the map iterates. *)
Definition operators : list (_vbt_operator_e * string) :=
  [(op_eq, "eq"); (op_ne, "ne"); (op_le, "le"); (op_lt, "lt"); (op_gt, "gt");
   (op_ge, "ge")]%string.

Section config.
Context `{CJson json}.

Fixpoint find_operator (root : json) (ops : list (_vbt_operator_e * string))
    : option (_vbt_operator_e * json) :=
  match ops with
  | [] => None
  | (o, name) :: ops =>
      match GetObjectItem root name with
      | Some item => Some (o, item)
      | None => find_operator root ops
      end
  end.

(** The result, the operator and the value; [o] and [v] are what they were before. *)
Definition get_operator_and_value (root : json) (o : _vbt_operator_e) (v : double)
    : bool * _vbt_operator_e * double :=
  match find_operator root operators with
  | None => (false, o, v)
  | Some (o, item) =>
      match number_of item, bool_of item, string_of item with
      | Some x, _, _ => (true, o, x)
      | None, Some b, _ => (true, o, if b then dbl 1 else S754_zero false)
      | None, None, Some s =>
          if negb (is_op o op_eq) && negb (is_op o op_ne) then (false, o, v)
          else if bool_decide (s ∈ ["hi"; "closed"; "on"]%string) then (true, o, dbl 1)
          else if bool_decide (s ∈ ["lo"; "low"; "open"; "off"]%string)
               then (true, o, S754_zero false)
          else (false, o, v)
      | None, None, None => (true, o, v)
      end
  end.

Fixpoint find_var_name (s : string) (names : list (_vbt_var_name_e * string))
    : option _vbt_var_name_e :=
  match names with
  | [] => None
  | (v, name) :: names => if bool_decide (name = s) then Some v else find_var_name s names
  end.

Definition apply_json_config (root : json) (c : on_change_condition)
    : on_change_condition :=
  let change := GetObjectItem root "on_change"%string in
  let flag := bool_decide (is_Some change) in
  let item := match change with
              | Some r => Some r
              | None => GetObjectItem root "on_change_to"%string
              end in
  match item with
  | None =>
      Cnd (value c) (var_name c) op_unknown (resume_op c) (duration_sec c) (saved_old_value c)
        (condition_met_at c) (resume_value c) (paused c) flag
  | Some r =>
      let duration := match d ← GetObjectItem r "duration_sec"%string; number_of d with
                      | Some x => to_int x
                      | None => duration_sec c
                      end in
      let var := match s ← (n ← GetObjectItem r "name"%string; string_of n);
                       find_var_name s var_names with
                 | Some v => v
                 | None => var_name c
                 end in
      let make o v ro rv :=
        Cnd v var o ro duration (saved_old_value c) (condition_met_at c) rv (paused c) flag in
      if flag then make op_unknown (value c) (resume_op c) (resume_value c)
      else
        let '(ok, o, v) := get_operator_and_value r op_unknown (value c) in
        if negb ok then make op_unknown v (resume_op c) (resume_value c)
        else
          match GetObjectItem r "resume"%string with
          | None => make o v (resume_op c) (resume_value c)
          | Some resume =>
              let '(ok, ro, rv) := get_operator_and_value resume (resume_op c)
                                     (resume_value c) in
              make (if ok : bool then o else op_unknown) v ro rv
          end
  end.
End config.

(** ** Histories *)

(** What happens to a condition: a value of its channel changes, or the scheduler asks
    whether the time is over. *)
Inductive cnd_event :=
  | EValue (now : timeval) (old_value new_value : option vbt_value)
  | ETick (now : timeval).

Definition cnd_step (c : on_change_condition) (e : cnd_event)
    : bool * Z * on_change_condition :=
  match e with
  | EValue now old new => values_is_met c now old new
  | ETick now => timed_is_met c now
  end.

Definition cnd_after (c : on_change_condition) (es : list cnd_event) : on_change_condition :=
  foldl (λ c e, (cnd_step c e).2) c es.

(** The event is answered with true. *)
Definition cnd_met (c : on_change_condition) (e : cnd_event) : Prop := (cnd_step c e).1.1 = true.

Lemma cnd_after_snoc c es e : cnd_after c (es ++ [e]) = (cnd_step (cnd_after c es) e).2.
Proof. unfold cnd_after. by rewrite foldl_app. Qed.

Lemma cnd_after_app c es es' : cnd_after c (es ++ es') = cnd_after (cnd_after c es) es'.
Proof. apply foldl_app. Qed.

(** The part of a condition that no event changes. *)
Definition same_config (c d : on_change_condition) : Prop :=
  value c = value d ∧ var_name c = var_name d ∧ op c = op d ∧ resume_op c = resume_op d ∧
  duration_sec c = duration_sec d ∧ resume_value c = resume_value d ∧
  on_change c = on_change d.

#[export] Instance same_config_equiv : Equivalence same_config.
Proof.
  split.
  - by intros c.
  - intros c d (? & ? & ? & ? & ? & ? & ?). by repeat split.
  - intros c d e (? & ? & ? & ? & ? & ? & ?) (? & ? & ? & ? & ? & ? & ?).
    repeat split; congruence.
Qed.

Lemma step_config c e : same_config (cnd_step c e).2 c.
Proof.
  destruct e as [now old new|now]; cbn [cnd_step].
  - unfold values_is_met. destruct (numbers c old new) as [[o n]|]; [|done].
    unfold doubles_is_met. repeat case_match; done.
  - unfold timed_is_met. repeat case_match; done.
Qed.

Lemma after_config c es : same_config (cnd_after c es) c.
Proof.
  induction es as [|e es IH] using rev_ind; [done|].
  rewrite cnd_after_snoc. etrans; [apply step_config|done].
Qed.

Lemma numbers_config c d old new : same_config c d → numbers c old new = numbers d old new.
Proof. intros (_ & Hv & Ho & _ & _ & _ & Hc). unfold numbers. by rewrite Hv, Ho, Hc. Qed.

(** The event has values with which the second condition is met. *)
Definition resumes (c : on_change_condition) (e : cnd_event) : Prop :=
  match e with
  | EValue _ old new =>
      match numbers c old new with
      | Some (o, n) => op_is_met (resume_op c) o n (resume_value c) = true
      | None => False
      end
  | ETick _ => False
  end.

#[export] Instance resumes_dec c e : Decision (resumes c e).
Proof. destruct e; cbn; [destruct (numbers c _ _) as [[]|]|]; apply _. Defined.

(** The event has no values, or values with which the condition is met when [old] is the
    value before. *)
Definition holds_from (c : on_change_condition) (old : double) (e : cnd_event) : Prop :=
  match e with
  | EValue _ o n =>
      match numbers c o n with
      | Some (_, new) => op_is_met (op c) old new (value c) = true
      | None => True
      end
  | ETick _ => True
  end.

Definition starts_with (c : on_change_condition) (old : double) (t : timeval)
    (e : cnd_event) : Prop :=
  match e with
  | EValue now o n =>
      now = t ∧ match numbers c o n with
                | Some (o, new) => o = old ∧ op_is_met (op c) old new (value c) = true
                | None => False
                end
  | ETick _ => False
  end.

(** *** Pauses *)

Lemma paused_stays c es :
  on_change c = false → paused c = true → tv_sec (condition_met_at c) = 0 →
  Forall (λ e, ¬ resumes c e) es →
  paused (cnd_after c es) = true ∧ tv_sec (condition_met_at (cnd_after c es)) = 0.
Proof.
  intros Hc Hp Ht. induction es as [|e es IH] using rev_ind; intros Hes; [done|].
  apply Forall_app in Hes as [Hes He]. apply Forall_cons in He as [He _].
  destruct (IH Hes) as [Hp' Ht']. rewrite cnd_after_snoc.
  pose proof (after_config c es) as Hconf. set (d := cnd_after c es) in *.
  destruct e as [now old new|now]; cbn [cnd_step].
  - unfold values_is_met. rewrite (numbers_config d c old new Hconf). cbn [resumes] in He.
    destruct (numbers c old new) as [[o n]|]; [|done].
    destruct Hconf as (_ & _ & _ & Hro & _ & Hrv & Hoc).
    unfold doubles_is_met. rewrite Hoc, Hc, Hp', Hro, Hrv.
    apply not_true_is_false in He. by rewrite He.
  - unfold timed_is_met, is_timed. by rewrite Ht'.
Qed.

Lemma paused_not_met c e :
  on_change c = false → paused c = true → tv_sec (condition_met_at c) = 0 → ¬ cnd_met c e.
Proof.
  intros Hc Hp Ht. unfold cnd_met. destruct e as [now old new|now]; cbn [cnd_step].
  - unfold values_is_met. destruct (numbers c old new) as [[o n]|]; [|done].
    unfold doubles_is_met. by rewrite Hc, Hp.
  - unfold timed_is_met, is_timed. by rewrite Ht.
Qed.

(** Without a duration no time is kept. *)
Lemma untimed_stays c es :
  duration_sec c <= 0 → tv_sec (condition_met_at c) = 0 →
  tv_sec (condition_met_at (cnd_after c es)) = 0.
Proof.
  intros Hd Ht. induction es as [|e es IH] using rev_ind; [done|].
  rewrite cnd_after_snoc. destruct (after_config c es) as (_ & _ & _ & _ & Hdur & _ & _).
  set (d := cnd_after c es) in *. destruct e as [now old new|now]; cbn [cnd_step].
  - unfold values_is_met. destruct (numbers d old new) as [[o n]|]; [|done].
    unfold doubles_is_met. rewrite Hdur, (proj2 (Z.ltb_ge 0 _)) by lia.
    repeat case_match; done.
  - unfold timed_is_met, is_timed. by rewrite IH.
Qed.

Lemma met_pauses c e :
  on_change c = false → duration_sec c <= 0 → resume_op c ≠ op_unknown →
  tv_sec (condition_met_at c) = 0 → cnd_met c e → paused (cnd_step c e).2 = true.
Proof.
  intros Hc Hd Hr Ht. unfold cnd_met. destruct e as [now old new|now]; cbn [cnd_step].
  - unfold values_is_met. destruct (numbers c old new) as [[o n]|]; [|done].
    unfold doubles_is_met. rewrite Hc, (proj2 (Z.ltb_ge 0 _)) by lia.
    unfold is_op. rewrite (bool_decide_eq_false_2 (resume_op c = _)) by done.
    repeat case_match; done.
  - unfold timed_is_met, is_timed. by rewrite Ht.
Qed.

(** A trigger with a second condition fires once and pauses: in every history of
    values and of questions of the scheduler, between two events that are answered with
    true there is a value with which the second condition is met. (For triggers without a
    duration; at the start no time is kept.) *)
Theorem condition_pauses c pre e1 mid e2 :
  on_change c = false → duration_sec c <= 0 → resume_op c ≠ op_unknown →
  tv_sec (condition_met_at c) = 0 →
  cnd_met (cnd_after c pre) e1 → cnd_met (cnd_after c (pre ++ e1 :: mid)) e2 →
  Exists (resumes c) mid.
Proof.
  intros Hc Hd Hr Ht H1 H2.
  destruct (decide (Exists (resumes c) mid)) as [|Hn]; [done|]. exfalso.
  apply not_Exists_Forall in Hn; [|apply _].
  pose proof (after_config c pre) as (_ & _ & _ & Hro & Hdur & _ & Hoc).
  rewrite cnd_after_app in H2. cbn [cnd_after foldl] in H2.
  pose proof (step_config (cnd_after c pre) e1) as (E1 & E2 & E3 & E4 & E5 & E6 & E7).
  set (d := (cnd_step (cnd_after c pre) e1).2) in *.
  assert (Hd2 : same_config d c).
  { etrans; [apply step_config|apply after_config]. }
  assert (Hp : paused d = true).
  { apply met_pauses; [congruence|lia|congruence| |done]. by apply untimed_stays. }
  assert (Htd : tv_sec (condition_met_at d) = 0).
  { unfold d. rewrite <- cnd_after_snoc. by apply untimed_stays. }
  destruct (paused_stays d mid) as [Hp' Ht']; [congruence|done|done| |].
  { eapply Forall_impl; [exact Hn|]. intros e He Hr'. apply He. revert Hr'.
    destruct e as [now old new|now]; cbn [resumes]; [|done].
    rewrite (numbers_config d c old new Hd2).
    destruct (numbers c old new) as [[o n]|]; [|done].
    destruct Hd2 as (_ & _ & _ & Hx & _ & Hy & _). by rewrite Hx, Hy. }
  refine (paused_not_met _ e2 _ Hp' Ht' H2).
  destruct (after_config d mid) as (_ & _ & _ & _ & _ & _ & Hx). congruence.
Qed.

(** *** Durations *)

(** Why a time is kept: the value with which the condition was first met, and those
    after it. *)
Definition timed_since (c : on_change_condition) (es : list cnd_event) : Prop :=
  ∃ pre e mid t old, es = pre ++ e :: mid ∧
    starts_with c old t e ∧ Forall (holds_from c old) mid ∧
    condition_met_at (cnd_after c es) = Timeval (tv_sec t + duration_sec c) (tv_usec t) ∧
    saved_old_value (cnd_after c es) = old.

Lemma holds_config c d old e : same_config c d → holds_from c old e ↔ holds_from d old e.
Proof.
  intros Hc. destruct e as [now o n|]; [|done]. cbn. rewrite (numbers_config c d o n Hc).
  by destruct Hc as (-> & _ & -> & _).
Qed.

Lemma starts_config c d old t e : same_config c d → starts_with c old t e ↔ starts_with d old t e.
Proof.
  intros Hc. destruct e as [now o n|]; [|done]. cbn. rewrite (numbers_config c d o n Hc).
  by destruct Hc as (-> & _ & -> & _).
Qed.

(** An event after which a time is kept: it keeps the time there was, or sets it. *)
Lemma timed_step d e :
  on_change d = false → 0 < duration_sec d → is_timed (cnd_step d e).2 = true →
  (is_timed d = true ∧ condition_met_at (cnd_step d e).2 = condition_met_at d ∧
     saved_old_value (cnd_step d e).2 = saved_old_value d ∧
     holds_from d (saved_old_value d) e) ∨
  ∃ t old, starts_with d old t e ∧
    condition_met_at (cnd_step d e).2 = Timeval (tv_sec t + duration_sec d) (tv_usec t) ∧
    saved_old_value (cnd_step d e).2 = old.
Proof.
  intros Hc Hd. destruct e as [now o n|now]; cbn [cnd_step holds_from starts_with].
  - unfold values_is_met. destruct (numbers d o n) as [[old new]|]; [|by left].
    unfold doubles_is_met. rewrite Hc, (proj2 (Z.ltb_lt 0 _)) by lia.
    destruct (paused d); [by case_match|].
    destruct (is_timed d) eqn:Et.
    + destruct (op_is_met (op d) (saved_old_value d) new (value d)) eqn:Em; [|done].
      intros _. left. done.
    + destruct (op_is_met (op d) old new (value d)) eqn:Em; [|done].
      intros _. right. by exists now, old.
  - unfold timed_is_met. destruct (is_timed d) eqn:Et.
    + case_match; [done|]. intros _. by left.
    + cbn [snd]. rewrite Et. done.
Qed.

Lemma timed_invariant c es :
  on_change c = false → 0 < duration_sec c → tv_sec (condition_met_at c) = 0 →
  is_timed (cnd_after c es) = true → timed_since c es.
Proof.
  intros Hc Hd Ht. induction es as [|e es IH] using rev_ind; intros Hti.
  { unfold is_timed in Hti. cbn in Hti. by rewrite Ht in Hti. }
  pose proof (after_config c es) as Hconf. unfold timed_since. rewrite cnd_after_snoc in Hti |- *.
  set (d := cnd_after c es) in *. destruct (Hconf) as (_ & _ & _ & _ & Hdur & _ & Hoc).
  destruct (timed_step d e) as [(Htd & Hat & Hsv & Hh)|(t & old & Hs & Hat & Hsv)];
    [congruence|lia|done| |].
  - destruct (IH Htd) as (pre & e0 & mid & t & old & Hes & H0 & Hm & Hat0 & Hs0).
    exists pre, e0, (mid ++ [e]), t, old. split; [by rewrite Hes, <- app_assoc|].
    split; [done|]. split; [|split; fold d in Hat0, Hs0; congruence].
    apply Forall_app. split; [done|]. apply Forall_cons_2; [|done].
    fold d in Hs0. rewrite <- Hs0. by apply (holds_config d c).
  - exists es, e, [], t, old. split; [done|]. split; [by apply (starts_config d c)|].
    split; [done|]. split; [congruence|done].
Qed.

(** C32. A trigger with a duration fires only when the value stayed: whenever, after any
    history, the scheduler is told that the time is over, there was a value with which the
    condition was met that many seconds before (up to one millisecond, which the
    division cuts off), and since then every value met the condition, compared with the
    value before that one. *)
Theorem condition_held_for_duration c es now :
  on_change c = false → 0 < duration_sec c → tv_sec (condition_met_at c) = 0 →
  cnd_met (cnd_after c es) (ETick now) →
  ∃ pre e mid t old, es = pre ++ e :: mid ∧ starts_with c old t e ∧
    usec_of t + duration_sec c * 1000000 < usec_of now + 1000 ∧
    Forall (holds_from c old) mid.
Proof.
  intros Hc Hd Ht Hm. unfold cnd_met, cnd_step, timed_is_met in Hm.
  destruct (is_timed (cnd_after c es)) eqn:Et; [|done].
  destruct (timed_invariant c es Hc Hd Ht Et) as (pre & e & mid & t & old & Hes & Hs & Hh & Hat & _).
  exists pre, e, mid, t, old. split; [done|]. split; [done|]. split; [|done].
  destruct (Z.leb_spec (ms_left (cnd_after c es) now) 0) as [Hle|]; [|done].
  unfold ms_left in Hle. rewrite Hat in Hle. unfold usec_of in Hle |- *.
  cbn [tv_sec tv_usec] in Hle.
  pose proof (Z.quot_rem' ((tv_sec t + duration_sec c) * 1000000 + tv_usec t
                           - (tv_sec now * 1000000 + tv_usec now)) 1000).
  pose proof (Z.rem_bound_abs ((tv_sec t + duration_sec c) * 1000000 + tv_usec t
                           - (tv_sec now * 1000000 + tv_usec now)) 1000 ltac:(lia)).
  lia.
Qed.

(** ** Configurations *)

(** Every variable but the first has one name, and no name belongs to two. *)
Theorem var_names_unique : NoDup var_names.*1 ∧ NoDup var_names.*2.
Proof. split; by apply (bool_decide_unpack _). Qed.

(** Two conditions that differ in their durations, or in one being about every change, are
    equal to [operator==]. *)
Theorem cnd_eq_ignores_duration c seconds change :
  SFeqb (value c) (value c) = true → SFeqb (resume_value c) (resume_value c) = true →
  cnd_eq c (Cnd (value c) (var_name c) (op c) (resume_op c) seconds (saved_old_value c)
              (condition_met_at c) (resume_value c) (paused c) change) = true.
Proof.
  intros H1 H2. unfold cnd_eq. cbn [value var_name op resume_op resume_value].
  rewrite H1, H2, !bool_decide_eq_true_2 by done. done.
Qed.

(** ** Witnesses *)

(** Values that have one variable. *)
Definition temperature (x : Z) : option vbt_value :=
  Some (λ v, if decide (v = var_name_temperature) then Some (dbl x) else None).

Definition hot : on_change_condition :=
  Cnd (dbl 25) var_name_temperature op_gt op_lt 0 (dbl 0) timeval_zero (dbl 20) false false.

Definition hot_for_5s : on_change_condition :=
  Cnd (dbl 25) var_name_temperature op_gt op_unknown 5 (dbl 0) timeval_zero (dbl 0) false false.

Definition at_time (s : Z) : timeval := Timeval s 0.

Lemma condition_pauses_witness :
  Exists (resumes hot) [EValue (at_time 2) (temperature 26) (temperature 19)].
Proof.
  apply (condition_pauses hot []
           (EValue (at_time 1) (temperature 24) (temperature 26)) _
           (EValue (at_time 3) (temperature 19) (temperature 27))).
  - done.
  - done.
  - done.
  - done.
  - by vm_compute.
  - by vm_compute.
Defined.

Lemma condition_held_for_duration_witness :
  ∃ pre e mid t old,
    [EValue (at_time 1) (temperature 24) (temperature 26);
     EValue (at_time 3) (temperature 26) (temperature 27)] = pre ++ e :: mid ∧
    starts_with hot_for_5s old t e ∧ usec_of t + 5000000 < usec_of (at_time 6) + 1000.
Proof.
  destruct (condition_held_for_duration hot_for_5s
              [EValue (at_time 1) (temperature 24) (temperature 26);
               EValue (at_time 3) (temperature 26) (temperature 27)] (at_time 6))
    as (pre & e & mid & t & old & He & Hs & Ht & _).
  - done.
  - done.
  - done.
  - by vm_compute.
  - exists pre, e, mid, t, old. split; [exact He|]. split; [exact Hs|exact Ht].
Defined.
