(* ===== verification/ChannelValues.v ===== *)
(** * ChannelValues: the eight bytes of a value

    device/value/ of the server: for each function of a channel the class of its value, how the
    bytes are read and written, and what the server changes in a value that a device gives
    ([apply_channel_properties]). A value is the list of its eight bytes; numbers of several
    bytes are little-endian, and [char] is signed. Values that are floating-point numbers are
    bytes here: what is done to them is an argument. *)

From S2P Require Import Prelude ChannelFunctions VbtCondition.

#[local] Open Scope list_scope.
#[local] Open Scope Z_scope.

Definition value_size : nat := 8.

(** ** Bytes *)

Definition byte_at (i : nat) (v : list Z) : Z := nth i v 0.
Definition set_byte (i : nat) (b : Z) (v : list Z) : list Z := <[i := u8 b]> v.

Definition char_at (i : nat) (v : list Z) : Z := i8 (byte_at i v).
Definition u16_at (i : nat) (v : list Z) : Z := byte_at i v + 256 * byte_at (S i) v.
Definition i16 (z : Z) : Z := (z + 2 ^ 15) mod 2 ^ 16 - 2 ^ 15.
Definition i16_at (i : nat) (v : list Z) : Z := i16 (u16_at i v).
Definition u32_at (i : nat) (v : list Z) : Z := u16_at i v + 65536 * u16_at (S (S i)) v.
Definition u64_at (i : nat) (v : list Z) : Z := u32_at i v + 2 ^ 32 * u32_at (4 + i) v.

Definition set_u16 (i : nat) (z : Z) (v : list Z) : list Z :=
  set_byte (S i) (z / 256) (set_byte i z v).
Definition set_u32 (i : nat) (z : Z) (v : list Z) : list Z :=
  set_u16 (S (S i)) (z / 65536) (set_u16 i z v).
Definition set_u64 (i : nat) (z : Z) (v : list Z) : list Z :=
  set_u32 (4 + i) (z / 2 ^ 32) (set_u32 i z v).

Definition has_flag (flags flag : Z) : bool := negb (Z.land flags flag =? 0).

(** A value as a value: eight bytes. *)
Definition is_value (v : list Z) : Prop := length v = value_size ∧ Forall is_u8 v.

(** ** Classes of values *)

Definition one_of (f : Z) (l : list Z) : bool := existsb (Z.eqb f) l.

Definition rs_functions : list Z :=
  [SUPLA_CHANNELFNC_CONTROLLINGTHEROLLERSHUTTER; SUPLA_CHANNELFNC_CONTROLLINGTHEROOFWINDOW;
   SUPLA_CHANNELFNC_TERRACE_AWNING; SUPLA_CHANNELFNC_PROJECTOR_SCREEN; SUPLA_CHANNELFNC_CURTAIN;
   SUPLA_CHANNELFNC_ROLLER_GARAGE_DOOR].
Definition container_functions : list Z :=
  [SUPLA_CHANNELFNC_CONTAINER; SUPLA_CHANNELFNC_SEPTIC_TANK; SUPLA_CHANNELFNC_WATER_TANK].
Definition fb_functions : list Z :=
  [SUPLA_CHANNELFNC_CONTROLLINGTHEFACADEBLIND; SUPLA_CHANNELFNC_VERTICAL_BLIND].
Definition gate_functions : list Z :=
  [SUPLA_CHANNELFNC_CONTROLLINGTHEGATE; SUPLA_CHANNELFNC_CONTROLLINGTHEGARAGEDOOR].
Definition onoff_functions : list Z :=
  [SUPLA_CHANNELFNC_LIGHTSWITCH; SUPLA_CHANNELFNC_POWERSWITCH; SUPLA_CHANNELFNC_STAIRCASETIMER;
   SUPLA_CHANNELFNC_PUMPSWITCH; SUPLA_CHANNELFNC_HEATORCOLDSOURCESWITCH].
Definition rgbw_functions : list Z :=
  [SUPLA_CHANNELFNC_DIMMER; SUPLA_CHANNELFNC_RGBLIGHTING; SUPLA_CHANNELFNC_DIMMERANDRGBLIGHTING;
   SUPLA_CHANNELFNC_DIMMER_CCT_AND_RGB; SUPLA_CHANNELFNC_DIMMER_CCT].
Definition valve_functions : list Z :=
  [SUPLA_CHANNELFNC_VALVE_OPENCLOSE; SUPLA_CHANNELFNC_VALVE_PERCENTAGE].
Definition temphum_functions : list Z :=
  [SUPLA_CHANNELFNC_THERMOMETER; SUPLA_CHANNELFNC_HUMIDITY;
   SUPLA_CHANNELFNC_HUMIDITYANDTEMPERATURE].
Definition binary_sensor_functions : list Z :=
  [SUPLA_CHANNELFNC_OPENINGSENSOR_GATEWAY; SUPLA_CHANNELFNC_OPENINGSENSOR_GATE;
   SUPLA_CHANNELFNC_OPENINGSENSOR_GARAGEDOOR; SUPLA_CHANNELFNC_OPENINGSENSOR_DOOR;
   SUPLA_CHANNELFNC_OPENINGSENSOR_ROLLERSHUTTER; SUPLA_CHANNELFNC_OPENINGSENSOR_ROOFWINDOW;
   SUPLA_CHANNELFNC_OPENINGSENSOR_WINDOW; SUPLA_CHANNELFNC_MAILSENSOR;
   SUPLA_CHANNELFNC_NOLIQUIDSENSOR; SUPLA_CHANNELFNC_HOTELCARDSENSOR;
   SUPLA_CHANNELFNC_ALARMARMAMENTSENSOR; SUPLA_CHANNELFNC_CONTAINER_LEVEL_SENSOR;
   SUPLA_CHANNELFNC_FLOOD_SENSOR; SUPLA_CHANNELFNC_MOTION_SENSOR;
   SUPLA_CHANNELFNC_BINARY_SENSOR].
Definition floating_point_functions : list Z :=
  [SUPLA_CHANNELFNC_DISTANCESENSOR; SUPLA_CHANNELFNC_DEPTHSENSOR; SUPLA_CHANNELFNC_WINDSENSOR;
   SUPLA_CHANNELFNC_PRESSURESENSOR; SUPLA_CHANNELFNC_RAINSENSOR; SUPLA_CHANNELFNC_WEIGHTSENSOR].
Definition openclosed_functions : list Z :=
  [SUPLA_CHANNELFNC_CONTROLLINGTHEDOORLOCK; SUPLA_CHANNELFNC_CONTROLLINGTHEGATEWAYLOCK].
Definition hp_thermostat_functions : list Z := [SUPLA_CHANNELFNC_THERMOSTAT_HEATPOL_HOMEPLUS].
Definition dgf_functions : list Z :=
  [SUPLA_CHANNELFNC_DIGIGLASS_HORIZONTAL; SUPLA_CHANNELFNC_DIGIGLASS_VERTICAL].
Definition ic_functions : list Z :=
  [SUPLA_CHANNELFNC_IC_ELECTRICITY_METER; SUPLA_CHANNELFNC_IC_GAS_METER;
   SUPLA_CHANNELFNC_IC_HEAT_METER; SUPLA_CHANNELFNC_IC_WATER_METER].
Definition em_functions : list Z := [SUPLA_CHANNELFNC_ELECTRICITY_METER].
Definition hvac_functions : list Z :=
  [SUPLA_CHANNELFNC_HVAC_THERMOSTAT; SUPLA_CHANNELFNC_HVAC_THERMOSTAT_HEAT_COOL;
   SUPLA_CHANNELFNC_HVAC_THERMOSTAT_DIFFERENTIAL; SUPLA_CHANNELFNC_HVAC_DRYER;
   SUPLA_CHANNELFNC_HVAC_FAN; SUPLA_CHANNELFNC_HVAC_DOMESTIC_HOT_WATER].

Inductive value_class :=
  | RawValue | RsValue | ContainerValue | FbValue | GateValue | OnOffValue | RgbwValue
  | ValveValue | TempHumValue | BinarySensorValue | FloatingPointValue | OpenClosedValue
  | HpThermostatValue | DgfValue | IcValue | EmValue | HvacValue | GpMeasurementValue
  | GpMeterValue.

#[export] Instance value_class_eq_dec : EqDecision value_class.
Proof. solve_decision. Defined.

(** [supla_abstract_channel_value_factory::new_value] asks the classes in this order. *)
Definition value_classes : list (value_class * list Z) :=
  [(RsValue, rs_functions); (ContainerValue, container_functions); (FbValue, fb_functions);
   (GateValue, gate_functions); (OnOffValue, onoff_functions); (RgbwValue, rgbw_functions);
   (ValveValue, valve_functions); (TempHumValue, temphum_functions);
   (BinarySensorValue, binary_sensor_functions); (FloatingPointValue, floating_point_functions);
   (OpenClosedValue, openclosed_functions); (HpThermostatValue, hp_thermostat_functions);
   (DgfValue, dgf_functions); (IcValue, ic_functions); (EmValue, em_functions);
   (HvacValue, hvac_functions);
   (GpMeasurementValue, [SUPLA_CHANNELFNC_GENERAL_PURPOSE_MEASUREMENT]);
   (GpMeterValue, [SUPLA_CHANNELFNC_GENERAL_PURPOSE_METER])].

Definition new_value (func : Z) : value_class :=
  if func =? 0 then RawValue
  else match find_first (λ '(_, l), one_of func l) value_classes with
       | Some (c, _) => c
       | None => RawValue
       end.

(** ** Reading and writing *)

(** *** Relays, and sensors with two states *)

Definition SUPLA_RELAY_FLAG_OVERCURRENT_RELAY_OFF : Z := 1.

Definition onoff_set_on (on : bool) (v : list Z) : list Z := set_byte 0 (Z.b2z on) v.
Definition onoff_is_on (v : list Z) : bool := 0 <? char_at 0 v.

Definition is_overcurrent_relay_off (v : list Z) : bool :=
  has_flag (u16_at 1 v) SUPLA_RELAY_FLAG_OVERCURRENT_RELAY_OFF.

(** [flags ^= flags |= X]: the flags are added to, and then combined with themselves. *)
Definition set_overcurrent_relay_off (active : bool) (v : list Z) : list Z :=
  let flags := Z.lor (u16_at 1 v) SUPLA_RELAY_FLAG_OVERCURRENT_RELAY_OFF in
  if active then set_u16 1 flags v else set_u16 1 (Z.lxor flags flags) v.

Definition onoff_apply (protocol_version : Z) (v : list Z) : list Z :=
  if protocol_version <? 15 then take 1 v ++ replicate (value_size - 1) 0 else v.

Definition set_hi (hi : bool) (v : list Z) : list Z := set_byte 0 (Z.b2z hi) v.
Definition is_hi (v : list Z) : bool := 0 <? char_at 0 v.

(** [logic_inverted] is None where there is no configuration. *)
Definition binary_sensor_apply (type : Z) (logic_inverted : option bool) (v : list Z) : list Z :=
  let v := if type =? SUPLA_CHANNELTYPE_SENSORNC then set_hi (negb (is_hi v)) v else v in
  if default false logic_inverted then set_hi (negb (is_hi v)) v else v.

Definition set_closed (closed : bool) (v : list Z) : list Z := set_byte 0 (Z.b2z closed) v.
Definition openclosed_is_closed (v : list Z) : bool := 0 <? char_at 0 v.

(** *** Shutters and blinds *)

Definition RS_VALUE_FLAG_CALIBRATION_FAILED : Z := 2.
Definition RS_VALUE_FLAG_CALIBRATION_LOST : Z := 4.
Definition RS_VALUE_FLAG_MOTOR_PROBLEM : Z := 8.
Definition RS_VALUE_FLAG_CALIBRATION_IN_PROGRESS : Z := 16.

Definition get_position (v : list Z) : Z := char_at 0 v.
Definition get_tilt (v : list Z) : Z := char_at 1 v.
Definition rs_flags (v : list Z) : Z := i16_at 3 v.

Definition rs_apply (param4 : Z) (v : list Z) : list Z := set_byte 2 param4 v.

Definition rs_any_error (v : list Z) : bool :=
  has_flag (rs_flags v) RS_VALUE_FLAG_CALIBRATION_FAILED
  || has_flag (rs_flags v) RS_VALUE_FLAG_CALIBRATION_LOST
  || has_flag (rs_flags v) RS_VALUE_FLAG_MOTOR_PROBLEM.

Definition rs_vbt_value (var : _vbt_var_name_e) (v : list Z) : option Z :=
  match var with
  | var_name_calibration_failed =>
      Some (Z.b2z (has_flag (rs_flags v) RS_VALUE_FLAG_CALIBRATION_FAILED))
  | var_name_calibration_lost =>
      Some (Z.b2z (has_flag (rs_flags v) RS_VALUE_FLAG_CALIBRATION_LOST))
  | var_name_motor_problem => Some (Z.b2z (has_flag (rs_flags v) RS_VALUE_FLAG_MOTOR_PROBLEM))
  | var_name_calibration_in_progress =>
      Some (Z.b2z (has_flag (rs_flags v) RS_VALUE_FLAG_CALIBRATION_IN_PROGRESS))
  | var_name_is_any_error_set => Some (Z.b2z (rs_any_error v))
  | var_name_none => Some (get_position v)
  | _ => None
  end.

Definition dgf_apply (param1 : Z) (v : list Z) : list Z := set_byte 1 param1 v.

(** *** Valves and containers *)

Definition SUPLA_VALVE_FLAG_FLOODING : Z := 1.
Definition SUPLA_VALVE_FLAG_MANUALLY_CLOSED : Z := 2.
Definition SUPLA_VALVE_FLAG_MOTOR_PROBLEM : Z := 4.

Definition valve_is_closed (func : Z) (v : list Z) : bool :=
  if func =? SUPLA_CHANNELFNC_VALVE_OPENCLOSE then negb (byte_at 0 v =? 0) else byte_at 0 v =? 100.

Definition valve_vbt_value (func : Z) (var : _vbt_var_name_e) (v : list Z) : option Z :=
  match var with
  | var_name_flooding => Some (Z.b2z (has_flag (byte_at 1 v) SUPLA_VALVE_FLAG_FLOODING))
  | var_name_manually_closed =>
      Some (Z.b2z (has_flag (byte_at 1 v) SUPLA_VALVE_FLAG_MANUALLY_CLOSED))
  | var_name_motor_problem => Some (Z.b2z (has_flag (byte_at 1 v) SUPLA_VALVE_FLAG_MOTOR_PROBLEM))
  | var_name_none => Some (Z.b2z (valve_is_closed func v))
  | _ => None
  end.

Definition CONTAINER_FLAG_WARNING_LEVEL : Z := 1.
Definition CONTAINER_FLAG_ALARM_LEVEL : Z := 2.
Definition CONTAINER_FLAG_INVALID_SENSOR_STATE : Z := 4.
Definition CONTAINER_FLAG_SOUND_ALARM_ON : Z := 8.

Definition get_raw_level (v : list Z) : Z :=
  if (1 <=? byte_at 0 v) && (byte_at 0 v <=? 101) then byte_at 0 v else 0.

Definition get_level (v : list Z) : option Z :=
  if get_raw_level v =? 0 then None else Some (get_raw_level v - 1).

Definition container_is_invalid (v : list Z) : bool := (byte_at 0 v <? 1) || (101 <? byte_at 0 v).

Definition container_vbt_value (var : _vbt_var_name_e) (v : list Z) : option Z :=
  match var with
  | var_name_invalid_value => Some (Z.b2z (container_is_invalid v))
  | var_name_alarm => Some (Z.b2z (has_flag (u16_at 1 v) CONTAINER_FLAG_ALARM_LEVEL))
  | var_name_sound_alarm_on => Some (Z.b2z (has_flag (u16_at 1 v) CONTAINER_FLAG_SOUND_ALARM_ON))
  | var_name_warning => Some (Z.b2z (has_flag (u16_at 1 v) CONTAINER_FLAG_WARNING_LEVEL))
  | var_name_invalid_sensor_state =>
      Some (Z.b2z (has_flag (u16_at 1 v) CONTAINER_FLAG_INVALID_SENSOR_STATE))
  | var_name_none => get_level v
  | _ => None
  end.

(** *** Dimmers and colours *)

Definition get_color (v : list Z) : Z :=
  Z.lor (Z.lor (Z.land (Z.shiftl (byte_at 4 v) 16) 16711680)
               (Z.land (Z.shiftl (byte_at 3 v) 8) 65280))
        (Z.land (byte_at 2 v) 255).

Definition set_color (color : Z) (v : list Z) : list Z :=
  let color := u32 color in
  set_byte 4 (Z.land (Z.shiftr color 16) 255)
    (set_byte 3 (Z.land (Z.shiftr color 8) 255) (set_byte 2 (Z.land color 255) v)).

Definition get_brightness (v : list Z) : Z := char_at 0 v.
Definition set_brightness (b : Z) (v : list Z) : list Z := set_byte 0 b v.
Definition get_color_brightness (v : list Z) : Z := char_at 1 v.
Definition set_color_brightness (b : Z) (v : list Z) : list Z := set_byte 1 b v.
Definition get_command (v : list Z) : Z := char_at 6 v.
Definition set_command (c : Z) (v : list Z) : list Z := set_byte 6 c v.
Definition get_white_temperature (v : list Z) : Z := char_at 7 v.
Definition set_white_temperature (t : Z) (v : list Z) : list Z := set_byte 7 t v.

Definition rgbw_is_on (func : Z) (v : list Z) : bool :=
  if one_of func [SUPLA_CHANNELFNC_DIMMER; SUPLA_CHANNELFNC_DIMMER_CCT] then 0 <? get_brightness v
  else if func =? SUPLA_CHANNELFNC_RGBLIGHTING then 0 <? get_color_brightness v
  else if one_of func [SUPLA_CHANNELFNC_DIMMERANDRGBLIGHTING; SUPLA_CHANNELFNC_DIMMER_CCT_AND_RGB]
  then (0 <? get_brightness v) || (0 <? get_color_brightness v)
  else false.

Definition rgbw_vbt_value (var : _vbt_var_name_e) (v : list Z) : option Z :=
  match var with
  | var_name_color => Some (get_color v)
  | var_name_color_brightness => Some (get_color_brightness v)
  | var_name_brightness => Some (get_brightness v)
  | var_name_white_temperature => Some (get_white_temperature v)
  | _ => None
  end.

Definition RGBW_BRIGHTNESS_ONOFF : Z := 1.
Definition RGBW_COLOR_ONOFF : Z := 2.

Definition percent (z : Z) : Z := if (z <? 0) || (100 <? z) then 0 else z.

(** [supla_device_channel::assign_rgbw_value]; the color is an [int], the others are [char]. *)
Definition assign_rgbw_value (func color color_brightness brightness on_off command
    white_temperature : Z) (v : list Z) : list Z :=
  let v := if one_of func [SUPLA_CHANNELFNC_DIMMER; SUPLA_CHANNELFNC_DIMMER_CCT;
                           SUPLA_CHANNELFNC_DIMMER_CCT_AND_RGB;
                           SUPLA_CHANNELFNC_DIMMERANDRGBLIGHTING]
           then set_byte 0 (percent brightness) v else v in
  let v := if one_of func [SUPLA_CHANNELFNC_RGBLIGHTING; SUPLA_CHANNELFNC_DIMMERANDRGBLIGHTING;
                           SUPLA_CHANNELFNC_DIMMER_CCT_AND_RGB]
           then set_byte 4 (Z.shiftr (Z.land color 16711680) 16)
                  (set_byte 3 (Z.shiftr (Z.land color 65280) 8)
                     (set_byte 2 (Z.land color 255) (set_byte 1 (percent color_brightness) v)))
           else v in
  let on_off :=
    if on_off =? 0 then 0
    else if one_of func [SUPLA_CHANNELFNC_DIMMERANDRGBLIGHTING; SUPLA_CHANNELFNC_DIMMER_CCT_AND_RGB]
    then Z.lor RGBW_COLOR_ONOFF RGBW_BRIGHTNESS_ONOFF
    else if func =? SUPLA_CHANNELFNC_RGBLIGHTING then RGBW_COLOR_ONOFF
    else RGBW_BRIGHTNESS_ONOFF in
  let v := set_byte 6 command (set_byte 5 on_off v) in
  if one_of func [SUPLA_CHANNELFNC_DIMMER_CCT; SUPLA_CHANNELFNC_DIMMER_CCT_AND_RGB]
  then set_byte 7 white_temperature v else v.

(** *** Thermostats *)

Definition SUPLA_HVAC_VALUE_FLAG_SETPOINT_TEMP_HEAT_SET : Z := 1.
Definition SUPLA_HVAC_VALUE_FLAG_SETPOINT_TEMP_COOL_SET : Z := 2.
Definition SUPLA_HVAC_VALUE_FLAG_HEATING : Z := 4.
Definition SUPLA_HVAC_VALUE_FLAG_COOLING : Z := 8.
Definition SUPLA_HVAC_VALUE_FLAG_THERMOMETER_ERROR : Z := 128.
Definition SUPLA_HVAC_VALUE_FLAG_CLOCK_ERROR : Z := 256.
Definition SUPLA_HVAC_VALUE_FLAG_BATTERY_COVER_OPEN : Z := 4096.

Definition SUPLA_HVAC_MODE_NOT_SET : Z := 0.
Definition SUPLA_HVAC_MODE_OFF : Z := 1.
Definition SUPLA_HVAC_MODE_HEAT : Z := 2.
Definition SUPLA_HVAC_MODE_COOL : Z := 3.
Definition SUPLA_HVAC_MODE_HEAT_COOL : Z := 4.
Definition SUPLA_HVAC_MODE_FAN_ONLY : Z := 6.
Definition SUPLA_HVAC_MODE_DRY : Z := 7.
Definition SUPLA_HVAC_MODE_CMD_TURN_ON : Z := 8.
Definition SUPLA_HVAC_MODE_CMD_WEEKLY_SCHEDULE : Z := 9.
Definition SUPLA_HVAC_MODE_CMD_SWITCH_TO_MANUAL : Z := 10.

Definition set_mode (mode : Z) (v : list Z) : list Z :=
  if (0 <=? u8 mode) && (u8 mode <=? SUPLA_HVAC_MODE_CMD_SWITCH_TO_MANUAL)
  then set_byte 1 mode v else v.
Definition get_mode (v : list Z) : Z := byte_at 1 v.

Definition hvac_flags (v : list Z) : Z := u16_at 6 v.
Definition set_flags (flags : Z) (v : list Z) : list Z := set_u16 6 flags v.

Definition get_setpoint_temperature_heat (v : list Z) : Z := i16_at 2 v.
Definition get_setpoint_temperature_cool (v : list Z) : Z := i16_at 4 v.

Definition get_setpoint_temperature (v : list Z) : Z :=
  if get_mode v =? SUPLA_HVAC_MODE_COOL then get_setpoint_temperature_cool v
  else get_setpoint_temperature_heat v.

Definition set_setpoint_temperature_heat (t : Z) (v : list Z) : list Z :=
  let v := set_u16 2 t v in
  set_flags (Z.lor (hvac_flags v) SUPLA_HVAC_VALUE_FLAG_SETPOINT_TEMP_HEAT_SET) v.

Definition set_setpoint_temperature_cool (t : Z) (v : list Z) : list Z :=
  let v := set_u16 4 t v in
  set_flags (Z.lor (hvac_flags v) SUPLA_HVAC_VALUE_FLAG_SETPOINT_TEMP_COOL_SET) v.

Definition set_setpoint_temperature_heat_to_null (v : list Z) : list Z :=
  let v := set_u16 2 0 v in
  set_flags (Z.lxor (hvac_flags v)
               (Z.land (hvac_flags v) SUPLA_HVAC_VALUE_FLAG_SETPOINT_TEMP_HEAT_SET)) v.

Definition set_setpoint_temperature_cool_to_null (v : list Z) : list Z :=
  let v := set_u16 4 0 v in
  set_flags (Z.lxor (hvac_flags v)
               (Z.land (hvac_flags v) SUPLA_HVAC_VALUE_FLAG_SETPOINT_TEMP_COOL_SET)) v.

Definition set_on (on : Z) (v : list Z) : list Z := set_byte 0 on v.
Definition hvac_is_on (v : list Z) : Z := if 102 <? byte_at 0 v then 102 else byte_at 0 v.

Definition is_heating (v : list Z) : bool :=
  (0 <? byte_at 0 v) && has_flag (hvac_flags v) SUPLA_HVAC_VALUE_FLAG_HEATING.
Definition is_cooling (v : list Z) : bool :=
  (0 <? byte_at 0 v) && has_flag (hvac_flags v) SUPLA_HVAC_VALUE_FLAG_COOLING.

Definition is_battery_cover_open (v : list Z) : bool :=
  has_flag (hvac_flags v) SUPLA_HVAC_VALUE_FLAG_BATTERY_COVER_OPEN.
Definition clock_error (v : list Z) : bool :=
  has_flag (hvac_flags v) SUPLA_HVAC_VALUE_FLAG_CLOCK_ERROR.
Definition thermometer_error (v : list Z) : bool :=
  has_flag (hvac_flags v) SUPLA_HVAC_VALUE_FLAG_THERMOMETER_ERROR.
Definition hvac_any_error (v : list Z) : bool :=
  thermometer_error v || clock_error v || is_battery_cover_open v.

Definition hvac_turn_on : list Z → list Z := set_mode SUPLA_HVAC_MODE_CMD_TURN_ON.
Definition hvac_turn_off : list Z → list Z := set_mode SUPLA_HVAC_MODE_OFF.
Definition switch_to_manual : list Z → list Z := set_mode SUPLA_HVAC_MODE_CMD_SWITCH_TO_MANUAL.
Definition switch_to_program : list Z → list Z := set_mode SUPLA_HVAC_MODE_CMD_WEEKLY_SCHEDULE.

Definition hvac_toggle (v : list Z) : list Z :=
  if one_of (get_mode v) [SUPLA_HVAC_MODE_HEAT; SUPLA_HVAC_MODE_COOL; SUPLA_HVAC_MODE_HEAT_COOL;
                          SUPLA_HVAC_MODE_FAN_ONLY; SUPLA_HVAC_MODE_DRY;
                          SUPLA_HVAC_MODE_CMD_TURN_ON]
  then hvac_turn_off v else hvac_turn_on v.

Definition hvac_vbt_value (var : _vbt_var_name_e) (v : list Z) : option Z :=
  match var with
  | var_name_heating => Some (Z.b2z (is_heating v))
  | var_name_cooling => Some (Z.b2z (is_cooling v))
  | var_name_heating_or_cooling => Some (Z.b2z (is_heating v || is_cooling v))
  | var_name_is_on => Some (if hvac_is_on v =? 0 then 0 else 1)
  | var_name_is_any_error_set => Some (Z.b2z (hvac_any_error v))
  | var_name_is_battery_cover_open => Some (Z.b2z (is_battery_cover_open v))
  | var_name_thermometer_error => Some (Z.b2z (thermometer_error v))
  | var_name_clock_error => Some (Z.b2z (clock_error v))
  | _ => None
  end.

(** *** Counters *)

(** [impulse_counter_config::add_initial_value], with the sign and the number of the impulses
    that the configuration gives; None where it gives none. *)
Definition ic_add_initial_value (initial : option (bool * Z)) (counter : Z) : Z :=
  match initial with
  | None => counter
  | Some (minus, impulses_added) =>
      let left := u64 (2 ^ 64 - 1 - counter) in
      if minus : bool then
        let impulses_added := if counter <? impulses_added then counter else impulses_added in
        u64 (counter - impulses_added)
      else
        let impulses_added := if left <? impulses_added then left else impulses_added in
        u64 (counter + impulses_added)
  end.

(** [electricity_meter_config::add_initial_value] for the total of a value. *)
Definition em_add_initial_value (initial : Z) (total : Z) : Z :=
  let initial_value := Z.quot initial 1000 in
  let initial_value :=
    if initial_value <? 0 then
      if total <? i64 (initial_value * -1) then u32 (total * -1) else initial_value
    else
      let left := u32 (2 ^ 32 - 1 - total) in
      if left <? initial_value then left else initial_value in
  u32 (total + initial_value).

Definition ic_apply (initial : option (bool * Z)) (v : list Z) : list Z :=
  set_u64 0 (ic_add_initial_value initial (u64_at 0 v)) v.

Definition em_apply (initial : Z) (v : list Z) : list Z :=
  set_u32 1 (em_add_initial_value initial (u32_at 1 v)) v.

(** ** What the server changes *)

(** What the document of a channel says, as far as its values need it: whether the logic of a
    sensor is inverted, the impulses and the energy to add, and what is done to the bytes of a
    temperature and of a general purpose value. *)
Record value_config := ValueConfig {
  logic_inverted : option bool;
  initial_impulses : option (bool * Z);
  initial_energy : Z;
  adjust_temphum : list Z → list Z;
  adjust_gp : list Z → list Z
}.

Definition apply_channel_properties (c : value_class) (type protocol_version param1 param4 : Z)
    (cfg : value_config) (v : list Z) : list Z :=
  match c with
  | RsValue => rs_apply param4 v
  | OnOffValue => onoff_apply protocol_version v
  | TempHumValue => adjust_temphum cfg v
  | BinarySensorValue => binary_sensor_apply type (logic_inverted cfg) v
  | DgfValue => dgf_apply param1 v
  | IcValue => ic_apply (initial_impulses cfg) v
  | EmValue => em_apply (initial_energy cfg) v
  | GpMeasurementValue | GpMeterValue => adjust_gp cfg v
  | _ => v
  end.

(** [is_differ]; no class but that of temperatures has another one, and that one differs in what
    it calls significant only. *)
Definition is_differ (v : list Z) (old : list Z) : bool := negb (bool_decide (v = old)).

(** ** Bytes, in and out *)

Lemma set_byte_length i b v : length (set_byte i b v) = length v.
Proof. apply length_insert. Qed.

Lemma byte_at_set i j b v : (i < length v)%nat →
  byte_at j (set_byte i b v) = if (i =? j)%nat then u8 b else byte_at j v.
Proof.
  intros Hi. unfold byte_at, set_byte. rewrite !nth_lookup.
  destruct (Nat.eqb_spec i j) as [-> | Hne];
    [by rewrite list_lookup_insert_eq | by rewrite list_lookup_insert_ne].
Qed.

Lemma set_byte_value i b v : is_value v → is_value (set_byte i b v).
Proof.
  intros [Hl Hb]. split; [by rewrite set_byte_length|].
  apply Forall_insert; [done|apply u8_range].
Qed.

Create HintDb values.
#[local] Hint Resolve set_byte_value : values.

Lemma set_u16_value i z v : is_value v → is_value (set_u16 i z v).
Proof. unfold set_u16. auto with values. Qed.

Lemma set_u32_value i z v : is_value v → is_value (set_u32 i z v).
Proof. unfold set_u32. auto using set_u16_value. Qed.

Lemma set_u64_value i z v : is_value v → is_value (set_u64 i z v).
Proof. unfold set_u64. auto using set_u32_value. Qed.

#[local] Hint Resolve set_u16_value set_u32_value set_u64_value : values.

Lemma byte_at_range i v : is_value v → is_u8 (byte_at i v).
Proof.
  intros [_ Hb]. unfold byte_at. rewrite nth_lookup. destruct (v !! i) as [b|] eqn:E; cbn.
  - rewrite Forall_forall in Hb. apply Hb. by eapply list_elem_of_lookup_2.
  - unfold is_u8; lia.
Qed.

(** A number of [n] bytes is its low and its high part. *)
Lemma u16_at_set i j z v : (S i < length v)%nat →
  u16_at j (set_u16 i z v)
  = if (i =? j)%nat then u16 z
    else if (S i =? j)%nat then u8 (z / 256) + 256 * byte_at (S j) v
    else if (i =? S j)%nat then byte_at j v + 256 * u8 z
    else u16_at j v.
Proof.
  intros Hi. unfold u16_at, set_u16.
  rewrite !byte_at_set by (rewrite ?set_byte_length; lia).
  unfold u8, u16.
  repeat match goal with |- context [(?a =? ?b)%nat] => destruct (Nat.eqb_spec a b); try lia end;
    subst; try reflexivity.
  all: try (change (2 ^ 16) with (256 * 256); rewrite Z.rem_mul_r by lia; reflexivity).
Qed.

Lemma apply_is_value c type version param1 param4 cfg v :
  (∀ v, is_value v → is_value (adjust_temphum cfg v)) →
  (∀ v, is_value v → is_value (adjust_gp cfg v)) →
  is_value v → is_value (apply_channel_properties c type version param1 param4 cfg v).
Proof.
  intros Ht Hg Hv. unfold apply_channel_properties. destruct c; auto.
  - unfold rs_apply. auto with values.
  - unfold onoff_apply. destruct (_ <? _); [|done]. destruct Hv as [Hl Hb]. split.
    + rewrite length_app, length_take, length_replicate. unfold value_size in *. lia.
    + apply Forall_app. split; [by apply Forall_take|]. apply Forall_replicate. unfold is_u8; lia.
  - unfold binary_sensor_apply, set_hi. repeat case_match; auto with values.
  - unfold dgf_apply. auto with values.
  - unfold ic_apply. auto with values.
  - unfold em_apply. auto with values.
Qed.

(** No function belongs to two classes: the order of the questions does not matter. *)
Lemma classes_disjoint f c l c' l' :
  (c, l) ∈ value_classes → (c', l') ∈ value_classes → one_of f l = true → one_of f l' = true →
  c = c'.
Proof.
  intros Hc Hc' Hf Hf'. apply existsb_exists in Hf as (x & Hx & ->%Z.eqb_eq).
  assert (H : forallb (λ '(c, l), forallb (λ x, forallb (λ '(c', l'),
            negb (one_of x l') || bool_decide (c = c')) value_classes) l) value_classes = true)
    by (vm_compute; reflexivity).
  rewrite forallb_forall in H. specialize (H _ (proj1 (list_elem_of_In _ _) Hc)). cbn beta iota in H.
  rewrite forallb_forall in H. specialize (H _ Hx).
  rewrite forallb_forall in H. specialize (H _ (proj1 (list_elem_of_In _ _) Hc')). cbn beta iota in H.
  rewrite Hf' in H. by apply bool_decide_eq_true in H.
Qed.

(** ** Colours *)

Lemma byte_mask color k : 0 <= k →
  u8 (Z.shiftr (Z.land color (Z.shiftl 255 k)) k) = color / 2 ^ k mod 2 ^ 8.
Proof.
  intros Hk. unfold u8. rewrite Z.shiftr_land, Z.shiftr_shiftl_l, Z.sub_diag, Z.shiftl_0_r by lia.
  change 255 with (Z.ones 8). rewrite Z.land_ones, Z.mod_mod, Z.shiftr_div_pow2 by lia. done.
Qed.

Lemma mod_bits c m n : 0 <= m → 0 <= n →
  Z.testbit (c mod 2 ^ m) n = (n <? m) && Z.testbit c n.
Proof.
  intros Hm Hn. rewrite <- Z.land_ones, Z.land_spec, Z.testbit_ones, andb_comm by lia. f_equal. lia.
Qed.

Lemma byte_bits c k n : 0 <= k → 0 <= n →
  Z.testbit (Z.land (Z.shiftl (c / 2 ^ k mod 2 ^ 8) k) (Z.shiftl 255 k)) n
  = (k <=? n) && (n <? k + 8) && Z.testbit c n.
Proof.
  intros Hk Hn. rewrite Z.land_spec, !Z.shiftl_spec by lia. change 255 with (Z.ones 8).
  destruct (Z.leb_spec k n); [|by rewrite Z.testbit_neg_r by lia]. cbn [andb].
  rewrite mod_bits, Z.testbit_ones, <- Z.shiftr_div_pow2, Z.shiftr_spec by lia.
  replace (n - k + k) with n by lia.
  replace (n - k <? 8) with (n <? k + 8) by lia. replace (0 <=? n - k) with true by lia.
  destruct (n <? k + 8); cbn [andb]; [|done]. by rewrite andb_true_r.
Qed.

Lemma colour_bytes color :
  Z.lor (Z.lor (Z.land (Z.shiftl (u8 (Z.shiftr (Z.land color 16711680) 16)) 16) 16711680)
               (Z.land (Z.shiftl (u8 (Z.shiftr (Z.land color 65280) 8)) 8) 65280))
        (Z.land (u8 (Z.land color 255)) 255) = color mod 2 ^ 24.
Proof.
  change 16711680 with (Z.shiftl 255 16). change 65280 with (Z.shiftl 255 8).
  rewrite !byte_mask by lia.
  assert (E : Z.land (u8 (Z.land color 255)) 255
              = Z.land (Z.shiftl (color / 2 ^ 0 mod 2 ^ 8) 0) (Z.shiftl 255 0)).
  { rewrite <- (byte_mask color 0) by lia. by rewrite !Z.shiftl_0_r, Z.shiftr_0_r. }
  rewrite E. apply Z.bits_inj'. intros n Hn.
  rewrite !Z.lor_spec, !byte_bits, mod_bits by lia.
  destruct (Z.testbit color n); rewrite ?andb_true_r, ?andb_false_r; lia.
Qed.

Lemma percent_char z : i8 (u8 (percent z)) = percent z.
Proof.
  unfold percent, i8, u8. destruct (_ || _) eqn:E; [done|].
  apply orb_false_iff in E as [?%Z.ltb_ge ?%Z.ltb_ge]. rewrite (Z.mod_small z) by lia. rewrite Z.mod_small by lia. lia.
Qed.

Definition colour_functions : list Z :=
  [SUPLA_CHANNELFNC_RGBLIGHTING; SUPLA_CHANNELFNC_DIMMERANDRGBLIGHTING;
   SUPLA_CHANNELFNC_DIMMER_CCT_AND_RGB].

Definition dimmer_functions : list Z :=
  [SUPLA_CHANNELFNC_DIMMER; SUPLA_CHANNELFNC_DIMMER_CCT; SUPLA_CHANNELFNC_DIMMER_CCT_AND_RGB;
   SUPLA_CHANNELFNC_DIMMERANDRGBLIGHTING].

Definition white_functions : list Z :=
  [SUPLA_CHANNELFNC_DIMMER_CCT; SUPLA_CHANNELFNC_DIMMER_CCT_AND_RGB].

(** What is asked of a light is what the device is sent. For every function the value that is
    assigned has eight bytes; where the function has colours, the colour is the lowest 24 bits of
    the number that was asked for, and the brightnesses are those that were asked for, or zero if
    they are no percentage; what a function does not have is not touched. *)
Theorem light_assigned func color cb b on_off command wt v : is_value v →
  let v' := assign_rgbw_value func color cb b on_off command wt v in
  is_value v'
  ∧ (if one_of func colour_functions
     then get_color v' = color mod 2 ^ 24 ∧ get_color_brightness v' = percent cb
     else get_color v' = get_color v ∧ get_color_brightness v' = get_color_brightness v)
  ∧ get_brightness v' = (if one_of func dimmer_functions then percent b else get_brightness v)
  ∧ get_white_temperature v'
    = (if one_of func white_functions then i8 (u8 wt) else get_white_temperature v)
  ∧ get_command v' = i8 (u8 command).
Proof.
  intros Hv v'. split.
  { subst v'. unfold assign_rgbw_value. repeat case_match; auto 10 with values. }
  destruct Hv as [Hl _]. unfold value_size in Hl. subst v'.
  rewrite <- (percent_char cb), <- (percent_char b), <- colour_bytes.
  unfold assign_rgbw_value, get_color, get_color_brightness, get_brightness, get_white_temperature,
    get_command, char_at. fold dimmer_functions colour_functions white_functions.
  destruct (one_of func dimmer_functions), (one_of func colour_functions),
    (one_of func white_functions);
    rewrite !byte_at_set by (rewrite ?set_byte_length; lia); cbn [Nat.eqb]; done.
Qed.

Lemma light_assigned_witness :
  get_color (assign_rgbw_value SUPLA_CHANNELFNC_RGBLIGHTING 16711935 101 50 1 0 0
               (replicate 8 0)) = 16711935 mod 2 ^ 24.
Proof.
  refine (proj1 (proj1 (proj2 (light_assigned SUPLA_CHANNELFNC_RGBLIGHTING 16711935 101 50 1 0 0
            (replicate 8 0) _)))).
  split; [done|]. apply Forall_replicate. unfold is_u8; lia.
Defined.

(** ** Relays *)

(** Taking the flag of the overcurrent away takes all flags away, and sets none that was not. *)
Lemma overcurrent_clears_all v : is_value v →
  u16_at 1 (set_overcurrent_relay_off false v) = 0
  ∧ is_overcurrent_relay_off (set_overcurrent_relay_off true v) = true.
Proof.
  intros [Hl Hb]. unfold value_size in Hl.
  unfold is_overcurrent_relay_off, set_overcurrent_relay_off.
  rewrite !u16_at_set by lia. cbn [Nat.eqb]. rewrite Z.lxor_nilpotent. split; [done|].
  unfold has_flag. apply negb_true_iff, Z.eqb_neq. intros E.
  assert (Hbit : Z.testbit (Z.land (u16 (Z.lor (u16_at 1 v) SUPLA_RELAY_FLAG_OVERCURRENT_RELAY_OFF))
                     SUPLA_RELAY_FLAG_OVERCURRENT_RELAY_OFF) 0 = true).
  { rewrite Z.land_spec. unfold u16. rewrite mod_bits, Z.lor_spec by lia.
    change (Z.testbit SUPLA_RELAY_FLAG_OVERCURRENT_RELAY_OFF 0) with true. by rewrite orb_true_r. }
  by rewrite E, Z.bits_0 in Hbit.
Qed.

(** ** Thermostats *)

Lemma i16_u16 t : - 2 ^ 15 <= t < 2 ^ 15 → i16 (u16 t) = t.
Proof.
  intros Ht. unfold i16, u16. rewrite Zplus_mod_idemp_l, Z.mod_small by lia. lia.
Qed.

(** A set point that is set is read back, and the other one is as it was. *)
Lemma setpoints_apart t v : is_value v → - 2 ^ 15 <= t < 2 ^ 15 →
  get_setpoint_temperature_heat (set_setpoint_temperature_heat t v) = t
  ∧ get_setpoint_temperature_cool (set_setpoint_temperature_heat t v)
    = get_setpoint_temperature_cool v
  ∧ get_setpoint_temperature_cool (set_setpoint_temperature_cool t v) = t
  ∧ get_setpoint_temperature_heat (set_setpoint_temperature_cool t v)
    = get_setpoint_temperature_heat v.
Proof.
  intros [Hl _] Ht. unfold value_size in Hl.
  unfold set_setpoint_temperature_heat, set_setpoint_temperature_cool, set_flags,
    get_setpoint_temperature_heat, get_setpoint_temperature_cool, i16_at.
  rewrite !u16_at_set by (unfold set_u16; rewrite ?set_byte_length; lia). cbn [Nat.eqb].
  by rewrite i16_u16.
Qed.

(** ** Numbers, in and out *)

Lemma set_u16_length i z v : length (set_u16 i z v) = length v.
Proof. unfold set_u16. by rewrite !set_byte_length. Qed.

Lemma set_u32_length i z v : length (set_u32 i z v) = length v.
Proof. unfold set_u32. by rewrite !set_u16_length. Qed.

Lemma u32_at_set i z v : (i + 3 < length v)%nat → u32_at i (set_u32 i z v) = u32 z.
Proof.
  intros Hi. unfold u32_at, set_u32.
  rewrite !u16_at_set by (rewrite ?set_u16_length; lia).
  repeat match goal with |- context [(?a =? ?b)%nat] => destruct (Nat.eqb_spec a b); try lia end.
  unfold u16, u32. change (2 ^ 32) with (65536 * 65536). by rewrite (Z.rem_mul_r z) by lia.
Qed.

Lemma u32_at_set_other i j z v : (i + 3 < length v)%nat → (j + 3 < i ∨ i + 3 < j)%nat →
  u32_at j (set_u32 i z v) = u32_at j v.
Proof.
  intros Hi Hj. unfold u32_at, set_u32.
  rewrite !u16_at_set by (rewrite ?set_u16_length; lia).
  repeat match goal with |- context [(?a =? ?b)%nat] => destruct (Nat.eqb_spec a b); try lia end.
Qed.

Lemma u64_at_set i z v : (i + 7 < length v)%nat → u64_at i (set_u64 i z v) = u64 z.
Proof.
  intros Hi. unfold u64_at, set_u64.
  rewrite u32_at_set_other, !u32_at_set by (rewrite ?set_u32_length; lia).
  unfold u32, u64. change (2 ^ 64) with (2 ^ 32 * 2 ^ 32). by rewrite (Z.rem_mul_r z) by lia.
Qed.

Lemma u16_at_range i v : is_value v → 0 <= u16_at i v < 2 ^ 16.
Proof.
  intros Hv. unfold u16_at. pose proof (byte_at_range i v Hv) as H1.
  pose proof (byte_at_range (S i) v Hv) as H2. unfold is_u8 in *. lia.
Qed.

Lemma u32_at_range i v : is_value v → 0 <= u32_at i v < 2 ^ 32.
Proof.
  intros Hv. unfold u32_at. pose proof (u16_at_range i v Hv). pose proof (u16_at_range (S (S i)) v Hv).
  lia.
Qed.

Lemma u64_at_range i v : is_value v → 0 <= u64_at i v < 2 ^ 64.
Proof.
  intros Hv. unfold u64_at. pose proof (u32_at_range i v Hv). pose proof (u32_at_range (4 + i) v Hv).
  lia.
Qed.

(** ** Adding without overflow *)

Definition saturate (bits : Z) (z : Z) : Z := Z.max 0 (Z.min (2 ^ bits - 1) z).

Definition signed_impulses (initial : option (bool * Z)) : Z :=
  match initial with None => 0 | Some (minus, n) => if minus : bool then - n else n end.

Lemma ic_saturates initial counter : 0 <= counter < 2 ^ 64 →
  (∀ minus n, initial = Some (minus, n) → 0 <= n) →
  ic_add_initial_value initial counter = saturate 64 (counter + signed_impulses initial).
Proof.
  intros Hc Hn. unfold ic_add_initial_value, saturate, signed_impulses.
  destruct initial as [[minus n]|]; [specialize (Hn _ _ eq_refl)|lia].
  rewrite (u64_id (2 ^ 64 - 1 - counter)) by lia.
  destruct minus; (destruct (Z.ltb_spec counter n) || destruct (Z.ltb_spec (2 ^ 64 - 1 - counter) n));
    try (destruct (Z.ltb_spec (2 ^ 64 - 1 - counter) n)); rewrite u64_id by lia; lia.
Qed.

Lemma em_saturates initial total : is_i64 initial → 0 <= total < 2 ^ 32 →
  em_add_initial_value initial total = saturate 32 (total + Z.quot initial 1000).
Proof.
  intros Hi Ht. unfold em_add_initial_value, saturate, is_i64 in *.
  assert (Hq : - 2 ^ 54 <= Z.quot initial 1000 <= 2 ^ 54) by (Z.to_euclidean_division_equations; lia).
  set (q := Z.quot initial 1000) in *.
  rewrite (u32_id (2 ^ 32 - 1 - total)) by (unfold is_u32; lia).
  rewrite (i64_id (q * -1)) by (unfold is_i64; lia).
  destruct (Z.ltb_spec q 0).
  - destruct (Z.ltb_spec total (q * -1)).
    + unfold u32. replace (total + (total * -1) mod 2 ^ 32) with ((total * -1) mod 2 ^ 32 + total) by lia.
      rewrite Zplus_mod_idemp_l. replace (total * -1 + total) with 0 by lia. rewrite Z.mod_0_l by lia. lia.
    + rewrite u32_id by (unfold is_u32; lia). lia.
  - destruct (Z.ltb_spec (2 ^ 32 - 1 - total) q); rewrite u32_id by (unfold is_u32; lia); lia.
Qed.

(** C27. Counters do not overflow. Whatever a meter sends and whatever initial value is set for it,
    the energy of an electricity meter and the number of an impulse counter become the sum of
    both, held at zero and at the greatest number: never a number that has wrapped around. *)
Theorem counters_saturate type version param1 param4 cfg v : is_value v →
  is_i64 (initial_energy cfg) → (∀ minus n, initial_impulses cfg = Some (minus, n) → 0 <= n) →
  u32_at 1 (apply_channel_properties EmValue type version param1 param4 cfg v)
    = saturate 32 (u32_at 1 v + Z.quot (initial_energy cfg) 1000)
  ∧ u64_at 0 (apply_channel_properties IcValue type version param1 param4 cfg v)
    = saturate 64 (u64_at 0 v + signed_impulses (initial_impulses cfg)).
Proof.
  intros Hv He Hn. unfold apply_channel_properties, em_apply, ic_apply.
  pose proof (u32_at_range 1 v Hv). pose proof (u64_at_range 0 v Hv).
  assert (Hl : length v = 8%nat) by apply Hv.
  rewrite u32_at_set, u64_at_set, em_saturates, ic_saturates by (done || lia).
  unfold saturate. split; [apply u32_id; unfold is_u32; lia|apply u64_id; lia].
Qed.

Lemma counters_saturate_witness :
  let cfg := ValueConfig None (Some (true, 7)) (-5000) id id in
  u32_at 1 (apply_channel_properties EmValue 0 0 0 0 cfg [0; 2; 0; 0; 0; 0; 0; 0]) = 0
  ∧ u64_at 0 (apply_channel_properties IcValue 0 0 0 0 cfg [2; 0; 0; 0; 0; 0; 0; 0]) = 0.
Proof.
  intros cfg.
  assert (Hb : ∀ v, forallb (λ z, (0 <=? z) && (z <? 256)) v = true → length v = 8%nat → is_value v).
  { intros v Hf Hl. split; [done|]. rewrite forallb_forall in Hf. apply Forall_forall. intros z Hz.
    apply list_elem_of_In, Hf in Hz. unfold is_u8. lia. }
  split.
  - refine (eq_trans (proj1 (counters_saturate 0 0 0 0 cfg [0; 2; 0; 0; 0; 0; 0; 0] _ _ _)) _);
      [by apply Hb|cbn; unfold is_i64; lia|intros ?? [= <- <-]; lia|reflexivity].
  - refine (eq_trans (proj2 (counters_saturate 0 0 0 0 cfg [2; 0; 0; 0; 0; 0; 0; 0] _ _ _)) _);
      [by apply Hb|cbn; unfold is_i64; lia|intros ?? [= <- <-]; lia|reflexivity].
Defined.
