(* ===== verification/Vbt.v ===== *)
(** * Vbt: value based triggers

    vbt/value_based_trigger.cpp, a trigger and how often it may fire;
    vbt/value_based_triggers.cpp, the triggers of a user; and vbt/vbt_scheduler.cpp, the
    thread that waits for the triggers with a duration. Triggers are shared: the list of
    the user and the list of the scheduler have pointers into one heap. *)

From stdpp Require Import strings sorting.
From S2P Require Import Prelude Json ActivePeriod VbtCondition.

#[local] Open Scope list_scope.
#[local] Open Scope Z_scope.

Section vbt.
(** What an action is, what the caller and the data for texts are; and whether two
    configurations of actions are equal. *)
Context {Action Caller Template : Type} (action_eq : Action → Action → bool).

(** ** supla_value_based_trigger *)

Record supla_value_based_trigger := Trigger {
  id : Z;
  channel_id : Z;
  period : active_period;
  action_config : Action;
  on_change_cnd : on_change_condition;
  first_fire_time : timeval;
  last_fire_try_time : timeval;
  min_time_between_firing_usec : Z;
  fire_counter : Z;
  fire_count_limit : Z;
  time_window_sec : Z
}.

Definition new_trigger (i c : Z) (a : Action) (cnd : on_change_condition) (p : active_period)
    : supla_value_based_trigger :=
  Trigger i c p a cnd timeval_zero timeval_zero 100000 0 5 5.

(** The constructor, from the document of the conditions, if there is one that parses. *)
Definition configured_trigger `{CJson json} (i c : Z) (a : Action) (conditions : option json)
    (p : active_period) : supla_value_based_trigger :=
  new_trigger i c a
    match conditions with
    | Some root => apply_json_config root new_condition
    | None => new_condition
    end p.

Definition with_cnd (cnd : on_change_condition) (t : supla_value_based_trigger) :=
  Trigger (id t) (channel_id t) (period t) (action_config t) cnd (first_fire_time t)
    (last_fire_try_time t) (min_time_between_firing_usec t) (fire_counter t)
    (fire_count_limit t) (time_window_sec t).

Definition with_tried (now : timeval) (t : supla_value_based_trigger) :=
  Trigger (id t) (channel_id t) (period t) (action_config t) (on_change_cnd t)
    (first_fire_time t) now (min_time_between_firing_usec t) (fire_counter t)
    (fire_count_limit t) (time_window_sec t).

Definition with_fired (first : timeval) (counter : Z) (t : supla_value_based_trigger) :=
  Trigger (id t) (channel_id t) (period t) (action_config t) (on_change_cnd t) first
    (last_fire_try_time t) (min_time_between_firing_usec t) counter
    (fire_count_limit t) (time_window_sec t).

(** The part of [fire] that limits the number of firings in a window of time. *)
Definition count_fire (now : timeval) (t : supla_value_based_trigger)
    : bool * supla_value_based_trigger :=
  if negb (fire_count_limit t =? 0) then
    let '(first, counter) :=
      if tv_sec (first_fire_time t) =? 0 then (now, fire_counter t)
      else if time_window_sec t <=? tv_sec now - tv_sec (first_fire_time t)
           then (timeval_zero, 0)
           else (first_fire_time t, fire_counter t) in
    let counter := u32 (counter + 1) in
    if fire_count_limit t <? counter then
      (false, with_fired (if counter =? u32 (fire_count_limit t + 1) then now else first)
                counter t)
    else (true, with_fired first counter t)
  else (true, t).

(** [fire] up to the execution of the action: whether it is executed. *)
Definition fire (now : timeval) (t : supla_value_based_trigger)
    : bool * supla_value_based_trigger :=
  if negb (min_time_between_firing_usec t =? 0) then
    if usec_of now - usec_of (last_fire_try_time t) <=? min_time_between_firing_usec t
    then (false, with_tried now t)
    else count_fire now (with_tried now t)
  else count_fire now t.

(** [is_condition_met(channel_id, old_value, new_value)]; the new value is not null, since
    the texts for templates are asked of it. *)
Definition trigger_is_met (channel : Z) (now : timeval) (old : option vbt_value) (new : vbt_value)
    (t : supla_value_based_trigger) : bool * Z * supla_value_based_trigger :=
  if channel =? channel_id t then
    let '(met, ms, c) := values_is_met (on_change_cnd t) now old (Some new) in
    (met, ms, with_cnd c t)
  else (false, 0, t).

Definition trigger_timed_is_met (now : timeval) (t : supla_value_based_trigger)
    : bool * Z * supla_value_based_trigger :=
  let '(met, ms, c) := timed_is_met (on_change_cnd t) now in (met, ms, with_cnd c t).

Definition trigger_eq (t u : supla_value_based_trigger) : bool :=
  (id t =? id u) && (channel_id t =? channel_id u)
  && cnd_eq (on_change_cnd t) (on_change_cnd u)
  && action_eq (action_config t) (action_config u)
  && period_eq (period t) (period u).

(** ** The triggers of a user and the scheduler *)

(** [supla_vbt_condition_result], as it is kept for later. *)
Record condition_result := Result {
  trigger : nat;
  caller : Caller;
  template_data : Template
}.

Record vbt_state := Vbt {
  heap : gmap nat supla_value_based_trigger;
  triggers : list nat;
  delayed : list condition_result
}.

Definition upd_trigger (p : nat) (t : supla_value_based_trigger) (s : vbt_state) : vbt_state :=
  Vbt (<[p := t]> (heap s)) (triggers s) (delayed s).

Definition with_delayed (d : list condition_result) (s : vbt_state) : vbt_state :=
  Vbt (heap s) (triggers s) d.

(** [add_delayed]: a trigger that waits already, or comes twice, is not added. *)
Fixpoint add_delayed (rs : list condition_result) (s : vbt_state) : vbt_state :=
  match rs with
  | [] => s
  | r :: rs =>
      add_delayed rs
        (if bool_decide (trigger r ∈ trigger <$> delayed s) then s
         else with_delayed (delayed s ++ [r]) s)
  end.

(** [supla_vbt_scheduler::erase] *)
Definition scheduler_erase (p : nat) (s : vbt_state) : vbt_state :=
  with_delayed (filter (λ r, trigger r ≠ p) (delayed s)) s.

(** Whether a period is in force at a time, in the time zone of the user. *)
Context (is_active : active_period → timeval → bool).

(** The loop of [on_value_changed] over the triggers; [now p] is the time when the trigger
    [p] is asked. A pointer that is not in the heap is a fault. *)
Fixpoint scan (ps : list nat) (c : Caller) (channel : Z) (old : option vbt_value) (new : vbt_value)
    (data : Template) (now : nat → timeval) (s : vbt_state)
    : option (list condition_result * list nat * vbt_state) :=
  match ps with
  | [] => Some ([], [], s)
  | p :: ps =>
      t ← heap s !! p;
      let '(met, ms, t') := trigger_is_met channel (now p) old new t in
      '(later, matches, s) ← scan ps c channel old new data now (upd_trigger p t' s);
      Some (if met : bool then
              if 0 <? ms then (Result p c data :: later, matches, s)
              else if is_active (period t') (now p) then (later, p :: matches, s)
              else (later, matches, s)
            else (later, matches, s))
  end.

(** The triggers that match are fired; the result is those that execute their actions. *)
Fixpoint fire_all (ps : list nat) (now : nat → timeval) (s : vbt_state)
    : option (list nat * vbt_state) :=
  match ps with
  | [] => Some ([], s)
  | p :: ps =>
      t ← heap s !! p;
      let '(ok, t') := fire (now p) t in
      '(executed, s) ← fire_all ps now (upd_trigger p t' s);
      Some (if ok : bool then p :: executed else executed, s)
  end.

(** [on_value_changed], undisturbed by other threads: the scan and the additions are
    made under two locks (see [removed_trigger_fires] for a [load] in between). *)
Definition on_value_changed (c : Caller) (channel : Z) (old : option vbt_value) (new : vbt_value)
    (data : Template) (now now' : nat → timeval) (s : vbt_state)
    : option (list nat * vbt_state) :=
  '(later, matches, s) ← scan (triggers s) c channel old new data now s;
  fire_all matches now' (add_delayed later s).

(** One round of the scheduler's loop, for the delayed results of one user: what stays
    delayed, what is ready to fire, and the time to wait. *)
Fixpoint check_delayed (rs : list condition_result) (now : nat → timeval) (wait_usec : Z)
    (s : vbt_state) : option (list condition_result * list nat * Z * vbt_state) :=
  match rs with
  | [] => Some ([], [], wait_usec, s)
  | r :: rs =>
      let p := trigger r in
      t ← heap s !! p;
      let '(met, ms, t') := trigger_timed_is_met (now p) t in
      let time_left := ms * 1000 in
      let wait := if (0 <? time_left) && (time_left <? wait_usec) then time_left
                  else wait_usec in
      '(kept, ready, wait, s) ← check_delayed rs now wait (upd_trigger p t' s);
      Some (if time_left <=? 0 then
              (kept, if met && is_active (period t') (now p) then p :: ready else ready, wait, s)
            else (r :: kept, ready, wait, s))
  end.

Definition scheduler_round (now now' : nat → timeval) (s : vbt_state)
    : option (list nat * Z * vbt_state) :=
  '(kept, ready, wait, s) ← check_delayed (delayed s) now 1000000 s;
  '(executed, s) ← fire_all ready now' (with_delayed kept s);
  Some (executed, wait, s).

(** *** load *)

Definition find_id (i : Z) (news : list supla_value_based_trigger)
    : option supla_value_based_trigger := find_first (λ n, i =? id n) news.

(** The first loop: triggers that are gone or changed are removed. *)
Fixpoint remove_old (ps : list nat) (news : list supla_value_based_trigger) (s : vbt_state)
    : option (list nat * vbt_state) :=
  match ps with
  | [] => Some ([], s)
  | p :: ps =>
      t ← heap s !! p;
      let keep := match find_id (id t) news with Some n => trigger_eq n t | None => false end in
      '(kept, s) ← remove_old ps news (if keep then s else scheduler_erase p s);
      Some (if keep then p :: kept else kept, s)
  end.

(** The second loop: triggers that are not there yet are added. *)
Fixpoint add_new (news : list supla_value_based_trigger) (s : vbt_state) : vbt_state :=
  match news with
  | [] => s
  | n :: news =>
      add_new news
        (if bool_decide (Exists (λ p, id <$> heap s !! p = Some (id n)) (triggers s)) then s
         else let p := fresh (dom (heap s)) in
              Vbt (<[p := n]> (heap s)) (triggers s ++ [p]) (delayed s))
  end.

Definition load (news : list supla_value_based_trigger) (s : vbt_state) : option vbt_state :=
  '(kept, s) ← remove_old (triggers s) news s;
  Some (add_new news (Vbt (heap s) kept (delayed s))).
End vbt.

Arguments supla_value_based_trigger : clear implicits.
Arguments condition_result : clear implicits.
Arguments vbt_state : clear implicits.

(** ** How often a trigger fires *)

Section rate.
Context {Action : Type}.
Implicit Type t : supla_value_based_trigger Action.

(** The times, of those at which [fire] is called, at which the action is executed. *)
Fixpoint fires (nows : list timeval) t : list timeval :=
  match nows with
  | [] => []
  | now :: nows =>
      let '(ok, t) := fire now t in
      if ok : bool then now :: fires nows t else fires nows t
  end.

Definition time_ok (x : timeval) : Prop := 0 < tv_sec x ∧ 0 <= tv_usec x < 1000000.

Definition not_after (x y : timeval) : Prop := usec_of x <= usec_of y.

Lemma not_after_sec x y : time_ok x → time_ok y → not_after x y → tv_sec x <= tv_sec y.
Proof. unfold time_ok, not_after, usec_of. lia. Qed.

Definition same_limits t t' : Prop :=
  min_time_between_firing_usec t' = min_time_between_firing_usec t ∧
  fire_count_limit t' = fire_count_limit t ∧ time_window_sec t' = time_window_sec t.

Lemma fire_limits now t : same_limits t (fire now t).2.
Proof. unfold fire, count_fire. repeat case_match; done. Qed.

Lemma fire_last now t :
  0 < min_time_between_firing_usec t → last_fire_try_time (fire now t).2 = now.
Proof.
  intros Hm. unfold fire, count_fire. rewrite (proj2 (Z.eqb_neq _ 0)) by lia.
  cbn [negb]. repeat case_match; done.
Qed.

Lemma fire_gap now t :
  0 < min_time_between_firing_usec t → (fire now t).1 = true →
  min_time_between_firing_usec t < usec_of now - usec_of (last_fire_try_time t).
Proof.
  intros Hm. unfold fire. rewrite (proj2 (Z.eqb_neq _ 0)) by lia. cbn [negb].
  destruct (Z.leb_spec (usec_of now - usec_of (last_fire_try_time t))
              (min_time_between_firing_usec t)); [done|lia].
Qed.

Lemma fires_gaps nows : ∀ t,
  0 < min_time_between_firing_usec t → StronglySorted not_after nows →
  Forall (not_after (last_fire_try_time t)) nows →
  Forall (λ x, min_time_between_firing_usec t < usec_of x - usec_of (last_fire_try_time t))
    (fires nows t) ∧
  StronglySorted (λ x y, min_time_between_firing_usec t < usec_of y - usec_of x) (fires nows t).
Proof.
  induction nows as [|now nows IH]; intros t Hm Hs Hl; [split; constructor|].
  apply StronglySorted_inv in Hs as [Hs Hn]. apply Forall_cons in Hl as [Hl _].
  pose proof (fire_last now t Hm) as Hlast. pose proof (fire_limits now t) as (Hmin & _).
  pose proof (fire_gap now t Hm) as Hgap. cbn [fires].
  destruct (fire now t) as [ok t']; cbn [fst snd] in *.
  destruct (IH t') as [Hf Hss]; [lia|done|by rewrite Hlast|]. rewrite Hmin, Hlast in *.
  assert (Hf' : Forall (λ x, min_time_between_firing_usec t
                  < usec_of x - usec_of (last_fire_try_time t)) (fires nows t')).
  { eapply Forall_impl; [exact Hf|]. unfold not_after in Hl. cbn. intros x Hx. lia. }
  destruct ok; [|done]. split.
  - apply Forall_cons_2; [by apply Hgap|done].
  - constructor; [done|exact Hf].
Qed.

(** The executions in a window of [time_window_sec] seconds. *)
Definition in_window t (a : Z) (x : timeval) : Prop :=
  a <= tv_sec x < a + time_window_sec t.

#[local] Instance in_window_dec t a x : Decision (in_window t a x).
Proof. apply _. Defined.

Definition executions t (a : Z) (nows : list timeval) : Z :=
  Z.of_nat (length (filter (in_window t a) (fires nows t))).

Lemma executions_cons t a now nows :
  executions t a (now :: nows) =
  (if (fire now t).1 && bool_decide (in_window t a now) then 1 else 0)
  + executions (fire now t).2 a nows.
Proof.
  unfold executions. cbn [fires]. pose proof (fire_limits now t) as (_ & _ & Hw).
  destruct (fire now t) as [ok t']. cbn [fst snd] in *.
  assert (He : ∀ l : list timeval, filter (in_window t' a) l = filter (in_window t a) l).
  { intros l. apply list_filter_iff. intros x. unfold in_window. by rewrite Hw. }
  rewrite He. destruct ok; cbn [andb]; [|lia]. rewrite filter_cons.
  case_decide as E; [rewrite bool_decide_eq_true_2 by done; cbn [length]; lia|].
  rewrite bool_decide_eq_false_2 by done. lia.
Qed.

Lemma executions_late nows : ∀ t a,
  Forall (λ x, a + time_window_sec t <= tv_sec x) nows → executions t a nows = 0.
Proof.
  induction nows as [|now nows IH]; intros t a Hl; [done|].
  apply Forall_cons in Hl as [Hn Hl]. rewrite executions_cons.
  destruct (fire_limits now t) as (_ & _ & Hw).
  rewrite bool_decide_eq_false_2 by (unfold in_window; lia).
  rewrite andb_false_r, IH by by rewrite Hw. done.
Qed.

Definition counter_ok t (nows : list timeval) : Prop :=
  0 < fire_count_limit t < 2 ^ 31 ∧ 0 <= fire_counter t ∧ 0 < time_window_sec t ∧
  fire_counter t + Z.of_nat (length nows) < 2 ^ 32.

(** How one firing that is not too fast changes the start of the period and its counter:
    the period starts, is over, or goes on. *)
Definition counts now t (ok : bool) t' : Prop :=
  ∃ first c,
    (tv_sec (first_fire_time t) = 0 ∧ first = now ∧ c = fire_counter t ∨
     tv_sec (first_fire_time t) ≠ 0 ∧
       time_window_sec t <= tv_sec now - tv_sec (first_fire_time t) ∧
       first = timeval_zero ∧ c = 0 ∨
     tv_sec (first_fire_time t) ≠ 0 ∧ first = first_fire_time t ∧ c = fire_counter t) ∧
    fire_counter t' = c + 1 ∧
    (c + 1 <= fire_count_limit t ∧ ok = true ∧ first_fire_time t' = first ∨
     fire_count_limit t < c + 1 ∧ ok = false ∧
       (first_fire_time t' = first ∨ first_fire_time t' = now)).

Lemma count_fire_counts now t :
  0 < fire_count_limit t → 0 <= fire_counter t → fire_counter t + 1 < 2 ^ 32 →
  counts now t (count_fire now t).1 (count_fire now t).2.
Proof.
  intros Hl Hc Hn. unfold count_fire. rewrite (proj2 (Z.eqb_neq _ 0)) by lia. cbn [negb].
  assert (Hcase : ∀ first c, 0 <= c → c + 1 < 2 ^ 32 →
    (tv_sec (first_fire_time t) = 0 ∧ first = now ∧ c = fire_counter t ∨
     tv_sec (first_fire_time t) ≠ 0 ∧
       time_window_sec t <= tv_sec now - tv_sec (first_fire_time t) ∧
       first = timeval_zero ∧ c = 0 ∨
     tv_sec (first_fire_time t) ≠ 0 ∧ first = first_fire_time t ∧ c = fire_counter t) →
    let r := if fire_count_limit t <? u32 (c + 1) then
               (false, with_fired (if u32 (c + 1) =? u32 (fire_count_limit t + 1) then now
                                   else first) (u32 (c + 1)) t)
             else (true, with_fired first (u32 (c + 1)) t) in
    counts now t r.1 r.2).
  { intros first c H0 H1 H. rewrite (u32_id (c + 1)) by (unfold is_u32; lia).
    exists first, c. split; [done|].
    destruct (Z.ltb_spec (fire_count_limit t) (c + 1)); (split; [done|]).
    - right. split; [lia|]. split; [done|]. cbn. case_match; auto.
    - left. split; [lia|]. done. }
  destruct (Z.eqb_spec (tv_sec (first_fire_time t)) 0) as [E|E].
  { apply Hcase; auto. }
  destruct (Z.leb_spec (time_window_sec t) (tv_sec now - tv_sec (first_fire_time t))) as [W|W].
  - apply Hcase; [lia|lia|]. right. left. auto.
  - apply Hcase; [lia|lia|]. right. right. auto.
Qed.

Lemma fire_cases now t :
  0 < fire_count_limit t → 0 <= fire_counter t → fire_counter t + 1 < 2 ^ 32 →
  (fire now t).1 = false ∧ first_fire_time (fire now t).2 = first_fire_time t ∧
    fire_counter (fire now t).2 = fire_counter t ∨
  counts now t (fire now t).1 (fire now t).2.
Proof.
  intros Hl Hc Hn. unfold fire. repeat case_match; [by left|right..].
  - exact (count_fire_counts now (with_tried now t) Hl Hc Hn).
  - exact (count_fire_counts now t Hl Hc Hn).
Qed.

(** The arithmetic of one firing at the second [now]: [first], [c] are the start of the period
    and its counter, [limit] bounds the rest of the executions in the window from [a]
    of [w] seconds. A period of counting that starts in the window is not over before
    it, so it allows the rest of its limit; an older one can be over in the window, and
    another one follows. *)
Definition bounded (a L first c lb n : Z) : Prop :=
  (first ≠ 0 ∧ a <= first ∨ first = 0 ∧ a <= lb → n <= Z.max 0 (L - c)) ∧
  (a <= lb → n <= Z.max 0 (L - c) + L) ∧ n <= 2 * L.

Lemma executions_bounded nows : ∀ t a lb,
  counter_ok t nows → StronglySorted (λ x y, tv_sec x <= tv_sec y) nows →
  Forall (λ x, 0 < tv_sec x ∧ lb <= tv_sec x) nows → tv_sec (first_fire_time t) <= lb →
  bounded a (fire_count_limit t) (tv_sec (first_fire_time t)) (fire_counter t) lb
    (executions t a nows).
Proof.
  induction nows as [|now nows IH]; intros t a lb (Hl & Hc & Hw & Hn) Hs Hp Hfl.
  { unfold bounded, executions. cbn. lia. }
  apply StronglySorted_inv in Hs as [Hs Hle]. apply Forall_cons in Hp as [[Hp0 Hlb] Hp].
  cbn [length] in Hn. rewrite executions_cons.
  destruct (fire_limits now t) as (_ & HL & HW).
  pose proof (fire_cases now t ltac:(lia) Hc ltac:(lia)) as Hcases.
  assert (Hlate : a + time_window_sec t <= tv_sec now → executions (fire now t).2 a nows = 0).
  { intros H. apply executions_late. rewrite HW. eapply Forall_impl; [exact Hle|]. cbn. lia. }
  assert (Hp' : Forall (λ x, 0 < tv_sec x ∧ tv_sec now <= tv_sec x) nows).
  { apply Forall_and. split; [|done]. eapply Forall_impl; [exact Hp|]. by intros x []. }
  specialize (IH (fire now t).2 a (tv_sec now)).
  set (t' := (fire now t).2) in *. rewrite HL in IH.
  assert (Hok : counter_ok t' nows).
  { unfold counter_ok. rewrite HL, HW. split; [done|].
    destruct Hcases as [(_ & _ & ->)|(first & c & H & -> & _)]; [lia|].
    destruct H as [(_ & _ & ->)|[(_ & _ & _ & ->)|(_ & _ & ->)]]; lia. }
  assert (Hfl' : tv_sec (first_fire_time t') <= tv_sec now).
  { destruct Hcases as [(_ & -> & _)|(first & c & H & _ & [(_ & _ & ->)|(_ & _ & [->| ->])])];
      try lia; destruct H as [(_ & -> & _)|[(_ & _ & -> & _)|(_ & -> & _)]]; cbn; lia. }
  specialize (IH Hok Hs Hp' Hfl'). revert IH Hlate. unfold bounded, in_window.
  generalize (executions t' a nows) as n. intros n IH Hlate.
  destruct Hcases as [(-> & E1 & E2)|(first & c & Hfc & E2 & Hex)].
  { rewrite E1, E2 in IH. cbn [andb]. lia. }
  rewrite E2 in IH. clear E2 Hp Hle Hs Hp' Hok Hfl'.
  destruct Hex as [(Hcl & -> & E1)|(Hcl & -> & E1)]; cbn [andb].
  - rewrite E1 in IH. case_bool_decide as Hin;
      destruct Hfc as [(H1 & -> & ->)|[(H1 & H2 & -> & ->)|(H1 & -> & ->)]];
      cbn [tv_sec timeval_zero] in IH; lia.
  - destruct E1 as [E1|E1]; rewrite E1 in IH;
      destruct Hfc as [(H1 & -> & ->)|[(H1 & H2 & -> & ->)|(H1 & -> & ->)]];
      cbn [tv_sec timeval_zero] in IH; lia.
Qed.

(** C31. A trigger does not fire too often. When [fire] is called at any times, in order, two
    executions of the action are more than the minimal time apart, and in a window as
    long as the trigger's (five seconds, unless it is set) there are at most twice as
    many executions as its limit: a period of counting can end within the window. *)
Theorem fire_is_limited t nows a :
  0 < min_time_between_firing_usec t → 0 < fire_count_limit t < 2 ^ 31 →
  0 < time_window_sec t → fire_counter t = 0 → tv_sec (first_fire_time t) = 0 →
  last_fire_try_time t = timeval_zero → Z.of_nat (length nows) < 2 ^ 31 →
  Forall time_ok nows → StronglySorted not_after nows →
  StronglySorted (λ x y, min_time_between_firing_usec t < usec_of y - usec_of x) (fires nows t) ∧
  Z.of_nat (length (filter (λ x, a <= tv_sec x < a + time_window_sec t) (fires nows t)))
  <= 2 * fire_count_limit t.
Proof.
  intros Hm Hl Hw Hc Hfirst Hlast Hn Hok Hs. split.
  - apply fires_gaps; [done|done|]. rewrite Hlast. eapply Forall_impl; [exact Hok|].
    intros x [H1 H2]. unfold not_after, usec_of. cbn. lia.
  - assert (Hsec : StronglySorted (λ x y, tv_sec x <= tv_sec y) nows).
    { clear -Hok Hs. induction Hs as [|x l Hs IH Hx]; [constructor|].
      apply Forall_cons in Hok as [Hx0 Hok]. constructor; [by apply IH|].
      rewrite Forall_forall in Hx, Hok |- *. intros y Hy.
      apply not_after_sec; [done|by apply Hok|by apply Hx]. }
    destruct (executions_bounded nows t a 0) as (_ & _ & H); [|done| |by rewrite Hfirst|].
    + unfold counter_ok. lia.
    + eapply Forall_impl; [exact Hok|]. intros x [H1 _]. lia.
    + unfold executions in H. exact H.
Qed.
End rate.

(** ** The triggers of a user *)

Section system.
Context {Action Caller Template : Type} (action_eq : Action → Action → bool).
Context (is_active : active_period → timeval → bool).
Notation state := (vbt_state Action Caller Template).
Notation result := (condition_result Caller Template).
Implicit Type (s : state) (t : supla_value_based_trigger Action).

(** The part of a trigger that firing and asking leave. *)
Definition same_trigger t t' : Prop :=
  id t' = id t ∧ channel_id t' = channel_id t ∧ period t' = period t ∧
  action_config t' = action_config t.

(** Two states with the same triggers. *)
Definition like s s' : Prop :=
  triggers s' = triggers s ∧
  ∀ p t, heap s !! p = Some t → ∃ t', heap s' !! p = Some t' ∧ same_trigger t t'.

#[export] Instance like_preorder : PreOrder like.
Proof.
  split.
  - intros s. split; [done|]. intros p t Ht. by exists t.
  - intros s1 s2 s3 [H1 H1'] [H2 H2']. split; [congruence|]. intros p t Ht.
    destruct (H1' p t Ht) as (t' & Ht' & ? & ? & ? & ?).
    destruct (H2' p t' Ht') as (t'' & Ht'' & ? & ? & ? & ?).
    exists t''. split; [done|]. repeat split; congruence.
Qed.

Lemma like_upd p t t' s : heap s !! p = Some t → same_trigger t t' → like s (upd_trigger p t' s).
Proof.
  intros Hp Ht. split; [done|]. intros q u Hu. cbn [heap upd_trigger].
  destruct (decide (p = q)) as [<-|Hne].
  - rewrite lookup_insert_eq. exists t'. split; [done|]. congruence.
  - rewrite lookup_insert_ne by done. by exists u.
Qed.

Definition in_heap s (ps : list nat) : Prop := Forall (λ p, is_Some (heap s !! p)) ps.

Lemma in_heap_like s s' ps : like s s' → in_heap s ps → in_heap s' ps.
Proof.
  intros [_ Hl] Hh. eapply Forall_impl; [exact Hh|]. intros p [t Ht].
  destruct (Hl p t Ht) as (t' & -> & _). by eexists.
Qed.

Lemma fire_same now t : same_trigger t (fire now t).2.
Proof. unfold fire, count_fire. repeat case_match; done. Qed.

Lemma trigger_is_met_same channel now old new t :
  same_trigger t (trigger_is_met channel now old new t).2.
Proof. unfold trigger_is_met. repeat case_match; done. Qed.

Lemma trigger_timed_same now t : same_trigger t (trigger_timed_is_met now t).2.
Proof. unfold trigger_timed_is_met. by destruct (timed_is_met _ _) as [[]]. Qed.

(** A state in which triggers were asked, but not fired: only their conditions changed. *)
Definition asked s s' : Prop :=
  triggers s' = triggers s ∧
  ∀ p t, heap s !! p = Some t → ∃ c, heap s' !! p = Some (with_cnd c t).

#[export] Instance asked_preorder : PreOrder asked.
Proof.
  split.
  - intros s. split; [done|]. intros p t Ht. exists (on_change_cnd t). by destruct t.
  - intros s1 s2 s3 [H1 H1'] [H2 H2']. split; [congruence|]. intros p t Ht.
    destruct (H1' p t Ht) as [c Hc]. destruct (H2' p _ Hc) as [c' Hc']. by exists c'.
Qed.

Lemma asked_like s s' : asked s s' → like s s'.
Proof.
  intros [H H']. split; [done|]. intros p t Ht. destruct (H' p t Ht) as [c Hc].
  by exists (with_cnd c t).
Qed.

Lemma asked_upd p t c s : heap s !! p = Some t → asked s (upd_trigger p (with_cnd c t) s).
Proof.
  intros Hp. split; [done|]. intros q u Hu. cbn [heap upd_trigger].
  destruct (decide (p = q)) as [<-|Hne].
  - rewrite lookup_insert_eq. exists c. congruence.
  - rewrite lookup_insert_ne by done. exists (on_change_cnd u). by destruct u.
Qed.

Lemma trigger_is_met_cnd channel now old new t :
  ∃ c, (trigger_is_met channel now old new t).2 = with_cnd c t.
Proof.
  unfold trigger_is_met. destruct (channel =? _); [|exists (on_change_cnd t); by destruct t].
  destruct (values_is_met _ _ _ _) as [[]]. by eexists.
Qed.

Lemma trigger_timed_cnd now t : ∃ c, (trigger_timed_is_met now t).2 = with_cnd c t.
Proof. unfold trigger_timed_is_met. destruct (timed_is_met _ _) as [[]]. by eexists. Qed.

(** What is true of the trigger at a pointer. *)
Definition at_trigger s (P : supla_value_based_trigger Action → Prop) (p : nat) : Prop :=
  ∃ t, heap s !! p = Some t ∧ P t.

Lemma at_here s P p t : heap s !! p = Some t → at_trigger s P p ↔ P t.
Proof. intros Ht. split; [intros (u & Hu & H); congruence|]. intros H. by exists t. Qed.

Lemma at_upd s P p t q : p ≠ q → at_trigger (upd_trigger p t s) P q ↔ at_trigger s P q.
Proof. intros Hne. unfold at_trigger. cbn [heap upd_trigger]. by rewrite lookup_insert_ne. Qed.

(** A loop over pointers keeps the ones for which something is true when each step only
    changes its own trigger. *)
Lemma loop_keeps (P Q : nat → Prop) (b : bool) p ps kept :
  p ∉ ps → (b = true ↔ P p) → (∀ q, q ∈ kept ↔ q ∈ ps ∧ Q q) →
  (∀ q, p ≠ q → Q q ↔ P q) →
  ∀ q, q ∈ (if b then p :: kept else kept) ↔ q ∈ p :: ps ∧ P q.
Proof.
  intros Hp Hb Hk HQ q.
  assert (Hne : q ∈ ps → p ≠ q) by (intros Hq Heq; by subst q).
  assert (Hrest : q ∈ kept ↔ q ∈ ps ∧ P q).
  { rewrite Hk. split; intros [Hq H]; (split; [done|]); by apply (HQ q (Hne Hq)). }
  rewrite elem_of_cons. destruct b.
  - rewrite elem_of_cons, Hrest. split; [intros [->|]|]; [|tauto|tauto]. split; [auto|].
    by apply Hb.
  - rewrite Hrest. split; [tauto|]. intros [[->|] HP]; [|tauto]. discriminate (proj2 Hb HP).
Qed.

Lemma sublist_if {A} (b : bool) (x : A) l k :
  l `sublist_of` k → (if b then x :: l else l) `sublist_of` x :: k.
Proof. destruct b; by constructor. Qed.

(** [fire] executes the action. *)
Definition fires_now (now : nat → timeval) s (p : nat) : Prop :=
  at_trigger s (λ t, (fire (now p) t).1 = true) p.

Lemma fire_all_spec now ps : ∀ s, in_heap s ps → NoDup ps →
  ∃ ex s', fire_all ps now s = Some (ex, s') ∧ like s s' ∧ delayed s' = delayed s ∧
    ex `sublist_of` ps ∧ ∀ p, p ∈ ex ↔ p ∈ ps ∧ fires_now now s p.
Proof.
  induction ps as [|p ps IH]; intros s Hh Hnd.
  { exists [], s. split; [done|]. split; [reflexivity|]. split; [done|]. split; [done|].
    intros p. rewrite elem_of_nil. tauto. }
  apply Forall_cons in Hh as [[t Ht] Hh]. apply NoDup_cons in Hnd as [Hp Hnd].
  cbn [fire_all]. rewrite Ht. cbn [mbind option_bind].
  pose proof (fire_same (now p) t) as Hs. destruct (fire (now p) t) as [ok t'] eqn:E.
  cbn [snd] in Hs. pose proof (like_upd p t t' s Ht Hs) as Hlu.
  destruct (IH (upd_trigger p t' s)) as (ex & s' & -> & Hl & Hd & Hsub & Hin).
  { by eapply in_heap_like. }
  { done. }
  cbn [mbind option_bind]. eexists _, s'. split; [done|]. split; [by etrans|].
  split; [done|]. split; [by apply sublist_if|].
  apply (loop_keeps _ (fires_now now (upd_trigger p t' s))); [done| |done|].
  - unfold fires_now. rewrite (at_here _ _ p t Ht). by rewrite E.
  - intros q Hne. unfold fires_now. by apply at_upd.
Qed.

(** A trigger that a change of a value fires, and one that waits from then on. *)
Definition matches_now (channel : Z) (old : option vbt_value) (new : vbt_value)
    (now : nat → timeval) s (p : nat) : Prop :=
  at_trigger s (λ t, ∃ ms, channel_id t = channel ∧
    (values_is_met (on_change_cnd t) (now p) old (Some new)).1 = (true, ms) ∧ ms <= 0 ∧
    is_active (period t) (now p) = true) p.

Definition starts_waiting (channel : Z) (old : option vbt_value) (new : vbt_value)
    (now : nat → timeval) s (p : nat) : Prop :=
  at_trigger s (λ t, ∃ ms, channel_id t = channel ∧
    (values_is_met (on_change_cnd t) (now p) old (Some new)).1 = (true, ms) ∧ 0 < ms) p.

(** One trigger in the loop of [on_value_changed]. *)
Lemma scan_trigger channel old new now s p t met ms t' :
  heap s !! p = Some t → trigger_is_met channel (now p) old new t = (met, ms, t') →
  (met && (0 <? ms) = true ↔ starts_waiting channel old new now s p) ∧
  (met && negb (0 <? ms) && is_active (period t') (now p) = true ↔
   matches_now channel old new now s p).
Proof.
  intros Ht Em. unfold starts_waiting, matches_now. rewrite !(at_here _ _ p t Ht).
  unfold trigger_is_met in Em. destruct (Z.eqb_spec channel (channel_id t)) as [E|E].
  2:{ injection Em as <- <- <-. split; (split; [done|]); intros (m & H & _); congruence. }
  destruct (values_is_met (on_change_cnd t) (now p) old (Some new)) as [[m' ms'] c'].
  injection Em as -> -> <-. cbn [fst period with_cnd].
  rewrite !andb_true_iff, negb_true_iff, Z.ltb_lt, Z.ltb_ge. split; split.
  - intros [-> H]. by exists ms.
  - intros (m & _ & [= -> ->] & H). done.
  - intros [[-> H] Ha]. by exists ms.
  - intros (m & _ & [= -> ->] & H & Ha). done.
Qed.

Lemma scan_spec c channel old new data now ps : ∀ s, in_heap s ps → NoDup ps →
  ∃ later found s', scan is_active ps c channel old new data now s = Some (later, found, s') ∧
    asked s s' ∧ delayed s' = delayed s ∧
    (trigger <$> later) `sublist_of` ps ∧
    (∀ p, p ∈ trigger <$> later ↔ p ∈ ps ∧ starts_waiting channel old new now s p) ∧
    found `sublist_of` ps ∧
    (∀ p, p ∈ found ↔ p ∈ ps ∧ matches_now channel old new now s p).
Proof.
  induction ps as [|p ps IH]; intros s Hh Hnd.
  { exists [], [], s. split; [done|]. split; [reflexivity|]. split; [done|]. split; [done|].
    split; [|split; [done|]]; intros p; cbn; rewrite elem_of_nil; tauto. }
  apply Forall_cons in Hh as [[t Ht] Hh]. apply NoDup_cons in Hnd as [Hp Hnd].
  cbn [scan]. rewrite Ht. cbn [mbind option_bind].
  destruct (trigger_is_met_cnd channel (now p) old new t) as [cnd Hc].
  destruct (trigger_is_met channel (now p) old new t) as [[met ms] t'] eqn:Em.
  cbn [snd] in Hc. destruct (scan_trigger _ _ _ _ s p t _ _ _ Ht Em) as [Hw Hm].
  rewrite Hc in Hm |- *. pose proof (asked_upd p t cnd s Ht) as Hlu.
  destruct (IH (upd_trigger p (with_cnd cnd t) s))
    as (later & found & s' & -> & Hl & Hd & Hsl & Hil & Hsf & Hif).
  { eapply in_heap_like; [by apply asked_like|done]. }
  { done. }
  cbn [mbind option_bind].
  exists (if met && (0 <? ms) then Result p c data :: later else later),
    (if met && negb (0 <? ms) && is_active (period (with_cnd cnd t)) (now p)
     then p :: found else found), s'.
  split; [by repeat case_match|]. split; [by etrans|]. split; [done|].
  assert (Hmap : ∀ b : bool, trigger <$> (if b then Result p c data :: later else later)
                   = if b then p :: (trigger <$> later) else trigger <$> later) by by intros [].
  rewrite Hmap. split; [by apply sublist_if|]. split; [|split; [by apply sublist_if|]].
  - eapply loop_keeps; [done..|]. intros q Hne. by apply at_upd.
  - eapply loop_keeps; [done..|]. intros q Hne. by apply at_upd.
Qed.

(** The triggers that wait. *)
Definition waiting s : list nat := trigger <$> delayed s.

Lemma add_delayed_spec rs : ∀ s, NoDup (waiting s) →
  let s' := add_delayed rs s in
  heap s' = heap s ∧ triggers s' = triggers s ∧ NoDup (waiting s') ∧
  ∀ p, p ∈ waiting s' ↔ p ∈ waiting s ∨ p ∈ trigger <$> rs.
Proof.
  induction rs as [|r rs IH]; intros s Hnd; cbn [add_delayed].
  { split; [done|]. split; [done|]. split; [done|]. intros p. cbn. rewrite elem_of_nil. tauto. }
  setoid_rewrite fmap_cons. setoid_rewrite elem_of_cons. case_bool_decide as Hin.
  - destruct (IH s Hnd) as (H1 & H2 & H3 & H4). split; [done|]. split; [done|]. split; [done|].
    intros p. rewrite H4. split; [tauto|]. intros [|[->|]]; [tauto| |tauto]. by left.
  - destruct (IH (with_delayed (delayed s ++ [r]) s)) as (H1 & H2 & H3 & H4).
    { unfold waiting. cbn [delayed with_delayed]. rewrite fmap_app. apply NoDup_app.
      split; [done|]. split; [|apply NoDup_singleton].
      intros q Hq Hq'. apply list_elem_of_singleton in Hq' as ->. done. }
    split; [done|]. split; [done|]. split; [done|]. intros p. rewrite H4. unfold waiting.
    cbn [delayed with_delayed]. rewrite fmap_app, elem_of_app.
    change (trigger <$> [r]) with [trigger r]. rewrite list_elem_of_singleton. tauto.
Qed.

(** A trigger whose time is over, and one that waits on. *)
Definition due_now (now : nat → timeval) s (p : nat) : Prop :=
  at_trigger s (λ t, ∃ ms, (timed_is_met (on_change_cnd t) (now p)).1 = (true, ms) ∧ ms <= 0 ∧
    is_active (period t) (now p) = true) p.

Definition waits_on (now : nat → timeval) s (p : nat) : Prop :=
  at_trigger s (λ t, 0 < (timed_is_met (on_change_cnd t) (now p)).1.2) p.

(** The scheduler does not sleep longer than the trigger has to wait. *)
Definition sleeps (now : nat → timeval) (wait : Z) s (p : nat) : Prop :=
  at_trigger s (λ t, wait <= (timed_is_met (on_change_cnd t) (now p)).1.2 * 1000) p.

(** One delayed trigger in a round. *)
Lemma check_one now s p t met ms t' :
  heap s !! p = Some t → trigger_timed_is_met (now p) t = (met, ms, t') →
  (negb (ms * 1000 <=? 0) = true ↔ waits_on now s p) ∧
  ((ms * 1000 <=? 0) && (met && is_active (period t') (now p)) = true ↔ due_now now s p) ∧
  ∀ wait, wait <= ms * 1000 → sleeps now wait s p.
Proof.
  intros Ht Em. unfold waits_on, due_now, sleeps. rewrite !(at_here _ _ p t Ht).
  unfold trigger_timed_is_met in Em.
  destruct (timed_is_met (on_change_cnd t) (now p)) as [[m' ms'] c'] eqn:Et.
  injection Em as -> -> <-. cbn [fst snd period with_cnd].
  rewrite negb_true_iff, !andb_true_iff, Z.leb_le, Z.leb_gt. split; [lia|]. split; [split|].
  - intros (H & -> & Ha). exists ms. split; [done|]. split; [lia|done].
  - intros (m & [= -> ->] & H & Ha). split; [lia|done].
  - intros wait H. exists t. rewrite Et. by split.
Qed.

Lemma check_delayed_spec now rs : ∀ wait s,
  in_heap s (trigger <$> rs) → NoDup (trigger <$> rs) → 0 < wait →
  ∃ kept ready wait' s', check_delayed is_active rs now wait s = Some (kept, ready, wait', s') ∧
    asked s s' ∧ delayed s' = delayed s ∧
    (trigger <$> kept) `sublist_of` (trigger <$> rs) ∧
    (∀ p, p ∈ trigger <$> kept ↔ p ∈ trigger <$> rs ∧ waits_on now s p) ∧
    ready `sublist_of` (trigger <$> rs) ∧
    (∀ p, p ∈ ready ↔ p ∈ trigger <$> rs ∧ due_now now s p) ∧
    0 < wait' <= wait ∧ Forall (sleeps now wait' s) (trigger <$> kept).
Proof.
  induction rs as [|r rs IH]; intros wait s Hh Hnd Hw.
  { exists [], [], wait, s. split; [done|]. split; [reflexivity|]. split; [done|]. split; [done|].
    split; [|split; [done|split; [|split; [lia|constructor]]]];
      intros p; cbn; rewrite elem_of_nil; tauto. }
  rewrite fmap_cons in *. set (p := trigger r) in *.
  apply Forall_cons in Hh as [[t Ht] Hh]. apply NoDup_cons in Hnd as [Hp Hnd].
  cbn [check_delayed]. fold p. rewrite Ht. cbn [mbind option_bind].
  destruct (trigger_timed_cnd (now p) t) as [cnd Hc].
  destruct (trigger_timed_is_met (now p) t) as [[met ms] t'] eqn:Em. cbn [snd] in Hc.
  destruct (check_one now s p t _ _ _ Ht Em) as (Hon & Hdue & Hsl).
  rewrite Hc in Hdue |- *. pose proof (asked_upd p t cnd s Ht) as Hlu.
  set (w := if (0 <? ms * 1000) && (ms * 1000 <? wait) then ms * 1000 else wait).
  assert (Hwb : 0 < w <= wait ∧ (0 < ms * 1000 → w <= ms * 1000)).
  { unfold w. destruct (Z.ltb_spec 0 (ms * 1000)), (Z.ltb_spec (ms * 1000) wait);
      cbn [andb]; lia. }
  destruct (IH w (upd_trigger p (with_cnd cnd t) s))
    as (kept & ready & w' & s' & -> & Hl & Hd & Hsk & Hik & Hsr & Hir & Hw' & Hst);
    [eapply in_heap_like; [by apply asked_like|done]|done|lia|].
  cbn [mbind option_bind].
  exists (if negb (ms * 1000 <=? 0) then r :: kept else kept),
    (if (ms * 1000 <=? 0) && (met && is_active (period (with_cnd cnd t)) (now p))
     then p :: ready else ready), w', s'.
  split; [by destruct (ms * 1000 <=? 0)|]. split; [by etrans|]. split; [done|].
  assert (Hmap : ∀ b : bool, trigger <$> (if b then r :: kept else kept)
                   = if b then p :: (trigger <$> kept) else trigger <$> kept) by by intros [].
  rewrite Hmap. split; [by apply sublist_if|]. split; [|split; [by apply sublist_if|]].
  - eapply loop_keeps; [done..|]. intros q Hne. by apply at_upd.
  - split; [|split; [lia|]].
    + eapply loop_keeps; [done..|]. intros q Hne. by apply at_upd.
    + assert (Hst' : Forall (sleeps now w' s) (trigger <$> kept)).
      { rewrite Forall_forall in Hst |- *. intros q Hq. pose proof (Hst q Hq) as H.
        eapply at_upd; [|exact H]. intros <-. apply Hik in Hq as [Hq _]. done. }
      destruct (Z.leb_spec (ms * 1000) 0); [done|]. apply Forall_cons_2; [|done].
      apply Hsl. lia.
Qed.

(** ** The invariant *)

Record state_ok s : Prop := {
  ok_heap : in_heap s (triggers s);
  ok_triggers : NoDup (triggers s);
  ok_ids : ∀ p q t u, p ∈ triggers s → q ∈ triggers s → heap s !! p = Some t →
             heap s !! q = Some u → id t = id u → p = q;
  ok_delayed : NoDup (waiting s);
  ok_known : ∀ p, p ∈ waiting s → p ∈ triggers s
}.

Lemma ok_some s p : state_ok s → p ∈ triggers s → is_Some (heap s !! p).
Proof.
  intros Hok Hp. pose proof (ok_heap s Hok) as H. unfold in_heap in H.
  rewrite Forall_forall in H. by apply H.
Qed.

Lemma ok_in_heap s ps : state_ok s → (∀ p, p ∈ ps → p ∈ triggers s) → in_heap s ps.
Proof. intros Hok H. apply Forall_forall. intros p Hp. by apply ok_some, H. Qed.

Lemma like_ok s s' d :
  state_ok s → like s s' → NoDup (trigger <$> d) → (∀ p, p ∈ trigger <$> d → p ∈ triggers s) →
  state_ok (with_delayed d s').
Proof.
  intros Hok [Ht Hl] Hd Hk. split; cbn [heap triggers delayed with_delayed].
  - rewrite Ht. change (in_heap s' (triggers s)). eapply (in_heap_like s); [done|apply Hok].
  - rewrite Ht. apply Hok.
  - rewrite Ht. intros p q t u Hp Hq Hpt Hqu Hid.
    destruct (ok_some s p Hok Hp) as [t0 Ht0], (ok_some s q Hok Hq) as [u0 Hu0].
    destruct (Hl p t0 Ht0) as (t1 & Ht1 & Hi1 & _), (Hl q u0 Hu0) as (u1 & Hu1 & Hi2 & _).
    rewrite Hpt in Ht1. rewrite Hqu in Hu1. simplify_eq.
    apply (ok_ids s Hok p q t0 u0); congruence.
  - done.
  - intros p Hp. rewrite Ht. by apply Hk.
Qed.

Lemma with_own_delayed s : with_delayed (delayed s) s = s.
Proof. by destruct s. Qed.

Lemma fire_with_cnd now c t : (fire now (with_cnd c t)).1 = (fire now t).1.
Proof. unfold fire, count_fire. cbn. repeat case_match; done. Qed.

(** Asking does not change which triggers execute. *)
Lemma fires_now_asked now s s' p :
  asked s s' → is_Some (heap s !! p) → fires_now now s' p ↔ fires_now now s p.
Proof.
  intros [_ Ha] [t Ht]. destruct (Ha p t Ht) as [c Hc]. unfold fires_now.
  rewrite (at_here s _ p t Ht), (at_here s' _ p _ Hc). by rewrite fire_with_cnd.
Qed.

Lemma on_value_changed_ok c channel old new data now now' s : state_ok s →
  ∃ ex s', on_value_changed is_active c channel old new data now now' s = Some (ex, s') ∧
    state_ok s' ∧ NoDup ex ∧
    (∀ p, p ∈ ex ↔ p ∈ triggers s ∧ matches_now channel old new now s p ∧ fires_now now' s p) ∧
    (∀ p, p ∈ waiting s' ↔
       p ∈ waiting s ∨ p ∈ triggers s ∧ starts_waiting channel old new now s p).
Proof.
  intros Hok. unfold on_value_changed.
  destruct (scan_spec c channel old new data now (triggers s) s) as
    (later & found & s1 & -> & Hl1 & Hd1 & Hsl & Hil & Hsf & Hif); [apply Hok..|].
  cbn [mbind option_bind].
  destruct (add_delayed_spec later s1) as (A1 & A2 & A3 & A4).
  { unfold waiting. rewrite Hd1. apply Hok. }
  set (s2 := add_delayed later s1) in *. unfold waiting in A4 at 2. rewrite Hd1 in A4.
  assert (Hl2 : asked s s2).
  { destruct Hl1 as [T1 L1]. split; [congruence|]. intros p t Ht. rewrite A1. by apply L1. }
  assert (Hok2 : state_ok s2).
  { rewrite <- (with_own_delayed s2). apply (like_ok s); [done|by apply asked_like|done|].
    intros p [Hp|Hp]%A4; [by apply Hok|by apply Hil]. }
  assert (Hfound : ∀ p, p ∈ found → p ∈ triggers s) by by intros p [Hp _]%Hif.
  destruct (fire_all_spec now' found s2) as (ex & s3 & -> & Hl3 & Hd3 & Hse & Hie).
  { apply (in_heap_like s); [by apply asked_like|]. by apply ok_in_heap. }
  { eapply sublist_NoDup; [|done]. apply Hok. }
  exists ex, s3. split; [done|]. split; [|split; [|split]].
  - rewrite <- (with_own_delayed s3), Hd3. apply (like_ok s2); [done|done|apply Hok2..].
  - eapply sublist_NoDup; [|by etrans]. apply Hok.
  - intros p. rewrite Hie, Hif. split.
    + intros [[Hp Hm] Hf]. split; [done|]. split; [done|].
      by apply (fires_now_asked now' s s2 p Hl2 (ok_some s p Hok Hp)).
    + intros (Hp & Hm & Hf). split; [done|].
      by apply (fires_now_asked now' s s2 p Hl2 (ok_some s p Hok Hp)).
  - intros p. unfold waiting at 1. rewrite Hd3. fold (waiting s2). rewrite A4, Hil. done.
Qed.

Lemma scheduler_round_ok now now' s : state_ok s →
  ∃ ex wait s', scheduler_round is_active now now' s = Some (ex, wait, s') ∧ state_ok s' ∧
    NoDup ex ∧
    (∀ p, p ∈ ex ↔ p ∈ waiting s ∧ due_now now s p ∧ fires_now now' s p) ∧
    (∀ p, p ∈ waiting s' ↔ p ∈ waiting s ∧ waits_on now s p) ∧
    0 < wait <= 1000000 ∧ Forall (sleeps now wait s) (waiting s').
Proof.
  intros Hok. unfold scheduler_round.
  destruct (check_delayed_spec now (delayed s) 1000000 s) as
    (kept & ready & w & s1 & -> & Hl1 & Hd1 & Hsk & Hik & Hsr & Hir & Hw & Hst);
    [apply ok_in_heap; [done|apply Hok]|apply Hok|lia|].
  cbn [mbind option_bind].
  assert (Hok1 : state_ok (with_delayed kept s1)).
  { apply (like_ok s); [done|by apply asked_like| |].
    - eapply sublist_NoDup; [by apply ok_delayed|done].
    - intros p [Hp _]%Hik. by apply Hok. }
  assert (Hready : ∀ p, p ∈ ready → p ∈ triggers s).
  { intros p [Hp _]%Hir. by apply Hok. }
  destruct (fire_all_spec now' ready (with_delayed kept s1))
    as (ex & s3 & -> & Hl3 & Hd3 & Hse & Hie).
  { apply (in_heap_like s); [by apply asked_like|]. by apply ok_in_heap. }
  { eapply sublist_NoDup; [|done]. by apply ok_delayed. }
  cbn [mbind option_bind]. exists ex, w, s3. split; [done|]. split; [|split; [|split; [|split]]].
  - rewrite <- (with_own_delayed s3), Hd3.
    apply (like_ok (with_delayed kept s1)); [done|done|apply Hok1..].
  - eapply sublist_NoDup; [|by etrans]. by apply ok_delayed.
  - intros p. rewrite Hie, Hir. change (trigger <$> delayed s) with (waiting s).
    change (fires_now now' (with_delayed kept s1) p) with (fires_now now' s1 p). split.
    + intros [[Hp Hm] Hf]. split; [done|]. split; [done|].
      by apply (fires_now_asked now' s s1 p Hl1 (ok_some s p Hok (ok_known s Hok p Hp))).
    + intros (Hp & Hm & Hf). split; [done|].
      by apply (fires_now_asked now' s s1 p Hl1 (ok_some s p Hok (ok_known s Hok p Hp))).
  - intros p. unfold waiting at 1. rewrite Hd3. by rewrite <- Hik.
  - split; [done|]. unfold waiting. by rewrite Hd3.
Qed.

(** *** load *)

Lemma list_filter_all {A} (P : A → Prop) `{∀ x, Decision (P x)} (l : list A) :
  (∀ x, x ∈ l → P x) → filter P l = l.
Proof.
  induction l as [|x l IH]; intros HP; [done|].
  rewrite filter_cons_True by (apply HP, elem_of_cons; auto). f_equal. apply IH.
  intros y Hy. apply HP, elem_of_cons. auto.
Qed.

Lemma NoDup_fmap_inj_in {A B} (f : A → B) (l : list A) x y :
  NoDup (f <$> l) → x ∈ l → y ∈ l → f x = f y → x = y.
Proof.
  induction l as [|z l IH]; [by intros _ Hx%elem_of_nil|]. rewrite fmap_cons, NoDup_cons.
  intros [Hz Hnd] [->|Hx]%elem_of_cons [->|Hy]%elem_of_cons E; [done|..|by apply IH].
  - destruct Hz. rewrite E. by apply list_elem_of_fmap_2.
  - destruct Hz. rewrite <- E. by apply list_elem_of_fmap_2.
Qed.

Lemma filter_iff_in {A} (P Q : A → Prop) `{∀ x, Decision (P x)} `{∀ x, Decision (Q x)}
    (l : list A) :
  (∀ x, x ∈ l → P x ↔ Q x) → filter P l = filter Q l.
Proof.
  induction l as [|x l IH]; intros HP; [done|]. rewrite !filter_cons.
  pose proof (HP x ltac:(by left)) as Hx. rewrite (IH ltac:(intros; apply HP; by right)).
  repeat case_decide; tauto.
Qed.

Implicit Type news : list (supla_value_based_trigger Action).

(** A pointer that [load] keeps. *)
Definition keeps news s (p : nat) : bool :=
  match heap s !! p with
  | Some t => match find_id (id t) news with Some n => trigger_eq action_eq n t | None => false end
  | None => false
  end.

Lemma remove_old_spec news ps : ∀ s, in_heap s ps →
  ∃ s', remove_old action_eq ps news s = Some (filter (λ p, keeps news s p = true) ps, s') ∧
    heap s' = heap s ∧ triggers s' = triggers s ∧
    delayed s' = filter (λ r, trigger r ∈ ps → keeps news s (trigger r) = true) (delayed s).
Proof.
  induction ps as [|p ps IH]; intros s Hh.
  { exists s. split; [done|]. split; [done|]. split; [done|].
    rewrite list_filter_all; [done|]. intros r _ Hr. by apply elem_of_nil in Hr. }
  apply Forall_cons in Hh as [[t Ht] Hh]. cbn [remove_old]. rewrite Ht.
  cbn [mbind option_bind]. rewrite filter_cons.
  assert (Hk : keeps news s p =
    match find_id (id t) news with Some n => trigger_eq action_eq n t | None => false end).
  { unfold keeps. by rewrite Ht. }
  rewrite <- Hk. destruct (keeps news s p) eqn:E.
  - destruct (IH s Hh) as (s' & -> & H1 & H2 & H3). exists s'. cbn [mbind option_bind].
    rewrite decide_True by done. split; [done|]. split; [done|]. split; [done|].
    rewrite H3. apply list_filter_iff. intros r. rewrite elem_of_cons.
    split; [|by auto]. intros H [->|]; auto.
  - destruct (IH (scheduler_erase p s) Hh) as (s' & -> & H1 & H2 & H3). exists s'.
    cbn [mbind option_bind]. rewrite decide_False by done.
    split; [done|]. split; [done|]. split; [done|]. rewrite H3. cbn [delayed scheduler_erase with_delayed].
    rewrite list_filter_filter. apply list_filter_iff. intros r. rewrite elem_of_cons.
    change (keeps news (scheduler_erase p s) (trigger r)) with (keeps news s (trigger r)).
    split; [intros [H Hne] [|]; [done|by apply H]|].
    intros H. split; [by auto|]. intros Heq. rewrite Heq in H. rewrite E in H. discriminate H. by left.
Qed.

Definition has_id s (i : Z) : Prop := Exists (λ p, id <$> heap s !! p = Some i) (triggers s).

Definition add_one (n : supla_value_based_trigger Action) s : state :=
  let p := fresh (dom (heap s)) in Vbt (<[p := n]> (heap s)) (triggers s ++ [p]) (delayed s).

Lemma heap_fresh s : heap s !! fresh (dom (heap s)) = None.
Proof. apply not_elem_of_dom, is_fresh. Qed.

Lemma has_id_intro s p t : p ∈ triggers s → heap s !! p = Some t → has_id s (id t).
Proof. intros Hp Ht. apply Exists_exists. exists p. by rewrite Ht. Qed.

Lemma add_one_ok n s : state_ok s → ¬ has_id s (id n) → state_ok (add_one n s).
Proof.
  intros Hok Hid. pose proof (heap_fresh s) as Hfr. unfold add_one.
  set (q := fresh (dom (heap s))) in *. pose proof (ok_heap s Hok) as Hh.
  unfold in_heap in Hh. rewrite Forall_forall in Hh.
  assert (Hne : ∀ p, p ∈ triggers s → q ≠ p).
  { intros p Hp <-. destruct (Hh q Hp) as [t Ht]. congruence. }
  split; cbn [heap triggers delayed].
  - apply Forall_forall. cbn [heap]. intros p [Hp| ->%list_elem_of_singleton]%elem_of_app.
    + rewrite lookup_insert_ne by auto. auto.
    + rewrite lookup_insert_eq. by eexists.
  - apply NoDup_app. split; [apply Hok|]. split; [|apply NoDup_singleton].
    intros p Hp ->%list_elem_of_singleton. by apply (Hne q).
  - intros p r t u [Hp| ->%list_elem_of_singleton]%elem_of_app
      [Hr| ->%list_elem_of_singleton]%elem_of_app Ht Hu E;
      rewrite ?lookup_insert_eq, ?lookup_insert_ne in * by auto; simplify_eq; [|..|done].
    + by apply (ok_ids s Hok p r t u).
    + destruct Hid. rewrite <- E. by eapply has_id_intro.
    + destruct Hid. rewrite E. by eapply has_id_intro.
  - apply Hok.
  - intros p Hp. apply elem_of_app. left. by apply Hok.
Qed.

(** What [add_new] leaves: the state before, and what comes with the new triggers. *)
Lemma add_new_spec news : ∀ s, state_ok s → NoDup (id <$> news) →
  let s' := add_new news s in
  state_ok s' ∧ delayed s' = delayed s ∧
  (∀ p t, heap s !! p = Some t → heap s' !! p = Some t) ∧
  (∀ p, p ∈ triggers s → p ∈ triggers s') ∧
  (∀ p t, p ∈ triggers s' → heap s' !! p = Some t →
     p ∈ triggers s ∨ heap s !! p = None ∧ t ∈ news) ∧
  (∀ n, n ∈ news → ∃ p t, p ∈ triggers s' ∧ heap s' !! p = Some t ∧ id t = id n ∧
     (t = n ∨ p ∈ triggers s)).
Proof.
  induction news as [|n news IH]; intros s Hok Hnd; cbn [add_new].
  { split; [done|]. split; [done|]. split; [done|]. split; [done|]. split; [by auto|].
    by intros n Hn%elem_of_nil. }
  rewrite fmap_cons in Hnd. apply NoDup_cons in Hnd as [Hn Hnd].
  case_bool_decide as Hid.
  - destruct (IH s Hok Hnd) as (H1 & H2 & H3 & H4 & H5 & H6).
    split; [done|]. split; [done|]. split; [done|]. split; [done|]. split.
    + intros p t Hp Ht. destruct (H5 p t Hp Ht) as [|[]]; [by auto|].
      right. split; [done|]. apply elem_of_cons. auto.
    + intros m [->|Hm]%elem_of_cons; [|by apply H6].
      apply Exists_exists in Hid as (p & Hp & Hpid).
      apply fmap_Some in Hpid as (t & Ht & Et). exists p, t. auto.
  - pose proof (add_one_ok n s Hok Hid) as Hok1. pose proof (heap_fresh s) as Hfr.
    change (Vbt _ _ _) with (add_one n s).
    destruct (IH (add_one n s) Hok1 Hnd) as (H1 & H2 & H3 & H4 & H5 & H6).
    set (q := fresh (dom (heap s))) in *.
    assert (Hq : heap (add_new news (add_one n s)) !! q = Some n).
    { apply H3. cbn [heap add_one]. apply lookup_insert_eq. }
    split; [done|]. split; [done|]. split; [|split; [|split]].
    + intros p t Ht. apply H3. cbn [heap add_one]. rewrite lookup_insert_ne; [done|].
      fold q. congruence.
    + intros p Hp. apply H4, elem_of_app. auto.
    + intros p t Hp Ht. rewrite elem_of_cons. destruct (H5 p t Hp Ht) as [Hin|[Hnone Hin]].
      * apply elem_of_app in Hin as [|Hin]; [by auto|]. apply list_elem_of_singleton in Hin as ->.
        right. fold q in Ht |- *. split; [done|]. left. congruence.
      * right. split; [|by auto]. cbn [heap add_one] in Hnone. fold q in Hnone.
        apply lookup_insert_None in Hnone. tauto.
    + intros m [->|Hm]%elem_of_cons.
      { exists q, n. split; [|auto]. apply H4, elem_of_app. right. by apply list_elem_of_singleton. }
      destruct (H6 m Hm) as (p & t & Hp & Ht & Et & Hcase). exists p, t.
      split; [done|]. split; [done|]. split; [done|]. destruct Hcase as [|Hin]; [by auto|].
      apply elem_of_app in Hin as [|Hin]; [by auto|]. apply list_elem_of_singleton in Hin as ->.
      destruct Hn. fold q in Ht. assert (t = n) as -> by congruence. rewrite Et.
      by apply list_elem_of_fmap_2.
Qed.

(** What [load] has done: the triggers are those of the database, the ones that did not
    change kept their object with its state, and only triggers that are still there wait. *)
Definition loaded news s s' : Prop :=
  (∀ n, n ∈ news → ∃ p t, p ∈ triggers s' ∧ heap s' !! p = Some t ∧ id t = id n ∧
     (t = n ∨ p ∈ triggers s ∧ heap s !! p = Some t ∧ trigger_eq action_eq n t = true)) ∧
  (∀ p, p ∈ triggers s' → ∃ t n, heap s' !! p = Some t ∧ n ∈ news ∧ id t = id n) ∧
  delayed s' = filter (λ r, trigger r ∈ triggers s') (delayed s).

Lemma keeps_inv news s p : keeps news s p = true →
  ∃ t n, heap s !! p = Some t ∧ n ∈ news ∧ id t = id n ∧ trigger_eq action_eq n t = true.
Proof.
  unfold keeps. destruct (heap s !! p) as [t|]; [|done].
  destruct (find_id (id t) news) as [n|] eqn:E; [|done]. intros H.
  apply find_first_Some in E as [E Hin]. exists t, n. split; [done|]. split; [done|].
  split; [lia|done].
Qed.

Lemma kept_ok news s d : state_ok s →
  d = filter (λ r, trigger r ∈ triggers s → keeps news s (trigger r) = true) (delayed s) →
  state_ok (Vbt (heap s) (filter (λ p, keeps news s p = true) (triggers s)) d).
Proof.
  intros Hok ->. split; cbn [heap triggers delayed].
  - apply Forall_forall. intros p [_ Hp]%list_elem_of_filter.
    exact (ok_some s p Hok Hp).
  - apply NoDup_filter, Hok.
  - intros p q t u [_ Hp]%list_elem_of_filter [_ Hq]%list_elem_of_filter.
    by apply (ok_ids s Hok).
  - eapply sublist_NoDup; [by apply ok_delayed|]. apply fmap_sublist, sublist_filter.
  - intros p Hp. apply list_elem_of_fmap in Hp as (r & -> & [Hr Hin]%list_elem_of_filter).
    pose proof (ok_known s Hok _ (list_elem_of_fmap_2 trigger _ _ Hin)).
    apply list_elem_of_filter. auto.
Qed.

Lemma load_ok news s : state_ok s → NoDup (id <$> news) →
  ∃ s', load action_eq news s = Some s' ∧ state_ok s' ∧ loaded news s s'.
Proof.
  intros Hok Hnd. unfold load.
  destruct (remove_old_spec news (triggers s) s) as (s1 & -> & H1 & H2 & H3); [apply Hok|].
  cbn [mbind option_bind]. eexists. split; [done|]. rewrite H1.
  set (s2 := Vbt (heap s) (filter (λ p, keeps news s p = true) (triggers s)) (delayed s1)).
  assert (Hok2 : state_ok s2) by by apply kept_ok.
  destruct (add_new_spec news s2 Hok2 Hnd) as (A1 & A2 & A3 & A4 & A5 & A6).
  set (s' := add_new news s2) in *. split; [done|].
  assert (Hin2 : ∀ p, p ∈ triggers s2 → p ∈ triggers s ∧ keeps news s p = true).
  { intros p [? ?]%list_elem_of_filter. done. }
  split; [|split].
  - intros n Hn. destruct (A6 n Hn) as (p & t & Hp & Ht & Et & [->|Hold]); [by exists p, n; auto|].
    exists p, t. split; [done|]. split; [done|]. split; [done|]. right.
    destruct (Hin2 p Hold) as [Hps Hk]. split; [done|].
    destruct (keeps_inv _ _ _ Hk) as (u & m & Hu & Hm & Eu & Heq).
    assert (t = u) as -> by (apply A3 in Hu; congruence). split; [done|].
    assert (m = n) as ->; [|done]. apply (NoDup_fmap_inj_in id news); [done..|congruence].
  - intros p Hp. destruct (ok_some s' p A1 Hp) as [t Ht]. exists t.
    destruct (A5 p t Hp Ht) as [Hold|[_ Hin]]; [|by exists t].
    destruct (Hin2 p Hold) as [_ Hk]. destruct (keeps_inv _ _ _ Hk) as (u & m & Hu & Hm & Eu & _).
    exists m. split; [done|]. split; [done|]. apply A3 in Hu. congruence.
  - rewrite A2. cbn [delayed s2]. rewrite H3. apply filter_iff_in. intros r Hr.
    pose proof (ok_known s Hok _ (list_elem_of_fmap_2 trigger _ _ Hr)) as Hk. split.
    + intros H. apply A4, list_elem_of_filter. auto.
    + intros Hp _. destruct (ok_some s _ Hok Hk) as [t Ht].
      destruct (A5 (trigger r) t Hp) as [Hold|[Hn _]]; [by apply A3| |].
      * by apply Hin2.
      * cbn [heap s2] in Hn. congruence.
Qed.

(** ** Runs *)

(** What happens to the triggers of a user: a channel has a new value, the scheduler makes
    a round, the triggers are read from the database. *)
Inductive vbt_op :=
  | OChanged (c : Caller) (channel : Z) (old : option vbt_value) (new : vbt_value) (data : Template)
      (now now' : nat → timeval)
  | ORound (now now' : nat → timeval)
  | OLoad news.

(** The effect, and the triggers whose actions are executed. *)
Definition vbt_step (o : vbt_op) s : option (list nat * state) :=
  match o with
  | OChanged c channel old new data now now' =>
      on_value_changed is_active c channel old new data now now' s
  | ORound now now' => '(ex, _, s) ← scheduler_round is_active now now' s; Some (ex, s)
  | OLoad news => s ← load action_eq news s; Some ([], s)
  end.

Fixpoint vbt_run (os : list vbt_op) s : option state :=
  match os with
  | [] => Some s
  | o :: os => '(_, s) ← vbt_step o s; vbt_run os s
  end.

Definition no_triggers : state := Vbt ∅ [] [].

(** The keys of the table are unique. *)
Definition op_ok (o : vbt_op) : Prop :=
  match o with OLoad news => NoDup (id <$> news) | _ => True end.

(** The pointers whose actions are executed, and those that wait afterwards. *)
Definition fired_rightly (o : vbt_op) s (ex : list nat) s' : Prop :=
  match o with
  | OChanged _ channel old new _ now now' =>
      NoDup ex ∧
      (∀ p, p ∈ ex ↔
         p ∈ triggers s ∧ matches_now channel old new now s p ∧ fires_now now' s p) ∧
      (∀ p, p ∈ waiting s' ↔
         p ∈ waiting s ∨ p ∈ triggers s ∧ starts_waiting channel old new now s p)
  | ORound now now' =>
      NoDup ex ∧ (∀ p, p ∈ ex ↔ p ∈ waiting s ∧ due_now now s p ∧ fires_now now' s p) ∧
      (∀ p, p ∈ waiting s' ↔ p ∈ waiting s ∧ waits_on now s p)
  | OLoad _ => ex = []
  end.

Lemma no_triggers_ok : state_ok no_triggers.
Proof. split; cbn; try constructor; intros; by exfalso; eapply elem_of_nil. Qed.

Lemma vbt_step_ok o s : state_ok s → op_ok o →
  ∃ ex s', vbt_step o s = Some (ex, s') ∧ state_ok s' ∧ fired_rightly o s ex s'.
Proof.
  intros Hok Ho. destruct o as [c channel old new data now now'|now now'|news].
  - destruct (on_value_changed_ok c channel old new data now now' s Hok)
      as (ex & s' & H & Hok' & Hm). by exists ex, s'.
  - destruct (scheduler_round_ok now now' s Hok) as (ex & w & s' & H & Hok' & Hnd & H1 & H2 & _).
    exists ex, s'. cbn [vbt_step]. by rewrite H.
  - destruct (load_ok news s Hok Ho) as (s' & H & Hok' & _). exists [], s'.
    cbn [vbt_step]. by rewrite H.
Qed.

Lemma vbt_run_ok os : ∀ s, state_ok s → Forall op_ok os →
  ∃ s', vbt_run os s = Some s' ∧ state_ok s'.
Proof.
  induction os as [|o os IH]; intros s Hok Ho; [by exists s|].
  apply Forall_cons in Ho as [Ho Hos]. cbn [vbt_run].
  destruct (vbt_step_ok o s Hok Ho) as (ex & s' & -> & Hok' & _). by apply IH.
Qed.

(** C8. Triggers fire when their conditions are met, and only then, whatever happened before.
    After any changes of values, rounds of the scheduler and reloads, no step fails or
    follows a dangling pointer, and only triggers that the user has wait. A change of a
    value executes exactly the triggers of the user that are about this channel, whose
    condition says so without a delay, whose period is in force and that are not limited
    by [fire], each once; those that are met with a delay wait. A round executes
    exactly the waiting triggers whose time is over, with the same limits, and keeps
    exactly those that have time left. *)
Theorem triggers_fire_when_met os o :
  Forall op_ok os → op_ok o →
  ∃ s ex s', vbt_run os no_triggers = Some s ∧ vbt_step o s = Some (ex, s') ∧
    fired_rightly o s ex s' ∧ ∀ p, p ∈ waiting s' → p ∈ triggers s' ∧ is_Some (heap s' !! p).
Proof.
  intros Hos Ho. destruct (vbt_run_ok os _ no_triggers_ok Hos) as (s & Hs & Hok).
  destruct (vbt_step_ok o s Hok Ho) as (ex & s' & H & Hok' & Hf). exists s, ex, s'.
  split; [done|]. split; [done|]. split; [done|]. intros p Hp.
  pose proof (ok_known s' Hok' p Hp). split; [done|]. by apply ok_some.
Qed.

(** Loading makes the triggers those of the database and keeps what did not change. In
    every reachable state, [load] succeeds; afterwards each trigger read is there,
    either as read or as the unchanged object that was there before, with its counters
    and the state of its condition; there are no others; and exactly those delayed
    results are left whose trigger is still there. *)
Theorem load_spec os news :
  Forall op_ok os → NoDup (id <$> news) →
  ∃ s s', vbt_run os no_triggers = Some s ∧ load action_eq news s = Some s' ∧
    loaded news s s' ∧ NoDup (triggers s').
Proof.
  intros Hos Hnd. destruct (vbt_run_ok os _ no_triggers_ok Hos) as (s & Hs & Hok).
  destruct (load_ok news s Hok Hnd) as (s' & H & Hok' & Hl). exists s, s'.
  split; [done|]. split; [done|]. split; [done|apply Hok'].
Qed.
End system.

(** ** Witnesses *)

(** A trigger of channel 7 that fires when it was hotter than 25 for five seconds. *)
Definition always : active_period := Period 0 0 ∅ [].

Definition hot_trigger : supla_value_based_trigger unit := new_trigger 1 7 tt hot_for_5s always.

(** The new value is 26 degrees. *)
Definition new_26 : vbt_value :=
  λ v, if decide (v = var_name_temperature) then Some (dbl 26) else None.

Definition example_active (_ : active_period) (_ : timeval) : bool := true.

Definition example_eq (_ _ : unit) : bool := true.

Definition gets_hot : vbt_op (Action := unit) (Caller := unit) (Template := unit) :=
  OChanged tt 7 (temperature 24) new_26 tt (λ _, at_time 1) (λ _, at_time 1).

(** A trigger that is removed after [on_value_changed] found that it has to wait, and before
    it is added to the scheduler's list, stays on that list and fires later. *)
Example removed_trigger_fires :
  ∃ s1 later matches s2 s3 s4 w,
    load example_eq [hot_trigger] no_triggers = Some s1 ∧
    scan example_active (triggers s1) tt 7 (temperature 24) new_26 tt
      (λ _, at_time 1) s1 = Some (later, matches, s2) ∧
    load example_eq [] s2 = Some s3 ∧ triggers s3 = [] ∧
    scheduler_round example_active (λ _, at_time 7) (λ _, at_time 7) (add_delayed later s3)
      = Some ([0%nat], w, s4).
Proof. repeat eexists; vm_compute; reflexivity. Qed.

Lemma triggers_fire_when_met_witness :
  ∃ s ex s', vbt_run example_eq example_active [OLoad [hot_trigger]; gets_hot] no_triggers
      = Some s ∧
    vbt_step example_eq example_active (ORound (λ _, at_time 7) (λ _, at_time 7)) s
      = Some (ex, s') ∧
    fired_rightly example_active (ORound (λ _, at_time 7) (λ _, at_time 7)) s ex s'.
Proof.
  destruct (triggers_fire_when_met example_eq example_active [OLoad [hot_trigger]; gets_hot]
              (ORound (λ _, at_time 7) (λ _, at_time 7))) as (s & ex & s' & H1 & H2 & H3 & _).
  - apply Forall_cons_2; [apply NoDup_singleton|]. by apply Forall_cons_2; [|constructor].
  - done.
  - by exists s, ex, s'.
Defined.

Lemma load_spec_witness :
  ∃ s s', vbt_run example_eq example_active [OLoad [hot_trigger]; gets_hot] no_triggers
      = Some s ∧
    load example_eq [hot_trigger; new_trigger 2 8 tt hot always] s = Some s' ∧
    loaded example_eq [hot_trigger; new_trigger 2 8 tt hot always] s s' ∧ NoDup (triggers s').
Proof.
  apply (load_spec example_eq example_active).
  - apply Forall_cons_2; [apply NoDup_singleton|]. by apply Forall_cons_2; [|constructor].
  - by apply (bool_decide_unpack _).
Defined.

Lemma fire_is_limited_witness :
  Z.of_nat (length (filter (λ x, 1 <= tv_sec x < 1 + 5)
    (fires (map at_time [1; 2; 3; 4; 5; 6; 7; 8]) hot_trigger))) <= 2 * 5.
Proof.
  refine (proj2 (fire_is_limited hot_trigger (map at_time [1; 2; 3; 4; 5; 6; 7; 8]) 1
                   _ _ _ _ _ _ _ _ _)); try (cbn; lia); try done.
  - repeat (apply Forall_cons_2; [unfold time_ok; cbn; lia|]). constructor.
  - repeat (constructor; [|unfold not_after, usec_of;
      repeat (apply Forall_cons_2; [cbn; lia|]); apply Forall_nil_2]). constructor.
Defined.
