(* ===== verification/DObjects.v ===== *)
(** * DObjects: objects that are kept up to date at the other side

    distributedobjects/ of the server: objects with an indicator of what has changed of
    them, a collection of such objects, and the updater, which puts changed objects into
    packs. What an updater puts where is left to its subclass, here a class of operations
    ([RemoteUpdater]); a second class ([PackUpdater]) says what a subclass promises, and the
    theorems of this file hold for every subclass that keeps to it. *)

From stdpp Require Import sorting.
From S2P Require Import Prelude.

#[local] Open Scope list_scope.
#[local] Open Scope Z_scope.

(** ** Packs (srpc/srpc_adapter.h) *)

Definition START_OF_LIST_BIT : Z := 2.
Definition END_OF_LIST_BIT : Z := 1.

(** An item and its member [EOL]; the member [count] is the number of the items. *)
Record datapack (T : Type) := Datapack {
  items : list (T * Z);
  total_left : Z
}.

Arguments Datapack {T}.
Arguments items {T}.
Arguments total_left {T}.

Section datapack.
Context {T : Type}.
Implicit Type p : datapack T.

Definition empty_pack : datapack T := Datapack [] 0.

Definition pack_count p : Z := Z.of_nat (length (items p)).

Definition datapack_add (max_count : Z) (SOL : bool) (fill : T) p : bool * datapack T :=
  if pack_count p <? max_count then
    (true, Datapack (items p ++ [(fill, if SOL then START_OF_LIST_BIT else 0)]) (total_left p))
  else (false, Datapack (items p) (i32 (total_left p + 1))).

(** What becomes of [EOL] of the last item. *)
Definition datapack_set_eol (set_bit : bool) p : datapack T :=
  if (0 <? pack_count p) && (total_left p =? 0) then
    match last (items p) with
    | Some (t, eol) =>
        Datapack (take (length (items p) - 1) (items p)
                  ++ [(t, if set_bit then Z.lor eol END_OF_LIST_BIT else 1)]) (total_left p)
    | None => p
    end
  else p.
End datapack.

(** ** Objects and their collection *)

Section dobjects.
Context {I P : Type}.

(** [supla_dobject], and what its subclasses add to it. *)
Record dobject := DObject {
  address : nat;
  dobject_id : Z;
  change_indicator : option I;
  payload : P
}.

Implicit Types (o : dobject) (objects : list dobject).

Definition set_change_indicator (i : option I) o : dobject :=
  DObject (address o) (dobject_id o) i (payload o).

Definition dobjects_add (o : option dobject) objects : list dobject :=
  match o with Some o => objects ++ [o] | None => objects end.

Definition dobjects_remove (i : Z) objects : list dobject :=
  erase_first (λ o, dobject_id o =? i) objects.

Definition access_object (i : Z) (on_access : dobject → dobject) objects : list dobject :=
  if i =? 0 then objects else update_first (λ o, dobject_id o =? i) on_access objects.

Definition dobjects_count objects : Z := Z.of_nat (length objects).

Definition object_exists (i : Z) objects : bool :=
  if i =? 0 then false
  else match find_first (λ o, dobject_id o =? i) objects with Some _ => true | None => false end.
End dobjects.

Arguments dobject : clear implicits.

(** ** The updater *)

(** Two readings of the clock, while an object is converted. *)
Notation clock := (timeval * timeval)%type.

(** The virtual functions. [prepare_the_update] gets and gives [transaction_should_end]. *)
Class RemoteUpdater (I P U Msg : Type) := {
  is_changed : I → bool;
  is_protocol_version_allowed : Z → bool;
  pre_transaction_verification : dobject I P → bool → U → bool * U;
  on_transaction_begin : dobject I P → Z → U → bool * U;
  prepare_the_update : clock → dobject I P → bool → U → bool * option I * bool * U;
  on_transaction_end : U → list Msg * U
}.

(** [supla_abstract_dobject_remote_updater]; [own] is what the subclass adds. *)
Record updater (U : Type) := Updater {
  transaction_started : bool;
  transaction_should_end : bool;
  transaction_rejected : bool;
  any_updates : bool;
  own : U
}.

Arguments Updater {U}.
Arguments transaction_started {U}.
Arguments transaction_should_end {U}.
Arguments transaction_rejected {U}.
Arguments any_updates {U}.
Arguments own {U}.

Definition new_updater {U} (u : U) : updater U := Updater false false false false u.

Section updater.
Context {I P U Msg : Type} `{!RemoteUpdater I P U Msg} (proto_version : Z).
Implicit Types (o : dobject I P) (s : updater U) (objects : list (dobject I P)).

Definition begin_transaction o s : updater U :=
  if transaction_started s then s
  else let '(ok, u) := on_transaction_begin o proto_version (own s) in
       if ok : bool then Updater true false false false u
       else Updater false (transaction_should_end s) true (any_updates s) u.

Definition update (t : clock) o s : dobject I P * updater U :=
  match change_indicator o with
  | None => (o, s)
  | Some i =>
      if is_changed i then
        let started := transaction_started s in
        let s := if started then s else begin_transaction o s in
        if negb started && transaction_rejected s then (o, s)
        else
          let '(ok, new, should_end, u) :=
            prepare_the_update t o (transaction_should_end s) (own s) in
          (if ok then set_change_indicator new o else o,
           Updater (transaction_started s) should_end (transaction_rejected s)
             (any_updates s || ok) u)
      else (o, s)
  end.

Definition is_transaction_should_end s : bool :=
  if transaction_started s then transaction_should_end s else false.

Definition end_transaction s : bool * list Msg * updater U :=
  if transaction_started s then
    let '(msgs, u) := on_transaction_end (own s) in
    (any_updates s, msgs, Updater false (transaction_should_end s) (transaction_rejected s)
                            (any_updates s) u)
  else (false, [], s).

(** The two loops of [update_remote]. *)
Fixpoint verify (first : bool) objects (u : U) : U :=
  match objects with
  | [] => u
  | o :: objects =>
      let '(go, u) := pre_transaction_verification o first u in
      if go : bool then verify false objects u else u
  end.

Fixpoint update_all (now : nat → clock) objects s : list (dobject I P) * updater U :=
  match objects with
  | [] => ([], s)
  | o :: objects =>
      let '(o, s) := update (now (address o)) o s in
      if transaction_rejected s || is_transaction_should_end s then (o :: objects, s)
      else let '(objects, s) := update_all now objects s in (o :: objects, s)
  end.

Definition with_own (u : U) s : updater U :=
  Updater (transaction_started s) (transaction_should_end s) (transaction_rejected s)
    (any_updates s) u.

(** The result, what is sent, and the objects and the updater afterwards. [now] has the
    times at which the objects are converted. *)
Definition update_remote (now : nat → clock) objects s
    : bool * list Msg * list (dobject I P) * updater U :=
  if is_protocol_version_allowed proto_version then
    let s := with_own (verify true objects (own s)) s in
    let '(objects, s) := update_all now objects s in
    let '(result, msgs, s) := end_transaction s in
    (result, msgs, objects, s)
  else (false, [], objects, s).

(** The other side asks for more as long as something comes; [now r] are the times of the
    [r]-th call. [None] when [fuel] calls were not enough. *)
Fixpoint update_until_done (fuel : nat) (now : nat → nat → clock) (r : nat) objects s
    : option (list Msg * list (dobject I P) * updater U) :=
  match fuel with
  | O => None
  | S fuel =>
      let '(more, msgs, objects, s) := update_remote (now r) objects s in
      if more : bool then
        '(msgs', objects, s) ← update_until_done fuel now (S r) objects s;
        Some (msgs ++ msgs', objects, s)
      else Some (msgs, objects, s)
  end.
End updater.

(** ** What the subclasses promise

    There are kinds of changes, served in the order of [kinds]: while objects are due for
    the first kind, packs of that kind are made. *)

Definition due_of {I P K} (due : K → I → bool) (k : K) (o : dobject I P) : bool :=
  match change_indicator o with Some i => due k i | None => false end.

Definition kind_of {I P K} (due : K → I → bool) (kinds : list K) (objects : list (dobject I P))
    : option K :=
  find_first (λ k, existsb (due_of due k) objects) kinds.

Class PackUpdater (I P U Msg K : Type) `{!RemoteUpdater I P U Msg} := {
  kinds : list K;
  due : K → I → bool;
  served : K → I → I;
  Item : K → Type;
  max_count : K → Z;
  (** whether the other side gets the first bits of a list and its last bit *)
  with_bits : bool;
  convert : ∀ k, clock → Z → P → Item k;
  message : ∀ k, datapack (Item k) → Msg;
  (** the states of the subclass: no pack; a pack to be made for [k], where the front of the
      collection is at an address; a pack at work *)
  idle : U → Prop;
  prepared : K → nat → U → Prop;
  holding : ∀ k, nat → datapack (Item k) → U → Prop;

  changed_due i : is_changed i = existsb (λ k, due k i) kinds;
  served_due k i : due k (served k i) = false;
  served_due_ne k k' i : k ≠ k' → due k' (served k i) = due k' i;
  max_count_pos k : 0 < max_count k;
  kinds_nodup : NoDup kinds;
  verify_prepares o objects u k : idle u → kind_of due kinds (o :: objects) = Some k →
    prepared k (address o) (verify true (o :: objects) u);
  verify_idle objects u : idle u → kind_of due kinds objects = None →
    idle (verify true objects u);
  begin_holds o objects v u k front : prepared k front u → o ∈ objects →
    kind_of due kinds objects = Some k → existsb (λ k, due_of due k o) kinds = true →
    ∃ u', on_transaction_begin o v u = (true, u') ∧ holding k front empty_pack u';
  prepare_adds t o i b u k front pack : holding k front pack u → change_indicator o = Some i →
    due k i = true →
    let '(ok, pack') := datapack_add (max_count k) (with_bits && bool_decide (front = address o))
                          (convert k t (dobject_id o) (payload o)) pack in
    ∃ new u', prepare_the_update t o b u = (ok, new, b, u') ∧ holding k front pack' u' ∧
              (ok = true → new = Some (served k i));
  prepare_skips t o i b u k front pack : holding k front pack u → change_indicator o = Some i →
    is_changed i = true → due k i = false → ∃ new, prepare_the_update t o b u = (false, new, b, u);
  end_sends u k front pack : holding k front pack u → 0 < pack_count pack →
    ∃ u', on_transaction_end u = ([message k (datapack_set_eol with_bits pack)], u') ∧ idle u'
}.

(** ** One call of [update_remote] *)

Section pack_updater.
Context {I P U Msg K : Type} `{PackUpdater I P U Msg K} `{!EqDecision K}.
Context (proto_version : Z) (allowed : is_protocol_version_allowed proto_version = true).
Implicit Types (o : dobject I P) (objects : list (dobject I P)) (u : U).

Notation is_due k := (due_of due k).
Notation serve_one k := (λ o, set_change_indicator (served k <$> change_indicator o) o).

Definition due_objects (k : K) objects : list (dobject I P) :=
  filter (λ o, is_due k o = true) objects.

(** The first [n] that are due are served. *)
Fixpoint serve (k : K) (n : nat) objects : list (dobject I P) :=
  match objects with
  | [] => []
  | o :: objects =>
      if is_due k o then
        match n with
        | O => o :: objects
        | S n => serve_one k o :: serve k n objects
        end
      else o :: serve k n objects
  end.

Definition pack_item (k : K) (front : nat) (now : nat → clock) o : Item k * Z :=
  (convert k (now (address o)) (dobject_id o) (payload o),
   if with_bits && bool_decide (front = address o) then START_OF_LIST_BIT else 0).

(** The pack for the first objects that are due. *)
Definition pack_of (k : K) (front : nat) (now : nat → clock) (l : list (dobject I P))
    : datapack (Item k) :=
  let m := Z.to_nat (max_count k) in
  datapack_set_eol with_bits
    (Datapack (pack_item k front now <$> take m l) (Z.of_nat (length l - m))).

Definition changed o : bool := existsb (λ k, is_due k o) kinds.

Lemma changed_spec o : changed o = match change_indicator o with
                                   | Some i => is_changed i | None => false end.
Proof.
  unfold changed, due_of. destruct (change_indicator o) as [i|].
  - by rewrite changed_due.
  - by induction kinds.
Qed.

Lemma due_changed k o : k ∈ kinds → is_due k o = true → changed o = true.
Proof.
  intros Hk Hd. unfold changed. apply existsb_exists. exists k. split; [|done].
  by apply list_elem_of_In.
Qed.

Lemma unchanged_not_due k o : k ∈ kinds → changed o = false → is_due k o = false.
Proof.
  intros Hk Hc. destruct (is_due k o) eqn:E; [|done]. by rewrite (due_changed k o) in Hc.
Qed.

Lemma due_objects_cons k o objects :
  due_objects k (o :: objects) =
  if is_due k o then o :: due_objects k objects else due_objects k objects.
Proof.
  unfold due_objects. destruct (is_due k o) eqn:E.
  - by rewrite filter_cons_True.
  - rewrite filter_cons_False; [done|congruence].
Qed.

Lemma is_due_indicator k o : is_due k o = true → ∃ i, change_indicator o = Some i ∧ due k i = true.
Proof. unfold due_of. destruct (change_indicator o) as [i|]; [by exists i|done]. Qed.

(** An object that is changed, while a pack is made. *)
Lemma update_holding t o u k front pack a : holding k front pack u → changed o = true →
  let '(ok, pack') := if is_due k o then
      datapack_add (max_count k) (with_bits && bool_decide (front = address o))
        (convert k t (dobject_id o) (payload o)) pack else (false, pack) in
  ∃ u', update proto_version t o (Updater true false false a u) =
          (if ok then serve_one k o else o, Updater true false false (a || ok) u') ∧
        holding k front pack' u'.
Proof.
  intros Hh Hc. rewrite changed_spec in Hc. unfold update, due_of.
  destruct (change_indicator o) as [i|] eqn:Ei; [|done]. rewrite Hc.
  cbn [transaction_started transaction_should_end own negb andb].
  destruct (due k i) eqn:Ed.
  - pose proof (prepare_adds t o i false u k front pack Hh Ei Ed) as Hp.
    destruct (datapack_add _ _ _ _) as [ok pack'] eqn:Ea.
    destruct Hp as (new & u' & -> & Hu & Hn). exists u'. split; [|done]. cbn.
    destruct ok; [by rewrite (Hn eq_refl)|done].
  - destruct (prepare_skips t o i false u k front pack Hh Ei Hc Ed) as (new & ->).
    by exists u.
Qed.

Definition pack_after (k : K) (front : nat) (now : nat → clock) (pack : datapack (Item k))
    objects : datapack (Item k) :=
  let m := Z.to_nat (max_count k - pack_count pack) in
  Datapack (items pack ++ (pack_item k front now <$> take m (due_objects k objects)))
    (total_left pack + Z.of_nat (length (due_objects k objects) - m)).

Notation add_item k front now o pack :=
  (datapack_add (max_count k) (with_bits && bool_decide (front = address o))
     (convert k (now (address o)) (dobject_id o) (payload o)) pack).

Lemma add_item_count k front now o pack : pack_count pack <= max_count k →
  pack_count (add_item k front now o pack).2 <= max_count k.
Proof.
  intros Hc. unfold datapack_add. destruct (Z.ltb_spec (pack_count pack) (max_count k)); [|done].
  unfold pack_count in *. cbn. rewrite length_app. cbn. lia.
Qed.

Lemma add_item_grows k front now o pack :
  pack_count (add_item k front now o pack).2 =
  pack_count pack + (if (add_item k front now o pack).1 then 1 else 0).
Proof.
  unfold datapack_add. destruct (_ <? _); unfold pack_count; cbn; [|lia].
  rewrite length_app. cbn. lia.
Qed.

Lemma add_item_left k front now o pack n : 0 <= total_left pack → total_left pack + Z.of_nat (S n) < 2 ^ 31 →
  0 <= total_left (add_item k front now o pack).2 ∧
  total_left (add_item k front now o pack).2 + Z.of_nat n < 2 ^ 31.
Proof.
  intros H0 Hn. unfold datapack_add. destruct (_ <? _); cbn [snd total_left]; [lia|].
  rewrite i32_id by (unfold is_i32; lia). lia.
Qed.

Lemma pack_after_due k front now pack o objects : is_due k o = true →
  pack_count pack <= max_count k → 0 <= total_left pack →
  total_left pack + Z.of_nat (S (length objects)) < 2 ^ 31 →
  pack_after k front now pack (o :: objects) =
  pack_after k front now (add_item k front now o pack).2 objects.
Proof.
  intros Hd Hc Hl Hb. unfold pack_after. rewrite due_objects_cons, Hd. unfold datapack_add.
  destruct (Z.ltb_spec (pack_count pack) (max_count k)) as [Hlt|Hge]; cbn [snd].
  - unfold pack_count in *. cbn [items total_left]. rewrite length_app. cbn [length].
    rewrite Nat2Z.inj_add. change (Z.of_nat 1) with 1.
    replace (Z.to_nat (max_count k - Z.of_nat (length (items pack))))
      with (S (Z.to_nat (max_count k - (Z.of_nat (length (items pack)) + 1)))) by lia.
    cbn [take fmap list_fmap length Nat.sub]. rewrite <- app_assoc. f_equal.
  - replace (Z.to_nat (max_count k - pack_count pack)) with O by lia.
    unfold pack_count in *. cbn [items total_left].
    replace (Z.to_nat (max_count k - Z.of_nat (length (items pack)))) with O by lia.
    cbn [take]. f_equal. cbn [length]. rewrite i32_id by (unfold is_i32; lia). lia.
Qed.

Lemma pack_after_skip k front now pack o objects : is_due k o = false →
  pack_after k front now pack (o :: objects) = pack_after k front now pack objects.
Proof. intros Hd. unfold pack_after. by rewrite due_objects_cons, Hd. Qed.

Lemma pack_after_grows k front now pack objects :
  pack_count pack <= pack_count (pack_after k front now pack objects).
Proof. unfold pack_count, pack_after. cbn. rewrite length_app. lia. Qed.

Lemma serve_0 k objects : serve k 0 objects = objects.
Proof. induction objects as [|o l IH]; [done|]. cbn. rewrite IH. by destruct (is_due k o). Qed.

Lemma serve_add k front now o pack objects : is_due k o = true → pack_count pack <= max_count k →
  serve k (Z.to_nat (max_count k - pack_count pack)) (o :: objects) =
  (if (add_item k front now o pack).1 then serve_one k o else o)
  :: serve k (Z.to_nat (max_count k - pack_count (add_item k front now o pack).2)) objects.
Proof.
  intros Hd Hc. cbn [serve]. rewrite Hd. unfold datapack_add.
  destruct (Z.ltb_spec (pack_count pack) (max_count k)) as [Hlt|Hge]; cbn [fst snd].
  - unfold pack_count in *. cbn [items]. rewrite length_app. cbn [length].
    replace (Z.to_nat (max_count k - Z.of_nat (length (items pack))))
      with (S (Z.to_nat (max_count k - Z.of_nat (length (items pack) + 1)))) by lia. done.
  - unfold pack_count in *. cbn [items].
    replace (Z.to_nat (max_count k - Z.of_nat (length (items pack)))) with O by lia.
    by rewrite serve_0.
Qed.

(** The second loop, once a pack is at work. *)
Lemma update_all_holding k front now objects : k ∈ kinds → ∀ u pack a, holding k front pack u →
  pack_count pack <= max_count k → 0 <= total_left pack →
  total_left pack + Z.of_nat (length objects) < 2 ^ 31 →
  ∃ u', update_all proto_version now objects (Updater true false false a u) =
          (serve k (Z.to_nat (max_count k - pack_count pack)) objects,
           Updater true false false
             (a || bool_decide (pack_count pack < pack_count (pack_after k front now pack objects)))
             u') ∧
        holding k front (pack_after k front now pack objects) u'.
Proof.
  intros Hk. induction objects as [|o objects IH]; intros u pack a Hh Hc Hl Hb.
  { exists u. unfold pack_after. cbn. rewrite take_nil. cbn. rewrite app_nil_r, Z.add_0_r.
    destruct pack as [its tl]. cbn. rewrite bool_decide_eq_false_2, orb_false_r by lia. done. }
  cbn [length] in Hb. cbn [update_all]. destruct (is_due k o) eqn:Ed.
  - pose proof (update_holding (now (address o)) o u k front pack a Hh (due_changed k o Hk Ed))
      as Hu. rewrite Ed in Hu. rewrite serve_add with (now := now) (front := front) by done.
    rewrite pack_after_due by done.
    pose proof (add_item_count k front now o pack Hc) as Hc'.
    destruct (add_item_left k front now o pack (length objects) Hl ltac:(lia)) as [Hl' Hb'].
    pose proof (add_item_grows k front now o pack) as Ha.
    pose proof (pack_after_grows k front now (add_item k front now o pack).2 objects) as Hg.
    destruct (add_item k front now o pack) as [ok pack'] eqn:Ea. cbn [fst snd] in *.
    destruct Hu as (u' & -> & Hu'). cbn [transaction_rejected is_transaction_should_end
      transaction_started transaction_should_end orb].
    destruct (IH u' pack' (a || ok) Hu' Hc' Hl' Hb') as (u2 & -> & H2).
    exists u2. split; [|done]. f_equal. f_equal. rewrite <- orb_assoc. f_equal.
    destruct ok; cbn [orb]; [symmetry; apply bool_decide_eq_true_2; lia|].
    apply bool_decide_ext. lia.
  - rewrite pack_after_skip by done. cbn [serve]. rewrite Ed.
    assert (Hstep : ∃ u', update proto_version (now (address o)) o (Updater true false false a u)
              = (o, Updater true false false a u') ∧ holding k front pack u').
    { destruct (changed o) eqn:Ech.
      - pose proof (update_holding (now (address o)) o u k front pack a Hh Ech) as Hu.
        rewrite Ed in Hu. destruct Hu as (u' & -> & Hu'). exists u'. by rewrite orb_false_r.
      - exists u. split; [|done]. unfold update. rewrite changed_spec in Ech.
        destruct (change_indicator o); [by rewrite Ech|done]. }
    destruct Hstep as (u' & -> & Hu'). cbn [transaction_rejected is_transaction_should_end
      transaction_started transaction_should_end orb].
    destruct (IH u' pack a Hu' Hc Hl ltac:(lia)) as (u2 & -> & H2). by exists u2.
Qed.

Lemma update_unchanged t o s : changed o = false → update proto_version t o s = (o, s).
Proof.
  rewrite changed_spec. unfold update. destruct (change_indicator o); [by intros ->|done].
Qed.

Lemma pack_after_pos k front now l : (∃ o, o ∈ l ∧ is_due k o = true) →
  0 < pack_count (pack_after k front now empty_pack l).
Proof.
  intros (o & Ho & Hd). assert (Hdue : o ∈ due_objects k l) by (by apply list_elem_of_filter).
  pose proof (max_count_pos k). unfold pack_count, pack_after. cbn [items empty_pack app].
  rewrite length_fmap, length_take. unfold pack_count. cbn [items length].
  unfold empty_pack. cbn [items].
  destruct (due_objects k l); [inversion Hdue|]. cbn [length]. lia.
Qed.

(** The second loop from its start: the first object that is changed begins the pack. *)
Lemma update_all_prepared k front now objects l : kind_of due kinds objects = Some k →
  (∀ o, o ∈ l → o ∈ objects) → Z.of_nat (length l) < 2 ^ 31 → ∀ u b a,
  prepared k front u → (∃ o, o ∈ l ∧ is_due k o = true) →
  ∃ u', update_all proto_version now l (Updater false b false a u) =
          (serve k (Z.to_nat (max_count k)) l, Updater true false false true u') ∧
        holding k front (pack_after k front now empty_pack l) u'.
Proof.
  intros Hk Hin Hlen u b a Hp Hd.
  assert (Hkin : k ∈ kinds) by apply (find_first_Some _ _ _ Hk).
  induction l as [|o l IH]; [destruct Hd as (o & Ho & _); inversion Ho|].
  destruct (changed o) eqn:Ech.
  - destruct (begin_holds o objects proto_version u k front Hp (Hin o (list_elem_of_here o l)) Hk Ech)
      as (u1 & Eb & Hh).
    assert (Eu : update proto_version (now (address o)) o (Updater false b false a u) =
                 update proto_version (now (address o)) o (Updater true false false false u1)).
    { unfold update. pose proof Ech as Ech'. rewrite changed_spec in Ech'.
      destruct (change_indicator o) as [i|]; [|done]. rewrite Ech'.
      cbn [transaction_started]. unfold begin_transaction. cbn [transaction_started own].
      by rewrite Eb. }
    destruct (update_all_holding k front now (o :: l) Hkin u1 empty_pack false Hh) as (u' & E & H');
      [unfold pack_count; cbn; pose proof (max_count_pos k); lia|cbn; lia|
       cbn [total_left empty_pack]; lia|].
    exists u'. split; [|done]. revert E. cbn [update_all]. rewrite Eu. intros ->.
    change (pack_count empty_pack) with 0. rewrite Z.sub_0_r. f_equal. f_equal. cbn [orb].
    by apply bool_decide_eq_true_2, pack_after_pos.
  - cbn [update_all]. rewrite update_unchanged by done.
    cbn [transaction_rejected is_transaction_should_end transaction_started orb].
    pose proof (unchanged_not_due k o Hkin Ech) as Hnd. cbn [serve]. rewrite Hnd.
    rewrite pack_after_skip by done. cbn [length] in Hlen.
    destruct IH as (u' & -> & Hu'); [intros o' Ho'; by apply Hin, list_elem_of_further|lia| |by exists u'].
    destruct Hd as (o' & Ho' & Hd'). apply elem_of_cons in Ho' as [->|Ho']; [congruence|by exists o'].
Qed.

Lemma update_all_unchanged now l s : Forall (λ o, changed o = false) l →
  transaction_started s = false → transaction_rejected s = false →
  update_all proto_version now l s = (l, s).
Proof.
  intros Hl Hs Hr. induction Hl as [|o l Ho Hl IH]; [done|]. cbn [update_all].
  rewrite update_unchanged by done. unfold is_transaction_should_end. by rewrite Hs, Hr, IH.
Qed.

(** The updater between two calls. *)
Definition at_rest (s : updater U) : Prop :=
  transaction_started s = false ∧ transaction_rejected s = false ∧ idle (own s).

Lemma kind_of_due k objects : kind_of due kinds objects = Some k →
  k ∈ kinds ∧ ∃ o, o ∈ objects ∧ is_due k o = true.
Proof.
  intros [He Hk]%find_first_Some. split; [done|]. apply existsb_exists in He as (o & Ho & Hd).
  exists o. by rewrite list_elem_of_In.
Qed.

Lemma kind_of_None objects : kind_of due kinds objects = None ↔
  Forall (λ o, changed o = false) objects.
Proof.
  unfold kind_of. rewrite find_first_None, Forall_forall. split; intros Hn.
  - intros o Ho. unfold changed. apply not_true_iff_false. rewrite existsb_exists.
    intros (k & Hk%list_elem_of_In & Hd). specialize (Hn k Hk).
    apply not_true_iff_false in Hn. apply Hn, existsb_exists. exists o. by rewrite <- list_elem_of_In.
  - intros k Hk. apply not_true_iff_false. rewrite existsb_exists.
    intros (o & Ho%list_elem_of_In & Hd). specialize (Hn o Ho). cbn in Hn.
    by rewrite (due_changed k o Hk Hd) in Hn.
Qed.

(** One call makes one pack for the first kind of change that there is. *)
Lemma update_remote_round now objects s k o : at_rest s → kind_of due kinds (o :: objects) = Some k →
  Z.of_nat (length (o :: objects)) < 2 ^ 31 →
  ∃ s', update_remote proto_version now (o :: objects) s =
          (true, [message k (pack_of k (address o) now (due_objects k (o :: objects)))],
           serve k (Z.to_nat (max_count k)) (o :: objects), s') ∧ at_rest s'.
Proof using allowed.
  intros (Hs & Hr & Hi) Hk Hlen. unfold update_remote. rewrite allowed.
  destruct s as [st se rj au u]. cbn [transaction_started transaction_rejected own] in *. subst st rj.
  pose proof (verify_prepares o objects u k Hi Hk) as Hp. unfold with_own.
  cbn [transaction_started transaction_should_end transaction_rejected any_updates own].
  destruct (kind_of_due _ _ Hk) as [Hkin Hdue].
  destruct (update_all_prepared k (address o) now (o :: objects) (o :: objects) Hk
    ltac:(done) Hlen _ se au Hp Hdue) as (u' & -> & Hh).
  unfold end_transaction. cbn [transaction_started own].
  assert (Hc : 0 < pack_count (pack_after k (address o) now empty_pack (o :: objects)))
    by (by apply pack_after_pos).
  destruct (end_sends _ _ _ _ Hh Hc) as (u2 & -> & Hi2).
  exists (Updater false false false true u2). split; [|done].
  cbn [any_updates transaction_rejected]. do 3 f_equal. unfold pack_of, pack_after. cbn [items empty_pack total_left app].
  change (pack_count empty_pack) with 0. by rewrite Z.sub_0_r, Z.add_0_l.
Qed.

Lemma update_remote_rest now objects s : at_rest s → kind_of due kinds objects = None →
  ∃ s', update_remote proto_version now objects s = (false, [], objects, s') ∧ at_rest s'.
Proof using allowed.
  intros (Hs & Hr & Hi) Hk. unfold update_remote. rewrite allowed.
  rewrite update_all_unchanged; [|by apply kind_of_None|done|done].
  unfold end_transaction. cbn [with_own transaction_started]. rewrite Hs.
  eexists. split; [done|]. unfold at_rest. cbn. by pose proof (verify_idle objects (own s) Hi Hk).
Qed.

(** ** All calls until nothing is left *)

(** The packs of a kind: the objects [l] are cut into packs of [max_count], the first made
    at the [r]-th call. *)
Fixpoint pack_list (fuel : nat) (k : K) (front : nat) (now : nat → nat → clock) (r : nat)
    (l : list (dobject I P)) : list (datapack (Item k)) :=
  match fuel, l with
  | S fuel, _ :: _ =>
      pack_of k front (now r) l
      :: pack_list fuel k front now (S r) (drop (Z.to_nat (max_count k)) l)
  | _, _ => []
  end.

Definition packs_of (fuel : nat) (k : K) (front : nat) (now : nat → nat → clock) (r : nat)
    (l : list (dobject I P)) : list Msg := message k <$> pack_list fuel k front now r l.

(** Kind after kind. *)
Fixpoint all_packs (ks : list K) (front : nat) (now : nat → nat → clock) (r : nat) objects
    : list Msg :=
  match ks with
  | [] => []
  | k :: ks =>
      let l := due_objects k objects in
      let msgs := packs_of (length l) k front now r l in
      msgs ++ all_packs ks front now (r + length msgs) objects
  end.

(** An object of which everything is served. *)
Definition all_served o : dobject I P :=
  foldl (λ o k, if is_due k o then serve_one k o else o) o kinds.

Lemma is_due_serve_one k o : is_due k (serve_one k o) = false.
Proof. unfold due_of. cbn. destruct (change_indicator o); [apply served_due|done]. Qed.

Lemma is_due_serve_one_ne k k' o : k ≠ k' → is_due k' (serve_one k o) = is_due k' o.
Proof. intros Hne. unfold due_of. cbn. destruct (change_indicator o); [by apply served_due_ne|done]. Qed.

Lemma due_serve k n objects :
  due_objects k (serve k n objects) = drop n (due_objects k objects).
Proof.
  revert n. induction objects as [|o l IH]; intros n; [by destruct n|]. cbn [serve].
  rewrite due_objects_cons. destruct (is_due k o) eqn:Ed; [destruct n as [|n]|].
  - by rewrite due_objects_cons, Ed.
  - rewrite due_objects_cons, is_due_serve_one. apply IH.
  - rewrite due_objects_cons, Ed. apply IH.
Qed.

(** What is sent of an object does not depend on its indicator. *)
Definition same_data (o o' : dobject I P) : Prop :=
  address o = address o' ∧ dobject_id o = dobject_id o' ∧ payload o = payload o'.

Lemma due_serve_ne k k' n objects : k ≠ k' →
  Forall2 same_data (due_objects k' objects) (due_objects k' (serve k n objects)).
Proof.
  intros Hne. assert (Hrefl : ∀ l : list (dobject I P), Forall2 same_data l l)
    by (induction l; repeat constructor; done).
  revert n. induction objects as [|o l IH]; intros n; [constructor|]. cbn [serve].
  destruct (is_due k o) eqn:Ed; [destruct n as [|n]|].
  - apply Hrefl.
  - rewrite !due_objects_cons, is_due_serve_one_ne by done.
    destruct (is_due k' o); [constructor; [done|]|]; apply IH.
  - rewrite !due_objects_cons. destruct (is_due k' o); [constructor; [done|]|]; apply IH.
Qed.

Lemma pack_of_same k front now l l' : Forall2 same_data l l' →
  pack_of k front now l = pack_of k front now l'.
Proof.
  intros Hl. unfold pack_of. rewrite (Forall2_length _ _ _ Hl). do 2 f_equal.
  generalize (Z.to_nat (max_count k)). induction Hl as [|o o' l l' (Ha & Hi & Hp) Hl IH]; intros n.
  { by rewrite take_nil. }
  destruct n as [|n]; [done|]. cbn. rewrite IH. f_equal. unfold pack_item. by rewrite Ha, Hi, Hp.
Qed.

Lemma packs_of_same k front now l l' : Forall2 same_data l l' →
  ∀ fuel r, packs_of fuel k front now r l = packs_of fuel k front now r l'.
Proof.
  intros Hl fuel r. unfold packs_of. f_equal. revert l l' Hl r.
  induction fuel as [|fuel IH]; intros l l' Hl r; [done|]. cbn. destruct Hl as [|o o' l l' Ho Hl]; [done|].
  rewrite (pack_of_same k front (now r) (o :: l) (o' :: l')) by by constructor.
  f_equal. apply IH. apply Forall2_drop. by constructor.
Qed.

Lemma packs_of_fuel k front now f1 : ∀ f2 r l, (length l <= f1)%nat → (length l <= f2)%nat →
  packs_of f1 k front now r l = packs_of f2 k front now r l.
Proof.
  intros f2 r l H1 H2. unfold packs_of. f_equal. revert f2 r l H1 H2.
  induction f1 as [|f1 IH]; intros f2 r l H1 H2.
  { destruct l; [|cbn in *; lia]. by destruct f2. }
  destruct l as [|o l]; [by destruct f2|]. destruct f2 as [|f2]; [cbn in *; lia|].
  cbn [pack_list]. f_equal. pose proof (max_count_pos k).
  apply IH; rewrite length_drop; cbn [length] in *; lia.
Qed.

Lemma all_packs_same ks front now objects objects' :
  (∀ k, k ∈ ks → Forall2 same_data (due_objects k objects) (due_objects k objects')) →
  ∀ r, all_packs ks front now r objects = all_packs ks front now r objects'.
Proof.
  induction ks as [|k ks IH]; intros Hs r; [done|]. cbn [all_packs].
  pose proof (Hs k (list_elem_of_here k ks)) as Hk. rewrite (Forall2_length _ _ _ Hk).
  rewrite (packs_of_same k front now _ _ Hk). f_equal. apply IH.
  intros k' Hk'. by apply Hs, list_elem_of_further.
Qed.

Lemma all_packs_skip ks1 ks2 front now r objects :
  (∀ k, k ∈ ks1 → due_objects k objects = []) →
  all_packs (ks1 ++ ks2) front now r objects = all_packs ks2 front now r objects.
Proof.
  induction ks1 as [|k ks1 IH]; intros Hs; [done|]. cbn [app all_packs].
  rewrite (Hs k (list_elem_of_here k ks1)). cbn. rewrite Nat.add_0_r. apply IH.
  intros k' Hk'. by apply Hs, list_elem_of_further.
Qed.

Lemma serve_all_skip ks1 o : (∀ k, k ∈ ks1 → is_due k o = false) →
  foldl (λ o k, if is_due k o then serve_one k o else o) o ks1 = o.
Proof.
  induction ks1 as [|k ks1 IH]; intros Hs; [done|]. cbn. rewrite (Hs k (list_elem_of_here k ks1)).
  apply IH. intros k' Hk'. by apply Hs, list_elem_of_further.
Qed.

(** How far there is to go. *)
Definition to_serve objects : nat :=
  sum_list_with (λ k, length (due_objects k objects)) kinds.

Section round.
Context (k : K) (ks1 ks2 : list K) (objects : list (dobject I P)).
Hypothesis Hkinds : kinds = ks1 ++ k :: ks2.
Hypothesis Hks1 : ∀ k', k' ∈ ks1 → due_objects k' objects = [].
Hypothesis Hdue : due_objects k objects ≠ [].

Notation m := (Z.to_nat (max_count k)).

Lemma other_kinds k' : k' ∈ ks1 ∨ k' ∈ ks2 → k ≠ k'.
Proof using Hkinds.
  pose proof kinds_nodup as Hn. rewrite Hkinds in Hn. apply NoDup_app in Hn as (_ & H1 & H2).
  apply NoDup_cons in H2 as [H2 _]. clear Hks1 Hdue. intros [Hk|Hk] ->; [|done].
  by apply (H1 k' Hk), list_elem_of_here.
Qed.

Lemma not_due_ks1 k' o : k' ∈ ks1 → o ∈ objects → is_due k' o = false.
Proof using Hks1.
  intros Hk Ho. destruct (is_due k' o) eqn:Ed; [|done].
  assert (Hin : o ∈ due_objects k' objects) by by apply list_elem_of_filter.
  rewrite Hks1 in Hin by done. inversion Hin.
Qed.

Lemma all_packs_round front now r :
  all_packs kinds front now r objects =
  message k (pack_of k front (now r) (due_objects k objects))
  :: all_packs kinds front now (S r) (serve k m objects).
Proof using Hdue Hks1 Hkinds.
  rewrite Hkinds, (all_packs_skip ks1 (k :: ks2) front now r objects Hks1).
  rewrite (all_packs_skip ks1 (k :: ks2) front now (S r) (serve k m objects)).
  2: { intros k' Hk'.
       pose proof (due_serve_ne k k' m objects (other_kinds k' (or_introl Hk'))) as Hs.
       rewrite Hks1 in Hs by done. by inversion Hs. }
  cbn [all_packs]. rewrite due_serve. destruct (due_objects k objects) as [|o l] eqn:El; [done|].
  cbn [length]. unfold packs_of at 1 2. cbn [pack_list fmap list_fmap length app]. f_equal.
  fold (packs_of (length l) k front now (S r) (drop m (o :: l))).
  pose proof (max_count_pos k). rewrite (packs_of_fuel k front now (length l) (length (drop m (o :: l)))) by
    (rewrite length_drop; cbn [length]; lia).
  f_equal. replace (r + S _)%nat with
    (S r + length (packs_of (length (drop m (o :: l))) k front now (S r) (drop m (o :: l))))%nat by lia.
  apply all_packs_same. intros k' Hk'. by apply due_serve_ne, other_kinds; right.
Qed.

Lemma to_serve_round : (to_serve (serve k m objects) < to_serve objects)%nat.
Proof using Hdue Hkinds.
  unfold to_serve. rewrite Hkinds, !sum_list_with_app. cbn [sum_list_with].
  assert (Hsame : ∀ ks, (∀ k', k' ∈ ks → k ≠ k') →
    sum_list_with (λ k', length (due_objects k' (serve k m objects))) ks =
    sum_list_with (λ k', length (due_objects k' objects)) ks).
  { induction ks as [|k' ks IH]; intros Hne; [done|]. cbn.
    rewrite IH by (intros; by apply Hne, list_elem_of_further).
    by rewrite <- (Forall2_length _ _ _ (due_serve_ne k k' m objects (Hne k' (list_elem_of_here _ _)))). }
  rewrite !Hsame by (intros k' Hk'; apply other_kinds; auto).
  rewrite due_serve, length_drop. pose proof (max_count_pos k).
  destruct (due_objects k objects); [done|]. cbn [length]. lia.
Qed.

Lemma all_served_round : all_served <$> serve k m objects = all_served <$> objects.
Proof using Hks1 Hkinds.
  pose proof not_due_ks1 as Hn. clear Hks1 Hdue.
  generalize m. induction objects as [|o l IH]; intros n; [done|]. cbn [serve].
  specialize (IH (λ k' o' Hk Ho, Hn k' o' Hk (list_elem_of_further _ _ _ Ho))).
  destruct (is_due k o) eqn:Ed; [destruct n as [|n]|].
  - done.
  - cbn. rewrite IH. f_equal. unfold all_served. rewrite Hkinds, !foldl_app.
    rewrite (serve_all_skip ks1 o) by (intros k' Hk; apply Hn; [done|by apply list_elem_of_here]).
    rewrite (serve_all_skip ks1 (serve_one k o)).
    + cbn [foldl]. by rewrite is_due_serve_one, Ed.
    + intros k' Hk. rewrite is_due_serve_one_ne by (apply other_kinds; auto).
      apply Hn; [done|by apply list_elem_of_here].
  - cbn. by rewrite IH.
Qed.
End round.

Lemma kind_of_split objects k : kind_of due kinds objects = Some k →
  ∃ ks1 ks2, kinds = ks1 ++ k :: ks2 ∧ (∀ k', k' ∈ ks1 → due_objects k' objects = []) ∧
             due_objects k objects ≠ [].
Proof.
  intros Hk. destruct (kind_of_due _ _ Hk) as (_ & o & Ho & Hd).
  destruct (erase_first_Some _ _ _ Hk) as (ks1 & ks2 & Hks & _ & H1 & _).
  exists ks1, ks2. split; [done|]. split.
  - intros k' Hk'. destruct (due_objects k' objects) as [|o' l] eqn:El; [done|].
    assert (Hin : o' ∈ due_objects k' objects) by (rewrite El; apply list_elem_of_here).
    apply list_elem_of_filter in Hin as [Hd' Ho']. specialize (H1 k' Hk').
    apply not_true_iff_false in H1 as []. apply existsb_exists. exists o'.
    by rewrite <- list_elem_of_In.
  - intros El. assert (Hin : o ∈ due_objects k objects) by by apply list_elem_of_filter.
    rewrite El in Hin. inversion Hin.
Qed.

Lemma to_serve_0 objects : kind_of due kinds objects = None →
  all_served <$> objects = objects ∧ ∀ front now r, all_packs kinds front now r objects = [].
Proof.
  intros Hn. apply kind_of_None in Hn. split.
  - induction Hn as [|o l Ho _ IH]; [done|]. cbn. rewrite IH. f_equal. unfold all_served.
    apply serve_all_skip. intros k Hk. by apply unchanged_not_due.
  - intros front now r. rewrite <- (app_nil_r kinds). rewrite all_packs_skip; [done|].
    intros k Hk. destruct (due_objects k objects) as [|o l] eqn:El; [done|].
    assert (Hin : o ∈ due_objects k objects) by (rewrite El; apply list_elem_of_here).
    apply list_elem_of_filter in Hin as [Hd Ho]. rewrite Forall_forall in Hn.
    specialize (Hn o Ho). by rewrite (due_changed k o Hk Hd) in Hn.
Qed.

Definition front_address objects : nat :=
  match objects with [] => 0%nat | o :: _ => address o end.

Lemma serve_front k n objects :
  length (serve k n objects) = length objects ∧
  front_address (serve k n objects) = front_address objects.
Proof.
  split.
  - revert n. induction objects as [|o l IH]; intros n; [done|]. cbn.
    destruct (is_due k o); [destruct n|]; cbn; by rewrite ?IH.
  - destruct objects as [|o l]; [done|]. cbn. destruct (is_due k o); [by destruct n|done].
Qed.

(** Everything that is due is sent, in packs that are as full as possible, kind after kind,
    and marked as served; this takes one call per pack and one that finds nothing. *)
Lemma update_until_done_spec fuel : ∀ now r objects s, at_rest s →
  Z.of_nat (length objects) < 2 ^ 31 → (to_serve objects < fuel)%nat →
  ∃ s', update_until_done proto_version fuel now r objects s =
          Some (all_packs kinds (front_address objects) now r objects, all_served <$> objects, s') ∧
        at_rest s'.
Proof using allowed.
  induction fuel as [|fuel IH]; intros now r objects s Hs Hlen Hf; [lia|]. cbn [update_until_done].
  destruct (kind_of due kinds objects) as [k|] eqn:Ek.
  - destruct (kind_of_split objects k Ek) as (ks1 & ks2 & Hks & H1 & Hd).
    destruct objects as [|o l]; [done|].
    destruct (update_remote_round (now r) l s k o Hs Ek Hlen) as (s1 & -> & Hs1).
    pose proof (to_serve_round k ks1 ks2 (o :: l) Hks Hd) as Hlt.
    destruct (serve_front k (Z.to_nat (max_count k)) (o :: l)) as [Hl Hfr].
    destruct (IH now (S r) (serve k (Z.to_nat (max_count k)) (o :: l)) s1 Hs1
      ltac:(by rewrite Hl) ltac:(clear - Hlt Hf; lia))
      as (s2 & -> & Hs2).
    exists s2. split; [|done]. cbn [mbind option_bind]. rewrite Hfr.
    rewrite (all_served_round k ks1 ks2 (o :: l) Hks H1).
    by rewrite (all_packs_round k ks1 ks2 (o :: l) Hks H1 Hd).
  - destruct (update_remote_rest (now r) objects s Hs Ek) as (s1 & -> & Hs1).
    destruct (to_serve_0 objects Ek) as [-> ->]. by exists s1.
Qed.

(** ** What the packs hold *)

Lemma set_eol_count {T} (p : datapack T) b : pack_count (datapack_set_eol b p) = pack_count p.
Proof.
  unfold datapack_set_eol. destruct (_ && _) eqn:Ec; [|done]. unfold pack_count in *.
  destruct (last (items p)) as [[t e]|]; [|done]. cbn. rewrite length_app, length_take. cbn.
  apply andb_prop in Ec as [Hc%Z.ltb_lt _]. lia.
Qed.

Lemma set_eol_lookup {T} (p : datapack T) b i t e : items p !! i = Some (t, e) →
  items (datapack_set_eol b p) !! i =
  Some (t, if decide (S i = length (items p) ∧ total_left p = 0)
           then (if b then Z.lor e END_OF_LIST_BIT else 1) else e).
Proof.
  intros Hi. assert (Hne : items p ≠ []) by (intros E; by rewrite E in Hi).
  destruct p as [its tl]. cbn [items total_left] in *. unfold datapack_set_eol, pack_count.
  cbn [items total_left]. destruct (exists_last Hne) as (l' & [t' e'] & ->).
  rewrite last_snoc, length_app. cbn [length]. pose proof (lookup_lt_Some _ _ _ Hi) as Hlt.
  rewrite length_app in Hlt. cbn [length] in Hlt.
  destruct (Z.ltb_spec 0 (Z.of_nat (length l' + 1))); [|lia]. cbn [andb].
  destruct (Z.eqb_spec tl 0) as [->|Hn]; cbn [items].
  2: { by rewrite decide_False by naive_solver. }
  rewrite Nat.add_sub, take_app_length. destruct (decide (i = length l')) as [->|Hn].
  - rewrite decide_True by (split; [lia|done]).
    rewrite lookup_app_r, Nat.sub_diag in Hi |- * by done. cbn in *. by simplify_eq.
  - rewrite decide_False by lia. rewrite lookup_app_l in Hi |- * by lia. done.
Qed.

(** The bits of the [i]-th of [n] items. *)
Definition list_bits (front : nat) (i n : nat) o : Z :=
  (if with_bits && bool_decide (front = address o) then START_OF_LIST_BIT else 0)
  + (if decide (S i = n) then END_OF_LIST_BIT else 0).

Lemma pack_of_lookup k front now l i o : l !! i = Some o → (i < Z.to_nat (max_count k))%nat →
  items (pack_of k front now l) !! i =
  Some (convert k (now (address o)) (dobject_id o) (payload o), list_bits front i (length l) o).
Proof.
  intros Hi Hm. unfold pack_of.
  assert (Hl : (pack_item k front now <$> take (Z.to_nat (max_count k)) l) !! i =
               Some (pack_item k front now o)).
  { rewrite list_lookup_fmap, lookup_take_lt by done. by rewrite Hi. }
  erewrite set_eol_lookup by exact Hl. pose proof (lookup_lt_Some _ _ _ Hi) as Hlt.
  cbn [items total_left]. rewrite length_fmap, length_take. do 2 f_equal. unfold list_bits.
  destruct (decide (S i = length l)).
  - rewrite decide_True by lia. by destruct with_bits, (bool_decide _).
  - rewrite decide_False by lia. by rewrite Z.add_0_r.
Qed.

Lemma pack_of_count k front now l : l ≠ [] →
  pack_count (pack_of k front now l) = Z.min (max_count k) (Z.of_nat (length l)).
Proof.
  intros Hne. unfold pack_of. rewrite set_eol_count. unfold pack_count. cbn [items].
  rewrite length_fmap, length_take. pose proof (max_count_pos k). lia.
Qed.

(** The packs have the objects in their order, with a mark at the end of the last pack. *)
Lemma pack_list_spec k front now fuel : ∀ r l, (length l <= fuel)%nat →
  let ps := pack_list fuel k front now r l in
  length (mjoin (items <$> ps)) = length l ∧
  Forall (λ p, 0 < pack_count p <= max_count k) ps ∧
  ∀ i o, l !! i = Some o → ∃ r',
    mjoin (items <$> ps) !! i =
    Some (convert k (now r' (address o)) (dobject_id o) (payload o), list_bits front i (length l) o).
Proof.
  pose proof (max_count_pos k) as Hmax.
  induction fuel as [|fuel IH]; intros r l Hl; [by destruct l; [|cbn in Hl; lia]|].
  destruct l as [|x l]; [done|]. cbn zeta. cbn [pack_list].
  rewrite fmap_cons, mjoin_cons, Forall_cons.
  assert (Hne : x :: l ≠ []) by done. set (all := x :: l) in *.
  assert (Hall : (0 < length all)%nat) by (cbn; lia). clearbody all.
  set (m := Z.to_nat (max_count k)).
  destruct (IH (S r) (drop m all)) as (El & Ef & Ei); [rewrite length_drop; subst m; lia|].
  pose proof (pack_of_count k front (now r) all Hne) as Hc.
  assert (Hlen : length (items (pack_of k front (now r) all)) = (m `min` length all)%nat).
  { unfold pack_count in Hc. subst m. lia. }
  rewrite length_app, El, Hlen, length_drop. split; [lia|]. split; [split; [lia|done]|].
  intros i o Hi. destruct (decide (i < m)%nat) as [Hlt|Hge].
  - exists r. pose proof (lookup_lt_Some _ _ _ Hi) as Hb.
    rewrite lookup_app_l by lia. by apply pack_of_lookup.
  - assert (Hd : drop m all !! (i - m)%nat = Some o).
    { rewrite lookup_drop. by replace (m + (i - m))%nat with i by lia. }
    destruct (Ei _ _ Hd) as (r' & E). exists r'. pose proof (lookup_lt_Some _ _ _ Hi) as Hb.
    rewrite lookup_app_r by lia. rewrite Hlen. replace (m `min` length all)%nat with m by lia.
    rewrite E. do 2 f_equal. unfold list_bits. f_equal. rewrite length_drop.
    apply decide_ext. lia.
Qed.
End pack_updater.
