(* ===== verification/Relations.v ===== *)
(** * Relations: which channels belong together

    device/abstract_common_channel_properties.cpp of the server: the relations of a channel with
    the channels that are a part of it (sensors, meters, thermometers, switches) and with those
    that it is a part of, from the parameters and configurations of the channels. The same code
    serves the channels of devices and those of clients, which differ in what they can see. *)

From S2P Require Import Prelude ChannelFunctions.

#[local] Open Scope list_scope.
#[local] Open Scope Z_scope.

(** [e_relation_kind] *)
Definition relation_any : Z := 0.
Definition relation_with_sub_channel : Z := 1.
Definition relation_with_parent_channel : Z := 2.

Definition CHANNEL_RELATION_TYPE_DEFAULT : Z := 0.
Definition CHANNEL_RELATION_TYPE_OPENING_SENSOR : Z := 1.
Definition CHANNEL_RELATION_TYPE_PARTIAL_OPENING_SENSOR : Z := 2.
Definition CHANNEL_RELATION_TYPE_METER : Z := 3.
Definition CHANNEL_RELATION_TYPE_MAIN_TERMOMETER : Z := 4.
Definition CHANNEL_RELATION_TYPE_AUX_THERMOMETER_FLOOR : Z := 5.
Definition CHANNEL_RELATION_TYPE_AUX_THERMOMETER_GENERIC_COOLER : Z := 8.
Definition CHANNEL_RELATION_TYPE_MASTER_THERMOSTAT : Z := 20.
Definition CHANNEL_RELATION_TYPE_HEAT_OR_COLD_SOURCE_SWITCH : Z := 21.
Definition CHANNEL_RELATION_TYPE_PUMP_SWITCH : Z := 22.

Definition SUPLA_HVAC_AUX_THERMOMETER_TYPE_FLOOR : Z := 2.
Definition SUPLA_HVAC_AUX_THERMOMETER_TYPE_GENERIC_COOLER : Z := 5.

(** ** Channels *)

(** What [hvac_config::get_config] gives, as far as relations need it. *)
Record hvac := Hvac {
  MainThermometerChannelNo : Z; AuxThermometerType : Z; AuxThermometerChannelNo : Z;
  BinarySensorChannelNo : Z;
  HeatOrColdSourceSwitchIsSet : bool; HeatOrColdSourceSwitchChannelNo : Z;
  PumpSwitchIsSet : bool; PumpSwitchChannelNo : Z;
  MasterThermostatIsSet : bool; MasterThermostatChannelNo : Z
}.

(** A channel with its configurations: the meter of a switch, the thermostat's configuration,
    the sensors of a valve and of a container (whether one is set, and the number of the
    channel). None where there is no document or it cannot be read. *)
Record props := Props {
  p_id : Z; p_number : Z; p_device : Z; p_type : Z; p_func : Z;
  p_param1 : Z; p_param2 : Z; p_param3 : Z;
  p_meter : option Z; p_hvac : option hvac;
  p_valve : option (list (bool * Z)); p_container : option (list (bool * Z))
}.

Record relation := Relation { rel_id : Z; rel_parent_id : Z; rel_type : Z }.

#[export] Instance relation_eq_dec : EqDecision relation.
Proof. solve_decision. Defined.

Definition same_relation (r it : relation) : bool :=
  (((rel_id it =? rel_id r) && (rel_parent_id it =? rel_parent_id r))
   || ((rel_id it =? rel_parent_id r) && (rel_parent_id it =? rel_id r)))
  && (rel_type it =? rel_type r).

Definition add_relation (relations : list relation) (r : relation) : list relation :=
  if (rel_id r =? 0) || (rel_parent_id r =? 0) then relations
  else if existsb (same_relation r) relations then relations
  else relations ++ [r].

Definition add_relations (relations news : list relation) : list relation :=
  foldl add_relation relations news.

(** [for_each]: what the function adds for each channel, and whether it goes on. *)
Fixpoint for_each (f : props → list relation * bool) (l : list props) : list relation :=
  match l with
  | [] => []
  | p :: l => let '(news, will_continue) := f p in
              news ++ (if will_continue : bool then for_each f l else [])
  end.

Definition is_func (f : Z) (l : list Z) : bool := existsb (Z.eqb f) l.

Definition gate_lock_functions : list Z :=
  [SUPLA_CHANNELFNC_CONTROLLINGTHEGATEWAYLOCK; SUPLA_CHANNELFNC_CONTROLLINGTHEGATE;
   SUPLA_CHANNELFNC_CONTROLLINGTHEGARAGEDOOR; SUPLA_CHANNELFNC_CONTROLLINGTHEDOORLOCK].

Definition shutter_functions : list Z :=
  [SUPLA_CHANNELFNC_CONTROLLINGTHEROLLERSHUTTER; SUPLA_CHANNELFNC_CONTROLLINGTHEROOFWINDOW].

Definition is_thermostat (f : Z) : bool :=
  is_func f [SUPLA_CHANNELFNC_HVAC_THERMOSTAT; SUPLA_CHANNELFNC_HVAC_THERMOSTAT_HEAT_COOL;
             SUPLA_CHANNELFNC_HVAC_THERMOSTAT_DIFFERENTIAL; SUPLA_CHANNELFNC_HVAC_DOMESTIC_HOT_WATER].

Definition is_thermometer (f : Z) : bool :=
  is_func f [SUPLA_CHANNELFNC_THERMOMETER; SUPLA_CHANNELFNC_HUMIDITYANDTEMPERATURE].

Definition has_meter_config (f : Z) : bool :=
  is_func f [SUPLA_CHANNELFNC_POWERSWITCH; SUPLA_CHANNELFNC_LIGHTSWITCH;
             SUPLA_CHANNELFNC_STAIRCASETIMER].

Definition is_meter (f : Z) : bool :=
  is_func f [SUPLA_CHANNELFNC_ELECTRICITY_METER; SUPLA_CHANNELFNC_IC_ELECTRICITY_METER;
             SUPLA_CHANNELFNC_IC_GAS_METER; SUPLA_CHANNELFNC_IC_WATER_METER;
             SUPLA_CHANNELFNC_IC_HEAT_METER].

Definition is_opening_sensor (f : Z) : bool :=
  is_func f [SUPLA_CHANNELFNC_OPENINGSENSOR_GATEWAY; SUPLA_CHANNELFNC_OPENINGSENSOR_GATE;
             SUPLA_CHANNELFNC_OPENINGSENSOR_GARAGEDOOR; SUPLA_CHANNELFNC_OPENINGSENSOR_DOOR;
             SUPLA_CHANNELFNC_OPENINGSENSOR_ROLLERSHUTTER; SUPLA_CHANNELFNC_OPENINGSENSOR_ROOFWINDOW].

(** An auxiliary thermometer that counts. *)
Definition aux_is_used (h : hvac) : bool :=
  (SUPLA_HVAC_AUX_THERMOMETER_TYPE_FLOOR <=? AuxThermometerType h)
  && (AuxThermometerType h <=? SUPLA_HVAC_AUX_THERMOMETER_TYPE_GENERIC_COOLER).

Section relations.
(** [get_protocol_version], and the channels that [for_each] goes through for a channel: those
    of its device, and those of all devices. *)
Variable protocol_version : Z.
Variables local any : props → list props.

Section of_channel.
Variable self : props.
Notation id := (p_id self).
Notation number := (p_number self).
Notation func := (p_func self).
Notation type := (p_type self).

(** [get_sensor_relations], with [sensors] for the configuration. *)
Definition sensor_relations (sensors : props → option (list (bool * Z)))
    (kind parent_type own_type parent_func own_func related_func : Z) : list relation :=
  if protocol_version <? 27 then []
  else
    (if (((negb (parent_func =? 0)) && (parent_func =? own_func))
         || ((negb (parent_type =? 0)) && (parent_type =? own_type)))
        && ((kind =? relation_any) || (kind =? relation_with_sub_channel))
     then match sensors self with
          | None => []
          | Some infos =>
              mjoin ((λ '(is_set, no),
                 if is_set : bool then
                   for_each (λ p, if (no =? p_number p) && (p_func p =? related_func)
                                  then ([Relation (p_id p) id CHANNEL_RELATION_TYPE_DEFAULT], false)
                                  else ([], true)) (local self)
                 else []) <$> infos)
          end
     else []) ++
    (if (own_func =? related_func)
        && ((kind =? relation_any) || (kind =? relation_with_parent_channel))
     then for_each (λ p,
            if ((negb (parent_func =? 0)) && (parent_func =? p_func p))
               || ((negb (parent_type =? 0)) && (parent_type =? p_type p))
            then match sensors p with
                 | None => ([], true)
                 | Some infos =>
                     if existsb (λ '(is_set, no), is_set && (no =? number)) infos
                     then ([Relation id (p_id p) CHANNEL_RELATION_TYPE_DEFAULT], false)
                     else ([], true)
                 end
            else ([], true)) (local self)
     else []).

(** What a thermostat finds in another channel. *)
Definition thermostat_part (p : props) : list relation :=
  (match p_hvac self with
   | None => []
   | Some h =>
       (if negb (MainThermometerChannelNo h =? number)
           && (MainThermometerChannelNo h =? p_number p) && is_thermometer (p_func p)
        then [Relation (p_id p) id CHANNEL_RELATION_TYPE_MAIN_TERMOMETER] else []) ++
       (if aux_is_used h && negb (AuxThermometerChannelNo h =? number)
           && (AuxThermometerChannelNo h =? p_number p) && is_thermometer (p_func p)
        then [Relation (p_id p) id (AuxThermometerType h + 3)] else []) ++
       (if negb (BinarySensorChannelNo h =? number) && (BinarySensorChannelNo h =? p_number p)
           && (p_type p =? SUPLA_CHANNELTYPE_BINARYSENSOR)
        then [Relation (p_id p) id CHANNEL_RELATION_TYPE_DEFAULT] else []) ++
       (if 25 <=? protocol_version then
          (if HeatOrColdSourceSwitchIsSet h && (HeatOrColdSourceSwitchChannelNo h =? p_number p)
              && (p_func p =? SUPLA_CHANNELFNC_HEATORCOLDSOURCESWITCH)
           then [Relation (p_id p) id CHANNEL_RELATION_TYPE_HEAT_OR_COLD_SOURCE_SWITCH] else []) ++
          (if PumpSwitchIsSet h && (PumpSwitchChannelNo h =? p_number p)
              && (p_func p =? SUPLA_CHANNELFNC_PUMPSWITCH)
           then [Relation (p_id p) id CHANNEL_RELATION_TYPE_PUMP_SWITCH] else [])
        else [])
   end) ++
  (if (25 <=? protocol_version) && is_thermostat (p_func p) then
     match p_hvac p with
     | Some h => if MasterThermostatIsSet h && (MasterThermostatChannelNo h =? number)
                 then [Relation (p_id p) id CHANNEL_RELATION_TYPE_MASTER_THERMOSTAT] else []
     | None => []
     end
   else []).

Definition sub_relations : list relation :=
  if is_func func gate_lock_functions
  then [Relation (p_param2 self) id CHANNEL_RELATION_TYPE_OPENING_SENSOR;
        Relation (p_param3 self) id CHANNEL_RELATION_TYPE_PARTIAL_OPENING_SENSOR]
  else if is_func func shutter_functions
  then [Relation (p_param2 self) id CHANNEL_RELATION_TYPE_OPENING_SENSOR]
  else if has_meter_config func
  then match p_meter self with
       | Some meter => [Relation meter id CHANNEL_RELATION_TYPE_METER]
       | None => []
       end
  else if is_thermostat func then for_each (λ p, (thermostat_part p, true)) (local self)
  else [].

(** What a part of a thermostat finds in one. *)
Definition part_of_thermostat (p : props) : list relation :=
  if is_thermostat (p_func p) then
    match p_hvac p with
    | None => []
    | Some h =>
        if type =? SUPLA_CHANNELTYPE_BINARYSENSOR then
          if BinarySensorChannelNo h =? number
          then [Relation id (p_id p) CHANNEL_RELATION_TYPE_DEFAULT] else []
        else if is_thermometer func then
          (if MainThermometerChannelNo h =? number
           then [Relation id (p_id p) CHANNEL_RELATION_TYPE_MAIN_TERMOMETER] else []) ++
          (if aux_is_used h && (AuxThermometerChannelNo h =? number)
           then [Relation id (p_id p) (AuxThermometerType h + 3)] else [])
        else if func =? SUPLA_CHANNELFNC_HEATORCOLDSOURCESWITCH then
          if (25 <=? protocol_version) && HeatOrColdSourceSwitchIsSet h
             && (HeatOrColdSourceSwitchChannelNo h =? number)
          then [Relation id (p_id p) CHANNEL_RELATION_TYPE_HEAT_OR_COLD_SOURCE_SWITCH] else []
        else if func =? SUPLA_CHANNELFNC_PUMPSWITCH then
          if (25 <=? protocol_version) && PumpSwitchIsSet h && (PumpSwitchChannelNo h =? number)
          then [Relation id (p_id p) CHANNEL_RELATION_TYPE_PUMP_SWITCH] else []
        else []
    end
  else [].

Definition parent_relations : list relation :=
  (if is_opening_sensor func
   then [Relation id (p_param1 self) CHANNEL_RELATION_TYPE_OPENING_SENSOR;
         Relation id (p_param2 self) CHANNEL_RELATION_TYPE_PARTIAL_OPENING_SENSOR]
   else if is_meter func
   then for_each (λ p, (if has_meter_config (p_func p) then
                          match p_meter p with
                          | Some meter => if meter =? id
                                          then [Relation id (p_id p) CHANNEL_RELATION_TYPE_METER]
                                          else []
                          | None => []
                          end
                        else [], true)) (any self)
   else []) ++
  (if (25 <=? protocol_version) && is_thermostat func then
     match p_hvac self with
     | Some h => if MasterThermostatIsSet h then
                   for_each (λ p, if MasterThermostatChannelNo h =? p_number p
                                  then ([Relation id (p_id p) CHANNEL_RELATION_TYPE_MASTER_THERMOSTAT],
                                        false)
                                  else ([], true)) (local self)
                 else []
     | None => []
     end
   else []) ++
  (if (type =? SUPLA_CHANNELTYPE_BINARYSENSOR) || is_thermometer func
      || (func =? SUPLA_CHANNELFNC_PUMPSWITCH) || (func =? SUPLA_CHANNELFNC_HEATORCOLDSOURCESWITCH)
   then for_each (λ p, (part_of_thermostat p, true)) (local self)
   else []).

(** [get_channel_relations]: what it adds, in this order. *)
Definition found (kind : Z) : list relation :=
  sensor_relations p_valve kind 0 0 SUPLA_CHANNELFNC_VALVE_OPENCLOSE func
    SUPLA_CHANNELFNC_FLOOD_SENSOR ++
  sensor_relations p_container kind SUPLA_CHANNELTYPE_CONTAINER type 0 func
    SUPLA_CHANNELFNC_CONTAINER_LEVEL_SENSOR ++
  (if (kind =? relation_any) || (kind =? relation_with_sub_channel) then sub_relations else []) ++
  (if (kind =? relation_any) || (kind =? relation_with_parent_channel) then parent_relations
   else []).

Definition get_channel_relations (relations : list relation) (kind : Z) : list relation :=
  add_relations relations (found kind).
End of_channel.

(** The relations of all channels of a client, for [supla_client_channel_reactions::load]. *)
Definition all_relations (channels : list props) : list relation :=
  foldl (λ rels self, get_channel_relations self rels relation_any) [] channels.
End relations.

(** ** Who sees what *)

(** [for_each] of a channel of a client: the channels of the client. *)
Definition client_local (channels : list props) (self : props) : list props :=
  filter (λ p, p_device p = p_device self) channels.

Definition client_any (channels : list props) (self : props) : list props := channels.

(** [for_each] of a channel of a device: first the channels of its own device, then those of each
    device of the user whose identifier differs from that of the channel (as it is written). *)
Definition device_local (own : list props) (self : props) : list props := own.

Definition device_any (own : list props) (devices : list (Z * list props)) (self : props)
    : list props :=
  own ++ mjoin (snd <$> filter (λ d, d.1 ≠ p_id self) devices).

(** [supla_device_channel::get_protocol_version]: the conjunction of a pointer with a version. *)
Definition device_channel_protocol_version (version : Z) : Z := if version =? 0 then 0 else 1.

(** ** Facts about the lists of relations *)

Lemma same_relation_refl (r : relation) : same_relation r r = true.
Proof. unfold same_relation. by rewrite !Z.eqb_refl. Qed.

(** Relations with one and the same channel differ when [same_relation] says so. *)
Lemma same_relation_eq (r it : relation) :
  rel_parent_id r = rel_parent_id it ∨ rel_id r = rel_id it →
  same_relation r it = true → r = it.
Proof.
  destruct r as [i p t], it as [i' p' t']; unfold same_relation; cbn.
  rewrite andb_true_iff, orb_true_iff, !andb_true_iff, !Z.eqb_eq.
  intros H [H' ->]. f_equal; lia.
Qed.

Definition real (r : relation) : Prop := rel_id r ≠ 0 ∧ rel_parent_id r ≠ 0.

Lemma elem_of_add_relation (rels : list relation) (n r : relation) :
  (∀ x, x ∈ rels → rel_parent_id n = rel_parent_id x ∨ rel_id n = rel_id x) →
  r ∈ add_relation rels n ↔ r ∈ rels ∨ (r = n ∧ real n).
Proof.
  intros H. unfold add_relation, real.
  destruct (Z.eqb_spec (rel_id n) 0) as [Hi | Hi]; cbn [orb]; [naive_solver|].
  destruct (Z.eqb_spec (rel_parent_id n) 0) as [Hp | Hp]; [naive_solver|].
  destruct (existsb (same_relation n) rels) eqn:He.
  - split; [by left|]. intros [? | [-> _]]; [done|].
    apply existsb_exists in He as (x & Hx & Hs). apply list_elem_of_In in Hx.
    apply same_relation_eq in Hs as ->; auto.
  - rewrite elem_of_app, list_elem_of_singleton. naive_solver.
Qed.

(** When all relations share the parent, or the part, nothing is lost but those without a
    channel. *)
Lemma elem_of_add_relations (g : relation → Z) (rels news : list relation) (r : relation) :
  (g = rel_parent_id ∨ g = rel_id) →
  (∀ x y, x ∈ rels ++ news → y ∈ rels ++ news → g x = g y) →
  r ∈ add_relations rels news ↔ r ∈ rels ∨ (r ∈ news ∧ real r).
Proof.
  intros Hg. unfold add_relations. revert rels.
  induction news as [|n news IH]; intros rels H; cbn [foldl]; [set_solver|].
  assert (Hn : ∀ x, x ∈ rels → rel_parent_id n = rel_parent_id x ∨ rel_id n = rel_id x).
  { intros x Hx. assert (g n = g x) by (apply H; set_solver). destruct Hg; subst g; auto. }
  rewrite IH.
  - rewrite (elem_of_add_relation _ _ _ Hn), elem_of_cons. naive_solver.
  - intros x y. rewrite !elem_of_app, !(elem_of_add_relation _ _ _ Hn).
    intros Hx Hy. apply H; set_solver.
Qed.

Lemma elem_of_for_each_all (f : props → list relation) (l : list props) (r : relation) :
  r ∈ for_each (λ p, (f p, true)) l ↔ ∃ p, p ∈ l ∧ r ∈ f p.
Proof. induction l as [|p l IH]; cbn; set_solver. Qed.

Lemma elem_of_for_each (f : props → list relation * bool) (l : list props) (r : relation) :
  r ∈ for_each f l → ∃ p, p ∈ l ∧ r ∈ (f p).1.
Proof.
  induction l as [|p l IH]; cbn; [set_solver|].
  destruct (f p) as [news []] eqn:E; rewrite elem_of_app.
  - intros [? | (q & ? & ?)%IH]; [exists p; rewrite E|exists q]; set_solver.
  - intros [? | ?]; [exists p; rewrite E|]; set_solver.
Qed.

Lemma elem_of_if {A} (b : bool) (x : A) (l : list A) :
  x ∈ (if b then l else []) ↔ b = true ∧ x ∈ l.
Proof. destruct b; set_solver. Qed.

Lemma is_func_elem (f : Z) (l : list Z) : is_func f l = true ↔ f ∈ l.
Proof.
  unfold is_func. rewrite existsb_exists. split.
  - intros (x & Hx & ->%Z.eqb_eq). by apply list_elem_of_In.
  - intros H. exists f. rewrite Z.eqb_eq. by rewrite <- list_elem_of_In.
Qed.

(** ** The two sides of a relation *)

(** What a channel [c] is for a channel [p], from their configurations alone. *)
Definition plays (version : Z) (p c : props) (t : Z) : bool :=
  if t =? CHANNEL_RELATION_TYPE_METER then
    has_meter_config (p_func p) && is_meter (p_func c)
    && match p_meter p with Some meter => meter =? p_id c | None => false end
  else
    (p_device p =? p_device c) && is_thermostat (p_func p)
    && match p_hvac p with
       | None => false
       | Some h =>
           ((t =? CHANNEL_RELATION_TYPE_MAIN_TERMOMETER) && is_thermometer (p_func c)
            && (MainThermometerChannelNo h =? p_number c))
           || ((t =? AuxThermometerType h + 3) && aux_is_used h && is_thermometer (p_func c)
               && (AuxThermometerChannelNo h =? p_number c))
           || ((25 <=? version) && (t =? CHANNEL_RELATION_TYPE_HEAT_OR_COLD_SOURCE_SWITCH)
               && (p_func c =? SUPLA_CHANNELFNC_HEATORCOLDSOURCESWITCH)
               && HeatOrColdSourceSwitchIsSet h && (HeatOrColdSourceSwitchChannelNo h =? p_number c))
           || ((25 <=? version) && (t =? CHANNEL_RELATION_TYPE_PUMP_SWITCH)
               && (p_func c =? SUPLA_CHANNELFNC_PUMPSWITCH)
               && PumpSwitchIsSet h && (PumpSwitchChannelNo h =? p_number c))
       end.

(** The types of relations that the two sides find in the same configuration. *)
Definition two_sided : list Z :=
  [CHANNEL_RELATION_TYPE_METER; CHANNEL_RELATION_TYPE_MAIN_TERMOMETER;
   CHANNEL_RELATION_TYPE_AUX_THERMOMETER_FLOOR; 6; 7;
   CHANNEL_RELATION_TYPE_AUX_THERMOMETER_GENERIC_COOLER;
   CHANNEL_RELATION_TYPE_HEAT_OR_COLD_SOURCE_SWITCH; CHANNEL_RELATION_TYPE_PUMP_SWITCH].

(** Channels have identifiers, numbers within their device, and a binary sensor measures no
    temperature and switches nothing. *)
Definition is_binary (p : props) : bool := p_type p =? SUPLA_CHANNELTYPE_BINARYSENSOR.

Definition of_binary (p : props) : bool :=
  negb (is_thermometer (p_func p)
        || is_func (p_func p) [SUPLA_CHANNELFNC_PUMPSWITCH; SUPLA_CHANNELFNC_HEATORCOLDSOURCESWITCH]).

Definition channels_ok (cs : list props) : Prop :=
  NoDup (p_id <$> cs) ∧ (∀ p q, p ∈ cs → q ∈ cs → p_device p = p_device q →
                                p_number p = p_number q → p = q) ∧
  (∀ p, p ∈ cs → p_id p ≠ 0 ∧ (is_binary p = true → of_binary p = true)).

Lemma id_inj (cs : list props) (p q : props) :
  channels_ok cs → p ∈ cs → q ∈ cs → p_id p = p_id q → p = q.
Proof.
  intros (Hnd & _) (i & Hp)%list_elem_of_lookup (j & Hq)%list_elem_of_lookup He.
  assert (i = j) as ->; [|by simplify_eq].
  apply (NoDup_lookup _ i j (p_id p) Hnd); rewrite list_lookup_fmap;
    [by rewrite Hp | by rewrite Hq, He].
Qed.

(** The functions are of one kind each. *)
Ltac by_func :=
  let H := fresh in
  intros H%is_func_elem; repeat (apply elem_of_cons in H as [-> | H]; [done|]);
  by apply elem_of_nil in H.

Lemma thermostat_measures (f : Z) : is_thermostat f = true → is_thermometer f = false.
Proof. by_func. Qed.

Lemma thermostat_no_meter (f : Z) : is_thermostat f = true → has_meter_config f = false.
Proof. by_func. Qed.

Lemma gates_kind (f : Z) :
  is_func f gate_lock_functions = true → has_meter_config f = false ∧ is_thermostat f = false.
Proof. by_func. Qed.

Lemma shutters_kind (f : Z) :
  is_func f shutter_functions = true →
  has_meter_config f = false ∧ is_thermostat f = false.
Proof. by_func. Qed.

Lemma meter_no_sensor (f : Z) : is_meter f = true → is_opening_sensor f = false.
Proof. by_func. Qed.

Lemma measure_no_switch (f : Z) :
  is_thermometer f = true →
  f ≠ SUPLA_CHANNELFNC_HEATORCOLDSOURCESWITCH ∧ f ≠ SUPLA_CHANNELFNC_PUMPSWITCH.
Proof. by_func. Qed.

(** What membership in such a list comes to. *)
Ltac members H :=
  repeat (rewrite elem_of_app in H || rewrite elem_of_if in H || rewrite elem_of_nil in H
          || rewrite list_elem_of_singleton in H).

(** One role at a time. *)
Lemma relation_type_eq (i p t t' : Z) : Relation i p t = Relation i p t' ↔ t = t'.
Proof. naive_solver. Qed.

Ltac role H :=
  unfold CHANNEL_RELATION_TYPE_MAIN_TERMOMETER, CHANNEL_RELATION_TYPE_DEFAULT,
    CHANNEL_RELATION_TYPE_MASTER_THERMOSTAT, CHANNEL_RELATION_TYPE_HEAT_OR_COLD_SOURCE_SWITCH,
    CHANNEL_RELATION_TYPE_PUMP_SWITCH, aux_is_used, SUPLA_HVAC_AUX_THERMOMETER_TYPE_FLOOR,
    SUPLA_HVAC_AUX_THERMOMETER_TYPE_GENERIC_COOLER in *;
  rewrite ?relation_type_eq, ?orb_true_iff, ?andb_true_iff, ?negb_true_iff, ?Z.eqb_eq,
    ?Z.eqb_neq, ?Z.leb_le in *;
  first [done | destruct_or? H; destruct_and? H; try lia; simplify_eq; naive_solver lia | idtac].

(** Each piece has the channel and the one it was found in. *)
Lemma thermostat_part_of (version : Z) (self q : props) (r : relation) :
  r ∈ thermostat_part version self q → rel_parent_id r = p_id self ∧ rel_id r = p_id q.
Proof.
  unfold thermostat_part. intros H. rewrite elem_of_app in H. destruct H as [H | H].
  - destruct (p_hvac self); members H; naive_solver.
  - rewrite elem_of_if in H. destruct H as [_ H]. destruct (p_hvac q); members H; naive_solver.
Qed.

Lemma part_of_thermostat_of (version : Z) (self q : props) (r : relation) :
  r ∈ part_of_thermostat version self q → rel_id r = p_id self ∧ rel_parent_id r = p_id q.
Proof.
  unfold part_of_thermostat. intros [_ H]%elem_of_if.
  destruct (p_hvac q); [|set_solver]. repeat case_match; members H; naive_solver.
Qed.

Lemma meter_part_of (self q : props) (r : relation) :
  r ∈ (if has_meter_config (p_func q) then
         match p_meter q with
         | Some meter => if meter =? p_id self
                         then [Relation (p_id self) (p_id q) CHANNEL_RELATION_TYPE_METER] else []
         | None => []
         end
       else []) →
  r = Relation (p_id self) (p_id q) CHANNEL_RELATION_TYPE_METER
  ∧ has_meter_config (p_func q) = true ∧ p_meter q = Some (p_id self).
Proof.
  intros [Hm H]%elem_of_if. destruct (p_meter q); members H; [|done].
  destruct H as [->%Z.eqb_eq ->]. auto.
Qed.

(** The master of a thermostat. *)
Lemma master_of (self : props) (h : hvac) (l : list props) (r : relation) :
  r ∈ for_each (λ p, if MasterThermostatChannelNo h =? p_number p
                     then ([Relation (p_id self) (p_id p) CHANNEL_RELATION_TYPE_MASTER_THERMOSTAT],
                           false)
                     else ([], true)) l →
  rel_id r = p_id self ∧ rel_type r = CHANNEL_RELATION_TYPE_MASTER_THERMOSTAT.
Proof.
  intros (q & _ & H)%elem_of_for_each. destruct (_ =? _) in H; cbn in H; members H; naive_solver.
Qed.

Section sides.
Variable version : Z.
Variables local any : props → list props.

Lemma sensor_relations_default (self : props) sensors kind pt ot pf f rf (r : relation) :
  r ∈ sensor_relations version local self sensors kind pt ot pf f rf →
  rel_type r = CHANNEL_RELATION_TYPE_DEFAULT
  ∧ (kind = relation_with_sub_channel → rel_parent_id r = p_id self)
  ∧ (kind = relation_with_parent_channel → rel_id r = p_id self).
Proof.
  unfold sensor_relations. destruct (version <? 27); [set_solver|].
  rewrite elem_of_app, !elem_of_if. intros [[Hc Hr] | [Hc Hr]].
  - destruct (sensors self) as [infos|]; [|set_solver].
    apply list_elem_of_join in Hr as (l & Hr & ([[] no] & -> & _)%list_elem_of_fmap).
    2: set_solver. apply elem_of_for_each in Hr as (q & _ & Hq).
    destruct (_ && _) in Hq; cbn in Hq; [|set_solver].
    apply list_elem_of_singleton in Hq as ->; cbn.
    split; [done|]. split; [done|]. intros ->. by rewrite andb_false_r in Hc.
  - apply elem_of_for_each in Hr as (q & _ & Hq).
    destruct (_ || _) in Hq; cbn in Hq; [|set_solver].
    destruct (sensors q) as [infos|]; cbn in Hq; [|set_solver].
    destruct (existsb _ infos); cbn in Hq; [|set_solver].
    apply list_elem_of_singleton in Hq as ->; cbn.
    split; [done|]. split; [|done]. intros ->. by rewrite andb_false_r in Hc.
Qed.

(** What the sensors' configurations give, for a kind. *)
Definition by_sensors (self : props) (kind : Z) : list relation :=
  sensor_relations version local self p_valve kind 0 0 SUPLA_CHANNELFNC_VALVE_OPENCLOSE
    (p_func self) SUPLA_CHANNELFNC_FLOOD_SENSOR ++
  sensor_relations version local self p_container kind SUPLA_CHANNELTYPE_CONTAINER (p_type self) 0
    (p_func self) SUPLA_CHANNELFNC_CONTAINER_LEVEL_SENSOR.

Lemma found_sub (self : props) :
  found version local any self relation_with_sub_channel
  = by_sensors self relation_with_sub_channel ++ sub_relations version local self.
Proof.
  unfold found, by_sensors. rewrite <- !app_assoc. do 2 f_equal. apply app_nil_r.
Qed.

Lemma found_parent (self : props) :
  found version local any self relation_with_parent_channel
  = by_sensors self relation_with_parent_channel ++ parent_relations version local any self.
Proof. unfold found, by_sensors. rewrite <- app_assoc. reflexivity. Qed.

Lemma by_sensors_default (self : props) kind (r : relation) :
  r ∈ by_sensors self kind →
  rel_type r = CHANNEL_RELATION_TYPE_DEFAULT
  ∧ (kind = relation_with_sub_channel → rel_parent_id r = p_id self)
  ∧ (kind = relation_with_parent_channel → rel_id r = p_id self).
Proof.
  unfold by_sensors. rewrite elem_of_app.
  intros [H | H]; by apply sensor_relations_default in H.
Qed.

(** All that a channel finds as a whole has it for the parent; all that it finds as a part, for
    the part. *)
Lemma sub_found_parent (self : props) (r : relation) :
  r ∈ found version local any self relation_with_sub_channel → rel_parent_id r = p_id self.
Proof.
  rewrite found_sub, elem_of_app. intros [(_ & H & _)%by_sensors_default | H]; [by apply H|].
  unfold sub_relations in H.
  destruct (is_func (p_func self) _); [set_solver|].
  destruct (is_func (p_func self) _); [set_solver|].
  destruct (has_meter_config _); [destruct (p_meter self); set_solver|].
  by apply elem_of_if in H as [_ (q & _ & [? _]%thermostat_part_of)%elem_of_for_each_all].
Qed.

Lemma parent_found_id (self : props) (r : relation) :
  r ∈ found version local any self relation_with_parent_channel → rel_id r = p_id self.
Proof.
  rewrite found_parent, elem_of_app.
  intros [(_ & _ & H)%by_sensors_default | H]; [by apply H|].
  unfold parent_relations in H. rewrite !elem_of_app in H. destruct H as [H | [H | H]].
  - destruct (is_opening_sensor _); [set_solver|].
    by apply elem_of_if in H as [_ (q & _ & (-> & _)%meter_part_of)%elem_of_for_each_all].
  - apply elem_of_if in H as [_ H]. destruct (p_hvac self); [|set_solver].
    by apply elem_of_if in H as [_ [? _]%master_of].
  - by apply elem_of_if in H as [_ (q & _ & [? _]%part_of_thermostat_of)%elem_of_for_each_all].
Qed.

(** In the lists of either kind nothing is dropped but what has no channel. *)
Lemma elem_of_sub (self : props) (r : relation) :
  r ∈ get_channel_relations version local any self [] relation_with_sub_channel
  ↔ r ∈ found version local any self relation_with_sub_channel ∧ real r.
Proof.
  unfold get_channel_relations. rewrite (elem_of_add_relations rel_parent_id); [set_solver| auto|].
  cbn. by intros x y ->%sub_found_parent ->%sub_found_parent.
Qed.

Lemma elem_of_parent (self : props) (r : relation) :
  r ∈ get_channel_relations version local any self [] relation_with_parent_channel
  ↔ r ∈ found version local any self relation_with_parent_channel ∧ real r.
Proof.
  unfold get_channel_relations. rewrite (elem_of_add_relations rel_id); [set_solver| auto|].
  cbn. by intros x y ->%parent_found_id ->%parent_found_id.
Qed.

End sides.

Section agree.
Variables (version : Z) (cs : list props).
Notation local := (client_local cs).
Notation any := (client_any cs).

Lemma elem_of_local (p q : props) : q ∈ local p ↔ p_device q = p_device p ∧ q ∈ cs.
Proof. unfold client_local. by rewrite list_elem_of_filter. Qed.

Hypothesis Hok : channels_ok cs.

Section pair.
Variables (p c : props) (t : Z).
Hypothesis Hp : p ∈ cs.
Hypothesis Hc : c ∈ cs.
Hypothesis Ht : t ∈ two_sided.
Notation r := (Relation (p_id c) (p_id p) t).

Lemma two_sided_real : real r.
Proof using Hok Hp Hc. destruct Hok as (_ & _ & H). split; cbn; by apply H. Qed.

Lemma two_sided_cases : t = 3 ∨ 4 ≤ t ≤ 8 ∨ t = 21 ∨ t = 22.
Proof using Ht.
  clear -Ht. unfold two_sided in Ht. rewrite !elem_of_cons, elem_of_nil in Ht.
  cbv in Ht. lia.
Qed.

Lemma thermometer_number :
  is_thermostat (p_func p) = true → is_thermometer (p_func c) = true →
  p_device p = p_device c → p_number p ≠ p_number c.
Proof using Hok Hp Hc.
  intros Hs Hm Hd Hn. destruct Hok as (_ & Hu & _).
  rewrite <- (Hu p c Hp Hc Hd Hn) in Hm. by rewrite thermostat_measures in Hm.
Qed.

(** The side of the whole. *)
Lemma thermostat_part_plays :
  is_thermostat (p_func p) = true → p_device c = p_device p →
  r ∈ thermostat_part version p c ↔ plays version p c t = true.
Proof using Hok Hp Hc Ht.
  intros Hs Hd. pose proof two_sided_cases as Htc.
  pose proof (λ H, thermometer_number Hs H (eq_sym Hd)) as Hn.
  unfold thermostat_part, plays, CHANNEL_RELATION_TYPE_METER.
  rewrite Hs, (thermostat_no_meter _ Hs), Hd, Z.eqb_refl. cbn [andb].
  rewrite elem_of_app, elem_of_if. destruct (Z.eqb_spec t 3) as [-> | Ht3].
  - split; [|done]. intros [H | [_ H]].
    + destruct (p_hvac p) as [h|]; members H; role H.
    + destruct (p_hvac c) as [h|]; members H; role H.
  - split.
    + intros [H | [_ H]].
      * destruct (p_hvac p) as [h|]; members H; role H.
      * destruct (p_hvac c) as [h|]; members H; role H.
    + destruct (p_hvac p) as [h|]; [|done]. intros H. left.
      rewrite !elem_of_app, !elem_of_if, elem_of_app, !elem_of_if, !list_elem_of_singleton.
      role H.
Qed.

(** The side of the part. *)
Lemma part_of_thermostat_plays :
  is_thermostat (p_func p) = true → p_device c = p_device p →
  r ∈ part_of_thermostat version c p ↔ plays version p c t = true.
Proof using Hok Hp Hc Ht.
  intros Hs Hd. pose proof two_sided_cases as Htc.
  assert (Hb : is_binary c = true → of_binary c = true) by (destruct Hok as (_ & _ & H); by apply H).
  pose proof (measure_no_switch (p_func c)) as Hm.
  unfold part_of_thermostat, plays, CHANNEL_RELATION_TYPE_METER, is_binary, of_binary in *.
  rewrite Hs, (thermostat_no_meter _ Hs), Hd, Z.eqb_refl. cbn [andb].
  destruct (p_hvac p) as [h|]; [|by destruct (t =? 3); rewrite elem_of_nil].
  assert (Hf : (p_type c =? SUPLA_CHANNELTYPE_BINARYSENSOR) = true →
               is_thermometer (p_func c) = false
               ∧ (p_func c =? SUPLA_CHANNELFNC_HEATORCOLDSOURCESWITCH) = false
               ∧ (p_func c =? SUPLA_CHANNELFNC_PUMPSWITCH) = false).
  { intros E%Hb. rewrite negb_true_iff in E.
    cbn [is_func existsb] in E. rewrite !orb_false_iff in E. tauto. }
  clear Hb. destruct (p_type c =? _); [destruct Hf as (-> & -> & ->); [done|]|clear Hf].
  - split; intros H; [members H; role H|]. destruct (Z.eqb_spec t 3); [done|]. role H.
  - destruct (is_thermometer (p_func c)).
    + destruct (Hm eq_refl) as [Hh%Z.eqb_neq Hq%Z.eqb_neq]. rewrite Hh, Hq. clear Hh Hq Hm.
      rewrite elem_of_app, !elem_of_if, !list_elem_of_singleton.
      split; intros H; destruct (Z.eqb_spec t 3); role H.
    + clear Hm. destruct (p_func c =? SUPLA_CHANNELFNC_HEATORCOLDSOURCESWITCH) eqn:Eh;
        destruct (p_func c =? SUPLA_CHANNELFNC_PUMPSWITCH) eqn:Ep;
        [apply Z.eqb_eq in Eh, Ep; by rewrite Eh in Ep|..]; clear Eh Ep;
        rewrite ?elem_of_if, ?list_elem_of_singleton, ?elem_of_nil;
        split; intros H; destruct (Z.eqb_spec t 3); role H.
Qed.

Lemma plays_kind :
  plays version p c t = true →
  (t = 3 ∧ has_meter_config (p_func p) = true ∧ is_meter (p_func c) = true
   ∧ p_meter p = Some (p_id c))
  ∨ (t ≠ 3 ∧ is_thermostat (p_func p) = true ∧ p_device c = p_device p).
Proof using Type.
  clear. unfold plays, CHANNEL_RELATION_TYPE_METER.
  destruct (Z.eqb_spec t 3); rewrite !andb_true_iff; [|intros [[?%Z.eqb_eq ?] _]; by right].
  intros [[Hm Hc] Hi]. left. destruct (p_meter p); [|done]. apply Z.eqb_eq in Hi as ->. auto.
Qed.

Lemma sub_plays :
  (t = CHANNEL_RELATION_TYPE_METER → is_meter (p_func c) = true) →
  r ∈ sub_relations version local p ↔ plays version p c t = true.
Proof using Hok Hp Hc Ht.
  intros Hmeter. pose proof two_sided_cases as Htc. unfold sub_relations.
  assert (Hno : has_meter_config (p_func p) = false ∧ is_thermostat (p_func p) = false →
                plays version p c t ≠ true).
  { intros [H1 H2] H. destruct (plays_kind H) as [(_ & H' & _) | (_ & H' & _)]; congruence. }
  destruct (is_func (p_func p) _) eqn:Eg; [|clear Eg; destruct (is_func (p_func p) _) eqn:Es].
  3: clear Es; destruct (has_meter_config (p_func p)) eqn:Em.
  - apply gates_kind in Eg. split; [|by intros H%Hno].
    intros [H | H%list_elem_of_singleton]%elem_of_cons; injection H as _ Et; cbv in Et; lia.
  - apply shutters_kind in Es. split; [|by intros H%Hno].
    intros H%list_elem_of_singleton. injection H as _ Et. cbv in Et. lia.
  - destruct (p_meter p) as [m|] eqn:Hm.
    + rewrite list_elem_of_singleton. split.
      * intros [= <- ->]. unfold plays. rewrite Em, Hm, Hmeter by done. cbn. apply Z.eqb_refl.
      * intros [(Et & _ & _ & E) | (_ & Hs & _)]%plays_kind; [by simplify_eq|].
        by rewrite (thermostat_no_meter _ Hs) in Em.
    + split; [by intros H%elem_of_nil|].
      intros [(_ & _ & _ & E) | (_ & Hs & _)]%plays_kind; [by simplify_eq|].
      by rewrite (thermostat_no_meter _ Hs) in Em.
  - rewrite elem_of_if, elem_of_for_each_all. split.
    + intros [Hs (q & [Hd Hq]%elem_of_local & Hr)].
      destruct (thermostat_part_of _ _ _ _ Hr) as [_ Hi]. cbn in Hi.
      apply (id_inj cs c q Hok Hc Hq) in Hi as <-. by apply thermostat_part_plays.
    + intros H. destruct (plays_kind H) as [(_ & ? & _) | (_ & Hs & Hd)]; [congruence|].
      split; [done|]. exists c. rewrite elem_of_local. split; [done|].
      by apply thermostat_part_plays.
Qed.

Lemma parent_plays :
  r ∈ parent_relations version local any c ↔ plays version p c t = true.
Proof using Hok Hp Hc Ht.
  pose proof two_sided_cases as Htc. unfold parent_relations. rewrite !elem_of_app. split.
  - intros [H | [H | H]].
    + destruct (is_opening_sensor _).
      { apply elem_of_cons in H as [H | H%list_elem_of_singleton]; injection H as _ Et; cbv in Et;
          lia. }
      apply elem_of_if in H as [Hm (q & Hq & ([= Hi ->] & Hs & Hmt)%meter_part_of)%elem_of_for_each_all].
      apply (id_inj cs p q Hok Hp Hq) in Hi as <-. unfold plays.
      rewrite Hm, Hs, Hmt. cbn. apply Z.eqb_refl.
    + apply elem_of_if in H as [_ H]. destruct (p_hvac c); [|set_solver].
      apply elem_of_if in H as [_ [_ Et]%master_of]. cbv in Et. lia.
    + apply elem_of_if in H as [_ (q & [Hd Hq]%elem_of_local & Hr)%elem_of_for_each_all].
      destruct (part_of_thermostat_of _ _ _ _ Hr) as [_ Hi]. cbn in Hi.
      apply (id_inj cs p q Hok Hp Hq) in Hi as <-.
      apply part_of_thermostat_plays; [|done..]. unfold part_of_thermostat in Hr.
      by apply elem_of_if in Hr as [? _].
  - intros H. destruct (plays_kind H) as [(Et & Hs & Hm & Hmt) | (Hn & Hs & Hd)].
    + left. rewrite (meter_no_sensor _ Hm), elem_of_if, elem_of_for_each_all. split; [done|].
      exists p. split; [done|]. by rewrite Hs, Hmt, Z.eqb_refl, Et, list_elem_of_singleton.
    + right. right.
      assert (Hr : r ∈ part_of_thermostat version c p) by by apply part_of_thermostat_plays.
      rewrite elem_of_if, elem_of_for_each_all. split.
      * unfold part_of_thermostat in Hr. rewrite Hs in Hr.
        destruct (p_hvac p); [|by apply elem_of_nil in Hr].
        destruct (p_type c =? _); [done|]. destruct (is_thermometer _); [done|].
        destruct (p_func c =? SUPLA_CHANNELFNC_HEATORCOLDSOURCESWITCH); [by rewrite orb_true_r|].
        destruct (p_func c =? SUPLA_CHANNELFNC_PUMPSWITCH); [done|]. by apply elem_of_nil in Hr.
      * exists p. by rewrite elem_of_local.
Qed.

End pair.
End agree.

(** C24. The two sides of a relation agree, for the relations of meters and thermostats, among the
    channels of a client. Whether a channel finds another one as its meter, its main or auxiliary
    thermometer, its switch of the heat source or of the pump ([two_sided]), and whether that
    channel finds the first as what it belongs to, are both decided by the configurations alone,
    in the same way ([plays]): a client that asks for the parts of its channels and one that asks
    for their wholes see the same pairs. What is found as a meter must be one. For the sensors of
    gates, shutters, valves and containers, for which both sides have a configuration of their
    own, this need not hold ([shared_sensor_one_sided]). *)
Theorem relations_agree (version : Z) (cs : list props) (p c : props) (t : Z) :
  channels_ok cs → p ∈ cs → c ∈ cs → t ∈ two_sided →
  (t = CHANNEL_RELATION_TYPE_METER → is_meter (p_func c) = true) →
  (Relation (p_id c) (p_id p) t
     ∈ get_channel_relations version (client_local cs) (client_any cs) p []
         relation_with_sub_channel ↔ plays version p c t = true)
  ∧ (Relation (p_id c) (p_id p) t
       ∈ get_channel_relations version (client_local cs) (client_any cs) c []
           relation_with_parent_channel ↔ plays version p c t = true).
Proof.
  intros Hok Hp Hc Ht Hm.
  pose proof (two_sided_real cs Hok p c t Hp Hc) as Hreal.
  pose proof (two_sided_cases t Ht) as Htc.
  assert (Hs : ∀ self kind, Relation (p_id c) (p_id p) t ∉ by_sensors version (client_local cs) self kind).
  { intros self kind (Et & _)%by_sensors_default. cbv in Et. lia. }
  rewrite elem_of_sub, elem_of_parent, found_sub, found_parent, !elem_of_app.
  rewrite <- (sub_plays version cs Hok p c t Hp Hc Ht Hm) at 1.
  rewrite <- (parent_plays version cs Hok p c t Hp Hc Ht).
  naive_solver.
Qed.

(** A thermostat with its thermometer, a switch with its meter. *)
Definition example_hvac : hvac := Hvac 1 0 0 0 false 0 false 0 false 0.

Definition example_thermostat : props :=
  Props 11 0 9 SUPLA_CHANNELTYPE_HVAC SUPLA_CHANNELFNC_HVAC_THERMOSTAT 0 0 0 None
    (Some example_hvac) None None.

Definition example_thermometer : props :=
  Props 12 1 9 SUPLA_CHANNELTYPE_THERMOMETER SUPLA_CHANNELFNC_THERMOMETER 0 0 0
    None None None None.

Definition example_channels : list props := [example_thermostat; example_thermometer].

Lemma relations_agree_witness :
  Relation 12 11 CHANNEL_RELATION_TYPE_MAIN_TERMOMETER
    ∈ get_channel_relations 25 (client_local example_channels) (client_any example_channels)
        example_thermometer [] relation_with_parent_channel.
Proof.
  refine (proj2 (proj2 (relations_agree 25 example_channels example_thermostat example_thermometer
    CHANNEL_RELATION_TYPE_MAIN_TERMOMETER _ _ _ _ _)) _).
  - split; [|split].
    + cbn. repeat constructor; set_solver by lia.
    + unfold example_channels. intros p q. rewrite !elem_of_cons, !elem_of_nil.
      intros [-> | [-> | []]] [-> | [-> | []]]; cbn; intros; done.
    + unfold example_channels. intros p. rewrite !elem_of_cons, !elem_of_nil.
      by intros [-> | [-> | []]].
  - apply list_elem_of_here.
  - apply list_elem_of_further, list_elem_of_here.
  - apply list_elem_of_further, list_elem_of_here.
  - done.
  - reflexivity.
Defined.

(** ** What does not agree *)

(** For a channel of a device the version is a truth value: the relations that need a version,
    such as those of the sensors of valves, are never found there, whatever the device speaks. *)
Lemma device_channels_no_sensors (version : Z) local self sensors kind pt ot pf f rf :
  sensor_relations (device_channel_protocol_version version) local self sensors kind pt ot pf f rf
  = [].
Proof. unfold device_channel_protocol_version. by destruct (version =? 0). Qed.

(** A flood sensor of two valves: each valve finds it, but it finds only the first of them. *)
Definition example_valve (id number : Z) : props :=
  Props id number 9 0 SUPLA_CHANNELFNC_VALVE_OPENCLOSE 0 0 0 None None (Some [(true, 0)]) None.

Definition example_sensor : props :=
  Props 10 0 9 SUPLA_CHANNELTYPE_BINARYSENSOR SUPLA_CHANNELFNC_FLOOD_SENSOR 0 0 0 None None None None.

Lemma shared_sensor_one_sided :
  let cs := [example_sensor; example_valve 11 1; example_valve 12 2] in
  let rels := get_channel_relations 27 (client_local cs) (client_any cs) in
  rels (example_valve 12 2) [] relation_with_sub_channel = [Relation 10 12 CHANNEL_RELATION_TYPE_DEFAULT]
  ∧ rels example_sensor [] relation_with_parent_channel
    = [Relation 10 11 CHANNEL_RELATION_TYPE_DEFAULT].
Proof. split; vm_compute; reflexivity. Qed.
