(* ===== verification/ClientScenes.v ===== *)
(** * ClientScenes: what a client is told of scenes, relations and states of channels

    client/ of the server: the scenes of a client (client_scene*.cpp), the relations
    between its channels (client_channel_relation*.cpp) and the states of its channels
    (client_channel*_state*.cpp), three users of DObjects.v. Every connection has its own
    objects; the connection's thread, the threads of the scenes and those of other
    connections call [update_remote] on them. *)


From S2P Require Import Relations Prelude Proto ProtoTypes Caller Scene DObjects.

#[local] Open Scope list_scope.
#[local] Open Scope Z_scope.

(** ** Relations and states: one kind of change *)

Section one_kind.
(** What is sent of an object, from which protocol version on, and how many at once. *)
Context {P T : Type} (min_version max : Z) (content : Z → P → T).
Hypothesis max_pos : 0 < max.

(** The subclass: the pack at work and the object at the front of the collection. *)
Record list_updater := ListUpdater { pack : option (datapack T); first : option nat }.

Definition list_updater_init : list_updater := ListUpdater None None.

Definition list_prepare (o : dobject bool P) (should_end : bool) (u : list_updater)
    : bool * option bool * bool * list_updater :=
  match pack u with
  | Some p =>
      let '(result, p) := datapack_add max (bool_decide (first u = Some (address o)))
                            (content (dobject_id o) (payload o)) p in
      (result, if result then Some false else None, should_end, ListUpdater (Some p) (first u))
  | None => (false, None, should_end, u)
  end.

Definition list_end (u : list_updater) : list (datapack T) * list_updater :=
  (match pack u with
   | Some p => if negb (pack_count p =? 0) then [datapack_set_eol true p] else []
   | None => []
   end, ListUpdater None None).

Definition list_remote_updater : RemoteUpdater bool P list_updater (datapack T) := {|
  is_changed i := i;
  is_protocol_version_allowed v := min_version <=? v;
  pre_transaction_verification o is_first u :=
    (true, if is_first : bool then ListUpdater (pack u) (Some (address o)) else u);
  on_transaction_begin o v u := (true, ListUpdater (Some empty_pack) (first u));
  prepare_the_update t o b u := list_prepare o b u;
  on_transaction_end u := list_end u
|}.

#[local] Existing Instance list_remote_updater.

Lemma list_verify_rest (l : list (dobject bool P)) u : verify false l u = u.
Proof. induction l as [|o l IH]; [done|]. exact IH. Qed.

#[local, refine] Instance list_pack_updater :
    PackUpdater bool P list_updater (datapack T) unit := {|
  kinds := [()];
  due k i := i;
  served k i := false;
  Item k := T;
  max_count k := max;
  with_bits := true;
  convert k t i p := content i p;
  message k p := p;
  idle u := pack u = None;
  prepared k front u := pack u = None ∧ first u = Some front;
  holding k front p u := pack u = Some p ∧ first u = Some front
|}.
Proof using max_pos.
  - intros i. cbn. by rewrite orb_false_r.
  - done.
  - by intros [] [].
  - done.
  - repeat constructor. intros Hin. inversion Hin.
  - intros o l u k Hu _. cbn. by rewrite list_verify_rest.
  - intros [|o l] u Hu _; [done|]. cbn. by rewrite list_verify_rest.
  - intros o l v u k front [Hp Hf] _ _ _. cbn. by eexists.
  - intros t o i b u k front p [Hp Hf] Hi Hd. cbn. unfold list_prepare. rewrite Hp, Hf.
    rewrite (bool_decide_ext (Some front = Some (address o)) (front = address o)) by naive_solver.
    destruct (datapack_add _ _ _ _) as [ok p'] eqn:E.
    do 2 eexists. split; [done|]. split; [done|]. by intros ->.
  - intros t o i b u k front p _ _ Hc Hd. cbn in *. congruence.
  - intros u k front p [Hp Hf] Hc. cbn. unfold list_end. rewrite Hp.
    destruct (Z.eqb_spec (pack_count p) 0); [lia|]. by eexists.
Defined.

(** After a list was loaded it is sent as a whole: its items in order, in packs that are not
    empty and not too large, with the bits for the start and for the end of the list at its
    first and at its last item and nowhere else. *)
Lemma list_sent proto_version now objects :
  min_version <= proto_version → objects ≠ [] → Z.of_nat (length objects) < 2 ^ 31 →
  Forall (λ o, change_indicator o = Some true) objects → NoDup (address <$> objects) →
  ∃ msgs objects' s', update_until_done proto_version (S (length objects)) now 0 objects
                (new_updater list_updater_init) = Some (msgs, objects', s') ∧
    Forall (λ p, 0 < pack_count p <= max) msgs ∧
    Forall (λ o, change_indicator o = Some false) objects' ∧
    length (mjoin (items <$> msgs)) = length objects ∧
    ∀ i o, objects !! i = Some o →
      mjoin (items <$> msgs) !! i =
        Some (content (dobject_id o) (payload o),
              (if decide (i = 0%nat) then START_OF_LIST_BIT else 0)
              + (if decide (S i = length objects) then END_OF_LIST_BIT else 0)).
Proof using max_pos.
  intros Hv Hne Hlen Hch Hnd. assert (Hall : due_objects tt objects = objects).
  { clear - Hch. induction Hch as [|o l Ho Hch IH]; [done|]. rewrite due_objects_cons, IH.
    unfold due_of. by rewrite Ho. }
  assert (Hok : is_protocol_version_allowed proto_version = true) by (by apply Z.leb_le).
  destruct (update_until_done_spec proto_version Hok (S (length objects)) now 0%nat
              objects (new_updater list_updater_init)) as (s' & E & _); [done|done| |].
  { unfold to_serve. cbn [kinds list_pack_updater sum_list_with]. rewrite Hall. lia. }
  rewrite E. cbn [all_packs kinds list_pack_updater]. rewrite Hall, app_nil_r.
  destruct (pack_list_spec tt (front_address objects) now (length objects) 0%nat objects)
    as (Hl & Hc & Hi); [lia|].
  unfold packs_of. change (@message _ _ _ _ _ _ list_pack_updater tt) with (@id (datapack T)).
  rewrite list_fmap_id.
  do 3 eexists. split; [done|]. split; [exact Hc|]. split; [|split; [exact Hl|]].
  - apply Forall_fmap. eapply Forall_impl; [exact Hch|]. intros o Ho. cbn. unfold all_served.
    cbn. unfold due_of. by rewrite Ho.
  - intros i o Ho. destruct (Hi i o Ho) as (r & Er). etransitivity; [exact Er|].
    do 2 f_equal. unfold list_bits. f_equal.
    assert (Hb : bool_decide (front_address objects = address o) = bool_decide (i = 0%nat)).
    { destruct objects as [|o0 l]; [done|]. cbn [front_address]. apply bool_decide_ext. split.
      - intros Ha. eapply (NoDup_lookup (address <$> o0 :: l)); [done| |done].
        rewrite list_lookup_fmap, Ho. cbn. by rewrite Ha.
      - intros ->. cbn in Ho. by injection Ho as ->. }
    rewrite Hb. cbn [with_bits list_pack_updater andb].
    destruct (decide (i = 0%nat)); [by rewrite bool_decide_eq_true_2|by rewrite bool_decide_eq_false_2].
Qed.
End one_kind.

(** *** Relations between channels *)

(** A relation with the channel [dobject_id]. *)
Record channel_relation := Relation { parent_id : Z; relation_type : Z }.

Record TSC_ChannelRelation := TSCRelation { tr_Id : Z; tr_ParentId : Z; tr_Type : Z }.

Definition convert_relation (id : Z) (r : channel_relation) : TSC_ChannelRelation :=
  TSCRelation id (parent_id r) (relation_type r).

(** [supla_client_channel_reactions::load] from the relations of all channels, with the
    relation at the end that tells the application to clear its list. [addresses] are those of
    the new objects. *)
Definition load_relations (addresses : nat → nat) (relations : list (Z * channel_relation))
    : list (dobject bool channel_relation) :=
  imap (λ n '(id, r), DObject (addresses n) id (Some true) r)
    (relations ++ [(0, Relation 0 Relations.relation_any)]).

(** The relations of all channels of the client. *)
Definition relations_of_channels (client_protocol_version : Z) (channels : list Relations.props)
    : list (Z * channel_relation) :=
  (λ r, (Relations.rel_id r, Relation (Relations.rel_parent_id r) (Relations.rel_type r)))
    <$> Relations.all_relations client_protocol_version (Relations.client_local channels)
          (Relations.client_any channels) channels.

Definition relation_remote_updater :
    RemoteUpdater bool channel_relation (list_updater (T:=TSC_ChannelRelation))
      (datapack TSC_ChannelRelation) :=
  list_remote_updater 21 SUPLA_CHANNEL_RELATION_PACK_MAXCOUNT convert_relation.

(** *** States of channels *)

Section channel_states.
(** [TDSC_ChannelState], but for its member [EOL]. *)
Context {ChannelState : Type}.

Definition load_states (client_protocol_version : Z) (addresses : nat → nat)
    (states : list (Z * ChannelState)) (objects : list (dobject bool ChannelState))
    : list (dobject bool ChannelState) :=
  if client_protocol_version <? 26 then objects
  else imap (λ n '(id, st), DObject (addresses n) id (Some true) st) states.

Definition state_remote_updater :
    RemoteUpdater bool ChannelState (list_updater (T:=ChannelState)) (datapack ChannelState) :=
  list_remote_updater 26 SUPLA_CHANNEL_STATE_PACK_MAXCOUNT (λ _ st, st).

(** [supla_client_channels_state::update_remote]: what was sent is not kept. *)
Definition states_update_remote (proto_version : Z) (now : nat → clock)
    (objects : list (dobject bool ChannelState)) (s : updater list_updater)
    : bool * list (datapack ChannelState) * list (dobject bool ChannelState)
      * updater list_updater :=
  let '(result, msgs, objects, s) :=
    @update_remote _ _ _ _ state_remote_updater proto_version now objects s in
  (result, msgs, if result then objects else [], s).
End channel_states.

(** ** Scenes *)

Record scene_indicator := SceneIndicator { scene_changed : bool; state_changed : bool }.

(** The constructors; [is_changed] of the base class is set to the disjunction by each. *)
Definition new_indicator : scene_indicator := SceneIndicator true true.
Definition indicator_is_changed (i : scene_indicator) : bool := scene_changed i || state_changed i.

(** What a scene adds to an object; captions are texts without their terminating zero. *)
Record scene_data := SceneData {
  caption : option (list Z);
  user_icon_id : Z;
  alt_icon_id : Z;
  location_id : Z;
  state : scene_state
}.

Notation client_scene := (dobject scene_indicator scene_data).

Definition no_scene_state : scene_state :=
  SceneState timeval_zero timeval_zero (Caller None ctUnknown 0 "").

Definition new_client_scene (address : nat) (id : Z) : client_scene :=
  DObject address id (Some new_indicator) (SceneData None 0 0 0 no_scene_state).

(** [strncmp(a, b, n) == 0] *)
Definition strncmp_eq (a b : list Z) (n : Z) : bool :=
  bool_decide (take (Z.to_nat n) a = take (Z.to_nat n) b).

Definition ind_scene_changed (o : client_scene) : bool :=
  match change_indicator o with Some i => scene_changed i | None => false end.
Definition ind_state_changed (o : client_scene) : bool :=
  match change_indicator o with Some i => state_changed i | None => false end.

Definition with_data (d : scene_data) (o : client_scene) : client_scene :=
  DObject (address o) (dobject_id o) (change_indicator o) d.

Definition set_caption (c : option (list Z)) (o : client_scene) : client_scene :=
  let d := payload o in
  let same := match caption d, c with
              | None, None => true
              | Some a, Some b => strncmp_eq a b SUPLA_SCENE_CAPTION_MAXSIZE
              | _, _ => false
              end in
  if same then o
  else
    let o := with_data (SceneData (take (Z.to_nat SUPLA_SCENE_CAPTION_MAXSIZE) <$> c)
               (user_icon_id d) (alt_icon_id d) (location_id d) (state d)) o in
    if negb (ind_scene_changed o)
    then set_change_indicator (Some (SceneIndicator true (ind_state_changed o))) o else o.

Definition scene_state_eqb (s t : scene_state) : bool :=
  bool_decide (ss_started_at s = ss_started_at t) && bool_decide (ss_ending_at s = ss_ending_at t)
  && caller_eqb (ss_caller s) (ss_caller t).

Definition set_state (st : scene_state) (o : client_scene) : client_scene :=
  let d := payload o in
  if scene_state_eqb (state d) st then o
  else
    let o := with_data (SceneData (caption d) (user_icon_id d) (alt_icon_id d) (location_id d) st) o in
    if negb (ind_state_changed o)
    then set_change_indicator (Some (SceneIndicator (ind_scene_changed o) true)) o else o.

(** *** What is sent *)

(** The structures without the member [EOL], which the pack has. *)
Record TSC_Scene := TSCScene {
  ts_Id : Z; ts_LocationId : Z; ts_AltIcon : Z; ts_UserIcon : Z;
  ts_CaptionSize : Z; ts_Caption : list Z
}.

Record TSC_SceneState := TSCSceneState {
  ts_SceneId : Z; ts_MillisecondsFromStart : Z; ts_MillisecondsLeft : Z;
  ts_InitiatorId : Z; ts_InitiatorNameSize : Z; ts_InitiatorName : list Z
}.

(** A text in a member of [max] characters that was zero: [None] does not occur
    ([set_text_some]). *)
Definition set_text (src : option (list Z)) (max : Z) : list Z * Z :=
  default ([], 0) (sproto__set_null_terminated_string src (replicate (Z.to_nat max) 0) 0 max).

Definition convert_scene (id : Z) (d : scene_data) : TSC_Scene :=
  let '(text, size) := set_text (caption d) SUPLA_SCENE_CAPTION_MAXSIZE in
  TSCScene id (location_id d) (alt_icon_id d) (user_icon_id d) size text.

(** The characters of a name. *)
Definition name_text (s : string) : list Z :=
  (λ c, Z.of_N (Ascii.N_of_ascii c)) <$> String.list_ascii_of_string s.

Definition get_initiator_name (s : scene_state) : option (list Z) :=
  if decide (get_type (ss_caller s) = ctClient)
  then if (0 <? String.length (get_name (ss_caller s)))%nat
       then Some (name_text (get_name (ss_caller s))) else None
  else None.

Definition convert_state (t : clock) (id : Z) (d : scene_data) : TSC_SceneState :=
  let s := state d in
  let '(text, size) := set_text (get_initiator_name s) SUPLA_INITIATOR_NAME_MAXSIZE in
  TSCSceneState id (get_milliseconds_from_start t.1 s) (get_milliseconds_left t.2 s)
    (get_initiator_id s) size text.

Lemma set_text_some src max : 0 < max →
  sproto__set_null_terminated_string src (replicate (Z.to_nat max) 0) 0 max = Some (set_text src max).
Proof.
  intros Hm. unfold set_text, sproto__set_null_terminated_string.
  destruct (Z.eqb_spec max 0); [lia|]. destruct src as [s|]; unfold snprintf_s, memcpy_to.
  - rewrite length_app, length_take, length_replicate. cbn [length].
    match goal with |- context [if ?b then _ else _] => destruct b eqn:E end; [done|].
    repeat (apply andb_false_iff in E as [E|E]); apply Z.leb_gt in E; lia.
  - rewrite length_replicate.
    match goal with |- context [if ?b then _ else _] => destruct b eqn:E end; [done|].
    repeat (apply andb_false_iff in E as [E|E]); apply Z.leb_gt in E; cbn in E; lia.
Qed.

(** *** The updater *)

Record scene_updater := SceneUpdater {
  scene_pack : option (datapack TSC_Scene);
  state_pack : option (datapack TSC_SceneState);
  any_scene_changed : bool
}.

Definition scene_updater_init : scene_updater := SceneUpdater None None false.

Inductive scene_message :=
  | ScenePackUpdate (p : datapack TSC_Scene)
  | SceneStatePackUpdate (p : datapack TSC_SceneState).

Definition scene_verification (o : client_scene) (first : bool) (u : scene_updater)
    : bool * scene_updater :=
  let any := if first then false else any_scene_changed u in
  if ind_scene_changed o then (false, SceneUpdater (scene_pack u) (state_pack u) true)
  else (true, SceneUpdater (scene_pack u) (state_pack u) any).

Definition scene_begin (o : client_scene) (u : scene_updater) : bool * scene_updater :=
  match change_indicator o with
  | None => (false, u)
  | Some i =>
      if any_scene_changed u || scene_changed i
      then (true, SceneUpdater (Some empty_pack) (state_pack u) (any_scene_changed u))
      else if state_changed i
      then (true, SceneUpdater (scene_pack u) (Some empty_pack) (any_scene_changed u))
      else (false, u)
  end.

Definition scene_prepare (t : clock) (o : client_scene) (should_end : bool) (u : scene_updater)
    : bool * option scene_indicator * bool * scene_updater :=
  match change_indicator o with
  | None => (false, None, should_end, u)
  | Some i =>
      match scene_pack u, state_pack u with
      | Some p, _ =>
          if scene_changed i then
            let '(result, p) := datapack_add SUPLA_SCENE_PACK_MAXCOUNT false
                                  (convert_scene (dobject_id o) (payload o)) p in
            (result, if result then Some (SceneIndicator false (state_changed i)) else None,
             should_end, SceneUpdater (Some p) (state_pack u) (any_scene_changed u))
          else (false, None, should_end, u)
      | None, Some p =>
          if state_changed i then
            let '(result, p) := datapack_add SUPLA_SCENE_STATE_PACK_MAXCOUNT false
                                  (convert_state t (dobject_id o) (payload o)) p in
            (result, if result then Some (SceneIndicator (scene_changed i) false) else None,
             should_end, SceneUpdater None (Some p) (any_scene_changed u))
          else (false, None, should_end, u)
      | None, None => (false, None, should_end, u)
      end
  end.

(** [on_transaction_end]: what is sent; then the packs are deleted. *)
Definition send_packs (u : scene_updater) : list scene_message :=
  match scene_pack u with
  | Some p => if negb (pack_count p =? 0) then [ScenePackUpdate (datapack_set_eol false p)] else []
  | None => []
  end ++
  match state_pack u with
  | Some p => if negb (pack_count p =? 0) then [SceneStatePackUpdate (datapack_set_eol false p)] else []
  | None => []
  end.

Definition delete_packs (u : scene_updater) : scene_updater :=
  SceneUpdater None None (any_scene_changed u).

#[export] Instance scene_remote_updater :
    RemoteUpdater scene_indicator scene_data scene_updater scene_message := {|
  is_changed := indicator_is_changed;
  is_protocol_version_allowed v := 18 <=? v;
  pre_transaction_verification := scene_verification;
  on_transaction_begin o v u := scene_begin o u;
  prepare_the_update := scene_prepare;
  on_transaction_end u := (send_packs u, delete_packs u)
|}.

(** *** What is sent of scenes *)

Inductive scene_kind := KScene | KState.

#[export] Instance scene_kind_eq_dec : EqDecision scene_kind.
Proof. solve_decision. Defined.

Definition scene_due (k : scene_kind) (i : scene_indicator) : bool :=
  match k with KScene => scene_changed i | KState => state_changed i end.

Definition scene_served (k : scene_kind) (i : scene_indicator) : scene_indicator :=
  match k with
  | KScene => SceneIndicator false (state_changed i)
  | KState => SceneIndicator (scene_changed i) false
  end.

Definition scene_item (k : scene_kind) : Type :=
  match k with KScene => TSC_Scene | KState => TSC_SceneState end.

Definition scene_convert (k : scene_kind) (t : clock) (id : Z) (d : scene_data) : scene_item k :=
  match k with KScene => convert_scene id d | KState => convert_state t id d end.

Definition scene_msg (k : scene_kind) : datapack (scene_item k) → scene_message :=
  match k with KScene => ScenePackUpdate | KState => SceneStatePackUpdate end.

Definition scene_holding (k : scene_kind) : datapack (scene_item k) → scene_updater → Prop :=
  match k with
  | KScene => λ p u, scene_pack u = Some p ∧ state_pack u = None
  | KState => λ p u, scene_pack u = None ∧ state_pack u = Some p
  end.

Definition no_pack (u : scene_updater) : Prop := scene_pack u = None ∧ state_pack u = None.

Definition any_due (k : scene_kind) (l : list client_scene) : bool := existsb (due_of scene_due k) l.

Lemma verify_spec l : ∀ first u, (first = false → any_scene_changed u = false) → l ≠ [] →
  verify first l u = SceneUpdater (scene_pack u) (state_pack u) (any_due KScene l).
Proof.
  induction l as [|o l IH]; intros first u Hf Hne; [done|]. cbn [verify].
  cbn [pre_transaction_verification scene_remote_updater]. unfold scene_verification.
  change (any_due KScene (o :: l)) with (ind_scene_changed o || any_due KScene l).
  destruct (ind_scene_changed o); [done|]. cbn [orb].
  assert (Hany : (if first then false else any_scene_changed u) = false)
    by (destruct first; [done|by apply Hf]).
  rewrite Hany. destruct l as [|o' l]; [done|]. by rewrite IH.
Qed.

Lemma scene_kind_of l k : kind_of scene_due [KScene; KState] l = Some k →
  any_due KScene l = bool_decide (k = KScene).
Proof.
  unfold kind_of, any_due. cbn. destruct (existsb _ l); [by intros [= <-]|].
  destruct (existsb _ l); [|done]. by intros [= <-].
Qed.

#[export, refine] Instance scene_pack_updater :
    PackUpdater scene_indicator scene_data scene_updater scene_message scene_kind := {|
  kinds := [KScene; KState];
  due := scene_due;
  served := scene_served;
  Item := scene_item;
  max_count k := match k with KScene => SUPLA_SCENE_PACK_MAXCOUNT
                            | KState => SUPLA_SCENE_STATE_PACK_MAXCOUNT end;
  with_bits := false;
  convert := scene_convert;
  message := scene_msg;
  idle := no_pack;
  prepared k front u := no_pack u ∧ any_scene_changed u = bool_decide (k = KScene);
  holding k front p u := scene_holding k p u
|}.
Proof.
  - intros i. unfold is_changed, scene_remote_updater, indicator_is_changed. cbn.
    by rewrite orb_false_r.
  - by intros [].
  - by intros [] [].
  - by intros [].
  - repeat constructor; set_solver.
  - intros o l u k Hu Hk. rewrite verify_spec by done. by rewrite (scene_kind_of _ _ Hk).
  - intros [|o l] u Hu Hk; [done|]. by rewrite verify_spec.
  - intros o l v u k front [[Hs Ht] Ha] Ho Hk Hc. cbn. unfold scene_begin. rewrite Ha.
    unfold due_of in Hc. cbn in Hc. destruct (change_indicator o) as [i|] eqn:Ei; [|done].
    destruct k; cbn; [by eexists|].
    assert (Hn : scene_changed i = false).
    { destruct (scene_changed i) eqn:E; [|done]. pose proof (scene_kind_of _ _ Hk) as Hany.
      rewrite bool_decide_eq_false_2 in Hany by done. rewrite <- Hany. symmetry.
      apply existsb_exists.
      exists o. rewrite <- list_elem_of_In. split; [done|]. unfold due_of. by rewrite Ei. }
    rewrite Hn in *. rewrite orb_false_r in Hc. cbn in Hc. rewrite Hc. by eexists.
  - intros t o i b u k front p Hh Hi Hd. cbn [prepare_the_update scene_remote_updater].
    unfold scene_prepare. rewrite Hi. destruct k; destruct Hh as [Hs Ht]; rewrite Hs, ?Ht;
      cbn in Hd; rewrite Hd; cbn [andb scene_convert];
      destruct (datapack_add _ _ _ _) as [ok p'] eqn:E; do 2 eexists; (split; [done|]); (split; [done|]);
      by intros ->.
  - intros t o i b u k front p Hh Hi Hc Hd. cbn [prepare_the_update scene_remote_updater].
    unfold scene_prepare. rewrite Hi. destruct k; destruct Hh as [Hs Ht]; rewrite Hs, ?Ht;
      cbn in Hd; rewrite Hd; by eexists.
  - intros u k front p Hh Hc. cbn. unfold send_packs.
    destruct k; cbn [scene_item] in *; destruct Hh as [Hs Ht]; rewrite Hs, Ht;
      (destruct (Z.eqb_spec (pack_count p) 0); [lia|]);
      exists (delete_packs u); done.
Defined.

(** What the indicator becomes when everything was sent. *)
Definition all_sent (o : client_scene) : client_scene :=
  set_change_indicator ((λ _, SceneIndicator false false) <$> change_indicator o) o.

Lemma all_served_scene o : all_served o = all_sent o.
Proof.
  destruct o as [a i [[s t]|] d]; unfold all_served, all_sent, due_of; cbn; [|done].
  by destruct s, t.
Qed.

(** C18. A client whose protocol version is at least 18 and that asks as long as something comes
    is sent every scene that has changed, once and in order, in packs that are neither empty nor
    too large, then, in the same way, every state that has changed, as it was at the time of a
    call; the last item of each list, and no other, is marked as its end. Nothing remains
    marked as changed, and no data of the scenes is altered. *)
Theorem scenes_sent proto_version now objects :
  18 <= proto_version → Z.of_nat (length objects) < 2 ^ 31 →
  let scenes := filter (λ o, ind_scene_changed o = true) objects in
  let states := filter (λ o, ind_state_changed o = true) objects in
  ∃ fuel ps qs s', update_until_done proto_version fuel now 0 objects
                     (new_updater scene_updater_init) =
      Some ((ScenePackUpdate <$> ps) ++ (SceneStatePackUpdate <$> qs), all_sent <$> objects, s') ∧
    (length (mjoin (items <$> ps)) = length scenes ∧
     Forall (λ p, 0 < pack_count p <= SUPLA_SCENE_PACK_MAXCOUNT) ps ∧
     ∀ i o, scenes !! i = Some o → mjoin (items <$> ps) !! i =
       Some (convert_scene (dobject_id o) (payload o), if decide (S i = length scenes) then 1 else 0)) ∧
    (length (mjoin (items <$> qs)) = length states ∧
     Forall (λ p, 0 < pack_count p <= SUPLA_SCENE_STATE_PACK_MAXCOUNT) qs ∧
     ∀ i o, states !! i = Some o → ∃ r, mjoin (items <$> qs) !! i =
       Some (convert_state (now r (address o)) (dobject_id o) (payload o),
             if decide (S i = length states) then 1 else 0)).
Proof.
  intros Hv Hlen scenes states.
  assert (Hok : is_protocol_version_allowed proto_version = true) by (by apply Z.leb_le).
  destruct (update_until_done_spec proto_version Hok (S (to_serve objects)) now 0%nat objects
              (new_updater scene_updater_init)) as (s' & E & _); [done|done|lia|].
  set (front := front_address objects) in *.
  assert (Hd : ∀ k, due_objects k objects = match k with KScene => scenes | KState => states end)
    by (by intros []).
  cbn [all_packs kinds scene_pack_updater] in E. rewrite !Hd in E. rewrite app_nil_r in E.
  exists (S (to_serve objects)),
    (pack_list (length scenes) KScene front now 0 scenes),
    (pack_list (length states) KState front now
       (0 + length (packs_of (length scenes) KScene front now 0 scenes)) states), s'.
  split; [|split].
  - rewrite E. unfold packs_of. do 3 f_equal. apply list_fmap_ext.
    intros i o _. apply all_served_scene.
  - destruct (pack_list_spec KScene front now (length scenes) 0%nat scenes) as (Hl & Hc & Hi); [lia|].
    split; [exact Hl|]. split; [exact Hc|]. intros i o Ho. by destruct (Hi i o Ho) as (r & Er).
  - destruct (pack_list_spec KState front now (length states)
      (0 + length (packs_of (length scenes) KScene front now 0 scenes))%nat states)
      as (Hl & Hc & Hi); [lia|].
    split; [exact Hl|]. split; [exact Hc|]. intros i o Ho. by destruct (Hi i o Ho) as (r & Er); exists r.
Qed.

Lemma scenes_sent_witness :
  ∃ fuel ps qs s', update_until_done 20 fuel (λ _ _, (timeval_zero, timeval_zero)) 0
      [new_client_scene 1 10; all_sent (new_client_scene 2 20)] (new_updater scene_updater_init) =
    Some ((ScenePackUpdate <$> ps) ++ (SceneStatePackUpdate <$> qs),
      [all_sent (new_client_scene 1 10); all_sent (new_client_scene 2 20)], s') ∧
    length (mjoin (items <$> ps)) = 1%nat.
Proof.
  destruct (scenes_sent 20 (λ _ _, (timeval_zero, timeval_zero))
    [new_client_scene 1 10; all_sent (new_client_scene 2 20)] ltac:(lia) ltac:(vm_compute; done))
    as (fuel & ps & qs & s' & E & (Hl & _) & _).
  exists fuel, ps, qs, s'. split; [exact E|exact Hl].
Defined.

(** ** The collection of a client, used by several threads

    [update_remote] holds the lock of the collection in its loops only: what is packed there is
    sent, and the packs are deleted, by [end_transaction] after the lock was released. *)

(** One scene of [supla_client_scenes::load]: a row of the database, and the state of the scene
    if it is being executed. *)
Record scene_row := SceneRow {
  row_id : Z; row_caption : option (list Z); row_user_icon_id : Z; row_alt_icon_id : Z;
  row_location_id : Z
}.

Definition load_scene (address : nat) (running : Z → option scene_state) (r : scene_row)
    : client_scene :=
  let o := with_data (SceneData None (row_user_icon_id r) (row_alt_icon_id r) (row_location_id r)
                        no_scene_state) (new_client_scene address (row_id r)) in
  let o := set_caption (row_caption r) o in
  match running (row_id r) with Some st => set_state st o | None => o end.

Definition load_scenes (addresses : nat → nat) (running : Z → option scene_state)
    (rows : list scene_row) : list client_scene :=
  imap (λ n r, load_scene (addresses n) running r) rows.

(** After the loops; after the packs were sent. A thread that is not in [update_remote] is not
    in the map. *)
Inductive thread_pc := Collected | PacksSent.

Record client_scenes := ClientScenes {
  scenes : list client_scene;
  scenes_updater : updater scene_updater;
  sent : list scene_message;
  threads : gmap nat thread_pc
}.

Inductive scene_action :=
  | ALoad (addresses : nat → nat) (running : Z → option scene_state) (rows : list scene_row)
  | ASetCaption (id : Z) (c : option (list Z))
  | ASetState (id : Z) (st : scene_state)
  | ACollect (t : nat) (now : nat → clock)
  | ASend (t : nat)
  | ADelete (t : nat).

Section steps.
Variable proto_version : Z.

Definition with_scenes (l : list client_scene) (w : client_scenes) : client_scenes :=
  ClientScenes l (scenes_updater w) (sent w) (threads w).

Definition step (a : scene_action) (w : client_scenes) : option client_scenes :=
  match a with
  | ALoad addresses running rows => Some (with_scenes (load_scenes addresses running rows) w)
  | ASetCaption i c => Some (with_scenes (access_object i (set_caption c) (scenes w)) w)
  | ASetState i st => Some (with_scenes (access_object i (set_state st) (scenes w)) w)
  | ACollect t now =>
      match threads w !! t with
      | Some _ => None
      | None =>
          if is_protocol_version_allowed proto_version then
            let s := scenes_updater w in
            let s := with_own (verify true (scenes w) (own s)) s in
            let '(l, s) := update_all proto_version now (scenes w) s in
            Some (ClientScenes l s (sent w) (<[t := Collected]> (threads w)))
          else Some w
      end
  | ASend t =>
      match threads w !! t with
      | Some Collected =>
          if transaction_started (scenes_updater w)
          then Some (ClientScenes (scenes w) (scenes_updater w)
                       (sent w ++ send_packs (own (scenes_updater w)))
                       (<[t := PacksSent]> (threads w)))
          else Some (ClientScenes (scenes w) (scenes_updater w) (sent w) (delete t (threads w)))
      | _ => None
      end
  | ADelete t =>
      match threads w !! t with
      | Some PacksSent =>
          let s := scenes_updater w in
          Some (ClientScenes (scenes w)
                  (Updater false (transaction_should_end s) (transaction_rejected s)
                     (any_updates s) (delete_packs (own s)))
                  (sent w) (delete t (threads w)))
      | _ => None
      end
  end.

Fixpoint steps (l : list scene_action) (w : client_scenes) : option client_scenes :=
  match l with [] => Some w | a :: l => w ← step a w; steps l w end.
End steps.

Definition new_client_scenes : client_scenes :=
  ClientScenes [] (new_updater scene_updater_init) [] ∅.

(** What the client has of a scene: the last item that it was sent. *)
Definition scene_items (msgs : list scene_message) : list TSC_Scene :=
  mjoin ((λ m, match m with ScenePackUpdate p => (items p).*1 | _ => [] end) <$> msgs).
Definition state_items (msgs : list scene_message) : list TSC_SceneState :=
  mjoin ((λ m, match m with SceneStatePackUpdate p => (items p).*1 | _ => [] end) <$> msgs).

Definition known_scene (i : Z) (msgs : list scene_message) : option TSC_Scene :=
  last (filter (λ x, ts_Id x = i) (scene_items msgs)).
Definition known_state (i : Z) (msgs : list scene_message) : option TSC_SceneState :=
  last (filter (λ x, ts_SceneId x = i) (state_items msgs)).

(** A thread starts while no other one is in [update_remote]; rows have different identifiers
    (they are grouped by them). *)
Definition calm (a : scene_action) (w : client_scenes) : Prop :=
  match a with
  | ACollect t now => threads w = ∅
  | ALoad addresses running rows =>
      NoDup (row_id <$> rows) ∧ Z.of_nat (length rows) < 2 ^ 31
  | _ => True
  end.

Definition calm_step (v : Z) (w w' : client_scenes) : Prop := ∃ a, calm a w ∧ step v a w = Some w'.

(** *** The invariant *)

Definition known_ok (msgs : list scene_message) (l : list client_scene) : Prop :=
  ∀ o, o ∈ l →
    (ind_scene_changed o = false →
       known_scene (dobject_id o) msgs = Some (convert_scene (dobject_id o) (payload o))) ∧
    (ind_state_changed o = false →
       ∃ t, known_state (dobject_id o) msgs = Some (convert_state t (dobject_id o) (payload o))).

Lemma convert_scene_id i d : ts_Id (convert_scene i d) = i.
Proof. unfold convert_scene. by destruct (set_text _ _). Qed.

Lemma convert_state_id t i d : ts_SceneId (convert_state t i d) = i.
Proof. unfold convert_state. by destruct (set_text _ _). Qed.

(** A setter leaves what it does not mark as it was. *)
Definition setter_ok (f : client_scene → client_scene) : Prop := ∀ o,
  dobject_id (f o) = dobject_id o ∧
  (ind_scene_changed (f o) = false → ind_scene_changed o = false ∧
     convert_scene (dobject_id o) (payload (f o)) = convert_scene (dobject_id o) (payload o)) ∧
  (ind_state_changed (f o) = false → ind_state_changed o = false ∧
     state (payload (f o)) = state (payload o)).

Lemma set_caption_ok c : setter_ok (set_caption c).
Proof.
  intros [a i ind [cap ui ai loc st]]. unfold set_caption.
  match goal with |- context [if ?b then _ else _] => destruct b end; [done|].
  unfold ind_scene_changed, ind_state_changed.
  destruct ind as [[[] t]|]; cbn; repeat split; done.
Qed.

Lemma set_state_ok st : setter_ok (set_state st).
Proof.
  intros [a i ind [cap ui ai loc st0]]. unfold set_state.
  match goal with |- context [if ?b then _ else _] => destruct b end; [done|].
  unfold ind_scene_changed, ind_state_changed.
  destruct ind as [[s []]|]; cbn; repeat split; done.
Qed.

Lemma elem_of_update_first {A} (p : A → bool) f l x : x ∈ update_first p f l →
  x ∈ l ∨ ∃ y, y ∈ l ∧ x = f y.
Proof.
  induction l as [|y l IH]; cbn; [intros Hx; inversion Hx|]. destruct (p y).
  - rewrite !elem_of_cons. intros [->|Hx]; [right; exists y; by rewrite elem_of_cons; auto|auto].
  - rewrite !elem_of_cons. intros [->|Hx]; [auto|].
    destruct (IH Hx) as [?|(z & Hz & ->)]; [auto|right; exists z; by rewrite elem_of_cons; auto].
Qed.

Lemma access_known msgs i f l : setter_ok f → known_ok msgs l → known_ok msgs (access_object i f l).
Proof.
  intros Hf Hk. unfold access_object. destruct (i =? 0); [done|].
  intros o [Ho|(o' & Ho' & ->)]%elem_of_update_first; [by apply Hk|].
  destruct (Hf o') as (Hid & Hs & Ht). destruct (Hk o' Ho') as [K1 K2]. rewrite Hid. split.
  - intros Hn. destruct (Hs Hn) as [Hn' E]. rewrite E. by apply K1.
  - intros Hn. destruct (Ht Hn) as [Hn' E]. destruct (K2 Hn') as [t Et]. exists t.
    rewrite Et. unfold convert_state. by rewrite E.
Qed.

Lemma access_ids i f l : setter_ok f → dobject_id <$> access_object i f l = dobject_id <$> l.
Proof.
  intros Hf. unfold access_object. destruct (i =? 0); [done|].
  induction l as [|o l IH]; [done|]. cbn. destruct (dobject_id o =? i); cbn.
  - by rewrite (proj1 (Hf o)).
  - by rewrite IH.
Qed.

Lemma load_scene_marked a running r :
  dobject_id (load_scene a running r) = row_id r ∧
  change_indicator (load_scene a running r) = Some new_indicator.
Proof.
  unfold load_scene. set (o := with_data _ (new_client_scene a (row_id r))).
  assert (Ho : dobject_id (set_caption (row_caption r) o) = row_id r ∧
               change_indicator (set_caption (row_caption r) o) = Some new_indicator).
  { unfold set_caption. destruct (row_caption r); cbn; done. }
  destruct (running (row_id r)) as [st|]; [|done].
  destruct Ho as [Hi Hm]. unfold set_state. case_match; [done|].
  unfold ind_state_changed. cbn. rewrite Hm. done.
Qed.

Lemma load_known msgs addresses running rows : known_ok msgs (load_scenes addresses running rows).
Proof.
  intros o (n & r & -> & _)%elem_of_lookup_imap.
  destruct (load_scene_marked (addresses n) running r) as [_ Hm].
  unfold ind_scene_changed, ind_state_changed. rewrite Hm. done.
Qed.

Lemma load_ids addresses running rows :
  dobject_id <$> load_scenes addresses running rows = row_id <$> rows.
Proof.
  unfold load_scenes. rewrite fmap_imap. apply list_eq. intros i.
  rewrite list_lookup_imap, list_lookup_fmap. destruct (rows !! i) as [r|]; [|done].
  cbn. f_equal. apply load_scene_marked.
Qed.

(** *** A pack, and what the client knows afterwards *)

Section last_sent.
Context {X : Type} (key : X → Z) (f : client_scene → X).
Hypothesis Hkey : ∀ o, key (f o) = dobject_id o.

Lemma last_other i (xs : list X) (l : list client_scene) : i ∉ dobject_id <$> l →
  last (filter (λ x, key x = i) (xs ++ (f <$> l))) = last (filter (λ x, key x = i) xs).
Proof using Hkey.
  intros Hn. rewrite filter_app. replace (filter _ (f <$> l)) with (@nil X); [by rewrite app_nil_r|].
  induction l as [|o l IH]; [done|]. cbn [fmap list_fmap] in *.
  apply not_elem_of_cons in Hn as [Hn Hl].
  rewrite filter_cons_False; [by apply IH|]. rewrite Hkey. congruence.
Qed.

Lemma last_own o (xs : list X) (l : list client_scene) : o ∈ l → NoDup (dobject_id <$> l) →
  last (filter (λ x, key x = dobject_id o) (xs ++ (f <$> l))) = Some (f o).
Proof using Hkey.
  intros Ho Hnd. apply list_elem_of_split in Ho as (l1 & l2 & ->).
  rewrite !fmap_app in *. cbn [fmap list_fmap] in *. apply NoDup_app in Hnd as (_ & _ & Hnd).
  apply NoDup_cons in Hnd as [Hn _]. rewrite app_assoc.
  change (f o :: (f <$> l2)) with ([f o] ++ (f <$> l2)). rewrite app_assoc, last_other by done.
  rewrite filter_app, filter_cons_True by apply Hkey. cbn [filter list_filter]. by rewrite last_snoc.
Qed.
End last_sent.

Lemma set_eol_fst {T} b (p : datapack T) : (items (datapack_set_eol b p)).*1 = (items p).*1.
Proof.
  apply list_eq. intros i. rewrite !list_lookup_fmap.
  destruct (items p !! i) as [[t e]|] eqn:E.
  - by rewrite (set_eol_lookup p b i t e E).
  - assert (Hl : items (datapack_set_eol b p) !! i = None); [|by rewrite Hl].
    apply lookup_ge_None in E. apply lookup_ge_None.
    pose proof (set_eol_count p b). unfold pack_count in *. lia.
Qed.

Lemma serve_elem k n (l : list client_scene) o' : NoDup (dobject_id <$> l) → o' ∈ serve k n l →
  (∃ o, o ∈ take n (due_objects k l) ∧
        o' = set_change_indicator (served k <$> change_indicator o) o) ∨
  (o' ∈ l ∧ dobject_id o' ∉ dobject_id <$> take n (due_objects k l)).
Proof.
  revert n. induction l as [|o l IH]; intros n Hnd Ho'; [inversion Ho'|].
  cbn [fmap list_fmap] in Hnd. apply NoDup_cons in Hnd as [Hn Hnd].
  assert (Hsub : ∀ m, dobject_id o ∉ dobject_id <$> take m (due_objects k l)).
  { intros m Hin. apply Hn. apply list_elem_of_fmap in Hin as (x & -> & Hx).
    apply list_elem_of_fmap. exists x. split; [done|].
    assert (Hd : x ∈ due_objects k l) by (by apply elem_of_take in Hx as (j & Hj%list_elem_of_lookup_2 & _)).
    by apply list_elem_of_filter in Hd as [_ Hd]. }
  rewrite due_objects_cons. cbn [serve] in Ho'. destruct (due_of due k o) eqn:Ed.
  - destruct n as [|n]; [right; by split; [|rewrite take_0; apply not_elem_of_nil]|].
    cbn [take]. apply elem_of_cons in Ho' as [->|Ho'].
    + left. exists o. split; [apply list_elem_of_here|done].
    + destruct (IH n Hnd Ho') as [(x & Hx & ->)|[Hx Hi]].
      * left. exists x. split; [by apply list_elem_of_further|done].
      * right. split; [by apply list_elem_of_further|]. cbn. apply not_elem_of_cons. split; [|done].
        intros E. apply Hn. rewrite <- E. by apply list_elem_of_fmap_2.
  - apply elem_of_cons in Ho' as [->|Ho'].
    + right. split; [apply list_elem_of_here|apply Hsub].
    + destruct (IH n Hnd Ho') as [(x & Hx & ->)|[Hx Hi]].
      * left. by exists x.
      * right. split; [by apply list_elem_of_further|done].
Qed.

Lemma scene_items_snoc msgs m : scene_items (msgs ++ [m]) =
  scene_items msgs ++ match m with ScenePackUpdate p => (items p).*1 | _ => [] end.
Proof. unfold scene_items. rewrite fmap_app, join_app. cbn. by rewrite app_nil_r. Qed.

Lemma state_items_snoc msgs m : state_items (msgs ++ [m]) =
  state_items msgs ++ match m with SceneStatePackUpdate p => (items p).*1 | _ => [] end.
Proof. unfold state_items. rewrite fmap_app, join_app. cbn. by rewrite app_nil_r. Qed.

Definition item_of (k : scene_kind) (now : nat → clock) (o : client_scene) : scene_item k :=
  scene_convert k (now (address o)) (dobject_id o) (payload o).

Lemma known_pack msgs k now n (p : datapack (scene_item k)) l :
  NoDup (dobject_id <$> l) → known_ok msgs l →
  (items p).*1 = item_of k now <$> take n (due_objects k l) →
  known_ok (msgs ++ [scene_msg k p]) (serve k n l).
Proof.
  intros Hnd Hk Hp o' Ho'. set (D := take n (due_objects k l)) in *.
  assert (HD : D `sublist_of` l).
  { transitivity (due_objects k l); [apply sublist_take|]. unfold due_objects. apply sublist_filter. }
  assert (HnD : NoDup (dobject_id <$> D)) by (eapply sublist_NoDup, fmap_sublist; [exact Hnd|exact HD]).
  unfold known_scene, known_state. rewrite scene_items_snoc, state_items_snoc.
  destruct (serve_elem k n l o' Hnd Ho') as [(o & Ho & ->)|[Hl Hn]]; destruct k;
    cbn [scene_msg scene_item item_of scene_convert] in *; rewrite ?app_nil_r, Hp.
  - destruct (Hk o ltac:(by eapply elem_of_sublist)) as [_ K2]. split; intros Hm.
    + apply (last_own ts_Id (item_of KScene now) ltac:(intros; apply convert_scene_id) o); done.
    + apply K2. revert Hm. unfold ind_state_changed. cbn. by destruct (change_indicator o).
  - destruct (Hk o ltac:(by eapply elem_of_sublist)) as [K1 _]. split; intros Hm.
    + apply K1. revert Hm. unfold ind_scene_changed. cbn. by destruct (change_indicator o).
    + exists (now (address o)).
      apply (last_own ts_SceneId (item_of KState now) ltac:(intros; apply convert_state_id) o); done.
  - destruct (Hk o' Hl) as [K1 K2]. split; [|exact K2]. intros Hm.
    by rewrite (last_other ts_Id (item_of KScene now) ltac:(intros; apply convert_scene_id)); [apply K1|].
  - destruct (Hk o' Hl) as [K1 K2]. split; [exact K1|]. intros Hm.
    rewrite (last_other ts_SceneId (item_of KState now)
               ltac:(intros; apply convert_state_id)); [by apply K2|done].
Qed.

(** What the loops leave, when they start with no pack at work. *)
Lemma collect_spec v now l s : 18 <= v → at_rest s → Z.of_nat (length l) < 2 ^ 31 →
  NoDup (dobject_id <$> l) → ∀ msgs, known_ok msgs l →
  let '(l', s') := update_all v now l (with_own (verify true l (own s)) s) in
  dobject_id <$> l' = dobject_id <$> l ∧ transaction_rejected s' = false ∧
  (at_rest s' ∧ known_ok msgs l' ∨
   transaction_started s' = true ∧ known_ok (msgs ++ send_packs (own s')) l').
Proof.
  intros Hv (Hs & Hr & Hi) Hlen Hnd msgs Hk. destruct s as [st se rj au u].
  cbn [transaction_started transaction_rejected own] in *. subst st rj.
  unfold with_own. cbn [transaction_started transaction_should_end transaction_rejected any_updates own].
  destruct (kind_of due kinds l) as [k|] eqn:Ek.
  - destruct l as [|o l]; [done|]. pose proof (verify_prepares o l u k Hi Ek) as Hp.
    destruct (kind_of_due _ _ Ek) as [_ Hdue].
    destruct (update_all_prepared v k (address o) now (o :: l) (o :: l) Ek ltac:(done) Hlen _
                se au Hp Hdue) as (u' & -> & Hh).
    pose proof (pack_after_pos k (address o) now (o :: l) Hdue) as Hc.
    destruct (end_sends _ _ _ _ Hh Hc) as (u2 & Es & _). cbn [on_transaction_end scene_remote_updater] in Es.
    injection Es as Es _. split; [|split; [done|right; split; [done|]]].
    + generalize (Z.to_nat (max_count k)). clear. induction (o :: l) as [|x xs IH]; intros n; [done|].
      cbn [serve]. destruct (due_of due k x); [destruct n|]; cbn; by rewrite ?IH.
    + cbn [own]. rewrite Es. apply known_pack with (now := now); [done|done|].
      rewrite set_eol_fst. unfold pack_after. cbn [items empty_pack app].
      change (pack_count empty_pack) with 0. rewrite Z.sub_0_r. rewrite <- list_fmap_compose. done.
  - rewrite update_all_unchanged; [|by apply kind_of_None|done|done].
    split; [done|]. split; [done|]. left. split; [|done]. split; [done|]. split; [done|].
    cbn. apply (verify_idle l u Hi Ek).
Qed.

Record scenes_ok (w : client_scenes) : Prop := ScenesOk {
  so_ids : NoDup (dobject_id <$> scenes w);
  so_len : Z.of_nat (length (scenes w)) < 2 ^ 31;
  so_phase :
    (threads w = ∅ ∧ at_rest (scenes_updater w) ∧ known_ok (sent w) (scenes w)) ∨
    (∃ t, threads w = {[ t := Collected ]} ∧ transaction_rejected (scenes_updater w) = false ∧
       (at_rest (scenes_updater w) ∧ known_ok (sent w) (scenes w) ∨
        transaction_started (scenes_updater w) = true ∧
        known_ok (sent w ++ send_packs (own (scenes_updater w))) (scenes w))) ∨
    (∃ t, threads w = {[ t := PacksSent ]} ∧ transaction_rejected (scenes_updater w) = false ∧
       known_ok (sent w) (scenes w))
}.

(** Steps that change the scenes only. *)
Lemma scenes_ok_with w l : scenes_ok w → NoDup (dobject_id <$> l) → Z.of_nat (length l) < 2 ^ 31 →
  (∀ msgs, known_ok msgs (scenes w) → known_ok msgs l) → scenes_ok (with_scenes l w).
Proof.
  intros [H1 H2 H3] Hn Hl Hk. constructor; cbn; [done|done|].
  destruct H3 as [(? & ? & ?)|[(t & ? & ? & [[? ?]|[? ?]])|(t & ? & ? & ?)]].
  - left. auto.
  - right; left. exists t. auto 6.
  - right; left. exists t. auto 6.
  - right; right. exists t. auto.
Qed.

Lemma lookup_singleton_pc t t' (a b : thread_pc) :
  ({[ t := a ]} : gmap nat thread_pc) !! t' = Some b → t' = t ∧ a = b.
Proof. by intros [-> ->]%lookup_singleton_Some. Qed.

Lemma collect_step_ok v w w' t now : 18 <= v → scenes_ok w → threads w = ∅ →
  step v (ACollect t now) w = Some w' → scenes_ok w'.
Proof.
  intros Hv [H1 H2 H3] Hc Hs. cbn [step] in Hs. rewrite Hc, lookup_empty in Hs.
  assert (Hr : at_rest (scenes_updater w) ∧ known_ok (sent w) (scenes w)).
  { destruct H3 as [(_ & Hr & Hk)|[(t' & E & _)|(t' & E & _)]]; [done| |];
      rewrite Hc in E; symmetry in E; by apply map_non_empty_singleton in E. }
  destruct Hr as [Hr Hk].
  change (is_protocol_version_allowed v) with (18 <=? v) in Hs.
  rewrite (proj2 (Z.leb_le _ _) Hv) in Hs.
  pose proof (collect_spec v now (scenes w) (scenes_updater w) Hv Hr H2 H1 (sent w) Hk) as Hsp.
  destruct (update_all _ _ _ _) as [l s]. destruct Hsp as (Hid & Hrj & Hsp). injection Hs as <-.
  constructor; cbn; [by rewrite Hid| |].
  - by rewrite <- (length_fmap dobject_id), Hid, length_fmap.
  - right; left. by exists t.
Qed.

Lemma calm_step_ok v w w' : 18 <= v → scenes_ok w → calm_step v w w' → scenes_ok w'.
Proof.
  intros Hv Hw (a & Hc & Hs). pose proof Hw as [H1 H2 H3]. destruct a as [ad run rows|i c|i st|t now|t|t].
  - injection Hs as <-. destruct Hc as [Hc1 Hc2]. apply scenes_ok_with; [done| | |].
    + by rewrite load_ids.
    + unfold load_scenes. by rewrite length_imap.
    + intros msgs _. apply load_known.
  - injection Hs as <-. pose proof (set_caption_ok c) as Hf. apply scenes_ok_with; [done| | |].
    + by rewrite access_ids.
    + rewrite <- (length_fmap dobject_id), access_ids, length_fmap by done. done.
    + intros msgs. by apply access_known.
  - injection Hs as <-. pose proof (set_state_ok st) as Hf. apply scenes_ok_with; [done| | |].
    + by rewrite access_ids.
    + rewrite <- (length_fmap dobject_id), access_ids, length_fmap by done. done.
    + intros msgs. by apply access_known.
  - by apply (collect_step_ok v w w' t now).
  - cbn [step] in Hs. destruct (threads w !! t) as [[]|] eqn:Et; [|done|done].
    destruct H3 as [(E & _)|[(t' & E & Hrj & Hd)|(t' & E & _)]]; rewrite E in Et.
    + by rewrite lookup_empty in Et.
    + apply lookup_singleton_pc in Et as [-> _]. destruct Hd as [[Hr Hk]|[Hst Hk]].
      * rewrite (proj1 Hr) in Hs. injection Hs as <-. constructor; cbn; [done|done|].
        left. rewrite E, delete_singleton_eq. done.
      * rewrite Hst in Hs. injection Hs as <-. constructor; cbn; [done|done|].
        right; right. exists t'. rewrite E, insert_singleton_eq. done.
    + apply lookup_singleton_pc in Et as [_ ?]. done.
  - cbn [step] in Hs. destruct (threads w !! t) as [[]|] eqn:Et; [done| |done].
    destruct H3 as [(E & _)|[(t' & E & _)|(t' & E & Hrj & Hk)]]; rewrite E in Et.
    + by rewrite lookup_empty in Et.
    + apply lookup_singleton_pc in Et as [_ ?]. done.
    + apply lookup_singleton_pc in Et as [-> _]. injection Hs as <-. constructor; cbn; [done|done|].
      left. rewrite E, delete_singleton_eq. done.
Qed.

Lemma new_client_scenes_ok : scenes_ok new_client_scenes.
Proof.
  constructor; cbn; [constructor|lia|]. left. split; [done|]. split; [done|].
  intros o Ho. inversion Ho.
Qed.

(** C17. While the threads do not overlap in [update_remote], whatever is loaded and changed in
    between: a client that no thread is serving knows, of every scene that is not marked as
    changed, exactly what the server has, and the state of every scene whose state is not
    marked; so that, after [scenes_sent], it knows everything. *)
Theorem scenes_known v w : 18 <= v → rtc (calm_step v) new_client_scenes w → threads w = ∅ →
  ∀ o, o ∈ scenes w →
  (ind_scene_changed o = false →
     known_scene (dobject_id o) (sent w) = Some (convert_scene (dobject_id o) (payload o))) ∧
  (ind_state_changed o = false → ∃ t,
     known_state (dobject_id o) (sent w) = Some (convert_state t (dobject_id o) (payload o))).
Proof.
  intros Hv Hr Ht. assert (Hok : scenes_ok w).
  { apply (rtc_invariant _ scenes_ok _ _ Hr); [apply new_client_scenes_ok|].
    intros a b Ha Hab. by apply (calm_step_ok v a b). }
  destruct Hok as [_ _ [(_ & _ & Hk)|[(t & E & _)|(t & E & _)]]]; [exact Hk| |];
    rewrite Ht in E; symmetry in E; by apply map_non_empty_singleton in E.
Qed.

(** The list of actions is calm all the way. *)
Fixpoint all_calm (v : Z) (l : list scene_action) (w : client_scenes) : Prop :=
  match l with
  | [] => True
  | a :: l => calm a w ∧ match step v a w with Some w' => all_calm v l w' | None => False end
  end.

Lemma calm_steps v l : ∀ w w', all_calm v l w → steps v l w = Some w' → rtc (calm_step v) w w'.
Proof.
  induction l as [|a l IH]; intros w w' Hc Hs; [injection Hs as <-; apply rtc_refl|].
  destruct Hc as [Hc Hl]. cbn [steps] in Hs. destruct (step v a w) as [w1|] eqn:E; [|done].
  eapply rtc_l; [by exists a|]. by apply IH.
Qed.

Definition two_rows : list scene_row :=
  [SceneRow 1 (Some [97]) 0 0 5; SceneRow 2 (Some [98]) 0 0 5].

Definition one_update (t : nat) : list scene_action :=
  [ACollect t (λ _, (timeval_zero, timeval_zero)); ASend t; ADelete t].

(** Two scenes are loaded and sent. *)
Definition loaded : list scene_action :=
  ALoad S (λ _, None) two_rows :: one_update 1 ++ one_update 1.

Lemma scenes_known_witness :
  let w := default new_client_scenes
             (steps 20 (loaded ++ ASetCaption 2 (Some [99]) :: one_update 7) new_client_scenes) in
  ts_Caption <$> known_scene 2 (sent w) =
    Some (ts_Caption (convert_scene 2 (SceneData (Some [99]) 0 0 5 no_scene_state))).
Proof.
  cbn zeta. set (l := loaded ++ _). set (w := default _ _).
  assert (Hr : rtc (calm_step 20) new_client_scenes w).
  { apply (calm_steps 20 l); [|vm_compute; reflexivity].
    vm_compute. repeat (split || constructor); try done; set_solver. }
  assert (Ho : nth 1 (scenes w) (new_client_scene 0 0) ∈ scenes w).
  { apply list_elem_of_In, nth_In. vm_compute. lia. }
  pose proof (scenes_known 20 w ltac:(lia) Hr ltac:(vm_compute; reflexivity) _ Ho) as [Hk _].
  specialize (Hk ltac:(vm_compute; reflexivity)).
  assert (Hi : dobject_id (nth 1 (scenes w) (new_client_scene 0 0)) = 2) by (vm_compute; reflexivity).
  rewrite Hi in Hk. rewrite Hk. vm_compute. reflexivity.
Defined.

Definition overlapping : list scene_action :=
  [ASetCaption 1 (Some [99]); ACollect 1 (λ _, (timeval_zero, timeval_zero)); ASend 1;
   ASetCaption 2 (Some [100]); ACollect 2 (λ _, (timeval_zero, timeval_zero));
   ADelete 1; ASend 2].

(** When a thread enters [update_remote] between the sending of another one and the
    deletion of its packs, what it collects is added to the pack that is about to be deleted: a
    new caption is marked as sent, no thread is left, and the client has the old caption for
    good. *)
Theorem scene_change_lost :
  ∃ w o, steps 20 (loaded ++ overlapping) new_client_scenes = Some w ∧ threads w = ∅ ∧ o ∈ scenes w ∧
    dobject_id o = 2 ∧ ind_scene_changed o = false ∧
    caption (payload o) = Some [100] ∧
    known_scene 2 (sent w) = Some (convert_scene 2 (SceneData (Some [98]) 0 0 5 no_scene_state)) ∧
    Forall (λ o, change_indicator o = Some (SceneIndicator false false)) (scenes w).
Proof.
  set (w := default new_client_scenes (steps 20 (loaded ++ overlapping) new_client_scenes)).
  exists w, (nth 1 (scenes w) (new_client_scene 0 0)).
  split; [vm_compute; reflexivity|]. split; [vm_compute; reflexivity|].
  split; [apply list_elem_of_In, nth_In; vm_compute; lia|].
  repeat (split; [vm_compute; reflexivity|]). vm_compute. repeat constructor.
Qed.

(** [update_remote] of a thread that is alone is made of these steps. *)
Lemma update_remote_steps v now w (t : nat) : threads w = ∅ → 18 <= v →
  let '(_, msgs, l, s) := update_remote v now (scenes w) (scenes_updater w) in
  ∃ acts, steps v acts w = Some (ClientScenes l s (sent w ++ msgs) ∅).
Proof.
  intros Ht Hv18. assert (Hv : is_protocol_version_allowed v = true) by (by apply Z.leb_le).
  unfold update_remote. rewrite Hv.
  destruct (update_all _ _ _ _) as [l s] eqn:E. unfold end_transaction.
  destruct (transaction_started s) eqn:Es; cbn [on_transaction_end scene_remote_updater].
  - exists [ACollect t now; ASend t; ADelete t]. cbn [steps step]. rewrite Ht, lookup_empty, Hv, E.
    cbn [mbind option_bind steps step threads scenes_updater]. rewrite lookup_insert_eq, Es.
    cbn [mbind option_bind steps step threads scenes_updater sent scenes]. rewrite lookup_insert_eq.
    cbn [mbind option_bind]. rewrite insert_insert_eq, delete_insert_eq, delete_empty. done.
  - exists [ACollect t now; ASend t]. cbn [steps step]. rewrite Ht, lookup_empty, Hv, E.
    cbn [mbind option_bind steps step threads scenes_updater]. rewrite lookup_insert_eq, Es.
    cbn [mbind option_bind sent scenes]. rewrite delete_insert_eq, delete_empty. by rewrite app_nil_r.
Qed.

(** Whenever the relations between the channels of a client are loaded, they are sent as a
    whole to a client of version 21 or later: all relations in their order and the relation that
    ends the list, in packs of one to 100, with the bit for the start of the list at the first
    one, the bit for its end at the last one, and no bit elsewhere. *)
Theorem relations_sent v now addresses relations :
  21 <= v → Z.of_nat (length relations) < 2 ^ 31 - 1 → (∀ i j, addresses i = addresses j → i = j) →
  let objects := load_relations addresses relations in
  ∃ msgs objects' s',
    @update_until_done _ _ _ _ relation_remote_updater v (S (length objects)) now 0 objects
      (new_updater list_updater_init) = Some (msgs, objects', s') ∧
    Forall (λ p, 0 < pack_count p <= SUPLA_CHANNEL_RELATION_PACK_MAXCOUNT) msgs ∧
    mjoin (items <$> msgs) =
      imap (λ i r, (convert_relation r.1 r.2,
                    (if decide (i = 0%nat) then START_OF_LIST_BIT else 0)
                    + (if decide (i = length relations) then END_OF_LIST_BIT else 0)))
        (relations ++ [(0, Relation 0 Relations.relation_any)]).
Proof.
  intros Hv Hlen Hinj. set (rs := relations ++ [(0, Relation 0 Relations.relation_any)]). cbn zeta.
  assert (Hn : length rs = S (length relations)) by (unfold rs; rewrite length_app; cbn; lia).
  assert (Hl : length (load_relations addresses relations) = length rs) by apply length_imap.
  destruct (list_sent 21 SUPLA_CHANNEL_RELATION_PACK_MAXCOUNT convert_relation ltac:(done) v now
              (load_relations addresses relations)) as (msgs & os & s' & E & Hc & _ & Hlm & Hi);
    [done|intros E; rewrite E in Hl; cbn in Hl; lia|lia| | |].
  - apply Forall_forall. intros o (n & [i r] & -> & _)%elem_of_lookup_imap. done.
  - apply NoDup_alt. intros i j a. unfold load_relations. rewrite fmap_imap, !list_lookup_imap.
    intros Hi Hj. destruct (rs !! i) as [[? ?]|] eqn:Ei; [|by fold rs in Hi; rewrite Ei in Hi].
    destruct (rs !! j) as [[? ?]|] eqn:Ej; [|by fold rs in Hj; rewrite Ej in Hj].
    fold rs in Hi, Hj. rewrite Ei in Hi. rewrite Ej in Hj. cbn in *. apply Hinj. congruence.
  - exists msgs, os, s'. split; [exact E|]. split; [exact Hc|]. apply list_eq. intros i.
    rewrite list_lookup_imap. destruct (rs !! i) as [[id r]|] eqn:Ei.
    + assert (Ho : load_relations addresses relations !! i = Some (DObject (addresses i) id (Some true) r)).
      { unfold load_relations. rewrite list_lookup_imap. fold rs. by rewrite Ei. }
      rewrite (Hi i _ Ho). cbn. do 3 f_equal. rewrite Hl, Hn. f_equal.
      destruct (decide (S i = S (length relations))), (decide (i = length relations)); try done; lia.
    + apply lookup_ge_None in Ei. apply lookup_ge_None. lia.
Qed.

Lemma relations_sent_witness :
  ∃ msgs objects' s',
    @update_until_done _ _ _ _ relation_remote_updater 21 3 (λ _ _, (timeval_zero, timeval_zero)) 0
      (load_relations id [(7, Relation 8 20)]) (new_updater list_updater_init)
      = Some (msgs, objects', s') ∧
    mjoin (items <$> msgs) = [(TSCRelation 7 8 20, 2); (TSCRelation 0 0 0, 1)].
Proof.
  destruct (relations_sent 21 (λ _ _, (timeval_zero, timeval_zero)) id [(7, Relation 8 20)]
    ltac:(lia) ltac:(cbn; lia) ltac:(done)) as (msgs & os & s' & E & _ & Hi).
  exists msgs, os, s'. split; [exact E|exact Hi].
Defined.
