(* ===== verification/ObjContainer.v ===== *)
(** * ObjContainer: the lists of a client

    objcontainer.cpp, objcontaineritem.cpp and client/clientobjcontainer.cpp of the server:
    lists of objects with a mark of what has changed of each since it was sent, and the
    function that sends what is marked, one kind of data after the other. What is sent of an
    object, and how, is left to the subclasses, here a class of operations. *)

From S2P Require Import Prelude DObjects.

#[local] Open Scope list_scope.
#[local] Open Scope Z_scope.

Definition OI_REMOTEUPDATE_DATA1 : Z := 1.
Definition OI_REMOTEUPDATE_DATA2 : Z := 2.
Definition OI_REMOTEUPDATE_DATA3 : Z := 4.

(** [supla_objcontainer_item], and what a subclass adds to it. *)
Record item (P : Type) := Item {
  item_id : Z;
  extra_id : Z;
  mark : Z;
  payload : P
}.

Arguments Item {P}.
Arguments item_id {P}.
Arguments extra_id {P}.
Arguments mark {P}.
Arguments payload {P}.

Definition with_mark {P} (m : Z) (it : item P) : item P :=
  Item (item_id it) (extra_id it) m (payload it).

Definition with_payload {P} (p : P) (it : item P) : item P :=
  Item (item_id it) (extra_id it) (mark it) p.

(** The virtual functions. [after_mark] is what a subclass does to the mark of an object that
    was marked; [get_data_for_remote] gives its result, [check_more], the data and the object. *)
Class RemoteLists (P D Msg Env : Type) := {
  remote_update_is_possible : item P → bool;
  after_mark : Z → Z;
  available_data_types : Z;
  get_data_for_remote : Env → item P → option D → Z → bool * bool * option D * item P;
  send_data_to_remote : D → Z → list Msg
}.

Section container.
Context {P D Msg Env : Type} `{!RemoteLists P D Msg Env}.
Implicit Types (it : item P) (arr : list (item P)).

Definition mark_for_remote_update (m : Z) it : item P :=
  let it := if remote_update_is_possible it then with_mark (Z.lor (mark it) m) it else it in
  with_mark (after_mark (mark it)) it.

Definition unmark_for_remote_update (m : Z) it : item P :=
  with_mark (Z.lxor (mark it) (Z.land (mark it) m)) it.

(** [arr_findcmp], for the search by both identifiers or by the first one. *)
Definition same_object (use_both : bool) (id extra : Z) it : bool :=
  (id =? item_id it) && (negb use_both || (extra =? extra_id it)).

Definition find_item (id : Z) arr : option (item P) := find_first (same_object false id 0) arr.

Definition find_extra (id : Z) arr : option (item P) := find_first (λ it, id =? extra_id it) arr.

(** [add_object]; [realloc] tells whether the array can grow. *)
Definition add_object (use_both realloc : bool) it arr : bool * list (item P) :=
  match find_first (same_object use_both (item_id it) (extra_id it)) arr with
  | Some _ => (false, arr)
  | None => if realloc then (true, arr ++ [mark_for_remote_update available_data_types it])
            else (false, arr)
  end.

(** [on_value_changed]: whether the client is to be woken up. *)
Definition concerns (id extra : Z) it : bool :=
  (extra_id it =? extra) && ((id =? 0) || (item_id it =? id)).

Definition on_value_changed (id extra : Z) (data_type : Z) arr : bool * list (item P) :=
  (existsb (concerns id extra) arr,
   (λ it, if concerns id extra it then mark_for_remote_update data_type it else it) <$> arr).

(** The loop of [do_remote_update]. *)
Fixpoint update_items (env : Env) (data_type : Z) arr (data : option D)
    : bool * option D * list (item P) :=
  match arr with
  | [] => (false, data, [])
  | it :: arr =>
      if Z.land (mark it) data_type =? 0 then
        let '(result, data, arr) := update_items env data_type arr data in
        (result, data, it :: arr)
      else
        let '(ok, check_more, data, it) := get_data_for_remote env it data data_type in
        let it := if ok then unmark_for_remote_update data_type it else it in
        if negb check_more then (ok, data, it :: arr)
        else
          let '(result, data, arr) := update_items env data_type arr data in
          (ok || result, data, it :: arr)
  end.

Definition do_remote_update (env : Env) (data_type : Z) arr : bool * list Msg * list (item P) :=
  let '(result, data, arr) := update_items env data_type arr None in
  (result, match data with Some d => send_data_to_remote d data_type | None => [] end, arr).

(** One scope in [remote_update], [n] kinds of data from [data_type] on. *)
Fixpoint remote_update_types (n : nat) (env : Env) (data_type : Z) arr
    : bool * list Msg * list (item P) :=
  match n with
  | O => (false, [], arr)
  | S n =>
      if Z.land available_data_types data_type =? 0 then (false, [], arr)
      else
        let '(result, msgs, arr) := do_remote_update env data_type arr in
        if result : bool then (true, msgs, arr)
        else let '(result, msgs', arr) := remote_update_types n env (Z.shiftl data_type 1) arr in
             (result, msgs ++ msgs', arr)
  end.

Definition remote_update_scope (env : Env) arr : bool * list Msg * list (item P) :=
  match arr with [] => (false, [], []) | _ => remote_update_types 4 env 1 arr end.

(** The client asks for more as long as something comes. *)
Fixpoint remote_update_all (fuel : nat) (env : nat → Env) arr : option (list Msg * list (item P)) :=
  match fuel with
  | O => None
  | S fuel =>
      let '(more, msgs, arr) := remote_update_scope (env fuel) arr in
      if more : bool then
        '(msgs', arr) ← remote_update_all fuel env arr; Some (msgs ++ msgs', arr)
      else Some (msgs, arr)
  end.
End container.
