(* ===== verification/ClientChannels.v ===== *)
(** * ClientChannels: the channels of a client

    client/clientchannel.cpp and client/clientchannels.cpp of the server, with
    device/channel_availability_status.cpp: what a client is told of a channel, depending on
    the version of its protocol, and how the list of its channels is kept up to date. *)

From S2P Require Import Prelude ChannelFunctions Proto ProtoTypes CallIds DObjects ClientScenes ObjContainer.

#[local] Open Scope list_scope.
#[local] Open Scope Z_scope.

(** ** Availability *)

Definition SUPLA_CHANNEL_OFFLINE_FLAG_ONLINE : Z := 0.
Definition SUPLA_CHANNEL_OFFLINE_FLAG_ONLINE_BUT_NOT_AVAILABLE : Z := 2.
Definition SUPLA_CHANNEL_OFFLINE_FLAG_OFFLINE_REMOTE_WAKEUP_NOT_SUPPORTED : Z := 3.

(** A status is its member [proto_offline]. *)
Definition special_status (z : Z) : bool :=
  (z =? SUPLA_CHANNEL_OFFLINE_FLAG_ONLINE_BUT_NOT_AVAILABLE)
  || (z =? SUPLA_CHANNEL_OFFLINE_FLAG_OFFLINE_REMOTE_WAKEUP_NOT_SUPPORTED)
  || (z =? SUPLA_CHANNEL_OFFLINE_FLAG_FIRMWARE_UPDATE_ONGOING).

Definition status_of (offline : bool) : Z :=
  if offline then SUPLA_CHANNEL_OFFLINE_FLAG_OFFLINE else SUPLA_CHANNEL_OFFLINE_FLAG_ONLINE.

Definition set_proto_online (online : Z) : Z :=
  if special_status online then online else if online =? 0 then 1 else 0.

Definition set_proto_offline (offline : Z) : Z :=
  if special_status offline then offline else if offline =? 0 then 0 else 1.

Definition is_online (status : Z) : bool := status =? SUPLA_CHANNEL_OFFLINE_FLAG_ONLINE.

Definition get_proto_online (status : Z) : Z :=
  if special_status status then status else if status =? 0 then 1 else 0.

Definition is_connected (status : Z) : bool :=
  is_online status || (status =? SUPLA_CHANNEL_OFFLINE_FLAG_ONLINE_BUT_NOT_AVAILABLE)
  || (status =? SUPLA_CHANNEL_OFFLINE_FLAG_FIRMWARE_UPDATE_ONGOING).

(** ** A channel *)

(** What is not in [item]; the identifier of the device is [extra_id] of the item.
    [has_parent] tells whether the channel is a part of another one, which depends on the
    configurations of the channels. *)
Record channel := Channel {
  channel_number : Z; location_id : Z; type : Z; func : Z; alt_icon : Z; user_icon : Z;
  manufacturer_id : Z; product_id : Z; device_protocol_version : Z; flags : Z;
  caption : option (list Z); is_virtual : bool; has_parent : bool; config_crc32 : Z;
  (** the last value that was known, and until when it counts *)
  last_value : list Z; value_valid_to : timeval
}.

Notation client_channel := (item channel).

Definition SUPLA_CHANNEL_FLAG_HAS_PARENT : Z := 536870912.

Definition get_flags (c : channel) : Z :=
  Z.lor (flags c) (if has_parent c then SUPLA_CHANNEL_FLAG_HAS_PARENT else 0).

(** [remote_update_is_possible]: the functions that any client knows, and those that need a
    version of the protocol. *)
Definition functions_of_all : list Z := [
  SUPLA_CHANNELFNC_CONTROLLINGTHEDOORLOCK; SUPLA_CHANNELFNC_CONTROLLINGTHEGATEWAYLOCK;
  SUPLA_CHANNELFNC_CONTROLLINGTHEGATE; SUPLA_CHANNELFNC_CONTROLLINGTHEGARAGEDOOR;
  SUPLA_CHANNELFNC_THERMOMETER; SUPLA_CHANNELFNC_HUMIDITY; SUPLA_CHANNELFNC_HUMIDITYANDTEMPERATURE;
  SUPLA_CHANNELFNC_NOLIQUIDSENSOR; SUPLA_CHANNELFNC_CONTROLLINGTHEROLLERSHUTTER;
  SUPLA_CHANNELFNC_CONTROLLINGTHEROOFWINDOW; SUPLA_CHANNELFNC_CONTROLLINGTHEFACADEBLIND;
  SUPLA_CHANNELFNC_TERRACE_AWNING; SUPLA_CHANNELFNC_PROJECTOR_SCREEN; SUPLA_CHANNELFNC_CURTAIN;
  SUPLA_CHANNELFNC_VERTICAL_BLIND; SUPLA_CHANNELFNC_ROLLER_GARAGE_DOOR; SUPLA_CHANNELFNC_POWERSWITCH;
  SUPLA_CHANNELFNC_LIGHTSWITCH; SUPLA_CHANNELFNC_DIMMER; SUPLA_CHANNELFNC_DIMMER_CCT;
  SUPLA_CHANNELFNC_DIMMER_CCT_AND_RGB; SUPLA_CHANNELFNC_RGBLIGHTING;
  SUPLA_CHANNELFNC_DIMMERANDRGBLIGHTING; SUPLA_CHANNELFNC_DEPTHSENSOR;
  SUPLA_CHANNELFNC_DISTANCESENSOR; SUPLA_CHANNELFNC_MAILSENSOR; SUPLA_CHANNELFNC_WINDSENSOR;
  SUPLA_CHANNELFNC_PRESSURESENSOR; SUPLA_CHANNELFNC_RAINSENSOR; SUPLA_CHANNELFNC_WEIGHTSENSOR;
  SUPLA_CHANNELFNC_WEATHER_STATION; SUPLA_CHANNELFNC_STAIRCASETIMER;
  SUPLA_CHANNELFNC_THERMOSTAT_HEATPOL_HOMEPLUS; SUPLA_CHANNELFNC_VALVE_OPENCLOSE;
  SUPLA_CHANNELFNC_VALVE_PERCENTAGE; SUPLA_CHANNELFNC_DIGIGLASS_HORIZONTAL;
  SUPLA_CHANNELFNC_DIGIGLASS_VERTICAL; SUPLA_CHANNELFNC_OPENINGSENSOR_GATEWAY;
  SUPLA_CHANNELFNC_OPENINGSENSOR_GATE; SUPLA_CHANNELFNC_OPENINGSENSOR_GARAGEDOOR;
  SUPLA_CHANNELFNC_OPENINGSENSOR_DOOR; SUPLA_CHANNELFNC_OPENINGSENSOR_ROLLERSHUTTER;
  SUPLA_CHANNELFNC_OPENINGSENSOR_ROOFWINDOW; SUPLA_CHANNELFNC_OPENINGSENSOR_WINDOW;
  SUPLA_CHANNELFNC_HOTELCARDSENSOR; SUPLA_CHANNELFNC_ALARMARMAMENTSENSOR;
  SUPLA_CHANNELFNC_ELECTRICITY_METER; SUPLA_CHANNELFNC_IC_ELECTRICITY_METER;
  SUPLA_CHANNELFNC_IC_GAS_METER; SUPLA_CHANNELFNC_IC_WATER_METER; SUPLA_CHANNELFNC_IC_HEAT_METER;
  SUPLA_CHANNELFNC_MOTION_SENSOR; SUPLA_CHANNELFNC_BINARY_SENSOR].

Definition functions_since : list (Z * list Z) := [
  (21, [SUPLA_CHANNELFNC_HVAC_THERMOSTAT; SUPLA_CHANNELFNC_HVAC_THERMOSTAT_HEAT_COOL;
        SUPLA_CHANNELFNC_HVAC_THERMOSTAT_DIFFERENTIAL; SUPLA_CHANNELFNC_HVAC_DOMESTIC_HOT_WATER;
        SUPLA_CHANNELFNC_GENERAL_PURPOSE_MEASUREMENT; SUPLA_CHANNELFNC_GENERAL_PURPOSE_METER]);
  (25, [SUPLA_CHANNELFNC_PUMPSWITCH; SUPLA_CHANNELFNC_HEATORCOLDSOURCESWITCH]);
  (26, [SUPLA_CHANNELFNC_CONTAINER; SUPLA_CHANNELFNC_SEPTIC_TANK; SUPLA_CHANNELFNC_WATER_TANK;
        SUPLA_CHANNELFNC_CONTAINER_LEVEL_SENSOR]);
  (27, [SUPLA_CHANNELFNC_FLOOD_SENSOR]);
  (28, [SUPLA_CHANNELFNC_HVAC_HRV])].

Definition member (f : Z) (l : list Z) : bool := existsb (Z.eqb f) l.

Definition channel_update_is_possible (protocol_version : Z) (c : channel) : bool :=
  if (protocol_version <? 21) && has_parent c then false
  else
    member (func c) functions_of_all
    || existsb (λ '(v, fs), (v <=? protocol_version) && member (func c) fs) functions_since
    || ((type c =? SUPLA_CHANNELTYPE_BRIDGE) && (func c =? 0)).

Definition with_func (f : Z) (c : channel) : channel :=
  Channel (channel_number c) (location_id c) (type c) f (alt_icon c) (user_icon c)
    (manufacturer_id c) (product_id c) (device_protocol_version c) (flags c) (caption c)
    (is_virtual c) (has_parent c) (config_crc32 c) (last_value c) (value_valid_to c).

Definition with_caption (cap : option (list Z)) (c : channel) : channel :=
  Channel (channel_number c) (location_id c) (type c) (func c) (alt_icon c) (user_icon c)
    (manufacturer_id c) (product_id c) (device_protocol_version c) (flags c) cap
    (is_virtual c) (has_parent c) (config_crc32 c) (last_value c) (value_valid_to c).

Definition with_last (v : list Z) (valid_to : timeval) (c : channel) : channel :=
  Channel (channel_number c) (location_id c) (type c) (func c) (alt_icon c) (user_icon c)
    (manufacturer_id c) (product_id c) (device_protocol_version c) (flags c) (caption c)
    (is_virtual c) (has_parent c) (config_crc32 c) v valid_to.

(** *** How long a value counts *)

Definition validity_from (now : timeval) (sec : Z) : timeval :=
  if 0 <? sec then Timeval (tv_sec now + sec) (tv_usec now) else timeval_zero.

Definition isValueValidityTimeSet (c : channel) : bool :=
  negb (tv_sec (value_valid_to c) =? 0) || negb (tv_usec (value_valid_to c) =? 0).

Definition getValueValidityTimeUSec (now : timeval) (c : channel) : Z :=
  if isValueValidityTimeSet c then Z.max 0 (usec_of (value_valid_to c) - usec_of now) else 0.

(** ** What is sent of a channel *)

(** [TSuplaChannelValue_B]; the older structure is without the last member. *)
Record chan_value := ChanValue { cv_value : list Z; cv_sub_value : list Z; cv_sub_value_type : Z }.

Definition no_sub_type (v : chan_value) : chan_value := ChanValue (cv_value v) (cv_sub_value v) 0.

(** The answer of [supla_user::get_channel_value], for the device and the channel. *)
Record user_value := UserValue {
  uv_value : chan_value; uv_status : Z; uv_validity_time_sec : Z
}.

Definition zero_value : chan_value :=
  ChanValue (replicate (Z.to_nat SUPLA_CHANNELVALUE_SIZE) 0) (replicate (Z.to_nat SUPLA_CHANNELVALUE_SIZE) 0) 0.

(** [proto_get_value], with the member [online] of the status. *)
Definition proto_get_value (t : clock) (answer : option user_value) (c : channel)
    : chan_value * Z * channel :=
  let '(v, status, result, c) :=
    match answer with
    | Some u => (uv_value u, uv_status u, true,
                 with_last (cv_value (uv_value u)) (validity_from t.1 (uv_validity_time_sec u)) c)
    | None => (zero_value, status_of true, false, c)
    end in
  if (negb result || negb (is_online status)) && isValueValidityTimeSet c
     && (0 <? getValueValidityTimeUSec t.2 c) && negb (is_virtual c)
  then (ChanValue (last_value c) (cv_sub_value v) (cv_sub_value_type v),
        get_proto_online (status_of false), c)
  else (v, get_proto_online status, c).

(** The structures [TSC_SuplaChannel], [_B] to [_E], in one record: what a structure does not
    have is 0. [EOL] is in the pack. *)
Record TSC_Channel := TSCChannel {
  tc_Id : Z; tc_DeviceID : Z; tc_LocationID : Z; tc_Type : Z; tc_Func : Z; tc_AltIcon : Z;
  tc_UserIcon : Z; tc_ManufacturerID : Z; tc_ProductID : Z; tc_DefaultConfigCRC32 : Z;
  tc_Flags : Z; tc_ProtocolVersion : Z; tc_online : Z; tc_value : chan_value;
  tc_CaptionSize : Z; tc_Caption : list Z
}.

Record TSC_ChannelValue := TSCChannelValue { tv_Id : Z; tv_online : Z; tv_value : chan_value }.

Section proto_get.
Context (id device_id : Z) (c : channel) (v : chan_value) (online : Z).

Notation text := (set_text (caption c) SUPLA_CHANNEL_CAPTION_MAXSIZE).1.
Notation size := (set_text (caption c) SUPLA_CHANNEL_CAPTION_MAXSIZE).2.

Definition proto_get_a : TSC_Channel :=
  TSCChannel id 0 (location_id c) 0 (func c) 0 0 0 0 0 0 0 online (no_sub_type v) size text.

Definition proto_get_b : TSC_Channel :=
  TSCChannel id 0 (location_id c) 0 (func c) (alt_icon c) 0 0 0 0
    (Z.land (get_flags c) 4294967295) (device_protocol_version c) online (no_sub_type v) size text.

Definition proto_get_c : TSC_Channel :=
  TSCChannel id device_id (location_id c) (type c) (func c) (alt_icon c) (user_icon c)
    (manufacturer_id c) (product_id c) 0 (Z.land (get_flags c) 4294967295)
    (device_protocol_version c) online (no_sub_type v) size text.

Definition proto_get_d : TSC_Channel :=
  TSCChannel id device_id (location_id c) (type c) (func c) (alt_icon c) (user_icon c)
    (manufacturer_id c) (product_id c) 0 (Z.land (get_flags c) 4294967295)
    (device_protocol_version c) online v size text.

Definition proto_get_e : TSC_Channel :=
  TSCChannel id device_id (location_id c) (type c) (func c) (alt_icon c) (user_icon c)
    (manufacturer_id c) (product_id c) (config_crc32 c) (get_flags c)
    (device_protocol_version c) online v size text.
End proto_get.

(** ** The list of the channels *)

(** What a client is sent; calls are named by their number. *)
Inductive channel_message :=
  | ChannelPackUpdate (call : Z) (p : datapack TSC_Channel)
  | ChannelValuePackUpdate (call : Z) (p : datapack TSC_ChannelValue)
  | ChannelValueUpdate (v : TSC_ChannelValue)
  | ChannelExtendedValuePackUpdate (values : list (Z * list Z)) (pack_size total_left : Z).

(** The data that is put together, by its kind. Extended values are their channel and their
    bytes. *)
Inductive channel_data :=
  | DChannels (p : datapack TSC_Channel)
  | DValues (p : datapack TSC_ChannelValue)
  | DValue (v : TSC_ChannelValue)
  | DExtended (values : list (Z * list Z)) (pack_size total_left : Z).

(** Without the bytes of the value. *)
Definition SIZEOF_TSC_SuplaChannelExtendedValue : Z := 9.

(** What the channels of the devices give at the time of an update: values, extended values (of
    the channel and, added to it, of its meter), and clocks. *)
Record channel_env := ChannelEnv {
  e_value : Z → Z → option user_value;
  e_extended : client_channel → option (list Z);
  e_clock : Z → clock
}.

Section channels.
Variable protocol_version : Z.

Definition proto_get (id device_id : Z) (c : channel) (v : chan_value) (online : Z) : TSC_Channel :=
  if 23 <=? protocol_version then proto_get_e id device_id c v online
  else if 15 <=? protocol_version then proto_get_d id device_id c v online
  else if 10 <=? protocol_version then proto_get_c id device_id c v online
  else if 8 <=? protocol_version then proto_get_b id c v online
  else proto_get_a id c v online.

Definition proto_get_channel_value (id : Z) (v : chan_value) (online : Z) : TSC_ChannelValue :=
  TSCChannelValue id online (if 15 <=? protocol_version then v else no_sub_type v).

(** Reading an object: what is sent of it, and the object. *)
Definition read_value (env : channel_env) (it : client_channel)
    : chan_value * Z * client_channel :=
  let '(v, online, c) :=
    proto_get_value (e_clock env (item_id it)) (e_value env (extra_id it) (item_id it)) (payload it) in
  (v, online, with_payload c it).

(** [get_datapack_for_remote]: a function that gives the item and the object afterwards is
    called when there is room. *)
Definition get_datapack {T} (p : option (datapack T)) (max_count : Z)
    (get : T * client_channel) (it : client_channel) : bool * datapack T * client_channel :=
  let p := default empty_pack p in
  if pack_count p <? max_count
  then (true, Datapack (items p ++ [(get.1, 0)]) (total_left p), get.2)
  else (false, Datapack (items p) (i32 (total_left p + 1)), it).

Definition get_ev_datapack (env : channel_env) (it : client_channel) (data : option channel_data)
    : bool * option channel_data :=
  let refuse := match data with
                | Some (DExtended vs size rest) => Some (DExtended vs size (i32 (rest + 1)))
                | d => d
                end in
  let '(vs, pack_size, rest) := match data with
                                | Some (DExtended vs size rest) => (vs, size, rest)
                                | _ => ([], 0, 0)
                                end in
  if bool_decide (data ≠ None)
     && ((SUPLA_CHANNELEXTENDEDVALUE_PACK_MAXCOUNT <=? Z.of_nat (length vs))
         || (SUPLA_CHANNELEXTENDEDVALUE_PACK_MAXDATASIZE <=? pack_size))
  then (false, refuse)
  else match e_extended env it with
       | None => (false, refuse)
       | Some value =>
           let cev_size := SIZEOF_TSC_SuplaChannelExtendedValue + Z.of_nat (length value) in
           if cev_size + pack_size <=? SUPLA_CHANNELEXTENDEDVALUE_PACK_MAXDATASIZE
           then (true, Some (DExtended (vs ++ [(item_id it, value)]) (pack_size + cev_size) rest))
           else (false, refuse)
       end.

(** [get_data_for_remote]; [check_more] is always true. *)
Definition get_channel_data (env : channel_env) (it : client_channel) (data : option channel_data)
    (data_type : Z) : bool * bool * option channel_data * client_channel :=
  if negb (Z.land data_type OI_REMOTEUPDATE_DATA1 =? 0) then
    let '(v, online, it') := read_value env it in
    let '(ok, p, it) :=
      get_datapack (match data with Some (DChannels p) => Some p | _ => None end)
        SUPLA_CHANNELPACK_MAXCOUNT
        (proto_get (item_id it) (extra_id it) (payload it) v online, it') it in
    (ok, true, Some (DChannels p), it)
  else if negb (Z.land data_type OI_REMOTEUPDATE_DATA2 =? 0) then
    let '(v, online, it') := read_value env it in
    let value := proto_get_channel_value (item_id it) v online in
    if 9 <=? protocol_version then
      let '(ok, p, it) :=
        get_datapack (match data with Some (DValues p) => Some p | _ => None end)
          SUPLA_CHANNELVALUE_PACK_MAXCOUNT (value, it') it in
      (ok, true, Some (DValues p), it)
    else (true, true, Some (DValue value), it')
  else if negb (Z.land data_type OI_REMOTEUPDATE_DATA3 =? 0) then
    if 10 <=? protocol_version then
      let '(ok, data) := get_ev_datapack env it data in (ok, true, data, it)
    else (false, true, data, it)
  else (false, true, data, it).

Definition send_channel_data (d : channel_data) (data_type : Z) : list channel_message :=
  match d with
  | DChannels p =>
      [ChannelPackUpdate
         (if 23 <=? protocol_version then SUPLA_SC_CALL_CHANNELPACK_UPDATE_E
          else if 15 <=? protocol_version then SUPLA_SC_CALL_CHANNELPACK_UPDATE_D
          else if 10 <=? protocol_version then SUPLA_SC_CALL_CHANNELPACK_UPDATE_C
          else if 8 <=? protocol_version then SUPLA_SC_CALL_CHANNELPACK_UPDATE_B
          else SUPLA_SC_CALL_CHANNELPACK_UPDATE) (datapack_set_eol false p)]
  | DValues p =>
      [ChannelValuePackUpdate
         (if 15 <=? protocol_version then SUPLA_SC_CALL_CHANNELVALUE_PACK_UPDATE_B
          else SUPLA_SC_CALL_CHANNELVALUE_PACK_UPDATE) (datapack_set_eol false p)]
  | DValue v => [ChannelValueUpdate v]
  | DExtended vs size rest => [ChannelExtendedValuePackUpdate vs size rest]
  end.

(** [mark_for_remote_update] of a channel: the value is a part of the channel. *)
Definition channel_after_mark (m : Z) : Z :=
  if negb (Z.land m OI_REMOTEUPDATE_DATA1 =? 0) && negb (Z.land m OI_REMOTEUPDATE_DATA2 =? 0)
  then Z.lxor m (Z.land m OI_REMOTEUPDATE_DATA2) else m.

#[local] Instance channel_lists : RemoteLists channel channel_data channel_message channel_env := {|
  remote_update_is_possible it := channel_update_is_possible protocol_version (payload it);
  after_mark := channel_after_mark;
  available_data_types := 7;
  get_data_for_remote := get_channel_data;
  send_data_to_remote := send_channel_data
|}.

(** *** What changes the channels *)

Definition on_channel_value_changed (device_id id : Z) (extended : bool)
    (arr : list client_channel) : bool * list client_channel :=
  on_value_changed id device_id
    (if extended then OI_REMOTEUPDATE_DATA3 else OI_REMOTEUPDATE_DATA2) arr.

Definition set_func (f : Z) (it : client_channel) : client_channel :=
  if f =? func (payload it) then it
  else mark_for_remote_update OI_REMOTEUPDATE_DATA1 (with_payload (with_func f (payload it)) it).

(** [setCaption]; comparing two null pointers is a fault. *)
Definition set_channel_caption (cap : option (list Z)) (it : client_channel)
    : option client_channel :=
  let changed := mark_for_remote_update OI_REMOTEUPDATE_DATA1
                   (with_payload (with_caption cap (payload it)) it) in
  match cap, caption (payload it) with
  | None, None => None
  | Some a, Some b => Some (if strncmp_eq a b SUPLA_CHANNEL_CAPTION_MAXSIZE then it else changed)
  | _, _ => Some changed
  end.

(** Of [supla_client_channels]: the channel is sought by its identifier. *)
Definition set_channel_function (id f : Z) (arr : list client_channel) : list client_channel :=
  update_first (same_object false id 0) (set_func f) arr.

(** [value_validity_time_usec]: the shortest time that is left; [now] is read per channel. *)
Fixpoint value_validity_time_usec (now : Z → timeval) (arr : list client_channel) (result : Z) : Z :=
  match arr with
  | [] => result
  | it :: arr =>
      let t := getValueValidityTimeUSec (now (item_id it)) (payload it) in
      value_validity_time_usec now arr
        (if (0 <? t) && ((result =? 0) || (t <? result)) then t else result)
  end.

(** [update_expired] *)
Definition expire (now : timeval) (it : client_channel) : bool * client_channel :=
  let c := payload it in
  if isValueValidityTimeSet c && (getValueValidityTimeUSec now c =? 0)
  then (true, mark_for_remote_update OI_REMOTEUPDATE_DATA2
                (with_payload (with_last (last_value c) timeval_zero c) it))
  else (false, it).

Definition update_expired (now : Z → timeval) (arr : list client_channel)
    : bool * list client_channel :=
  (existsb (λ it, (expire (now (item_id it)) it).1) arr,
   (λ it, (expire (now (item_id it)) it).2) <$> arr).

(** [set_channel_caption] of [supla_client_channels]; none is the fault of [setCaption]. *)
Definition channels_set_caption (id : Z) (cap : option (list Z)) (arr : list client_channel)
    : option (list client_channel) :=
  match find_item id arr with
  | None => Some arr
  | Some it =>
      it' ← set_channel_caption cap it;
      Some (update_first (same_object false id 0) (λ _, it') arr)
  end.

(** *** The client and its channels *)

(** What a client knows of the channels, from what it was sent. *)
Record knowledge := Knowledge {
  k_channels : gmap Z TSC_Channel; k_values : gmap Z TSC_ChannelValue
}.

Definition tell_value (k : knowledge) (v : TSC_ChannelValue) : knowledge :=
  Knowledge (k_channels k) (<[tv_Id v := v]> (k_values k)).

Definition tell_channel (k : knowledge) (tc : TSC_Channel) : knowledge :=
  Knowledge (<[tc_Id tc := tc]> (k_channels k))
    (<[tc_Id tc := TSCChannelValue (tc_Id tc) (tc_online tc) (tc_value tc)]> (k_values k)).

Definition tell (k : knowledge) (m : channel_message) : knowledge :=
  match m with
  | ChannelPackUpdate _ p => foldl tell_channel k (items p).*1
  | ChannelValuePackUpdate _ p => foldl tell_value k (items p).*1
  | ChannelValueUpdate v => tell_value k v
  | ChannelExtendedValuePackUpdate _ _ _ => k
  end.

(** The channels of the devices, the list of a client, and the client. *)
Record world := World {
  w_answers : Z → Z → option user_value;
  w_channels : list client_channel;
  w_known : knowledge
}.

Definition new_world (answers : Z → Z → option user_value) : world :=
  World answers [] (Knowledge ∅ ∅).

Definition set_answer (device_id id : Z) (a : option user_value)
    (answers : Z → Z → option user_value) : Z → Z → option user_value :=
  λ d c, if (d =? device_id) && (c =? id) then a else answers d c.

(** What happens, as the functions of the server that are called. A device tells the clients of
    each new value of a channel. *)
Inductive step : world → world → Prop :=
  | step_value answers arr k device_id id a :
      step (World answers arr k)
           (World (set_answer device_id id a answers)
                  (on_channel_value_changed device_id id false arr).2 k)
  | step_extended answers arr k device_id id :
      step (World answers arr k)
           (World answers (on_channel_value_changed device_id id true arr).2 k)
  | step_function answers arr k id f :
      step (World answers arr k) (World answers (set_channel_function id f arr) k)
  | step_caption answers arr arr' k id cap :
      channels_set_caption id cap arr = Some arr' →
      step (World answers arr k) (World answers arr' k)
  | step_expired answers arr k now :
      step (World answers arr k) (World answers (update_expired now arr).2 k)
  | step_add answers arr k realloc it :
      mark it = 0 →
      step (World answers arr k) (World answers (add_object false realloc it arr).2 k)
  | step_update arr arr' k env more msgs :
      remote_update_scope env arr = (more, msgs, arr') →
      step (World (e_value env) arr k) (World (e_value env) arr' (foldl tell k msgs)).

(** The loop of [do_remote_update] for one channel, when another thread does [during] after the
    channel has been read and before its mark is taken away: nothing keeps it from it. *)
Definition racing_update (env : channel_env) (data_type : Z)
    (during : list client_channel → list client_channel) (it : client_channel)
    : list channel_message * list client_channel :=
  let '(ok, _, data, it) := get_channel_data env it None data_type in
  let arr := during [it] in
  (match data with Some d => send_channel_data d data_type | None => [] end,
   if ok then unmark_for_remote_update data_type <$> arr else arr).

(** ** Until nothing is left *)

(** Marks that an update can take away: extended values may not exist. *)
Definition must_send (it : client_channel) : bool :=
  Z.testbit (mark it) 0 || Z.testbit (mark it) 1.

Definition weight (it : client_channel) : nat :=
  (Nat.b2n (Z.testbit (mark it) 0) + Nat.b2n (Z.testbit (mark it) 1)
   + Nat.b2n (Z.testbit (mark it) 2))%nat.

Definition total_weight (arr : list client_channel) : nat := sum_list_with weight arr.

Definition unmark (m dt : Z) : Z := Z.lxor m (Z.land m dt).

Lemma testbit_unmark m dt i : 0 <= i → Z.testbit (unmark m dt) i = Z.testbit m i && negb (Z.testbit dt i).
Proof.
  intros Hi. unfold unmark. rewrite Z.lxor_spec, Z.land_spec.
  by destruct (Z.testbit m i), (Z.testbit dt i).
Qed.

(** The three kinds of data, by the number of their bit. *)
Definition kind_bit (b : Z) : Prop := b = 0 ∨ b = 1 ∨ b = 2.

Lemma marked_bit m b : kind_bit b → (Z.land m (2 ^ b) =? 0) = negb (Z.testbit m b).
Proof.
  intros Hb. assert (H0 : 0 <= b) by (unfold kind_bit in Hb; lia).
  destruct (Z.testbit m b) eqn:E; cbn [negb].
  - apply Z.eqb_neq. intros E0. apply (f_equal (λ z, Z.testbit z b)) in E0.
    by rewrite Z.land_spec, E, Z.pow2_bits_true, Z.bits_0 in E0.
  - apply Z.eqb_eq. apply Z.bits_inj'. intros i Hi. rewrite Z.land_spec, Z.bits_0.
    destruct (Z.eq_dec i b) as [->|Hn]; [by rewrite E|].
    rewrite Z.pow2_bits_false by done. apply andb_false_r.
Qed.

Lemma unmark_bit m b i : kind_bit b → 0 <= i →
  Z.testbit (unmark m (2 ^ b)) i = Z.testbit m i && negb (i =? b).
Proof.
  intros Hb Hi. rewrite testbit_unmark by done. f_equal. f_equal.
  assert (H0 : 0 <= b) by (unfold kind_bit in Hb; lia).
  destruct (Z.eqb_spec i b) as [->|Hn]; [by apply Z.pow2_bits_true|by apply Z.pow2_bits_false].
Qed.

(** What an update leaves of a mark. *)
Definition fewer (it it' : client_channel) : Prop :=
  (∀ i, 0 <= i → Z.testbit (mark it') i = true → Z.testbit (mark it) i = true).

Lemma weight_fewer it it' : fewer it it' → (weight it' <= weight it)%nat.
Proof.
  intros Hf. unfold weight.
  pose proof (Hf 0 ltac:(lia)). pose proof (Hf 1 ltac:(lia)). pose proof (Hf 2 ltac:(lia)).
  destruct (Z.testbit (mark it') 0), (Z.testbit (mark it') 1), (Z.testbit (mark it') 2),
    (Z.testbit (mark it) 0), (Z.testbit (mark it) 1), (Z.testbit (mark it) 2); cbn; lia || naive_solver.
Qed.

Lemma weight_unmark it b : kind_bit b → Z.testbit (mark it) b = true →
  (weight (unmark_for_remote_update (2 ^ b) it) < weight it)%nat.
Proof.
  intros Hb Ht. unfold weight, unmark_for_remote_update. cbn [mark with_mark].
  fold (unmark (mark it) (2 ^ b)). rewrite !unmark_bit by (done || lia).
  destruct (Z.testbit (mark it) 0) eqn:E0, (Z.testbit (mark it) 1) eqn:E1,
    (Z.testbit (mark it) 2) eqn:E2; destruct Hb as [Hb | [Hb | Hb]]; rewrite Hb in *; cbn in *;
    first [congruence | lia].
Qed.

Lemma get_mark env it data dt : let '(_, _, _, it') := get_channel_data env it data dt in
  item_id it' = item_id it ∧ extra_id it' = extra_id it ∧ mark it' = mark it.
Proof.
  unfold get_channel_data, read_value.
  destruct (proto_get_value _ _ _) as [[v online] c] eqn:E.
  repeat case_match; simplify_eq; try done;
    unfold get_datapack in *; repeat case_match; simplify_eq; done.
Qed.

(** The loop takes marks away, at least one if it gives true, and all of a kind that can be sent
    when it gives false. *)
Lemma update_items_marks env b arr : kind_bit b → ∀ data,
  let '(result, _, arr') := update_items env (2 ^ b) arr data in
  Forall2 fewer arr arr' ∧
  (result = true → (total_weight arr' < total_weight arr)%nat) ∧
  (result = false → Forall2 (λ it it', mark it' = mark it) arr arr').
Proof.
  intros Hb. induction arr as [|it arr IH]; intros data; cbn [update_items]; [done|].
  rewrite (marked_bit (mark it) b Hb). destruct (Z.testbit (mark it) b) eqn:Et; cbn [negb].
  - pose proof (get_mark env it data (2 ^ b)) as Hg. cbn [get_data_for_remote channel_lists].
    assert (Hmore : (get_channel_data env it data (2 ^ b)).1.1.2 = true).
    { unfold get_channel_data, read_value. destruct (proto_get_value _ _ _) as [[? ?] ?].
      repeat case_match; simplify_eq; done. }
    destruct (get_channel_data env it data (2 ^ b)) as [[[ok more] data1] it1].
    cbn [fst snd] in Hmore. subst more. destruct Hg as (_ & _ & Hm). cbn [negb].
    specialize (IH data1). destruct (update_items env (2 ^ b) arr data1) as [[result data2] arr2].
    destruct IH as (I1 & I2 & I3).
    assert (Hf : fewer it (if ok then unmark_for_remote_update (2 ^ b) it1 else it1)).
    { intros i Hi. destruct ok; [|by rewrite Hm]. cbn. fold (unmark (mark it1) (2 ^ b)).
      rewrite Hm, unmark_bit by done. by intros [? _]%andb_prop. }
    assert (Hw : (total_weight arr2 <= total_weight arr)%nat).
    { clear - I1. induction I1 as [|x y l l' Hxy Hl IH]; [done|]. unfold total_weight in *. cbn.
      pose proof (weight_fewer _ _ Hxy). lia. }
    split; [by constructor|]. split; unfold total_weight in *; cbn [sum_list_with].
    + intros Hr. destruct ok; cbn [orb] in Hr.
      * assert (Hlt : (weight (unmark_for_remote_update (2 ^ b) it1) < weight it1)%nat)
          by (apply weight_unmark; [done|by rewrite Hm]).
        assert (weight it1 = weight it) by (unfold weight; by rewrite Hm). lia.
      * specialize (I2 Hr). pose proof (weight_fewer _ _ Hf). lia.
    + intros Hr. destruct ok; [done|]. constructor; [done|]. by apply I3.
  - specialize (IH data). destruct (update_items env (2 ^ b) arr data) as [[result data2] arr2].
    destruct IH as (I1 & I2 & I3). split; [constructor; [by intros i|done]|].
    split; unfold total_weight in *; cbn [sum_list_with].
    + intros Hr. specialize (I2 Hr). lia.
    + intros Hr. constructor; [done|by apply I3].
Qed.

(** A value or a channel can be sent as long as nothing has been put together. *)
Lemma first_is_sent env b arr : b = 0 ∨ b = 1 →
  (update_items env (2 ^ b) arr None).1.1 = false →
  Forall (λ it, Z.testbit (mark it) b = false) arr.
Proof.
  intros Hb. assert (Hk : kind_bit b) by (unfold kind_bit; tauto).
  induction arr as [|it arr IH]; [by constructor|]. cbn [update_items].
  rewrite (marked_bit (mark it) b Hk). destruct (Z.testbit (mark it) b) eqn:Et; cbn [negb].
  - assert (Hok : (get_channel_data env it None (2 ^ b)).1.1 = (true, true)).
    { unfold get_channel_data, read_value. destruct (proto_get_value _ _ _) as [[? ?] ?].
      destruct Hb as [-> | ->]; cbn; [done|]. by destruct (9 <=? protocol_version). }
    cbn [get_data_for_remote channel_lists].
    destruct (get_channel_data env it None (2 ^ b)) as [[[ok more] data1] it1].
    cbn in Hok. simplify_eq. cbn [negb].
    destruct (update_items env (2 ^ b) arr data1) as [[? ?] ?]. done.
  - destruct (update_items env (2 ^ b) arr None) as [[r ?] ?]. cbn in *. intros ->.
    constructor; [done|by apply IH].
Qed.

Definition sent (arr : list client_channel) : Prop := Forall (λ it, must_send it = false) arr.

Lemma fewer_sent arr arr' : Forall2 fewer arr arr' → sent arr → sent arr'.
Proof.
  unfold sent, must_send. induction 1 as [|it it' l l' Hf _ IH]; [done|].
  rewrite !Forall_cons. intros [H1 H2]. split; [|by apply IH].
  apply orb_false_iff in H1 as [Ha Hb]. pose proof (Hf 0 ltac:(lia)). pose proof (Hf 1 ltac:(lia)).
  destruct (Z.testbit (mark it') 0), (Z.testbit (mark it') 1); naive_solver.
Qed.

Lemma fewer_trans arr1 arr2 arr3 : Forall2 fewer arr1 arr2 → Forall2 fewer arr2 arr3 →
  Forall2 fewer arr1 arr3.
Proof. intros H1. revert arr3. induction H1; intros arr3; inversion 1; subst; constructor; unfold fewer in *; eauto. Qed.

Lemma fewer_weight arr arr' : Forall2 fewer arr arr' → (total_weight arr' <= total_weight arr)%nat.
Proof.
  unfold total_weight. induction 1 as [|it it' l l' Hf _ IH]; [done|]. cbn.
  pose proof (weight_fewer _ _ Hf). lia.
Qed.

(** One kind of data: what has been taken away, and what is left. *)
Lemma do_marks env b arr : kind_bit b →
  let '(more, _, arr') := do_remote_update env (2 ^ b) arr in
  Forall2 fewer arr arr' ∧
  (more = true → (total_weight arr' < total_weight arr)%nat) ∧
  (more = false → b = 0 ∨ b = 1 → Forall (λ it, Z.testbit (mark it) b = false) arr').
Proof.
  intros Hb. unfold do_remote_update.
  pose proof (update_items_marks env b arr Hb None) as H.
  pose proof (first_is_sent env b arr) as Hs.
  destruct (update_items env (2 ^ b) arr None) as [[more d] arr']. cbn in Hs.
  destruct H as (H1 & H2 & H3). split_and!; [done..|]. intros Hm Hb'.
  specialize (Hs Hb' Hm). specialize (H3 Hm). clear - Hs H3.
  induction H3 as [|it it' l l' E _ IH]; [constructor|].
  inversion Hs; subst. constructor; [by rewrite E|by apply IH].
Qed.

(** One kind of data after the other. *)
Lemma scope_marks env arr : let '(more, _, arr') := remote_update_scope env arr in
  Forall2 fewer arr arr' ∧
  (more = true → (total_weight arr' < total_weight arr)%nat) ∧
  (more = false → sent arr').
Proof.
  unfold remote_update_scope. destruct arr as [|it0 arr0].
  { split_and!; [constructor|done|by constructor]. }
  set (arr := it0 :: arr0). cbn [remote_update_types available_data_types channel_lists].
  change (Z.shiftl 1 1) with (2 ^ 1). change (Z.shiftl (2 ^ 1) 1) with (2 ^ 2).
  change (Z.land 7 1 =? 0) with false. change (Z.land 7 (2 ^ 1) =? 0) with false.
  change (Z.land 7 (2 ^ 2) =? 0) with false. change (Z.land 7 (Z.shiftl (2 ^ 2) 1) =? 0) with true.
  cbn iota. change (do_remote_update env 1) with (do_remote_update env (2 ^ 0)).
  pose proof (do_marks env 0 arr ltac:(unfold kind_bit; tauto)) as H1.
  destruct (do_remote_update env (2 ^ 0) arr) as [[[] m1] arr1]; destruct H1 as (A1 & A2 & A3);
    [by split_and!|]. specialize (A3 eq_refl ltac:(tauto)).
  pose proof (do_marks env 1 arr1 ltac:(unfold kind_bit; tauto)) as H1.
  pose proof (fewer_weight _ _ A1).
  destruct (do_remote_update env (2 ^ 1) arr1) as [[[] m2] arr2]; destruct H1 as (B1 & B2 & B3).
  { split_and!; [by eapply fewer_trans|intros _; specialize (B2 eq_refl); lia|done]. }
  specialize (B3 eq_refl ltac:(tauto)).
  assert (Hsent : sent arr2).
  { clear - A3 B1 B3. revert A3 B3. induction B1 as [|it it' l l' Hf _ IH]; [by constructor|].
    intros [Ha A3]%Forall_cons [Hb B3]%Forall_cons. constructor; [|by apply IH].
    unfold must_send. rewrite Hb, orb_false_r. pose proof (Hf 0 ltac:(lia)).
    destruct (Z.testbit (mark it') 0); naive_solver. }
  pose proof (do_marks env 2 arr2 ltac:(unfold kind_bit; tauto)) as H1.
  pose proof (fewer_weight _ _ B1).
  destruct (do_remote_update env (2 ^ 2) arr2) as [[more m3] arr3]; destruct H1 as (C1 & C2 & _).
  destruct more; split_and!; [eauto using fewer_trans|intros _; specialize (C2 eq_refl); lia|done
    |eauto using fewer_trans|done|intros _; by eapply fewer_sent].
Qed.

(** Sending what has changed of the channels comes to an end: every round that asks for
    another one has taken a mark away, so that as many rounds as there are marks are enough;
    then no channel is marked any more as one whose properties or value the client has to be
    sent, whatever values and clocks the rounds have seen, and in any version of the protocol.
    (Marks of extended values stay when there is none to send.) *)
Lemma channels_all_sent env arr :
  ∃ msgs arr', remote_update_all (S (total_weight arr)) env arr = Some (msgs, arr') ∧
    sent arr' ∧ Forall2 fewer arr arr'.
Proof.
  enough (H : ∀ fuel arr0, (total_weight arr0 < fuel)%nat → ∃ msgs arr',
    remote_update_all fuel env arr0 = Some (msgs, arr') ∧ sent arr' ∧ Forall2 fewer arr0 arr')
    by (apply H; lia).
  induction fuel as [|fuel IH]; intros arr0 Hw; [lia|]. cbn [remote_update_all].
  pose proof (scope_marks (env fuel) arr0) as Hs.
  destruct (remote_update_scope (env fuel) arr0) as [[[] msgs] arr1];
    destruct Hs as (H1 & H2 & H3); [|exists msgs, arr1; auto].
  specialize (H2 eq_refl). destruct (IH arr1 ltac:(lia)) as (msgs' & arr2 & E & ? & ?).
  rewrite E. cbn. exists (msgs ++ msgs'), arr2. eauto using fewer_trans.
Qed.

(** The old protocols, where values are sent one by one. *)
Lemma old_values_lost env it d arr : protocol_version < 9 →
  Forall (λ it, mark it = OI_REMOTEUPDATE_DATA2) (arr ++ [it]) →
  ∃ v online arr',
    update_items env OI_REMOTEUPDATE_DATA2 (arr ++ [it]) d
      = (true, Some (DValue (TSCChannelValue (item_id it) online v)), arr') ∧
    Forall (λ it, mark it = 0) arr'.
Proof.
  intros Hv. revert d. assert (Ev : (9 <=? protocol_version) = false) by lia.
  assert (Hget : ∀ it d, ∃ v online it',
    get_channel_data env it d OI_REMOTEUPDATE_DATA2
      = (true, true, Some (DValue (TSCChannelValue (item_id it) online v)), it') ∧ mark it' = mark it).
  { intros it' d. unfold get_channel_data, read_value. cbn. rewrite Ev.
    destruct (proto_get_value _ _ _) as [[? ?] ?]. eauto. }
  induction arr as [|it0 arr IH]; intros d Hm; cbn [app update_items] in *;
    apply Forall_cons in Hm as [H0 Hm].
  - destruct (Hget it d) as (v & online & it' & E & Em). rewrite H0. cbn. rewrite E. cbn.
    eexists v, online, _. split; [done|]. repeat constructor. cbn. by rewrite Em, H0.
  - destruct (Hget it0 d) as (v & online & it' & E & Em). rewrite H0. cbn. rewrite E. cbn.
    destruct (IH (Some (DValue (TSCChannelValue (item_id it0) online v))) Hm)
      as (v' & online' & arr' & E' & Ha). rewrite E'. cbn.
    eexists v', online', _. split; [done|]. constructor; [|done]. cbn. by rewrite Em, H0.
Qed.

(** ** What the client knows *)

(** The client has the properties of a channel, and the value that a reading gives. *)
Definition channel_told (k : knowledge) (it : client_channel) : Prop :=
  ∃ v online, k_channels k !! item_id it =
    Some (proto_get (item_id it) (extra_id it) (payload it) v online).

Definition value_told (answers : Z → Z → option user_value) (k : knowledge)
    (it : client_channel) : Prop :=
  ∃ t v online, (proto_get_value t (answers (extra_id it) (item_id it)) (payload it)).1 = (v, online) ∧
    k_values k !! item_id it = Some (proto_get_channel_value (item_id it) v online).

Definition fine (answers : Z → Z → option user_value) (k : knowledge) (it : client_channel) : Prop :=
  channel_update_is_possible protocol_version (payload it) = true →
  (Z.testbit (mark it) 0 = false → channel_told k it) ∧
  (must_send it = false → value_told answers k it).

(** What is being put together, as if it were sent. *)
Definition pending (k : knowledge) (d : option channel_data) : knowledge :=
  match d with
  | Some (DChannels p) => foldl tell_channel k (items p).*1
  | Some (DValues p) => foldl tell_value k (items p).*1
  | _ => k
  end.

Definition of_kind (b : Z) (d : option channel_data) : Prop :=
  match d with
  | None => True
  | Some (DChannels _) => b = 0
  | Some (DValues _) => b = 1
  | Some (DValue _) => False
  | Some (DExtended _ _ _) => b = 2
  end.

Definition same_except (i : Z) (k k' : knowledge) : Prop :=
  ∀ j, j ≠ i → k_channels k' !! j = k_channels k !! j ∧ k_values k' !! j = k_values k !! j.

Lemma fine_same i answers k k' it : same_except i k k' → item_id it ≠ i →
  fine answers k it → fine answers k' it.
Proof.
  intros Hs Hi Hf Hp. specialize (Hf Hp). destruct (Hs _ Hi) as [E1 E2].
  unfold channel_told, value_told in *. by rewrite E1, E2.
Qed.

(** Reading a value again at the same time changes nothing. *)
Lemma read_again t a c v online c' : proto_get_value t a c = (v, online, c') →
  proto_get_value t a c' = (v, online, c').
Proof.
  unfold proto_get_value. destruct a as [u|]; cbn; intros H.
  - assert (E : c' = with_last (cv_value (uv_value u)) (validity_from t.1 (uv_validity_time_sec u)) c).
    { by destruct (_ && _) in H; simplify_eq. }
    subst c'. exact H.
  - assert (c' = c) by (by destruct (_ && _) in H; simplify_eq). by subst c'.
Qed.

(** Reading changes nothing but the last value. *)
Lemma read_payload t a c v online c' : proto_get_value t a c = (v, online, c') →
  channel_update_is_possible protocol_version c' = channel_update_is_possible protocol_version c ∧
  ∀ id d v' o', proto_get id d c' v' o' = proto_get id d c v' o'.
Proof.
  unfold proto_get_value. destruct a as [u|]; cbn; destruct (_ && _); intros; simplify_eq; done.
Qed.

Lemma pending_channel k p tc :
  foldl tell_channel k (items p ++ [(tc, 0)]).*1 = tell_channel (foldl tell_channel k (items p).*1) tc.
Proof. by rewrite fmap_app, foldl_app. Qed.

Lemma pending_value k p v :
  foldl tell_value k (items p ++ [(v, 0)]).*1 = tell_value (foldl tell_value k (items p).*1) v.
Proof. by rewrite fmap_app, foldl_app. Qed.

Lemma tell_channel_except k tc : same_except (tc_Id tc) k (tell_channel k tc).
Proof. intros j Hj. cbn. by rewrite !lookup_insert_ne by done. Qed.

Lemma tell_value_except k v : same_except (tv_Id v) k (tell_value k v).
Proof. intros j Hj. cbn. by rewrite lookup_insert_ne by done. Qed.

Lemma proto_get_Id id d c v o : tc_Id (proto_get id d c v o) = id.
Proof. unfold proto_get. by repeat case_match. Qed.

Lemma proto_get_value_of id d c v o :
  TSCChannelValue id (tc_online (proto_get id d c v o)) (tc_value (proto_get id d c v o))
  = proto_get_channel_value id v o.
Proof.
  unfold proto_get, proto_get_channel_value.
  destruct (23 <=? protocol_version) eqn:E1; [|destruct (15 <=? protocol_version) eqn:E2].
  - by replace (15 <=? protocol_version) with true by lia.
  - done.
  - by repeat case_match.
Qed.

(** One object: [get_data_for_remote], and the mark taken away. *)
Definition told_one (answers : Z → Z → option user_value) (b : Z) (k : knowledge)
    (it : client_channel) (d d' : option channel_data) (it' : client_channel) : Prop :=
  of_kind b d' ∧ item_id it' = item_id it ∧
  same_except (item_id it) (pending k d) (pending k d') ∧
  (fine answers (pending k d) it → fine answers (pending k d') it').

Lemma get_channel env k it d : of_kind 0 d →
  let '(ok, _, d', it') := get_channel_data env it d 1 in
  told_one (e_value env) 0 k it d d' (if ok then unmark_for_remote_update 1 it' else it').
Proof.
  intros Hk. unfold get_channel_data.
  change (negb (Z.land 1 OI_REMOTEUPDATE_DATA1 =? 0)) with true. cbn iota. unfold read_value.
  destruct (proto_get_value _ _ _) as [[v online] c] eqn:E.
  set (p := match d with Some (DChannels p) => Some p | _ => None end).
  assert (Ep : pending k d = foldl tell_channel k (items (default empty_pack p)).*1).
  { subst p. destruct d as [[]|]; cbn in Hk |- *; lia || done. }
  unfold get_datapack. destruct (_ <? _); cbn [fst snd]; unfold told_one; rewrite Ep; cbn [pending items].
  - rewrite pending_channel. set (k1 := foldl _ _ _). set (tc := proto_get _ _ _ _ _).
    assert (Hid : tc_Id tc = item_id it) by apply proto_get_Id.
    split_and!; [done|done|rewrite <- Hid; apply tell_channel_except|].
    intros _ _. split; intros _.
    + exists v, online. cbn. rewrite Hid, lookup_insert_eq. f_equal. subst tc.
      symmetry. apply (read_payload _ _ _ _ _ _ E).
    + eexists _, v, online. cbn [item_id extra_id payload with_mark with_payload unmark_for_remote_update].
      split; [by rewrite (read_again _ _ _ _ _ _ E)|].
      cbn. rewrite Hid, lookup_insert_eq. f_equal. subst tc. apply proto_get_value_of.
  - split_and!; [done..|by intros ?|done].
Qed.

Lemma get_value env k it d : 9 <= protocol_version → of_kind 1 d →
  let '(ok, _, d', it') := get_channel_data env it d 2 in
  told_one (e_value env) 1 k it d d' (if ok then unmark_for_remote_update 2 it' else it').
Proof.
  intros Hv Hk. unfold get_channel_data.
  change (negb (Z.land 2 OI_REMOTEUPDATE_DATA1 =? 0)) with false. change (negb (Z.land 2 OI_REMOTEUPDATE_DATA2 =? 0)) with true. cbn iota. unfold read_value.
  replace (9 <=? protocol_version) with true by lia.
  destruct (proto_get_value _ _ _) as [[v online] c] eqn:E.
  set (p := match d with Some (DValues p) => Some p | _ => None end).
  assert (Ep : pending k d = foldl tell_value k (items (default empty_pack p)).*1).
  { subst p. destruct d as [[]|]; cbn in Hk |- *; lia || done. }
  unfold get_datapack. destruct (_ <? _); cbn [fst snd]; unfold told_one; rewrite Ep; cbn [pending items].
  - rewrite pending_value. set (k1 := foldl _ _ _).
    destruct (read_payload _ _ _ _ _ _ E) as [Hposs Hget].
    split_and!; [done|done|exact (tell_value_except _ (proto_get_channel_value (item_id it) v online))|].
    intros Hf Hp. cbn in Hp. rewrite Hposs in Hp. destruct (Hf Hp) as [Hc _].
    split; cbn [mark with_mark with_payload unmark_for_remote_update].
    + change 2 with (2 ^ 1) at 1. fold (unmark (mark it) (2 ^ 1)). rewrite unmark_bit by (unfold kind_bit; lia).
      rewrite andb_true_r. intros Hm. destruct (Hc Hm) as (v' & o' & E').
      exists v', o'. cbn. by rewrite Hget.
    + intros _. exists (e_clock env (item_id it)), v, online. unfold unmark_for_remote_update.
      cbn [item_id extra_id payload with_mark with_payload].
      split; [by rewrite (read_again _ _ _ _ _ _ E)|]. cbn. by rewrite lookup_insert_eq.
  - split_and!; [done..|by intros ?|done].
Qed.

Lemma get_extended env k it d : of_kind 2 d →
  let '(ok, _, d', it') := get_channel_data env it d 4 in
  told_one (e_value env) 2 k it d d' (if ok then unmark_for_remote_update 4 it' else it').
Proof.
  intros Hk. unfold get_channel_data.
  change (negb (Z.land 4 OI_REMOTEUPDATE_DATA1 =? 0)) with false. change (negb (Z.land 4 OI_REMOTEUPDATE_DATA2 =? 0)) with false. change (negb (Z.land 4 OI_REMOTEUPDATE_DATA3 =? 0)) with true. cbn iota.
  assert (H : ∀ (ok : bool) d', of_kind 2 d' →
    told_one (e_value env) 2 k it d d' (if ok then unmark_for_remote_update 4 it else it)).
  { intros ok d' Hd'. assert (Ep : pending k d' = pending k d).
    { destruct d as [[]|], d' as [[]|]; cbn in Hk, Hd' |- *; done || lia. }
    unfold told_one. rewrite Ep. split_and!; [done|by destruct ok|by intros ?|].
    destruct ok; [|done]. intros Hf Hp. destruct (Hf Hp) as [H1 H2].
    unfold must_send in *. cbn [mark with_mark unmark_for_remote_update].
    change 4 with (2 ^ 2). fold (unmark (mark it) (2 ^ 2)). rewrite !unmark_bit by (unfold kind_bit; lia).
    cbn. by rewrite !andb_true_r. }
  destruct (10 <=? protocol_version); [|exact (H false d Hk)].
  destruct (get_ev_datapack env it d) as [ok d'] eqn:E. apply H.
  unfold get_ev_datapack in E. destruct d as [[]|]; cbn in Hk; try (lia || done);
    repeat case_match; simplify_eq; done.
Qed.

Lemma get_told env b k it d : 9 <= protocol_version → kind_bit b → of_kind b d →
  let '(ok, _, d', it') := get_channel_data env it d (2 ^ b) in
  told_one (e_value env) b k it d d' (if ok then unmark_for_remote_update (2 ^ b) it' else it').
Proof.
  intros Hv [-> | [-> | ->]] Hk;
    [apply get_channel|apply get_value|apply get_extended]; done.
Qed.

Notation ids := (fmap item_id).

(** The loop of an update keeps what the client knows and the objects together. *)
Definition told_all (answers : Z → Z → option user_value) (arr arr' : list client_channel)
    (k k' : knowledge) : Prop :=
  ids arr' = ids arr ∧ (∀ j, j ∉ ids arr →
    k_channels k' !! j = k_channels k !! j ∧ k_values k' !! j = k_values k !! j) ∧
  (Forall (fine answers k) arr → Forall (fine answers k') arr').

Lemma update_items_told env b k arr : 9 <= protocol_version → kind_bit b → NoDup (ids arr) →
  ∀ d, of_kind b d →
  let '(_, d', arr') := update_items env (2 ^ b) arr d in
  of_kind b d' ∧ told_all (e_value env) arr arr' (pending k d) (pending k d').
Proof.
  intros Hv Hb. induction arr as [|it arr IH]; intros Hd d Hk; cbn [update_items]; [done|].
  cbn in Hd. apply NoDup_cons in Hd as [Hni Hd].
  destruct (Z.land (mark it) (2 ^ b) =? 0).
  - specialize (IH Hd d Hk). destruct (update_items env (2 ^ b) arr d) as [[r d'] arr'].
    destruct IH as (Hk' & E & Hs & Hf). split_and!; [done|]. split_and!; [cbn; by rewrite E| |].
    + intros j Hj. apply Hs. cbn in Hj. by apply not_elem_of_cons in Hj as [_ Hj].
    + intros [Hf1 Hf2]%Forall_cons. constructor; [|by apply Hf].
      intros Hp. specialize (Hf1 Hp). destruct (Hs (item_id it) Hni) as [E1 E2].
      unfold channel_told, value_told in *. by rewrite E1, E2.
  - pose proof (get_told env b k it d Hv Hb Hk) as Hg. cbn [get_data_for_remote channel_lists].
    assert (Hmore : (get_channel_data env it d (2 ^ b)).1.1.2 = true).
    { unfold get_channel_data, read_value. destruct (proto_get_value _ _ _) as [[? ?] ?].
      repeat case_match; simplify_eq; done. }
    destruct (get_channel_data env it d (2 ^ b)) as [[[ok more] d1] it1]. cbn in Hmore. subst more.
    cbn [negb]. set (it2 := if ok then _ else _) in *. destruct Hg as (Hk1 & Hid & Hs1 & Hf1).
    specialize (IH Hd d1 Hk1). destruct (update_items env (2 ^ b) arr d1) as [[r d'] arr'].
    destruct IH as (Hk' & E & Hs & Hf). split_and!; [done|]. split_and!; [cbn; by rewrite E, Hid| |].
    + intros j Hj. cbn in Hj. apply not_elem_of_cons in Hj as [Hn Hj].
      destruct (Hs j Hj) as [-> ->]. by apply Hs1.
    + intros [Hfi Hfl]%Forall_cons. constructor.
      * specialize (Hf1 Hfi). intros Hp. specialize (Hf1 Hp).
        destruct (Hs (item_id it2)) as [E1 E2]; [by rewrite Hid|].
        unfold channel_told, value_told in *. by rewrite E1, E2.
      * apply Hf. rewrite !Forall_forall in *. intros x Hx.
        apply (fine_same (item_id it) _ (pending k d)); [exact Hs1| |by apply Hfl].
        intros Hx'. apply Hni. rewrite <- Hx'. by apply list_elem_of_fmap_2.
Qed.

Lemma do_told env b k arr : 9 <= protocol_version → kind_bit b → NoDup (ids arr) →
  let '(_, msgs, arr') := do_remote_update env (2 ^ b) arr in
  told_all (e_value env) arr arr' k (foldl tell k msgs).
Proof.
  intros Hv Hb Hd. unfold do_remote_update.
  pose proof (update_items_told env b k arr Hv Hb Hd None I) as H.
  destruct (update_items env (2 ^ b) arr None) as [[r d] arr'].
  assert (E : foldl tell k match d with Some d => send_data_to_remote d (2 ^ b) | None => [] end
              = pending k d).
  { destruct H as (Hk & _). destruct d as [[]|]; cbn in Hk |- *; rewrite ?set_eol_fst; done. }
  rewrite E. apply H.
Qed.

Lemma told_trans answers arr1 arr2 arr3 k1 k2 k3 :
  told_all answers arr1 arr2 k1 k2 → told_all answers arr2 arr3 k2 k3 →
  told_all answers arr1 arr3 k1 k3.
Proof.
  intros (E1 & S1 & F1) (E2 & S2 & F2). split_and!; [congruence| |auto].
  intros j Hj. destruct (S2 j) as [-> ->]; [by rewrite E1|]. by apply S1.
Qed.

Lemma scope_told env k arr : 9 <= protocol_version → NoDup (ids arr) →
  let '(_, msgs, arr') := remote_update_scope env arr in
  told_all (e_value env) arr arr' k (foldl tell k msgs).
Proof.
  intros Hv Hd. unfold remote_update_scope. destruct arr as [|it0 arr0]; [done|].
  revert Hd. generalize (it0 :: arr0). clear it0 arr0. intros arr Hd.
  enough (H : ∀ n b arr k, 0 <= b → 3 - b < Z.of_nat n → NoDup (ids arr) →
    let '(_, msgs, arr') := remote_update_types n env (2 ^ b) arr in
    told_all (e_value env) arr arr' k (foldl tell k msgs))
    by exact (H 4%nat 0 arr k ltac:(lia) ltac:(lia) Hd).
  clear arr k Hd. induction n as [|n IH]; intros b arr k Hb Hn Hd; [done|].
  cbn [remote_update_types]. destruct (Z.land _ _ =? 0) eqn:Ea; [done|].
  assert (Hkb : kind_bit b).
  { unfold kind_bit. destruct (decide (b < 3)); [lia|]. exfalso. revert Ea.
    apply eq_true_false_abs. cbn [available_data_types channel_lists]. apply Z.eqb_eq.
    apply Z.bits_inj'. intros i Hi. rewrite Z.land_spec, Z.bits_0.
    destruct (decide (i = b)) as [->|Hne]; [|rewrite Z.pow2_bits_false by done; apply andb_false_r].
    rewrite Z.bits_above_log2; [done|lia|]. change (Z.log2 7) with 2. lia. }
  pose proof (do_told env b k arr Hv Hkb Hd) as H.
  destruct (do_remote_update env (2 ^ b) arr) as [[[] msgs] arr1]; [done|].
  replace (Z.shiftl (2 ^ b) 1) with (2 ^ (b + 1)) by (rewrite Z.shiftl_mul_pow2, Z.pow_add_r; lia).
  specialize (IH (b + 1) arr1 (foldl tell k msgs) ltac:(lia) ltac:(lia)).
  destruct (remote_update_types n env (2 ^ (b + 1)) arr1) as [[r msgs'] arr'].
  rewrite foldl_app. eapply told_trans; [done|]. apply IH. by rewrite (proj1 H).
Qed.

(** *** What the marks say *)

Lemma after_mark_bits m :
  Z.testbit (channel_after_mark m) 0 = Z.testbit m 0 ∧
  Z.testbit (channel_after_mark m) 1 = Z.testbit m 1 && negb (Z.testbit m 0).
Proof.
  unfold channel_after_mark. change OI_REMOTEUPDATE_DATA1 with (2 ^ 0).
  change OI_REMOTEUPDATE_DATA2 with (2 ^ 1).
  rewrite !marked_bit, !negb_involutive by (unfold kind_bit; lia).
  destruct (Z.testbit m 0) eqn:E0, (Z.testbit m 1) eqn:E1; cbn [andb negb]; [|by rewrite ?E0, ?E1..].
  fold (unmark m (2 ^ 1)). rewrite !unmark_bit by (unfold kind_bit; lia). by rewrite E0, E1.
Qed.

Lemma lor_bit m b i : kind_bit b → 0 <= i → Z.testbit (Z.lor m (2 ^ b)) i = Z.testbit m i || (i =? b).
Proof.
  intros Hb Hi. rewrite Z.lor_spec. f_equal. unfold kind_bit in Hb.
  destruct (Z.eqb_spec i b) as [->|]; [apply Z.pow2_bits_true; lia|by apply Z.pow2_bits_false].
Qed.

Lemma mark_bits b it : kind_bit b →
  channel_update_is_possible protocol_version (payload it) = true →
  let it' := mark_for_remote_update (2 ^ b) it in
  Z.testbit (mark it') 0 = Z.testbit (mark it) 0 || (b =? 0) ∧
  must_send it' = must_send it || (b =? 0) || (b =? 1).
Proof.
  intros Hb Hp. unfold mark_for_remote_update, must_send. cbn [remote_update_is_possible channel_lists].
  rewrite Hp. cbn [mark with_mark]. change (@after_mark _ _ _ _ channel_lists) with channel_after_mark.
  destruct (after_mark_bits (Z.lor (mark it) (2 ^ b))) as [-> ->].
  rewrite !lor_bit by (done || lia). rewrite !(Z.eqb_sym _ b).
  split; [done|]. by destruct (Z.testbit (mark it) 0), (Z.testbit (mark it) 1), (b =? 0), (b =? 1).
Qed.

Lemma mark_object m it : item_id (mark_for_remote_update m it) = item_id it ∧
  extra_id (mark_for_remote_update m it) = extra_id it ∧
  payload (mark_for_remote_update m it) = payload it.
Proof. unfold mark_for_remote_update. by destruct (remote_update_is_possible it). Qed.

Lemma mark_id m it : item_id (mark_for_remote_update m it) = item_id it.
Proof. apply mark_object. Qed.

(** An object that is marked as having new properties, or a new value. *)
Lemma fine_changed answers k it :
  fine answers k (mark_for_remote_update OI_REMOTEUPDATE_DATA1 it).
Proof.
  destruct (mark_object OI_REMOTEUPDATE_DATA1 it) as (_ & _ & Ep). intros Hp. rewrite Ep in Hp.
  destruct (mark_bits 0 it ltac:(unfold kind_bit; lia) Hp) as [H1 H2].
  change (2 ^ 0) with OI_REMOTEUPDATE_DATA1 in *. rewrite H1, H2. cbn. rewrite !orb_true_r. done.
Qed.

Lemma fine_new_value answers k it :
  (channel_update_is_possible protocol_version (payload it) = true →
   Z.testbit (mark it) 0 = false → channel_told k it) →
  fine answers k (mark_for_remote_update OI_REMOTEUPDATE_DATA2 it).
Proof.
  destruct (mark_object OI_REMOTEUPDATE_DATA2 it) as (Ei & Ex & Ep). intros Hf Hp. rewrite Ep in Hp.
  destruct (mark_bits 1 it ltac:(unfold kind_bit; lia) Hp) as [H1 H2].
  change (2 ^ 1) with OI_REMOTEUPDATE_DATA2 in *. rewrite H1, H2. cbn.
  rewrite orb_false_r, !orb_true_r. split; [|done].
  intros Hm. unfold channel_told. rewrite Ei, Ex, Ep. by apply Hf.
Qed.

Lemma fine_extended answers k it :
  fine answers k it → fine answers k (mark_for_remote_update OI_REMOTEUPDATE_DATA3 it).
Proof.
  destruct (mark_object OI_REMOTEUPDATE_DATA3 it) as (Ei & Ex & Ep). intros Hf Hp. rewrite Ep in Hp.
  destruct (mark_bits 2 it ltac:(unfold kind_bit; lia) Hp) as [H1 H2].
  change (2 ^ 2) with OI_REMOTEUPDATE_DATA3 in *. rewrite H1, H2. cbn.
  rewrite !orb_false_r. unfold channel_told, value_told. rewrite Ei, Ex, Ep. by apply Hf.
Qed.

Definition world_ok (w : world) : Prop :=
  NoDup (ids (w_channels w)) ∧ Forall (fine (w_answers w) (w_known w)) (w_channels w).

(** A new value of a channel. *)
Lemma set_answer_ok answers arr k device_id id a :
  world_ok (World answers arr k) →
  world_ok (World (set_answer device_id id a answers)
                  (on_channel_value_changed device_id id false arr).2 k).
Proof.
  intros [Hd Hf]. cbn in *. split; cbn.
  - rewrite <- list_fmap_compose. erewrite list_fmap_ext; [exact Hd|].
    intros i x _. cbn. by destruct (concerns _ _ x); [destruct (mark_object OI_REMOTEUPDATE_DATA2 x)|].
  - apply Forall_fmap. eapply Forall_impl; [exact Hf|]. intros it Hit. cbn.
    destruct (concerns id device_id it) eqn:E; [by apply fine_new_value; intros; apply Hit|].
    intros Hp. destruct (Hit Hp) as [H1 H2]. split; [done|]. intros Hm.
    destruct (H2 Hm) as (t & v & o & E1 & E2). exists t, v, o. split; [|done].
    unfold set_answer. destruct (_ && _) eqn:Es; [|done]. unfold concerns in E.
    apply andb_true_iff in Es as [Es1 Es2]. rewrite Es1, Es2, orb_true_r in E. done.
Qed.

Lemma update_first_ok answers arr k p (f : client_channel → client_channel) :
  (∀ it, it ∈ arr → p it = true → item_id (f it) = item_id it) →
  (∀ it, it ∈ arr → fine answers k it → p it = true → fine answers k (f it)) →
  world_ok (World answers arr k) → world_ok (World answers (update_first p f arr) k).
Proof.
  intros Hid Hf [Hd Ha]. cbn in *.
  assert (E : ids (update_first p f arr) = ids arr).
  { clear Hd Ha Hf. induction arr as [|x arr IH]; [done|]. cbn. destruct (p x) eqn:Ep; cbn.
    - by rewrite Hid by (done || constructor).
    - rewrite IH; [done|]. intros it Hi. apply Hid. by constructor. }
  split; cbn; [by rewrite E|]. clear E Hd Hid. induction Ha as [|x l Hx Hl IH]; [constructor|].
  cbn. destruct (p x) eqn:Ep; constructor; auto; [apply Hf; auto; constructor|].
  apply IH. intros it Hi. apply Hf. by constructor.
Qed.

Lemma map_ok answers arr k (f : client_channel → client_channel) :
  (∀ it, item_id (f it) = item_id it) →
  (∀ it, fine answers k it → fine answers k (f it)) →
  world_ok (World answers arr k) → world_ok (World answers (f <$> arr) k).
Proof.
  intros Hid Hf [Hd Ha]. split; cbn in *.
  - rewrite <- list_fmap_compose. erewrite list_fmap_ext; [exact Hd|]. intros i x _. apply Hid.
  - apply Forall_fmap. eapply Forall_impl; [exact Ha|]. exact Hf.
Qed.

Lemma set_caption_spec cap it it' : set_channel_caption cap it = Some it' →
  item_id it' = item_id it ∧ ∀ answers k, fine answers k it → fine answers k it'.
Proof.
  unfold set_channel_caption. set (it1 := with_payload _ it).
  assert (Hc : item_id (mark_for_remote_update OI_REMOTEUPDATE_DATA1 it1) = item_id it ∧
    ∀ answers k, fine answers k it →
      fine answers k (mark_for_remote_update OI_REMOTEUPDATE_DATA1 it1)).
  { split; [by rewrite mark_id|]. intros answers k _. apply fine_changed. }
  destruct cap, (caption (payload it)); [destruct (strncmp_eq _ _ _)|..]; intros [= <-]; done.
Qed.

Lemma expire_spec now it : item_id (expire now it).2 = item_id it ∧
  ∀ answers k, fine answers k it → fine answers k (expire now it).2.
Proof.
  unfold expire. destruct (_ && _); [|done]. cbn [snd]. split; [by rewrite mark_id|].
  intros answers k Hf. apply fine_new_value. cbn [mark payload with_payload].
  intros Hp Hm. exact (proj1 (Hf Hp) Hm).
Qed.

Lemma find_item_id (id : Z) (arr : list client_channel) it :
  find_item id arr = Some it → it ∈ arr ∧ item_id it = id.
Proof.
  unfold find_item. intros [H Hi]%find_first_Some. unfold same_object in H. cbn in H.
  rewrite andb_true_r in H. split; [done|lia].
Qed.

Lemma add_ok answers arr k realloc it : mark it = 0 → world_ok (World answers arr k) →
  world_ok (World answers (add_object false realloc it arr).2 k).
Proof.
  intros Hm [Hd Ha]. unfold add_object. cbn in Hd, Ha.
  destruct (find_first _ arr) eqn:E; [done|]. destruct realloc; [|done]. cbn [snd].
  rewrite find_first_None in E. change (@available_data_types _ _ _ _ channel_lists) with 7.
  destruct (mark_object 7 it) as (Ei & _ & Ep). split; cbn.
  - rewrite fmap_app. apply NoDup_app. split_and!; [done| |apply NoDup_singleton].
    rewrite list_fmap_singleton, Ei. intros i Hi ->%list_elem_of_singleton. apply list_elem_of_fmap in Hi as (x & Ex & Hx).
    specialize (E x Hx). unfold same_object in E. cbn in E. rewrite andb_true_r in E. lia.
  - apply Forall_app. split; [done|]. apply Forall_singleton. intros Hp. rewrite Ep in Hp.
    unfold must_send, mark_for_remote_update. cbn [remote_update_is_possible channel_lists].
    by rewrite Hp, Hm.
Qed.

Lemma step_ok w w' : 9 <= protocol_version → step w w' → world_ok w → world_ok w'.
Proof.
  intros Hv Hs. destruct Hs; intros Hok.
  - by apply set_answer_ok.
  - apply map_ok; [|intros it Hf|done]; intros; destruct (concerns _ _ _);
      [by rewrite mark_id|done|by apply fine_extended|done].
  - apply update_first_ok; [intros it _ _|intros it _ Hf _|done]; unfold set_func;
      destruct (_ =? _); [done|by rewrite mark_id|done|apply fine_changed].
  - unfold channels_set_caption in H. destruct (find_item id arr) as [it|] eqn:E; [|by simplify_eq].
    apply find_item_id in E as [Hi Hid]. destruct (set_channel_caption cap it) as [it'|] eqn:Ec; [|done].
    cbn in H. simplify_eq. destruct (set_caption_spec _ _ _ Ec) as [E1 E2].
    apply update_first_ok; [|intros it0 _ _ _|done].
    + intros it0 _ Hp. unfold same_object in Hp. cbn in Hp. rewrite andb_true_r in Hp. lia.
    + apply E2. destruct Hok as [_ Ha]. rewrite Forall_forall in Ha. by apply Ha.
  - apply map_ok; [| |done]; intros; by apply expire_spec.
  - by apply add_ok.
  - destruct Hok as [Hd Ha]. pose proof (scope_told env k arr Hv Hd) as Ht.
    rewrite H in Ht. destruct Ht as (E & _ & F). split; cbn; [by rewrite E|by apply F].
Qed.

Lemma all_told answers fuel env arr k msgs arr' : 9 <= protocol_version →
  (∀ n, e_value (env n) = answers) → NoDup (ids arr) →
  remote_update_all fuel env arr = Some (msgs, arr') → told_all answers arr arr' k (foldl tell k msgs).
Proof.
  intros Hv He. revert arr k msgs. induction fuel as [|fuel IH]; intros arr k msgs Hd; [done|].
  cbn [remote_update_all]. pose proof (scope_told (env fuel) k arr Hv Hd) as Ht. rewrite He in Ht.
  destruct (remote_update_scope (env fuel) arr) as [[[] m1] arr1]; [|by intros [= <- <-]].
  destruct (remote_update_all fuel env arr1) as [[m2 arr2]|] eqn:E; cbn; [|done].
  intros [= <- <-]. rewrite foldl_app. eapply told_trans; [done|].
  apply IH; [by rewrite (proj1 Ht)|done].
Qed.


(** A client whose protocol is older than 9 loses values. When several channels have a new
    value, the function takes the marks of all of them away and puts every value into the same
    structure, so that only the last one is sent. *)
Theorem old_clients_lose_values env arr it : protocol_version < 9 →
  Forall (λ it, mark it = OI_REMOTEUPDATE_DATA2) (arr ++ [it]) →
  ∃ v online arr',
    do_remote_update env OI_REMOTEUPDATE_DATA2 (arr ++ [it])
      = (true, [ChannelValueUpdate (TSCChannelValue (item_id it) online v)], arr') ∧
    Forall (λ it, mark it = 0) arr'.
Proof.
  intros Hv Hm. unfold do_remote_update.
  destruct (old_values_lost env it None arr Hv Hm) as (v & online & arr' & E & Ha).
  rewrite E. cbn. eauto.
Qed.

Lemma nothing_marked env x : mark x = 0 → remote_update_scope env [x] = (false, [], [x]).
Proof.
  intros Hm. unfold remote_update_scope.
  assert (H : ∀ dt, do_remote_update env dt [x] = (false, [], [x])).
  { intros dt. unfold do_remote_update. cbn [update_items]. by rewrite Hm, Z.land_0_l. }
  cbn [remote_update_types]. rewrite !H. by repeat destruct (Z.land _ _ =? 0).
Qed.

(** A new value can be lost. The mark of a channel is taken away after its value has been
    read, without looking at it again. If the device gives another value in between, the mark it
    sets is taken away with the first one: the client has been sent the old value, and the
    updates that follow have nothing to send, whatever the value is then. *)
Theorem value_change_lost env it : 9 <= protocol_version →
  mark it = OI_REMOTEUPDATE_DATA2 →
  let '(v, online, _) := read_value env it in
  let '(msgs, arr) := racing_update env OI_REMOTEUPDATE_DATA2
    (λ arr, (on_channel_value_changed (extra_id it) (item_id it) false arr).2) it in
  (∃ call, msgs = [ChannelValuePackUpdate call
                     (Datapack [(proto_get_channel_value (item_id it) v online, 1)] 0)]) ∧
  ∀ env', remote_update_scope env' arr = (false, [], arr).
Proof.
  intros Hv Hm. unfold racing_update, get_channel_data.
  change (negb (Z.land OI_REMOTEUPDATE_DATA2 OI_REMOTEUPDATE_DATA1 =? 0)) with false.
  change (negb (Z.land OI_REMOTEUPDATE_DATA2 OI_REMOTEUPDATE_DATA2 =? 0)) with true.
  replace (9 <=? protocol_version) with true by lia. cbn iota.
  unfold read_value. destruct (proto_get_value _ _ _) as [[v online] c]. cbn.
  split; [by eexists|]. intros env'. apply nothing_marked. unfold concerns, mark_for_remote_update.
  cbn [item_id extra_id with_payload]. rewrite !Z.eqb_refl, orb_true_r.
  cbn [andb remote_update_is_possible channel_lists payload with_payload].
  change (@after_mark _ _ _ _ channel_lists) with channel_after_mark.
  cbn [snd]. destruct (channel_update_is_possible _ _);
    cbn [mark with_mark with_payload unmark_for_remote_update]; by rewrite Hm.
Qed.
End channels.

(** ** Examples *)

Definition a_channel : channel :=
  Channel 0 3 SUPLA_CHANNELTYPE_RELAY SUPLA_CHANNELFNC_LIGHTSWITCH 0 0 0 0 20 0 (Some [76]) false false
    0 (replicate 8 0) timeval_zero.

Definition on_value (b : Z) : user_value :=
  UserValue (ChanValue (b :: replicate 7 0) (replicate 8 0) 0) (status_of false) 0.

Definition env_of (answers : Z → Z → option user_value) : channel_env :=
  ChannelEnv answers (λ _, None) (λ _, (timeval_zero, timeval_zero)).

Lemma old_clients_lose_values_witness :
  (8 < 9 ∧ Forall (λ it, mark it = OI_REMOTEUPDATE_DATA2)
     ([Item 5 1 2 a_channel] ++ [Item 6 1 2 a_channel])) ∧
  ∃ v online arr',
    @do_remote_update _ _ _ _ (channel_lists 8) (env_of (λ _ _, Some (on_value 1)))
      OI_REMOTEUPDATE_DATA2 ([Item 5 1 2 a_channel] ++ [Item 6 1 2 a_channel])
      = (true, [ChannelValueUpdate (TSCChannelValue 6 online v)], arr') ∧
    Forall (λ it, mark it = 0) arr'.
Proof.
  split; [split; [lia|repeat constructor]|].
  apply (old_clients_lose_values 8 _ [Item 5 1 2 a_channel] (Item 6 1 2 a_channel));
    [lia|repeat constructor].
Defined.

Lemma value_change_lost_witness :
  (9 <= 20 ∧ mark (Item 5 1 2 a_channel) = OI_REMOTEUPDATE_DATA2) ∧
  let env := env_of (λ _ _, Some (on_value 1)) in
  let '(v, online, _) := read_value env (Item 5 1 2 a_channel) in
  let '(msgs, arr) := racing_update 20 env OI_REMOTEUPDATE_DATA2
    (λ arr, (on_channel_value_changed 20 1 5 false arr).2) (Item 5 1 2 a_channel) in
  (∃ call, msgs = [ChannelValuePackUpdate call
                     (Datapack [(proto_get_channel_value 20 5 v online, 1)] 0)]) ∧
  ∀ env', @remote_update_scope _ _ _ _ (channel_lists 20) env' arr = (false, [], arr).
Proof.
  split; [split; [lia|done]|].
  exact (value_change_lost 20 (env_of (λ _ _, Some (on_value 1))) (Item 5 1 2 a_channel)
    ltac:(lia) eq_refl).
Defined.

