(* ===== verification/UserChannels.v ===== *)
(** * UserChannels: the channels of a user's devices

    What the server keeps of the channels of the devices that are connected
    (device/devicechannel.cpp, device/devicechannels.cpp), what it answers when it is asked for
    the value of a channel, with what its parts add to it (supla_user::get_channel_value), and
    whom it tells of a change (supla_user::on_channel_value_changed). ClientChannels.v takes the
    answers and the changes as they come; here they come from the devices. *)

From S2P Require Import Prelude ChannelFunctions ProtoTypes Relations ChannelValues ObjContainer ClientChannels.

#[local] Open Scope list_scope.
#[local] Open Scope Z_scope.

Definition is_offline (status : Z) : bool := status =? SUPLA_CHANNEL_OFFLINE_FLAG_OFFLINE.

Definition SUBV_TYPE_NOT_SET_OR_OFFLINE : Z := 0.
Definition SUBV_TYPE_SENSOR : Z := 1.
Definition SUBV_TYPE_ELECTRICITY_MEASUREMENTS : Z := 2.
Definition SUBV_TYPE_IC_MEASUREMENTS : Z := 3.

Definition zeros : list Z := replicate value_size 0.

(** ** Lists with keys *)

Lemma update_first_unique {A} (p : A → bool) (f : A → A) (l : list A) (key : A → Z) (k : Z) :
  (∀ x, p x = (key x =? k)) → NoDup (key <$> l) →
  update_first p f l = (λ x, if p x then f x else x) <$> l.
Proof.
  intros Hp. induction l as [|x l IH]; cbn; [done|]. intros [Hx Hl]%NoDup_cons.
  rewrite IH by done. destruct (p x) eqn:E; [|done]. f_equal.
  transitivity (id <$> l); [by rewrite list_fmap_id|]. apply list_fmap_ext. intros i y Hy.
  destruct (p y) eqn:Ey; [|done]. exfalso. apply Hx. rewrite Hp in E, Ey.
  apply Z.eqb_eq in E, Ey. rewrite E, <- Ey. apply list_elem_of_fmap_2. by eapply list_elem_of_lookup_2.
Qed.

Lemma find_first_map {A B} (p : B → bool) (g : A → B) (l : list A) :
  find_first p (g <$> l) = g <$> find_first (λ x, p (g x)) l.
Proof. induction l as [|x l IH]; cbn; [done|]. by destruct (p (g x)). Qed.

Lemma find_first_ext {A} (p q : A → bool) (l : list A) : (∀ x, p x = q x) →
  find_first p l = find_first q l.
Proof. intros H. induction l as [|x l IH]; cbn; [done|]. by rewrite H, IH. Qed.

Section user.
(** Extended values and documents; what a document says of values; the extended value of an
    impulse counter, and its member that clients see, for those that are one; the answer for a
    virtual channel. *)
Context {E J : Type}.
Context (value_config_of : J → value_config) (new_ic_extended : Z → Z → J → E)
  (calculated_value : E → option (list Z)) (virtual : Z → option user_value).

(** ** Channels *)

(** What changes here; the rest of a channel is in [d_props], with its documents read. *)
Record dchannel := DChannel {
  d_props : props; d_param4 : Z; d_json : J;
  d_value : list Z; d_status : Z; d_valid_to : timeval; d_extended : option E
}.

Record device := Device { device_id : Z; device_version : Z; d_channels : list dchannel }.

Notation channel_id x := (p_id (d_props x)).
Notation func_of x := (p_func (d_props x)).

Definition valid_to_set (x : dchannel) : bool :=
  negb (tv_sec (d_valid_to x) =? 0) || negb (tv_usec (d_valid_to x) =? 0).

(** [get_availability_status]: the negation is of the time, before anything is taken from it. *)
Definition get_availability_status (now : timeval) (x : dchannel) : Z :=
  if is_offline (d_status x)
     && ((0 <? tv_sec (d_valid_to x)) || negb (tv_usec (d_valid_to x) =? 0))
     && (0 <? Z.b2z (usec_of now =? 0) - usec_of (d_valid_to x))
  then status_of false else d_status x.

Definition get_value_validity_time_sec (now : timeval) (x : dchannel) : Z :=
  if ((0 <? tv_sec (d_valid_to x)) || negb (tv_usec (d_valid_to x) =? 0))
     && (tv_sec now <? tv_sec (d_valid_to x))
  then u32 (tv_sec (d_valid_to x) - tv_sec now) else 0.

Definition with_status (st : Z) (x : dchannel) : dchannel :=
  DChannel (d_props x) (d_param4 x) (d_json x) (d_value x) st (d_valid_to x) (d_extended x).

(** [set_availability_status]: the result, and whether [on_value_changed] is called. *)
Definition set_availability_status (st : Z) (raise : bool) (x : dchannel)
    : bool * option bool * dchannel :=
  if d_status x =? st then (false, None, x)
  else (true, if raise then Some false else None, with_status st x).

(** The value as the server keeps it: [_get_value] and [apply_channel_properties]. *)
Definition received_value (version : Z) (value : list Z) (x : dchannel) : list Z :=
  let p := d_props x in
  apply_channel_properties (new_value (p_func p)) (p_type p) version (p_param1 p) (d_param4 x)
    (value_config_of (d_json x)) value.

(** [convert2extended], which is for impulse counters: from the value as it was sent. *)
Definition convert2extended (value : list Z) (x : dchannel) : option E :=
  match new_value (func_of x) with
  | IcValue =>
      Some (new_ic_extended (func_of x)
              (ic_add_initial_value (initial_impulses (value_config_of (d_json x))) (u64_at 0 value))
              (d_json x))
  | _ => None
  end.

(** [set_value]: the result, whether [on_value_changed] is called and with which
    [convertible2extended], and the channel. [validity] is in seconds. *)
Definition set_value (now : timeval) (version : Z) (value : list Z) (validity : option Z)
    (status : option Z) (x : dchannel) : bool * option bool * dchannel :=
  if (match status with Some st => is_offline st | None => true end) && is_offline (d_status x)
  then (false, None, x)
  else if (match validity with None => valid_to_set x | Some _ => false end)
          && (0 <? usec_of (d_valid_to x) - usec_of now)
  then (false, None, x)
  else
    let valid_to := match validity with
                    | Some sec => Timeval (tv_sec now + sec) (tv_usec now)
                    | None => timeval_zero
                    end in
    let new := received_value version value x in
    let differ := is_differ new (d_value x) in
    let '(changed, _, x') :=
      match status with
      | Some st => set_availability_status st false x
      | None => (false, None, x)
      end in
    let differ := differ || changed in
    let eval := convert2extended value x in
    (differ, if differ then Some (bool_decide (is_Some eval)) else None,
     DChannel (d_props x) (d_param4 x) (d_json x) new (d_status x') valid_to
       (match eval with Some e => Some e | None => d_extended x end)).

(** ** Devices *)

Definition has_id (id : Z) (x : dchannel) : bool := channel_id x =? id.

Definition find_channel (id : Z) (d : device) : option dchannel :=
  if id =? 0 then None else find_first (has_id id) (d_channels d).

Definition find_channel_by_number (number : Z) (d : device) : option dchannel :=
  find_first (λ x, p_number (d_props x) =? number) (d_channels d).

Definition is_device (id : Z) (d : device) : bool := device_id d =? id.

(** [supla_user_devices::get] *)
Definition get_device (id chan_id : Z) (ds : list device) : option device :=
  if negb (id =? 0) then find_first (is_device id) ds
  else if negb (chan_id =? 0)
  then find_first (λ d, bool_decide (is_Some (find_channel chan_id d))) ds
  else None.

Definition props_of (d : device) : list props := d_props <$> d_channels d.

Definition channel_relations (ds : list device) (d : device) (chan_id kind : Z) : list relation :=
  match find_channel chan_id d with
  | None => []
  | Some x =>
      get_channel_relations (device_channel_protocol_version (device_version d))
        (device_local (props_of d))
        (device_any (props_of d) ((λ d, (device_id d, props_of d)) <$> ds))
        (d_props x) [] kind
  end.

(** [supla_device_channels::get_channel_value] with [for_client]. *)
Definition client_value (x : dchannel) : list Z :=
  if one_of (func_of x) ic_functions
  then match d_extended x with
       | Some e => default zeros (calculated_value e)
       | None => zeros
       end
  else d_value x.

Definition sub_value_type (t func : Z) : Z :=
  if (t =? CHANNEL_RELATION_TYPE_OPENING_SENSOR)
     || (t =? CHANNEL_RELATION_TYPE_PARTIAL_OPENING_SENSOR) then SUBV_TYPE_SENSOR
  else if t =? CHANNEL_RELATION_TYPE_METER then
    if func =? SUPLA_CHANNELFNC_ELECTRICITY_METER then SUBV_TYPE_ELECTRICITY_MEASUREMENTS
    else if one_of func ic_functions then SUBV_TYPE_IC_MEASUREMENTS
    else SUBV_TYPE_NOT_SET_OR_OFFLINE
  else SUBV_TYPE_NOT_SET_OR_OFFLINE.

Definition add_part (now : timeval) (ds : list device) (acc : list Z * Z) (r : relation)
    : list Z * Z :=
  match d ← get_device 0 (rel_id r) ds; find_channel (rel_id r) d with
  | None => acc
  | Some x =>
      if is_online (get_availability_status now x) then
        let t := rel_type r in
        let v := client_value x in
        (if t =? CHANNEL_RELATION_TYPE_OPENING_SENSOR then set_byte 0 (byte_at 0 v) acc.1
         else if t =? CHANNEL_RELATION_TYPE_PARTIAL_OPENING_SENSOR
         then set_byte 1 (byte_at 0 v) acc.1
         else if t =? CHANNEL_RELATION_TYPE_METER then v
         else acc.1,
         sub_value_type t (func_of x))
      else acc
  end.

(** [supla_user::get_channel_value] with [for_client]. *)
Definition get_channel_value (now : timeval) (ds : list device) (dev_id chan_id : Z)
    : option user_value :=
  match get_device dev_id chan_id ds with
  | None => virtual chan_id
  | Some d =>
      x ← find_channel chan_id d;
      let '(sub, t) := foldl (add_part now ds) (zeros, SUBV_TYPE_NOT_SET_OR_OFFLINE)
                         (channel_relations ds d chan_id relation_with_sub_channel) in
      Some (UserValue (ChanValue (client_value x) sub t) (get_availability_status now x)
              (get_value_validity_time_sec now x))
  end.

(** ** Changes *)

(** Who is told: a device, a channel, and whether it is of the extended value. *)
Definition notification : Type := Z * Z * bool.

(** [supla_user::on_channel_value_changed]: the channel, and those that it is a part of. *)
Definition channel_addresses (ds : list device) (dev_id chan_id : Z) : list (Z * Z) :=
  (dev_id, chan_id) ::
  match get_device dev_id 0 ds with
  | None => []
  | Some d =>
      omap (λ r, p ← get_device 0 (rel_parent_id r) ds; Some (device_id p, rel_parent_id r))
        (channel_relations ds d chan_id relation_with_parent_channel)
  end.

Definition notify (ds : list device) (dev_id chan_id : Z) (extended : bool) : list notification :=
  (λ a, (a, extended)) <$> channel_addresses ds dev_id chan_id.

(** [supla_device_channel::on_value_changed]; what a sensor of a gate does to the tasks of the
    gate is in GateOpenClose.v. *)
Definition on_value_changed (ds : list device) (dev_id chan_id : Z) (event : option bool)
    : list notification :=
  match event with
  | None => []
  | Some convertible => notify ds dev_id chan_id false
                        ++ (if convertible : bool then notify ds dev_id chan_id true else [])
  end.

Definition update_channel (dev_id chan_id : Z) (f : dchannel → dchannel) (ds : list device)
    : list device :=
  update_first (is_device dev_id)
    (λ d, Device (device_id d) (device_version d) (update_first (has_id chan_id) f (d_channels d))) ds.

(** The handler of the calls that bring a value: what it does to the channel, given the value, its
    status and, from the calls that have one, its validity. *)
Definition handle (now : timeval) (version : Z) (value : list Z) (offline : Z) (validity : option Z)
    (x : dchannel) : bool * option bool * dchannel :=
  if is_offline (set_proto_offline offline)
  then set_availability_status (set_proto_offline offline) true x
  else set_value now version value validity (Some (set_proto_offline offline)) x.

(** The whole handler: the channel is the one with this number, of the device that calls. *)
Definition device_value_changed (now : timeval) (dev_id number : Z) (value : list Z)
    (offline : Z) (validity : option Z) (ds : list device) : list notification * list device :=
  match d ← get_device dev_id 0 ds; x ← find_channel_by_number number d;
        if channel_id x =? 0 then None else Some (d, x) with
  | None => ([], ds)
  | Some (d, x) =>
      let h := handle now (device_version d) value offline validity in
      let ds' := update_channel dev_id (channel_id x) (λ x, (h x).2) ds in
      (on_value_changed ds' dev_id (channel_id x) (h x).1.2, ds')
  end.

(** [supla_device::~supla_device]: a device is gone, and its clients are told of each of its
    channels. *)
Definition device_gone (dev_id : Z) (ds : list device) : list notification * list device :=
  match get_device dev_id 0 ds with
  | None => ([], ds)
  | Some d =>
      let ds' := erase_first (is_device dev_id) ds in
      (mjoin ((λ x, notify ds' dev_id (channel_id x) false) <$> d_channels d), ds')
  end.

(** ** What a change does not touch *)

(** A change of the channel [cid], as a change of all devices. *)
Definition on_channel (cid : Z) (f : dchannel → dchannel) (x : dchannel) : dchannel :=
  if has_id cid x then f x else x.

Definition on_device (cid : Z) (f : dchannel → dchannel) (d : device) : device :=
  Device (device_id d) (device_version d) (on_channel cid f <$> d_channels d).

(** Devices and channels have identifiers of their own. *)
Definition ids_ok (ds : list device) : Prop :=
  NoDup (device_id <$> ds) ∧ (∀ d, d ∈ ds → device_id d ≠ 0 ∧ NoDup ((λ x, channel_id x) <$> d_channels d)) ∧
  (∀ d x, d ∈ ds → x ∈ d_channels d → channel_id x ≠ 0) ∧
  (∀ d d' x x', d ∈ ds → d' ∈ ds → x ∈ d_channels d → x' ∈ d_channels d' →
     channel_id x = channel_id x' → d = d').

Lemma update_channel_all ds d x f : ids_ok ds → d ∈ ds → x ∈ d_channels d →
  update_channel (device_id d) (channel_id x) f ds = on_device (channel_id x) f <$> ds.
Proof.
  intros (Hd & Hn & _ & Hu) Hin Hx. unfold update_channel.
  rewrite (update_first_unique _ _ _ device_id (device_id d)) by done.
  apply list_fmap_ext. intros i d' Hd'. apply list_elem_of_lookup_2 in Hd'. unfold is_device, on_device.
  destruct (Z.eqb_spec (device_id d') (device_id d)) as [Ed|Ed].
  - f_equal. apply (update_first_unique _ _ _ (λ x, channel_id x) (channel_id x)); [done|].
    by apply Hn.
  - destruct d' as [i' v' l']. cbn. f_equal. transitivity (id <$> l'); [by rewrite list_fmap_id|].
    apply list_fmap_ext. intros j y Hy. unfold on_channel, has_id.
    destruct (Z.eqb_spec (channel_id y) (channel_id x)) as [Ey|Ey]; [|done]. exfalso. apply Ed.
    f_equal. symmetry. apply (Hu d _ x y); try done. by eapply list_elem_of_lookup_2.
Qed.

Lemma find_channel_Some c d x : find_channel c d = Some x →
  channel_id x = c ∧ c ≠ 0 ∧ x ∈ d_channels d.
Proof using Type.
  unfold find_channel. destruct (Z.eqb_spec c 0); [done|].
  intros [Hx%Z.eqb_eq Hin]%find_first_Some. done.
Qed.

Lemma get_device_elem i c ds d : get_device i c ds = Some d → d ∈ ds.
Proof using Type.
  unfold get_device. destruct (negb (i =? 0)); [by intros [_ H]%find_first_Some|].
  destruct (negb (c =? 0)); [by intros [_ H]%find_first_Some|done].
Qed.

(** Relations that add nothing to a value. *)
Definition adds_value (r : relation) : Prop :=
  rel_type r = CHANNEL_RELATION_TYPE_OPENING_SENSOR
  ∨ rel_type r = CHANNEL_RELATION_TYPE_PARTIAL_OPENING_SENSOR
  ∨ rel_type r = CHANNEL_RELATION_TYPE_METER.

Lemma add_part_nothing now ds v r : ¬ adds_value r →
  add_part now ds (v, SUBV_TYPE_NOT_SET_OR_OFFLINE) r = (v, SUBV_TYPE_NOT_SET_OR_OFFLINE).
Proof using Type.
  clear virtual new_ic_extended value_config_of. intros Hr. unfold add_part, sub_value_type, adds_value in *. destruct (_ ≫= _); [|done].
  destruct (is_online _); [|done]. cbn [fst].
  destruct (Z.eqb_spec (rel_type r) CHANNEL_RELATION_TYPE_OPENING_SENSOR); [tauto|].
  destruct (Z.eqb_spec (rel_type r) CHANNEL_RELATION_TYPE_PARTIAL_OPENING_SENSOR); [tauto|].
  destruct (Z.eqb_spec (rel_type r) CHANNEL_RELATION_TYPE_METER); [tauto|]. done.
Qed.

Lemma parts_nothing now ds v rels : Forall (λ r, ¬ adds_value r) rels →
  foldl (add_part now ds) (v, SUBV_TYPE_NOT_SET_OR_OFFLINE) rels = (v, SUBV_TYPE_NOT_SET_OR_OFFLINE).
Proof using Type.
  clear virtual new_ic_extended value_config_of. induction 1 as [|r rels Hr Hrs IH]; cbn [foldl]; [done|]. by rewrite add_part_nothing.
Qed.

Section changed.
Variables (cid : Z) (f : dchannel → dchannel).
Hypothesis same_props : ∀ x, d_props (f x) = d_props x.
Notation tx := (on_channel cid f).
Notation td := (on_device cid f).

Lemma on_channel_props x : d_props (tx x) = d_props x.
Proof using same_props. unfold on_channel. destruct (has_id cid x); [apply same_props|done]. Qed.

Lemma on_channel_other x : channel_id x ≠ cid → tx x = x.
Proof using Type. intros H. unfold on_channel, has_id. by destruct (Z.eqb_spec (channel_id x) cid). Qed.

Lemma find_channel_changed c d : find_channel c (td d) = tx <$> find_channel c d.
Proof using same_props.
  unfold find_channel. destruct (c =? 0); [done|]. cbn [d_channels on_device].
  rewrite find_first_map. f_equal. apply find_first_ext. intros x. unfold has_id.
  by rewrite on_channel_props.
Qed.

Lemma props_of_changed d : props_of (td d) = props_of d.
Proof using same_props.
  unfold props_of. cbn. rewrite <- list_fmap_compose. apply list_fmap_ext.
  intros i x _. apply on_channel_props.
Qed.

Lemma get_device_changed i c ds : get_device i c (td <$> ds) = td <$> get_device i c ds.
Proof using same_props.
  unfold get_device. destruct (negb (i =? 0)); [by rewrite find_first_map|].
  destruct (negb (c =? 0)); [|done]. rewrite find_first_map. f_equal. apply find_first_ext.
  intros d. rewrite find_channel_changed. apply bool_decide_ext. by rewrite fmap_is_Some.
Qed.

Lemma channel_relations_changed ds d c kind :
  channel_relations (td <$> ds) (td d) c kind = channel_relations ds d c kind.
Proof using same_props.
  unfold channel_relations. rewrite find_channel_changed.
  destruct (find_channel c d) as [x|]; cbn [fmap option_fmap option_map]; [|done].
  rewrite on_channel_props, props_of_changed. f_equal. f_equal. rewrite <- list_fmap_compose.
  apply list_fmap_ext. intros i d' _. unfold compose. by rewrite props_of_changed.
Qed.

Lemma add_part_other now ds acc r : rel_id r ≠ cid →
  add_part now (td <$> ds) acc r = add_part now ds acc r.
Proof using same_props.
  intros Hr. unfold add_part. rewrite get_device_changed.
  destruct (get_device 0 (rel_id r) ds) as [d|]; cbn [fmap option_fmap option_map mbind option_bind];
    [|done].
  rewrite find_channel_changed. destruct (find_channel (rel_id r) d) as [x|] eqn:Ef; cbn; [|done].
  apply find_channel_Some in Ef as (Hx & _). rewrite on_channel_other; [done|]. by rewrite Hx.
Qed.

(** Nothing that is seen of a channel has changed. *)
Definition quiet (now : timeval) (x : dchannel) : Prop :=
  client_value (f x) = client_value x
  ∧ get_availability_status now (f x) = get_availability_status now x.

Lemma add_part_quiet now ds acc r :
  (∀ d x, d ∈ ds → x ∈ d_channels d → channel_id x = cid → quiet now x) →
  add_part now (td <$> ds) acc r = add_part now ds acc r.
Proof using same_props.
  intros Hq. destruct (decide (rel_id r = cid)) as [Hr|Hr]; [|by apply add_part_other].
  unfold add_part. rewrite get_device_changed.
  destruct (get_device 0 (rel_id r) ds) as [d|] eqn:Ed;
    cbn [fmap option_fmap option_map mbind option_bind]; [|done].
  rewrite find_channel_changed. destruct (find_channel (rel_id r) d) as [x|] eqn:Ef; cbn; [|done].
  apply find_channel_Some in Ef as (Hx & _ & Hin). apply get_device_elem in Ed.
  destruct (Hq d x) as [Hv Ha]; [done|done|congruence|].
  assert (E1 : tx x = f x) by (unfold on_channel, has_id; rewrite Hx, Hr, Z.eqb_refl; done).
  by rewrite E1, Hv, Ha, same_props.
Qed.

Lemma parts_same now ds acc rels :
  Forall (λ r, rel_id r ≠ cid) rels
  ∨ (∀ d x, d ∈ ds → x ∈ d_channels d → channel_id x = cid → quiet now x) →
  foldl (add_part now (td <$> ds)) acc rels = foldl (add_part now ds) acc rels.
Proof using same_props.
  intros H. revert acc. induction rels as [|r rels IH]; intros acc; cbn [foldl]; [done|].
  destruct H as [H | H].
  - apply Forall_cons in H as [Hr Hrs]. rewrite add_part_other by done. apply IH. by left.
  - rewrite add_part_quiet by done. apply IH. by right.
Qed.

End changed.

(** ** Parts and wholes *)

(** What the database keeps: the sensors of gates and shutters name what they belong to, and what is
    named as a meter is one. *)
Definition linked_pair (p c : props) : Prop :=
  (is_func (p_func p) gate_lock_functions = true → p_param2 p = p_id c ∨ p_param3 p = p_id c →
     is_opening_sensor (p_func c) = true ∧ (p_param1 c = p_id p ∨ p_param2 c = p_id p))
  ∧ (is_func (p_func p) shutter_functions = true → p_param2 p = p_id c →
     is_opening_sensor (p_func c) = true ∧ (p_param1 c = p_id p ∨ p_param2 c = p_id p))
  ∧ (has_meter_config (p_func p) = true → p_meter p = Some (p_id c) → is_meter (p_func c) = true).

Definition linked (ds : list device) : Prop :=
  ∀ d d' x y, d ∈ ds → d' ∈ ds → x ∈ d_channels d → y ∈ d_channels d' →
    linked_pair (d_props y) (d_props x)
    ∧ (is_meter (func_of x) = true → device_id d' ≠ channel_id x).

Lemma device_version_small v : (27 <=? device_channel_protocol_version v) = false
  ∧ (25 <=? device_channel_protocol_version v) = false.
Proof using Type. unfold device_channel_protocol_version. by destruct (v =? 0). Qed.

Lemma elem_of_channel_relations ds d c x kind r :
  find_channel c d = Some x → kind = relation_with_sub_channel ∨ kind = relation_with_parent_channel →
  let v := device_channel_protocol_version (device_version d) in
  let local := device_local (props_of d) in
  let any := device_any (props_of d) ((λ d, (device_id d, props_of d)) <$> ds) in
  r ∈ channel_relations ds d c kind ↔
  r ∈ (if kind =? relation_with_sub_channel then sub_relations v local (d_props x)
       else parent_relations v local any (d_props x)) ∧ real r.
Proof using Type.
  intros Hx Hk v local any. unfold channel_relations. rewrite Hx. fold v local any.
  assert (Hs : ∀ k, by_sensors v local (d_props x) k = []).
  { intros k. unfold by_sensors, v. by rewrite !device_channels_no_sensors. }
  destruct Hk as [-> | ->].
  - by rewrite elem_of_sub, found_sub, Hs.
  - by rewrite elem_of_parent, found_parent, Hs.
Qed.

(** A thermostat of a device finds nothing that adds to its value. *)
Lemma thermostat_adds_nothing version self q r :
  r ∈ thermostat_part (device_channel_protocol_version version) self q → ¬ adds_value r.
Proof using Type.
  clear virtual new_ic_extended value_config_of calculated_value.
  destruct (device_version_small version) as [_ Hv]. unfold thermostat_part. rewrite Hv. cbn [andb].
  rewrite app_nil_r. destruct (p_hvac self) as [h|]; [|by intros ?%elem_of_nil].
  intros H Ha. members H. unfold adds_value in Ha. role H.
  cbv [CHANNEL_RELATION_TYPE_OPENING_SENSOR CHANNEL_RELATION_TYPE_PARTIAL_OPENING_SENSOR
       CHANNEL_RELATION_TYPE_METER] in Ha.
  destruct_or? H; destruct_and? H; subst; cbn in Ha; lia.
Qed.

Lemma parts_kind version local self :
  Forall adds_value (sub_relations (device_channel_protocol_version version) local self)
  ∨ Forall (λ r, ¬ adds_value r) (sub_relations (device_channel_protocol_version version) local self).
Proof using Type.
  clear virtual new_ic_extended value_config_of calculated_value.
  unfold sub_relations, adds_value.
  destruct (is_func _ gate_lock_functions).
  { left. repeat (apply Forall_cons; split); cbn; auto. }
  destruct (is_func _ shutter_functions).
  { left. repeat (apply Forall_cons; split); cbn; auto. }
  destruct (has_meter_config _).
  { left. destruct (p_meter self); repeat (apply Forall_cons; split); cbn; auto. }
  right. destruct (is_thermostat _); [|constructor].
  apply Forall_forall. intros r (q & _ & Hr)%elem_of_for_each_all.
  by apply thermostat_adds_nothing in Hr.
Qed.

(** A part that adds to a value finds what it belongs to. *)
Lemma part_finds_whole version version' local local' any p c r :
  linked_pair p c → (is_meter (p_func c) = true → p ∈ any c) →
  r ∈ sub_relations (device_channel_protocol_version version) local p → adds_value r →
  rel_id r = p_id c →
  ∃ t, Relation (p_id c) (p_id p) t ∈ parent_relations version' local' any c.
Proof using Type.
  clear virtual new_ic_extended value_config_of calculated_value.
  intros (Hg & Hs & Hm) Hany Hr Ha Hi. unfold parent_relations.
  assert (Hsens : is_opening_sensor (p_func c) = true ∧ (p_param1 c = p_id p ∨ p_param2 c = p_id p) →
    ∃ t, Relation (p_id c) (p_id p) t ∈ (if is_opening_sensor (p_func c)
      then [Relation (p_id c) (p_param1 c) CHANNEL_RELATION_TYPE_OPENING_SENSOR;
            Relation (p_id c) (p_param2 c) CHANNEL_RELATION_TYPE_PARTIAL_OPENING_SENSOR] else [])).
  { intros [-> [<- | <-]]; eexists; [apply list_elem_of_here|apply list_elem_of_further, list_elem_of_here]. }
  unfold sub_relations in Hr. destruct (is_func (p_func p) gate_lock_functions).
  { destruct Hsens as [t Ht].
    - apply Hg; [done|]. apply elem_of_cons in Hr as [-> | ->%list_elem_of_singleton]; cbn in Hi; auto.
    - exists t. apply elem_of_app. left. destruct (is_opening_sensor _); [done|by apply elem_of_nil in Ht]. }
  destruct (is_func (p_func p) shutter_functions).
  { destruct Hsens as [t Ht].
    - apply Hs; [done|]. apply list_elem_of_singleton in Hr as ->. done.
    - exists t. apply elem_of_app. left. destruct (is_opening_sensor _); [done|by apply elem_of_nil in Ht]. }
  destruct (has_meter_config (p_func p)) eqn:Em.
  { destruct (p_meter p) as [m|] eqn:Ep; [|by apply elem_of_nil in Hr].
    apply list_elem_of_singleton in Hr as ->. cbn in Hi. subst m.
    specialize (Hm eq_refl eq_refl). exists CHANNEL_RELATION_TYPE_METER. apply elem_of_app. left.
    rewrite (meter_no_sensor _ Hm), elem_of_if, elem_of_for_each_all. split; [done|].
    exists p. split; [by apply Hany|]. by rewrite Em, Ep, Z.eqb_refl, list_elem_of_singleton. }
  exfalso. apply elem_of_if in Hr as [_ (q & _ & Hr)%elem_of_for_each_all].
  by apply thermostat_adds_nothing in Hr.
Qed.

(** ** Who is told *)

Lemma find_first_key {A} (key : A → Z) (p : A → bool) (l : list A) (x : A) :
  (∀ y, p y = (key y =? key x)) → NoDup (key <$> l) → x ∈ l → find_first p l = Some x.
Proof using Type.
  clear virtual new_ic_extended value_config_of calculated_value.
  intros Hp. induction l as [|y l IH]; [by intros _ ?%elem_of_nil|].
  cbn. intros [Hy Hl]%NoDup_cons Hx. destruct (p y) eqn:Ey.
  - rewrite Hp in Ey. apply Z.eqb_eq in Ey. apply elem_of_cons in Hx as [-> | Hx]; [done|].
    exfalso. apply Hy. rewrite Ey. by apply list_elem_of_fmap_2.
  - apply elem_of_cons in Hx as [-> | Hx]; [|by apply IH].
    by rewrite Hp, Z.eqb_refl in Ey.
Qed.

Section told.
Variable ds : list device.
Hypothesis Hids : ids_ok ds.
Hypothesis Hlinked : linked ds.

Lemma find_channel_in d x : d ∈ ds → x ∈ d_channels d → find_channel (channel_id x) d = Some x.
Proof using Hids.
  destruct Hids as (_ & Hn & Hz & _). intros Hd Hx. unfold find_channel.
  destruct (Z.eqb_spec (channel_id x) 0) as [E0|_]; [by destruct (Hz d x)|].
  apply (find_first_key (λ x, channel_id x)); [done| |done]. by apply Hn.
Qed.

Lemma get_device_in d c : d ∈ ds → get_device (device_id d) c ds = Some d.
Proof using Hids.
  destruct Hids as (Hd & Hn & _). intros Hin. unfold get_device.
  destruct (Z.eqb_spec (device_id d) 0) as [E0|_]; [by destruct (Hn d)|]. cbn [negb].
  by apply (find_first_key device_id).
Qed.

Lemma get_device_of d x : d ∈ ds → x ∈ d_channels d → get_device 0 (channel_id x) ds = Some d.
Proof using Hids.
  intros Hd Hx. unfold get_device. cbn [Z.eqb negb].
  destruct (Z.eqb_spec (channel_id x) 0) as [E0|_]; [by destruct Hids as (_ & _ & Hz & _); destruct (Hz d x)|].
  cbn [negb].
  destruct (find_first _ ds) as [d'|] eqn:Ef.
  - apply find_first_Some in Ef as [Hf Hd']. apply bool_decide_eq_true in Hf as [y Hy].
    apply find_channel_Some in Hy as (Hy & _ & Hy').
    f_equal. destruct Hids as (_ & _ & _ & Hu). by apply (Hu d' d y x).
  - exfalso. assert (Hnone : ∀ d', d' ∈ ds → bool_decide (is_Some (find_channel (channel_id x) d')) = false).
    { intros d' Hd'. by apply (proj1 (find_first_None _ _) Ef). }
    specialize (Hnone d Hd). rewrite find_channel_in in Hnone by done.
    by rewrite bool_decide_eq_true_2 in Hnone.
Qed.

(** The wholes of a channel that changes are told. *)
Lemma whole_told D x d y r : D ∈ ds → x ∈ d_channels D → d ∈ ds → y ∈ d_channels d →
  r ∈ channel_relations ds d (channel_id y) relation_with_sub_channel → rel_id r = channel_id x →
  adds_value r →
  (device_id d, channel_id y) ∈ channel_addresses ds (device_id D) (channel_id x).
Proof using Hids Hlinked.
  intros HD Hx Hd Hy Hr Hi Ha. destruct (Hlinked D d x y HD Hd Hx Hy) as [Hl Hne].
  apply (elem_of_channel_relations ds d _ y) in Hr as [Hr _]; [|by apply find_channel_in|by left].
  cbn [Z.eqb relation_with_sub_channel] in Hr.
  edestruct (part_finds_whole (device_version d) (device_channel_protocol_version (device_version D))
    (device_local (props_of d)) (device_local (props_of D))
    (device_any (props_of D) ((λ d, (device_id d, props_of d)) <$> ds)) (d_props y) (d_props x) r Hl)
    as [t Ht]; [|exact Hr|exact Ha|exact Hi|].
  - intros Hm. unfold device_any. apply elem_of_app. right.
    apply list_elem_of_join. exists (props_of d). split; [by apply list_elem_of_fmap_2|].
    apply list_elem_of_fmap. exists (device_id d, props_of d). split; [done|].
    apply list_elem_of_filter. split; [by apply Hne|].
    apply (list_elem_of_fmap_2 (λ d, (device_id d, props_of d))). done.
  - unfold channel_addresses. rewrite get_device_in by done. apply list_elem_of_further.
    apply list_elem_of_omap. exists (Relation (channel_id x) (channel_id y) t). split.
    + apply (elem_of_channel_relations ds D _ x); [by apply find_channel_in|by right|].
      split; [exact Ht|]. destruct Hids as (_ & _ & Hz & _). split; cbn; eauto.
    + cbn [rel_parent_id]. by rewrite (get_device_of d y).
Qed.

Lemma same_channel D x d x' : D ∈ ds → x ∈ d_channels D → d ∈ ds → x' ∈ d_channels d →
  channel_id x' = channel_id x → d = D ∧ x' = x.
Proof using Hids.
  intros HD Hx Hd Hx' Ei. destruct Hids as (_ & _ & _ & Hu).
  assert (d = D) as -> by (by apply (Hu d D x' x)). split; [done|].
  pose proof (find_channel_in D x HD Hx) as E1. pose proof (find_channel_in D x' HD Hx') as E2.
  rewrite Ei in E2. congruence.
Qed.

(** Nothing is seen to change but by those that are told: what a client sees of a channel is its
    value, with what its parts add, and its status. *)
Definition seen (u : user_value) : chan_value * Z := (uv_value u, uv_status u).

Section change.
Variables (now : timeval) (D : device) (x : dchannel) (f : dchannel → dchannel)
  (event : option bool).
Hypothesis HD : D ∈ ds.
Hypothesis Hx : x ∈ d_channels D.
Hypothesis Hf : ∀ x, d_props (f x) = d_props x.
Hypothesis Hq : event = None → quiet f now x.
Notation ds' := (on_device (channel_id x) f <$> ds).

(** Whoever is not told. *)
Definition not_told (dev c : Z) : Prop :=
  event ≠ None → (dev, c) ∉ channel_addresses ds (device_id D) (channel_id x).

Lemma parts_not_told d y acc : d ∈ ds → y ∈ d_channels d → not_told (device_id d) (channel_id y) →
  acc.2 = SUBV_TYPE_NOT_SET_OR_OFFLINE →
  foldl (add_part now ds') acc (channel_relations ds d (channel_id y) relation_with_sub_channel)
  = foldl (add_part now ds) acc (channel_relations ds d (channel_id y) relation_with_sub_channel).
Proof using Hids Hlinked HD Hx Hf Hq.
  intros Hd Hy Hn Hacc. set (rels := channel_relations _ _ _ _).
  destruct (decide (event = None)) as [He|He].
  { apply (parts_same _ _ Hf). right. intros d' x' Hd' Hx' Ei.
    destruct (same_channel D x d' x' HD Hx Hd' Hx' Ei) as [_ ->]. by apply Hq. }
  assert (Hfind := find_channel_in d y Hd Hy).
  destruct (parts_kind (device_version d) (device_local (props_of d)) (d_props y)) as [Hk|Hk];
    rewrite Forall_forall in Hk.
  - apply (parts_same _ _ Hf). left. apply Forall_forall. intros r Hr Ei.
    apply (Hn He). apply (whole_told D x d y r); try done.
    apply Hk. by apply (elem_of_channel_relations ds d _ y) in Hr as [Hr _]; [|done|left].
  - destruct acc as [v t]. cbn in Hacc. subst t.
    assert (Hnone : Forall (λ r, ¬ adds_value r) rels).
    { apply Forall_forall. intros r Hr. apply Hk.
      by apply (elem_of_channel_relations ds d _ y) in Hr as [Hr _]; [|done|left]. }
    by rewrite !parts_nothing.
Qed.

Lemma channel_not_told d y : d ∈ ds → y ∈ d_channels d → not_told (device_id d) (channel_id y) →
  client_value (on_channel (channel_id x) f y) = client_value y
  ∧ get_availability_status now (on_channel (channel_id x) f y) = get_availability_status now y.
Proof using Hids HD Hx Hq.
  intros Hd Hy Hn. unfold on_channel, has_id.
  destruct (Z.eqb_spec (channel_id y) (channel_id x)) as [Ei|]; [|done].
  destruct (same_channel D x d y HD Hx Hd Hy Ei) as [-> ->].
  destruct (decide (event = None)) as [He|He]; [by apply Hq|].
  exfalso. apply (Hn He). apply list_elem_of_here.
Qed.

Lemma change_told dev c : dev ≠ 0 → not_told dev c →
  seen <$> get_channel_value now ds' dev c = seen <$> get_channel_value now ds dev c.
Proof using Hids Hlinked HD Hx Hf Hq.
  intros Hdev Hn. unfold get_channel_value.
  rewrite (get_device_changed _ _ Hf). destruct (get_device dev c ds) as [d|] eqn:Ed; [|done].
  cbn [fmap option_fmap option_map].
  assert (Hd : d ∈ ds ∧ device_id d = dev).
  { split; [by eapply get_device_elem|]. unfold get_device in Ed.
    destruct (Z.eqb_spec dev 0); [done|]. by apply find_first_Some in Ed as [?%Z.eqb_eq _]. }
  destruct Hd as [Hd <-]. rewrite (find_channel_changed _ _ Hf).
  destruct (find_channel c d) as [y|] eqn:Ey; [|done].
  cbn [fmap option_fmap option_map mbind option_bind].
  rewrite (channel_relations_changed _ _ Hf).
  apply find_channel_Some in Ey as (<- & _ & Hy).
  rewrite parts_not_told by done. destruct (foldl _ _ _) as [sub t].
  destruct (channel_not_told d y Hd Hy Hn) as [E1 E2]. cbn. unfold seen. cbn. by rewrite E1, E2.
Qed.
End change.
End told.

(** ** What is not told has not changed *)

Lemma availability_plain now x : 0 < usec_of now → 0 <= usec_of (d_valid_to x) →
  get_availability_status now x = d_status x.
Proof using Type.
  clear virtual new_ic_extended value_config_of calculated_value.
  intros Hn Hv. unfold get_availability_status.
  replace (0 <? Z.b2z (usec_of now =? 0) - usec_of (d_valid_to x)) with false
    by (destruct (Z.eqb_spec (usec_of now) 0); cbn; lia).
  by rewrite andb_false_r.
Qed.

Lemma ic_class f : one_of f ic_functions = true → new_value f = IcValue.
Proof using Type.
  clear. intros Hf. apply existsb_exists in Hf as (g & Hg & ->%Z.eqb_eq).
  apply list_elem_of_In in Hg. unfold ic_functions in Hg.
  repeat (apply elem_of_cons in Hg as [-> | Hg]; [done|]). by apply elem_of_nil in Hg.
Qed.

(** A counter shows the extended value that was made of its value; values are eight bytes, and
    times are not before 1970. *)
Definition channel_ok (x : dchannel) : Prop :=
  0 <= usec_of (d_valid_to x)
  ∧ (one_of (func_of x) ic_functions = true →
     d_extended x = Some (new_ic_extended (func_of x) (u64_at 0 (d_value x)) (d_json x)))
  ∧ (∀ minus n, initial_impulses (value_config_of (d_json x)) = Some (minus, n) → 0 <= n).

Lemma counter_shown x value : is_value value →
  (∀ minus n, initial_impulses (value_config_of (d_json x)) = Some (minus, n) → 0 <= n) →
  one_of (func_of x) ic_functions = true → ∀ version,
  convert2extended value x
  = Some (new_ic_extended (func_of x) (u64_at 0 (received_value version value x)) (d_json x)).
Proof using Type.
  clear virtual calculated_value. intros Hv Hn Hf version. unfold convert2extended, received_value.
  rewrite (ic_class _ Hf). cbn [apply_channel_properties]. unfold ic_apply.
  destruct Hv as [Hl Hb]. unfold value_size in Hl. rewrite u64_at_set by lia. do 2 f_equal.
  rewrite ic_saturates by (done || (apply u64_at_range; done)). unfold saturate. rewrite u64_id by lia. done.
Qed.

Lemma set_value_ok now version value validity st x : 0 < usec_of now → is_value value →
  match validity with Some sec => 0 <= sec | None => True end → channel_ok x →
  channel_ok (set_value now version value validity st x).2.
Proof using Type.
  clear virtual calculated_value. intros Hnow Hv Hs (Ht & Hi & Hn). unfold set_value.
  destruct (_ && is_offline (d_status x)); [done|]. destruct (_ && (0 <? _)); [done|].
  destruct (match st with Some _ => _ | None => _ end) as [[changed ev] x'].
  split; [|split]; cbn [d_valid_to d_props d_json d_value d_extended snd].
  - destruct validity; unfold usec_of in *; cbn; lia.
  - intros Hf. rewrite (counter_shown x value Hv Hn Hf version). done.
  - exact Hn.
Qed.

Lemma set_value_quiet now version value validity st x : 0 < usec_of now → is_value value →
  match validity with Some sec => 0 <= sec | None => True end → channel_ok x →
  (set_value now version value validity st x).1.2 = None →
  client_value (set_value now version value validity st x).2 = client_value x
  ∧ d_status (set_value now version value validity st x).2 = d_status x.
Proof using Type.
  clear virtual. intros Hnow Hv Hs (Ht & Hi & Hn). unfold set_value.
  destruct (_ && is_offline (d_status x)); [done|]. destruct (_ && (0 <? _)); [done|].
  destruct (match st with Some _ => _ | None => _ end) as [[changed ev] x'] eqn:Est.
  cbn [fst snd]. destruct (is_differ _ _ || changed) eqn:Ed; [done|]. intros _.
  apply orb_false_iff in Ed as [Ed ->].
  unfold is_differ in Ed. apply negb_false_iff, bool_decide_eq_true in Ed.
  split.
  - unfold client_value. cbn [d_props d_value d_extended].
    destruct (one_of (func_of x) ic_functions) eqn:Hf; [|done].
    rewrite (counter_shown x value Hv Hn Hf version), Ed, Hi by done. done.
  - cbn [d_status]. destruct st as [st|]; [|by simplify_eq].
    unfold set_availability_status in Est. destruct (_ =? _); by simplify_eq.
Qed.

(** ** The handler *)

Lemma elem_of_changed cid f (ds : list device) d x' : (∀ x, d_props (f x) = d_props x) →
  d ∈ on_device cid f <$> ds → x' ∈ d_channels d →
  ∃ d0 x0, d0 ∈ ds ∧ x0 ∈ d_channels d0 ∧ d = on_device cid f d0 ∧ x' = on_channel cid f x0.
Proof using Type.
  clear virtual new_ic_extended value_config_of calculated_value.
  intros Hf (d0 & -> & Hd0)%list_elem_of_fmap (x0 & -> & Hx0)%list_elem_of_fmap. by exists d0, x0.
Qed.

Lemma ids_ok_changed cid f ds : (∀ x, d_props (f x) = d_props x) →
  ids_ok ds → ids_ok (on_device cid f <$> ds).
Proof using Type.
  clear virtual new_ic_extended value_config_of calculated_value.
  intros Hf (Hd & Hn & Hz & Hu).
  assert (Hids : ∀ d, (λ x, channel_id x) <$> d_channels (on_device cid f d)
                      = (λ x, channel_id x) <$> d_channels d).
  { intros d. cbn. rewrite <- list_fmap_compose. apply list_fmap_ext. intros i x _. unfold compose.
    by rewrite (on_channel_props _ _ Hf). }
  split; [|split; [|split]].
  - rewrite <- list_fmap_compose. exact Hd.
  - intros d (d0 & -> & Hd0)%list_elem_of_fmap. rewrite Hids. exact (Hn d0 Hd0).
  - intros d x' Hd' Hx'. destruct (elem_of_changed _ _ _ _ _ Hf Hd' Hx') as (d0 & x0 & ? & ? & -> & ->).
    rewrite (on_channel_props _ _ Hf). eauto.
  - intros d d' x x' H1 H2 H3 H4 Ei.
    destruct (elem_of_changed _ _ _ _ _ Hf H1 H3) as (d0 & x0 & ? & ? & -> & ->).
    destruct (elem_of_changed _ _ _ _ _ Hf H2 H4) as (d1 & x1 & ? & ? & -> & ->).
    rewrite !(on_channel_props _ _ Hf) in Ei. f_equal. eauto.
Qed.

Lemma linked_changed cid f ds : (∀ x, d_props (f x) = d_props x) →
  linked ds → linked (on_device cid f <$> ds).
Proof using Type.
  clear virtual new_ic_extended value_config_of calculated_value.
  intros Hf Hl d d' x y H1 H2 H3 H4.
  destruct (elem_of_changed _ _ _ _ _ Hf H1 H3) as (d0 & x0 & ? & ? & -> & ->).
  destruct (elem_of_changed _ _ _ _ _ Hf H2 H4) as (d1 & x1 & ? & ? & -> & ->).
  rewrite !(on_channel_props _ _ Hf). by apply (Hl d0 d1).
Qed.

Lemma channel_addresses_changed cid f ds dev c : (∀ x, d_props (f x) = d_props x) →
  channel_addresses (on_device cid f <$> ds) dev c = channel_addresses ds dev c.
Proof using Type.
  clear virtual new_ic_extended value_config_of calculated_value.
  intros Hf. unfold channel_addresses. f_equal. rewrite (get_device_changed _ _ Hf).
  destruct (get_device dev 0 ds) as [d|]; [|done]. cbn [fmap option_fmap option_map].
  rewrite (channel_relations_changed _ _ Hf). apply list_omap_ext.
  apply Forall_Forall2_diag, Forall_forall. intros r _. rewrite (get_device_changed _ _ Hf).
  by destruct (get_device 0 (rel_parent_id r) ds).
Qed.

(** What is assumed of the devices of a user, and what a call may bring. *)
Definition devices_ok (ds : list device) : Prop :=
  ids_ok ds ∧ linked ds ∧ ∀ d x, d ∈ ds → x ∈ d_channels d → channel_ok x.

Definition call_ok (now : timeval) (value : list Z) (validity : option Z) : Prop :=
  0 < usec_of now ∧ is_value value ∧ match validity with Some sec => 0 <= sec | None => True end.

Lemma handle_props now version value offline validity x :
  d_props (handle now version value offline validity x).2 = d_props x.
Proof using Type.
  clear virtual calculated_value. unfold handle, set_value, set_availability_status.
  repeat case_match; simplify_eq; done.
Qed.

Lemma handle_quiet now version value offline validity x : call_ok now value validity →
  channel_ok x →
  channel_ok (handle now version value offline validity x).2
  ∧ ((handle now version value offline validity x).1.2 = None →
     quiet (λ x, (handle now version value offline validity x).2) now x).
Proof using Type.
  clear virtual. intros (Hnow & Hv & Hs) Hx. unfold quiet, handle.
  destruct (is_offline _).
  - unfold set_availability_status. destruct (_ =? _); [done|]. split; [|done]. exact Hx.
  - pose proof (set_value_ok now version value validity (Some (set_proto_offline offline)) x
                  Hnow Hv Hs Hx) as Hok.
    split; [exact Hok|]. intros He.
    destruct (set_value_quiet now version value validity _ x Hnow Hv Hs Hx He) as [E1 E2].
    split; [exact E1|]. rewrite (availability_plain now x Hnow) by apply Hx.
    rewrite (availability_plain now _ Hnow) by apply Hok. exact E2.
Qed.

(** A call that reaches a channel is a change of it. *)
Lemma handler_step now dev number value offline validity ds : ids_ok ds →
  device_value_changed now dev number value offline validity ds = ([], ds)
  ∨ ∃ D x, D ∈ ds ∧ x ∈ d_channels D ∧ device_id D = dev ∧
      let h := handle now (device_version D) value offline validity in
      let ds' := on_device (channel_id x) (λ x, (h x).2) <$> ds in
      device_value_changed now dev number value offline validity ds
      = (on_value_changed ds' dev (channel_id x) (h x).1.2, ds').
Proof using Type.
  clear virtual calculated_value. intros Hids. unfold device_value_changed.
  destruct (get_device dev 0 ds) as [D|] eqn:ED; [|by left].
  cbn [mbind option_bind]. destruct (find_channel_by_number number D) as [x|] eqn:Ex; [|by left].
  cbn [mbind option_bind]. destruct (channel_id x =? 0); [by left|].
  assert (HD : D ∈ ds ∧ device_id D = dev).
  { split; [by eapply get_device_elem|]. unfold get_device in ED.
    destruct (negb (dev =? 0)); [|done]. by apply find_first_Some in ED as [?%Z.eqb_eq _]. }
  destruct HD as [HD <-]. apply find_first_Some in Ex as [_ Hx].
  right. exists D, x. split_and!; [done..|].
  by rewrite (update_channel_all ds D x _ Hids HD Hx).
Qed.

Lemma told_of ds dev c event d c' :
  (d, c', false) ∉ on_value_changed ds dev c event → event ≠ None →
  (d, c') ∉ channel_addresses ds dev c.
Proof using Type.
  clear virtual new_ic_extended value_config_of calculated_value.
  intros Hn He Hin. apply Hn. destruct event as [conv|]; [|done].
  unfold on_value_changed, notify. apply elem_of_app. left.
  apply list_elem_of_fmap. by exists (d, c').
Qed.

Lemma devices_ok_handled now version value offline validity ds x : call_ok now value validity →
  devices_ok ds →
  devices_ok (on_device (channel_id x) (λ x, (handle now version value offline validity x).2) <$> ds).
Proof using calculated_value.
  clear virtual. intros Hc (Hi & Hl & Hok).
  assert (Hf := handle_props now version value offline validity).
  split; [by apply ids_ok_changed|]. split; [by apply linked_changed|].
  intros d y Hd Hy. destruct (elem_of_changed _ _ _ _ _ Hf Hd Hy) as (d0 & y0 & H1 & H2 & -> & ->).
  unfold on_channel. destruct (has_id _ y0); [|by eapply Hok].
  apply handle_quiet; [done|by eapply Hok].
Qed.

Lemma handled_seen now dev number value offline validity ds : devices_ok ds →
  call_ok now value validity →
  let '(notifications, ds') := device_value_changed now dev number value offline validity ds in
  devices_ok ds'
  ∧ ∀ d c, d ≠ 0 → (d, c, false) ∉ notifications →
    seen <$> get_channel_value now ds' d c = seen <$> get_channel_value now ds d c.
Proof using Type.
  intros Hok Hc. assert (Hok' := Hok). destruct Hok' as (Hi & Hl & Hx).
  destruct (handler_step now dev number value offline validity ds Hi)
    as [-> | (D & x & HD & HxD & <- & ->)]; [done|]. cbn zeta.
  split; [by apply devices_ok_handled|]. intros d c Hd Hn.
  set (h := handle now (device_version D) value offline validity) in *.
  apply (change_told ds Hi Hl now D x (λ x, (h x).2) (h x).1.2 HD HxD); [| |done|].
  - intros y. apply handle_props.
  - intros He. apply handle_quiet; [done|by eapply Hx|done].
  - unfold not_told. intros He. pose proof (told_of _ _ _ _ _ _ Hn He) as Ht.
    rewrite channel_addresses_changed in Ht; [done|]. intros y. apply handle_props.
Qed.


(** ** The clients *)

(** What a client does with what it is told ([supla_user_clients::on_channel_value_changed]). *)
Definition client_told (protocol_version : Z) (l : list notification) (arr : list (item channel)) : list (item channel) :=
  foldl (λ arr (n : notification), (on_channel_value_changed protocol_version n.1.1 n.1.2 n.2 arr).2) arr l.

(** The answers of the devices, after the notifications have been worked off one by one. *)
Definition told_answers (l : list notification) (new answers : Z → Z → option user_value)
    : Z → Z → option user_value :=
  foldl (λ a (n : notification), if n.2 then a else set_answer n.1.1 n.1.2 (new n.1.1 n.1.2) a)
    answers l.

Lemma told_answers_in l new answers d c :
  told_answers l new answers d c = if bool_decide ((d, c, false) ∈ l) then new d c else answers d c.
Proof using Type.
  clear. unfold told_answers. revert answers.
  induction l as [|[[d' c'] e] l IH]; intros answers; cbn [foldl fst snd]; [done|]. rewrite IH.
  destruct (bool_decide ((d, c, false) ∈ l)) eqn:El.
  - apply bool_decide_eq_true in El. rewrite bool_decide_eq_true_2; [done|by right].
  - apply bool_decide_eq_false in El.
    assert (Hiff : (d, c, false) ∈ (d', c', e) :: l ↔ (d = d' ∧ c = c') ∧ e = false).
    { rewrite elem_of_cons. naive_solver. }
    destruct e; [rewrite bool_decide_eq_false_2; naive_solver|]. unfold set_answer.
    destruct (Z.eqb_spec d d') as [-> |]; [destruct (Z.eqb_spec c c') as [-> |]|]; cbn [andb].
    + rewrite bool_decide_eq_true_2; naive_solver.
    + rewrite bool_decide_eq_false_2; naive_solver.
    + rewrite bool_decide_eq_false_2; naive_solver.
Qed.

Lemma clients_follow pv l new answers arr k :
  rtc (step pv) (World answers arr k) (World (told_answers l new answers) (client_told pv l arr) k).
Proof using Type.
  clear. revert answers arr. induction l as [|[[d c] e] l IH]; intros answers arr; cbn; [done|].
  eapply rtc_l; [|apply IH].
  destruct e; cbn; [apply step_extended|apply step_value].
Qed.

(** No value is valid for a time only: no device sleeps. *)
Definition never_sleeps (ds : list device) : Prop :=
  ∀ d x, d ∈ ds → x ∈ d_channels d → d_valid_to x = timeval_zero.

Lemma never_sleeps_changed now version value offline ds x : never_sleeps ds →
  never_sleeps (on_device (channel_id x) (λ x, (handle now version value offline None x).2) <$> ds).
Proof using Type.
  clear virtual calculated_value. intros Hs d y Hd Hy.
  destruct (elem_of_changed _ _ _ _ _ (handle_props now version value offline None) Hd Hy)
    as (d0 & y0 & H1 & H2 & -> & ->). specialize (Hs d0 y0 H1 H2).
  unfold on_channel, handle, set_value, set_availability_status.
  repeat case_match; simplify_eq; done.
Qed.

Lemma no_validity now ds d c : never_sleeps ds →
  get_channel_value now ds d c
  = match get_device d c ds with
    | None => virtual c
    | Some _ => (λ s, UserValue s.1 s.2 0) <$> (seen <$> get_channel_value now ds d c)
    end.
Proof using Type.
  intros Hs. unfold get_channel_value. destruct (get_device d c ds) as [D|] eqn:ED; [|done].
  destruct (find_channel c D) as [x|] eqn:Ex; [|done]. cbn [mbind option_bind].
  destruct (foldl _ _ _) as [sub t]. cbn. do 2 f_equal.
  apply find_channel_Some in Ex as (_ & _ & Hx). apply get_device_elem in ED.
  unfold get_value_validity_time_sec. by rewrite (Hs D x ED Hx).
Qed.

Lemma validity_unchanged now ds ds' d c : never_sleeps ds → never_sleeps ds' →
  (get_device d c ds' = None ↔ get_device d c ds = None) →
  seen <$> get_channel_value now ds' d c = seen <$> get_channel_value now ds d c →
  get_channel_value now ds' d c = get_channel_value now ds d c.
Proof using Type.
  clear value_config_of new_ic_extended. intros H1 H2 Hi Hs.
  rewrite (no_validity now ds' d c H2), (no_validity now ds d c H1), Hs.
  destruct (get_device d c ds'), (get_device d c ds); try done; naive_solver.
Qed.


End user.

(** ** A gate and the sensor of another device *)

Definition plain_config (_ : unit) : value_config :=
  ValueConfig None None 0 (λ v, v) (λ v, v).

Definition no_extended (_ _ : Z) (_ : unit) : unit := ().

Definition example_gate : dchannel (E:=unit) (J:=unit) :=
  DChannel (Props 10 0 1 0 SUPLA_CHANNELFNC_CONTROLLINGTHEGATE 500 20 0 None None None None) 0 ()
    zeros SUPLA_CHANNEL_OFFLINE_FLAG_ONLINE timeval_zero None.

Definition example_sensor : dchannel (E:=unit) (J:=unit) :=
  DChannel (Props 20 0 2 0 SUPLA_CHANNELFNC_OPENINGSENSOR_GATE 10 0 0 None None None None) 0 ()
    (set_byte 0 1 zeros) SUPLA_CHANNEL_OFFLINE_FLAG_ONLINE timeval_zero None.

Definition example_devices : list (device (E:=unit) (J:=unit)) :=
  [Device 1 20 [example_gate]; Device 2 20 [example_sensor]].

Lemma example_devices_ok : devices_ok plain_config no_extended example_devices ∧
  never_sleeps example_devices.
Proof.
  unfold devices_ok, ids_ok, linked, never_sleeps, example_devices.
  assert (Hd : ∀ d, d ∈ example_devices → d = Device 1 20 [example_gate] ∨ d = Device 2 20 [example_sensor]).
  { intros d [-> | [-> | []%elem_of_nil]%elem_of_cons]%elem_of_cons; auto. }
  assert (Hx : ∀ d x, d ∈ example_devices → x ∈ d_channels d →
    (d = Device 1 20 [example_gate] ∧ x = example_gate)
    ∨ (d = Device 2 20 [example_sensor] ∧ x = example_sensor)).
  { intros d x [-> | ->]%Hd ->%list_elem_of_singleton; auto. }
  split; [split; [split_and!|split]|].
  - by apply (bool_decide_unpack _); vm_compute.
  - intros d [-> | ->]%Hd; (split; [done|by apply (bool_decide_unpack _); vm_compute]).
  - by intros d x Hd1 [[-> ->] | [-> ->]]%(Hx _ _ Hd1).
  - intros d d' x y H1 H2 [[-> ->] | [-> ->]]%(Hx _ _ H1) [[-> ->] | [-> ->]]%(Hx _ _ H2); done.
  - intros d d' x y H1 H2 [[-> ->] | [-> ->]]%(Hx _ _ H1) [[-> ->] | [-> ->]]%(Hx _ _ H2);
      (split; [unfold linked_pair; cbn; split_and!; try done; intros; auto; lia|done]).
  - intros d x H1 [[-> ->] | [-> ->]]%(Hx _ _ H1); by split_and!.
  - by intros d x H1 [[-> ->] | [-> ->]]%(Hx _ _ H1).
Qed.

Definition example_now : timeval := Timeval 1700000000 5.

(** The sensor of device 2 opens, and the client is told of both channels. *)
Lemma example_call :
  call_ok example_now zeros None ∧
  (device_value_changed plain_config no_extended example_now 2 0 zeros 0 None example_devices).1
  = [(2, 20, false); (1, 10, false)].
Proof. split; [split_and!; [done|split; [done|by repeat constructor]|done]|by vm_compute]. Qed.



(** When the device of the sensor is gone, what is seen of the gate changes, and the clients are
    told of the sensor only: its device is gone when the wholes are looked for. *)
Lemma device_gone_unseen :
  let '(notifications, ds') := device_gone 2 example_devices in
  notifications = [(2, 20, false)] ∧
  seen <$> get_channel_value (λ _, None) (λ _, None) example_now ds' 1 10
  ≠ seen <$> get_channel_value (λ _, None) (λ _, None) example_now example_devices 1 10.
Proof. vm_compute. split; [done|]. discriminate. Qed.

(** A meter whose number is that of another device: the channels of this device are left out when
    the wholes of the meter are looked for, so that a switch there shows another value, and no
    client is told. *)
Definition example_meter (id : Z) : dchannel (E:=unit) (J:=unit) :=
  DChannel (Props id 0 1 0 SUPLA_CHANNELFNC_ELECTRICITY_METER 0 0 0 None None None None) 0 ()
    zeros SUPLA_CHANNEL_OFFLINE_FLAG_ONLINE timeval_zero None.

Definition example_switch (meter : Z) : dchannel (E:=unit) (J:=unit) :=
  DChannel (Props 30 0 2 0 SUPLA_CHANNELFNC_POWERSWITCH 0 0 0 (Some meter) None None None) 0 ()
    zeros SUPLA_CHANNEL_OFFLINE_FLAG_ONLINE timeval_zero None.

Definition metered (meter : Z) : list (device (E:=unit) (J:=unit)) :=
  [Device 1 20 [example_meter meter]; Device 2 20 [example_switch meter]].

Definition meter_changed (meter : Z) : list notification * list (device (E:=unit) (J:=unit)) :=
  device_value_changed plain_config no_extended example_now 1 0 (set_byte 0 1 zeros) 0 None
    (metered meter).

Lemma meter_number_unseen :
  let seen_of ds := seen <$> get_channel_value (λ _, None) (λ _, None) example_now ds 2 30 in
  (meter_changed 5).1 = [(1, 5, false); (2, 30, false)]
  ∧ (meter_changed 2).1 = [(1, 2, false)]
  ∧ seen_of (meter_changed 2).2 ≠ seen_of (metered 2).
Proof. vm_compute. split_and!; [done|done|discriminate]. Qed.
