(* ===== verification/DeviceRequests.v ===== *)
(** * DeviceRequests: what the server asks of devices

    The operations of device/devicechannels.cpp that give a command to a channel, with the tests
    of device/devicechannel.cpp, actions/action_hvac_parameters.cpp, and the groups of channels of
    user/userchannelgroups.cpp with dcpair.cpp. Actions.v ends with operations on channels and
    groups; here they become the requests that devices get, and UserChannels.v has what devices
    send back. *)

From stdpp Require Import sorting.
From S2P Require Import Prelude ChannelFunctions ProtoTypes Caller Actions Relations ChannelValues ObjContainer ClientChannels UserChannels.

#[local] Open Scope list_scope.
#[local] Open Scope Z_scope.

(** ** Requests *)

Definition CALCFG_DATA_SIZE : nat := Z.to_nat SUPLA_CALCFG_DATA_MAXSIZE.
Definition SUPLA_CALCFG_CMD_RESET_COUNTERS : Z := 7000.
Definition SUPLA_CALCFG_CMD_RECALIBRATE : Z := 8000.
Definition SUPLA_CALCFG_CMD_IDENTIFY_SUBDEVICE : Z := 9310.
Definition SUPLA_CALCFG_CMD_RESTART_SUBDEVICE : Z := 9410.
Definition SUPLA_CALCFG_CMD_TAKE_OCR_PHOTO : Z := 9420.
Definition SUPLA_CALCFG_CMD_MUTE_ALARM_SOUND : Z := 9430.
Definition SUPLA_CALCFG_DATATYPE_RS_SETTINGS : Z := 1000.
Definition SUPLA_CHANNEL_FLAG_CALCFG_RESET_COUNTERS : Z := 8192.
Definition SUPLA_CHANNEL_FLAG_CALCFG_RECALIBRATE : Z := 16384.
Definition SUPLA_CHANNEL_FLAG_CALCFG_IDENTIFY_SUBDEVICE : Z := 32768.
Definition SUPLA_CHANNEL_FLAG_CALCFG_RESTART_SUBDEVICE : Z := 1073741824.
Definition SUPLA_THERMOSTAT_CMD_TURNON : Z := 1.
Definition SUPLA_THERMOSTAT_CMD_SET_MODE_AUTO : Z := 2.
Definition SUPLA_THERMOSTAT_CMD_SET_MODE_NORMAL : Z := 5.
Definition SUPLA_THERMOSTAT_CMD_SET_TEMPERATURE : Z := 13.
Definition TEMPERATURE_INDEX1 : Z := 1.
Definition SUPLA_HVAC_SUBFUNCTION_HEAT : Z := 1.
Definition SUPLA_HVAC_SUBFUNCTION_COOL : Z := 2.

(** TSD_DeviceCalCfgRequest *)
Record calcfg := CalCfg {
  cc_SenderID : Z; cc_ChannelNumber : Z; cc_Command : Z; cc_SuperUserAuthorized : bool;
  cc_DataType : Z; cc_DataSize : Z; cc_Data : list Z
}.

(** What leaves for a device: TSD_SuplaChannelNewValue, TSD_SuplaChannelGroupNewValue and
    TSD_DeviceCalCfgRequest; and what a gate asks of its tasks, which are in GateOpenClose.v. *)
Inductive request :=
  | ChannelNewValue (SenderID ChannelNumber DurationMS : Z) (value : list Z)
  | ChannelGroupNewValue (SenderID GroupID EOL ChannelNumber DurationMS : Z) (value : list Z)
  | DeviceCalCfg (r : calcfg)
  | CancelTasks (channel : Z)
  | OpenCloseTask (c : supla_caller) (channel : Z) (open : bool).

Definition value_of (r : request) : option (list Z) :=
  match r with
  | ChannelNewValue _ _ _ v | ChannelGroupNewValue _ _ _ _ _ v => Some v
  | _ => None
  end.

(** ** What can be written *)

Definition long_shading_functions : list Z :=
  [SUPLA_CHANNELFNC_CONTROLLINGTHEROLLERSHUTTER; SUPLA_CHANNELFNC_CONTROLLINGTHEROOFWINDOW;
   SUPLA_CHANNELFNC_CONTROLLINGTHEFACADEBLIND; SUPLA_CHANNELFNC_TERRACE_AWNING;
   SUPLA_CHANNELFNC_PROJECTOR_SCREEN; SUPLA_CHANNELFNC_CURTAIN; SUPLA_CHANNELFNC_VERTICAL_BLIND;
   SUPLA_CHANNELFNC_ROLLER_GARAGE_DOOR].

Definition is_value_writable (func : Z) : bool :=
  one_of func gate_lock_functions || one_of func long_shading_functions
  || one_of func
       [SUPLA_CHANNELFNC_POWERSWITCH; SUPLA_CHANNELFNC_LIGHTSWITCH; SUPLA_CHANNELFNC_DIMMER;
        SUPLA_CHANNELFNC_RGBLIGHTING; SUPLA_CHANNELFNC_DIMMERANDRGBLIGHTING;
        SUPLA_CHANNELFNC_DIMMER_CCT_AND_RGB; SUPLA_CHANNELFNC_DIMMER_CCT;
        SUPLA_CHANNELFNC_STAIRCASETIMER; SUPLA_CHANNELFNC_VALVE_OPENCLOSE;
        SUPLA_CHANNELFNC_VALVE_PERCENTAGE; SUPLA_CHANNELFNC_DIGIGLASS_VERTICAL;
        SUPLA_CHANNELFNC_DIGIGLASS_HORIZONTAL].

Definition is_char_value_writable (func : Z) : bool :=
  one_of func gate_lock_functions || one_of func long_shading_functions
  || one_of func
       [SUPLA_CHANNELFNC_POWERSWITCH; SUPLA_CHANNELFNC_LIGHTSWITCH;
        SUPLA_CHANNELFNC_STAIRCASETIMER; SUPLA_CHANNELFNC_THERMOMETER;
        SUPLA_CHANNELFNC_THERMOSTAT_HEATPOL_HOMEPLUS; SUPLA_CHANNELFNC_VALVE_OPENCLOSE;
        SUPLA_CHANNELFNC_VALVE_PERCENTAGE].

Definition is_rgbw_value_writable (func : Z) : bool :=
  one_of func
    [SUPLA_CHANNELFNC_DIMMER; SUPLA_CHANNELFNC_RGBLIGHTING; SUPLA_CHANNELFNC_DIMMERANDRGBLIGHTING;
     SUPLA_CHANNELFNC_DIMMER_CCT_AND_RGB; SUPLA_CHANNELFNC_DIMMER_CCT].

Definition switch_functions : list Z :=
  [SUPLA_CHANNELFNC_POWERSWITCH; SUPLA_CHANNELFNC_LIGHTSWITCH; SUPLA_CHANNELFNC_STAIRCASETIMER;
   SUPLA_CHANNELFNC_THERMOSTAT_HEATPOL_HOMEPLUS].

(** The thermostats that [set_on] knows: of the functions with such a value, not the dryer and the
    fan. *)
Definition switched_hvac_functions : list Z :=
  [SUPLA_CHANNELFNC_HVAC_THERMOSTAT; SUPLA_CHANNELFNC_HVAC_THERMOSTAT_HEAT_COOL;
   SUPLA_CHANNELFNC_HVAC_THERMOSTAT_DIFFERENTIAL; SUPLA_CHANNELFNC_HVAC_DOMESTIC_HOT_WATER].

(** [supla_channel_hvac_value::clear] *)
Definition hvac_clear (v : list Z) : list Z := zeros.

(** [supla_action_hvac_parameters::apply_on] *)
Definition hvac_apply_on (p : hvac_parameters) (v : list Z) : list Z :=
  let v := set_mode (Mode p) v in
  let v := if has_flag (Actions.hvac_flags p) SUPLA_HVAC_VALUE_FLAG_SETPOINT_TEMP_HEAT_SET
           then set_setpoint_temperature_heat (SetpointTemperatureHeat p) v
           else set_setpoint_temperature_heat_to_null v in
  if has_flag (Actions.hvac_flags p) SUPLA_HVAC_VALUE_FLAG_SETPOINT_TEMP_COOL_SET
  then set_setpoint_temperature_cool (SetpointTemperatureCool p) v
  else set_setpoint_temperature_cool_to_null v.

(** [set_on] and [timer_arm] with a thermostat. *)
Definition hvac_switched (on toggle : bool) (v : list Z) : list Z :=
  if toggle then hvac_toggle v else if on then hvac_turn_on v else hvac_turn_off v.

Section requests.
(** Extended values and documents as in UserChannels.v. What documents say: the time of a relay,
    the times of a shutter as they are sent and as [recalibrate] sends them, and the subfunction of
    a thermostat with this number; what an extended value says: whether a thermostat runs its
    program; the flags of a channel; and whether a request of configuration is sent, which
    depends on the version of the device. *)
Context {E J : Type}.
Context (relay_time_ms shutter_duration : J → Z) (shutter_times : J → option (Z * Z))
  (subfunction : J → Z → option Z) (program_mode : E → option bool)
  (flags_of : dchannel (E:=E) (J:=J) → Z) (calcfg_sent : calcfg → bool).
Notation dchannel := (dchannel (E:=E) (J:=J)).
Notation device := (device (E:=E) (J:=J)).
Notation channel_id x := (p_id (d_props x)).
Notation func_of x := (p_func (d_props x)).
Notation number_of x := (p_number (d_props x)).

(** [supla_device_channel::get_flags] goes through an [int]. *)
Definition channel_get_flags (x : dchannel) : Z := u64 (i32 (flags_of x)).

Definition get_char (x : dchannel) : Z := char_at 0 (d_value x).

Definition get_value_duration (x : dchannel) : Z :=
  if one_of (func_of x) gate_lock_functions then u32 (p_param1 (d_props x))
  else if func_of x =? SUPLA_CHANNELFNC_STAIRCASETIMER then u32 (relay_time_ms (d_json x))
  else if one_of (func_of x) long_shading_functions then u32 (shutter_duration (d_json x))
  else 0.

(** ** Setting a value *)

Section channel_of_device.
(** The version of the device's protocol, who asks, and the group that the channel is asked in, 0 for
    none, with the mark of the last one of the device. *)
Context (version : Z) (caller : supla_caller) (group_id eol : Z).

Definition async_set_channel_value (x : dchannel) (value : list Z) (duration_ms : Z)
    (cancel_tasks : bool) : list request :=
  (if cancel_tasks && one_of (func_of x) gate_functions then [CancelTasks (channel_id x)] else [])
  ++ [if negb (group_id =? 0) && (13 <=? version)
      then ChannelGroupNewValue (convert_to_sender_id caller) group_id (u8 eol) (number_of x)
             (u32 duration_ms) value
      else ChannelNewValue (if group_id =? 0 then convert_to_sender_id caller else 0)
             (number_of x) (u32 duration_ms) value].

(** The overload that takes the duration from the channel. *)
Definition async_set_value (x : dchannel) (value : list Z) (cancel_tasks : bool) : list request :=
  async_set_channel_value x value (get_value_duration x) cancel_tasks.

Definition set_device_channel_value (x : dchannel) (value : list Z) : list request :=
  if is_value_writable (func_of x) then async_set_value x value true else [].

Definition set_device_channel_rgbw_value (x : dchannel)
    (color color_brightness brightness on_off command white_temperature : Z)
    : bool * list request :=
  if is_rgbw_value_writable (func_of x)
  then (true, async_set_value x (assign_rgbw_value (func_of x) color color_brightness brightness
                                   on_off command white_temperature zeros) true)
  else (false, []).

(** [get_value<supla_channel_rgbw_value>] and [get_value<supla_channel_hvac_value>] give a value
    where the class of the channel's value is this one. *)
Definition rgbw_value (x : dchannel) : option (list Z) :=
  match new_value (func_of x) with RgbwValue => Some (d_value x) | _ => None end.

Definition hvac_value (x : dchannel) : option (list Z) :=
  match new_value (func_of x) with HvacValue => Some (d_value x) | _ => None end.

Definition set_device_channel_char_value (x : dchannel) (value : Z) (cancel_tasks : bool)
    : bool * list request :=
  if is_rgbw_value_writable (func_of x) then
    match rgbw_value x with
    | Some v =>
        let level := if 0 <? value then 100 else 0 in
        set_device_channel_rgbw_value x (i32 (get_color v)) level level 1 0
          (get_white_temperature v)
    | None => (false, [])
    end
  else if is_char_value_writable (func_of x)
  then (true, async_set_value x (set_byte 0 value (d_value x)) cancel_tasks)
  else (false, []).

(** *** On and off *)

Definition channel_set_on (x : dchannel) (on toggle : bool) : bool * list request :=
  let f := func_of x in
  if one_of f switch_functions then
    let c := if toggle then (if get_char x =? 0 then 1 else 0) else Z.b2z on in
    set_device_channel_char_value x c true
  else if one_of f rgbw_functions then
    match rgbw_value x with
    | Some v =>
        let level :=
          if toggle then
            if (get_color_brightness v =? 0) && (get_brightness v =? 0) then 100 else 0
          else if on then 100 else 0 in
        set_device_channel_rgbw_value x (i32 (get_color v)) level level
          (Z.lor RGBW_BRIGHTNESS_ONOFF RGBW_COLOR_ONOFF) 0 (get_white_temperature v)
    | None => (false, [])
    end
  else if one_of f switched_hvac_functions then
    match hvac_value x with
    | Some v => (true, async_set_value x (hvac_switched on toggle v) false)
    | None => (false, [])
    end
  else (false, []).

(** [is_on]: thermostats but one are not among its cases. *)
Definition channel_is_on (x : dchannel) : bool :=
  if one_of (func_of x) switch_functions then negb (get_char x =? 0)
  else if one_of (func_of x) rgbw_functions then
    match rgbw_value x with
    | Some v => (0 <? get_color_brightness v) || (0 <? get_brightness v)
    | None => false
    end
  else false.

(** *** Lamps *)

Definition channel_set_rgbw (x : dchannel)
    (color color_brightness brightness on_off command white_temperature : option Z)
    : bool * list request :=
  if is_rgbw_value_writable (func_of x) then
    match rgbw_value x with
    | Some v =>
        set_device_channel_rgbw_value x (default (i32 (get_color v)) color)
          (default (get_color_brightness v) color_brightness)
          (default (get_brightness v) brightness) (default 0 on_off) (default 0 command)
          (default (get_white_temperature v) white_temperature)
    | None => (false, [])
    end
  else (false, []).

(** [pow(2, param1) - 1], as a 16 bit number; [param1] is the number of sections, at most 16. *)
Definition set_dgf_transparency (x : dchannel) (active_bits mask : Z) : bool * list request :=
  if one_of (func_of x) [SUPLA_CHANNELFNC_DIGIGLASS_HORIZONTAL; SUPLA_CHANNELFNC_DIGIGLASS_VERTICAL]
  then
    let scope := u16 (Z.max 0 (2 ^ p_param1 (d_props x) - 1)) in
    (true, async_set_value x
             (set_u16 0 (Z.land mask scope) (set_u16 2 (Z.land active_bits scope) zeros)) true)
  else (false, []).

(** *** Shutters *)

Definition shading_system_action (x : dchannel) (action : Z) (params : shading_parameters)
    : bool * list request :=
  let '(ok, value) := apply_on_value params action (i8 <$> d_value x) (func_of x)
                        (channel_get_flags x) in
  if ok then (true, async_set_value x (u8 <$> value) true) else (false, []).

(** *** Gates, doors and valves *)

Definition open_close_unknown (x : dchannel) (cancel_tasks : bool) : bool * list request :=
  if one_of (func_of x) gate_lock_functions
  then set_device_channel_char_value x 1 cancel_tasks else (false, []).

(** [action_open_close] *)
Definition action_open_close (x : dchannel) (unknown open cancel_tasks : bool)
    : bool * list request :=
  if negb (is_char_value_writable (func_of x)) then (false, [])
  else if unknown then open_close_unknown x cancel_tasks
  else if one_of (func_of x) gate_functions
  then (true, [OpenCloseTask caller (channel_id x) open])
  else if one_of (func_of x) [SUPLA_CHANNELFNC_CONTROLLINGTHEDOORLOCK;
                              SUPLA_CHANNELFNC_CONTROLLINGTHEGATEWAYLOCK]
  then set_device_channel_char_value x 1 cancel_tasks
  else if func_of x =? SUPLA_CHANNELFNC_VALVE_OPENCLOSE
  then set_device_channel_char_value x (if open then 1 else 0) false
  else (false, []).

(** *** Thermostats *)

Definition action_hvac (x : dchannel) (duration : Z) (on_value : list Z → option (list Z))
    : bool * list request :=
  match v ← hvac_value x; on_value v with
  | Some v => (true, async_set_channel_value x v duration false)
  | None => (false, [])
  end.

Definition new_calcfg (x : dchannel) : calcfg :=
  CalCfg 0 (number_of x) 0 false 0 0 (replicate CALCFG_DATA_SIZE 0).

(** The command with one byte of data. *)
Definition with_command (command data : Z) (r : calcfg) : calcfg :=
  CalCfg (cc_SenderID r) (cc_ChannelNumber r) command (cc_SuperUserAuthorized r) (cc_DataType r) 1
    (set_byte 0 data (cc_Data r)).

(** TThermostatTemperatureCfg with the first temperature. *)
Definition SIZEOF_TThermostatTemperatureCfg : nat := 22.

Definition with_temperature (clear : bool) (temperature : Z) (r : calcfg) : calcfg :=
  let data := if clear
              then replicate SIZEOF_TThermostatTemperatureCfg 0
                   ++ drop SIZEOF_TThermostatTemperatureCfg (cc_Data r)
              else cc_Data r in
  CalCfg (cc_SenderID r) (cc_ChannelNumber r) SUPLA_THERMOSTAT_CMD_SET_TEMPERATURE
    (cc_SuperUserAuthorized r) (cc_DataType r) (Z.of_nat SIZEOF_TThermostatTemperatureCfg)
    (set_u16 2 temperature (set_u16 0 TEMPERATURE_INDEX1 data)).

(** [hp_action], for the thermostats that are commanded with [calcfg]: [on_calcfg] gives what it
    sends on its own, and the request that is to be sent if any. None for other functions. *)
Definition hp_action (x : dchannel) (on_calcfg : calcfg → list request * option calcfg)
    : option (bool * list request) :=
  if func_of x =? SUPLA_CHANNELFNC_THERMOSTAT_HEATPOL_HOMEPLUS then
    let '(sent, last) := on_calcfg (new_calcfg x) in
    Some (match last with
          | Some r => (calcfg_sent r, sent ++ [DeviceCalCfg r])
          | None => (false, sent)
          end)
  else None.

Definition in_program_mode (x : dchannel) : bool :=
  default false (e ← d_extended x; program_mode e).

Definition hp_parameters (x : dchannel) (p : hvac_parameters) (r : calcfg)
    : list request * option calcfg :=
  let r :=
    if one_of (Mode p) [SUPLA_HVAC_MODE_HEAT; SUPLA_HVAC_MODE_CMD_SWITCH_TO_MANUAL]
    then with_command SUPLA_THERMOSTAT_CMD_SET_MODE_NORMAL 1 r
    else if Mode p =? SUPLA_HVAC_MODE_OFF then with_command SUPLA_THERMOSTAT_CMD_TURNON 0 r
    else if Mode p =? SUPLA_HVAC_MODE_CMD_WEEKLY_SCHEDULE
    then with_command SUPLA_THERMOSTAT_CMD_SET_MODE_AUTO 1 r
    else r in
  let '(sent, r) :=
    if has_flag (Actions.hvac_flags p) SUPLA_HVAC_VALUE_FLAG_SETPOINT_TEMP_HEAT_SET then
      let r := if negb (cc_Command r =? SUPLA_THERMOSTAT_CMD_SET_MODE_NORMAL) && in_program_mode x
               then with_command SUPLA_THERMOSTAT_CMD_SET_MODE_NORMAL 0 r else r in
      (if cc_Command r =? 0 then [] else [DeviceCalCfg r],
       with_temperature true (SetpointTemperatureHeat p) r)
    else ([], r) in
  (sent, if cc_Command r =? 0 then None else Some r).

Definition action_hvac_set_parameters (x : dchannel) (p : hvac_parameters)
    : bool * list request :=
  match hp_action x (hp_parameters x p) with
  | Some result => result
  | None => action_hvac x (DurationSec p) (λ v, Some (hvac_apply_on p (hvac_clear v)))
  end.

Definition action_hvac_switch_to_manual_mode (x : dchannel) : bool * list request :=
  match hp_action x (λ r, ([], Some (with_command SUPLA_THERMOSTAT_CMD_SET_MODE_NORMAL 1 r))) with
  | Some result => result
  | None => action_hvac x 0 (λ v, Some (switch_to_manual (hvac_clear v)))
  end.

Definition action_hvac_switch_to_program_mode (x : dchannel) : bool * list request :=
  match hp_action x (λ r, ([], Some (with_command SUPLA_THERMOSTAT_CMD_SET_MODE_AUTO 1 r))) with
  | Some result => result
  | None => action_hvac x 0 (λ v, Some (switch_to_program (hvac_clear v)))
  end.

Definition hp_temperature (x : dchannel) (temperature : Z) (r : calcfg)
    : list request * option calcfg :=
  let r := with_temperature false temperature r in
  if in_program_mode x
  then ([DeviceCalCfg r],
        Some (if calcfg_sent r then with_command SUPLA_THERMOSTAT_CMD_SET_MODE_NORMAL 0 r else r))
  else ([], Some r).

(** The setpoint that a temperature is for, with the value as it was. *)
Definition setpoint (x : dchannel) (temperature : Z) (v : list Z) : option (list Z) :=
  let f := func_of x in
  let heat := Some (set_setpoint_temperature_heat temperature (hvac_clear v)) in
  let cool := Some (set_setpoint_temperature_cool temperature (hvac_clear v)) in
  if one_of f [SUPLA_CHANNELFNC_HVAC_THERMOSTAT_DIFFERENTIAL; SUPLA_CHANNELFNC_HVAC_DOMESTIC_HOT_WATER]
  then heat
  else if f =? SUPLA_CHANNELFNC_HVAC_THERMOSTAT then
    match subfunction (d_json x) (number_of x) with
    | Some s => if s =? SUPLA_HVAC_SUBFUNCTION_HEAT then heat
                else if s =? SUPLA_HVAC_SUBFUNCTION_COOL then cool else None
    | None => None
    end
  else if f =? SUPLA_CHANNELFNC_HVAC_THERMOSTAT_HEAT_COOL
  then if get_mode v =? SUPLA_HVAC_MODE_COOL then cool else heat
  else None.

Definition action_hvac_set_temperature (x : dchannel) (temperature : Z) : bool * list request :=
  match hp_action x (hp_temperature x temperature) with
  | Some result => result
  | None => action_hvac x 0 (setpoint x temperature)
  end.

Definition setpoints (x : dchannel) (heating cooling : option Z) (v : list Z)
    : option (list Z) :=
  if func_of x =? SUPLA_CHANNELFNC_HVAC_THERMOSTAT_HEAT_COOL then
    let v := hvac_clear v in
    let v := match heating with Some t => set_setpoint_temperature_heat t v | None => v end in
    let v := match cooling with Some t => set_setpoint_temperature_cool t v | None => v end in
    if bool_decide (is_Some heating) || bool_decide (is_Some cooling) then Some v else None
  else None.

Definition action_hvac_set_temperatures (x : dchannel) (heating cooling : option Z)
    : bool * list request :=
  action_hvac x 0 (setpoints x heating cooling).

(** *** Configuration requests *)

Definition calcfg_cmd (x : dchannel) (flag : Z) (superuser : bool) (cmd : Z)
    : bool * list request :=
  if (flag =? 0) || has_flag (channel_get_flags x) flag
  then (true, [DeviceCalCfg (CalCfg 0 (number_of x) cmd superuser 0 0
                               (replicate CALCFG_DATA_SIZE 0))])
  else (false, []).

Definition reset_counters (x : dchannel) : bool * list request :=
  calcfg_cmd x SUPLA_CHANNEL_FLAG_CALCFG_RESET_COUNTERS true SUPLA_CALCFG_CMD_RESET_COUNTERS.
Definition take_ocr_photo (x : dchannel) : bool * list request :=
  calcfg_cmd x 0 true SUPLA_CALCFG_CMD_TAKE_OCR_PHOTO.
Definition mute_alarm_sound (x : dchannel) : bool * list request :=
  calcfg_cmd x 0 true SUPLA_CALCFG_CMD_MUTE_ALARM_SOUND.
Definition restart_subdevice (x : dchannel) : bool * list request :=
  calcfg_cmd x SUPLA_CHANNEL_FLAG_CALCFG_RESTART_SUBDEVICE true SUPLA_CALCFG_CMD_RESTART_SUBDEVICE.
Definition identify_subdevice (x : dchannel) : bool * list request :=
  calcfg_cmd x SUPLA_CHANNEL_FLAG_CALCFG_IDENTIFY_SUBDEVICE true SUPLA_CALCFG_CMD_IDENTIFY_SUBDEVICE.

Definition recalibrated_functions : list Z :=
  [SUPLA_CHANNELFNC_CONTROLLINGTHEROLLERSHUTTER; SUPLA_CHANNELFNC_CONTROLLINGTHEROOFWINDOW;
   SUPLA_CHANNELFNC_TERRACE_AWNING; SUPLA_CHANNELFNC_PROJECTOR_SCREEN; SUPLA_CHANNELFNC_CURTAIN;
   SUPLA_CHANNELFNC_ROLLER_GARAGE_DOOR].

Definition recalibrate (x : dchannel) (superuser : bool) : bool * list request :=
  if has_flag (channel_get_flags x) SUPLA_CHANNEL_FLAG_CALCFG_RECALIBRATE then
    let data := replicate CALCFG_DATA_SIZE 0 in
    let sender := convert_to_sender_id caller in
    (true,
     [DeviceCalCfg
        (if one_of (func_of x) recalibrated_functions
         then CalCfg sender (number_of x) SUPLA_CALCFG_CMD_RECALIBRATE superuser
                SUPLA_CALCFG_DATATYPE_RS_SETTINGS 8
                (match shutter_times (d_json x) with
                 | Some (opening, closing) => set_u32 4 closing (set_u32 0 opening data)
                 | None => data
                 end)
         else CalCfg sender (number_of x) SUPLA_CALCFG_CMD_RECALIBRATE superuser 0 0 data)])
  else (false, []).

(** [calcfg_request] of a client: its command, type of data, size and data. *)
Definition calcfg_request (x : dchannel) (superuser : bool) (command data_type size : Z)
    (data : list Z) : bool * list request :=
  if command =? SUPLA_CALCFG_CMD_RECALIBRATE then recalibrate x superuser
  else (true, [DeviceCalCfg (CalCfg (convert_to_sender_id caller) (number_of x) command superuser
                               data_type
                               (if SUPLA_CALCFG_DATA_MAXSIZE <? size
                                then SUPLA_CALCFG_DATA_MAXSIZE else size) data)]).

(** *** Timers *)

(** [timer_arm]: None where the null pointer to a channel that does not exist is followed. *)
Definition timer_arm (x : option dchannel) (on : Z) (duration_ms : Z) : option (list request) :=
  x ← x;
  let f := func_of x in
  if one_of f [SUPLA_CHANNELFNC_POWERSWITCH; SUPLA_CHANNELFNC_LIGHTSWITCH;
               SUPLA_CHANNELFNC_STAIRCASETIMER]
  then Some (async_set_channel_value x (set_byte 0 (if on =? 0 then 0 else 1) zeros) duration_ms true)
  else if one_of f [SUPLA_CHANNELFNC_HVAC_THERMOSTAT; SUPLA_CHANNELFNC_HVAC_THERMOSTAT_HEAT_COOL;
                    SUPLA_CHANNELFNC_HVAC_DOMESTIC_HOT_WATER]
  then match hvac_value x with
       | Some v => Some (async_set_channel_value x (hvac_switched (negb (on =? 0)) false v)
                           duration_ms true)
       | None => Some []
       end
  else Some [].

(** ** Operations

    The operations with which Actions.v ends, on a channel. *)

Definition channel_operation (op : operation) (x : dchannel) : bool * list request :=
  match op with
  | OpSetOn on => channel_set_on x on false
  | OpSetColor color => channel_set_rgbw x (Some color) None None None None None
  | OpSetBrightness b => channel_set_rgbw x None None (Some b) None None None
  | OpSetColorBrightness b => channel_set_rgbw x None (Some b) None None None None
  | OpRgbw color cb b on_off cmd wt => channel_set_rgbw x color cb b on_off cmd wt
  | OpToggle => channel_set_on x false true
  | OpShut params => shading_system_action x ACTION_SHUT params
  | OpReveal => shading_system_action x ACTION_REVEAL new_ssp
  | OpStop => shading_system_action x ACTION_STOP new_ssp
  | OpUp => shading_system_action x ACTION_UP new_ssp
  | OpDown => shading_system_action x ACTION_DOWN new_ssp
  | OpUpOrStop => shading_system_action x ACTION_UP_OR_STOP new_ssp
  | OpDownOrStop => shading_system_action x ACTION_DOWN_OR_STOP new_ssp
  | OpStepByStep => shading_system_action x ACTION_STEP_BY_STEP new_ssp
  | OpOpen => action_open_close x false true true
  | OpClose => action_open_close x false false true
  | OpOpenClose => action_open_close x true false true
  | OpOpenCloseNoCancel => action_open_close x true false false
  | OpHvacSetParameters h => action_hvac_set_parameters x h
  | OpHvacProgramMode => action_hvac_switch_to_program_mode x
  | OpHvacManualMode => action_hvac_switch_to_manual_mode x
  | OpHvacTemperature t => action_hvac_set_temperature x t
  | OpHvacTemperatures heating cooling => action_hvac_set_temperatures x heating cooling
  end.

(** Each operation looks the channel up first. *)
Definition run_operation (op : operation) (chan_id : Z) (d : device) : bool * list request :=
  match find_channel chan_id d with
  | Some x => channel_operation op x
  | None => (false, [])
  end.

End channel_of_device.

(** ** Groups

    A member of a group: the group, and the device and the channel, as a pair. *)

Definition find_channels (group : Z) (members : list (Z * (Z * Z))) : list (Z * Z) :=
  (filter (λ m, m.1 = group) members).*2.

(** [dcpair::compare] *)
Definition dcpair_compare (p1 p2 : Z * Z) : Prop :=
  p1.1 < p2.1 ∨ (p1.1 = p2.1 ∧ p1.2 <= p2.2).

#[local] Instance dcpair_compare_dec : RelDecision dcpair_compare.
Proof. unfold dcpair_compare. solve_decision. Defined.

(** [dcpair::last_one] of the first pair; past the last one [it] is the end of the list, and what
    is read there is no pair: [at_end]. *)
Definition last_one (at_end : Z) (pairs : list (Z * Z)) : bool :=
  match pairs with
  | [] => true
  | p :: rest => negb (p.1 =? (match rest with q :: _ => q.1 | [] => at_end end))
  end.

(** [for_each_channel]: [f] is given the device, the channel and the mark of the last one; it adds to
    what devices are asked. *)
Fixpoint for_each_pair (at_end : Z) (ds : list device) (break_on_success : bool)
    (f : device → Z → bool → bool * list request) (pairs : list (Z * Z))
    : bool * list (Z * request) :=
  match pairs with
  | [] => (false, [])
  | p :: rest =>
      let '(ok, reqs) :=
        match get_device p.1 0 ds with
        | Some d => let '(ok, reqs) := f d p.2 (last_one at_end pairs) in
                    (ok, (λ r, (device_id d, r)) <$> reqs)
        | None => (false, [])
        end in
      if break_on_success && ok then (true, reqs)
      else let '(ok', reqs') := for_each_pair at_end ds break_on_success f rest in
           (ok || ok', reqs ++ reqs')
  end.

Definition for_each_channel (at_end : Z) (ds : list device) (members : list (Z * (Z * Z)))
    (group : Z) (break_on_success : bool) (f : device → Z → bool → bool * list request)
    : bool * list (Z * request) :=
  for_each_pair at_end ds break_on_success f
    (merge_sort dcpair_compare (find_channels group members)).

(** The operation on each channel of a group; to toggle is to turn off if any is on. *)
Definition for_group (at_end : Z) (ds : list device) (members : list (Z * (Z * Z)))
    (caller : supla_caller) (group : Z) (op : operation) : bool * list (Z * request) :=
  for_each_channel at_end ds members group false
    (λ d c eol, run_operation (device_version d) caller group (Z.b2z eol) op c d).

Definition any_on (at_end : Z) (ds : list device) (members : list (Z * (Z * Z))) (group : Z) : bool :=
  (for_each_channel at_end ds members group true
     (λ d c eol, (match find_channel c d with Some x => channel_is_on x | None => false end, []))).1.

Definition group_operation (at_end : Z) (ds : list device) (members : list (Z * (Z * Z)))
    (caller : supla_caller) (group : Z) (op : operation) : bool * list (Z * request) :=
  for_group at_end ds members caller group
    (match op with OpToggle => OpSetOn (negb (any_on at_end ds members group)) | _ => op end).

(** The commands of Actions.v that concern channels; the device is the one that the executor got. *)
Definition run_command (at_end : Z) (ds : list device) (members : list (Z * (Z * Z)))
    (cmd : command) : list (Z * request) :=
  match cmd with
  | ToChannel c device chan_id op =>
      match get_device device 0 ds with
      | Some d => (λ r, (device_id d, r)) <$>
                  (run_operation (device_version d) c 0 0 op chan_id d).2
      | None => []
      end
  | ToGroup c _ group op => (group_operation at_end ds members c group op).2
  | _ => []
  end.

(** ** Values that are asked for, and reported *)

Lemma one_of_elem f l : one_of f l = true ↔ f ∈ l.
Proof using Type.
  clear. split; [intros (g & Hg & ->%Z.eqb_eq)%existsb_exists; by apply list_elem_of_In|].
  intros H. apply existsb_exists. exists f. split; [by apply list_elem_of_In|apply Z.eqb_refl].
Qed.

(** A property of functions that is decided for those of a list. *)
Lemma by_functions (l : list Z) (p : Z → bool) f :
  forallb p l = true → one_of f l = true → p f = true.
Proof using Type.
  clear. intros Hp Hf. apply one_of_elem in Hf. rewrite forallb_forall in Hp.
  apply Hp. by apply list_elem_of_In.
Qed.

Definition is_rgbw_class (c : value_class) : bool :=
  match c with RgbwValue => true | _ => false end.

Lemma lamp_class f : one_of f rgbw_functions = true →
  new_value f = RgbwValue ∧ is_rgbw_value_writable f = true ∧ one_of f switch_functions = false.
Proof using Type.
  clear. intros Hf.
  pose proof (by_functions rgbw_functions
    (λ f, is_rgbw_class (new_value f) && is_rgbw_value_writable f
          && negb (one_of f switch_functions)) f eq_refl Hf) as H.
  apply andb_true_iff in H as [[H1 H2]%andb_true_iff H3%negb_true_iff].
  by destruct (new_value f).
Qed.

Lemma writable_lamp f : is_rgbw_value_writable f = one_of f rgbw_functions.
Proof using Type.
  clear. apply Bool.eq_iff_eq_true. unfold is_rgbw_value_writable. rewrite !one_of_elem.
  unfold rgbw_functions. set_solver.
Qed.

Lemma switch_class f : one_of f switch_functions = true →
  (new_value f = OnOffValue ∨ new_value f = HpThermostatValue)
  ∧ is_rgbw_value_writable f = false ∧ is_char_value_writable f = true
  ∧ one_of f gate_functions = false.
Proof using Type.
  clear. intros Hf.
  pose proof (by_functions switch_functions
    (λ f, match new_value f with OnOffValue | HpThermostatValue => true | _ => false end
          && negb (is_rgbw_value_writable f) && is_char_value_writable f
          && negb (one_of f gate_functions)) f eq_refl Hf) as H.
  apply andb_true_iff in H as [[[H1 H2%negb_true_iff]%andb_true_iff H3]%andb_true_iff H4%negb_true_iff].
  split_and!; [|done..]. destruct (new_value f); (discriminate || auto).
Qed.

Context (value_config_of : J → value_config) (new_ic_extended : Z → Z → J → E).

(** The channel after the device has reported a value. *)
Definition reported (now : timeval) (version : Z) (v : list Z) (x : dchannel) : dchannel :=
  (handle value_config_of new_ic_extended now version v 0 None x).2.

Lemma reported_value now version v x : d_valid_to x = timeval_zero →
  d_value (reported now version v x) = received_value value_config_of version v x
  ∧ d_props (reported now version v x) = d_props x.
Proof using Type.
  intros Hx. unfold reported, handle, set_value, valid_to_set. rewrite Hx. cbn.
  unfold set_availability_status. by destruct (d_status x =? 0).
Qed.

Lemma reported_lamp now version v x : d_valid_to x = timeval_zero →
  one_of (func_of x) rgbw_functions = true → d_value (reported now version v x) = v.
Proof using Type.
  intros Hx Hf. rewrite (proj1 (reported_value now version v x Hx)). unfold received_value.
  by rewrite (proj1 (lamp_class _ Hf)).
Qed.

Lemma reported_switch now version v x : d_valid_to x = timeval_zero →
  one_of (func_of x) switch_functions = true →
  byte_at 0 (d_value (reported now version v x)) = byte_at 0 v.
Proof using Type.
  intros Hx Hf. rewrite (proj1 (reported_value now version v x Hx)). unfold received_value.
  destruct (switch_class _ Hf) as [[-> | ->] _]; cbn; [|done].
  unfold onoff_apply. destruct (version <? 15); [|done]. by destruct v.
Qed.

Lemma values_of_request version caller group eol x v duration cancel :
  omap value_of (async_set_channel_value version caller group eol x v duration cancel) = [v].
Proof using Type.
  clear. unfold async_set_channel_value.
  destruct (cancel && _), (negb (group =? 0) && (13 <=? version)); done.
Qed.

(** Whether a lamp is on is read from bytes that are percentages. *)
Definition lamp_ok (x : dchannel) : Prop :=
  0 <= get_brightness (d_value x) ∧ 0 <= get_color_brightness (d_value x).

Lemma zeros_value : is_value zeros.
Proof using Type. clear. split; [done|]. apply Forall_replicate. unfold is_u8; lia. Qed.

Lemma lamp_functions f : one_of f rgbw_functions = true →
  one_of f dimmer_functions || one_of f colour_functions = true.
Proof using Type.
  clear. by apply (by_functions rgbw_functions
           (λ f, one_of f dimmer_functions || one_of f colour_functions)).
Qed.

(** A lamp that is set to one level for all that it has. *)
Lemma lamp_level f color level on_off command wt : one_of f rgbw_functions = true →
  level = 0 ∨ level = 100 →
  let v := assign_rgbw_value f color level level on_off command wt zeros in
  is_value v ∧ (0 <? get_color_brightness v) || (0 <? get_brightness v) = (level =? 100).
Proof using Type.
  clear. intros Hf Hl v.
  destruct (light_assigned f color level level on_off command wt zeros zeros_value)
    as (Hv & Hc & Hb & _). fold v in Hv, Hc, Hb. split; [done|].
  apply lamp_functions, orb_true_iff in Hf. rewrite Hb.
  assert (Hcb : get_color_brightness v
                = if one_of f colour_functions then percent level else 0).
  { by destruct (one_of f colour_functions), Hc. }
  rewrite Hcb. change (get_brightness zeros) with 0.
  destruct (one_of f dimmer_functions), (one_of f colour_functions), Hl as [-> | ->]; try done;
    by destruct Hf.
Qed.

Lemma switch_on_asked version caller group eol x on toggle :
  one_of (func_of x) switch_functions = true → is_value (d_value x) →
  ∃ v, channel_set_on version caller group eol x on toggle
       = (true, async_set_value version caller group eol x v true) ∧ is_value v
  ∧ ∀ now version', d_valid_to x = timeval_zero →
    channel_is_on (reported now version' v x) = if toggle then negb (channel_is_on x) else on.
Proof using Type.
  intros Hf Hv. destruct (switch_class _ Hf) as (_ & Hr & Hc & _).
  unfold channel_set_on. rewrite Hf. unfold set_device_channel_char_value. rewrite Hr, Hc.
  eexists. split; [done|]. split; [by apply set_byte_value|]. intros now version' Hx.
  assert (Hb := reported_switch now version' (set_byte 0 (if toggle then
    (if get_char x =? 0 then 1 else 0) else Z.b2z on) (d_value x)) x Hx Hf).
  unfold channel_is_on. rewrite (proj2 (reported_value now version' _ x Hx)), Hf.
  unfold get_char, char_at in *. rewrite Hb.
  rewrite byte_at_set by (destruct Hv as [-> _]; unfold value_size; lia). cbn [Nat.eqb].
  destruct toggle; [|by destruct on]. by destruct (i8 (byte_at 0 (d_value x)) =? 0).
Qed.

Lemma lamp_on_asked version caller group eol x on toggle :
  one_of (func_of x) rgbw_functions = true → lamp_ok x →
  ∃ v, channel_set_on version caller group eol x on toggle
       = (true, async_set_value version caller group eol x v true) ∧ is_value v
  ∧ ∀ now version', d_valid_to x = timeval_zero →
    channel_is_on (reported now version' v x) = if toggle then negb (channel_is_on x) else on.
Proof using Type.
  intros Hf [H1 H2]. destruct (lamp_class _ Hf) as (Hc & Hw & Hs).
  unfold channel_set_on, rgbw_value. rewrite Hs, Hf, Hc. unfold set_device_channel_rgbw_value.
  rewrite Hw. set (level := if toggle then _ else _).
  assert (Hl : level = 0 ∨ level = 100) by (subst level; repeat case_match; auto).
  destruct (lamp_level (func_of x) (i32 (get_color (d_value x))) level
    (Z.lor RGBW_BRIGHTNESS_ONOFF RGBW_COLOR_ONOFF) 0 (get_white_temperature (d_value x)) Hf Hl)
    as [Hv He].
  eexists. split; [done|]. split; [done|]. intros now version' Hx.
  unfold channel_is_on, rgbw_value.
  rewrite (proj2 (reported_value now version' _ x Hx)), Hs, Hf, Hc, reported_lamp by done.
  rewrite He. subst level. destruct toggle; [|by destruct on].
  clear Hl Hv He. revert H1 H2. generalize (get_brightness (d_value x)), (get_color_brightness (d_value x)).
  intros b cb Hb Hcb. destruct (Z.eqb_spec cb 0), (Z.eqb_spec b 0); cbn [andb]; lia.
Qed.

(** ** Whom requests concern *)

Section aims.
Context (version : Z) (caller : supla_caller) (group_id eol : Z) (x : dchannel).

(** A request of configuration, as commands send it to a thermostat of the older kind, is for this
    channel and names nobody. *)
Definition calcfg_for (r : calcfg) : Prop :=
  cc_SenderID r = 0 ∧ cc_ChannelNumber r = number_of x ∧ length (cc_Data r) = CALCFG_DATA_SIZE.

(** A request is for this channel. A value tells who asks: the client, but for a device that does not
    know groups nobody when a group is asked. *)
Definition aims_at (r : request) : Prop :=
  match r with
  | ChannelNewValue sender number _ v =>
      number = number_of x ∧ is_value v
      ∧ sender = (if group_id =? 0 then convert_to_sender_id caller else 0)
      ∧ (group_id = 0 ∨ version < 13)
  | ChannelGroupNewValue sender group _ number _ v =>
      number = number_of x ∧ is_value v ∧ sender = convert_to_sender_id caller
      ∧ group = group_id ∧ group_id ≠ 0 ∧ 13 <= version
  | DeviceCalCfg r => calcfg_for r
  | CancelTasks channel => channel = channel_id x
  | OpenCloseTask c channel _ => c = caller ∧ channel = channel_id x
  end.

Definition asked_ok (cancel : bool) (result : bool * list request) : Prop :=
  Forall aims_at result.2 ∧ (length (omap value_of result.2) <= 1)%nat
  ∧ (cancel = true → one_of (func_of x) gate_functions = true → omap value_of result.2 ≠ [] →
     CancelTasks (channel_id x) ∈ result.2).

Lemma nothing_ok cancel ok : asked_ok cancel (ok, []).
Proof using Type. split; [constructor|]. cbn. split; [lia|done]. Qed.

Lemma async_ok ok v duration cancel : is_value v →
  asked_ok cancel (ok, async_set_channel_value version caller group_id eol x v duration cancel).
Proof using Type.
  intros Hv. split; [|split]; cbn [snd].
  - apply Forall_app. split; [destruct (cancel && _); by repeat constructor|].
    apply Forall_singleton. destruct (group_id =? 0) eqn:E0; cbn [negb andb].
    + unfold aims_at. rewrite E0. split_and!; try done. left. lia.
    + destruct (Z.leb_spec 13 version); unfold aims_at; rewrite ?E0; split_and!; try done; [lia|].
      by right.
  - rewrite values_of_request. done.
  - intros -> Hf _. unfold async_set_channel_value. rewrite Hf. apply list_elem_of_here.
Qed.

Lemma asked_weaken cancel result :
  one_of (func_of x) gate_functions = false → asked_ok cancel result → asked_ok true result.
Proof using Type. intros Hf (H1 & H2 & _). split_and!; [done..|]. by rewrite Hf. Qed.

Lemma asked_less cancel result : asked_ok true result → asked_ok cancel result.
Proof using Type. intros (H1 & H2 & H3). split_and!; [done..|]. intros _. by apply H3. Qed.

Lemma calcfg_ok cancel ok l :
  Forall calcfg_for l →
  asked_ok cancel (ok, DeviceCalCfg <$> l).
Proof using Type.
  intros Hl. split; [|split]; cbn [snd].
  - apply Forall_fmap. eapply Forall_impl; [exact Hl|]. done.
  - clear. induction l; cbn; [lia|done].
  - intros _ _ H. exfalso. apply H. clear. by induction l.
Qed.

Lemma rgbw_ok color cb b on_off command wt :
  asked_ok true (set_device_channel_rgbw_value version caller group_id eol x color cb b on_off
                   command wt).
Proof using Type.
  unfold set_device_channel_rgbw_value. destruct (is_rgbw_value_writable _); [|apply nothing_ok].
  apply async_ok. by apply light_assigned, zeros_value.
Qed.

Hypothesis Hvalue : is_value (d_value x).

Lemma char_ok value cancel :
  asked_ok cancel (set_device_channel_char_value version caller group_id eol x value cancel).
Proof using Hvalue.
  unfold set_device_channel_char_value. destruct (is_rgbw_value_writable _).
  - destruct (rgbw_value x); [apply asked_less, rgbw_ok|apply nothing_ok].
  - destruct (is_char_value_writable _); [|apply nothing_ok]. by apply async_ok, set_byte_value.
Qed.

Lemma hvac_no_gate v : hvac_value x = Some v →
  one_of (func_of x) gate_functions = false ∧ v = d_value x.
Proof using Type.
  unfold hvac_value. destruct (one_of (func_of x) gate_functions) eqn:Hf.
  - pose proof (by_functions gate_functions
      (λ f, match new_value f with GateValue => true | _ => false end) _ eq_refl Hf) as H.
    cbn beta in H. by destruct (new_value (func_of x)).
  - destruct (new_value (func_of x)); try done. by intros [= <-].
Qed.

Lemma action_hvac_ok duration on_value :
  (∀ v v', is_value v → on_value v = Some v' → is_value v') →
  asked_ok true (action_hvac version caller group_id eol x duration on_value).
Proof using Hvalue.
  intros Hon. unfold action_hvac. destruct (hvac_value x) as [v|] eqn:Ev; [|apply nothing_ok].
  apply hvac_no_gate in Ev as [Hg ->]. cbn [mbind option_bind].
  destruct (on_value (d_value x)) as [v'|] eqn:Eon; [|apply nothing_ok].
  apply (asked_weaken false); [done|]. apply async_ok. by eapply Hon.
Qed.

#[local] Hint Resolve set_byte_value set_u16_value zeros_value : values.

(** The setters of thermostats keep eight bytes. *)
Lemma heat_value t v : is_value v → is_value (set_setpoint_temperature_heat t v).
Proof using Type. unfold set_setpoint_temperature_heat, set_flags. auto with values. Qed.

Lemma cool_value t v : is_value v → is_value (set_setpoint_temperature_cool t v).
Proof using Type. unfold set_setpoint_temperature_cool, set_flags. auto with values. Qed.

Lemma mode_value m v : is_value v → is_value (set_mode m v).
Proof using Type. unfold set_mode. destruct (_ && _); auto with values. Qed.

#[local] Hint Resolve heat_value cool_value mode_value : values.

Lemma parameters_value p v : is_value v → is_value (hvac_apply_on p v).
Proof using Type.
  intros Hv. unfold hvac_apply_on, set_setpoint_temperature_heat_to_null,
    set_setpoint_temperature_cool_to_null, set_flags.
  repeat case_match; auto 8 with values.
Qed.

Lemma switched_value on toggle v : is_value v → is_value (hvac_switched on toggle v).
Proof using Type.
  intros Hv. unfold hvac_switched, hvac_toggle, hvac_turn_on, hvac_turn_off.
  repeat case_match; auto with values.
Qed.

Lemma new_calcfg_ok : calcfg_for (new_calcfg x).
Proof using Type. done. Qed.

Lemma with_command_ok c d r : calcfg_for r → calcfg_for (with_command c d r).
Proof using Type. intros [H1 H2]. split; cbn; [done|by rewrite set_byte_length]. Qed.

Lemma with_temperature_ok b t r : calcfg_for r → calcfg_for (with_temperature b t r).
Proof using Type.
  intros (H1 & H2 & H3). split_and!; [done|done|]. unfold with_temperature. cbn [cc_Data].
  unfold set_u16. rewrite !set_byte_length. destruct b; [|done].
  rewrite length_app, length_drop, length_replicate, H3. done.
Qed.

#[local] Hint Resolve new_calcfg_ok with_command_ok with_temperature_ok : values.

Lemma hp_ok on_calcfg result :
  (∀ r, calcfg_for r → ∃ l, (on_calcfg r).1 = DeviceCalCfg <$> l ∧ Forall calcfg_for l
                          ∧ ∀ r', (on_calcfg r).2 = Some r' → calcfg_for r') →
  hp_action x on_calcfg = Some result → asked_ok true result.
Proof using Type.
  intros Hon. unfold hp_action. destruct (_ =? _); [|done].
  destruct (Hon _ new_calcfg_ok) as (l & El & Hl & Hr).
  destruct (on_calcfg (new_calcfg x)) as [sent last]. cbn in El, Hr. subst sent. intros [= <-].
  destruct last as [r'|]; [|by apply calcfg_ok].
  change [DeviceCalCfg r'] with (DeviceCalCfg <$> [r']). rewrite <- fmap_app. apply calcfg_ok.
  apply Forall_app. split; [done|]. apply Forall_singleton. by apply Hr.
Qed.

(** A thermostat of the older kind, or another one. *)
Lemma hp_or_hvac on_calcfg duration on_value :
  (∀ r, calcfg_for r → ∃ l, (on_calcfg r).1 = DeviceCalCfg <$> l ∧ Forall calcfg_for l
                          ∧ ∀ r', (on_calcfg r).2 = Some r' → calcfg_for r') →
  (∀ v v', is_value v → on_value v = Some v' → is_value v') →
  asked_ok true
    (match hp_action x on_calcfg with
     | Some result => result
     | None => action_hvac version caller group_id eol x duration on_value
     end).
Proof using Hvalue.
  intros H1 H2. destruct (hp_action x on_calcfg) eqn:Ehp; [by eapply hp_ok|by apply action_hvac_ok].
Qed.

Lemma hp_parameters_ok p r : calcfg_for r →
  ∃ l, (hp_parameters x p r).1 = DeviceCalCfg <$> l ∧ Forall calcfg_for l
     ∧ ∀ r', (hp_parameters x p r).2 = Some r' → calcfg_for r'.
Proof using Type.
  intros Hr. unfold hp_parameters. set (r1 := if one_of _ _ then _ else _).
  assert (H1 : calcfg_for r1) by (subst r1; repeat case_match; auto with values).
  clearbody r1. destruct (has_flag _ _).
  - set (r2 := if _ && _ then _ else _).
    assert (H2 : calcfg_for r2) by (subst r2; case_match; auto with values). clearbody r2.
    exists (if cc_Command r2 =? 0 then [] else [r2]). cbn [fst snd].
    split; [by destruct (cc_Command r2 =? 0)|].
    split; [destruct (cc_Command r2 =? 0); [constructor|by apply Forall_singleton]|].
    intros r'. destruct (_ =? _); [done|]. intros [= <-]. auto with values.
  - exists []. cbn. split_and!; [done|constructor|]. intros r'. destruct (_ =? _); [done|]. by intros [= <-].
Qed.

Lemma hp_temperature_ok t r : calcfg_for r →
  ∃ l, (hp_temperature x t r).1 = DeviceCalCfg <$> l ∧ Forall calcfg_for l
     ∧ ∀ r', (hp_temperature x t r).2 = Some r' → calcfg_for r'.
Proof using Type.
  intros Hr. unfold hp_temperature. destruct (in_program_mode x).
  - exists [with_temperature false t r]. split; [done|]. split; [by apply Forall_singleton, with_temperature_ok|].
    intros r' [= <-]. destruct (calcfg_sent _); auto with values.
  - exists []. split; [done|]. split; [constructor|]. intros r' [= <-]. auto with values.
Qed.

Lemma rgbw_set_ok color cb b on_off command wt :
  asked_ok true
    (channel_set_rgbw version caller group_id eol x color cb b on_off command wt).
Proof using Type.
  unfold channel_set_rgbw. destruct (is_rgbw_value_writable _); [|apply nothing_ok].
  destruct (rgbw_value x); [apply rgbw_ok|apply nothing_ok].
Qed.

Lemma set_on_ok on toggle :
  asked_ok true (channel_set_on version caller group_id eol x on toggle).
Proof using Hvalue.
  unfold channel_set_on. destruct (one_of _ switch_functions); [apply char_ok|].
  destruct (one_of _ rgbw_functions); [destruct (rgbw_value x); [apply rgbw_ok|apply nothing_ok]|].
  destruct (one_of _ switched_hvac_functions); [|apply nothing_ok].
  destruct (hvac_value x) as [v|] eqn:Ev; [|apply nothing_ok].
  apply hvac_no_gate in Ev as [Hg ->]. apply (asked_weaken false); [done|].
  by apply async_ok, switched_value.
Qed.

Lemma shading_ok action params :
  asked_ok true
    (shading_system_action version caller group_id eol x action params).
Proof using Type.
  unfold shading_system_action, apply_on_value.
  destruct (is_shading_func _); [|apply nothing_ok]. cbn [negb].
  destruct (shading_target _ _ _ _ _) as [position tilt].
  repeat case_match; simplify_eq; try apply nothing_ok; apply async_ok; split;
    rewrite ?length_fmap, ?length_insert, ?repeat_length; try done;
    apply Forall_fmap, Forall_forall; intros b _; apply u8_range.
Qed.

Lemma open_close_ok unknown open cancel :
  asked_ok cancel
    (action_open_close version caller group_id eol x unknown open cancel).
Proof using Hvalue.
  unfold action_open_close, open_close_unknown. destruct (negb _); [apply nothing_ok|].
  destruct unknown; [destruct (one_of _ _); [apply char_ok|apply nothing_ok]|].
  destruct (one_of _ gate_functions) eqn:Hg.
  { split; [by repeat constructor|]. by split; [cbn; lia|]. }
  destruct (one_of _ [_; _]); [apply char_ok|].
  destruct (func_of x =? _); [|apply nothing_ok]. apply asked_less, (asked_weaken false); [done|].
  apply char_ok.
Qed.

Lemma setpoint_value t v v' : setpoint x t v = Some v' → is_value v'.
Proof using Type.
  unfold setpoint, hvac_clear. intros Hs. repeat case_match; simplify_eq; auto with values.
Qed.

Lemma setpoints_value heating cooling v v' : setpoints x heating cooling v = Some v' → is_value v'.
Proof using Type.
  unfold setpoints, hvac_clear. intros Hs. repeat case_match; simplify_eq; auto with values.
Qed.

Lemma operation_ok op :
  asked_ok (match op with OpOpenCloseNoCancel => false | _ => true end)
    (channel_operation version caller group_id eol op x).
Proof using Hvalue.
  destruct op; cbn [channel_operation];
    try (apply set_on_ok || apply rgbw_set_ok || apply shading_ok || apply open_close_ok).
  - apply hp_or_hvac; [apply hp_parameters_ok|]. intros v v' _ [= <-].
    apply parameters_value. auto with values.
  - apply hp_or_hvac.
    + intros r Hr. exists []. split_and!; [done|constructor|]. intros r' [= <-]. by apply with_command_ok.
    + intros v v' _ [= <-]. apply mode_value. auto with values.
  - apply hp_or_hvac.
    + intros r Hr. exists []. split_and!; [done|constructor|]. intros r' [= <-]. by apply with_command_ok.
    + intros v v' _ [= <-]. apply mode_value. auto with values.
  - apply hp_or_hvac; [apply hp_temperature_ok|]. intros v v' _. apply setpoint_value.
  - apply action_hvac_ok. intros v v' _. apply setpoints_value.
Qed.

End aims.

(** ** What is switched *)

Lemma thermostat_class f : one_of f switched_hvac_functions = true →
  new_value f = HvacValue ∧ one_of f switch_functions = false ∧ one_of f rgbw_functions = false.
Proof using Type.
  clear. intros Hf.
  pose proof (by_functions switched_hvac_functions
    (λ f, match new_value f with HvacValue => true | _ => false end
          && negb (one_of f switch_functions) && negb (one_of f rgbw_functions)) f eq_refl Hf) as H.
  apply andb_true_iff in H as [[H1 H2%negb_true_iff]%andb_true_iff H3%negb_true_iff].
  by destruct (new_value f).
Qed.

(** A thermostat runs in these modes, for whom toggles it. *)
Definition thermostat_runs (v : list Z) : bool :=
  one_of (get_mode v) [SUPLA_HVAC_MODE_HEAT; SUPLA_HVAC_MODE_COOL; SUPLA_HVAC_MODE_HEAT_COOL;
                       SUPLA_HVAC_MODE_FAN_ONLY; SUPLA_HVAC_MODE_DRY; SUPLA_HVAC_MODE_CMD_TURN_ON].

Lemma hvac_switched_mode on toggle v : is_value v →
  get_mode (hvac_switched on toggle v)
  = (if (if toggle then negb (thermostat_runs v) else on)
     then SUPLA_HVAC_MODE_CMD_TURN_ON else SUPLA_HVAC_MODE_OFF)
  ∧ ∀ i, i ≠ 1%nat → byte_at i (hvac_switched on toggle v) = byte_at i v.
Proof using Type.
  clear. intros [Hl _]. unfold value_size in Hl.
  assert (H : ∀ m, m = SUPLA_HVAC_MODE_CMD_TURN_ON ∨ m = SUPLA_HVAC_MODE_OFF →
            get_mode (set_mode m v) = m ∧ ∀ i, i ≠ 1%nat → byte_at i (set_mode m v) = byte_at i v).
  { intros m Hm. assert (E : set_mode m v = set_byte 1 m v) by (by destruct Hm as [-> | ->]).
    rewrite E. unfold get_mode. rewrite byte_at_set by lia. split; [by destruct Hm as [-> | ->]|].
    intros i Hi. destruct (decide (i < 8)%nat).
    - rewrite byte_at_set by lia. by destruct (Nat.eqb_spec 1 i).
    - unfold byte_at. rewrite !nth_overflow; [done|lia|rewrite set_byte_length; lia]. }
  unfold hvac_switched, hvac_toggle. fold (thermostat_runs v).
  destruct toggle; [destruct (thermostat_runs v)|destruct on]; apply H; auto.
Qed.

(** C15. What is switched is switched. To turn a channel on or off, or to toggle it, sends requests to
    this channel only, which tell who asks as the version of the device lets them. For a switch, a
    thermostat of the older kind or a lamp it succeeds and asks for one value of eight bytes; and
    when the device reports this value - and no value has been given for a time only - the channel
    is on if that was asked for, or if it was off before it was toggled. For the other thermostats
    it succeeds and asks for the value as it is with another mode: to be turned on if that was
    asked for, or if the mode is none of those in which it runs when it is toggled, otherwise to be
    off. For all other functions, also for dryers and fans, it fails and asks for nothing. The
    channel has eight bytes, and those of a lamp that are percentages are not above 127. *)
Theorem switched version caller group eol x on toggle : is_value (d_value x) →
  (one_of (func_of x) rgbw_functions = true → lamp_ok x) →
  let '(ok, requests) := channel_set_on version caller group eol x on toggle in
  Forall (aims_at version caller group x) requests ∧
  if one_of (func_of x) switch_functions || one_of (func_of x) rgbw_functions then
    ok = true ∧ ∃ v, omap value_of requests = [v] ∧ is_value v
    ∧ ∀ now version', d_valid_to x = timeval_zero →
      channel_is_on (reported now version' v x) = if toggle then negb (channel_is_on x) else on
  else if one_of (func_of x) switched_hvac_functions then
    ok = true ∧ ∃ v, omap value_of requests = [v] ∧ is_value v
    ∧ get_mode v = (if (if toggle then negb (thermostat_runs (d_value x)) else on)
                    then SUPLA_HVAC_MODE_CMD_TURN_ON else SUPLA_HVAC_MODE_OFF)
    ∧ ∀ i, i ≠ 1%nat → byte_at i v = byte_at i (d_value x)
  else ok = false ∧ requests = [].
Proof using Type.
  intros Hv Hl. destruct (set_on_ok version caller group eol x Hv on toggle) as (Haims & _).
  destruct (channel_set_on version caller group eol x on toggle) as [ok requests] eqn:Eon.
  split; [done|]. destruct (_ || _) eqn:Hf.
  - assert (H : ∃ v, channel_set_on version caller group eol x on toggle
                     = (true, async_set_value version caller group eol x v true) ∧ is_value v
      ∧ ∀ now version', d_valid_to x = timeval_zero →
        channel_is_on (reported now version' v x) = if toggle then negb (channel_is_on x) else on).
    { apply orb_true_iff in Hf as [Hf | Hf]; [by apply switch_on_asked|apply lamp_on_asked; auto]. }
    destruct H as (v & E' & H). rewrite Eon in E'. injection E' as -> ->. split; [done|]. exists v.
    unfold async_set_value. by rewrite values_of_request.
  - apply orb_false_iff in Hf as [Hs Hr]. unfold channel_set_on in Eon. rewrite Hs, Hr in Eon.
    destruct (one_of (func_of x) switched_hvac_functions) eqn:Ht; [|by injection Eon as <- <-].
    unfold hvac_value in Eon. rewrite (proj1 (thermostat_class _ Ht)) in Eon.
    injection Eon as <- <-.
    split; [done|]. exists (hvac_switched on toggle (d_value x)). unfold async_set_value.
    rewrite values_of_request. split_and!; [done|by apply switched_value|..]; by apply hvac_switched_mode.
Qed.

(** ** Groups *)

Lemma elem_of_group g p members : p ∈ find_channels g members ↔ (g, p) ∈ members.
Proof using Type.
  clear. unfold find_channels. rewrite list_elem_of_fmap. split.
  - intros ([g' p'] & -> & [<- H]%list_elem_of_filter). done.
  - intros H. exists (g, p). split; [done|]. by apply list_elem_of_filter.
Qed.

Lemma elem_of_sorted p l : p ∈ merge_sort dcpair_compare l ↔ p ∈ l.
Proof using Type. clear. by rewrite (merge_sort_Permutation dcpair_compare l). Qed.

Lemma get_device_id i (ds : list device) d : get_device i 0 ds = Some d → d ∈ ds ∧ device_id d = i.
Proof using Type.
  clear. intros H. split; [by eapply get_device_elem|]. unfold get_device in H.
  destruct (negb (i =? 0)); [|done]. by apply find_first_Some in H as [?%Z.eqb_eq _].
Qed.

Lemma pairs_asked at_end ds f pairs id r :
  (id, r) ∈ (for_each_pair at_end ds false f pairs).2 →
  ∃ p d eol, p ∈ pairs ∧ get_device p.1 0 ds = Some d ∧ id = p.1 ∧ r ∈ (f d p.2 eol).2.
Proof using Type.
  clear. induction pairs as [|p pairs IH]; cbn [for_each_pair]; [by intros ?%elem_of_nil|].
  destruct (get_device p.1 0 ds) as [d|] eqn:Ed.
  - destruct (f d p.2 (last_one at_end (p :: pairs))) as [ok reqs] eqn:Ef. cbn [andb].
    destruct (for_each_pair at_end ds false f pairs) as [ok' reqs']. cbn [snd] in *.
    intros [H | H]%elem_of_app.
    + apply list_elem_of_fmap in H as (r' & [= -> ->] & Hr).
      exists p, d, (last_one at_end (p :: pairs)). rewrite Ef. split_and!; [left|done|..|done].
      by apply get_device_id in Ed as [_ ->].
    + destruct (IH H) as (q & d' & eol & Hq & Hrest). exists q, d', eol. by split; [right|].
  - cbn [andb]. destruct (for_each_pair at_end ds false f pairs) as [ok' reqs'].
    cbn [snd app] in *. intros H. destruct (IH H) as (q & d' & eol & Hq & Hrest).
    exists q, d', eol. by split; [right|].
Qed.

Lemma pairs_reached at_end ds f pairs p d : p ∈ pairs → get_device p.1 0 ds = Some d →
  ∃ eol, ∀ r, r ∈ (f d p.2 eol).2 → (p.1, r) ∈ (for_each_pair at_end ds false f pairs).2.
Proof using Type.
  clear. induction pairs as [|q pairs IH]; [by intros ?%elem_of_nil|].
  intros [-> | Hp]%elem_of_cons Hd.
  - exists (last_one at_end (q :: pairs)). cbn [for_each_pair]. rewrite Hd. intros r.
    destruct (f d q.2 _) as [ok reqs], (for_each_pair at_end ds false f pairs) as [ok' reqs'].
    cbn. intros Hr. apply elem_of_app. left. apply get_device_id in Hd as [_ <-].
    by apply list_elem_of_fmap_2.
  - destruct (IH Hp Hd) as [eol H]. exists eol. intros r Hr. specialize (H r Hr). cbn [for_each_pair].
    destruct (match get_device q.1 0 ds with Some _ => _ | None => _ end) as [ok reqs]. cbn [andb].
    destruct (for_each_pair at_end ds false f pairs) as [ok' reqs']. cbn in *.
    apply elem_of_app. by right.
Qed.

Lemma any_pair at_end ds g pairs :
  (for_each_pair at_end ds true (λ d c _, (g d c, [])) pairs).1 = true ↔
  ∃ p d, p ∈ pairs ∧ get_device p.1 0 ds = Some d ∧ g d p.2 = true.
Proof using Type.
  clear. induction pairs as [|q pairs IH]; cbn [for_each_pair].
  { split; [done|]. by intros (p & d & ?%elem_of_nil & _). }
  destruct (get_device q.1 0 ds) as [d|] eqn:Ed; cbn [andb].
  - destruct (g d q.2) eqn:Eg.
    + split; [|done]. intros _. exists q, d. split_and!; [left|done..].
    + destruct (for_each_pair _ _ _ _ _) as [ok reqs]. cbn in *. rewrite IH. split.
      * intros (p & d' & Hp & H). exists p, d'. by split; [right|].
      * intros (p & d' & [-> | Hp]%elem_of_cons & Hd & H); [congruence|]. by exists p, d'.
  - destruct (for_each_pair _ _ _ _ _) as [ok reqs]. cbn in *. rewrite IH. split.
    + intros (p & d' & Hp & H). exists p, d'. by split; [right|].
    + intros (p & d' & [-> | Hp]%elem_of_cons & Hd & H); [congruence|]. by exists p, d'.
Qed.

Lemma operation_aims version caller group eol op c d r :
  (∀ x, x ∈ d_channels d → is_value (d_value x)) →
  r ∈ (run_operation version caller group eol op c d).2 →
  ∃ x, find_channel c d = Some x ∧ aims_at version caller group x r.
Proof using Type.
  clear value_config_of new_ic_extended. intros Hv. unfold run_operation.
  destruct (find_channel c d) as [x|] eqn:Ex; [|by intros ?%elem_of_nil].
  intros Hr. exists x. split; [done|].
  assert (Hx : is_value (d_value x)) by (apply Hv; by apply find_channel_Some in Ex as (_ & _ & ?)).
  destruct (operation_ok version caller group eol x Hx op) as [H _].
  rewrite Forall_forall in H. by apply H.
Qed.

(** C16. A command reaches whom it is for, and nobody else. Whatever the executor of actions commands,
    each request goes to a device that is connected, for a channel that it has: the one that was named,
    or one of those in the group that was named. A value has eight bytes and tells who asks as the
    version of the device lets it; the requests of configuration with which thermostats of the
    older kind are commanded name nobody. *)
Theorem commands_aim at_end ds members cmd id r :
  (∀ d x, d ∈ ds → x ∈ d_channels d → is_value (d_value x)) →
  (id, r) ∈ run_command at_end ds members cmd →
  ∃ d x, d ∈ ds ∧ device_id d = id ∧ find_channel (channel_id x) d = Some x ∧
    match cmd with
    | ToChannel c dev ch _ => id = dev ∧ channel_id x = ch ∧ aims_at (device_version d) c 0 x r
    | ToGroup c _ g _ => (g, (id, channel_id x)) ∈ members ∧ aims_at (device_version d) c g x r
    | _ => False
    end.
Proof using Type.
  clear value_config_of new_ic_extended. intros Hv.
  destruct cmd as [c u g op | c dev ch op | | | | | |]; cbn [run_command];
    try by intros ?%elem_of_nil.
  - unfold group_operation, for_group, for_each_channel.
    intros (p & d & eol & Hp & Hd & -> & Hr)%pairs_asked.
    apply get_device_id in Hd as [Hd Hi]. rewrite elem_of_sorted, elem_of_group in Hp.
    apply operation_aims in Hr as (x & Hx & Ha); [|by intros; eapply Hv].
    assert (Hc : channel_id x = p.2) by (by apply find_channel_Some in Hx as (? & _)).
    exists d, x. rewrite Hc. split_and!; try done. by destruct p.
  - destruct (get_device dev 0 ds) as [d|] eqn:Ed; [|by intros ?%elem_of_nil].
    apply get_device_id in Ed as [Hd Hi]. intros (r' & [= -> ->] & Hr)%list_elem_of_fmap.
    apply operation_aims in Hr as (x & Hx & Ha); [|by intros; eapply Hv].
    assert (Hc : channel_id x = ch) by (by apply find_channel_Some in Hx as (? & _)).
    exists d, x. by rewrite Hc.
Qed.

(** What the theorem of switches needs of a channel. *)
Definition can_switch (x : dchannel) : Prop :=
  is_value (d_value x) ∧ (one_of (func_of x) rgbw_functions = true → lamp_ok x)
  ∧ d_valid_to x = timeval_zero
  ∧ one_of (func_of x) switch_functions || one_of (func_of x) rgbw_functions = true.

Lemma switched_request version caller group eol x on : can_switch x →
  ∃ v r, r ∈ (channel_set_on version caller group eol x on false).2
  ∧ aims_at version caller group x r ∧ value_of r = Some v
  ∧ ∀ now version', channel_is_on (reported now version' v x) = on.
Proof using Type.
  intros (Hv & Hl & Hx & Hf).
  assert (H : ∃ v, channel_set_on version caller group eol x on false
                   = (true, async_set_value version caller group eol x v true) ∧ is_value v
    ∧ ∀ now version', d_valid_to x = timeval_zero →
      channel_is_on (reported now version' v x) = on).
  { apply orb_true_iff in Hf as [Hf | Hf];
      [by apply (switch_on_asked _ _ _ _ _ _ false)|apply (lamp_on_asked _ _ _ _ _ _ false); auto]. }
  destruct H as (v & Eon & _ & H).
  assert (Hin : v ∈ omap value_of (async_set_value version caller group eol x v true)).
  { unfold async_set_value. rewrite values_of_request. by apply list_elem_of_singleton. }
  apply list_elem_of_omap in Hin as (r & Hr & Er). exists v, r.
  destruct (set_on_ok version caller group eol x Hv on false) as (Haims & _).
  rewrite Forall_forall in Haims. specialize (Haims r).
  rewrite Eon in Haims |- *. split_and!; [done|by apply Haims|done|]. intros. by apply H.
Qed.

(** C28. A group is toggled as one. To toggle a group of switches and lamps asks the device of each
    channel of it, if it is connected, for a value of this channel; and when they report their
    values, all of them are off if any of them was on, and all of them are on if none was. No
    channel of the group has a value that was given for a time only, and the percentages of lamps
    are not above 127 ([can_switch]). *)
Theorem group_toggled at_end ds members caller group dev c d x :
  (∀ dev c d x, (group, (dev, c)) ∈ members → get_device dev 0 ds = Some d →
     find_channel c d = Some x → can_switch x) →
  (group, (dev, c)) ∈ members → get_device dev 0 ds = Some d → find_channel c d = Some x →
  let any := any_on at_end ds members group in
  (any = true ↔ ∃ dev c d x, (group, (dev, c)) ∈ members ∧ get_device dev 0 ds = Some d ∧
     find_channel c d = Some x ∧ channel_is_on x = true) ∧
  ∃ v r, (dev, r) ∈ (group_operation at_end ds members caller group OpToggle).2 ∧
    aims_at (device_version d) caller group x r ∧ value_of r = Some v ∧
    ∀ now version', channel_is_on (reported now version' v x) = negb any.
Proof using Type.
  intros Hall Hm Hd Hx any. split.
  - subst any. unfold any_on, for_each_channel.
    rewrite (any_pair at_end ds (λ d c, match find_channel c d with
                                        | Some x => channel_is_on x | None => false end)).
    split.
    + intros ([dev' c'] & d' & Hp & Hd' & Hon). rewrite elem_of_sorted, elem_of_group in Hp.
      cbn [fst snd] in *. destruct (find_channel c' d') as [x'|] eqn:Ex; [|done].
      by exists dev', c', d', x'.
    + intros (dev' & c' & d' & x' & Hp & Hd' & Hx' & Hon). exists (dev', c'), d'.
      rewrite elem_of_sorted, elem_of_group. cbn [fst snd]. by rewrite Hx'.
  - unfold group_operation, for_group, for_each_channel. fold any.
    destruct (pairs_reached at_end ds
      (λ d c eol, run_operation (device_version d) caller group (Z.b2z eol) (OpSetOn (negb any)) c d)
      (merge_sort dcpair_compare (find_channels group members)) (dev, c) d) as [eol H]; [|done|].
    { by rewrite elem_of_sorted, elem_of_group. }
    destruct (switched_request (device_version d) caller group (Z.b2z eol) x (negb any))
      as (v & r & Hr & Har & Hvr & Hon); [by eapply Hall|].
    exists v, r. split; [|done]. apply H. cbn [fst snd]. unfold run_operation. by rewrite Hx.
Qed.

(** A value for a gate comes with the end of its tasks, unless a task sent it. *)
Lemma gate_tasks_cancelled version caller group eol op x v : is_value (d_value x) →
  one_of (func_of x) gate_functions = true → op ≠ OpOpenCloseNoCancel →
  v ∈ omap value_of (channel_operation version caller group eol op x).2 →
  CancelTasks (channel_id x) ∈ (channel_operation version caller group eol op x).2.
Proof using Type.
  clear value_config_of new_ic_extended. intros Hv Hf Hop Hin.
  destruct (operation_ok version caller group eol x Hv op) as (_ & _ & H).
  apply H; [by destruct op|done|]. intros H0. rewrite H0 in Hin. by apply elem_of_nil in Hin.
Qed.

(** The time of a switch is armed without a look whether the channel exists. *)
Lemma timer_arm_faults version caller group eol c d on duration : find_channel c d = None →
  timer_arm version caller group eol (find_channel c d) on duration = None.
Proof using Type. clear. by intros ->. Qed.

End requests.

(** ** Examples *)

Definition example_channel (id number func : Z) (value : list Z) : dchannel (E:=unit) (J:=unit) :=
  DChannel (Props id number 1 0 func 0 0 0 None None None None) 0 () value
    SUPLA_CHANNEL_OFFLINE_FLAG_ONLINE timeval_zero None.

Definition example_lights : list (device (E:=unit) (J:=unit)) :=
  [Device 2 20 [example_channel 21 0 SUPLA_CHANNELFNC_LIGHTSWITCH (set_byte 0 1 zeros);
                example_channel 22 1 SUPLA_CHANNELFNC_DIMMER zeros;
                example_channel 23 2 SUPLA_CHANNELFNC_HVAC_THERMOSTAT
                  (set_mode SUPLA_HVAC_MODE_HEAT zeros)]].

Definition run (at_end : Z) (members : list (Z * (Z * Z))) (cmd : command) : list (Z * request) :=
  run_command (λ _ : unit, 0) (λ _, 0) (λ _ _, None) (λ _ : unit, None) (λ _, 0) (λ _, true)
    at_end example_lights members cmd.

Definition example_members : list (Z * (Z * Z)) := [(7, (2, 22)); (8, (2, 23)); (7, (2, 21))].

Definition example_client : supla_caller := Caller None ctClient 5 ""%string.

Lemma example_values (d : device (E:=unit) (J:=unit)) x :
  d ∈ example_lights → x ∈ d_channels d → is_value (d_value x).
Proof.
  intros ->%list_elem_of_singleton [-> | [-> | ->%list_elem_of_singleton]%elem_of_cons]%elem_of_cons;
    (split; [done|by repeat constructor]).
Qed.


(** The light is on: to toggle the group asks both to be off. *)
Lemma commands_aim_witness :
  ∃ d x, d ∈ example_lights ∧ device_id d = 2 ∧ find_channel (p_id (d_props x)) d = Some x ∧
    (7, (2, p_id (d_props x))) ∈ example_members
    ∧ aims_at (device_version d) example_client 7 x
        (ChannelGroupNewValue 5 7 1 1 0 [0; 0; 0; 0; 0; 1; 0; 0]).
Proof.
  apply (commands_aim (λ _ : unit, 0) (λ _, 0) (λ _ _, None) (λ _ : unit, None) (λ _, 0) (λ _, true)
    0 example_lights example_members (ToGroup example_client 1 7 OpToggle) 2); [exact example_values|].
  vm_compute. right. left.
Defined.

Lemma switched_witness :
  let x := example_channel 22 1 SUPLA_CHANNELFNC_DIMMER zeros in
  let '(ok, requests) := channel_set_on (λ _ : unit, 0) (λ _, 0) 20 example_client 0 0 x false true in
  Forall (aims_at 20 example_client 0 x) requests ∧
  ok = true ∧ ∃ v, omap value_of requests = [v] ∧ is_value v
  ∧ ∀ now version', d_valid_to x = timeval_zero →
      channel_is_on (reported plain_config no_extended now version' v x) = true.
Proof.
  apply (switched (λ _ : unit, 0) (λ _, 0) plain_config no_extended 20 example_client 0 0
    (example_channel 22 1 SUPLA_CHANNELFNC_DIMMER zeros) false true); [exact zeros_value|by split].
Defined.

Lemma group_toggled_witness :
  ∃ v r,
    (2, r) ∈ (group_operation (λ _ : unit, 0) (λ _, 0) (λ _ _, None) (λ _ : unit, None) (λ _, 0)
                (λ _, true) 0 example_lights example_members example_client 7 OpToggle).2
    ∧ aims_at 20 example_client 7 (example_channel 22 1 SUPLA_CHANNELFNC_DIMMER zeros) r
    ∧ value_of r = Some v
    ∧ ∀ now version',
        channel_is_on (reported plain_config no_extended now version' v
                         (example_channel 22 1 SUPLA_CHANNELFNC_DIMMER zeros)) = false.
Proof.
  refine (proj2 (group_toggled (λ _ : unit, 0) (λ _, 0) (λ _ _, None) (λ _ : unit, None) (λ _, 0)
    (λ _, true) plain_config no_extended 0 example_lights example_members example_client 7 2 22
    (Device 2 20 _) _ _ _ _ _)); [|by left|reflexivity|reflexivity].
  intros dev c d x [[= -> ->] | [[=] | [[= -> ->] | []%elem_of_nil]%elem_of_cons]%elem_of_cons]%elem_of_cons;
    intros [= <-] [= <-]; (split; [eapply example_values; [by left|]|by split]).
  - right. left.
  - left.
Defined.

(** A thermostat never counts as being on: to toggle a group of them turns on one that is on. *)
Lemma thermostats_turned_on :
  get_mode (set_mode SUPLA_HVAC_MODE_HEAT zeros) = SUPLA_HVAC_MODE_HEAT
  ∧ run 0 example_members (ToGroup example_client 1 8 OpToggle)
    = [(2, ChannelGroupNewValue 5 8 1 2 0 (set_mode SUPLA_HVAC_MODE_CMD_TURN_ON zeros))]
  ∧ run 0 example_members (ToChannel example_client 2 23 OpToggle)
    = [(2, ChannelNewValue 5 2 0 (set_mode SUPLA_HVAC_MODE_OFF zeros))].
Proof. split_and!; by vm_compute. Qed.

(** If what is read past the end happens to be the identifier of the last device, no channel is
    marked as the last one. *)
Lemma last_mark_missing :
  Forall (λ '(_, r), match r with ChannelGroupNewValue _ _ eol _ _ _ => eol = 0 | _ => False end)
    (run 2 example_members (ToGroup example_client 1 7 OpToggle)).
Proof. vm_compute. repeat constructor. Qed.
