(* ===== verification/Throttling.v ===== *)
(** * Throttling: how often the server speaks to the outside

    push/pn_throttling.cpp, the delivery of a push notification (push/pn_delivery_task.cpp,
    push/abstract_pn_gateway_client.cpp) and http/http_throttling.cpp with its subclasses: a
    limit of notifications per user in a window of time, and delays of the requests that report
    changes of a channel. *)

From S2P Require Import Prelude ChannelFunctions.

#[local] Open Scope list_scope.
#[local] Open Scope Z_scope.

(** ** The limit of notifications *)

Record pn_item := PnItem {
  pn_user : Z; pn_first_time : timeval; pn_limit : Z; pn_counter : Z
}.

Definition of_user (user_id : Z) (it : pn_item) : bool := pn_user it =? user_id.

(** [now] is the time, [dao_limit] the limit that the database gives, and [window] the length of
    the window in seconds. The results are those of the function, [first_time_exceeded] and
    [limit]. *)
Definition count_attempt (window : Z) (now : timeval) (dao_limit : Z) (it : pn_item) : pn_item :=
  let first := if negb (tv_sec (pn_first_time it) =? 0)
                  && (window <=? tv_sec now - tv_sec (pn_first_time it))
               then timeval_zero else pn_first_time it in
  if tv_sec first =? 0 then PnItem (pn_user it) now dao_limit 1
  else PnItem (pn_user it) first (pn_limit it) (u32 (pn_counter it + 1)).

Definition is_delivery_possible (window : Z) (user_id : Z) (now : timeval) (dao_limit : Z)
    (items : list pn_item) : bool * bool * Z * list pn_item :=
  let new := PnItem user_id timeval_zero 0 0 in
  let items := match find_first (of_user user_id) items with
               | Some _ => items
               | None => items ++ [new]
               end in
  let it := count_attempt window now dao_limit
              (default new (find_first (of_user user_id) items)) in
  let result := pn_counter it <=? pn_limit it in
  (result, negb result && (pn_counter it =? u32 (pn_limit it + 1)), pn_limit it,
   update_first (of_user user_id) (count_attempt window now dao_limit) items).

Definition take_back (it : pn_item) : pn_item :=
  if 0 <? pn_counter it
  then PnItem (pn_user it) (pn_first_time it) (pn_limit it) (pn_counter it - 1) else it.

Definition on_message_not_sent (user_id : Z) (items : list pn_item) : list pn_item :=
  update_first (of_user user_id) take_back items.

Definition get_user_count (items : list pn_item) : Z := Z.of_nat (length items).

Definition get_count (user_id : Z) (items : list pn_item) : Z :=
  match find_first (of_user user_id) items with Some it => pn_counter it | None => 0 end.

(** The limit, and what is left of it. *)
Definition get_limit (user_id : Z) (dao_limit : Z) (items : list pn_item) : Z * Z :=
  match find_first (of_user user_id) items with
  | Some it => if pn_limit it =? 0 then (dao_limit, dao_limit)
               else (pn_limit it, pn_limit it - pn_counter it)
  | None => (dao_limit, dao_limit)
  end.

(** ** Delivery *)

(** What comes of sending to one recipient; a recipient that does not exist is left out, an
    exception ends the loop. *)
Inductive outcome := Missing | Failed | Delivered | Aborted.

(** [send] of a gateway's client: whether anything was sent, and the result. *)
Fixpoint send_loop (l : list outcome) (any_sent any_error : bool) : bool * bool :=
  match l with
  | [] => (any_sent, any_error)
  | Missing :: l => send_loop l any_sent any_error
  | Failed :: l => send_loop l any_sent true
  | Delivered :: l => send_loop l true any_error
  | Aborted :: l => (any_sent, true)
  end.

Definition send (l : list outcome) : bool * bool :=
  let '(any_sent, any_error) := send_loop l false false in (any_sent, any_sent && negb any_error).

(** A notification, with the recipients that are found for it. *)
Record request := Request { r_user : Z; r_android : list outcome; r_ios : list outcome }.

(** What the limit says of a notification: there is nobody to send it to, it is sent, the user
    is told of the limit, nothing is sent. *)
Inductive verdict := Nobody | Granted | LimitExceeded | Refused.

#[export] Instance verdict_eq_dec : EqDecision verdict.
Proof. solve_decision. Defined.

(** [make_request], until the gateways are called, and after that. *)
Definition request_begin (window : Z) (r : request) (now : timeval) (dao_limit : Z)
    (items : list pn_item) : verdict * list pn_item :=
  match r_android r ++ r_ios r with
  | [] => (Nobody, items)
  | _ =>
      let '(possible, first_time_exceeded, _, items) :=
        is_delivery_possible window (r_user r) now dao_limit items in
      (if possible then Granted else if first_time_exceeded then LimitExceeded else Refused, items)
  end.

Definition recipients_of (v : verdict) (r : request) : list outcome * list outcome :=
  match v with
  | Refused => ([], [])
  | _ => (r_android r, r_ios r)
  end.

(** [any_sent] as it is in the end: [send] sets it to false first. *)
Definition any_sent_of (android ios : list outcome) : bool :=
  let any_sent := false in
  let any_sent := match android with [] => any_sent | _ => (send android).1 end in
  match ios with [] => any_sent | _ => (send ios).1 end.

Definition request_end (v : verdict) (r : request) (items : list pn_item) : bool * list pn_item :=
  let '(android, ios) := recipients_of v r in
  let result := match android, ios with
                | [], [] => false
                | _, _ => match android with [] => true | _ => (send android).2 end
                          && match ios with [] => true | _ => (send ios).2 end
                end in
  (result,
   if any_sent_of android ios then items else on_message_not_sent (r_user r) items).

(** Whether somebody was sent the notification. *)
Definition reached (v : verdict) (r : request) : bool :=
  let '(android, ios) := recipients_of v r in (send android).1 || (send ios).1.

(** *** The threads that deliver *)

Record pn_world := PnWorld {
  pn_items : list pn_item;
  pn_pending : gmap nat (request * verdict);
  (** the notifications that reached somebody, by their user, and what they were *)
  pn_log : list (Z * verdict)
}.

Inductive pn_event :=
  | Begin (t : nat) (r : request) (now : timeval) (dao_limit : Z)
  | End_ (t : nat).

Definition pn_step (window : Z) (e : pn_event) (w : pn_world) : option pn_world :=
  match e with
  | Begin t r now dao_limit =>
      match pn_pending w !! t with
      | Some _ => None
      | None =>
          let '(v, items) := request_begin window r now dao_limit (pn_items w) in
          Some (PnWorld items (<[t := (r, v)]> (pn_pending w)) (pn_log w))
      end
  | End_ t =>
      '(r, v) ← pn_pending w !! t;
      Some (PnWorld (request_end v r (pn_items w)).2 (delete t (pn_pending w))
              (if reached v r then pn_log w ++ [(r_user r, v)] else pn_log w))
  end.

Fixpoint pn_steps (window : Z) (l : list pn_event) (w : pn_world) : option pn_world :=
  match l with [] => Some w | e :: l => w ← pn_step window e w; pn_steps window l w end.

(** ** Titles and bodies *)

(** [trim], by recursion as it is written; a text is its bytes. *)
Fixpoint trim (fuel : nat) (title body : list Z) : option (list Z * list Z) :=
  match fuel with
  | O => None
  | S fuel =>
      let dots := [46; 46; 46] in
      let len (s : list Z) := Z.of_nat (length s) in
      let size := len title + len body in
      if 3000 <? size then
        let title_is_longer := len body <? len title in
        let str_to_crop := if title_is_longer then title else body in
        let size := size - 3000 + len dots in
        if size <=? len str_to_crop then
          let cropped := take (Z.to_nat (len str_to_crop - size)) str_to_crop ++ dots in
          Some (if title_is_longer then (cropped, body) else (title, cropped))
        else if title_is_longer then trim fuel dots body else trim fuel title dots
      else Some (title, body)
  end.

(** ** The limit is kept *)

Section counts.
Context {A : Type}.
Implicit Types (P : A → bool) (m : gmap nat A).

Definition count P m : nat := size (filter (λ '(_, x), P x = true) m).

Lemma count_insert P m t x : m !! t = None →
  count P (<[t := x]> m) = (Nat.b2n (P x) + count P m)%nat.
Proof.
  intros Ht. unfold count. rewrite map_filter_insert. destruct (decide _) as [E|E].
  - rewrite E, map_size_insert_None; [done|]. apply map_lookup_filter_None. by left.
  - apply not_true_is_false in E. rewrite E. by rewrite delete_id.
Qed.

Lemma count_delete P m t x : m !! t = Some x →
  count P m = (Nat.b2n (P x) + count P (delete t m))%nat.
Proof.
  intros Ht. rewrite <- (count_insert P (delete t m) t x) by apply lookup_delete_eq.
  by rewrite insert_delete_eq, insert_id.
Qed.
End counts.

Section window.
Context (window : Z) (u : Z) (first : timeval) (limit : Z).

Definition pending_of (p : request * verdict) : bool := r_user p.1 =? u.
Definition granted_to (p : request * verdict) : bool :=
  (r_user p.1 =? u) && bool_decide (p.2 = Granted).
Definition told_to (p : request * verdict) : bool :=
  (r_user p.1 =? u) && bool_decide (p.2 ≠ Refused).
Definition logged (l : list (Z * verdict)) : nat := length (filter (λ p, p.1 = u) l).
Definition delivered (l : list (Z * verdict)) : nat := length (filter (λ p, p = (u, Granted)) l).

(** A notification that somebody may get, and all whom it goes to with the same system. *)
Definition one_platform (r : request) : Prop :=
  r_android r ++ r_ios r ≠ [] ∧ (r_android r = [] ∨ r_ios r = []).

Definition fair_event (e : pn_event) : Prop :=
  match e with
  | Begin t r now dao_limit =>
      r_user r = u → one_platform r ∧ tv_sec now - tv_sec first < window
  | End_ t => True
  end.

(** Since the window was opened, when the log was [l0], there were [n] attempts at most. *)
Definition in_window (l0 : list (Z * verdict)) (n : nat) (w : pn_world) : Prop :=
  (∀ t p, pn_pending w !! t = Some p → r_user p.1 = u → one_platform p.1 ∧ p.2 ≠ Nobody) ∧
  ∃ l, pn_log w = l0 ++ l ∧ (logged l + count pending_of (pn_pending w) <= n)%nat ∧
    Z.of_nat (delivered l) + Z.of_nat (count granted_to (pn_pending w)) <= limit ∧
    Z.of_nat (logged l) + Z.of_nat (count told_to (pn_pending w)) <= limit + 1 ∧
    find_first (of_user u) (pn_items w) = Some (PnItem u first limit
      (Z.of_nat (logged l) + Z.of_nat (count pending_of (pn_pending w)))).

(** What can have been granted has been counted. *)
Lemma delivered_logged l : (delivered l <= logged l)%nat.
Proof.
  unfold delivered, logged. induction l as [|p l IH]; [done|]. rewrite !filter_cons.
  destruct (decide (p = (u, Granted))) as [->|]; [rewrite decide_True by done; cbn; lia|].
  destruct (decide _); cbn; lia.
Qed.

Lemma granted_pending (m : gmap nat (request * verdict)) : (count granted_to m <= count pending_of m)%nat.
Proof.
  induction m as [|t p m Ht IH] using map_ind; [done|].
  rewrite !count_insert by done.
  assert (Nat.b2n (granted_to p) <= Nat.b2n (pending_of p))%nat; [|lia].
  unfold granted_to, pending_of. destruct (r_user p.1 =? u), (bool_decide _); cbn; lia.
Qed.

Lemma told_pending (m : gmap nat (request * verdict)) : (count told_to m <= count pending_of m)%nat.
Proof.
  induction m as [|t p m Ht IH] using map_ind; [done|].
  rewrite !count_insert by done.
  assert (Nat.b2n (told_to p) <= Nat.b2n (pending_of p))%nat; [|lia].
  unfold told_to, pending_of. destruct (r_user p.1 =? u), (bool_decide _); cbn; lia.
Qed.

Lemma told_pair r v : told_to (r, v) = (r_user r =? u) && bool_decide (v ≠ Refused).
Proof. done. Qed.

Lemma granted_pair r v : granted_to (r, v) = (r_user r =? u) && bool_decide (v = Granted).
Proof. done. Qed.

Lemma pending_pair r v : pending_of (r, v) = (r_user r =? u).
Proof. done. Qed.

(** The other users. *)
Lemma other_item it v : v ≠ u → of_user v it = true → of_user u it = false.
Proof. unfold of_user. lia. Qed.

Lemma count_attempt_user now dl it : pn_user (count_attempt window now dl it) = pn_user it.
Proof. unfold count_attempt. by destruct (tv_sec _ =? 0). Qed.

Lemma take_back_user it : pn_user (take_back it) = pn_user it.
Proof. unfold take_back. by destruct (0 <? _). Qed.

Lemma find_other_begin r now dl items : r_user r ≠ u →
  find_first (of_user u) (request_begin window r now dl items).2 = find_first (of_user u) items.
Proof.
  intros Hu. unfold request_begin. destruct (_ ++ _); [done|]. unfold is_delivery_possible. cbn [snd].
  rewrite find_first_update_ne.
  - destruct (find_first (of_user (r_user r)) items); [done|]. rewrite find_first_app.
    destruct (find_first (of_user u) items); [done|]. cbn. unfold of_user. cbn.
    by replace (r_user r =? u) with false by lia.
  - intros it. by apply other_item.
  - intros it Hi. unfold of_user in *. rewrite count_attempt_user. lia.
Qed.

Lemma find_other_end v r items : r_user r ≠ u →
  find_first (of_user u) (request_end v r items).2 = find_first (of_user u) items.
Proof.
  intros Hu. unfold request_end. destruct (recipients_of v r) as [a i].
  cbn [snd]. destruct (any_sent_of a i); [done|]. unfold on_message_not_sent.
  apply find_first_update_ne; [intros it; by apply other_item|].
  intros it Hi. unfold of_user in *. rewrite take_back_user. lia.
Qed.

(** Whether anything was sent is what [any_sent] says. *)
Lemma any_sent_reached v r : one_platform r → v ≠ Nobody →
  let '(a, i) := recipients_of v r in any_sent_of a i = reached v r.
Proof.
  intros [_ Hp] _. unfold reached. destruct (recipients_of v r) as [a i] eqn:E.
  assert (H : a = [] ∨ i = []).
  { destruct v; cbn in E; injection E as <- <-; auto. }
  unfold any_sent_of. destruct H as [-> | ->]; [by destruct i|].
  destruct a; [done|]. by rewrite orb_false_r.
Qed.

(** An attempt in the window. *)
Lemma attempt_in_window r now dl c items : r_user r = u → one_platform r → tv_sec first ≠ 0 →
  tv_sec now - tv_sec first < window → 0 <= limit → 0 <= c → c + 1 < 2 ^ 32 →
  find_first (of_user u) items = Some (PnItem u first limit c) →
  let '(v, items') := request_begin window r now dl items in
  v ≠ Nobody ∧ (v = Granted ↔ c + 1 <= limit) ∧ (v ≠ Refused → c <= limit) ∧
  find_first (of_user u) items' = Some (PnItem u first limit (c + 1)).
Proof.
  intros Hu [Hr _] Hf Hw Hl Hc Hc' E. unfold request_begin, is_delivery_possible.
  destruct (r_android r ++ r_ios r) as [|x l]; [done|]. rewrite Hu, E. cbn [default].
  assert (Ha : count_attempt window now dl (PnItem u first limit c) = PnItem u first limit (c + 1)).
  { unfold count_attempt. cbn [pn_first_time pn_user pn_limit pn_counter].
    replace (window <=? _) with false by lia. rewrite andb_false_r.
    replace (tv_sec first =? 0) with false by lia. by rewrite u32_id by (unfold is_u32; lia). }
  rewrite E. cbn [default id]. rewrite Ha. cbn [pn_counter pn_limit].
  rewrite find_first_update by (intros it; unfold of_user; by rewrite count_attempt_user).
  rewrite E. cbn [fmap option_fmap option_map]. rewrite Ha.
  destruct (Z.leb_spec (c + 1) limit); cbn [negb andb]; [split_and!; (done || lia)|].
  destruct (Z.eqb_spec (c + 1) (u32 (limit + 1))) as [Eu|];
    split_and!; try done; try (split; done || lia). intros _.
  destruct (Z.ltb_spec (limit + 1) (2 ^ 32)); [rewrite u32_id in Eu by (unfold is_u32; lia); lia|lia].
Qed.

Lemma begin_step l0 n t r now dl w w' : tv_sec first ≠ 0 →
  fair_event (Begin t r now dl) → in_window l0 n w → Z.of_nat n + 1 < 2 ^ 32 →
  pn_step window (Begin t r now dl) w = Some w' → in_window l0 (S n) w'.
Proof.
  intros Hf Hfair (Hp & l & El & Hc & Hg & Ht & Hi) Hn. cbn [pn_step].
  destruct (pn_pending w !! t) as [|] eqn:Et; [done|].
  destruct (request_begin window r now dl (pn_items w)) as [v items] eqn:Eb. intros [= <-].
  unfold in_window; cbn [pn_pending pn_log pn_items].
  rewrite !count_insert by done. rewrite granted_pair, pending_pair, told_pair.
  destruct (decide (r_user r = u)) as [Hu|Hu].
  - destruct (Hfair Hu) as [Hr Hw].
    pose proof (attempt_in_window r now dl
      (Z.of_nat (logged l) + Z.of_nat (count pending_of (pn_pending w))) _ Hu Hr Hf Hw ltac:(lia) ltac:(lia) ltac:(lia) Hi) as H.
    rewrite Eb in H. destruct H as (Hv & Hgr & Htl & E'). split.
    { intros t' p. destruct (decide (t' = t)) as [->|]; [|rewrite lookup_insert_ne by done; apply Hp].
      rewrite lookup_insert_eq. intros [= <-] _. done. }
    exists l. replace (r_user r =? u) with true by lia. cbn [andb Nat.b2n]. split_and!; [done|lia| | |].
    + pose proof (delivered_logged l). pose proof (granted_pending (pn_pending w)).
      case_bool_decide; cbn; [apply Hgr in H1|]; lia.
    + pose proof (told_pending (pn_pending w)).
      case_bool_decide; cbn; [specialize (Htl H0)|]; lia.
    + rewrite E'. do 2 f_equal. lia.
  - split.
    { intros t' p. destruct (decide (t' = t)) as [->|]; [|rewrite lookup_insert_ne by done; apply Hp].
      rewrite lookup_insert_eq. by intros [= <-]. }
    exists l. replace (r_user r =? u) with false by lia. cbn. split_and!; [done|lia|lia|lia|].
    pose proof (find_other_begin r now dl (pn_items w) Hu) as E'. rewrite Eb in E'. cbn in E'.
    by rewrite E'.
Qed.

Lemma take_back_counted c c' : c' = c + 1 → 0 <= c →
  take_back (PnItem u first limit c') = PnItem u first limit c.
Proof.
  intros -> Hc. unfold take_back. cbn [pn_counter]. replace (0 <? c + 1) with true by lia.
  cbn. f_equal. lia.
Qed.

Lemma end_step l0 n t w w' : in_window l0 n w → pn_step window (End_ t) w = Some w' →
  in_window l0 n w'.
Proof.
  intros (Hp & l & El & Hc & Hg & Ht & Hi). cbn [pn_step].
  destruct (pn_pending w !! t) as [[r v]|] eqn:Et; [|done]. cbn. intros [= <-].
  unfold in_window; cbn [pn_pending pn_log pn_items].
  rewrite (count_delete granted_to _ _ _ Et) in Hg. rewrite (count_delete pending_of _ _ _ Et) in Hi, Hc.
  rewrite (count_delete told_to _ _ _ Et) in Ht. rewrite told_pair in Ht.
  rewrite granted_pair in Hg. rewrite pending_pair in Hi, Hc.
  split; [intros t' p [_ E]%lookup_delete_Some; exact (Hp _ _ E)|].
  destruct (decide (r_user r = u)) as [Hu|Hu].
  - destruct (Hp _ _ Et Hu) as [Hr Hv]. cbn in Hr, Hv.
    pose proof (any_sent_reached v r Hr Hv) as Ha.
    replace (r_user r =? u) with true in Hg, Hi, Hc, Ht by lia. cbn [andb Nat.b2n] in Hg, Hi, Hc, Ht.
    unfold request_end. destruct (recipients_of v r) as [a i]. cbn [snd]. rewrite Ha, Hu.
    destruct (reached v r) eqn:Er.
    + exists (l ++ [(u, v)]). rewrite El, <- app_assoc. unfold delivered, logged in *.
      rewrite !filter_app, !length_app, !filter_cons, !filter_nil. rewrite decide_True by done.
      split_and!; [done|cbn; lia| | |rewrite Hi; do 2 f_equal; cbn; lia].
      2: { rewrite bool_decide_true in Ht by (by intros ->). cbn in Ht |- *. lia. }
      destruct (decide _) as [[= ->]|Hne]; cbn; [rewrite bool_decide_true in Hg by done; cbn in Hg; lia|lia].
    + exists l. split_and!; [done|lia|lia|lia|]. unfold on_message_not_sent.
      rewrite find_first_update by (intros it; unfold of_user; by rewrite take_back_user).
      rewrite Hi. cbn [fmap option_fmap option_map]. f_equal. apply take_back_counted; lia.
  - replace (r_user r =? u) with false in Hg, Hi, Hc, Ht by lia. cbn in Hg, Hi, Hc, Ht.
    destruct (reached v r).
    + exists (l ++ [(r_user r, v)]). rewrite El, <- app_assoc. unfold delivered, logged in *.
      rewrite !filter_app, !length_app, !filter_cons, !filter_nil.
      rewrite !decide_False by (cbn; congruence). cbn. rewrite find_other_end by done.
      split_and!; [done|lia|lia|lia|]. rewrite Hi. do 2 f_equal. lia.
    + exists l. rewrite find_other_end by done. done.
Qed.

Lemma steps_in_window l0 events : tv_sec first ≠ 0 → ∀ n w w', Forall fair_event events →
  Z.of_nat n + Z.of_nat (length events) < 2 ^ 32 → in_window l0 n w →
  pn_steps window events w = Some w' → ∃ n', in_window l0 n' w'.
Proof.
  intros Hf. induction events as [|e events IH]; intros n w w' He Hn Hw; cbn [pn_steps length].
  { intros [= <-]. by exists n. }
  apply Forall_cons in He as [He Hes]. cbn [length] in Hn.
  destruct (pn_step window e w) as [w1|] eqn:E; cbn; [|done]. intros Hs. destruct e as [t r now dl|t].
  - apply (IH (S n) w1); [done|lia| |done]. by apply (begin_step l0 n t r now dl w); [..|lia|].
  - apply (IH n w1); [done|lia| |done]. by apply (end_step l0 n t w).
Qed.
End window.

(** The window of a user is opened by an attempt when there is none, or when it has passed. *)
Definition opens_window (window : Z) (u : Z) (now : timeval) (items : list pn_item) : Prop :=
  match find_first (of_user u) items with
  | None => True
  | Some it => tv_sec (pn_first_time it) = 0 ∨ window <= tv_sec now - tv_sec (pn_first_time it)
  end.

Lemma opening_attempt window u now limit it : tv_sec now ≠ 0 → pn_user it = u →
  (tv_sec (pn_first_time it) = 0 ∨ window <= tv_sec now - tv_sec (pn_first_time it)) →
  count_attempt window now limit it = PnItem u now limit 1.
Proof.
  intros Hn Hu Ho. unfold count_attempt. rewrite Hu.
  destruct (tv_sec (pn_first_time it) =? 0) eqn:E0; cbn [negb andb]; [by rewrite E0|].
  destruct (window <=? _) eqn:E1; [done|lia].
Qed.

Lemma opening_begin window r now limit items : one_platform r → tv_sec now ≠ 0 →
  opens_window window (r_user r) now items →
  let '(v, items') := request_begin window r now limit items in
  v ≠ Nobody ∧ (v = Granted → 1 <= limit) ∧
  find_first (of_user (r_user r)) items' = Some (PnItem (r_user r) now limit 1).
Proof.
  intros [Hr _] Hn Ho. unfold request_begin, is_delivery_possible.
  destruct (r_android r ++ r_ios r) as [|x l]; [done|].
  set (items1 := match find_first _ items with Some _ => items | None => _ end).
  assert (H : ∃ it, find_first (of_user (r_user r)) items1 = Some it ∧
    count_attempt window now limit it = PnItem (r_user r) now limit 1).
  { unfold opens_window in Ho. subst items1.
    destruct (find_first (of_user (r_user r)) items) as [it|] eqn:E.
    - exists it. split; [done|]. apply find_first_Some in E as [E _]. unfold of_user in E.
      apply opening_attempt; [done|lia|done].
    - rewrite find_first_app, E. cbn. unfold of_user at 1. cbn. rewrite Z.eqb_refl.
      eexists. split; [done|]. apply opening_attempt; [done..|by left]. }
  destruct H as (it & E & Ec). rewrite E. cbn [default id]. rewrite Ec. cbn [pn_counter pn_limit].
  rewrite find_first_update by (intros y; unfold of_user; by rewrite count_attempt_user).
  rewrite E. cbn [fmap option_fmap option_map]. rewrite Ec.
  destruct (Z.leb_spec 1 limit); [done|]. by destruct (_ && _).
Qed.



(** *** Where it is not kept *)

(** Both platforms: what the first was sent is forgotten when the second fails. *)
Definition both_platforms (u : Z) : request := Request u [Delivered] [Failed].

Fixpoint mixed_run (n : nat) (now : timeval) (u : Z) : list pn_event :=
  match n with
  | O => []
  | S n => Begin 0 (both_platforms u) now 1 :: End_ 0 :: mixed_run n now u
  end.

(** A notification for nobody after each one. *)
Fixpoint nobody_run (n : nat) (now : timeval) (u : Z) : list pn_event :=
  match n with
  | O => []
  | S n => Begin 0 (Request u [Delivered] []) now 1 :: End_ 0
             :: Begin 0 (Request u [] []) now 1 :: End_ 0 :: nobody_run n now u
  end.

Definition counted (u : Z) (now : timeval) (c : Z) (log : list (Z * verdict)) : pn_world :=
  PnWorld [PnItem u now 1 c] ∅ log.

Lemma of_user_same u first limit c : of_user u (PnItem u first limit c) = true.
Proof. unfold of_user. cbn. apply Z.eqb_refl. Qed.

Lemma begin_counted u r now : r_user r = u → tv_sec now ≠ 0 → r_android r ++ r_ios r ≠ [] →
  request_begin 3600 r now 1 [PnItem u now 1 0] = (Granted, [PnItem u now 1 1]).
Proof.
  intros <- Hn Hr. unfold request_begin, is_delivery_possible. destruct (_ ++ _); [done|].
  assert (E : count_attempt 3600 now 1 (PnItem (r_user r) now 1 0) = PnItem (r_user r) now 1 1).
  { unfold count_attempt. cbn [pn_first_time pn_user pn_limit pn_counter].
    rewrite Z.sub_diag, andb_false_r. by replace (tv_sec now =? 0) with false by lia. }
  cbn [find_first update_first]. rewrite !of_user_same. cbn [find_first update_first].
  rewrite !of_user_same. cbn [default id]. by rewrite E.
Qed.

Lemma not_sent_counted u now : on_message_not_sent u [PnItem u now 1 1] = [PnItem u now 1 0].
Proof. unfold on_message_not_sent. cbn [update_first]. by rewrite of_user_same. Qed.

(** A thread that begins and ends a request. *)
Lemma whole_request r now items log :
  pn_steps 3600 [Begin 0 r now 1; End_ 0] (PnWorld items ∅ log) =
  let '(v, items') := request_begin 3600 r now 1 items in
  Some (PnWorld (request_end v r items').2 ∅ (if reached v r then log ++ [(r_user r, v)] else log)).
Proof.
  cbn [pn_steps pn_step pn_pending pn_items]. rewrite lookup_empty.
  destruct (request_begin 3600 r now 1 items) as [v items'].
  cbn [mbind option_bind pn_pending pn_items pn_log]. rewrite lookup_insert_eq.
  cbn [mbind option_bind]. by rewrite delete_insert_eq, delete_empty.
Qed.

Lemma pn_steps_app window l1 l2 w :
  pn_steps window (l1 ++ l2) w = w ← pn_steps window l1 w; pn_steps window l2 w.
Proof.
  revert w. induction l1 as [|e l1 IH]; intros w; [done|]. cbn.
  by destruct (pn_step window e w) as [w1|]; cbn; [apply IH|].
Qed.

Lemma one_mixed u now log : tv_sec now ≠ 0 →
  pn_steps 3600 [Begin 0 (both_platforms u) now 1; End_ 0] (counted u now 0 log)
  = Some (counted u now 0 (log ++ [(u, Granted)])).
Proof.
  intros Hn. unfold counted. rewrite whole_request.
  rewrite (begin_counted u (both_platforms u) now eq_refl Hn) by done. unfold request_end. cbn [recipients_of].
  cbn [any_sent_of both_platforms r_android r_ios r_user snd].
  change (any_sent_of [Delivered] [Failed]) with false. by rewrite not_sent_counted.
Qed.

Lemma one_nobody u now log : tv_sec now ≠ 0 →
  pn_steps 3600 (nobody_run 1 now u) (counted u now 0 log)
  = Some (counted u now 0 (log ++ [(u, Granted)])).
Proof.
  intros Hn. change (nobody_run 1 now u) with
    ([Begin 0 (Request u [Delivered] []) now 1; End_ 0] ++ [Begin 0 (Request u [] []) now 1; End_ 0]).
  unfold counted. rewrite pn_steps_app, whole_request.
  rewrite (begin_counted u (Request u [Delivered] []) now eq_refl Hn) by done.
  cbn [mbind option_bind request_end recipients_of r_android r_ios r_user snd].
  change (any_sent_of [Delivered] []) with true. cbn iota.
  change (reached Granted (Request u [Delivered] [])) with true. cbn iota.
  rewrite whole_request. cbn [request_begin r_android r_ios app request_end recipients_of r_user snd].
  change (any_sent_of [] []) with false. by rewrite not_sent_counted.
Qed.

(** The limit can be exceeded without bound. A user with the limit 1 who has a phone of each
    system gets any number of notifications at the same moment if the second phone is not
    reached, and so does one for whom every other notification has no recipients: in both cases
    the server counts a message as not sent that was sent, or that was never counted. *)
Theorem limit_not_kept u now n : tv_sec now ≠ 0 →
  (∃ w, pn_steps 3600 (mixed_run n now u) (counted u now 0 []) = Some w ∧
     delivered u (pn_log w) = n) ∧
  (∃ w, pn_steps 3600 (nobody_run n now u) (counted u now 0 []) = Some w ∧
     delivered u (pn_log w) = n).
Proof.
  intros Hn. assert (H : ∀ l m, delivered u (l ++ [(u, Granted)]) = m ↔ S (delivered u l) = m).
  { intros l m. unfold delivered. rewrite filter_app, length_app, filter_cons, decide_True by done.
    cbn. lia. }
  enough (∀ log, (∃ w, pn_steps 3600 (mixed_run n now u) (counted u now 0 log) = Some w ∧
                   delivered u (pn_log w) = (delivered u log + n)%nat) ∧
                 (∃ w, pn_steps 3600 (nobody_run n now u) (counted u now 0 log) = Some w ∧
                   delivered u (pn_log w) = (delivered u log + n)%nat)) as E by exact (E []).
  induction n as [|n IH]; intros log.
  { split; exists (counted u now 0 log); cbn; split; (done || lia). }
  destruct (IH (log ++ [(u, Granted)])) as [(w1 & E1 & D1) (w2 & E2 & D2)].
  rewrite (proj2 (H log _) eq_refl) in D1, D2. split; [exists w1|exists w2].
  - change (mixed_run (S n) now u)
      with ([Begin 0 (both_platforms u) now 1; End_ 0] ++ mixed_run n now u).
    rewrite pn_steps_app, one_mixed by done. split; [exact E1|lia].
  - change (nobody_run (S n) now u) with (nobody_run 1 now u ++ nobody_run n now u).
    rewrite pn_steps_app, one_nobody by done. split; [exact E2|lia].
Qed.

Lemma limit_not_kept_witness :
  tv_sec (Timeval 5 0) ≠ 0 ∧
  (∃ w, pn_steps 3600 (mixed_run 3 (Timeval 5 0) 7) (counted 7 (Timeval 5 0) 0 []) = Some w ∧
     delivered 7 (pn_log w) = 3%nat) ∧
  (∃ w, pn_steps 3600 (nobody_run 3 (Timeval 5 0) 7) (counted 7 (Timeval 5 0) 0 []) = Some w ∧
     delivered 7 (pn_log w) = 3%nat).
Proof. split; [done|]. exact (limit_not_kept 7 (Timeval 5 0) 3 ltac:(done)). Defined.

(** *** Long texts *)

Lemma crop_length (s : list Z) n : 0 <= n <= Z.of_nat (length s) →
  Z.of_nat (length (take (Z.to_nat (Z.of_nat (length s) - n)) s ++ [46; 46; 46]))
  = Z.of_nat (length s) - n + 3.
Proof. intros Hn. rewrite length_app, length_take. cbn [length]. lia. Qed.

Notation len s := (Z.of_nat (length s)).

(** One call with texts that are too long. *)
Lemma trim_step fuel title body : 3000 < len title + len body →
  (∃ title' body', trim (S fuel) title body = Some (title', body') ∧
     len title' + len body' = 3000) ∨
  (2997 < len body ∧ len body < len title ∧ trim (S fuel) title body = trim fuel [46; 46; 46] body) ∨
  (2997 < len title ∧ len title <= len body ∧ trim (S fuel) title body = trim fuel title [46; 46; 46]).
Proof.
  intros H. cbn [trim]. replace (3000 <? _) with true by lia.
  change (len [46; 46; 46]) with 3.
  destruct (Z.ltb_spec (len body) (len title)) as [Hl|Hl];
    destruct (Z.leb_spec (len title + len body - 3000 + 3) (len title)) as [Ht|Ht];
    destruct (Z.leb_spec (len title + len body - 3000 + 3) (len body)) as [Hb|Hb]; try lia.
  all: first [left; eexists _, _; split; [reflexivity|]; rewrite crop_length; lia
             |right; left; split_and!; [lia..|done]|right; right; split_and!; [lia..|done]].
Qed.

(** Whatever the texts of a notification are, they are cut so that they have 3000 bytes at
    most together; texts that fit are left as they are. *)
Lemma trim_fits title body : ∃ title' body', trim 2 title body = Some (title', body') ∧
  len title' + len body' <= 3000 ∧
  (len title + len body <= 3000 → title' = title ∧ body' = body).
Proof.
  destruct (Z.ltb_spec 3000 (len title + len body)) as [H|H].
  2:{ exists title, body. cbn [trim]. by replace (3000 <? _) with false by lia. }
  destruct (trim_step 1 title body H) as [(t & b & E & Hs)|[(Hl & _ & E)|(Hl & _ & E)]].
  - exists t, b. split_and!; [done|lia|lia].
  - destruct (trim_step 0 [46; 46; 46] body) as [(t & b & E' & Hs)|[(_ & Hn & _)|(Hn & _)]];
      [cbn [length]; lia| |cbn in Hn; lia|cbn in Hn; lia].
    exists t, b. rewrite E, E'. split_and!; [done|lia|lia].
  - destruct (trim_step 0 title [46; 46; 46]) as [(t & b & E' & Hs)|[(Hn & _)|(_ & Hn & _)]];
      [cbn [length]; lia| |cbn in Hn; lia|cbn in Hn; lia].
    exists t, b. rewrite E, E'. split_and!; [done|lia|lia].
Qed.

(** ** Requests to other services *)

(** [supla_http_throttling] with its virtual functions, of a function of a channel; times are in
    microseconds. *)
Record throttling := Throttling_ {
  get_default_delay_time : Z → Z;
  get_delay_time_over_threadshold : Z → Z;
  get_reset_time_us : Z → Z;
  get_counter_threadshold : Z → Z
}.

Definition is_one_of (f : Z) (l : list Z) : bool := existsb (Z.eqb f) l.

Definition http_counter_threadshold (f : Z) : Z :=
  if is_one_of f [SUPLA_CHANNELFNC_DIMMER; SUPLA_CHANNELFNC_DIMMER_CCT;
                  SUPLA_CHANNELFNC_DIMMER_CCT_AND_RGB; SUPLA_CHANNELFNC_RGBLIGHTING;
                  SUPLA_CHANNELFNC_DIMMERANDRGBLIGHTING] then 20
  else if is_one_of f [SUPLA_CHANNELFNC_HVAC_THERMOSTAT; SUPLA_CHANNELFNC_HVAC_THERMOSTAT_HEAT_COOL;
                       SUPLA_CHANNELFNC_HVAC_THERMOSTAT_DIFFERENTIAL;
                       SUPLA_CHANNELFNC_HVAC_DOMESTIC_HOT_WATER;
                       SUPLA_CHANNELFNC_THERMOSTAT_HEATPOL_HOMEPLUS] then 10
  else 5.

Definition http_throttling : throttling :=
  Throttling_ (λ _, 1500000) (λ _, 10000000) (λ _, 10000000) http_counter_threadshold.

Definition alexa_change_report_throttling : throttling :=
  Throttling_ (λ f, if f =? SUPLA_CHANNELFNC_THERMOSTAT_HEATPOL_HOMEPLUS then 2500000 else 500000)
    (λ _, 10000000) (λ _, 10000000) http_counter_threadshold.

Definition google_home_state_report_throttling : throttling := http_throttling.

Definition webhook_default_delay_time (f : Z) : Z :=
  if is_one_of f [SUPLA_CHANNELFNC_THERMOMETER; SUPLA_CHANNELFNC_HUMIDITY;
      SUPLA_CHANNELFNC_HUMIDITYANDTEMPERATURE; SUPLA_CHANNELFNC_WINDSENSOR;
      SUPLA_CHANNELFNC_PRESSURESENSOR; SUPLA_CHANNELFNC_RAINSENSOR; SUPLA_CHANNELFNC_WEIGHTSENSOR;
      SUPLA_CHANNELFNC_DISTANCESENSOR; SUPLA_CHANNELFNC_DEPTHSENSOR;
      SUPLA_CHANNELFNC_ELECTRICITY_METER; SUPLA_CHANNELFNC_IC_ELECTRICITY_METER;
      SUPLA_CHANNELFNC_IC_GAS_METER; SUPLA_CHANNELFNC_IC_WATER_METER;
      SUPLA_CHANNELFNC_IC_HEAT_METER] then 15000000
  else if is_one_of f [SUPLA_CHANNELFNC_POWERSWITCH; SUPLA_CHANNELFNC_LIGHTSWITCH;
      SUPLA_CHANNELFNC_STAIRCASETIMER; SUPLA_CHANNELFNC_OPENINGSENSOR_GATEWAY;
      SUPLA_CHANNELFNC_OPENINGSENSOR_GATE; SUPLA_CHANNELFNC_OPENINGSENSOR_GARAGEDOOR;
      SUPLA_CHANNELFNC_NOLIQUIDSENSOR; SUPLA_CHANNELFNC_OPENINGSENSOR_DOOR;
      SUPLA_CHANNELFNC_OPENINGSENSOR_ROLLERSHUTTER; SUPLA_CHANNELFNC_OPENINGSENSOR_ROOFWINDOW;
      SUPLA_CHANNELFNC_OPENINGSENSOR_WINDOW; SUPLA_CHANNELFNC_HOTELCARDSENSOR;
      SUPLA_CHANNELFNC_MAILSENSOR; SUPLA_CHANNELFNC_CONTROLLINGTHEROLLERSHUTTER;
      SUPLA_CHANNELFNC_CONTROLLINGTHEROOFWINDOW; SUPLA_CHANNELFNC_TERRACE_AWNING;
      SUPLA_CHANNELFNC_PROJECTOR_SCREEN; SUPLA_CHANNELFNC_CURTAIN; SUPLA_CHANNELFNC_VERTICAL_BLIND;
      SUPLA_CHANNELFNC_ROLLER_GARAGE_DOOR; SUPLA_CHANNELFNC_BINARY_SENSOR;
      SUPLA_CHANNELFNC_MOTION_SENSOR] then 250000
  else if f =? SUPLA_CHANNELFNC_ACTIONTRIGGER then 100000
  else 1000000.

Definition state_webhook_throttling : throttling :=
  Throttling_ webhook_default_delay_time
    (λ f, if f =? SUPLA_CHANNELFNC_ACTIONTRIGGER then 2000000 else 10000000)
    (λ _, 10000000) http_counter_threadshold.

Record http_item := HttpItem { hi_channel_id : Z; hi_last : timeval; hi_counter : Z }.

Definition of_channel (channel_id : Z) (it : http_item) : bool := hi_channel_id it =? channel_id.

(** One request of a channel in the list. *)
Definition count_request (k : throttling) (f : Z) (now : timeval) (it : http_item) : Z * http_item :=
  let counter := u32 (hi_counter it + 1) in
  let time_diff := usec_of now - usec_of (hi_last it) in
  if get_reset_time_us k f <=? time_diff
  then (get_default_delay_time k f, HttpItem (hi_channel_id it) now 1)
  else if get_counter_threadshold k f <=? counter
  then (get_delay_time_over_threadshold k f, HttpItem (hi_channel_id it) now counter)
  else (get_default_delay_time k f, HttpItem (hi_channel_id it) now counter).

Definition get_delay_time (k : throttling) (channel_id f : Z) (now : timeval)
    (items : list http_item) : Z * list http_item :=
  let result := get_default_delay_time k f in
  if get_reset_time_us k f <=? result then (result, items)
  else
    let new := HttpItem channel_id now 0 in
    let items := match find_first (of_channel channel_id) items with
                 | Some _ => items
                 | None => items ++ [new]
                 end in
    ((count_request k f now (default new (find_first (of_channel channel_id) items))).1,
     update_first (of_channel channel_id) (λ it, (count_request k f now it).2) items).

Definition get_size (items : list http_item) : Z := Z.of_nat (length items).

(** The delays of the requests of a channel, among those of others. *)
Fixpoint delays_of (k : throttling) (channel_id : Z) (l : list (Z * Z * timeval))
    (items : list http_item) : list Z :=
  match l with
  | [] => []
  | (c, f, now) :: l =>
      let '(d, items) := get_delay_time k c f now items in
      (if c =? channel_id then [d] else []) ++ delays_of k channel_id l items
  end.

Section bursts.
Context (k : throttling) (ch f : Z).

Definition times_of (l : list (Z * Z * timeval)) : list timeval :=
  snd <$> filter (λ p, p.1.1 = ch) l.

(** Each time follows the one before within the time of the reset. *)
Fixpoint within_reset (last : timeval) (times : list timeval) : Prop :=
  match times with
  | [] => True
  | t :: times => usec_of t - usec_of last < get_reset_time_us k f ∧ within_reset t times
  end.

Definition delay_of (n : Z) : Z :=
  if get_counter_threadshold k f <=? n then get_delay_time_over_threadshold k f
  else get_default_delay_time k f.

Definition of_function (p : Z * Z * timeval) : Prop := p.1.1 = ch → p.1.2 = f.

Lemma count_request_channel f' now it : hi_channel_id (count_request k f' now it).2 = hi_channel_id it.
Proof. unfold count_request. by repeat case_match. Qed.

(** Requests of other channels. *)
Lemma other_channel c f' now items : c ≠ ch →
  find_first (of_channel ch) (get_delay_time k c f' now items).2 = find_first (of_channel ch) items.
Proof.
  intros Hc. unfold get_delay_time. destruct (_ <=? _); [done|]. cbn [snd].
  rewrite find_first_update_ne.
  - destruct (find_first (of_channel c) items); [done|]. rewrite find_first_app.
    destruct (find_first (of_channel ch) items); [done|]. cbn. unfold of_channel. cbn.
    by replace (c =? ch) with false by lia.
  - intros it. unfold of_channel. lia.
  - intros it. unfold of_channel. rewrite count_request_channel. lia.
Qed.

(** One request after [n] others. *)
Lemma next_request now n last items : get_default_delay_time k f < get_reset_time_us k f →
  0 <= n → n + 1 < 2 ^ 32 → usec_of now - usec_of last < get_reset_time_us k f →
  find_first (of_channel ch) items = Some (HttpItem ch last n) →
  let '(d, items') := get_delay_time k ch f now items in
  d = delay_of (n + 1) ∧ find_first (of_channel ch) items' = Some (HttpItem ch now (n + 1)).
Proof.
  intros Hd Hn Hn' Ht E. unfold get_delay_time. replace (_ <=? _) with false by lia.
  rewrite !E. cbn [default id].
  assert (Ec : count_request k f now (HttpItem ch last n) = (delay_of (n + 1), HttpItem ch now (n + 1))).
  { unfold count_request, delay_of. cbn [hi_last hi_counter hi_channel_id].
    rewrite u32_id by (unfold is_u32; lia). replace (get_reset_time_us k f <=? _) with false by lia.
    by destruct (_ <=? _). }
  rewrite find_first_update by (intros it; unfold of_channel; by rewrite count_request_channel).
  rewrite E, Ec. cbn [fmap option_fmap option_map]. by rewrite Ec.
Qed.

Lemma following_requests l : get_default_delay_time k f < get_reset_time_us k f →
  Forall of_function l → ∀ n last items, 0 <= n → n + Z.of_nat (length l) < 2 ^ 32 →
  within_reset last (times_of l) → find_first (of_channel ch) items = Some (HttpItem ch last n) →
  delays_of k ch l items = imap (λ i _, delay_of (n + Z.of_nat i + 1)) (times_of l).
Proof.
  intros Hd. induction 1 as [|[[c f'] now] l Hf _ IH]; intros n last items Hn Hl Ht E; [done|].
  cbn [delays_of length] in *. unfold times_of in *. rewrite filter_cons in *. cbn [fst] in *.
  destruct (decide (c = ch)) as [->|Hc].
  - specialize (Hf eq_refl). cbn in Hf. subst f'. cbn in Ht. destruct Ht as [Ht1 Ht2].
    pose proof (next_request now n last items Hd Hn ltac:(lia) Ht1 E) as H.
    destruct (get_delay_time k ch f now items) as [d items']. destruct H as [-> E'].
    rewrite Z.eqb_refl. cbn [app fmap list_fmap imap]. f_equal; [f_equal; lia|].
    rewrite (IH (n + 1) now items') by (done || lia). apply imap_ext. intros i x _. cbn. f_equal. lia.
  - pose proof (other_channel c f' now items Hc) as E'.
    destruct (get_delay_time k c f' now items) as [d items']. cbn in E'.
    replace (c =? ch) with false by lia. cbn [app]. apply (IH n last); [done|lia|done|by rewrite E'].
Qed.
End bursts.

(** A channel that reports changes too often is slowed down. As long as the requests of a
    channel follow each other within the time of the reset, whatever other channels do, each is
    delayed by the default time until their number reaches the threshold, and every one from
    then on by the time over the threshold. *)
Theorem bursts_are_delayed k ch f l : get_default_delay_time k f < get_reset_time_us k f →
  0 < get_reset_time_us k f → Forall (of_function ch f) l → Z.of_nat (length l) < 2 ^ 32 →
  (∀ t times, times_of ch l = t :: times → within_reset k f t times) →
  delays_of k ch l [] =
  imap (λ i _, if get_counter_threadshold k f <=? Z.of_nat i + 1
               then get_delay_time_over_threadshold k f else get_default_delay_time k f)
    (times_of ch l).
Proof.
  intros Hd Hr Hf Hl Ht. enough (H : ∀ items, find_first (of_channel ch) items = None →
    delays_of k ch l items = imap (λ i _, delay_of k f (0 + Z.of_nat i + 1)) (times_of ch l)).
  { rewrite H by done. apply imap_ext. intros i x _. unfold delay_of. by rewrite Z.add_0_l. }
  induction Hf as [|[[c f'] now] l Hf Hfl IH]; intros items E; [done|].
  cbn [delays_of length] in *. unfold times_of in *. rewrite filter_cons in *. cbn [fst] in *.
  destruct (decide (c = ch)) as [->|Hc].
  - specialize (Hf eq_refl). cbn in Hf. subst f'. cbn [fmap list_fmap] in *.
    specialize (Ht _ _ eq_refl). cbn [snd] in *.
    assert (Ef : find_first (of_channel ch) (items ++ [HttpItem ch now 0]) = Some (HttpItem ch now 0)).
    { rewrite find_first_app, E. cbn. unfold of_channel. cbn. by rewrite Z.eqb_refl. }
    assert (Eg : get_delay_time k ch f now items
                 = get_delay_time k ch f now (items ++ [HttpItem ch now 0])).
    { unfold get_delay_time. rewrite E, !Ef. by replace (_ <=? _) with false by lia. }
    pose proof (next_request k ch f now 0 now _ Hd ltac:(lia) ltac:(lia) ltac:(lia) Ef) as H.
    rewrite Eg. clear Eg. destruct (get_delay_time k ch f now _) as [d items']. destruct H as [-> E'].
    rewrite Z.eqb_refl. cbn [app imap]. f_equal.
    rewrite (following_requests k ch f l Hd Hfl 1 now items') by (done || lia).
    apply imap_ext. intros i x _. cbn. f_equal. lia.
  - pose proof (other_channel k ch c f' now items Hc) as E'.
    destruct (get_delay_time k c f' now items) as [d items']. cbn in E'.
    replace (c =? ch) with false by lia. cbn [app]. apply IH; [lia|done|by rewrite E'].
Qed.

(** A switch that is reported to a webhook five times in two seconds, and another channel. *)
Lemma bursts_are_delayed_witness :
  let k := state_webhook_throttling in
  let f := SUPLA_CHANNELFNC_LIGHTSWITCH in
  let l := [(5, f, Timeval 10 0); (6, f, Timeval 10 0); (5, f, Timeval 10 500000);
            (5, f, Timeval 11 0); (5, f, Timeval 11 500000); (5, f, Timeval 12 0)] in
  (get_default_delay_time k f < get_reset_time_us k f ∧ 0 < get_reset_time_us k f ∧
   Forall (of_function 5 f) l ∧ (∀ t times, times_of 5 l = t :: times → within_reset k f t times)) ∧
  delays_of k 5 l [] =
  imap (λ i _, if get_counter_threadshold k f <=? Z.of_nat i + 1
               then get_delay_time_over_threadshold k f else get_default_delay_time k f)
    (times_of 5 l).
Proof.
  intros k f l. assert (Hd : get_default_delay_time k f < get_reset_time_us k f) by (vm_compute; done).
  assert (Hr : 0 < get_reset_time_us k f) by (vm_compute; done).
  assert (Hf : Forall (of_function 5 f) l) by (repeat constructor; done).
  assert (Ht : ∀ t times, times_of 5 l = t :: times → within_reset k f t times).
  { intros t times. change (times_of 5 l) with
      [Timeval 10 0; Timeval 10 500000; Timeval 11 0; Timeval 11 500000; Timeval 12 0].
    intros [= <- <-]. repeat split. }
  split; [done|]. exact (bursts_are_delayed k 5 f l Hd Hr Hf ltac:(vm_compute; done) Ht).
Defined.
