(* ===== verification/SafeArray.v ===== *)
(** * SafeArray: the array of pointers

    supla-common/safearray.c: an array that grows and shrinks by one pointer, under a
    recursive lock. The functions are the sections under that lock. A null pointer is
    [None]; what [realloc] answers when asked for a number of pointers is an argument. *)

From S2P Require Import Prelude.

#[local] Open Scope list_scope.
#[local] Open Scope Z_scope.

Section safe_array.
Context {A : Type} `{!EqDecision A}.

(** The pointers of [arr]; [count] is its length. *)
Notation safe_array := (list A).

Definition safe_array_init : safe_array := [].

Definition safe_array_count (arr : safe_array) : Z := Z.of_nat (length arr).

Definition safe_array_get (arr : safe_array) (idx : Z) : option A :=
  if idx <? 0 then None
  else if idx <? safe_array_count arr then arr !! Z.to_nat idx else None.

(** The loop of [safe_array_move_to_begin], for [a], [a - 1], ..., 0. *)
Fixpoint shift_up (arr : safe_array) (n : nat) : safe_array :=
  match n with
  | O => arr
  | S a => let arr := match arr !! a with Some x => <[S a := x]> arr | None => arr end in
           shift_up arr a
  end.

Definition safe_array_move_to_begin (arr : safe_array) (idx : Z) : safe_array :=
  if (idx <? 1) || (safe_array_count arr <=? idx) then arr
  else match arr !! Z.to_nat idx with
       | Some item => <[0%nat := item]> (shift_up arr (Z.to_nat idx))
       | None => arr
       end.

Fixpoint find_from (arr : safe_array) (a : Z) (ptr : A) : Z :=
  match arr with
  | [] => -1
  | x :: arr => if decide (x = ptr) then a else find_from arr (a + 1) ptr
  end.

Definition safe_array_find (arr : safe_array) (ptr : option A) : Z :=
  match ptr with None => -1 | Some p => find_from arr 0 p end.

(** The loop of [safe_array_pop], [n] times from [a]. *)
Fixpoint shift_down (arr : safe_array) (a n : nat) : safe_array :=
  match n with
  | O => arr
  | S n => let arr := match arr !! a with Some x => <[(a - 1)%nat := x]> arr | None => arr end in
           shift_down arr (S a) n
  end.

Fixpoint safe_array_findcnd (cnd : A → bool) (arr : safe_array) : option A :=
  match arr with
  | [] => None
  | x :: arr => if cnd x then Some x else safe_array_findcnd cnd arr
  end.

Section realloc.
Context (realloc : Z → bool).

Definition safe_array_add (arr : safe_array) (ptr : option A) : Z * safe_array :=
  match ptr with
  | None => (-1, arr)
  | Some p =>
      if realloc (safe_array_count arr + 1) then (safe_array_count arr, arr ++ [p])
      else (-1, arr)
  end.

(** The last pointer takes the place of the one that goes. *)
Definition safe_array_delete (arr : safe_array) (idx : Z) : safe_array :=
  if idx <? 0 then arr
  else if idx <? safe_array_count arr then
    let arr := if idx <? safe_array_count arr - 1
               then match last arr with Some x => <[Z.to_nat idx := x]> arr | None => arr end
               else arr in
    if realloc (safe_array_count arr - 1) || (safe_array_count arr =? 1)
    then take (length arr - 1) arr else arr
  else arr.

Definition safe_array_remove (arr : safe_array) (ptr : option A) : safe_array :=
  safe_array_delete arr (safe_array_find arr ptr).

Definition safe_array_pop (arr : safe_array) : option A * safe_array :=
  let result := safe_array_get arr 0 in
  let arr := match result with Some _ => shift_down arr 1 (length arr - 1) | None => arr end in
  (result, safe_array_delete arr (safe_array_count arr - 1)).

(** [safe_array_clean], at [a]; [None] when [fuel] iterations did not reach the end. *)
Fixpoint clean_from (fuel : nat) (del : A → bool) (arr : safe_array) (a : Z)
    : option safe_array :=
  match fuel with
  | O => None
  | S fuel => match safe_array_get arr a with
              | None => Some arr
              | Some p => if del p then clean_from fuel del (safe_array_delete arr a) a
                          else clean_from fuel del arr (a + 1)
              end
  end.

Definition safe_array_clean (del : A → bool) (arr : safe_array) : option safe_array :=
  clean_from (S (length arr)) del arr 0.
End realloc.

(** ** Facts *)

Lemma get_nat arr (n : nat) : safe_array_get arr (Z.of_nat n) = arr !! n.
Proof.
  unfold safe_array_get, safe_array_count. rewrite Nat2Z.id.
  destruct (Z.ltb_spec (Z.of_nat n) 0); [lia|].
  destruct (Z.ltb_spec (Z.of_nat n) (Z.of_nat (length arr))); [done|].
  symmetry. apply lookup_ge_None. lia.
Qed.

Lemma shift_down_cons_spec l1 x l2 :
  shift_down (l1 ++ x :: l2) (S (length l1)) (length l2) =
  l1 ++ match last l2 with Some y => l2 ++ [y] | None => [x] end.
Proof.
  revert l1 x. induction l2 as [|y l2 IH]; intros l1 x; [done|]. cbn [length shift_down].
  rewrite lookup_app_r by lia.
  replace (S (length l1) - length l1)%nat with 1%nat by lia. cbn [lookup list_lookup].
  replace (S (length l1) - 1)%nat with (length l1 + 0)%nat by lia. rewrite insert_app_r.
  cbn [insert list_insert]. specialize (IH (l1 ++ [y]) y). rewrite length_app in IH.
  cbn [length] in IH. replace (length l1 + 1)%nat with (S (length l1)) in IH by lia.
  rewrite <- app_assoc in IH. cbn [app] in IH. rewrite IH, <- app_assoc. f_equal. cbn [app].
  rewrite last_cons. destruct (last l2) eqn:E; [done|]. by apply last_None in E as ->.
Qed.

Lemma last_decompose (l : safe_array) : l ≠ [] → ∃ l' x, l = l' ++ [x].
Proof. intros H. destruct (exists_last H) as (l' & x & E). by exists l', x. Qed.

(** Deleting the element between [l1] and [l2]. *)
Lemma delete_spec realloc l1 x l2 : realloc (Z.of_nat (length (l1 ++ l2))) = true →
  safe_array_delete realloc (l1 ++ x :: l2) (Z.of_nat (length l1)) =
  l1 ++ match last l2 with Some y => y :: take (length l2 - 1) l2 | None => [] end.
Proof.
  intros Hr. unfold safe_array_delete, safe_array_count. rewrite length_app in *. cbn [length].
  destruct (Z.ltb_spec (Z.of_nat (length l1)) 0); [lia|].
  destruct (Z.ltb_spec (Z.of_nat (length l1)) (Z.of_nat (length l1 + S (length l2)))); [|lia].
  rewrite last_app, last_cons, Nat2Z.id.
  destruct (decide (l2 = [])) as [->|Hne].
  - cbn [length last]. destruct (Z.ltb_spec (Z.of_nat (length l1)) (Z.of_nat (length l1 + 1) - 1));
      [lia|]. rewrite length_app. cbn [length].
    replace (Z.of_nat (length l1 + 1) - 1) with (Z.of_nat (length l1 + length (@nil A)))
      by (cbn; lia). rewrite Hr. cbn [orb]. rewrite take_app_length' by lia. by rewrite app_nil_r.
  - destruct (last_decompose l2 Hne) as (l & y & ->). rewrite last_snoc, length_app in *.
    cbn [length] in *.
    destruct (Z.ltb_spec (Z.of_nat (length l1)) (Z.of_nat (length l1 + S (length l + 1)) - 1)); [|lia].
    rewrite insert_app_r_alt, Nat.sub_diag by lia.
    cbn [insert list_insert]. rewrite length_app. cbn [length]. rewrite length_app. cbn [length].
    replace (Z.of_nat (length l1 + S (length l + 1)) - 1)
      with (Z.of_nat (length l1 + (length l + 1))) by lia. rewrite Hr. cbn [orb].
    change (y :: l ++ [y]) with ((y :: l) ++ [y]). rewrite (app_assoc l1).
    rewrite take_app_length' by (rewrite length_app; cbn; lia).
    by rewrite (take_app_length' l [y]) by lia.
Qed.

(** A pop takes the first pointer and keeps the order of the others; where memory cannot
    be released, the last one stays twice. *)
Lemma pop_cons realloc x l :
  safe_array_pop realloc (x :: l) =
  (Some x, if realloc (Z.of_nat (length l)) || (safe_array_count l =? 0) then l
           else l ++ match last l with Some y => [y] | None => [x] end).
Proof.
  unfold safe_array_pop.
  assert (Eg : safe_array_get (x :: l) 0 = Some x) by apply (get_nat (x :: l) 0).
  rewrite Eg. cbn [length]. rewrite Nat.sub_1_r. cbn [Nat.pred].
  pose proof (shift_down_cons_spec [] x l) as E. cbn [app length] in E. rewrite E. f_equal.
  set (arr := match last l with Some y => l ++ [y] | None => [x] end).
  assert (Harr : arr = l ++ [match last l with Some y => y | None => x end]).
  { unfold arr. destruct (last l) eqn:El; [done|]. by apply last_None in El as ->. }
  unfold safe_array_delete, safe_array_count. rewrite Harr, length_app. cbn [length].
  destruct (Z.ltb_spec (Z.of_nat (length l + 1) - 1) 0); [lia|].
  destruct (Z.ltb_spec (Z.of_nat (length l + 1) - 1) (Z.of_nat (length l + 1))); [|lia].
  destruct (Z.ltb_spec (Z.of_nat (length l + 1) - 1) (Z.of_nat (length l + 1) - 1)); [lia|].
  rewrite length_app. cbn [length].
  replace (Z.of_nat (length l + 1) - 1) with (Z.of_nat (length l)) by lia.
  assert (E1 : (Z.of_nat (length l + 1) =? 1) = (Z.of_nat (length l) =? 0)).
  { apply eq_true_iff_eq. rewrite !Z.eqb_eq. lia. }
  rewrite E1.
  rewrite take_app_length' by lia. by destruct (last l).
Qed.

Lemma pop_nil realloc : safe_array_pop realloc [] = (None, []).
Proof. done. Qed.

(** A clean removes what is to go and keeps the rest, not always in its order. *)
Lemma clean_from_spec realloc del (Hr : ∀ n, realloc n = true) l2 : ∀ fuel l1,
  (length l2 < fuel)%nat →
  ∃ l, clean_from realloc fuel del (l1 ++ l2) (Z.of_nat (length l1)) = Some (l1 ++ l) ∧
       l ≡ₚ filter (λ x, del x = false) l2.
Proof.
  induction l2 as [l2 IH] using (well_founded_induction (well_founded_ltof _ length)).
  unfold ltof in IH. intros [|fuel] l1 Hf; [lia|]. cbn [clean_from]. rewrite get_nat.
  rewrite lookup_app_r, Nat.sub_diag by done. destruct l2 as [|x l2]; cbn [lookup list_lookup].
  { exists []. by rewrite app_nil_r. }
  cbn [length] in Hf. destruct (del x) eqn:Ed.
  - rewrite filter_cons_False by congruence. rewrite delete_spec by done.
    destruct (decide (l2 = [])) as [->|Hne].
    { cbn [last]. destruct (IH [] ltac:(cbn; lia) fuel l1 ltac:(cbn in *; lia)) as (l & E & Hl). by exists l. }
    destruct (last_decompose l2 Hne) as (l' & y & ->). rewrite last_snoc, length_app in *.
    cbn [length] in *. rewrite take_app_length' by lia.
    destruct (IH (y :: l') ltac:(cbn; rewrite length_app; cbn; lia) fuel l1 ltac:(cbn; lia))
      as (l & -> & Hl). exists l. split; [done|]. rewrite Hl.
    by rewrite (Permutation_cons_append l' y).
  - rewrite filter_cons_True by done.
    replace (Z.of_nat (length l1) + 1) with (Z.of_nat (length (l1 ++ [x])))
      by (rewrite length_app; cbn; lia).
    change (l1 ++ x :: l2) with (l1 ++ [x] ++ l2). rewrite (app_assoc l1).
    destruct (IH l2 ltac:(cbn; lia) fuel (l1 ++ [x]) ltac:(lia)) as (l & -> & Hl).
    exists (x :: l). rewrite <- app_assoc. split; [done|]. by apply Permutation_skip.
Qed.

Lemma clean_spec realloc del l : (∀ n, realloc n = true) →
  ∃ l', safe_array_clean realloc del l = Some l' ∧ l' ≡ₚ filter (λ x, del x = false) l.
Proof. intros Hr. apply (clean_from_spec realloc del Hr l (S (length l)) []). lia. Qed.

Lemma shift_up_spec l1 : ∀ z l2,
  ∃ y, shift_up (l1 ++ z :: l2) (length l1) = y :: l1 ++ l2.
Proof.
  induction l1 as [|x l1 IH] using rev_ind; intros z l2; [by exists z|].
  rewrite length_app, Nat.add_1_r. cbn [length shift_up]. rewrite <- app_assoc.
  rewrite lookup_app_r, Nat.sub_diag by done. cbn [app lookup list_lookup].
  rewrite insert_app_r_alt by lia.
  replace (S (length l1) - length l1)%nat with 1%nat by lia. cbn [insert list_insert].
  destruct (IH x (x :: l2)) as [y ->]. exists y. by rewrite <- app_assoc.
Qed.

Lemma move_to_begin_spec l1 x l2 :
  safe_array_move_to_begin (l1 ++ x :: l2) (Z.of_nat (length l1)) = x :: l1 ++ l2.
Proof.
  unfold safe_array_move_to_begin, safe_array_count. rewrite length_app. cbn [length].
  destruct (Z.leb_spec (Z.of_nat (length l1 + S (length l2))) (Z.of_nat (length l1))); [lia|].
  destruct (Z.ltb_spec (Z.of_nat (length l1)) 1).
  - by destruct l1; [|cbn in *; lia].
  - cbn [orb]. rewrite Nat2Z.id, lookup_app_r, Nat.sub_diag by done.
    cbn [lookup list_lookup]. by destruct (shift_up_spec l1 x l2) as [y ->].
Qed.

Lemma find_from_spec l p : ∀ a, 0 <= a →
  (∃ i, find_from l a p = a + Z.of_nat i ∧ l !! i = Some p ∧
        ∀ j, (j < i)%nat → l !! j ≠ Some p) ∨
  (find_from l a p = -1 ∧ p ∉ l).
Proof.
  induction l as [|x l IH]; intros a Ha; cbn [find_from].
  - right. split; [done|apply not_elem_of_nil].
  - destruct (decide (x = p)) as [->|Hne].
    + left. exists 0%nat. split; [lia|split; [done|lia]].
    + destruct (IH (a + 1) ltac:(lia)) as [(i & E & Hi & Hj)|[E Hn]].
      * left. exists (S i). split; [lia|]. split; [done|]. intros [|j] Hlt; cbn.
        -- by injection.
        -- apply Hj. lia.
      * right. split; [done|]. rewrite not_elem_of_cons. by split.
Qed.

Lemma findcnd_spec cnd l : safe_array_findcnd cnd l = find_first cnd l.
Proof. induction l as [|x l IH]; [done|]. cbn. by destruct (cnd x). Qed.

(** The array keeps what was put into it. While memory can be had, an added pointer
    becomes the last one, a pop takes the pointers in the order of their additions, a
    removal takes one occurrence, a clean keeps exactly what its condition spares, whatever
    the condition, and ends, and moving to the beginning is a permutation. *)
Theorem safe_array_keeps realloc l : (∀ n, realloc n = true) →
  (∀ p, safe_array_add realloc l (Some p) = (safe_array_count l, l ++ [p])) ∧
  (∀ p, safe_array_pop realloc (l ++ [p]) =
        (Some (default p (head l)), match l with [] => [] | _ :: l => l ++ [p] end)) ∧
  (∀ p, p ∈ l → p :: safe_array_remove realloc l (Some p) ≡ₚ l) ∧
  (∀ p, p ∉ l → safe_array_remove realloc l (Some p) = l) ∧
  (∀ del, ∃ l', safe_array_clean realloc del l = Some l' ∧ l' ≡ₚ filter (λ x, del x = false) l) ∧
  (∀ i, safe_array_move_to_begin l i ≡ₚ l).
Proof.
  intros Hr. repeat split.
  - intros p. unfold safe_array_add. by rewrite Hr.
  - intros p. destruct l as [|x l]; cbn [app head default]; rewrite pop_cons, Hr; done.
  - intros p Hp. unfold safe_array_remove, safe_array_find.
    destruct (find_from_spec l p 0 ltac:(lia)) as [(i & -> & Hi & _)|[_ Hn]]; [|done].
    rewrite Z.add_0_l. apply list_elem_of_split_length in Hi as (l1 & l2 & -> & ->).
    rewrite delete_spec by done. destruct (decide (l2 = [])) as [->|Hne].
    + cbn [last]. by rewrite app_nil_r, Permutation_cons_append.
    + destruct (last_decompose l2 Hne) as (l' & y & ->). rewrite last_snoc, length_app.
      cbn [length]. rewrite take_app_length' by lia.
      by rewrite (Permutation_cons_append l' y), (Permutation_middle l1).
  - intros p Hp. unfold safe_array_remove, safe_array_find.
    by destruct (find_from_spec l p 0 ltac:(lia)) as [(i & _ & Hi%list_elem_of_lookup_2 & _)|[-> _]].
  - intros del. by apply clean_spec.
  - intros i. unfold safe_array_move_to_begin.
    destruct ((i <? 1) || (safe_array_count l <=? i)) eqn:Eb; [done|].
    apply orb_false_elim in Eb as [H1%Z.ltb_ge H2%Z.leb_gt]. unfold safe_array_count in H2.
    destruct (l !! Z.to_nat i) as [x|] eqn:E; [|done].
    apply list_elem_of_split_length in E as (l1 & l2 & -> & Ei). rewrite Ei.
    destruct (shift_up_spec l1 x l2) as [y ->]. cbn [insert list_insert].
    apply Permutation_middle.
Qed.
End safe_array.

Lemma safe_array_keeps_witness :
  safe_array_pop (λ _, true) ([1; 2] ++ [3]) = (Some 1, [2; 3]) ∧
  safe_array_clean (λ _, true) (λ x, x =? 1) [1; 2; 3] = Some [3; 2].
Proof.
  split; [|reflexivity].
  exact (proj1 (proj2 (safe_array_keeps (λ _, true) [1; 2] (λ _, eq_refl))) 3).
Defined.
