(* ===== verification/IpcText.v ===== *)
(** * IpcText: numbers in the texts of the local socket

    What snprintf and sscanf of the C library do with "%i", "%u" and "%f", as the server and
    its companion programs use them in the commands of ipc/ and of the scheduler's
    ipcclient.cpp. A text is a list of characters. *)

From Stdlib Require Import Ascii.
From stdpp Require Import strings.
From S2P Require Import Prelude.

#[local] Open Scope list_scope.
#[local] Open Scope Z_scope.

Notation text := (list ascii).

Definition str (s : string) : text := String.list_ascii_of_string s.

Definition newline : ascii := ascii_of_nat 10.

Definition code (c : ascii) : Z := Z.of_nat (nat_of_ascii c).

(** ** Printing *)

Definition dec_digit (n : Z) : ascii := ascii_of_nat (Z.to_nat (48 + n)).

(** The decimal digits of a number that has at most [fuel] of them. *)
Fixpoint dec (fuel : nat) (n : Z) : text :=
  match fuel with
  | O => []
  | S fuel => if n <? 10 then [dec_digit n] else dec fuel (n / 10) ++ [dec_digit (n mod 10)]
  end.

(** "%i" of an int; it has at most ten digits. *)
Definition print_i (z : Z) : text := if z <? 0 then "-"%char :: dec 10 (- z) else dec 10 z.

(** "%i,%i,...": the numbers between commas. *)
Fixpoint print_ints (l : list Z) : text :=
  match l with
  | [] => []
  | [z] => print_i z
  | z :: l => print_i z ++ ","%char :: print_ints l
  end.

(** ** Scanning *)

Definition i16 (z : Z) : Z := (z + 2 ^ 15) mod 2 ^ 16 - 2 ^ 15.

Definition is_space (c : ascii) : bool := (code c =? 32) || ((9 <=? code c) && (code c <=? 13)).

Fixpoint skip_space (s : text) : text :=
  match s with c :: s' => if is_space c then skip_space s' else s | [] => [] end.

(** The value of a digit. *)
Definition digit_value (base : Z) (c : ascii) : option Z :=
  let v := if (48 <=? code c) && (code c <=? 57) then code c - 48
           else if (65 <=? code c) && (code c <=? 90) then code c - 55
           else if (97 <=? code c) && (code c <=? 122) then code c - 87
           else 99 in
  if v <? base then Some v else None.

(** As many digits as there are, on top of [n]. *)
Fixpoint digits (base : Z) (s : text) (n : Z) : Z * text :=
  match s with
  | c :: s' => match digit_value base c with
               | Some d => digits base s' (base * n + d)
               | None => (n, s)
               end
  | [] => (n, [])
  end.

(** Digits, of which there is at least one. *)
Definition number (base : Z) (s : text) : option (Z * text) :=
  match s with
  | c :: _ => match digit_value base c with Some _ => Some (digits base s 0) | None => None end
  | [] => None
  end.

Definition sign_of (s : text) : Z * text :=
  match s with
  | c :: s' => if bool_decide (c = "-"%char) then (-1, s')
               else if bool_decide (c = "+"%char) then (1, s') else (1, s)
  | [] => (1, [])
  end.

Definition is_x (c : ascii) : bool := bool_decide (c = "x"%char ∨ c = "X"%char).

(** A number that is hexadecimal after 0x, octal after 0 and else decimal. *)
Definition any_number (s : text) : option (Z * text) :=
  match s with
  | c :: s' =>
      if bool_decide (c = "0"%char) then
        match s' with
        | x :: s'' => if is_x x then number 16 s'' else number 8 s
        | [] => number 8 s
        end
      else number 10 s
  | [] => None
  end.

(** "%i": white space, a sign and a number. (A number that is no int is undefined in C; it
    wraps here.) *)
Definition scan_i (s : text) : option (Z * text) :=
  let '(sign, s) := sign_of (skip_space s) in
  '(n, rest) ← any_number s; Some (i32 (sign * n), rest).

(** "%u", "%hhu" and "%hi", with the width of their variable. *)
Definition scan_wrapped (wrap : Z → Z) (read : text → option (Z * text)) (s : text)
    : option (Z * text) :=
  let '(sign, s) := sign_of (skip_space s) in
  '(n, rest) ← read s; Some (wrap (sign * n), rest).

Definition scan_u : text → option (Z * text) := scan_wrapped u32 (number 10).
Definition scan_hhu : text → option (Z * text) := scan_wrapped u8 (number 10).
Definition scan_hi : text → option (Z * text) := scan_wrapped i16 any_number.

(** "%f": whether there is a number (or inf, or nan); its value and what follows it do not
    matter to the code. *)
Definition is_float (s : text) : bool :=
  let lower := (λ c, if (65 <=? code c) && (code c <=? 90)
                     then ascii_of_nat (Z.to_nat (code c + 32)) else c) in
  match (sign_of (skip_space s)).2 with
  | c :: s =>
      match digit_value 10 c with
      | Some _ => true
      | None =>
          match s with
          | d :: s =>
              (bool_decide (c = "."%char) && bool_decide (is_Some (digit_value 10 d)))
              || bool_decide (lower <$> take 3 (c :: d :: s) = str "inf")
              || bool_decide (lower <$> take 3 (c :: d :: s) = str "nan")
          | [] => false
          end
      end
  | [] => false
  end.

Definition scan_f (s : text) : option (Z * text) := if is_float s then Some (0, []) else None.

(** The conversions of a format "x,y,...", up to the first that fails; the commas have to
    be there. *)
Fixpoint scan_list (scans : list (text → option (Z * text))) (s : text) : list Z :=
  match scans with
  | [] => []
  | scan :: scans =>
      match scan s with
      | None => []
      | Some (v, rest) =>
          v :: match rest with
               | c :: rest => if bool_decide (c = ","%char) then scan_list scans rest else []
               | [] => []
               end
      end
  end.

(** "%i,%i,...": [k] numbers. *)
Definition scan_ints (k : nat) (s : text) : list Z := scan_list (replicate k scan_i) s.

(** A variable of the call: zero, when the conversion was not reached. *)
Notation arg l i := (nth i l 0).

(** ** Facts *)

(** What follows a number that is printed: not a digit, and no x. *)
Definition ends_number (s : text) : Prop :=
  match s with c :: _ => digit_value 10 c = None ∧ is_x c = false | [] => True end.

Lemma digits_end base s n : base <= 10 → ends_number s → digits base s n = (n, s).
Proof.
  intros Hb. destruct s as [|c s]; [done|]. intros [Hd _]. cbn [digits].
  unfold digit_value in *. repeat case_match; try done; lia.
Qed.

Lemma dec_digit_value base d : 0 <= d < base → base <= 10 →
  digit_value base (dec_digit d) = Some d.
Proof.
  intros Hd Hb. assert (Hin : d ∈ seqZ 0 10) by (apply elem_of_seqZ; lia).
  assert (Hall : Forall (λ d, code (dec_digit d) = 48 + d) (seqZ 0 10)).
  { apply (bool_decide_unpack _). by vm_compute. }
  rewrite Forall_forall in Hall. unfold digit_value. rewrite (Hall d Hin).
  replace ((48 <=? 48 + d) && (48 + d <=? 57))%bool with true by lia.
  replace (48 + d - 48) with d by lia. by replace (d <? base) with true by lia.
Qed.

Lemma digits_dec fuel : ∀ n rest, 0 <= n < 10 ^ Z.of_nat fuel → (0 < fuel)%nat →
  digits 10 (dec fuel n ++ rest) 0 = digits 10 rest n.
Proof.
  induction fuel as [|fuel IH]; intros n rest Hn Hf; [lia|]. cbn [dec].
  destruct (Z.ltb_spec n 10).
  { cbn [app digits]. by rewrite dec_digit_value by lia. }
  rewrite <- app_assoc. cbn [app].
  assert (Hdiv : 0 <= n / 10 < 10 ^ Z.of_nat fuel).
  { split; [apply Z.div_pos; lia|]. apply Z.div_lt_upper_bound; [lia|].
    rewrite Nat2Z.inj_succ, Z.pow_succ_r in Hn by lia. lia. }
  rewrite IH; [|done|].
  - cbn [digits]. rewrite dec_digit_value by (pose proof (Z.mod_pos_bound n 10); lia).
    f_equal. pose proof (Z.div_mod n 10). lia.
  - destruct fuel; [|lia]. cbn in Hn. lia.
Qed.

(** The first digit; it is zero for zero only. *)
Lemma dec_head fuel : ∀ n, 0 < n < 10 ^ Z.of_nat fuel →
  ∃ d l, dec fuel n = dec_digit d :: l ∧ 1 <= d <= 9.
Proof.
  induction fuel as [|fuel IH]; intros n Hn; [cbn in Hn; lia|]. cbn [dec].
  destruct (Z.ltb_spec n 10); [exists n, []; split; [done|lia]|].
  destruct (IH (n / 10)) as (d & l & -> & Hd).
  { rewrite Nat2Z.inj_succ, Z.pow_succ_r in Hn by lia.
    split; [apply Z.div_str_pos; lia|]. apply Z.div_lt_upper_bound; lia. }
  by exists d, (l ++ [dec_digit (n mod 10)]).
Qed.

Lemma number_dec n rest : 0 < n < 10 ^ 10 → ends_number rest →
  number 10 (dec 10 n ++ rest) = Some (n, rest).
Proof.
  intros Hn Hr. destruct (dec_head 10 n) as (d & l & E & Hd); [done|].
  unfold number. rewrite E. cbn [app]. rewrite dec_digit_value by lia.
  rewrite app_comm_cons, <- E, digits_dec by lia. by rewrite digits_end.
Qed.

(** What a first digit is not. *)
Lemma dec_digit_plain d s : 0 <= d <= 9 →
  skip_space (dec_digit d :: s) = dec_digit d :: s ∧
  sign_of (dec_digit d :: s) = (1, dec_digit d :: s) ∧
  (1 <= d → dec_digit d ≠ "0"%char).
Proof.
  intros Hd. assert (Hin : d ∈ seqZ 0 10) by (apply elem_of_seqZ; lia).
  assert (Hall : Forall (λ d, is_space (dec_digit d) = false ∧ dec_digit d ≠ "-"%char ∧
                   dec_digit d ≠ "+"%char ∧ (d = 0 ∨ dec_digit d ≠ "0"%char)) (seqZ 0 10)).
  { apply (bool_decide_unpack _). by vm_compute. }
  rewrite Forall_forall in Hall. destruct (Hall d Hin) as (H1 & H2 & H3 & H4).
  cbn [skip_space sign_of]. rewrite H1, !bool_decide_eq_false_2 by done.
  split; [done|]. split; [done|]. intros H. destruct H4; [lia|done].
Qed.

Lemma any_number_dec n rest : 0 <= n < 10 ^ 10 → ends_number rest →
  any_number (dec 10 n ++ rest) = Some (n, rest).
Proof.
  intros Hn Hr. destruct (decide (n = 0)) as [->|Hne].
  { change (dec 10 0) with ["0"%char]. cbn [app any_number]. rewrite bool_decide_eq_true_2 by done.
    assert (H8 : number 8 ("0"%char :: rest) = Some (0, rest)).
    { unfold number. cbn [digits]. change (digit_value 8 "0") with (Some 0). cbn iota.
      by rewrite digits_end. }
    destruct rest as [|c rest]; [done|]. destruct Hr as [Hd Hx]. by rewrite Hx. }
  destruct (dec_head 10 n) as (d & l & E & Hd); [cbn; lia|].
  pose proof (number_dec n rest ltac:(lia) Hr) as Hnum. rewrite E in Hnum |- *.
  cbn [app any_number] in *. destruct (dec_digit_plain d (l ++ rest)) as (_ & _ & Hz); [lia|].
  by rewrite bool_decide_eq_false_2 by (apply Hz; lia).
Qed.

Lemma dec_start n : 0 <= n < 10 ^ 10 → ∃ d l, dec 10 n = dec_digit d :: l ∧ 0 <= d <= 9.
Proof.
  intros Hn. destruct (decide (n = 0)) as [->|Hne]; [by exists 0, []|].
  destruct (dec_head 10 n) as (d & l & E & Hd); [cbn; lia|]. exists d, l. split; [done|lia].
Qed.

(** A number that was printed is scanned as it was. *)
Lemma scan_print_i z rest : is_i32 z → ends_number rest →
  scan_i (print_i z ++ rest) = Some (z, rest).
Proof.
  unfold is_i32. intros Hz Hr. unfold print_i, scan_i. destruct (Z.ltb_spec z 0).
  - cbn [app skip_space]. change (is_space "-") with false. cbn iota.
    unfold sign_of. rewrite bool_decide_eq_true_2 by done.
    rewrite any_number_dec by (done || lia). cbn [mbind option_bind].
    rewrite i32_id by (unfold is_i32; lia). by replace (-1 * - z) with z by lia.
  - assert (Hs : sign_of (skip_space (dec 10 z ++ rest)) = (1, dec 10 z ++ rest)).
    { destruct (dec_start z) as (d & l & E & Hd); [lia|]. rewrite E. cbn [app].
      by destruct (dec_digit_plain d (l ++ rest)) as (-> & -> & _); [lia|]. }
    rewrite Hs, any_number_dec by (done || lia). cbn [mbind option_bind].
    rewrite i32_id by (unfold is_i32; lia). by replace (1 * z) with z by lia.
Qed.

(** And so is a list of them, whatever is left of the line. *)
Lemma scan_print_ints l rest : Forall is_i32 l → l ≠ [] → ends_number rest →
  scan_ints (length l) (print_ints l ++ rest) = l.
Proof.
  unfold scan_ints. intros Hl Hne Hr. induction l as [|z l IH]; [done|]. apply Forall_cons in Hl as [Hz Hl].
  destruct l as [|y l].
  { cbn [length replicate print_ints scan_list]. rewrite scan_print_i by done. by repeat case_match. }
  change (print_ints (z :: y :: l)) with (print_i z ++ ","%char :: print_ints (y :: l)).
  cbn [length replicate scan_list]. rewrite <- app_assoc, scan_print_i by done. cbn [app].
  rewrite bool_decide_eq_true_2 by done. f_equal. by apply IH.
Qed.

Lemma print_i_length z : is_i32 z → (length (print_i z) <= 11)%nat.
Proof.
  intros _. assert (Hd : ∀ fuel n, (length (dec fuel n) <= fuel)%nat).
  { induction fuel as [|fuel IH]; intros n; cbn [dec]; [done|]. case_match; cbn; [lia|].
    rewrite length_app. cbn. specialize (IH (n / 10)). lia. }
  unfold print_i. case_match; cbn [length]; [specialize (Hd 10%nat (- z))|specialize (Hd 10%nat z)]; lia.
Qed.

Lemma print_ints_length l : Forall is_i32 l → (length (print_ints l) <= 12 * length l)%nat.
Proof.
  induction l as [|z l IH]; intros Hl; [done|]. apply Forall_cons in Hl as [Hz Hl].
  pose proof (print_i_length z Hz). destruct l as [|y l]; [cbn; lia|].
  change (print_ints (z :: y :: l)) with (print_i z ++ ","%char :: print_ints (y :: l)).
  rewrite length_app. cbn [length] in *. specialize (IH Hl). lia.
Qed.
