(* ===== verification/IpcCommands.v ===== *)
(** * IpcCommands: the server's side of the local socket

    ipc/: the loop that cuts what is received into lines and gives each line to the first
    command that knows it (abstract_ipc_ctrl.cpp, abstract_ipc_command.cpp), in the order in
    which ipc_ctrl.cpp adds the commands, and the commands that the scheduler uses, with
    all actions on channels and groups. What a command asks of the users, devices and
    scenes is a [server_call]; its result is an argument of the reply. *)

From Stdlib Require Import Ascii.
From stdpp Require Import strings.
From S2P Require Import Prelude Caller Actions IpcText.

#[local] Open Scope list_scope.
#[local] Open Scope Z_scope.

(** ** Commands and calls *)

Inductive ipc_command :=
  | CmdIsDeviceConnected | CmdGetChar | CmdGetRgbw | CmdGetValve | CmdGetHvac
  | CmdGetFacadeBlind | CmdGetDigiglass | CmdSetChar | CmdSetCgChar
  | CmdSetRgbw (color_random group : bool) | CmdSetDigiglass
  | CmdAction (action : Z) | CmdActionCg (action : Z)
  | CmdExecuteScene | CmdInterruptScene | CmdInterruptAndExecuteScene
  | CmdOther (name : string).

#[export] Instance ipc_command_eq_dec : EqDecision ipc_command.
Proof. solve_decision. Defined.

Inductive action_args :=
  | NoArgs
  | ShutArgs (p : shading_parameters)
  | CopyArgs (source_device_id source_channel_id : Z)
  | HvacArgs (h : hvac_parameters)
  | TemperatureArgs (temperature : Z)
  | TemperaturesArgs (heat cool : option Z).

Inductive server_call :=
  | CIsOnline (user_id device_id : Z)
  | CGetValue (cmd : ipc_command) (user_id device_id channel_id : Z)
  | CSetChar (user_id device_id channel_id value : Z)
  | CSetCgChar (user_id group_id value : Z)
  | CRgbw (group : bool) (user_id id : Z) (params : rgbw_parameters)
  | CSetDigiglass (user_id device_id channel_id active_bits mask : Z)
  | CAction (action user_id device_id channel_id : Z) (args : action_args)
  | CActionCg (action user_id group_id : Z) (args : action_args)
  | CExecuteScene (user_id scene_id : Z)
  | CInterruptScene (user_id scene_id : Z)
  | CInterruptAndExecuteScene (user_id scene_id : Z).

(** What follows "ACTION-" or "ACTION-CG-" in the name of a command. *)
Definition action_names : list (Z * string) :=
  [(ACTION_OPEN, "OPEN:"); (ACTION_CLOSE, "CLOSE:"); (ACTION_TURN_ON, "TURN-ON:");
   (ACTION_TURN_OFF, "TURN-OFF:"); (ACTION_TOGGLE, "TOGGLE:"); (ACTION_STOP, "STOP:");
   (ACTION_COPY, "COPY:"); (ACTION_UP_OR_STOP, "UP-OR-STOP:");
   (ACTION_DOWN_OR_STOP, "DOWN-OR-STOP:"); (ACTION_STEP_BY_STEP, "SBS:");
   (ACTION_SHUT_PARTIALLY, "SHUT-PARTIALLY:");
   (ACTION_HVAC_SET_PARAMETERS, "HVAC-SET-PARAMETERS:");
   (ACTION_HVAC_SWITCH_TO_MANUAL_MODE, "HVAC-SWITCH-TO-MANUAL-MODE:");
   (ACTION_HVAC_SWITCH_TO_PROGRAM_MODE, "HVAC-SWITCH-TO-PROGRAM-MODE:");
   (ACTION_HVAC_SET_TEMPERATURE, "HVAC-SET-TEMPERATURE:");
   (ACTION_HVAC_SET_TEMPERATURES, "HVAC-SET-TEMPERATURES:")]%string.

Definition action_name (prefix : string) (action : Z) : string :=
  match find_first (λ p, p.1 =? action) action_names with
  | Some (_, name) => prefix +:+ name
  | None => ""%string
  end.

Definition get_command_name (cmd : ipc_command) : string :=
  match cmd with
  | CmdIsDeviceConnected => "IS-IODEV-CONNECTED:"
  | CmdGetChar => "GET-CHAR-VALUE:"
  | CmdGetRgbw => "GET-RGBW-VALUE:"
  | CmdGetValve => "GET-VALVE-VALUE:"
  | CmdGetHvac => "GET-HVAC-VALUE:"
  | CmdGetFacadeBlind => "GET-FACADE-BLIND-VALUE:"
  | CmdGetDigiglass => "GET-DIGIGLASS-VALUE:"
  | CmdSetChar => "SET-CHAR-VALUE:"
  | CmdSetCgChar => "SET-CG-CHAR-VALUE:"
  | CmdSetRgbw color_random group =>
      "SET-" +:+ (if group then "CG-" else "") +:+ (if color_random then "RAND-" else "")
        +:+ "RGBW-VALUE:"
  | CmdSetDigiglass => "SET-DIGIGLASS-VALUE:"
  | CmdAction action => action_name "ACTION-" action
  | CmdActionCg action => action_name "ACTION-CG-" action
  | CmdExecuteScene => "EXECUTE-SCENE:"
  | CmdInterruptScene => "INTERRUPT-SCENE:"
  | CmdInterruptAndExecuteScene => "INTERRUPT-AND-EXECUTE-SCENE:"
  | CmdOther name => name
  end%string.

Definition both (action : Z) : list ipc_command := [CmdActionCg action; CmdAction action].

Definition others (names : list string) : list ipc_command := CmdOther <$> names.

(** In the order in which [supla_ipc_ctrl] adds them. *)
Definition commands : list ipc_command :=
  [CmdOther "IS-CLIENT-CONNECTED:"; CmdIsDeviceConnected]
  ++ others ["IS-CHANNEL-CONNECTED:"; "USER-RECONNECT:"; "CLIENT-RECONNECT:";
             "GET-DOUBLE-VALUE:"; "GET-TEMPERATURE-VALUE:"; "GET-HUMIDITY-VALUE:"]
  ++ [CmdGetChar; CmdOther "GET-CONTAINER-VALUE:"; CmdGetRgbw; CmdOther "GET-EM-VALUE:";
      CmdOther "GET-IC-VALUE:"; CmdGetValve; CmdOther "GET-RELAY-VALUE:"; CmdGetHvac;
      CmdOther "GET-GPM-VALUE:"; CmdGetFacadeBlind; CmdOther "GET-ROLLERSHUTTER-VALUE:";
      CmdSetChar; CmdSetCgChar; CmdSetRgbw true false; CmdSetRgbw false false;
      CmdSetRgbw true true; CmdSetRgbw false true; CmdSetDigiglass; CmdGetDigiglass]
  ++ both ACTION_OPEN ++ both ACTION_CLOSE ++ both ACTION_TURN_ON ++ both ACTION_TURN_OFF
  ++ both ACTION_TOGGLE ++ both ACTION_STOP ++ both ACTION_COPY ++ both ACTION_UP_OR_STOP
  ++ both ACTION_DOWN_OR_STOP ++ both ACTION_STEP_BY_STEP ++ both ACTION_SHUT_PARTIALLY
  ++ both ACTION_HVAC_SET_PARAMETERS ++ both ACTION_HVAC_SWITCH_TO_MANUAL_MODE
  ++ both ACTION_HVAC_SWITCH_TO_PROGRAM_MODE ++ both ACTION_HVAC_SET_TEMPERATURE
  ++ both ACTION_HVAC_SET_TEMPERATURES
  ++ others ["RESET-COUNTERS:"; "RECALIBRATE:"; "PAIR-SUBDEVICE:"; "GET-STATUS";
             "ENTER-CONFIGURATION-MODE:"]
  ++ [CmdExecuteScene; CmdInterruptScene; CmdInterruptAndExecuteScene]
  ++ others ["USER-ALEXA-CREDENTIALS-CHANGED:"; "USER-GOOGLE-HOME-CREDENTIALS-CHANGED:";
             "USER-ON-SCENE-ADDED:"; "USER-ON-SCENE-CHANGED:"; "USER-ON-SCENE-REMOVED:";
             "USER-ON-STATE-WEBHOOK-CHANGED:"; "GET-SCENE-SUMMARY:"; "USER-ON-DEVICE-DELETED:";
             "USER-ON-CHANNEL-ADDED:"; "USER-ON-CHANNEL-DELETED:";
             "USER-ON-MQTT-SETTINGS-CHANGED:"; "USER-BEFORE-DEVICE-DELETE:";
             "USER-ON-CHANNEL-CONFIG-CHANGED:"; "USER-ON-DEVICE-CONFIG-CHANGED:";
             "USER-ON-SETTINGS-CHANGED:"; "USER-BEFORE-CHANNEL-FUNCTION-CHANGE:";
             "PN-GET-LIMIT:"; "USER-ON-VBT-CHANGED:"; "DEVICE-SET-TIME:"; "SEND-PUSH:";
             "TAKE-OCR-PHOTO:"; "MUTE-ALARM-SOUND:"; "IDENTIFY-DEVICE:"; "IDENTIFY-SUBDEVICE:";
             "RESTART-DEVICE:"; "RESTART-SUBDEVICE:"; "UPDATE-CHANNEL-STATE:";
             "OTA-CHECK-UPDATES:"; "OTA-PERFORM-UPDATE:"; "FACTORY-RESET:";
             "SET-CFG-MODE-PASSWORD:"]%string.

(** ** Matching a line *)

Fixpoint starts_with (p s : text) : bool :=
  match p, s with
  | [], _ => true
  | c :: p, d :: s => bool_decide (c = d) && starts_with p s
  | _, [] => false
  end.

(** [strstr]: what is before the first occurrence, and what is after it. *)
Fixpoint split_at (needle s : text) : option (text * text) :=
  if starts_with needle s then Some ([], drop (length needle) s)
  else match s with
       | [] => None
       | c :: s => '(a, b) ← split_at needle s; Some (c :: a, b)
       end.

(** The string that a zero byte ends. *)
Fixpoint c_str (s : text) : text :=
  match s with
  | c :: s => if bool_decide (c = zero) then [] else c :: c_str s
  | [] => []
  end.

Section tokens.
(** Base 64 is decoded by OpenSSL. *)
Context (base64_decode : text → option text).

(** [base64_decode_cut]: the token, and the string without it. *)
Definition base64_decode_cut (s needle : text) : option text * text :=
  match split_at needle s with
  | None => (None, s)
  | Some (a, []) => (None, a)
  | Some (a, value) =>
      (match base64_decode value with Some [] => None | r => r end, a)
  end.

(** A command that was matched: its parameters, and the tokens for the caller. *)
Record matched := Matched {
  params : text;
  alexa_correlation_token : option text;
  google_request_id : option text
}.

(** [process_command]: [None] when the line is not for this command. *)
Definition process_command (cmd : ipc_command) (line : text) : option matched :=
  let name := str (get_command_name cmd) in
  if bool_decide (name = []) then None
  else if bool_decide (length name < length line)%nat && starts_with name line
          && bool_decide (last line = Some newline) then
    let s := c_str (take (length line - 1) line) in
    let '(alexa, s) := base64_decode_cut s (str ",ALEXA-CORRELATION-TOKEN=") in
    let '(google, s) := base64_decode_cut s (str ",GOOGLE-REQUEST-ID=") in
    Some (Matched (drop (length name) s) alexa google)
  else None.

(** The first command of a list that takes the line. *)
Fixpoint dispatch (cmds : list ipc_command) (line : text) : option (ipc_command * matched) :=
  match cmds with
  | [] => None
  | cmd :: cmds => match process_command cmd line with
                   | Some m => Some (cmd, m)
                   | None => dispatch cmds line
                   end
  end.

(** ** The loop of a connection *)

Definition IPC_BUFFER_MAX_SIZE : nat := 4096.

(** One byte: the buffer afterwards, and at the end of a line what it was found to be. A
    line that fills the buffer is forgotten. *)
Definition receive_byte (buffer : text) (c : ascii)
    : text * option (option (ipc_command * matched)) :=
  let buffer := buffer ++ [c] in
  let buffer := if bool_decide (IPC_BUFFER_MAX_SIZE <= length buffer)%nat then [] else buffer in
  if bool_decide (c = newline) then ([], Some (dispatch commands buffer)) else (buffer, None).

(** What is received until a line is not known, which ends the connection. *)
Fixpoint execute_ctrl (input buffer : text) : list (ipc_command * matched) :=
  match input with
  | [] => []
  | c :: input =>
      match receive_byte buffer c with
      | (buffer, None) => execute_ctrl input buffer
      | (buffer, Some (Some m)) => m :: execute_ctrl input buffer
      | (_, Some None) => []
      end
  end.
End tokens.

(** ** The commands *)

(** What a command does: it makes a call, with the identifier for its reply, or replies at
    once. The commands that are not modelled are left as they are. *)
Inductive outcome :=
  | Call (c : server_call) (reply_id : Z)
  | Reply (t : text)
  | NotModelled (name : string) (s : text).

Definition line_of (s : text) : text := s ++ [newline].

(** [send_result(result, i)] *)
Definition result_line (result : string) (i : Z) : text := line_of (str result ++ print_i i).

Definition unknown (i : Z) : outcome := Reply (result_line "UNKNOWN:" i).

Definition nonzero (l : list Z) : bool := forallb (λ z, negb (z =? 0)) l.

(** [process_parameters] *)
Definition process_parameters (s : text) (on_ids : Z → Z → Z → server_call) : outcome :=
  let a := scan_ints 3 s in
  if nonzero [arg a 0; arg a 1; arg a 2]
  then Call (on_ids (arg a 0) (arg a 1) (arg a 2)) (arg a 2)
  else unknown (arg a 2).

Definition is_action (action : Z) (l : list Z) : bool := existsb (Z.eqb action) l.

Definition simple_actions : list Z :=
  [ACTION_OPEN; ACTION_CLOSE; ACTION_TURN_ON; ACTION_TURN_OFF; ACTION_TOGGLE; ACTION_STOP;
   ACTION_UP_OR_STOP; ACTION_DOWN_OR_STOP; ACTION_STEP_BY_STEP;
   ACTION_HVAC_SWITCH_TO_MANUAL_MODE; ACTION_HVAC_SWITCH_TO_PROGRAM_MODE].

Definition shut_args (percentage as_delta tilt tilt_as_delta : Z) : action_args :=
  ShutArgs (SSP (i8 percentage) (i8 tilt)
              (Z.lor (if as_delta =? 0 then 0 else 1) (if tilt_as_delta =? 0 then 0 else 2))).

Definition hvac_args (duration mode heat cool flags : Z) : action_args :=
  HvacArgs (HVAC duration (u8 mode) (i16 heat) (i16 cool) (u16 flags)).

Definition temperatures_args (heat cool flags : Z) : action_args :=
  TemperaturesArgs (if Z.testbit flags 0 then Some heat else None)
    (if Z.testbit flags 1 then Some cool else None).

(** What an action scans after its [n] identifiers, and its arguments; the last answer
    is whether they are there. *)
Definition action_scan (action : Z) (n : nat) (s : text) : list Z * action_args * bool :=
  let scan l := scan_list (replicate n scan_i ++ l) s in
  if action =? ACTION_SHUT_PARTIALLY then
    let a := scan [scan_i; scan_i; scan_i; scan_i] in
    (take n a, shut_args (arg a n) (arg a (n + 1)) (arg a (n + 2)) (arg a (n + 3)), true)
  else if action =? ACTION_COPY then
    let a := scan [scan_i; scan_i] in
    (take n a, CopyArgs (arg a n) (arg a (n + 1)), nonzero [arg a (n + 1)])
  else if action =? ACTION_HVAC_SET_PARAMETERS then
    let a := scan [scan_u; scan_u; scan_i; scan_i; scan_u] in
    (take n a, hvac_args (arg a n) (arg a (n + 1)) (arg a (n + 2)) (arg a (n + 3))
                 (arg a (n + 4)), true)
  else if action =? ACTION_HVAC_SET_TEMPERATURE then
    let a := scan [scan_i] in (take n a, TemperatureArgs (i16 (arg a n)), true)
  else if action =? ACTION_HVAC_SET_TEMPERATURES then
    let a := scan [scan_hi; scan_hi; scan_u] in
    (take n a, temperatures_args (arg a n) (arg a (n + 1)) (arg a (n + 2)), true)
  else (scan [], NoArgs, true).

(** [supla_abstract_action_command] *)
Definition action_on_match (action : Z) (s : text) : outcome :=
  let '(a, args, ok) := action_scan action 3 s in
  if nonzero [arg a 0; arg a 1; arg a 2] && ok
  then Call (CAction action (arg a 0) (arg a 1) (arg a 2) args) (arg a 2)
  else unknown (arg a 2).

Section handlers.
(** [supla_user::find(id, false)] *)
Context (user_exists : Z → bool).

(** [supla_abstract_action_cg_command] *)
Definition action_cg_on_match (action : Z) (s : text) : outcome :=
  let '(a, args, ok) := action_scan action 2 s in
  if nonzero [arg a 0; arg a 1] && ok && user_exists (arg a 0)
  then Call (CActionCg action (arg a 0) (arg a 1) args) (arg a 1)
  else unknown (arg a 1).

Definition out_of_range : outcome := Reply (line_of (str "VALUE OUT OF RANGE")).

Definition set_char_on_match (s : text) : outcome :=
  let a := scan_ints 4 s in
  if nonzero [arg a 0; arg a 1; arg a 2] && user_exists (arg a 0) then
    if (arg a 3 <? 0) || (255 <? arg a 3) then out_of_range
    else Call (CSetChar (arg a 0) (arg a 1) (arg a 2) (i8 (arg a 3))) (arg a 2)
  else unknown (arg a 2).

Definition set_cg_char_on_match (s : text) : outcome :=
  let a := scan_ints 3 s in
  if nonzero [arg a 0; arg a 1] && user_exists (arg a 0) then
    if (arg a 2 <? 0) || (255 <? arg a 2) then out_of_range
    else Call (CSetCgChar (arg a 0) (arg a 1) (i8 (arg a 2))) (arg a 1)
  else unknown (arg a 1).

Definition set_rgbw_on_match (color_random group : bool) (s : text) : outcome :=
  let ids := if group then 2%nat else 3%nat in
  let expected := (ids + (if color_random then 5 else 6))%nat in
  let a := scan_ints expected s in
  if negb (bool_decide (length a = expected))
  then Reply (line_of (str "INCORRECT NUMBERS OF PARAMETERS"))
  else
    let id := arg a (ids - 1) in
    if nonzero [arg a 0; id] then
      let color := if color_random then 0 else arg a ids in
      let k := if color_random then ids else (ids + 1)%nat in
      let '(ok, r) := set_params color color_random (arg a k) (arg a (k + 1)) (arg a (k + 2))
                        (arg a (k + 3)) (arg a (k + 4)) new_rgbw in
      if negb ok then out_of_range else Call (CRgbw group (arg a 0) id r) id
    else unknown id.

Definition set_digiglass_on_match (s : text) : outcome :=
  let a := scan_ints 5 s in
  if nonzero [arg a 0; arg a 1; arg a 2]
  then Call (CSetDigiglass (arg a 0) (arg a 1) (arg a 2) (Z.land (arg a 3) 65535)
               (Z.land (arg a 4) 65535)) (arg a 2)
  else unknown (arg a 2).

(** The three commands for scenes. *)
Definition scene_on_match (call : Z → Z → server_call) (s : text) : outcome :=
  let a := scan_ints 2 s in
  if nonzero [arg a 0; arg a 1] then Call (call (arg a 0) (arg a 1)) (arg a 1)
  else unknown (arg a 1).

Definition is_connected_on_match (s : text) : outcome :=
  let a := scan_ints 2 s in
  if nonzero [arg a 0; arg a 1] then Call (CIsOnline (arg a 0) (arg a 1)) (arg a 1)
  else Reply (result_line "DISCONNECTED:" (arg a 1)).

Definition on_command_match (cmd : ipc_command) (s : text) : outcome :=
  match cmd with
  | CmdIsDeviceConnected => is_connected_on_match s
  | CmdGetChar | CmdGetRgbw | CmdGetValve | CmdGetHvac | CmdGetFacadeBlind | CmdGetDigiglass =>
      process_parameters s (CGetValue cmd)
  | CmdSetChar => set_char_on_match s
  | CmdSetCgChar => set_cg_char_on_match s
  | CmdSetRgbw color_random group => set_rgbw_on_match color_random group s
  | CmdSetDigiglass => set_digiglass_on_match s
  | CmdAction action => action_on_match action s
  | CmdActionCg action => action_cg_on_match action s
  | CmdExecuteScene => scene_on_match CExecuteScene s
  | CmdInterruptScene => scene_on_match CInterruptScene s
  | CmdInterruptAndExecuteScene => scene_on_match CInterruptAndExecuteScene s
  | CmdOther name => NotModelled name s
  end.
End handlers.

(** ** Replies *)

Inductive _sceneExecutionResult_e := serOK | serNotExists | serIsDuringExecution | serInactivePeriod.

(** The result of a call: success, the numbers of a value, or how a scene was started. *)
Inductive call_result :=
  | RBool (ok : bool)
  | RValue (v : option (list Z))
  | RFacadeBlind (v : option (Z * Z * text * Z))
  | RScene (e : _sceneExecutionResult_e).

Definition value_line (numbers : text) : text := line_of (str "VALUE:" ++ numbers).

(** The line that a command sends after its call. *)
Definition reply_to (c : server_call) (id : Z) (r : call_result) : text :=
  match c, r with
  | CIsOnline _ _, RBool ok => result_line (if ok then "CONNECTED:" else "DISCONNECTED:") id
  | CGetValue _ _ _ _, RValue (Some l) => value_line (print_ints l)
  | CGetValue _ _ _ _, RFacadeBlind (Some (position, tilt, angle, flags)) =>
      value_line (print_i position ++ ","%char :: print_i tilt ++ ","%char :: angle
                    ++ ","%char :: print_i flags)
  | CGetValue _ _ _ _, _ => result_line "UNKNOWN:" id
  | CRgbw _ _ _ _, _ => result_line "OK:" id
  | CExecuteScene _ _, RScene serOK => result_line "OK:" id
  | CExecuteScene _ _, RScene serIsDuringExecution => result_line "IS-DURING-EXECUTION:" id
  | CExecuteScene _ _, RScene serInactivePeriod => result_line "INACTIVE-PERIOD:" id
  | CExecuteScene _ _, _ => result_line "UNKNOWN:" id
  | CInterruptScene _ _, _ => result_line "OK:" id
  | CInterruptAndExecuteScene _ _, RBool true => result_line "OK:" id
  | CInterruptAndExecuteScene _ _, _ => result_line "UNKNOWN:" id
  | _, RBool true => result_line "OK:" id
  | _, _ => result_line "FAIL:" id
  end.

(** ** Facts about the dispatch *)

(** Neither text is the beginning of the other. *)
Fixpoint diverge (a b : text) : bool :=
  match a, b with
  | c :: a, d :: b => if bool_decide (c = d) then diverge a b else true
  | _, _ => false
  end.

Lemma diverge_start a b rest : diverge a b = true → starts_with a (b ++ rest) = false.
Proof.
  revert b. induction a as [|c a IH]; intros [|d b]; cbn [diverge starts_with app]; try done.
  case_bool_decide; [by apply IH|done].
Qed.

Lemma starts_with_app p rest : starts_with p (p ++ rest) = true.
Proof. induction p as [|c p IH]; [done|]. cbn. by rewrite bool_decide_eq_true_2. Qed.

Lemma starts_with_nil_false c p s : c ∉ s → starts_with (p ++ [c]) s = false.
Proof.
  revert s. induction p as [|d p IH]; intros [|e s] Hs; cbn [app starts_with]; try done.
  - rewrite bool_decide_eq_false_2; [done|]. intros ->. apply Hs. left.
  - rewrite IH; [apply andb_false_r|]. intros H. apply Hs. by right.
Qed.

(** A needle that ends in a character that is not in the text. *)
Lemma split_at_none p c s : c ∉ s → split_at (p ++ [c]) s = None.
Proof.
  induction s as [|d s IH]; intros Hs.
  - cbn [split_at]. by rewrite starts_with_nil_false.
  - cbn [split_at]. rewrite starts_with_nil_false by done. rewrite IH; [done|].
    intros H. apply Hs. by right.
Qed.

Lemma c_str_id s : zero ∉ s → c_str s = s.
Proof.
  induction s as [|c s IH]; intros Hs; [done|]. cbn [c_str].
  rewrite bool_decide_eq_false_2 by (intros ->; apply Hs; left).
  rewrite IH; [done|]. intros H. apply Hs. by right.
Qed.

Section dispatch_facts.
Context (b64 : text → option text).

(** A line without tokens is for the command with its name. *)
Lemma process_own cmd name s :
  str (get_command_name cmd) = name → name ≠ [] →
  zero ∉ name ++ s → "="%char ∉ name ++ s →
  process_command b64 cmd (name ++ s ++ [newline]) = Some (Matched s None None).
Proof.
  intros Hn Hne Hz He. unfold process_command. rewrite Hn.
  rewrite (bool_decide_eq_false_2 (name = [])) by done.
  assert (Hlen : (length name < length (name ++ s ++ [newline]))%nat).
  { rewrite !length_app. cbn. lia. }
  rewrite (bool_decide_eq_true_2 _ Hlen), starts_with_app.
  rewrite (bool_decide_eq_true_2 (last _ = _)) by (rewrite app_assoc; apply last_snoc).
  cbn [andb]. rewrite app_assoc, length_app. cbn [length].
  rewrite take_app_length' by lia. rewrite c_str_id by done.
  unfold base64_decode_cut.
  change (str ",ALEXA-CORRELATION-TOKEN=") with (str ",ALEXA-CORRELATION-TOKEN" ++ ["="%char]).
  change (str ",GOOGLE-REQUEST-ID=") with (str ",GOOGLE-REQUEST-ID" ++ ["="%char]).
  rewrite !split_at_none by done. by rewrite drop_app_length' by lia.
Qed.

Lemma process_diverge cmd name s :
  diverge (str (get_command_name cmd)) name = true →
  process_command b64 cmd (name ++ s) = None.
Proof.
  intros Hd. unfold process_command. case_bool_decide; [done|].
  rewrite diverge_start by done. by rewrite andb_false_r.
Qed.

(** The first command of the list whose name fits. *)
Definition command_named (name : text) : option ipc_command :=
  find_first (λ cmd, negb (diverge (str (get_command_name cmd)) name)) commands.

Lemma dispatch_named cmds name cmd s :
  find_first (λ cmd, negb (diverge (str (get_command_name cmd)) name)) cmds = Some cmd →
  str (get_command_name cmd) = name → name ≠ [] →
  zero ∉ name ++ s → "="%char ∉ name ++ s →
  dispatch b64 cmds (name ++ s ++ [newline]) = Some (cmd, Matched s None None).
Proof.
  intros Hf Hn Hne Hz He. induction cmds as [|c cmds IH]; [done|].
  cbn [find_first dispatch] in *. destruct (diverge _ name) eqn:Ed; cbn [negb] in Hf.
  - rewrite process_diverge by done. by apply IH.
  - injection Hf as ->. by rewrite process_own.
Qed.

Lemma buffer_fits buffer (c : ascii) : (length buffer < IPC_BUFFER_MAX_SIZE - 1)%nat →
  bool_decide (IPC_BUFFER_MAX_SIZE <= length (buffer ++ [c]))%nat = false.
Proof. intros H. apply bool_decide_eq_false_2. rewrite length_app. cbn [length]. lia. Qed.

(** The bytes of a line that fits into the buffer, after which the buffer is empty. *)
Lemma execute_line line rest m : newline ∉ line →
  (length line < IPC_BUFFER_MAX_SIZE - 1)%nat →
  dispatch b64 commands (line ++ [newline]) = Some m →
  execute_ctrl b64 ((line ++ [newline]) ++ rest) [] = m :: execute_ctrl b64 rest [].
Proof.
  intros Hn Hl Hd.
  assert (H : ∀ l buffer, buffer ++ l = line →
            execute_ctrl b64 ((l ++ [newline]) ++ rest) buffer = m :: execute_ctrl b64 rest []).
  { induction l as [|c l IH]; intros buffer Hb; cbn [app execute_ctrl]; unfold receive_byte.
    - rewrite app_nil_r in Hb. subst buffer. rewrite buffer_fits by done.
      rewrite (bool_decide_eq_true_2 (newline = newline)) by done. by rewrite Hd.
    - assert (Hc : c ≠ newline).
      { intros ->. apply Hn. rewrite <- Hb. apply elem_of_app. right. left. }
      rewrite buffer_fits.
      2:{ apply (f_equal length) in Hb. rewrite length_app in Hb. cbn [length] in Hb. lia. }
      rewrite (bool_decide_eq_false_2 (c = newline)) by done. apply IH.
      by rewrite <- app_assoc. }
  by apply (H line []).
Qed.
End dispatch_facts.
