(* ===== verification/IpcClient.v ===== *)
(** * IpcClient: the scheduler's side of the local socket

    supla-scheduler/src/ipcclient.cpp: what the scheduler asks the server, and what it makes
    of the replies. A run is a function of the texts sent so far, since a reply may depend
    on all of them; [None] stands for a server that cannot be reached or says nothing
    for five seconds. *)

From Stdlib Require Import Ascii.
From stdpp Require Import strings.
From S2P Require Import Prelude Caller Actions IpcText IpcCommands.

#[local] Open Scope list_scope.
#[local] Open Scope Z_scope.

(** ** Requests *)

Inductive ipc_request :=
  | QIsConnected (user_id device_id : Z)
  | QGetValue (cmd : string) (user_id device_id channel_id : Z)
  | QSetChar (user_id device_id channel_id channel_group_id value : Z)
  | QSetRgbw (user_id device_id channel_id channel_group_id color color_brightness brightness : Z)
      (color_random : bool) (command white_temperature : Z)
  | QSetDigiglass (user_id device_id channel_id active_bits mask : Z)
  | QCopy (user_id device_id channel_id channel_group_id source_device_id source_channel_id : Z)
  | QShutPartially (user_id device_id channel_id channel_group_id percentage : Z)
      (percentage_as_delta : bool) (tilt : Z) (tilt_as_delta : bool)
  | QDoAction (cmd cmd_group : string) (user_id device_id channel_id channel_group_id : Z)
  | QScene (cmd : string) (user_id scene_id : Z).

Definition cmd_is_iodev_connected : string := "IS-IODEV-CONNECTED".
Definition cmd_get_char_value : string := "GET-CHAR-VALUE".
Definition cmd_get_rgbw_value : string := "GET-RGBW-VALUE".
Definition cmd_get_valve_value : string := "GET-VALVE-VALUE".
Definition cmd_get_digiglass_value : string := "GET-DIGIGLASS-VALUE".
Definition cmd_get_fb_value : string := "GET-FACADE-BLIND-VALUE".
Definition cmd_get_hvac_value : string := "GET-HVAC-VALUE".
Definition cmd_set_char_value : string := "SET-CHAR-VALUE".
Definition cmd_set_rgbw_value : string := "SET-RGBW-VALUE".
Definition cmd_set_rand_rgbw_value : string := "SET-RAND-RGBW-VALUE".
Definition cmd_set_cg_char_value : string := "SET-CG-CHAR-VALUE".
Definition cmd_set_cg_rgbw_value : string := "SET-CG-RGBW-VALUE".
Definition cmd_set_cg_rand_rgbw_value : string := "SET-CG-RAND-RGBW-VALUE".
Definition cmd_set_digiglass_value : string := "SET-DIGIGLASS-VALUE".
Definition cmd_action_shut_partially : string := "ACTION-SHUT-PARTIALLY".
Definition cmd_action_cg_shut_partially : string := "ACTION-CG-SHUT-PARTIALLY".
Definition cmd_action_copy : string := "ACTION-COPY".
Definition cmd_action_cg_copy : string := "ACTION-CG-COPY".
Definition cmd_execute_scene : string := "EXECUTE-SCENE".
Definition cmd_interrupt_scene : string := "INTERRUPT-SCENE".
Definition cmd_interrupt_and_execute_scene : string := "INTERRUPT-AND-EXECUTE-SCENE".
Definition cmd_hvac_switch_to_program_mode : string := "ACTION-HVAC-SWITCH-TO-PROGRAM-MODE".
Definition cmd_hvac_switch_to_manual_mode : string := "ACTION-HVAC-SWITCH-TO-MANUAL-MODE".
Definition cmd_cg_hvac_switch_to_program_mode : string := "ACTION-CG-HVAC-SWITCH-TO-MANUAL-MODE".
Definition cmd_cg_hvac_switch_to_manual_mode : string := "ACTION-CG-HVAC-SWITCH-TO-PROGRAM-MODE".
Definition cmd_turn_off : string := "ACTION-TURN-OFF".
Definition cmd_turn_on : string := "ACTION-TURN-ON".
Definition cmd_cg_turn_off : string := "ACTION-CG-TURN-OFF".
Definition cmd_cg_turn_on : string := "ACTION-CG-TURN-ON".

Definition IPC_BUFFER_SIZE : nat := 256.

(** snprintf into the buffer: the name, a colon, the numbers and the end of the line. *)
Definition command_text (cmd : string) (args : list Z) : text :=
  take (IPC_BUFFER_SIZE - 1) (str cmd ++ ":"%char :: print_ints args ++ [newline]).

Definition Z_of_bool (b : bool) : Z := if b then 1 else 0.

Definition rgbw_command (group color_random : bool) : string :=
  match group, color_random with
  | true, true => cmd_set_cg_rand_rgbw_value
  | true, false => cmd_set_cg_rgbw_value
  | false, true => cmd_set_rand_rgbw_value
  | false, false => cmd_set_rgbw_value
  end.

(** The name and the numbers of a request; a group takes the place of device and channel. *)
Definition request_args (q : ipc_request) : string * list Z :=
  let target := (λ u d c g : Z, if g =? 0 then [u; d; c] else [u; g]) in
  match q with
  | QIsConnected u d => (cmd_is_iodev_connected, [u; d])
  | QGetValue cmd u d c => (cmd, [u; d; c])
  | QSetChar u d c g value =>
      (if g =? 0 then cmd_set_char_value else cmd_set_cg_char_value, target u d c g ++ [value])
  | QSetRgbw u d c g color cb b color_random command wt =>
      (rgbw_command (negb (g =? 0)) color_random,
       target u d c g ++ (if color_random then [] else [color]) ++ [cb; b; 0; command; wt])
  | QSetDigiglass u d c active_bits mask => (cmd_set_digiglass_value, [u; d; c; active_bits; mask])
  | QCopy u d c g sd sc =>
      (if g =? 0 then cmd_action_copy else cmd_action_cg_copy, target u d c g ++ [sd; sc])
  | QShutPartially u d c g p pd t td =>
      (if g =? 0 then cmd_action_shut_partially else cmd_action_cg_shut_partially,
       target u d c g ++ [p; Z_of_bool pd; t; Z_of_bool td])
  | QDoAction cmd cmd_group u d c g =>
      (if g =? 0 then cmd else cmd_group, target u d c g)
  | QScene cmd u s => (cmd, [u; s])
  end.

Definition request_text (q : ipc_request) : text :=
  command_text (request_args q).1 (request_args q).2.

(** ** The client *)

(** A run: the texts sent before, to a result and the texts sent after. *)
Definition ipc (A : Type) : Type := list text → A * list text.

#[export] Instance ipc_ret : MRet ipc := λ A a h, (a, h).
#[export] Instance ipc_bind : MBind ipc := λ A B f m h, let '(a, h) := m h in f a h.
#[export] Instance ipc_fmap : FMap ipc := λ A B f m h, let '(a, h) := m h in (f a, h).

Section client.
(** What the server replies to the last of the texts. *)
Context (answer : list text → option text).

(** [send] and [read]: the reply, of at most 255 characters; [None] when there is none. A text
    is listed as sent also when there is no connection to send it on. *)
Definition ask (q : ipc_request) : ipc (option text) := λ h,
  let h := h ++ [request_text q] in
  (match answer h with
   | Some [] | None => None
   | Some reply => Some (take (IPC_BUFFER_SIZE - 1) reply)
   end, h).

Definition IPC_RESULT_SERVER_UNREACHABLE : Z := -1.
Definition IPC_RESULT_DISCONNECTED : Z := 0.
Definition IPC_RESULT_CONNECTED : Z := 1.

Definition is_connected (user_id device_id : Z) : ipc Z :=
  reply ← ask (QIsConnected user_id device_id);
  mret match reply with
       | Some r => if starts_with (str "CONNECTED:") r then IPC_RESULT_CONNECTED
                   else if starts_with (str "DISCONNECTED:") r then IPC_RESULT_DISCONNECTED
                   else IPC_RESULT_SERVER_UNREACHABLE
       | None => IPC_RESULT_SERVER_UNREACHABLE
       end.

(** What follows "VALUE:" in the reply. *)
Definition get_value (cmd : string) (user_id device_id channel_id : Z) : ipc (option text) :=
  reply ← ask (QGetValue cmd user_id device_id channel_id);
  mret (r ← reply;
        if starts_with (str "VALUE:") r then Some (drop (length (str "VALUE:")) r) else None).

(** The numbers of a value, when all conversions of the format succeed. *)
Definition all_of (scans : list (text → option (Z * text))) (s : text) : option (list Z) :=
  let l := scan_list scans s in
  if bool_decide (length l = length scans) then Some l else None.

Definition get_char_value (u d c : Z) : ipc (option Z) :=
  s ← get_value cmd_get_char_value u d c;
  mret (l ← (s ≫= all_of [scan_i]);
        if 255 <=? u32 (arg l 0) then None else Some (i8 (arg l 0))).

Definition percent (z : Z) : Z := if (0 <=? z) && (z <=? 100) then z else -1.

Definition get_fb_value (u d c : Z) : ipc (option (Z * Z)) :=
  s ← get_value cmd_get_fb_value u d c;
  mret (l ← (s ≫= all_of [scan_i; scan_i; scan_f]);
        Some (percent (arg l 0), percent (arg l 1))).

(** Colour, its brightness, brightness and white temperature. *)
Definition get_rgbw_value (u d c : Z) : ipc (option (Z * Z * Z * Z)) :=
  s ← get_value cmd_get_rgbw_value u d c;
  mret (l ← (s ≫= all_of [scan_i; scan_i; scan_i; scan_i]);
        if (arg l 1 <? 0) || (100 <? arg l 1) || (arg l 2 <? 0) || (100 <? arg l 2)
           || (arg l 3 <? 0) || (100 <? arg l 3)
        then None else Some (arg l 0, arg l 1, arg l 2, arg l 3)).

(** Whether the valve is closed, and its flags. *)
Definition get_valve_value (u d c : Z) : ipc (option (Z * Z)) :=
  s ← get_value cmd_get_valve_value u d c;
  mret (l ← (s ≫= all_of [scan_hhu; scan_hhu]); Some (arg l 0, arg l 1)).

Definition get_digiglass_value (u d c : Z) : ipc (option Z) :=
  s ← get_value cmd_get_digiglass_value u d c;
  mret (l ← (s ≫= all_of [scan_i]); Some (arg l 0)).

Record hvac_value := HvacValue {
  IsOn : bool; hvac_mode : Z; hvac_heat : Z; hvac_cool : Z; hvac_value_flags : Z;
  hvac_temperature : Z; hvac_humidity : Z
}.

Definition get_hvac_value (u d c : Z) : ipc (option hvac_value) :=
  s ← get_value cmd_get_hvac_value u d c;
  mret (l ← (s ≫= all_of (replicate 7 scan_i));
        Some (HvacValue (0 <? arg l 0) (u8 (arg l 1)) (i16 (arg l 2)) (i16 (arg l 3))
                (u16 (arg l 4)) (arg l 5) (arg l 6))).

(** [check_set_result]: one of the lines that mean success. *)
Definition check_result (oks : list string) (reply : option text) : bool :=
  match reply with Some r => existsb (λ ok, starts_with (str ok) r) oks | None => false end.

Definition command (q : ipc_request) : ipc bool :=
  reply ← ask q; mret (check_result ["OK:"%string] reply).

Definition set_char_value (u d c g value : Z) : ipc bool := command (QSetChar u d c g value).

Definition set_rgbw_value (u d c g color cb b : Z) (color_random : bool) (cmd wt : Z) : ipc bool :=
  command (QSetRgbw u d c g color cb b color_random cmd wt).

Definition set_digiglass_value (u d c active_bits mask : Z) : ipc bool :=
  command (QSetDigiglass u d c active_bits mask).

Definition action_copy (u d c g sd sc : Z) : ipc bool := command (QCopy u d c g sd sc).

Definition action_shut_partially (u d c g p : Z) (pd : bool) (t : Z) (td : bool) : ipc bool :=
  command (QShutPartially u d c g p pd t td).

Definition action_hvac_switch_to_program_mode (u d c g : Z) : ipc bool :=
  command (QDoAction cmd_hvac_switch_to_program_mode cmd_cg_hvac_switch_to_program_mode u d c g).

Definition action_hvac_switch_to_manual_mode (u d c g : Z) : ipc bool :=
  command (QDoAction cmd_hvac_switch_to_manual_mode cmd_cg_hvac_switch_to_manual_mode u d c g).

Definition action_turn_on (u d c g : Z) : ipc bool :=
  command (QDoAction cmd_turn_on cmd_cg_turn_on u d c g).

Definition action_turn_off (u d c g : Z) : ipc bool :=
  command (QDoAction cmd_turn_off cmd_cg_turn_off u d c g).

Definition execute_scene (u s : Z) : ipc bool :=
  reply ← ask (QScene cmd_execute_scene u s);
  mret (check_result ["OK:"; "IS-DURING-EXECUTION:"]%string reply).

Definition interrupt_scene (u s : Z) : ipc bool := command (QScene cmd_interrupt_scene u s).

Definition interrupt_and_execute_scene (u s : Z) : ipc bool :=
  command (QScene cmd_interrupt_and_execute_scene u s).
End client.

(** ** What requests mean to the server *)

(** The commands for values, for actions without arguments, and for scenes. *)
Definition value_commands : list (string * ipc_command) :=
  [(cmd_get_char_value, CmdGetChar); (cmd_get_rgbw_value, CmdGetRgbw);
   (cmd_get_valve_value, CmdGetValve); (cmd_get_digiglass_value, CmdGetDigiglass);
   (cmd_get_fb_value, CmdGetFacadeBlind); (cmd_get_hvac_value, CmdGetHvac)].

Definition action_commands : list (string * Z) :=
  [(cmd_turn_on, ACTION_TURN_ON); (cmd_turn_off, ACTION_TURN_OFF);
   (cmd_hvac_switch_to_program_mode, ACTION_HVAC_SWITCH_TO_PROGRAM_MODE);
   (cmd_hvac_switch_to_manual_mode, ACTION_HVAC_SWITCH_TO_MANUAL_MODE)].

Definition scene_commands : list (string * (Z → Z → server_call)) :=
  [(cmd_execute_scene, CExecuteScene); (cmd_interrupt_scene, CInterruptScene);
   (cmd_interrupt_and_execute_scene, CInterruptAndExecuteScene)].

Definition named {A} (name : string) (l : list (string * A)) : option A :=
  snd <$> find_first (λ p, bool_decide (p.1 = name)) l.

Lemma named_in {A} name (l : list (string * A)) x : named name l = Some x → (name, x) ∈ l.
Proof.
  intros H. apply fmap_Some in H as ([n y] & H & ->).
  apply find_first_Some in H as [Hn Hin]. apply bool_decide_eq_true in Hn. cbn in Hn. by subst n.
Qed.

Definition on_target (u d c g : Z) (action : Z) (args : action_args) : server_call :=
  if g =? 0 then CAction action u d c args else CActionCg action u g args.

Definition delta_flags (pd td : bool) : Z := Z.lor (if pd then 1 else 0) (if td then 2 else 0).

(** The call that a request stands for; that of an action is the one for its command for
    channels. *)
Definition meaning (q : ipc_request) : option server_call :=
  match q with
  | QIsConnected u d => Some (CIsOnline u d)
  | QGetValue cmd u d c => k ← named cmd value_commands; Some (CGetValue k u d c)
  | QSetChar u d c g v => Some (if g =? 0 then CSetChar u d c v else CSetCgChar u g v)
  | QSetRgbw u d c g color cb b color_random cmd wt =>
      Some (CRgbw (negb (g =? 0)) u (if g =? 0 then c else g)
              (RGBW b cb (if (color =? -1) || color_random then 0 else u32 color)
                 (Z_of_bool color_random) 0 cmd wt))
  | QSetDigiglass u d c active_bits mask =>
      Some (CSetDigiglass u d c (Z.land active_bits 65535) (Z.land mask 65535))
  | QCopy u d c g sd sc => Some (on_target u d c g ACTION_COPY (CopyArgs sd sc))
  | QShutPartially u d c g p pd t td =>
      Some (on_target u d c g ACTION_SHUT_PARTIALLY (ShutArgs (SSP p t (delta_flags pd td))))
  | QDoAction cmd _ u d c g => a ← named cmd action_commands; Some (on_target u d c g a NoArgs)
  | QScene cmd u s => f ← named cmd scene_commands; Some (f u s)
  end.

(** The group command of an action belongs to its channel command. *)
Definition group_commands : list (string * string) :=
  [(cmd_turn_on, cmd_cg_turn_on); (cmd_turn_off, cmd_cg_turn_off);
   (cmd_hvac_switch_to_program_mode, cmd_cg_hvac_switch_to_program_mode);
   (cmd_hvac_switch_to_manual_mode, cmd_cg_hvac_switch_to_manual_mode)].

(** Identifiers are not zero and numbers are in their ranges, as set_params and the
    conversions to char need them. *)
Definition target_ok (u d c g : Z) : Prop := u ≠ 0 ∧ (g = 0 → d ≠ 0 ∧ c ≠ 0).

Definition in_range (a z b : Z) : Prop := a <= z <= b.

Definition request_ok (q : ipc_request) : Prop :=
  Forall is_i32 (request_args q).2 ∧
  match q with
  | QIsConnected u d => u ≠ 0 ∧ d ≠ 0
  | QGetValue _ u d c => u ≠ 0 ∧ d ≠ 0 ∧ c ≠ 0
  | QSetChar u d c g v => target_ok u d c g ∧ in_range 0 v 127
  | QSetRgbw u d c g color cb b color_random cmd wt =>
      u ≠ 0 ∧ (g = 0 → c ≠ 0) ∧ in_range (-1) cb 100 ∧ in_range (-1) b 100 ∧
      in_range (-1) cmd RGBW_COMMAND_SET_WHITE_TEMPERATURE_WITHOUT_TURN_ON ∧
      in_range (-1) wt 100
  | QSetDigiglass u d c _ _ => u ≠ 0 ∧ d ≠ 0 ∧ c ≠ 0
  | QCopy u d c g sd sc => target_ok u d c g ∧ sc ≠ 0
  | QShutPartially u d c g p _ t _ =>
      target_ok u d c g ∧ in_range (-128) p 127 ∧ in_range (-128) t 127
  | QDoAction cmd cmd_group u d c g => target_ok u d c g ∧ (cmd, cmd_group) ∈ group_commands
  | QScene _ u s => u ≠ 0 ∧ s ≠ 0
  end.

(** *** The line of a request *)

(** Characters of which a line consists: no zero, no newline, no equals sign. *)
Definition plain (c : ascii) : Prop := c ≠ zero ∧ c ≠ newline ∧ c ≠ "="%char.

#[export] Instance plain_dec c : Decision (plain c).
Proof. apply _. Defined.

Lemma dec_digit_ok d : 0 <= d <= 9 → plain (dec_digit d).
Proof.
  intros Hd. assert (Hin : d ∈ seqZ 0 10) by (apply elem_of_seqZ; lia).
  assert (Hall : Forall (λ d, plain (dec_digit d)) (seqZ 0 10)).
  { apply (bool_decide_unpack _). by vm_compute. }
  rewrite Forall_forall in Hall. by apply Hall.
Qed.

Lemma dec_plain fuel : ∀ n, 0 <= n → Forall plain (dec fuel n).
Proof.
  induction fuel as [|fuel IH]; intros n Hn; cbn [dec]; [constructor|].
  destruct (Z.ltb_spec n 10).
  - apply Forall_cons_2; [apply dec_digit_ok; lia|constructor].
  - apply Forall_app. split; [apply IH, Z.div_pos; lia|].
    apply Forall_cons_2; [|constructor]. apply dec_digit_ok.
    pose proof (Z.mod_pos_bound n 10). lia.
Qed.

Lemma print_i_plain z : Forall plain (print_i z).
Proof.
  unfold print_i. destruct (Z.ltb_spec z 0); [|apply dec_plain; lia].
  apply Forall_cons_2; [by apply (bool_decide_unpack _)|apply dec_plain; lia].
Qed.

Lemma print_ints_plain l : Forall plain (print_ints l).
Proof.
  induction l as [|z l IH]; [constructor|]. destruct l as [|y l]; [apply print_i_plain|].
  change (print_ints (z :: y :: l)) with (print_i z ++ ","%char :: print_ints (y :: l)).
  apply Forall_app. split; [apply print_i_plain|].
  apply Forall_cons_2; [by apply (bool_decide_unpack _)|done].
Qed.

(** What is needed of a name of a command; it is decided by evaluation. *)
Definition name_ok (cmd : string) (k : ipc_command) : Prop :=
  (length (str cmd) <= 40)%nat ∧ Forall plain (str cmd) ∧
  command_named (str cmd ++ [":"%char]) = Some k ∧
  str (get_command_name k) = str cmd ++ [":"%char].

#[export] Instance name_ok_dec cmd k : Decision (name_ok cmd k).
Proof. apply _. Defined.

Lemma command_text_plain cmd args : (length (str cmd) <= 40)%nat → (length args <= 9)%nat →
  Forall is_i32 args →
  command_text cmd args = (str cmd ++ [":"%char]) ++ print_ints args ++ [newline].
Proof.
  intros Hc Ha Hi. unfold command_text.
  assert (E : str cmd ++ ":"%char :: print_ints args ++ [newline]
              = (str cmd ++ [":"%char]) ++ print_ints args ++ [newline])
    by by rewrite <- app_assoc.
  rewrite E. apply take_ge. rewrite !length_app.
  pose proof (print_ints_length args Hi). unfold IPC_BUFFER_SIZE. cbn [length]. lia.
Qed.

Section understood.
Context (b64 : text → option text) (user_exists : Z → bool).

Lemma command_received cmd k args rest : name_ok cmd k → (length args <= 9)%nat →
  Forall is_i32 args →
  execute_ctrl b64 (command_text cmd args ++ rest) [] =
  (k, Matched (print_ints args) None None) :: execute_ctrl b64 rest [].
Proof.
  intros (Hlen & Hp & Hk & Hn) Ha Hi. rewrite command_text_plain by done.
  assert (Hplain : Forall plain ((str cmd ++ [":"%char]) ++ print_ints args)).
  { repeat (apply Forall_app; split); [done| |apply print_ints_plain].
    apply Forall_cons_2; [by apply (bool_decide_unpack _)|constructor]. }
  assert (Hnot : ∀ c, ¬ plain c → c ∉ (str cmd ++ [":"%char]) ++ print_ints args).
  { intros c Hc Hin. rewrite Forall_forall in Hplain. by apply Hc, Hplain. }
  rewrite app_assoc. apply execute_line.
  - apply Hnot. intros (_ & H & _). done.
  - rewrite !length_app. pose proof (print_ints_length args Hi). unfold IPC_BUFFER_MAX_SIZE.
    cbn [length]. lia.
  - rewrite <- (app_assoc _ (print_ints args)). apply dispatch_named; [done|done| | |].
    + by destruct (str cmd).
    + apply Hnot. intros (H & _). done.
    + apply Hnot. intros (_ & _ & H). done.
Qed.

Lemma scan_n k l : length l = k → Forall is_i32 l → l ≠ [] → scan_ints k (print_ints l) = l.
Proof. intros <- Hl Hne. rewrite <- (app_nil_r (print_ints l)). by apply scan_print_ints. Qed.

Lemma nonzero_true l : Forall (λ z, z ≠ 0) l → nonzero l = true.
Proof.
  induction l as [|z l IH]; intros H; [done|]. apply Forall_cons in H as [Hz H].
  cbn [nonzero forallb]. rewrite (proj2 (Z.eqb_neq z 0) Hz). by apply IH.
Qed.

(** The server takes the line for its command and makes the call, whatever follows. *)
Definition understood (line : text) (c : server_call) : Prop :=
  ∃ k s id, on_command_match user_exists k s = Call c id ∧
    ∀ rest, execute_ctrl b64 (line ++ rest) [] = (k, Matched s None None) :: execute_ctrl b64 rest [].

Lemma understood_by k cmd args c id : name_ok cmd k → (length args <= 9)%nat →
  Forall is_i32 args → on_command_match user_exists k (print_ints args) = Call c id →
  understood (command_text cmd args) c.
Proof.
  intros Hn Hl Hi Hc. exists k, (print_ints args), id. split; [done|].
  intros rest. by apply command_received.
Qed.

Lemma value_understood cmd k u d c : (cmd, k) ∈ value_commands →
  Forall is_i32 [u; d; c] → u ≠ 0 → d ≠ 0 → c ≠ 0 →
  understood (command_text cmd [u; d; c]) (CGetValue k u d c).
Proof.
  intros Hin Hi Hu Hd Hc.
  assert (Hall : Forall (λ p, name_ok p.1 p.2) value_commands).
  { apply (bool_decide_unpack _). by vm_compute. }
  rewrite Forall_forall in Hall. apply (understood_by k _ _ _ c (Hall _ Hin)); [cbn; lia|done|].
  assert (Hp : ∀ f, process_parameters (print_ints [u; d; c]) f = Call (f u d c) c).
  { intros f. unfold process_parameters. rewrite (scan_n 3 [u; d; c]) by done.
    cbn [nth]. by rewrite nonzero_true by (repeat apply Forall_cons_2; done). }
  set_unfold in Hin. naive_solver.
Qed.

(** Evaluates the conditions on numbers that are not zero. *)
Ltac nonzero := rewrite nonzero_true by (repeat apply Forall_cons_2; done).

Lemma connected_understood u d : Forall is_i32 [u; d] → u ≠ 0 → d ≠ 0 →
  understood (command_text cmd_is_iodev_connected [u; d]) (CIsOnline u d).
Proof.
  intros Hi Hu Hd. apply (understood_by CmdIsDeviceConnected _ _ _ d);
    [by apply (bool_decide_unpack _); vm_compute|cbn; lia|done|].
  cbn [on_command_match]. unfold is_connected_on_match. rewrite (scan_n 2 [u; d]) by done.
  cbn [nth]. by nonzero.
Qed.

Lemma scene_understood cmd f u s : (cmd, f) ∈ scene_commands →
  Forall is_i32 [u; s] → u ≠ 0 → s ≠ 0 → understood (command_text cmd [u; s]) (f u s).
Proof.
  intros Hin Hi Hu Hs.
  assert (Hp : ∀ f, scene_on_match f (print_ints [u; s]) = Call (f u s) s).
  { intros g. unfold scene_on_match. rewrite (scan_n 2 [u; s]) by done. cbn [nth]. by nonzero. }
  unfold scene_commands in Hin. rewrite !elem_of_cons, elem_of_nil in Hin.
  destruct Hin as [[= -> ->]|[[= -> ->]|[[= -> ->]|[]]]].
  - apply (understood_by CmdExecuteScene _ _ _ s);
      [by apply (bool_decide_unpack _); vm_compute|cbn; lia|done|apply Hp].
  - apply (understood_by CmdInterruptScene _ _ _ s);
      [by apply (bool_decide_unpack _); vm_compute|cbn; lia|done|apply Hp].
  - apply (understood_by CmdInterruptAndExecuteScene _ _ _ s);
      [by apply (bool_decide_unpack _); vm_compute|cbn; lia|done|apply Hp].
Qed.

Lemma digiglass_understood u d c a m : Forall is_i32 [u; d; c; a; m] →
  u ≠ 0 → d ≠ 0 → c ≠ 0 →
  understood (command_text cmd_set_digiglass_value [u; d; c; a; m])
    (CSetDigiglass u d c (Z.land a 65535) (Z.land m 65535)).
Proof.
  intros Hi Hu Hd Hc. apply (understood_by CmdSetDigiglass _ _ _ c);
    [by apply (bool_decide_unpack _); vm_compute|cbn; lia|done|].
  cbn [on_command_match]. unfold set_digiglass_on_match.
  rewrite (scan_n 5 [u; d; c; a; m]) by done. cbn [nth]. by nonzero.
Qed.

Lemma i8_small v : -128 <= v <= 127 → i8 v = v.
Proof. intros H. unfold i8. rewrite Z.mod_small; lia. Qed.

Lemma set_char_understood u d c g v : Forall is_i32 (request_args (QSetChar u d c g v)).2 →
  target_ok u d c g → in_range 0 v 127 → user_exists u = true →
  understood (request_text (QSetChar u d c g v))
    (if g =? 0 then CSetChar u d c v else CSetCgChar u g v).
Proof.
  unfold request_text, target_ok, in_range. cbn [request_args fst snd].
  intros Hi [Hu Hg] Hv He. destruct (Z.eqb_spec g 0) as [E|E]; cbn [app] in *.
  - destruct (Hg E) as [Hd Hc]. apply (understood_by CmdSetChar _ _ _ c);
      [by apply (bool_decide_unpack _); vm_compute|cbn; lia|done|].
    cbn [on_command_match]. unfold set_char_on_match.
    rewrite (scan_n 4 [u; d; c; v]) by done. cbn [nth]. nonzero. rewrite He.
    replace ((v <? 0) || (255 <? v))%bool with false by lia. by rewrite i8_small by lia.
  - apply (understood_by CmdSetCgChar _ _ _ g);
      [by apply (bool_decide_unpack _); vm_compute|cbn; lia|done|].
    cbn [on_command_match]. unfold set_cg_char_on_match.
    rewrite (scan_n 3 [u; g; v]) by done. cbn [nth]. nonzero. rewrite He.
    replace ((v <? 0) || (255 <? v))%bool with false by lia. by rewrite i8_small by lia.
Qed.

(** Actions: what is scanned after the identifiers, for a channel and for a group (where the
    name of the command is that of the action [a']). *)
Definition scans (a : Z) (extra : list Z) (args : action_args) : Prop :=
  ∀ ids, ids ≠ [] → Forall is_i32 (ids ++ extra) →
    action_scan a (length ids) (print_ints (ids ++ extra)) = (ids, args, true).

Lemma action_understood (a a' u d c g : Z) extra args cmd cmd_group :
  scans a extra args → scans a' extra args →
  name_ok cmd (CmdAction a) → name_ok cmd_group (CmdActionCg a') →
  (length extra <= 6)%nat → target_ok u d c g → user_exists u = true →
  Forall is_i32 ((if g =? 0 then [u; d; c] else [u; g]) ++ extra) →
  understood (command_text (if g =? 0 then cmd else cmd_group)
                ((if g =? 0 then [u; d; c] else [u; g]) ++ extra))
    (on_target u d c g (if g =? 0 then a else a') args).
Proof.
  intros Hs Hs' Hn Hn' Hl [Hu Hg] He Hi. unfold on_target. destruct (Z.eqb_spec g 0) as [E|E].
  - destruct (Hg E) as [Hd Hc]. apply (understood_by (CmdAction a) _ _ _ c);
      [done|cbn [app length]; lia|done|].
    cbn [on_command_match]. unfold action_on_match.
    rewrite (Hs [u; d; c] ltac:(done) Hi : action_scan a 3 _ = _). cbn [nth]. by nonzero.
  - apply (understood_by (CmdActionCg a') _ _ _ g); [done|cbn [app length]; lia|done|].
    cbn [on_command_match]. unfold action_cg_on_match.
    rewrite (Hs' [u; g] ltac:(done) Hi : action_scan a' 2 _ = _). cbn [nth]. nonzero.
    by rewrite He.
Qed.

Lemma scan_more n k l : length l = (n + k)%nat → Forall is_i32 l → l ≠ [] →
  scan_list (replicate n scan_i ++ replicate k scan_i) (print_ints l) = l.
Proof. intros Hl Hi Hne. rewrite <- replicate_add. by apply scan_n. Qed.

Lemma nth_ids (ids extra : list Z) i : nth (length ids + i) (ids ++ extra) 0 = nth i extra 0.
Proof. rewrite app_nth2 by lia. by replace (length ids + i - length ids)%nat with i by lia. Qed.

Lemma nth_ids_0 (ids extra : list Z) : nth (length ids) (ids ++ extra) 0 = nth 0 extra 0.
Proof. rewrite <- (nth_ids ids extra 0). by rewrite Nat.add_0_r. Qed.

Lemma simple_scan a :
  Forall (λ b, (a =? b) = false)
    [ACTION_SHUT_PARTIALLY; ACTION_COPY; ACTION_HVAC_SET_PARAMETERS;
     ACTION_HVAC_SET_TEMPERATURE; ACTION_HVAC_SET_TEMPERATURES] →
  scans a [] NoArgs.
Proof.
  intros Ha ids Hne Hi. rewrite app_nil_r in *. rewrite !Forall_cons in Ha.
  destruct Ha as (H1 & H2 & H3 & H4 & H5 & _). unfold action_scan. rewrite H1, H2, H3, H4, H5.
  by rewrite (scan_more _ 0) by (done || (rewrite ?Nat.add_0_r; done)).
Qed.

Lemma copy_scan sd sc : sc ≠ 0 → scans ACTION_COPY [sd; sc] (CopyArgs sd sc).
Proof.
  intros Hsc ids Hne Hi. unfold action_scan.
  change (ACTION_COPY =? ACTION_SHUT_PARTIALLY) with false. rewrite Z.eqb_refl. cbn iota.
  rewrite (scan_more _ 2 (ids ++ [sd; sc])) by (rewrite ?length_app; done || by destruct ids).
  rewrite nth_ids_0, nth_ids, take_app_length. cbn [nth]. by nonzero.
Qed.

Lemma shut_scan p pd t td : in_range (-128) p 127 → in_range (-128) t 127 →
  scans ACTION_SHUT_PARTIALLY [p; Z_of_bool pd; t; Z_of_bool td]
    (ShutArgs (SSP p t (delta_flags pd td))).
Proof.
  intros Hp Ht ids Hne Hi. unfold action_scan. rewrite Z.eqb_refl.
  rewrite (scan_more _ 4 (ids ++ _)) by (rewrite ?length_app; done || by destruct ids).
  rewrite nth_ids_0, !nth_ids, take_app_length. cbn [nth]. unfold shut_args, in_range in *.
  rewrite !i8_small by lia. by destruct pd, td.
Qed.

Lemma set_params_ok color color_random cb b cmd wt :
  in_range (-1) cb 100 → in_range (-1) b 100 →
  in_range (-1) cmd RGBW_COMMAND_SET_WHITE_TEMPERATURE_WITHOUT_TURN_ON → in_range (-1) wt 100 →
  set_params color color_random cb b 0 cmd wt new_rgbw =
  (true, RGBW b cb (if (color =? -1) || color_random then 0 else u32 color)
           (Z_of_bool color_random) 0 cmd wt).
Proof.
  unfold in_range, set_params. intros Hcb Hb Hcmd Hwt.
  destruct (_ || _) eqn:E at 1.
  { exfalso. rewrite !orb_true_iff, !Z.ltb_lt in E. lia. }
  unfold Z_of_bool. repeat case_match; try done.
Qed.

Lemma rgbw_understood u d c g color cb b color_random cmd wt :
  request_ok (QSetRgbw u d c g color cb b color_random cmd wt) →
  understood (request_text (QSetRgbw u d c g color cb b color_random cmd wt))
    (CRgbw (negb (g =? 0)) u (if g =? 0 then c else g)
       (RGBW b cb (if (color =? -1) || color_random then 0 else u32 color)
          (Z_of_bool color_random) 0 cmd wt)).
Proof.
  intros (Hi & Hu & Hc & Hr & Hb & Hcmd & Hwt). unfold request_text.
  apply (understood_by (CmdSetRgbw color_random (negb (g =? 0))) _ _ _ (if g =? 0 then c else g)).
  - cbn [request_args fst]. by destruct (g =? 0), color_random; apply (bool_decide_unpack _); vm_compute.
  - cbn [request_args snd]. destruct (g =? 0), color_random; cbn; lia.
  - done.
  - cbn [request_args snd on_command_match] in *. unfold set_rgbw_on_match.
    destruct (Z.eqb_spec g 0) as [E|E]; [specialize (Hc E)|]; destruct color_random;
      cbn [negb app Nat.add Nat.sub] in *;
      (rewrite scan_n by done); cbn [length nth];
      rewrite bool_decide_eq_true_2 by done; cbn [negb]; nonzero;
      rewrite set_params_ok by done; cbn [negb]; try done.
    + by rewrite !orb_true_r.
    + by rewrite !orb_true_r.
Qed.

Definition request_user (q : ipc_request) : Z := arg (request_args q).2 0.

(** The requests whose text names the other mode. *)
Definition swapped (q : ipc_request) : bool :=
  match q with
  | QDoAction cmd _ _ _ _ g =>
      negb (g =? 0) && bool_decide (cmd ∈ [cmd_hvac_switch_to_program_mode;
                                            cmd_hvac_switch_to_manual_mode])
  | _ => false
  end.

Definition other_mode (c : server_call) : server_call :=
  match c with
  | CActionCg a u g args =>
      CActionCg (if a =? ACTION_HVAC_SWITCH_TO_PROGRAM_MODE
                 then ACTION_HVAC_SWITCH_TO_MANUAL_MODE
                 else ACTION_HVAC_SWITCH_TO_PROGRAM_MODE) u g args
  | _ => c
  end.

(** An action without arguments: [a] by the command for channels, [a'] by that for groups. *)
Definition do_action_ok (p : string * string) : Prop :=
  ∃ a a', named p.1 action_commands = Some a ∧
    Forall (λ b, (a =? b) = false ∧ (a' =? b) = false)
      [ACTION_SHUT_PARTIALLY; ACTION_COPY; ACTION_HVAC_SET_PARAMETERS;
       ACTION_HVAC_SET_TEMPERATURE; ACTION_HVAC_SET_TEMPERATURES] ∧
    name_ok p.1 (CmdAction a) ∧ name_ok p.2 (CmdActionCg a') ∧
    ∀ u g, (if bool_decide (p.1 ∈ [cmd_hvac_switch_to_program_mode;
                                   cmd_hvac_switch_to_manual_mode])
            then other_mode (CActionCg a u g NoArgs) else CActionCg a u g NoArgs)
           = CActionCg a' u g NoArgs.

Lemma group_commands_ok : Forall do_action_ok group_commands.
Proof.
  assert (Hok : ∀ p a a', named p.1 action_commands = Some a →
    (∀ u g, (if bool_decide (p.1 ∈ [cmd_hvac_switch_to_program_mode;
                                    cmd_hvac_switch_to_manual_mode])
            then other_mode (CActionCg a u g NoArgs) else CActionCg a u g NoArgs)
           = CActionCg a' u g NoArgs) →
    bool_decide (Forall (λ b, (a =? b) = false ∧ (a' =? b) = false)
      [ACTION_SHUT_PARTIALLY; ACTION_COPY; ACTION_HVAC_SET_PARAMETERS;
       ACTION_HVAC_SET_TEMPERATURE; ACTION_HVAC_SET_TEMPERATURES] ∧
    name_ok p.1 (CmdAction a) ∧ name_ok p.2 (CmdActionCg a')) = true → do_action_ok p).
  { intros p a a' Hn Ho Hd. apply bool_decide_eq_true in Hd as (H1 & H2 & H3).
    by exists a, a'. }
  repeat apply Forall_cons_2; [| | | |constructor].
  - by apply (Hok _ ACTION_TURN_ON ACTION_TURN_ON); [..|vm_compute].
  - by apply (Hok _ ACTION_TURN_OFF ACTION_TURN_OFF); [..|vm_compute].
  - by apply (Hok _ ACTION_HVAC_SWITCH_TO_PROGRAM_MODE ACTION_HVAC_SWITCH_TO_MANUAL_MODE);
      [..|vm_compute].
  - by apply (Hok _ ACTION_HVAC_SWITCH_TO_MANUAL_MODE ACTION_HVAC_SWITCH_TO_PROGRAM_MODE);
      [..|vm_compute].
Qed.

Lemma do_action_understood cmd cmd_group u d c g k :
  request_ok (QDoAction cmd cmd_group u d c g) →
  meaning (QDoAction cmd cmd_group u d c g) = Some k → user_exists u = true →
  understood (request_text (QDoAction cmd cmd_group u d c g))
    (if swapped (QDoAction cmd cmd_group u d c g) then other_mode k else k).
Proof.
  intros (Hi & Ht & Hin) Hm He. unfold request_text. cbn [request_args fst snd] in *.
  pose proof group_commands_ok as Hall. rewrite Forall_forall in Hall.
  destruct (Hall _ Hin) as (a & a' & Hn & Ha & Hok & Hok' & Ho). cbn [fst snd] in *.
  cbn [meaning] in Hm. rewrite Hn in Hm. injection Hm as <-.
  assert (Hk : on_target u d c g (if g =? 0 then a else a') NoArgs =
    (if swapped (QDoAction cmd cmd_group u d c g) then other_mode (on_target u d c g a NoArgs)
     else on_target u d c g a NoArgs)).
  { unfold on_target. cbn [swapped]. specialize (Ho u g). destruct (g =? 0); cbn [negb andb]; done. }
  rewrite <- Hk, <- (app_nil_r (if g =? 0 then [u; d; c] else [u; g])).
  apply action_understood; try done; [apply simple_scan..|cbn; lia|by rewrite app_nil_r];
    (eapply Forall_impl; [exact Ha|]); by intros b [].
Qed.

Lemma target_same u d c g a args :
  on_target u d c g (if g =? 0 then a else a) args = on_target u d c g a args.
Proof. by destruct (g =? 0). Qed.

(** C11. The server understands the scheduler. Every request that the scheduler's client can
    send, with identifiers that are not zero and numbers in their ranges, is one line that
    the server cuts out of the stream, whatever follows, gives to the command of that
    name among its 98 commands, and turns into the call that the request stands for, with
    the same user, device, channel, group and numbers. The two requests that switch the
    mode of a group of thermostats are the exception: each is taken for the other. *)
Theorem requests_understood q c :
  request_ok q → meaning q = Some c → user_exists (request_user q) = true →
  understood (request_text q) (if swapped q then other_mode c else c).
Proof.
  intros Hok Hm He. pose proof Hok as [Hi Hq].
  assert (Hu : ∀ u d c g l, arg ((if g =? 0 then [u; d; c] else [u; g]) ++ l) 0 = u).
  { intros u d c' g l. by destruct (g =? 0). }
  unfold request_user in He.
  destruct q as [u d|cmd u d c'|u d c' g v|u d c' g color cb b r cmd wt|u d c' a m|u d c' g sd sc
                |u d c' g p pd t td|cmd cmd_group u d c' g|cmd u s]; cbn [swapped].
  - injection Hm as <-. destruct Hq. by apply connected_understood.
  - apply bind_Some in Hm as (k & E & [= <-]). destruct Hq as (? & ? & ?).
    apply value_understood; try done. by apply named_in.
  - injection Hm as <-. destruct Hq. cbn [request_args snd] in He. rewrite Hu in He.
    by apply set_char_understood.
  - injection Hm as <-. by apply rgbw_understood.
  - injection Hm as <-. destruct Hq as (? & ? & ?). by apply digiglass_understood.
  - injection Hm as <-. destruct Hq as [Ht Hsc]. cbn [request_args snd] in He. rewrite Hu in He.
    rewrite <- (target_same _ _ _ g ACTION_COPY). apply action_understood; try done;
      [by apply copy_scan..|by apply (bool_decide_unpack _); vm_compute| |cbn; lia].
    by apply (bool_decide_unpack _); vm_compute.
  - injection Hm as <-. destruct Hq as (Ht & Hp & Htilt). cbn [request_args snd] in He.
    rewrite Hu in He. rewrite <- (target_same _ _ _ g ACTION_SHUT_PARTIALLY).
    apply action_understood; try done;
      [by apply shut_scan..|by apply (bool_decide_unpack _); vm_compute| |cbn; lia].
    by apply (bool_decide_unpack _); vm_compute.
  - cbn [request_args snd] in He. specialize (Hu u d c' g []).
    rewrite app_nil_r in Hu. rewrite Hu in He. by apply do_action_understood.
  - apply bind_Some in Hm as (f & E & [= <-]). destruct Hq. apply scene_understood; try done.
    by apply named_in.
Qed.
End understood.

(** User 1 turns channel 7 of device 3 on. *)
Lemma requests_understood_witness :
  understood (λ _, None) (λ _, true)
    (request_text (QDoAction cmd_turn_on cmd_cg_turn_on 1 3 7 0))
    (CAction ACTION_TURN_ON 1 3 7 NoArgs).
Proof.
  apply (requests_understood (λ _, None) (λ _, true)
           (QDoAction cmd_turn_on cmd_cg_turn_on 1 3 7 0)
           (CAction ACTION_TURN_ON 1 3 7 NoArgs)); [|reflexivity..].
  apply (bool_decide_unpack _). vm_compute. reflexivity.
Defined.

(** ** What replies mean to the scheduler *)

Section replies.
Context (answer : list text → option text) (h : list text) (u d c : Z).

(** The server replies with the numbers of a value. *)
Definition value_replied (cmd : string) (k : ipc_command) (l : list Z) : Prop :=
  ∃ id, answer (h ++ [request_text (QGetValue cmd u d c)]) =
        Some (reply_to (CGetValue k u d c) id (RValue (Some l))).

Lemma value_read cmd k l : value_replied cmd k l → Forall is_i32 l → l ≠ [] →
  (length l <= 20)%nat →
  (get_value answer cmd u d c h).1 = Some (print_ints l ++ [newline]).
Proof.
  intros [id E] Hl Hne Hlen. unfold get_value, mbind, ipc_bind, ask. rewrite E.
  cbn [reply_to]. unfold value_line, line_of. rewrite <- app_assoc.
  destruct (str "VALUE:" ++ _) as [|x t] eqn:Et; [done|]. rewrite <- Et.
  rewrite take_ge.
  - cbn [mret ipc_ret fst mbind option_bind]. rewrite starts_with_app.
    by rewrite drop_app_length' by done.
  - rewrite !length_app. pose proof (print_ints_length l Hl). unfold IPC_BUFFER_SIZE.
    cbn [length str String.list_ascii_of_string]. lia.
Qed.

Lemma all_of_ints l : Forall is_i32 l → l ≠ [] →
  all_of (replicate (length l) scan_i) (print_ints l ++ [newline]) = Some l.
Proof.
  intros Hl Hne. unfold all_of. change (scan_list (replicate ?k scan_i)) with (scan_ints k).
  rewrite scan_print_ints; [|done|done|].
  - rewrite length_replicate. by rewrite bool_decide_eq_true_2.
  - split; by vm_compute.
Qed.
(** One number of a value per conversion, and what the client makes of them. *)
Lemma ints_read {A} cmd k l (f : list Z → option A) : value_replied cmd k l →
  Forall is_i32 l → l ≠ [] → (length l <= 20)%nat →
  ((s ← get_value answer cmd u d c;
    mret (l ← (s ≫= all_of (replicate (length l) scan_i)); f l)) h).1 = f l.
Proof.
  intros Hv Hl Hne Hlen. pose proof (value_read cmd k l Hv Hl Hne Hlen) as E.
  unfold mbind at 1, ipc_bind at 1. destruct (get_value answer cmd u d c h) as [s h'].
  cbn [fst] in E. subst s. cbn [mbind option_bind]. by rewrite all_of_ints.
Qed.

(** The scheduler understands the server. The numbers of a value that the server
    replies with are the ones that the scheduler reads: the state of a switch, the colour
    and the brightness of a light, the mask of a glass, the state and the set points of a
    thermostat. *)
Theorem values_understood :
  (∀ v, value_replied cmd_get_char_value CmdGetChar [v] → in_range 0 v 127 →
   (get_char_value answer u d c h).1 = Some v) ∧
  (∀ color cb b wt, value_replied cmd_get_rgbw_value CmdGetRgbw [color; cb; b; wt] →
   is_i32 color → in_range 0 cb 100 → in_range 0 b 100 → in_range 0 wt 100 →
   (get_rgbw_value answer u d c h).1 = Some (color, cb, b, wt)) ∧
  (∀ mask, value_replied cmd_get_digiglass_value CmdGetDigiglass [mask] → is_i32 mask →
   (get_digiglass_value answer u d c h).1 = Some mask) ∧
  (∀ on mode heat cool flags t hum,
   value_replied cmd_get_hvac_value CmdGetHvac [Z_of_bool on; mode; heat; cool; flags; t; hum] →
   is_u8 mode → in_range (- 2 ^ 15) heat (2 ^ 15 - 1) → in_range (- 2 ^ 15) cool (2 ^ 15 - 1) →
   in_range 0 flags (2 ^ 16 - 1) → is_i32 t → is_i32 hum →
   (get_hvac_value answer u d c h).1 = Some (HvacValue on mode heat cool flags t hum)).
Proof.
  unfold in_range, is_i32, is_u8. repeat split.
  - intros v Hv Hr.
    refine (eq_trans (ints_read _ _ [v] _ Hv _ _ _) _); [|done|cbn; lia|].
    { repeat apply Forall_cons_2; [|constructor]. unfold is_i32. lia. }
    cbn [nth]. unfold u32, i8. rewrite Z.mod_small by lia.
    destruct (Z.leb_spec 255 v); [lia|]. f_equal. rewrite Z.mod_small by lia. lia.
  - intros color cb b wt Hv Hc Hcb Hb Hwt.
    refine (eq_trans (ints_read _ _ [color; cb; b; wt] _ Hv _ _ _) _); [|done|cbn; lia|].
    { repeat apply Forall_cons_2; try constructor; unfold is_i32; lia. }
    cbn [nth]. by repeat match goal with |- context [?x <? ?y] => destruct (Z.ltb_spec x y); [lia|] end.
  - intros mask Hv Hm.
    refine (eq_trans (ints_read _ _ [mask] _ Hv _ _ _) _); [|done|cbn; lia|done].
    repeat apply Forall_cons_2; [|constructor]. done.
  - intros on mode heat cool flags t hum Hv Hm Hh Hco Hf Ht Hhum.
    refine (eq_trans (ints_read _ _ [Z_of_bool on; mode; heat; cool; flags; t; hum] _ Hv _ _ _) _);
      [|done|cbn; lia|].
    { repeat apply Forall_cons_2; try constructor; unfold is_i32; destruct on; cbn; lia. }
    cbn [nth]. unfold u8, u16, i16. rewrite !Z.mod_small by lia.
    f_equal. f_equal; [by destruct on|lia|lia].
Qed.
End replies.

Lemma values_understood_witness :
  let answer := λ _ : list text, Some (str "VALUE:1" ++ [newline]) in
  (get_char_value answer 1 3 7 []).1 = Some 1.
Proof.
  intros answer. apply (proj1 (values_understood answer [] 1 3 7)).
  - exists 7. reflexivity.
  - split; discriminate.
Defined.
