(* ===== verification/SchedAction.v ===== *)
(** * SchedAction: the actions of the scheduler

    supla-scheduler/src/action*.cpp and worker.cpp: an action is a record of the methods of
    its class; the classes are functions from the parameters of the execution to that
    record. What [execute] asks of the database is its result. Channels of sensors come from
    the database, and documents from cJSON. *)

From Stdlib Require Import Ascii.
From stdpp Require Import strings.
From S2P Require Import Prelude ChannelFunctions Actions Json IpcText IpcCommands IpcClient.

#[local] Open Scope list_scope.
#[local] Open Scope Z_scope.

(** ** Constants and data *)

Definition ACTION_SET : Z := 2000.
Definition SUPLA_HVAC_MODE_NOT_SET : Z := 0.
Definition SUPLA_HVAC_MODE_OFF : Z := 1.
Definition SUPLA_HVAC_VALUE_FLAG_WEEKLY_SCHEDULE : Z := Z.shiftl 1 4.
Definition SUPLA_VALVE_FLAG_FLOODING : Z := 1.
Definition SUPLA_VALVE_FLAG_MANUALLY_CLOSED : Z := 2.

Definition MIN_RETRY_TIME : Z := 5.
Definition MIN_CHECK_TIME : Z := 1.
Definition EXPIRE_TIME : Z := 300.
Definition ZOMBIE_TIME : Z := 60.

Definition ACTION_EXECUTION_RESULT_SUCCESS : Z := 1.
Definition ACTION_EXECUTION_RESULT_DEVICE_UNREACHABLE : Z := 2.
Definition ACTION_EXECUTION_RESULT_NO_SENSOR : Z := 3.
Definition ACTION_EXECUTION_RESULT_EXPIRED : Z := 4.
Definition ACTION_EXECUTION_RESULT_ZOMBIE : Z := 5.
Definition ACTION_EXECUTION_RESULT_SERVER_UNREACHABLE : Z := 6.
Definition ACTION_EXECUTION_RESULT_FAILURE : Z := 7.
Definition ACTION_EXECUTION_RESULT_CANCELLED : Z := 8.
Definition ACTION_EXECUTED_WITHOUT_CONFIRMATION : Z := 9.
Definition ACTION_EXECUTION_RESULT_VALVE_CLOSED_MANUALLY_OR_FLOODING : Z := 10.

Record supla_channel := Channel {
  type : Z; func : Z; ch_param1 : Z; ch_param2 : Z; ch_param3 : Z; ch_iodevice_id : Z
}.

Record s_exec_params_t := Exec {
  id : Z; schedule_id : Z; user_id : Z; scene_id : Z; iodevice_id : Z; channel_id : Z;
  channel_group_id : Z; channel_func : Z; channel_param1 : Z; channel_param2 : Z;
  channel_param3 : Z; action : Z; action_param : option text; planned_timestamp : Z;
  retry_timestamp : Z; retry_count : Z; param_retry_when_fail : bool
}.

(** The methods of a class derived from [s_worker_action]. [result_success] also tells what
    it stores as the code of a failure. *)
Record s_worker_action := WorkerAction {
  is_action_allowed : bool;
  try_limit : Z;
  waiting_time_to_retry : Z;
  waiting_time_to_check : Z;
  check_before_start : bool;
  retry_when_fail : bool;
  result_success : ipc (bool * option Z);
  do_action : ipc bool
}.

Definition get_max_time (a : s_worker_action) : Z := try_limit a * waiting_time_to_retry a.

(** What [execute] does in the database. *)
Inductive db_effect :=
  | SetResult (result : Z)
  | SetRetry (sec : Z).

Definition one_of (z : Z) (l : list Z) : bool := existsb (Z.eqb z) l.

(** ** Colours *)

Record _color_hsv_t := HSV { hsv_h : double; hsv_s : double; hsv_v : double }.

Notation "x *_d y" := (SFmul 53 1024 x y) (at level 40, left associativity).
Notation "x /_d y" := (SFdiv 53 1024 x y) (at level 40, left associativity).

(** (int)(x * 255.00) & 0xFF *)
Definition color_byte (x : double) : Z := Z.land (to_int (x *_d dbl 255)) 255.

Definition st_hsv2rgb (c : _color_hsv_t) : Z :=
  let v := hsv_v c in
  let '(r, g, b) :=
    if hsv_s c <=_d dbl 0 then (v, v, v)
    else
      let hh := if dbl 360 <=_d hsv_h c then dbl 0 else hsv_h c /_d dbl 60 in
      let i := to_int hh in
      let f := hh -_d dbl i in
      let p := v *_d (dbl 1 -_d hsv_s c) in
      let q := v *_d (dbl 1 -_d (hsv_s c *_d f)) in
      let t := v *_d (dbl 1 -_d (hsv_s c *_d (dbl 1 -_d f))) in
      match i with
      | 0 => (v, t, p)
      | 1 => (q, v, p)
      | 2 => (p, v, t)
      | 3 => (p, q, v)
      | 4 => (t, p, v)
      | 5 => (v, p, q)
      | _ => (dbl 0, dbl 0, dbl 0)
      end in
  Z.lor (Z.shiftl (Z.lor (Z.shiftl (color_byte r) 8) (color_byte g)) 8) (color_byte b).

Definition st_hue2rgb (hue : double) : Z :=
  st_hsv2rgb (HSV (if dbl 360 <=_d hue then dbl 0 else hue) (dbl 1) (dbl 1)).

(** strtol with base 16 of the whole text; 0 when a part of it is not a number. *)
Definition strtol_16 (s : text) : Z :=
  let '(sign, s) := sign_of (skip_space s) in
  let s := match s with
           | "0"%char :: x :: d :: s' =>
               if is_x x then match digit_value 16 d with Some _ => d :: s' | None => s end else s
           | _ => s
           end in
  let '(n, rest) := digits 16 s 0 in
  match rest with [] => sign * n | _ => 0 end.

(** [strncasecmp], for a text that is shorter than the limit. *)
Definition to_lower (c : ascii) : ascii :=
  if (65 <=? code c) && (code c <=? 90) then ascii_of_nat (nat_of_ascii c + 32) else c.

Definition equal_nocase (a b : string) : bool :=
  bool_decide (to_lower <$> str a = to_lower <$> str b).

(** ** The worker *)

Section worker.
Context {json : Type} `{CJson json} (parse : text → option json).
(** The channels in the database, and what a variable that is not set contains. *)
Context (get_channel : Z → option supla_channel) (uninitialised : bool).
Context (answer : list text → option text) (p : s_exec_params_t).

Definition it_applies_to_scene : bool := negb (scene_id p =? 0).

Definition channel_group : bool := 0 <? channel_group_id p.

Definition get_action_param : option json := s ← action_param p; parse s.

(** 1 for closed, 0 for open, or -1 without a sensor. *)
Definition ipcc_get_opening_sensor_value : ipc Z :=
  match (if channel_param2 p =? 0 then None else get_channel (channel_param2 p)) with
  | Some sensor_channel =>
      if (ch_param1 sensor_channel =? channel_id p)
         && one_of (type sensor_channel)
              [SUPLA_CHANNELTYPE_BINARYSENSOR; SUPLA_CHANNELTYPE_SENSORNC]
      then
        connected ← is_connected answer (user_id p) (ch_iodevice_id sensor_channel);
        if connected =? IPC_RESULT_CONNECTED then
          value ← IpcClient.get_char_value answer (user_id p) (ch_iodevice_id sensor_channel)
                    (channel_param2 p);
          mret match value with
               | None => -1
               | Some v => let v := negb (v =? 0) in
                           Z_of_bool (if channel_param3 p =? 1 then negb v else v)
               end
        else mret (-1)
      else mret (-1)
  | None => mret (-1)
  end.

Definition ipcc_set_char_value (value : Z) : ipc bool :=
  set_char_value answer (user_id p) (iodevice_id p) (channel_id p) (channel_group_id p) value.

Definition ipcc_get_char_value : ipc (option Z) :=
  IpcClient.get_char_value answer (user_id p) (iodevice_id p) (channel_id p).

Definition ipcc_get_fb_value : ipc (option (Z * Z)) :=
  get_fb_value answer (user_id p) (iodevice_id p) (channel_id p).

Definition ipcc_get_rgbw_value : ipc (option (Z * Z * Z * Z)) :=
  get_rgbw_value answer (user_id p) (iodevice_id p) (channel_id p).

Definition ipcc_set_rgbw_value (color color_brightness brightness : Z) (color_random : bool)
    (command white_temperature : Z) : ipc bool :=
  set_rgbw_value answer (user_id p) (iodevice_id p) (channel_id p) (channel_group_id p)
    color color_brightness brightness color_random command white_temperature.

Definition ipcc_get_valve_value : ipc (option (Z * Z)) :=
  get_valve_value answer (user_id p) (iodevice_id p) (channel_id p).

Definition ipcc_set_digiglass_value (active_bits mask : Z) : ipc bool :=
  set_digiglass_value answer (user_id p) (iodevice_id p) (channel_id p) active_bits mask.

Definition ipcc_get_digiglass_value : ipc (option Z) :=
  get_digiglass_value answer (user_id p) (iodevice_id p) (channel_id p).

Definition ipcc_action_copy (sourceDeviceId sourceChannelId : Z) : ipc bool :=
  action_copy answer (user_id p) (iodevice_id p) (channel_id p) (channel_group_id p)
    sourceDeviceId sourceChannelId.

Definition ipcc_action_shut_partially (percentage : Z) (percentage_as_delta : bool) (tilt : Z)
    (tilt_as_delta : bool) : ipc bool :=
  action_shut_partially answer (user_id p) (iodevice_id p) (channel_id p) (channel_group_id p)
    percentage percentage_as_delta tilt tilt_as_delta.

Definition ipcc_action_hvac_switch_to_program_mode : ipc bool :=
  action_hvac_switch_to_program_mode answer (user_id p) (iodevice_id p) (channel_id p)
    (channel_group_id p).

Definition ipcc_action_hvac_switch_to_manual_mode : ipc bool :=
  action_hvac_switch_to_manual_mode answer (user_id p) (iodevice_id p) (channel_id p)
    (channel_group_id p).

Definition ipcc_get_hvac_value : ipc (option hvac_value) :=
  get_hvac_value answer (user_id p) (iodevice_id p) (channel_id p).

Definition ipcc_action_turn_on : ipc bool :=
  action_turn_on answer (user_id p) (iodevice_id p) (channel_id p) (channel_group_id p).

Definition ipcc_action_turn_off : ipc bool :=
  action_turn_off answer (user_id p) (iodevice_id p) (channel_id p) (channel_group_id p).

Definition ipcc_execute_scene : ipc bool := execute_scene answer (user_id p) (scene_id p).

Definition ipcc_interrupt_scene : ipc bool := interrupt_scene answer (user_id p) (scene_id p).

Definition ipcc_interrupt_and_execute_scene : ipc bool :=
  interrupt_and_execute_scene answer (user_id p) (scene_id p).

Definition ipcc_is_connected : ipc Z := is_connected answer (user_id p) (iodevice_id p).

(** ** Turning on and off *)

Definition dimmers : list Z :=
  [SUPLA_CHANNELFNC_DIMMER; SUPLA_CHANNELFNC_RGBLIGHTING; SUPLA_CHANNELFNC_DIMMERANDRGBLIGHTING;
   SUPLA_CHANNELFNC_DIMMER_CCT; SUPLA_CHANNELFNC_DIMMER_CCT_AND_RGB].

Definition hvacs : list Z :=
  [SUPLA_CHANNELFNC_HVAC_THERMOSTAT; SUPLA_CHANNELFNC_HVAC_THERMOSTAT_DIFFERENTIAL;
   SUPLA_CHANNELFNC_HVAC_THERMOSTAT_HEAT_COOL].

Definition rgbw_is_on (func color_brightness brightness : Z) : bool :=
  if one_of func [SUPLA_CHANNELFNC_DIMMER_CCT; SUPLA_CHANNELFNC_DIMMER] then 0 <? brightness
  else if func =? SUPLA_CHANNELFNC_RGBLIGHTING then 0 <? color_brightness
  else (0 <? brightness) && (0 <? color_brightness).

Definition is_weekly (v : hvac_value) : bool :=
  negb (Z.land (hvac_value_flags v) SUPLA_HVAC_VALUE_FLAG_WEEKLY_SCHEDULE =? 0).

Definition turn_onoff_success (setOn : bool) : ipc (bool * option Z) :=
  if one_of (channel_func p) dimmers then
    value ← ipcc_get_rgbw_value;
    mret (match value with
          | Some (_, color_brightness, brightness, _) =>
              eqb (rgbw_is_on (channel_func p) color_brightness brightness) setOn
          | None => false
          end, None)
  else if one_of (channel_func p) hvacs then
    value ← ipcc_get_hvac_value;
    mret (match value with
          | Some v =>
              let off := hvac_mode v =? SUPLA_HVAC_MODE_OFF in
              (setOn && negb (hvac_mode v =? SUPLA_HVAC_MODE_NOT_SET) && negb off)
              || (setOn && off && is_weekly v) || (negb setOn && off)
          | None => false
          end, None)
  else
    value ← ipcc_get_char_value;
    mret (match value with Some v => eqb (v =? 1) setOn | None => false end, None).

Definition turn_onoff (setOn : bool) : s_worker_action := {|
  is_action_allowed :=
    one_of (channel_func p)
      ([SUPLA_CHANNELFNC_LIGHTSWITCH; SUPLA_CHANNELFNC_POWERSWITCH;
        SUPLA_CHANNELFNC_STAIRCASETIMER; SUPLA_CHANNELFNC_THERMOSTAT_HEATPOL_HOMEPLUS]
       ++ dimmers ++ hvacs);
  try_limit := 2;
  waiting_time_to_retry := 30;
  waiting_time_to_check := 5;
  check_before_start := false;
  retry_when_fail := param_retry_when_fail p;
  result_success := turn_onoff_success setOn;
  do_action := if setOn then ipcc_action_turn_on else ipcc_action_turn_off
|}.

(** ** Opening and closing *)

Definition garage_func : bool :=
  one_of (channel_func p)
    [SUPLA_CHANNELFNC_CONTROLLINGTHEGARAGEDOOR; SUPLA_CHANNELFNC_CONTROLLINGTHEGATE].

Definition valve_func : bool := channel_func p =? SUPLA_CHANNELFNC_VALVE_OPENCLOSE.

(** Flooded, or closed by hand. *)
Definition valve_blocked (flags : Z) : bool :=
  negb (Z.land flags SUPLA_VALVE_FLAG_FLOODING =? 0)
  || negb (Z.land flags SUPLA_VALVE_FLAG_MANUALLY_CLOSED =? 0).

Definition openclose_success (doOpen : bool) : ipc (bool * option Z) :=
  if valve_func then
    value ← ipcc_get_valve_value;
    mret match value with
         | None => (false, None)
         | Some (closed, flags) =>
             if eqb (closed =? 0) doOpen then (true, None)
             else (false, if doOpen && valve_blocked flags
                          then Some ACTION_EXECUTION_RESULT_VALVE_CLOSED_MANUALLY_OR_FLOODING
                          else None)
         end
  else if garage_func then
    sensor_value ← ipcc_get_opening_sensor_value;
    mret (if sensor_value =? -1 then (false, Some ACTION_EXECUTION_RESULT_NO_SENSOR)
          else (eqb doOpen (negb (sensor_value =? 1)), None))
  else mret (true, None).

Definition openclose_do_action (doOpen : bool) : ipc bool :=
  if valve_func then
    if doOpen then
      value ← ipcc_get_valve_value;
      match value with
      | Some (_, flags) =>
          if valve_blocked flags then mret false else ipcc_set_char_value 1
      | None => mret false
      end
    else ipcc_set_char_value 0
  else if garage_func then
    sensor_value ← ipcc_get_opening_sensor_value;
    if negb (sensor_value =? -1) then ipcc_set_char_value 1 else mret false
  else ipcc_set_char_value 1.

Definition openclose (doOpen : bool) : s_worker_action := {|
  is_action_allowed :=
    (negb channel_group && (garage_func || valve_func))
    || (doOpen && one_of (channel_func p) [SUPLA_CHANNELFNC_CONTROLLINGTHEGATEWAYLOCK;
                                           SUPLA_CHANNELFNC_CONTROLLINGTHEDOORLOCK]);
  try_limit := if garage_func || valve_func then 4 else 1;
  waiting_time_to_retry := if garage_func || valve_func then 60 else 30;
  waiting_time_to_check := if garage_func || valve_func then 55 else 2;
  check_before_start := garage_func;
  retry_when_fail := valve_func || garage_func || param_retry_when_fail p;
  result_success := openclose_success doOpen;
  do_action := openclose_do_action doOpen
|}.

(** ** Shutting and revealing *)

(** A number of a member, when it lies between two numbers. *)
Definition number_between (root : json) (key : string) (a b : Z) : option Z :=
  item ← GetObjectItem root key;
  x ← number_of item;
  if (dbl a <=_d x) && (x <=_d dbl b) then Some (to_int x) else None.

(** A member, or else its delta: the number, whether it is a delta, and whether it is there. *)
Definition expected_of (root : json) (key key_delta : string) : Z * bool * bool :=
  match number_between root key 0 100 with
  | Some n => (n, false, true)
  | None => match number_between root key_delta (-100) 100 with
            | Some n => (n, true, true)
            | None => (-1, false, false)
            end
  end.

(** Percentage, whether it is a delta, tilt, whether it is a delta. *)
Definition expected : Type := Z * bool * Z * bool.

Definition get_expected : option expected :=
  root ← get_action_param;
  let '(percentage, percentage_as_delta, ok) := expected_of root "percentage" "percentageDelta" in
  let '(tilt, tilt_as_delta, ok') := expected_of root "tilt" "tiltDelta" in
  if ok || ok' then Some (percentage, percentage_as_delta, tilt, tilt_as_delta) else None.

Definition reversed (n : Z) (as_delta : bool) : Z :=
  if as_delta then i8 (n * -1) else if n =? -1 then n else i8 (100 - n).

(** [s_worker_action_reveal_partially::get_expected] *)
Definition reveal_expected : option expected :=
  '(percentage, percentage_as_delta, tilt, tilt_as_delta) ← get_expected;
  Some (reversed percentage percentage_as_delta, percentage_as_delta,
        reversed tilt tilt_as_delta, tilt_as_delta).

(** Two percentage points are tolerated. *)
Definition within_tolerance (expected : Z) (as_delta : bool) (value : Z) : bool :=
  as_delta || (expected =? -1) || (Z.abs (expected - value) <=? 2).

Definition facade_blinds : list Z :=
  [SUPLA_CHANNELFNC_CONTROLLINGTHEFACADEBLIND; SUPLA_CHANNELFNC_VERTICAL_BLIND].

(** Position and tilt; the tilt is that of facade blinds only. *)
Definition get_position : ipc (option (Z * Z)) :=
  if one_of (channel_func p) facade_blinds then ipcc_get_fb_value
  else v ← ipcc_get_char_value; mret ((λ percentage, (percentage, -1)) <$> v).

(** The position as the sensor sees it. *)
Definition sensed_position (sensor_value expected_percentage percentage : Z) : Z :=
  if sensor_value =? -1 then percentage
  else if negb (sensor_value =? 1) && (expected_percentage =? 100) then 0
  else if (sensor_value =? 1) && (expected_percentage <? 100) then 100
  else percentage.

Definition shut_success (get : option expected) : ipc (bool * option Z) :=
  match get with
  | None => mret (false, None)
  | Some (expected_percentage, expected_percentage_as_delta, tilt0, tilt_as_delta0) =>
      let fb := one_of (channel_func p) facade_blinds in
      let expected_tilt := if fb then tilt0 else -1 in
      let expected_tilt_as_delta := if fb then tilt_as_delta0 else false in
      position ← get_position;
      match position with
      | None => mret (false, None)
      | Some (percentage, tilt) =>
          percentage ←
            (if negb expected_percentage_as_delta
                && one_of (channel_func p) [SUPLA_CHANNELFNC_CONTROLLINGTHEROLLERSHUTTER;
                                            SUPLA_CHANNELFNC_CONTROLLINGTHEROOFWINDOW]
             then sensor_value ← ipcc_get_opening_sensor_value;
                  mret (sensed_position sensor_value expected_percentage percentage)
             else mret percentage);
          let tilt_match := within_tolerance expected_tilt expected_tilt_as_delta tilt in
          let percentage_match :=
            within_tolerance expected_percentage expected_percentage_as_delta percentage in
          mret (tilt_match || percentage_match, None)
      end
  end.

(** [s_abstract_action_shut_partially]: the expected position comes from [get]. *)
Definition shutter (get : option expected) (act : ipc bool) : s_worker_action := {|
  is_action_allowed :=
    one_of (channel_func p)
      ([SUPLA_CHANNELFNC_CONTROLLINGTHEROLLERSHUTTER; SUPLA_CHANNELFNC_CONTROLLINGTHEROOFWINDOW;
        SUPLA_CHANNELFNC_TERRACE_AWNING; SUPLA_CHANNELFNC_PROJECTOR_SCREEN;
        SUPLA_CHANNELFNC_CURTAIN; SUPLA_CHANNELFNC_ROLLER_GARAGE_DOOR] ++ facade_blinds);
  try_limit := 2;
  waiting_time_to_retry := 120;
  waiting_time_to_check := 90;
  check_before_start := false;
  retry_when_fail := param_retry_when_fail p;
  result_success := shut_success get;
  do_action := act
|}.

Definition shut_do_action (get : option expected) : ipc bool :=
  match get with
  | Some (percentage, percentage_as_delta, tilt, tilt_as_delta) =>
      ipcc_action_shut_partially percentage percentage_as_delta tilt tilt_as_delta
  | None => mret false
  end.

Definition shut_partially : s_worker_action :=
  shutter get_expected (shut_do_action get_expected).
Definition reveal_partially : s_worker_action :=
  shutter reveal_expected (shut_do_action reveal_expected).
Definition shut : s_worker_action :=
  shutter (Some (100, false, -1, false)) (ipcc_set_char_value 1).
Definition reveal : s_worker_action :=
  shutter (Some (0, false, -1, false)) (ipcc_set_char_value 2).

(** ** Colours and brightness *)

Record rgbw_request := RgbwRequest {
  rq_color : Z; rq_color_brightness : Z; rq_brightness : Z; rq_color_random : bool;
  rq_command : Z; rq_white_temperature : Z
}.

(** The number of a member as a char. *)
Definition get_char_value (root : json) (key_name : string) : option Z :=
  item ← GetObjectItem root key_name; x ← number_of item; Some (i8 (to_int x)).

(** What the colour sets: the colour, whether it is random, and whether it counts. *)
Definition color_of (root : json) : option Z * option bool * bool :=
  match GetObjectItem root "color" with
  | Some item =>
      match string_of item with
      | Some value =>
          match str value with
          | c :: digits =>
              if bool_decide (length digits = 6%nat) && bool_decide (c = "#"%char) then
                let lcolor := strtol_16 digits in
                if lcolor =? 0 then (None, None, false) else (Some lcolor, Some false, true)
              else if equal_nocase value "random" then (None, Some true, true)
              else (None, None, false)
          | [] => (None, None, false)
          end
      | None => (None, None, false)
      end
  | None =>
      match GetObjectItem root "hue" with
      | Some item =>
          match number_of item, string_of item with
          | Some x, _ => (Some (st_hue2rgb x), None, false)
          | None, Some s =>
              if equal_nocase s "random" then (None, Some true, true)
              else if equal_nocase s "white" then (Some 16777215, None, true)
              else (None, None, false)
          | None, None => (None, None, false)
          end
      | None => (None, None, false)
      end
  end.

(** [parse_rgbw_params], with the value that [color_random] has before; how many members
    were found, and the request. *)
Definition parse_rgbw_params (random : bool) : Z * rgbw_request :=
  match get_action_param with
  | None => (0, RgbwRequest 0 (-1) (-1) random (-1) (-1))
  | Some root =>
      let brightness := get_char_value root "brightness" in
      let color_brightness := get_char_value root "color_brightness" in
      let white_temperature := get_char_value root "white_temperature" in
      let command := get_char_value root "rgbw_command" in
      let '(color, color_random, counts) := color_of root in
      let found (o : option Z) := Z_of_bool (bool_decide (is_Some o)) in
      (found brightness + found color_brightness + found white_temperature + found command
       + Z_of_bool counts,
       RgbwRequest (default 0 color) (default (-1) color_brightness) (default (-1) brightness)
         (default random color_random) (default (-1) command) (default (-1) white_temperature))
  end.

Definition as_expected (expected value : Z) : bool := (value =? expected) || (expected =? -1).

Definition rgb_match (e : rgbw_request) (v : Z * Z * Z * Z) : bool :=
  let '(color, color_brightness, brightness, white_temperature) := v in
  let color_ok := rq_color_random e || (color =? rq_color e) || (rq_color e =? 0) in
  let color_brightness_ok := as_expected (rq_color_brightness e) color_brightness in
  let white_ok := as_expected (rq_white_temperature e) white_temperature in
  let brightness_ok := as_expected (rq_brightness e) brightness in
  let func := channel_func p in
  if func =? SUPLA_CHANNELFNC_DIMMER_CCT_AND_RGB
  then color_ok && color_brightness_ok && white_ok && brightness_ok
  else if func =? SUPLA_CHANNELFNC_DIMMER_CCT then white_ok || brightness_ok
  else if func =? SUPLA_CHANNELFNC_DIMMER then brightness_ok
  else if func =? SUPLA_CHANNELFNC_RGBLIGHTING then color_ok && color_brightness_ok
  else if func =? SUPLA_CHANNELFNC_DIMMERANDRGBLIGHTING
  then color_ok && color_brightness_ok && brightness_ok
  else false.

Definition rgb_success : ipc (bool * option Z) :=
  let '(n, e) := parse_rgbw_params false in
  if n =? 0 then mret (false, None)
  else
    value ← ipcc_get_rgbw_value;
    mret (match value with Some v => rgb_match e v | None => false end, None).

Definition rgb_do_action : ipc bool :=
  let '(n, e) := parse_rgbw_params uninitialised in
  if 0 <? n
  then ipcc_set_rgbw_value (rq_color e) (rq_color_brightness e) (rq_brightness e)
         (rq_color_random e) (rq_command e) (rq_white_temperature e)
  else mret false.

Definition rgb : s_worker_action := {|
  is_action_allowed := one_of (channel_func p) dimmers;
  try_limit := 2;
  waiting_time_to_retry := 30;
  waiting_time_to_check := 5;
  check_before_start := false;
  retry_when_fail := param_retry_when_fail p;
  result_success := rgb_success;
  do_action := rgb_do_action
|}.

(** ** Digiglass, copies, scenes and thermostats *)

Definition int_member (root : json) (key : string) : option Z :=
  item ← GetObjectItem root key; x ← number_of item; Some (to_int x).

(** Active bits and mask. *)
Definition get_digiglass_params : option (Z * Z) :=
  root ← get_action_param;
  mask ← int_member root "mask";
  active_bits ← int_member root "activeBits";
  Some (active_bits, mask).

Definition set_success : ipc (bool * option Z) :=
  match get_digiglass_params with
  | Some (active_bits, mask) =>
      current_mask ← ipcc_get_digiglass_value;
      mret (match current_mask with
            | Some m => Z.land m active_bits =? mask
            | None => false
            end, None)
  | None => mret (false, None)
  end.

Definition set_digiglass : s_worker_action := {|
  is_action_allowed :=
    one_of (channel_func p)
      [SUPLA_CHANNELFNC_DIGIGLASS_HORIZONTAL; SUPLA_CHANNELFNC_DIGIGLASS_VERTICAL];
  try_limit := 2;
  waiting_time_to_retry := 30;
  waiting_time_to_check := 5;
  check_before_start := false;
  retry_when_fail := param_retry_when_fail p;
  result_success := set_success;
  do_action := match get_digiglass_params with
               | Some (active_bits, mask) => ipcc_set_digiglass_value active_bits mask
               | None => mret false
               end
|}.

(** Source device and channel. *)
Definition get_copy_params : option (Z * Z) :=
  root ← get_action_param;
  let sourceChannelId := default 0 (int_member root "sourceChannelId") in
  let sourceDeviceId := default 0 (int_member root "sourceDeviceId") in
  if sourceChannelId =? 0 then None else Some (sourceDeviceId, sourceChannelId).

(** The actions that are done once, whose result is not checked. *)
Definition once (allowed : bool) (act : ipc bool) : s_worker_action := {|
  is_action_allowed := allowed;
  try_limit := 1;
  waiting_time_to_retry := MIN_RETRY_TIME;
  waiting_time_to_check := MIN_CHECK_TIME;
  check_before_start := false;
  retry_when_fail := param_retry_when_fail p;
  result_success := mret (true, None);
  do_action := act
|}.

Definition copy : s_worker_action :=
  once
    (one_of (channel_func p)
       [SUPLA_CHANNELFNC_CONTROLLINGTHEROLLERSHUTTER; SUPLA_CHANNELFNC_CONTROLLINGTHEROOFWINDOW;
        SUPLA_CHANNELFNC_CONTROLLINGTHEGATE; SUPLA_CHANNELFNC_CONTROLLINGTHEGARAGEDOOR;
        SUPLA_CHANNELFNC_LIGHTSWITCH; SUPLA_CHANNELFNC_POWERSWITCH;
        SUPLA_CHANNELFNC_STAIRCASETIMER; SUPLA_CHANNELFNC_DIMMER; SUPLA_CHANNELFNC_DIMMER_CCT;
        SUPLA_CHANNELFNC_DIMMER_CCT_AND_RGB; SUPLA_CHANNELFNC_RGBLIGHTING;
        SUPLA_CHANNELFNC_DIMMERANDRGBLIGHTING])
    (match get_copy_params with
     | Some (sourceDeviceId, sourceChannelId) => ipcc_action_copy sourceDeviceId sourceChannelId
     | None => mret false
     end).

Definition execute_scene_action : s_worker_action := once it_applies_to_scene ipcc_execute_scene.
Definition interrupt : s_worker_action := once it_applies_to_scene ipcc_interrupt_scene.
Definition interrupt_and_execute : s_worker_action :=
  once it_applies_to_scene ipcc_interrupt_and_execute_scene.

Definition switch_to (to_program_mode : bool) : s_worker_action := {|
  is_action_allowed :=
    one_of (channel_func p) (SUPLA_CHANNELFNC_THERMOSTAT_HEATPOL_HOMEPLUS :: hvacs);
  try_limit := 2;
  waiting_time_to_retry := 30;
  waiting_time_to_check := 5;
  check_before_start := false;
  retry_when_fail := param_retry_when_fail p;
  result_success :=
    value ← ipcc_get_hvac_value;
    mret (match value with Some v => eqb to_program_mode (is_weekly v) | None => false end, None);
  do_action := if to_program_mode then ipcc_action_hvac_switch_to_program_mode
               else ipcc_action_hvac_switch_to_manual_mode
|}.

(** ** The registered actions *)

Definition factories : list (Z * s_worker_action) :=
  [(ACTION_TURN_ON, turn_onoff true); (ACTION_TURN_OFF, turn_onoff false);
   (ACTION_OPEN, openclose true); (ACTION_CLOSE, openclose false);
   (ACTION_SHUT, shut); (ACTION_REVEAL, reveal);
   (ACTION_SHUT_PARTIALLY, shut_partially); (ACTION_REVEAL_PARTIALLY, reveal_partially);
   (ACTION_SET_RGBW_PARAMETERS, rgb); (ACTION_SET, set_digiglass); (ACTION_COPY, copy);
   (ACTION_EXECUTE, execute_scene_action); (ACTION_INTERRUPT, interrupt);
   (ACTION_INTERRUPT_AND_EXECUTE, interrupt_and_execute);
   (ACTION_HVAC_SWITCH_TO_PROGRAM_MODE, switch_to true);
   (ACTION_HVAC_SWITCH_TO_MANUAL_MODE, switch_to false)].

Definition createByActionType (action_type : Z) : option s_worker_action :=
  snd <$> find_first (λ f, f.1 =? action_type) factories.

(** ** One execution *)

(** [switch (worker->ipcc_is_connected())] *)
Definition failure_of (connected : Z) : option db_effect :=
  if connected =? IPC_RESULT_CONNECTED then Some (SetResult ACTION_EXECUTION_RESULT_FAILURE)
  else if connected =? IPC_RESULT_DISCONNECTED
  then Some (SetResult ACTION_EXECUTION_RESULT_DEVICE_UNREACHABLE)
  else if connected =? IPC_RESULT_SERVER_UNREACHABLE
  then Some (SetResult ACTION_EXECUTION_RESULT_SERVER_UNREACHABLE)
  else None.

Definition execute_set (a : s_worker_action) : ipc (option db_effect) :=
  action_result ← do_action a;
  if channel_group then
    if action_result : bool then mret (Some (SetResult ACTION_EXECUTED_WITHOUT_CONFIRMATION))
    else
      connected ← ipcc_is_connected;
      mret (Some (SetResult (if connected =? IPC_RESULT_SERVER_UNREACHABLE
                             then ACTION_EXECUTION_RESULT_SERVER_UNREACHABLE
                             else ACTION_EXECUTION_RESULT_FAILURE)))
  else if (retry_count p =? 0) && (try_limit a <=? 1) then
    mret (Some (SetResult (if action_result : bool then ACTION_EXECUTED_WITHOUT_CONFIRMATION
                           else ACTION_EXECUTION_RESULT_FAILURE)))
  else mret (Some (SetRetry (waiting_time_to_check a))).

Definition execute_check (a : s_worker_action) : ipc (option db_effect) :=
  r ← result_success a;
  let '(success, fail_result_code) := r in
  if success : bool then mret (Some (SetResult ACTION_EXECUTION_RESULT_SUCCESS))
  else if retry_when_fail a && (retry_count p + 1 <? try_limit a * 2) then
    mret (Some (SetRetry (waiting_time_to_retry a - waiting_time_to_check a)))
  else if 0 <? default 0 fail_result_code then
    mret (Some (SetResult (default 0 fail_result_code)))
  else connected ← ipcc_is_connected; mret (failure_of connected).

(** [s_worker_action::execute] *)
Definition execute (a : s_worker_action) : ipc (option db_effect) :=
  if negb (is_action_allowed a) then mret (Some (SetResult ACTION_EXECUTION_RESULT_CANCELLED))
  else
    let run := if Z.rem (retry_count p) 2 =? 0 then execute_set a else execute_check a in
    if negb channel_group && check_before_start a && (retry_count p =? 0) then
      r ← result_success a;
      if r.1 : bool then mret (Some (SetResult ACTION_EXECUTION_RESULT_SUCCESS)) else run
    else run.

(** What a worker does with a job that it has marked as fetched. *)
Definition execute_job : ipc (option db_effect) :=
  match createByActionType (action p) with
  | Some a => execute a
  | None => mret (Some (SetResult ACTION_EXECUTION_RESULT_CANCELLED))
  end.
End worker.

(** ** What an execution sends *)

(** Questions have these beginnings; the other texts command something. *)
Definition is_query (t : text) : bool :=
  starts_with (str "GET-") t || starts_with (str "IS-") t.

Definition commands_in (ts : list text) : nat := length (filter (λ t, is_query t = false) ts).

(** At most [n] of the texts that a run sends are commands. *)
Definition sends_le {A} (n : nat) (m : ipc A) : Prop :=
  ∀ h, ∃ ts, (m h).2 = h ++ ts ∧ (commands_in ts <= n)%nat.

Lemma commands_in_app ts us : commands_in (ts ++ us) = (commands_in ts + commands_in us)%nat.
Proof. unfold commands_in. by rewrite filter_app, length_app. Qed.

Lemma sends_ret {A} n (a : A) : sends_le n (mret a).
Proof. intros h. exists []. rewrite app_nil_r. split; [done|cbn; lia]. Qed.

Lemma sends_bind {A B} n k (m : ipc A) (f : A → ipc B) :
  sends_le n m → (∀ a, sends_le k (f a)) → sends_le (n + k) (m ≫= f).
Proof.
  intros Hm Hf h. destruct (Hm h) as (ts & E & Hn). unfold mbind, ipc_bind.
  destruct (m h) as [a h'] eqn:Em. cbn [snd] in E. subst h'.
  destruct (Hf a (h ++ ts)) as (us & E & Hk). exists (ts ++ us). rewrite E, app_assoc.
  split; [done|]. rewrite commands_in_app. lia.
Qed.

(** What follows questions decides how many commands there are. *)
Lemma sends_bind_quiet {A B} n (m : ipc A) (f : A → ipc B) :
  sends_le 0 m → (∀ a, sends_le n (f a)) → sends_le n (m ≫= f).
Proof. apply (sends_bind 0 n). Qed.

Lemma sends_if {A} n (b : bool) (m m' : ipc A) :
  sends_le n m → sends_le n m' → sends_le n (if b then m else m').
Proof. by destruct b. Qed.

Lemma sends_le_weaken {A} n k (m : ipc A) : (n <= k)%nat → sends_le n m → sends_le k m.
Proof. intros Hk Hm h. destruct (Hm h) as (ts & E & Hn). exists ts. split; [done|lia]. Qed.

Create HintDb sends.
#[export] Hint Resolve sends_ret sends_if : sends.

#[export] Hint Unfold ipcc_set_char_value ipcc_get_char_value ipcc_get_fb_value
  ipcc_get_rgbw_value ipcc_set_rgbw_value ipcc_get_valve_value ipcc_set_digiglass_value
  ipcc_get_digiglass_value ipcc_action_copy ipcc_action_shut_partially
  ipcc_action_hvac_switch_to_program_mode ipcc_action_hvac_switch_to_manual_mode
  ipcc_get_hvac_value ipcc_action_turn_on ipcc_action_turn_off ipcc_execute_scene
  ipcc_interrupt_scene ipcc_interrupt_and_execute_scene ipcc_is_connected
  set_char_value set_rgbw_value set_digiglass_value action_copy action_shut_partially
  action_hvac_switch_to_program_mode action_hvac_switch_to_manual_mode action_turn_on
  action_turn_off interrupt_scene interrupt_and_execute_scene
  turn_onoff_success openclose_success openclose_do_action shut_success shut_do_action
  get_position rgb_success rgb_do_action set_success : sends.

Section sends.
Context {json : Type} `{CJson json} (parse : text → option json).
Context (get_channel : Z → option supla_channel) (uninitialised : bool).
Context (answer : list text → option text) (p : s_exec_params_t).

Lemma sends_ask_any q : sends_le 1 (ask answer q).
Proof.
  intros h. exists [request_text q]. split; [done|]. unfold commands_in.
  pose proof (length_filter (λ t, is_query t = false) [request_text q]). cbn in *. lia.
Qed.

Lemma sends_ask q : is_query (request_text q) = true → sends_le 0 (ask answer q).
Proof.
  intros Hq h. exists [request_text q]. split; [done|]. unfold commands_in.
  rewrite filter_cons_False by congruence. cbn. lia.
Qed.

Lemma sends_is_connected u d : sends_le 0 (is_connected answer u d).
Proof. apply sends_bind_quiet; [by apply sends_ask|intros; apply sends_ret]. Qed.

(** One question and a conversion of its answer. *)
Lemma sends_get_value {A} cmd u d c (f : option text → A) :
  is_query (request_text (QGetValue cmd u d c)) = true →
  sends_le 0 (s ← get_value answer cmd u d c; mret (f s)).
Proof.
  intros Hq. apply sends_bind_quiet; [|intros; apply sends_ret].
  apply sends_bind_quiet; [by apply sends_ask|intros; apply sends_ret].
Qed.

Lemma sends_command q : sends_le 1 (command answer q).
Proof. apply (sends_bind 1 0); [apply sends_ask_any|intros; apply sends_ret]. Qed.

#[local] Hint Extern 1 (sends_le 0 (IpcClient.get_char_value _ _ _ _)) => by apply sends_get_value : sends.
#[local] Hint Extern 1 (sends_le 0 (get_fb_value _ _ _ _)) => by apply sends_get_value : sends.
#[local] Hint Extern 1 (sends_le 0 (get_rgbw_value _ _ _ _)) => by apply sends_get_value : sends.
#[local] Hint Extern 1 (sends_le 0 (get_valve_value _ _ _ _)) => by apply sends_get_value : sends.
#[local] Hint Extern 1 (sends_le 0 (get_digiglass_value _ _ _ _)) => by apply sends_get_value : sends.
#[local] Hint Extern 1 (sends_le 0 (get_hvac_value _ _ _ _)) => by apply sends_get_value : sends.
#[local] Hint Resolve sends_is_connected sends_command : sends.

(** Goes through the questions of a run. *)
Ltac sends :=
  repeat match goal with
         | |- sends_le _ (if _ then _ else _) => apply sends_if
         | |- sends_le _ (let '_ := ?x in _) => destruct x
         | |- sends_le _ (match ?x with _ => _ end) => destruct x
         | |- sends_le _ (mret _) => apply sends_ret
         | |- sends_le _ (_ ≫= _) => apply sends_bind_quiet; [|intros ?]
         end; auto with sends.

Lemma sends_opening_sensor : sends_le 0 (ipcc_get_opening_sensor_value get_channel answer p).
Proof. unfold ipcc_get_opening_sensor_value. sends. Qed.

#[local] Hint Resolve sends_opening_sensor : sends.

Lemma sends_execute_scene u s : sends_le 1 (IpcClient.execute_scene answer u s).
Proof. apply (sends_bind 1 0); [apply sends_ask_any|intros; apply sends_ret]. Qed.

#[local] Hint Resolve sends_execute_scene : sends.

(** A class asks questions only to check its result, and commands at most once. *)
Lemma factories_send :
  Forall (λ f, sends_le 0 (result_success f.2) ∧ sends_le 1 (do_action f.2))
    (factories parse get_channel uninitialised answer p).
Proof.
  repeat apply Forall_cons_2; try apply Forall_nil_2; cbn [snd]; split;
    cbn [result_success do_action turn_onoff openclose shut reveal shutter shut_partially
         reveal_partially rgb set_digiglass copy execute_scene_action interrupt
         interrupt_and_execute once switch_to];
    autounfold with sends; by sends.
Qed.
End sends.

(** ** The limits of the classes *)

Definition failure_codes : list Z :=
  [ACTION_EXECUTION_RESULT_NO_SENSOR;
   ACTION_EXECUTION_RESULT_VALVE_CLOSED_MANUALLY_OR_FLOODING].

Definition result_codes : list Z :=
  [ACTION_EXECUTION_RESULT_SUCCESS; ACTION_EXECUTION_RESULT_DEVICE_UNREACHABLE;
   ACTION_EXECUTION_RESULT_SERVER_UNREACHABLE; ACTION_EXECUTION_RESULT_FAILURE;
   ACTION_EXECUTION_RESULT_CANCELLED; ACTION_EXECUTED_WITHOUT_CONFIRMATION] ++ failure_codes.

(** The times that a class must keep, and the codes it may store. *)
Record action_ok (a : s_worker_action) : Prop := {
  ok_limit : 1 <= try_limit a;
  ok_check : MIN_CHECK_TIME <= waiting_time_to_check a < waiting_time_to_retry a;
  ok_retry : MIN_RETRY_TIME <= waiting_time_to_retry a;
  ok_max : get_max_time a < 280;
  ok_quiet : sends_le 0 (result_success a);
  ok_commands : sends_le 1 (do_action a);
  ok_code : ∀ h, (result_success a h).1.2 ∈ None :: (Some <$> failure_codes)
}.

(** How often and how late: what [row_life] depends on. *)
Definition limits (a : s_worker_action) : Z * Z * Z :=
  (try_limit a, waiting_time_to_retry a, waiting_time_to_check a).

Definition with_retry_count (p : s_exec_params_t) (n : Z) : s_exec_params_t := {|
  id := id p; schedule_id := schedule_id p; user_id := user_id p; scene_id := scene_id p;
  iodevice_id := iodevice_id p; channel_id := channel_id p;
  channel_group_id := channel_group_id p; channel_func := channel_func p;
  channel_param1 := channel_param1 p; channel_param2 := channel_param2 p;
  channel_param3 := channel_param3 p; action := action p; action_param := action_param p;
  planned_timestamp := planned_timestamp p; retry_timestamp := retry_timestamp p;
  retry_count := n; param_retry_when_fail := param_retry_when_fail p
|}.

(** The codes that a run may store. *)
Definition codes_ok (m : ipc (bool * option Z)) : Prop :=
  ∀ h, (m h).1.2 ∈ None :: (Some <$> failure_codes).

Lemma codes_bind {A} (m : ipc A) f : (∀ a, codes_ok (f a)) → codes_ok (m ≫= f).
Proof. intros Hf h. unfold mbind, ipc_bind. destruct (m h) as [a h']. apply Hf. Qed.

Lemma codes_ret b o : bool_decide (o ∈ None :: (Some <$> failure_codes)) = true →
  codes_ok (mret (b, o)).
Proof. intros Ho h. by apply bool_decide_eq_true in Ho. Qed.

(** Goes through a run to what it stores. *)
Ltac codes :=
  repeat match goal with
         | |- codes_ok (_ ≫= _) => apply codes_bind; intros ?
         | |- codes_ok (mret (_, if ?b then _ else _)) => destruct b
         | |- codes_ok (mret (_, _)) => apply codes_ret
         | |- codes_ok (if ?b then _ else _) => destruct b
         | |- codes_ok (match ?x with _ => _ end) => destruct x
         | |- codes_ok (mret (if ?b then _ else _)) => destruct b
         | |- codes_ok (mret (match ?x with _ => _ end)) => destruct x
         end; try done.

Section limits.
Context {json : Type} `{CJson json} (parse : text → option json).

Lemma factories_codes gc un ans p :
  Forall (λ f, codes_ok (result_success f.2)) (factories parse gc un ans p).
Proof.
  repeat apply Forall_cons_2; try apply Forall_nil_2; cbn [snd];
    cbn [result_success turn_onoff openclose shut reveal shutter shut_partially
         reveal_partially rgb set_digiglass copy execute_scene_action interrupt
         interrupt_and_execute once switch_to];
    autounfold with sends; by codes.
Qed.

Lemma factories_times gc un ans p :
  Forall (λ f, 1 <= try_limit f.2 ∧
               MIN_CHECK_TIME <= waiting_time_to_check f.2 < waiting_time_to_retry f.2 ∧
               MIN_RETRY_TIME <= waiting_time_to_retry f.2 ∧ get_max_time f.2 < 280)
    (factories parse gc un ans p).
Proof.
  unfold get_max_time.
  repeat apply Forall_cons_2; try apply Forall_nil_2;
    cbn [snd try_limit waiting_time_to_retry waiting_time_to_check turn_onoff openclose shut
         reveal shutter shut_partially reveal_partially rgb set_digiglass copy
         execute_scene_action interrupt interrupt_and_execute once switch_to];
    unfold MIN_CHECK_TIME, MIN_RETRY_TIME;
    repeat match goal with |- context [if ?b then _ else _] => destruct b end; lia.
Qed.

Lemma created_ok gc un ans p a :
  createByActionType parse gc un ans p (action p) = Some a → action_ok a.
Proof.
  intros Ha. apply fmap_Some in Ha as (f & Hf & ->). apply find_first_Some in Hf as [_ Hin].
  pose proof (factories_times gc un ans p) as Ht. rewrite Forall_forall in Ht.
  pose proof (factories_codes gc un ans p) as Hc. rewrite Forall_forall in Hc.
  pose proof (factories_send parse gc un ans p) as Hs. rewrite Forall_forall in Hs.
  destruct (Ht f Hin) as (?&?&?&?), (Hs f Hin). by split; [..|apply Hc].
Qed.

(** The limits depend on the function of the channel only. *)
Lemma factories_limits gc un ans gc' un' ans' p q : channel_func p = channel_func q →
  (λ f, (f.1, limits f.2)) <$> factories parse gc un ans p =
  (λ f, (f.1, limits f.2)) <$> factories parse gc' un' ans' q.
Proof.
  intros Hf. unfold factories, openclose, garage_func, valve_func. rewrite Hf. reflexivity.
Qed.

Lemma created_limits gc un ans gc' un' ans' p q : channel_func p = channel_func q →
  limits <$> createByActionType parse gc un ans p (action q) =
  limits <$> createByActionType parse gc' un' ans' q (action q).
Proof.
  intros Hf. unfold createByActionType. rewrite <- !option_fmap_compose.
  pose proof (factories_limits gc un ans gc' un' ans' p q Hf) as E. revert E.
  generalize (factories parse gc un ans p) (factories parse gc' un' ans' q).
  induction l as [|f l IH]; intros [|f' l'] E; try done. rewrite !fmap_cons in E.
  injection E as E1 E2 E3 E4 E. cbn [find_first]. rewrite E1. destruct (f'.1 =? action q).
  - cbn. unfold limits. by rewrite E2, E3, E4.
  - by apply IH.
Qed.
End limits.

(** ** From the first execution to the result *)

(** What surrounds one execution. *)
Record world := World {
  w_get_channel : Z → option supla_channel;
  w_uninitialised : bool;
  w_answer : list text → option text
}.

Section life.
Context {json : Type} `{CJson json} (parse : text → option json).

Definition create (w : world) (p : s_exec_params_t) : option s_worker_action :=
  createByActionType parse (w_get_channel w) (w_uninitialised w) (w_answer w) p (action p).

(** An execution: its effect and the texts that it sends. *)
Definition execute_in (w : world) (p : s_exec_params_t) : option db_effect * list text :=
  execute_job parse (w_get_channel w) (w_uninitialised w) (w_answer w) p [].

(** The executions of a row, each in its own surroundings, until its result: the result, the
    seconds that the database was told to wait, and the texts. A retry counts in the row. *)
Fixpoint row_life (fuel : nat) (env : nat → world) (p : s_exec_params_t)
    : option (Z * Z * list text) :=
  match fuel with
  | O => None
  | S fuel =>
      match execute_in (env 0%nat) p with
      | (Some (SetResult result), ts) => Some (result, 0, ts)
      | (Some (SetRetry sec), ts) =>
          '(result, waited, ts') ← row_life fuel (λ n, env (S n))
                                     (with_retry_count p (retry_count p + 1));
          Some (result, sec + waited, ts ++ ts')
      | (None, _) => None
      end
  end.

(** *** One execution *)

Lemma connected_cases ans u d h :
  ∃ e, (failure_of (is_connected ans u d h).1) = Some (SetResult e) ∧ e ∈ result_codes.
Proof.
  assert (Hc : ∀ r, ∃ e, failure_of (match r with
       | Some r => if starts_with (str "CONNECTED:") r then IPC_RESULT_CONNECTED
                   else if starts_with (str "DISCONNECTED:") r then IPC_RESULT_DISCONNECTED
                   else IPC_RESULT_SERVER_UNREACHABLE
       | None => IPC_RESULT_SERVER_UNREACHABLE
       end) = Some (SetResult e) ∧ e ∈ result_codes).
  { intros [r|]; repeat case_match; (eexists; split; [reflexivity|]);
      by apply (bool_decide_unpack _). }
  unfold is_connected, mbind, ipc_bind. destruct (ask ans _ h) as [r h']. apply Hc.
Qed.

Section step.
Context (w : world) (p : s_exec_params_t) (a : s_worker_action) (Hok : action_ok a).

Lemma execute_set_sends : sends_le 1 (execute_set (w_answer w) p a).
Proof using Hok.
  apply (sends_bind 1 0); [apply (ok_commands a Hok)|]. intros r.
  destruct (channel_group p), r; auto with sends.
  apply sends_bind_quiet; [apply sends_is_connected|intros; apply sends_ret].
Qed.

Lemma execute_check_sends : sends_le 0 (execute_check (w_answer w) p a).
Proof using Hok.
  apply sends_bind_quiet; [apply (ok_quiet a Hok)|]. intros [success code].
  repeat apply sends_if; auto with sends.
  apply sends_bind_quiet; [apply sends_is_connected|intros; apply sends_ret].
Qed.

Lemma execute_set_effect h : ∃ e, (execute_set (w_answer w) p a h).1 = Some e ∧
  ((∃ r, e = SetResult r ∧ r ∈ result_codes) ∨
   e = SetRetry (waiting_time_to_check a) ∧ (retry_count p = 0 → 2 <= try_limit a)).
Proof.
  unfold execute_set, mbind, ipc_bind. destruct (do_action a h) as [r h'].
  destruct (channel_group p).
  - destruct r; [eexists; split; [done|]; left; eexists; split; [done|];
      by apply (bool_decide_unpack _)|].
    unfold ipcc_is_connected. destruct (is_connected _ _ _ h') as [c h'']. cbn [fst].
    eexists. split; [done|]. left. eexists. split; [done|].
    destruct (c =? _); by apply (bool_decide_unpack _).
  - destruct (Z.eqb_spec (retry_count p) 0), (Z.leb_spec (try_limit a) 1); cbn [andb fst mret ipc_ret];
      (eexists; split; [done|]).
    + left. eexists. split; [done|]. destruct r; by apply (bool_decide_unpack _).
    + right. split; [done|lia].
    + right. split; [done|lia].
    + right. split; [done|lia].
Qed.

Lemma execute_check_effect h : ∃ e, (execute_check (w_answer w) p a h).1 = Some e ∧
  ((∃ r, e = SetResult r ∧ r ∈ result_codes) ∨
   e = SetRetry (waiting_time_to_retry a - waiting_time_to_check a) ∧
   retry_count p + 1 < try_limit a * 2).
Proof using Hok.
  unfold execute_check, mbind, ipc_bind. pose proof (ok_code a Hok h) as Hc.
  destruct (result_success a h) as [[success code] h']. cbn [fst snd] in Hc.
  destruct success.
  { eexists. split; [done|]. left. eexists. split; [done|]. by apply (bool_decide_unpack _). }
  destruct (retry_when_fail a), (Z.ltb_spec (retry_count p + 1) (try_limit a * 2));
    cbn [andb]; [eexists; split; [done|]; by right|..];
    (destruct (0 <? default 0 code) eqn:Ed;
     [eexists; split; [done|]; left; eexists; split; [done|];
      set_unfold in Hc; naive_solver (by apply (bool_decide_unpack _))|]);
    destruct (connected_cases (w_answer w) (user_id p) (iodevice_id p) h') as (e & E & He);
    unfold ipcc_is_connected; destruct (is_connected _ _ _ h') as [c h''];
    (eexists; split; [exact E|]; left; by eexists).
Qed.

(** Results, and retries that the count of retries allows. *)
Definition effect_ok (e : db_effect) : Prop :=
  (∃ r, e = SetResult r ∧ r ∈ result_codes) ∨
  Z.rem (retry_count p) 2 = 0 ∧ e = SetRetry (waiting_time_to_check a) ∧
    (retry_count p = 0 → 2 <= try_limit a) ∨
  Z.rem (retry_count p) 2 ≠ 0 ∧
    e = SetRetry (waiting_time_to_retry a - waiting_time_to_check a) ∧
    retry_count p + 1 < try_limit a * 2.

Definition commands_allowed : nat := if Z.rem (retry_count p) 2 =? 0 then 1 else 0.

Lemma execute_run h :
  let run := if Z.rem (retry_count p) 2 =? 0 then execute_set (w_answer w) p a
             else execute_check (w_answer w) p a in
  ∃ e ts, run h = (Some e, h ++ ts) ∧ (commands_in ts <= commands_allowed)%nat ∧ effect_ok e.
Proof using Hok.
  unfold commands_allowed, effect_ok.
  destruct (Z.eqb_spec (Z.rem (retry_count p) 2) 0) as [E|E]; cbv zeta.
  - destruct (execute_set_effect h) as (e & He & Hc), (execute_set_sends h) as (ts & Ht & Hn).
    destruct (execute_set _ _ _ h). cbn [fst snd] in *. subst. exists e, ts.
    split; [done|split; [done|]]. destruct Hc as [?|[? ?]]; auto.
  - destruct (execute_check_effect h) as (e & He & Hc), (execute_check_sends h) as (ts & Ht & Hn).
    destruct (execute_check _ _ _ h). cbn [fst snd] in *. subst. exists e, ts.
    split; [done|split; [done|]]. destruct Hc as [?|[? ?]]; auto.
Qed.

Lemma execute_cases : ∃ e ts, execute (w_answer w) p a [] = (Some e, ts) ∧
  (commands_in ts <= commands_allowed)%nat ∧ effect_ok e.
Proof using Hok.
  assert (Hres : ∀ r, bool_decide (r ∈ result_codes) = true → effect_ok (SetResult r)).
  { intros r Hr. apply bool_decide_eq_true in Hr. left. by exists r. }
  unfold execute. destruct (is_action_allowed a); cbn [negb].
  2:{ eexists _, []. split; [done|]. split; [cbn; lia|by apply Hres]. }
  destruct (_ && _ && _); [|apply (execute_run [])].
  unfold mbind, ipc_bind. destruct (ok_quiet a Hok []) as (ts & Ht & Hn).
  destruct (result_success a []) as [[success code] h]. cbn [fst snd app] in *. subst h.
  destruct success.
  - eexists _, ts. split; [done|]. split; [lia|by apply Hres].
  - destruct (execute_run ts) as (e & us & -> & Hu & He). eexists _, _. split; [done|].
    split; [rewrite commands_in_app; lia|done].
Qed.
End step.

(** *** All executions *)

Lemma create_like w w' p q a : channel_func p = channel_func q → action p = action q →
  create w q = Some a → ∃ a', create w' p = Some a' ∧ limits a' = limits a.
Proof.
  intros Hf He Ha. unfold create in *. rewrite He.
  pose proof (created_limits parse (w_get_channel w') (w_uninitialised w') (w_answer w')
    (w_get_channel w) (w_uninitialised w) (w_answer w) p q Hf) as E.
  rewrite Ha in E. apply fmap_Some in E as (a' & E & ->). by exists a'.
Qed.

Lemma create_retried w w' p n a : create w p = Some a →
  ∃ a', create w' (with_retry_count p n) = Some a' ∧ limits a' = limits a.
Proof. by apply create_like. Qed.


Lemma execute_in_create w p a : create w p = Some a →
  execute_in w p = execute (w_answer w) p a [].
Proof. unfold create, execute_in, execute_job. by intros ->. Qed.

(** A job is retried only as often as its class allows. *)
Lemma retry_allowed w p sec : (execute_in w p).1 = Some (SetRetry sec) →
  ∃ a, create w p = Some a ∧
    (0 <= retry_count p <= 2 * try_limit a - 1 → retry_count p + 1 <= 2 * try_limit a - 1).
Proof.
  intros Hr. destruct (create w p) as [a|] eqn:Ha.
  - exists a. split; [done|]. intros Hrc. rewrite (execute_in_create w p a Ha) in Hr.
    assert (Hok : action_ok a) by by eapply created_ok.
    destruct (execute_cases w p a Hok) as (e & ts & E & _ & He). rewrite E in Hr.
    injection Hr as ->. destruct He as [(r & [=] & _)|[(Hev & _)|(_ & _ & ?)]]; [|lia].
    apply Z.rem_divide in Hev as [q Hq]; lia.
  - unfold create, execute_in, execute_job in *. by rewrite Ha in Hr.
Qed.

(** A result, or a retry after [sec] seconds. *)
Definition life_step (fuel : nat) (env : nat → world) (p : s_exec_params_t) (sec : Z) (n : nat)
    (allowed : Prop) : Prop :=
  (∃ r ts, row_life (S fuel) env p = Some (r, 0, ts) ∧ r ∈ result_codes ∧
           (commands_in ts <= n)%nat) ∨
  (allowed ∧ ∃ ts, (commands_in ts <= n)%nat ∧
     row_life (S fuel) env p =
     '(r, waited, ts') ← row_life fuel (λ n, env (S n)) (with_retry_count p (retry_count p + 1));
     Some (r, sec + waited, ts ++ ts')).

Lemma life_set fuel env p a : create (env 0%nat) p = Some a → Z.rem (retry_count p) 2 = 0 →
  life_step fuel env p (waiting_time_to_check a) 1 (retry_count p = 0 → 2 <= try_limit a).
Proof.
  intros Ha Hrc. assert (Hok : action_ok a) by by eapply created_ok.
  destruct (execute_cases (env 0%nat) p a Hok) as (e & ts & Ee & Hts & He).
  unfold effect_ok, commands_allowed, life_step in *. rewrite Hrc in *. cbn [row_life].
  rewrite (execute_in_create _ _ a Ha), Ee.
  destruct He as [(r & -> & Hr)|[(_ & -> & Hl)|[Hn _]]]; [left|right|done].
  - by exists r, ts.
  - split; [done|]. by exists ts.
Qed.

Lemma life_check fuel env p a : create (env 0%nat) p = Some a → Z.rem (retry_count p) 2 ≠ 0 →
  life_step fuel env p (waiting_time_to_retry a - waiting_time_to_check a) 0
    (retry_count p + 1 < try_limit a * 2).
Proof.
  intros Ha Hrc. assert (Hok : action_ok a) by by eapply created_ok.
  destruct (execute_cases (env 0%nat) p a Hok) as (e & ts & Ee & Hts & He).
  unfold effect_ok, commands_allowed, life_step in *.
  rewrite (proj2 (Z.eqb_neq _ 0) Hrc) in Hts. cbn [row_life].
  rewrite (execute_in_create _ _ a Ha), Ee.
  destruct He as [(r & -> & Hr)|[[Hn _]|(_ & -> & Hl)]]; [left|done|right].
  - by exists r, ts.
  - split; [done|]. by exists ts.
Qed.

(** From the [j]-th command on, with [k] commands left. *)
Lemma row_life_from k : ∀ env p a j,
  create (env 0%nat) p = Some a → retry_count p = 2 * j → 0 <= j →
  Z.max 1 (try_limit a - j) <= Z.of_nat k →
  ∃ result waited ts, row_life (2 * k) env p = Some (result, waited, ts) ∧
    result ∈ result_codes ∧
    0 <= waited <= (Z.of_nat k - 1) * waiting_time_to_retry a + waiting_time_to_check a ∧
    (commands_in ts <= k)%nat.
Proof.
  induction k as [|k IH]; intros env p a j Ha Hrc Hj Hk; [lia|].
  assert (Hok : action_ok a) by by eapply created_ok.
  pose proof (ok_check a Hok) as Hch. unfold MIN_CHECK_TIME in Hch.
  replace (2 * S k)%nat with (S (S (2 * k))) by lia.
  assert (Hev : Z.rem (retry_count p) 2 = 0) by (rewrite Hrc, Z.mul_comm; apply Z.rem_mul; lia).
  destruct (life_set (S (2 * k)) env p a Ha Hev) as [(r & ts & -> & Hr & Hts)|[Hl (ts & Hts & ->)]].
  { exists r, 0, ts. split; [done|]. split; [done|]. split; [nia|lia]. }
  rewrite Hrc in *.
  destruct (create_retried (env 0%nat) (env 1%nat) p (2 * j + 1) a Ha) as (b & Hb & [= El Er Ec]).
  assert (Hodd : Z.rem (2 * j + 1) 2 ≠ 0).
  { rewrite Z.add_comm, Z.mul_comm, Z.rem_add by nia. done. }
  destruct (life_check (2 * k) (λ n, env (S n)) _ b Hb Hodd)
    as [(r & us & -> & Hr & Hus)|[Hl' (us & Hus & ->)]]; cbn [retry_count with_retry_count] in *.
  { exists r, (waiting_time_to_check a + 0), (ts ++ us). split; [done|]. split; [done|].
    rewrite commands_in_app. split; [nia|lia]. }
  rewrite El, Er, Ec in *. replace (2 * j + 1 + 1) with (2 * (j + 1)) by lia.
  destruct (create_retried (env 0%nat) (env 2%nat) p (2 * (j + 1)) a Ha)
    as (c & Hc & [= El' Er' Ec']).
  destruct (IH (λ n, env (S (S n))) (with_retry_count p (2 * (j + 1))) c (j + 1))
    as (r & wt & vs & E & Hr & Hw & Hv); [done|done|lia|lia|].
  change (with_retry_count (with_retry_count p (2 * j + 1)) (2 * (j + 1)))
    with (with_retry_count p (2 * (j + 1))).
  rewrite E. eexists _, _, _. split; [done|]. split; [done|]. rewrite !commands_in_app.
  rewrite Er', Ec' in Hw. split; [nia|lia].
Qed.
End life.

(** A result that no state and no value of the first run change. *)
Lemma bind_result {A B} (m : ipc A) (f : A → ipc B) b h :
  (∀ a h', (f a h').1 = b) → ((m ≫= f) h).1 = b.
Proof. intros Hf. unfold mbind, ipc_bind. destruct (m h). apply Hf. Qed.

Section theorems.
Context {json : Type} `{CJson json} (parse : text → option json).

(** C10. A scheduled execution ends. Whatever the server, the devices and the database
    answer in each of its executions, a row that was not tried before gets one of eight
    results after at most two executions per try; the database is told to wait less than
    280 seconds in all, so that the retries end before the row expires, and at most as many
    commands are sent as there are tries. *)
Theorem row_life_ends env p a :
  create parse (env 0%nat) p = Some a → retry_count p = 0 →
  ∃ result waited ts,
    row_life parse (2 * Z.to_nat (try_limit a)) env p = Some (result, waited, ts) ∧
    result ∈ result_codes ∧
    0 <= waited <= get_max_time a - (waiting_time_to_retry a - waiting_time_to_check a) ∧
    waited < 280 < EXPIRE_TIME ∧ (commands_in ts <= Z.to_nat (try_limit a))%nat.
Proof.
  intros Ha Hrc. assert (Hok : action_ok a) by by eapply created_ok.
  pose proof (ok_limit a Hok) as Hl. pose proof (ok_max a Hok) as Hm.
  pose proof (ok_check a Hok) as Hc. unfold EXPIRE_TIME, get_max_time in *.
  destruct (row_life_from parse (Z.to_nat (try_limit a)) env p a 0) as (r & w & ts & E & Hr & Hw & Ht);
    [done|lia|lia|lia|].
  rewrite Z2Nat.id in Hw by lia. exists r, w, ts. do 2 (split; [done|]). split; [nia|]. split; [nia|done].
Qed.

(** The position of a shutter is not checked. After a shutter without an expected tilt
    was commanded, the check of the result succeeds as soon as the position can be
    read, whatever it is and whatever was expected: the two comparisons are joined by
    an or, and the comparison of the tilt holds. *)
Theorem shutter_position_unchecked get_channel answer p percentage as_delta tilt tilt_as_delta h :
  one_of (channel_func p) facade_blinds = false ∨ tilt = -1 →
  (shut_success get_channel answer p (Some (percentage, as_delta, tilt, tilt_as_delta)) h).1 =
  (bool_decide (is_Some (get_position answer p h).1), None).
Proof.
  intros Ht. unfold shut_success, mbind at 1, ipc_bind at 1.
  destruct (get_position answer p h) as [[[position t]|] h'] eqn:Ep; [|done].
  rewrite (bool_decide_eq_true_2 (is_Some _)) by done.
  assert (Hm : ∀ d t', within_tolerance (if one_of (channel_func p) facade_blinds then tilt else -1) d t' = true).
  { intros d t'. unfold within_tolerance. destruct Ht as [-> | ->]; [|destruct (one_of _ _)];
      by rewrite orb_true_r. }
  match goal with |- ((?m ≫= ?f) _).1 = _ => apply (bind_result m f) end. intros q h''. cbn [mret ipc_ret fst]. by rewrite Hm.
Qed.
End theorems.

(** A light switch that is turned on; documents are never there. *)
#[export] Instance no_json : CJson unit := {
  GetObjectItem _ _ := None; number_of _ := None; string_of _ := None; bool_of _ := None;
  array_of _ := None; is_object _ := false
}.

Definition example_exec (action channel_func : Z) : s_exec_params_t :=
  Exec 1 1 1 0 3 7 0 channel_func 0 0 0 action None 0 0 0 true.

Lemma row_life_ends_witness :
  let env := λ _, World (λ _, None) false (λ _, Some (str "VALUE:0")) in
  let p := example_exec ACTION_TURN_ON SUPLA_CHANNELFNC_LIGHTSWITCH in
  ∃ result waited ts, row_life (λ _, None) 4 env p = Some (result, waited, ts) ∧
    result ∈ result_codes.
Proof.
  intros env p.
  destruct (row_life_ends (λ _, None) env p _ eq_refl eq_refl) as (r & w & ts & E & Hr & _).
  exists r, w, ts. split; [exact E|exact Hr].
Defined.

(** A shutter that stays open after it was told to shut. *)
Lemma shutter_position_unchecked_witness :
  (shut_success (λ _, None) (λ _, Some (str "VALUE:0"))
     (example_exec ACTION_SHUT SUPLA_CHANNELFNC_CONTROLLINGTHEROLLERSHUTTER)
     (Some (100, false, -1, false)) []).1 = (true, None).
Proof.
  rewrite (shutter_position_unchecked (λ _, None) (λ _, Some (str "VALUE:0"))
    (example_exec ACTION_SHUT SUPLA_CHANNELFNC_CONTROLLINGTHEROLLERSHUTTER) 100 false (-1) false []
    (or_introl eq_refl)).
  reflexivity.
Defined.
