(* ===== verification/Scheduler.v ===== *)
(** * Scheduler: the queue of the scheduler

    supla-scheduler/src/database.cpp, queue.cpp and abstract_worker.cpp: the table of
    scheduled executions as the statements see it, the queue that loads rows which are due,
    and the workers that execute them. The loop and the workers are program counters; a
    step is one section under a mutex, one statement, or one execution of an action. *)

From S2P Require Import Prelude SafeArray Json IpcText SchedAction.

#[local] Open Scope list_scope.
#[local] Open Scope Z_scope.

(** ** The table *)

(** A row of supla_scheduled_executions, joined with its schedule and channel; the retry
    columns of [row_exec] are not used. *)
Record row := Row {
  row_exec : s_exec_params_t;
  row_retry_timestamp : option Z;
  row_retry_count : option Z;
  fetched_timestamp : option Z;
  result_timestamp : option Z;
  result : option Z;
  consumed : bool
}.

Notation table := (gmap Z row).

Definition set_fetch (r : row) (fetched : option Z) : row :=
  Row (row_exec r) (row_retry_timestamp r) (row_retry_count r) fetched (result_timestamp r)
    (result r) (consumed r).

Definition set_row_result (r : row) (utc res : Z) : row :=
  Row (row_exec r) (row_retry_timestamp r) (row_retry_count r) (fetched_timestamp r) (Some utc)
    (Some res) (consumed r).

Definition is_null {A} (o : option A) : bool := match o with None => true | Some _ => false end.

(** An update of the row with an identifier, where a condition holds; [ok] is whether the
    statement could be executed. *)
Definition update_row (ok : bool) (i : Z) (cnd : row → bool) (f : row → row) (db : table)
    : bool * table :=
  match db !! i with
  | Some r => if ok && cnd r then (true, <[i := f r]> db) else (false, db)
  | None => (false, db)
  end.

Definition set_fetched (ok : bool) (utc i : Z) : table → bool * table :=
  update_row ok i (λ r, is_null (fetched_timestamp r))
    (λ r, let r := set_fetch r (Some utc) in
          Row (row_exec r) (row_retry_timestamp r) (row_retry_count r) (fetched_timestamp r)
            (result_timestamp r) (result r) true).

Definition set_unfetched (ok : bool) (i : Z) : table → bool * table :=
  update_row ok i (λ _, true) (λ r, set_fetch r None).

Definition set_retry (ok : bool) (utc i sec : Z) : table → bool * table :=
  update_row ok i (λ r, negb (is_null (fetched_timestamp r)))
    (λ r, Row (row_exec r) (Some (utc + sec)) (Some (default 0 (row_retry_count r) + 1)) None
            (result_timestamp r) (result r) (consumed r)).

Definition set_result (ok : bool) (utc i res : Z) : table → bool * table :=
  update_row ok i (λ r, negb (is_null (fetched_timestamp r)))
    (λ r, set_fetch (set_row_result r utc res) None).

Definition set_expired_result (ok : bool) (utc expired_time : Z) (db : table) : table :=
  if ok then
    (λ r, if is_null (result r) && is_null (fetched_timestamp r)
             && (planned_timestamp (row_exec r) + expired_time <=? utc)
          then set_row_result r utc ACTION_EXECUTION_RESULT_EXPIRED else r) <$> db
  else db.

Definition set_zombie_result (ok : bool) (utc zombie_time : Z) (db : table) : table :=
  if ok then
    (λ r, match fetched_timestamp r with
          | Some t => if is_null (result r) && (t + zombie_time <=? utc)
                      then set_row_result r utc ACTION_EXECUTION_RESULT_ZOMBIE else r
          | None => r
          end) <$> db
  else db.

(** The condition of the query: no result, not fetched, and its time has come. *)
Definition due (utc : Z) (r : row) : bool :=
  is_null (result_timestamp r) && is_null (fetched_timestamp r)
  && match row_retry_timestamp r with
     | None => planned_timestamp (row_exec r) <=? utc
     | Some t => t <=? utc
     end.

(** The parameters that are made of a row. *)
Definition exec_of (r : row) : s_exec_params_t :=
  let p := row_exec r in {|
    id := id p; schedule_id := schedule_id p; user_id := user_id p; scene_id := scene_id p;
    iodevice_id := iodevice_id p; channel_id := channel_id p;
    channel_group_id := channel_group_id p; channel_func := channel_func p;
    channel_param1 := channel_param1 p; channel_param2 := channel_param2 p;
    channel_param3 := channel_param3 p; action := action p;
    action_param := take 255 <$> action_param p; planned_timestamp := planned_timestamp p;
    retry_timestamp := default 0 (row_retry_timestamp r);
    retry_count := default 0 (row_retry_count r);
    param_retry_when_fail := param_retry_when_fail p
  |}.

(** The query puts the rows that are due into the array, in the order in which the
    database finds them. *)
Definition get_s_executions (ok : bool) (utc limit : Z) (realloc : Z → bool)
    (order : list row → list row) (db : table) (arr : list s_exec_params_t)
    : list s_exec_params_t :=
  if ok then
    let rows := take (Z.to_nat limit) (filter (λ r, due utc r = true) (order (map_to_list db).*2)) in
    foldl (λ arr r, (safe_array_add realloc arr (Some (exec_of r))).2) arr rows
  else arr.

(** ** State *)

(** Where a worker is in [s_abstract_worker::execute] and [queue::get_job]. *)
Inductive worker_pc :=
  | WConnect                                     (* db->connect *)
  | WGet                                         (* limit_exceeded *)
  | WPop                                         (* safe_array_pop *)
  | WCount (j : s_exec_params_t)                 (* the counters *)
  | WPeek (o : option s_exec_params_t)           (* safe_array_count(s_exec_arr) *)
  | WNew (o : option s_exec_params_t)            (* new_worker: may there be one more *)
  | WRun (o : option s_exec_params_t)            (* sthread_run *)
  | WAdd (o : option s_exec_params_t) (k : nat)  (* safe_array_add(workers_thread_arr) *)
  | WLoop (o : option s_exec_params_t)           (* the condition of the loop *)
  | WFetch (j : s_exec_params_t)                 (* db->set_fetched *)
  | WMark (j : s_exec_params_t)                  (* q->mark_fetched *)
  | WExecute (j : s_exec_params_t)               (* action->execute *)
  | WApply (j : s_exec_params_t) (e : option db_effect)  (* set_result or set_retry *)
  | WRaise                                       (* q->raise_loop_event *)
  | WEnd.

(** Where the loop is in [queue::loop] and [queue::load]. *)
Inductive loop_pc :=
  | LTimer | LClean
  | LCount                      (* load: safe_array_count(s_exec_arr) > 0 *)
  | LWaitFetch                  (* load: wait_for_fetch *)
  | LLimit                      (* load: limit_exceeded *)
  | LConnect (limit : Z)
  | LZombie (limit : Z) | LExpired (limit : Z)
  | LSelect (limit : Z)
  | LStart                      (* the first worker *)
  | LNew | LRun | LAdd (k : nat)
  | LWait
  | LStop | LJoin | LEnd.

Record counters := Counters {
  job_counter : Z; total_fetch_count : Z; wait_for_fetch_counter : Z;
  last_get : Z; timer : Z; timer_one_min : Z
}.

Record worker := Worker { w_pc : worker_pc; w_terminated : bool }.

(** [workers] are the threads, [workers_thread_arr] the array of them; [log] says which
    execution was made in which try. *)
Record state := State {
  db : table;
  s_exec_arr : list s_exec_params_t;
  cnt : counters;
  workers : gmap nat worker;
  workers_thread_arr : list nat;
  next_thread : nat;
  loop : loop_pc;
  q_terminated : bool;
  log : list (Z * Z)
}.

(** What surrounds a step: the clocks, whether the database answers, memory, the order of
    rows, and what an action sees. *)
Record env := Env {
  e_now : Z; e_utc : Z; e_ok : bool; e_realloc : Z → bool;
  e_order : list row → list row; e_world : world
}.

Definition with_db (db : table) (st : state) : state :=
  State db (s_exec_arr st) (cnt st) (workers st) (workers_thread_arr st) (next_thread st)
    (loop st) (q_terminated st) (log st).
Definition with_arr (arr : list s_exec_params_t) (st : state) : state :=
  State (db st) arr (cnt st) (workers st) (workers_thread_arr st) (next_thread st)
    (loop st) (q_terminated st) (log st).
Definition with_cnt (c : counters) (st : state) : state :=
  State (db st) (s_exec_arr st) c (workers st) (workers_thread_arr st) (next_thread st)
    (loop st) (q_terminated st) (log st).
Definition with_workers (ws : gmap nat worker) (st : state) : state :=
  State (db st) (s_exec_arr st) (cnt st) ws (workers_thread_arr st) (next_thread st)
    (loop st) (q_terminated st) (log st).
Definition with_threads (arr : list nat) (st : state) : state :=
  State (db st) (s_exec_arr st) (cnt st) (workers st) arr (next_thread st)
    (loop st) (q_terminated st) (log st).
Definition at_loop (pc : loop_pc) (st : state) : state :=
  State (db st) (s_exec_arr st) (cnt st) (workers st) (workers_thread_arr st) (next_thread st)
    pc (q_terminated st) (log st).
Definition with_log (l : list (Z * Z)) (st : state) : state :=
  State (db st) (s_exec_arr st) (cnt st) (workers st) (workers_thread_arr st) (next_thread st)
    (loop st) (q_terminated st) l.
Definition with_next (k : nat) (st : state) : state :=
  State (db st) (s_exec_arr st) (cnt st) (workers st) (workers_thread_arr st) k
    (loop st) (q_terminated st) (log st).
Definition terminate_queue (st : state) : state :=
  State (db st) (s_exec_arr st) (cnt st) (workers st) (workers_thread_arr st) (next_thread st)
    (loop st) true (log st).

Definition at_pc (k : nat) (w : worker) (pc : worker_pc) (st : state) : state :=
  with_workers (<[k := Worker pc (w_terminated w)]> (workers st)) st.

(** [sthread_run] with a new worker. *)
Definition run_thread (st : state) : state :=
  with_next (S (next_thread st))
    (with_workers (<[next_thread st := Worker WConnect false]> (workers st)) st).

Section queue.
Context {json : Type} `{CJson json} (parse : text → option json).
Context (max_workers max_job_per_second : Z).

Definition limit_exceeded (st : state) : bool :=
  max_job_per_second <=? job_counter (cnt st).

(** The counters of [get_job]. *)
Definition count_job (now : Z) (c : counters) : counters :=
  Counters (job_counter c + 1) (total_fetch_count c) (wait_for_fetch_counter c + 1) now
    (timer c) (timer_one_min c).

Definition mark_fetched (c : counters) : counters :=
  Counters (job_counter c) (total_fetch_count c + 1) (Z.max 0 (wait_for_fetch_counter c - 1))
    (last_get c) (timer c) (timer_one_min c).

(** [wait_for_fetch]: the answer, and the counters. *)
Definition wait_for_fetch (now : Z) (threads : list nat) (c : counters) : bool * counters :=
  let c := if safe_array_count threads =? 0
           then Counters (job_counter c) (total_fetch_count c) 0 (last_get c) (timer c)
                  (timer_one_min c)
           else c in
  ((0 <? wait_for_fetch_counter c) && (last_get c - now <? 5), c).

(** The first check of [new_worker]. *)
Definition may_add_worker (st : state) : bool :=
  negb (q_terminated st || (max_workers <=? safe_array_count (workers_thread_arr st))).

(** The database after an execution. *)
Definition apply_effect (e : env) (j : s_exec_params_t) (o : option db_effect) (db : table)
    : table :=
  match o with
  | Some (SetResult res) => (set_result (e_ok e) (e_utc e) (id j) res db).2
  | Some (SetRetry sec) => (set_retry (e_ok e) (e_utc e) (id j) sec db).2
  | None => db
  end.

(** One step of the worker [k]. *)
Definition worker_step (e : env) (k : nat) (w : worker) (st : state) : state :=
  match w_pc w with
  | WConnect => at_pc k w (if e_ok e then WGet else WEnd) st
  | WGet => at_pc k w (if q_terminated st || limit_exceeded st then WLoop None else WPop) st
  | WPop =>
      let '(o, arr) := safe_array_pop (e_realloc e) (s_exec_arr st) in
      at_pc k w (match o with Some j => WCount j | None => WPeek None end) (with_arr arr st)
  | WCount j => at_pc k w (WPeek (Some j)) (with_cnt (count_job (e_now e) (cnt st)) st)
  | WPeek o => at_pc k w (if 0 <? safe_array_count (s_exec_arr st) then WNew o else WLoop o) st
  | WNew o => at_pc k w (if may_add_worker st then WRun o else WLoop o) st
  | WRun o => at_pc k w (WAdd o (next_thread st)) (run_thread st)
  | WAdd o i =>
      at_pc k w (WLoop o)
        (with_threads (safe_array_add (e_realloc e) (workers_thread_arr st) (Some i)).2 st)
  | WLoop None => at_pc k w WRaise st
  | WLoop (Some j) =>
      at_pc k w (if (id j =? 0) || w_terminated w then WRaise else WFetch j) st
  | WFetch j =>
      let '(ok, db) := set_fetched (e_ok e) (e_utc e) (id j) (db st) in
      at_pc k w (if ok : bool then WMark j else WExecute j) (with_db db st)
  | WMark j => at_pc k w (WExecute j) (with_cnt (mark_fetched (cnt st)) st)
  | WExecute j =>
      at_pc k w (WApply j (execute_in parse (e_world e) j).1)
        (with_log ((id j, retry_count j) :: log st) st)
  | WApply j o => at_pc k w WGet (with_db (apply_effect e j o (db st)) st)
  | WRaise => at_pc k w WEnd st
  | WEnd => st
  end.

Definition is_finished (st : state) (k : nat) : bool :=
  match w_pc <$> workers st !! k with Some WEnd => true | _ => false end.

Definition clean_threads (realloc : Z → bool) (st : state) : state :=
  let arr := workers_thread_arr st in
  with_threads (default arr (safe_array_clean realloc (is_finished st) arr)) st.

(** One step of the loop. *)
Definition loop_step (e : env) (st : state) : state :=
  let c := cnt st in
  match loop st with
  | LTimer =>
      if q_terminated st then at_loop LStop st
      else at_loop LClean
             (if 1 <=? e_now e - timer c
              then with_cnt (Counters 0 (total_fetch_count c) (wait_for_fetch_counter c)
                               (last_get c) (e_now e) (timer_one_min c)) st
              else st)
  | LClean => at_loop LCount (clean_threads (e_realloc e) st)
  | LCount =>
      at_loop (if 0 <? safe_array_count (s_exec_arr st) then LStart else LWaitFetch) st
  | LWaitFetch =>
      let '(wait, c) := wait_for_fetch (e_now e) (workers_thread_arr st) c in
      at_loop (if wait : bool then LStart else LLimit) (with_cnt c st)
  | LLimit =>
      let limit := max_workers * 10 - safe_array_count (s_exec_arr st) in
      at_loop (if limit_exceeded st || (limit <=? 0) then LStart else LConnect limit) st
  | LConnect limit =>
      if e_ok e then
        if 60 <=? e_now e - timer_one_min c
        then at_loop (LZombie limit)
               (with_cnt (Counters (job_counter c) (total_fetch_count c)
                            (wait_for_fetch_counter c) (last_get c) (timer c) (e_now e)) st)
        else at_loop (LSelect limit) st
      else at_loop LStart st
  | LZombie limit =>
      at_loop (LExpired limit) (with_db (set_zombie_result (e_ok e) (e_utc e) ZOMBIE_TIME (db st)) st)
  | LExpired limit =>
      at_loop (LSelect limit) (with_db (set_expired_result (e_ok e) (e_utc e) EXPIRE_TIME (db st)) st)
  | LSelect limit =>
      at_loop LStart
        (with_arr (get_s_executions (e_ok e) (e_utc e) limit (e_realloc e) (e_order e) (db st)
                     (s_exec_arr st)) st)
  | LStart =>
      at_loop (if (0 <? safe_array_count (s_exec_arr st))
                  && (safe_array_count (workers_thread_arr st) =? 0)
               then LNew else LWait) st
  | LNew => at_loop (if may_add_worker st then LRun else LWait) st
  | LRun => at_loop (LAdd (next_thread st)) (run_thread st)
  | LAdd k =>
      at_loop LWait
        (with_threads (safe_array_add (e_realloc e) (workers_thread_arr st) (Some k)).2 st)
  | LWait => at_loop LTimer st
  | LStop =>
      at_loop LJoin
        (with_workers
           (map_imap (λ k w, Some (Worker (w_pc w)
                       (w_terminated w || bool_decide (k ∈ workers_thread_arr st))))
              (workers st)) st)
  | LJoin =>
      if safe_array_count (workers_thread_arr st) =? 0 then at_loop LEnd st
      else clean_threads (e_realloc e) st
  | LEnd => st
  end.

(** ** Interleavings *)

(** Who makes the next step: the loop, a worker, the end of the program, or whoever plans a
    new execution. *)
Inductive event :=
  | EvLoop (e : env)
  | EvWorker (k : nat) (e : env)
  | EvTerminate
  | EvPlan (p : s_exec_params_t).

Definition new_row (p : s_exec_params_t) : row := Row p None None None None None false.

Definition do_event (ev : event) (st : state) : state :=
  match ev with
  | EvLoop e => loop_step e st
  | EvWorker k e => match workers st !! k with Some w => worker_step e k w st | None => st end
  | EvTerminate => terminate_queue st
  | EvPlan p =>
      if bool_decide (db st !! id p = None) && negb (id p =? 0)
      then with_db (<[id p := new_row p]> (db st)) st else st
  end.

Definition run (evs : list event) (st : state) : state := foldl (λ st ev, do_event ev st) st evs.

(** The queue when it is made: no rows are in memory, and rows have been planned. *)
Definition initial (db : table) : state :=
  State db [] (Counters 0 0 0 0 0 0) ∅ [] 0 LTimer false [].
End queue.
