(* ===== verification/SchedulerInv.v ===== *)
(** * SchedulerInv: every try is executed once

    The invariant of the scheduler's queue: which executions the queue and its workers hold,
    and what the rows of those say. It holds as long as the database marks what it is
    asked to mark, and the queue does not ask for new rows between a worker's pop and its
    count; a run where it does is at the end. *)

From S2P Require Import Prelude ChannelFunctions Actions SafeArray Json IpcText SchedAction Scheduler.

#[local] Open Scope list_scope.
#[local] Open Scope Z_scope.

(** ** What a worker holds *)

Inductive stage := Popped | Counted | Marking | Claimed | Applying (o : option db_effect).

Definition job_of (pc : worker_pc) : option (stage * s_exec_params_t) :=
  match pc with
  | WCount j => Some (Popped, j)
  | WPeek (Some j) | WNew (Some j) | WRun (Some j) | WAdd (Some j) _ | WLoop (Some j) | WFetch j =>
      Some (Counted, j)
  | WMark j => Some (Marking, j)
  | WExecute j => Some (Claimed, j)
  | WApply j o => Some (Applying o, j)
  | _ => None
  end.

(** Whether [wait_for_fetch_counter] counts a worker. *)
Definition counts (w : worker) : bool :=
  match job_of (w_pc w) with Some (Counted, _) | Some (Marking, _) => true | _ => false end.

Definition counted (ws : gmap nat worker) : nat :=
  length (filter (λ w, counts w = true) (map_to_list ws).*2).

(** The loop decided to load. *)
Definition loading (pc : loop_pc) : bool :=
  match pc with LLimit | LConnect _ | LZombie _ | LExpired _ | LSelect _ => true | _ => false end.

Section queue.
Context {json : Type} `{CJson json} (parse : text → option json).
Context (max_workers max_job_per_second : Z).

Definition no_world : world := World (λ _, None) false (λ _, None).

(** The last try that an execution may have. *)
Definition last_try (p : s_exec_params_t) : Z :=
  match create parse no_world p with Some a => 2 * try_limit a - 1 | None => 0 end.

Definition tries (r : row) : Z := default 0 (row_retry_count r).

Lemma last_try_nonneg p : 0 <= last_try p.
Proof.
  unfold last_try. destruct (create parse no_world p) as [a|] eqn:Ha; [|done].
  assert (Hok : action_ok a) by by eapply created_ok. pose proof (ok_limit a Hok). lia.
Qed.

(** ** The invariant *)

(** The row from which a job was made, as it is now. *)
Definition row_of (db : table) (j : s_exec_params_t) (r : row) : Prop :=
  db !! id j = Some r ∧ exec_of r = j.

Definition job_ok (db : table) (l : list (Z * Z)) (s : stage) (j : s_exec_params_t) : Prop :=
  ∃ r, row_of db j r ∧
    match s with
    | Popped | Counted => fetched_timestamp r = None ∧ (id j, retry_count j) ∉ l
    | Marking | Claimed => fetched_timestamp r ≠ None ∧ (id j, retry_count j) ∉ l
    | Applying o => fetched_timestamp r ≠ None ∧ (id j, retry_count j) ∈ l ∧
                    ∃ w, o = (execute_in parse w j).1
    end.

Definition row_ok (i : Z) (r : row) : Prop :=
  id (row_exec r) = i ∧ i ≠ 0 ∧ 0 <= tries r <= last_try (row_exec r).

Definition log_ok (db : table) (x : Z * Z) : Prop :=
  ∃ r, db !! x.1 = Some r ∧ 0 <= x.2 <= tries r ∧
       (x.2 = tries r → fetched_timestamp r ≠ None ∨ result_timestamp r ≠ None).

Definition created_by (st : state) (k : nat) : Prop :=
  loop st = LAdd k ∨
  ∃ k' w o, (k' < k)%nat ∧ workers st !! k' = Some w ∧ w_pc w = WAdd o k.

Record inv (st : state) : Prop := {
  inv_rows : map_Forall row_ok (db st);
  inv_log : Forall (log_ok (db st)) (log st);
  inv_nodup : NoDup (log st);
  inv_arr : NoDup (id <$> s_exec_arr st);
  inv_waiting : ∀ j, j ∈ s_exec_arr st → job_ok (db st) (log st) Popped j;
  inv_job : ∀ k w s j, workers st !! k = Some w → job_of (w_pc w) = Some (s, j) →
            job_ok (db st) (log st) s j ∧ id j ∉ id <$> s_exec_arr st;
  inv_distinct : ∀ k k' w w' s s' j j',
    workers st !! k = Some w → workers st !! k' = Some w' →
    job_of (w_pc w) = Some (s, j) → job_of (w_pc w') = Some (s', j') → id j = id j' → k = k';
  inv_counted : Z.of_nat (counted (workers st)) <= wait_for_fetch_counter (cnt st);
  inv_listed : ∀ k w, workers st !! k = Some w → w_pc w ≠ WEnd →
               k ∈ workers_thread_arr st ∨ created_by st k;
  inv_next : ∀ k, (next_thread st <= k)%nat → workers st !! k = None;
  inv_empty : loop st = LWaitFetch ∨ loading (loop st) = true → s_exec_arr st = [];
  inv_loading : loading (loop st) = true → ∀ k w s j, workers st !! k = Some w →
                job_of (w_pc w) = Some (s, j) → s ≠ Popped ∧ s ≠ Counted
}.

(** ** The runs that the invariant is about *)

Definition env_ok (e : env) : Prop :=
  (∀ n, e_realloc e n = true) ∧ ∀ l, e_order e l ≡ₚ l.

(** Memory and the database serve; rows that are fetched are marked; and when the loop asks
    whether a worker is about to mark one, no worker stands between its pop and its count,
    and the clock has not been set back by five seconds. *)
Definition calm (st : state) (ev : event) : Prop :=
  match ev with
  | EvLoop e =>
      env_ok e ∧
      (loop st = LWaitFetch → last_get (cnt st) - e_now e < 5 ∧
       ∀ k w j, workers st !! k = Some w → w_pc w ≠ WCount j)
  | EvWorker k e =>
      env_ok e ∧ ∀ w j, workers st !! k = Some w → w_pc w = WFetch j → e_ok e = true
  | EvTerminate | EvPlan _ => True
  end.

Inductive calm_run : state → list event → state → Prop :=
  | calm_nil st : calm_run st [] st
  | calm_cons st ev evs st' :
      calm st ev → calm_run (do_event parse max_workers max_job_per_second ev st) evs st' →
      calm_run st (ev :: evs) st'.

(** ** Counting workers *)

Lemma counted_delete ws k w : ws !! k = Some w →
  counted ws = ((if counts w then 1 else 0) + counted (delete k ws))%nat.
Proof.
  intros Hk. unfold counted. rewrite <- (map_to_list_delete ws k w Hk), fmap_cons.
  cbn [snd]. destruct (counts w) eqn:E.
  - by rewrite filter_cons_True.
  - by rewrite filter_cons_False by congruence.
Qed.

Lemma counted_insert ws k w : ws !! k = None →
  counted (<[k := w]> ws) = ((if counts w then 1 else 0) + counted ws)%nat.
Proof.
  intros Hk. rewrite (counted_delete _ k w) by apply lookup_insert_eq.
  by rewrite delete_insert_id.
Qed.

Lemma counted_update ws k w w' : ws !! k = Some w →
  (counted (<[k := w']> ws) + (if counts w then 1 else 0) =
   counted ws + (if counts w' then 1 else 0))%nat.
Proof.
  intros Hk. rewrite (counted_delete ws k w Hk), (counted_delete (<[k := w']> ws) k w')
    by apply lookup_insert_eq. rewrite delete_insert_eq. lia.
Qed.

Lemma counted_zero ws : (counted ws = 0)%nat ↔ ∀ k w, ws !! k = Some w → counts w = false.
Proof.
  unfold counted. rewrite length_zero_iff_nil. split.
  - intros Hn k w Hk. destruct (counts w) eqn:E; [|done].
    assert (Hin : w ∈ filter (λ w, counts w = true) (map_to_list ws).*2).
    { apply list_elem_of_filter. split; [done|]. apply list_elem_of_fmap. exists (k, w).
      split; [done|]. by apply elem_of_map_to_list. }
    rewrite Hn in Hin. by apply not_elem_of_nil in Hin.
  - intros Hall. destruct (filter _ _) as [|w l] eqn:E; [done|].
    assert (Hin : w ∈ filter (λ w, counts w = true) (map_to_list ws).*2) by (rewrite E; left).
    apply list_elem_of_filter in Hin as [Hc Hin].
    apply list_elem_of_fmap in Hin as ([k w'] & -> & Hin%elem_of_map_to_list).
    cbn [snd] in Hc. by rewrite (Hall k w' Hin) in Hc.
Qed.

(** ** Steps that change little *)

(** Rows change their results only, and executions are logged for others. *)
Definition rows_like (db db' : table) : Prop :=
  ∀ i r, db !! i = Some r → ∃ r', db' !! i = Some r' ∧ exec_of r' = exec_of r ∧
    fetched_timestamp r' = fetched_timestamp r.

Lemma job_ok_like db db' l s j : rows_like db db' → job_ok db l s j → job_ok db' l s j.
Proof.
  intros Hd (r & [Hr He] & Hs). destruct (Hd _ _ Hr) as (r' & Hr' & He' & Hf).
  exists r'. rewrite Hf. split; [|done]. split; [done|congruence].
Qed.

(** The job of another identifier. *)
Lemma job_ok_other db db' l l' s j i :
  id j ≠ i → (∀ i', i' ≠ i → db' !! i' = db !! i') →
  (∀ n, (id j, n) ∈ l' ↔ (id j, n) ∈ l) → job_ok db l s j → job_ok db' l' s j.
Proof.
  intros Hi Hd Hl (r & [Hr He] & Hs). exists r. split; [split; [by rewrite Hd|done]|].
  destruct s; rewrite ?Hl; done.
Qed.

(** Listed workers stay listed, and creators list whom they created. *)
Lemma listed_after st k w w' threads' k0 db' arr' c' l' :
  workers st !! k = Some w → k0 ∈ workers_thread_arr st ∨ created_by st k0 →
  (∀ i, i ∈ workers_thread_arr st → i ∈ threads') →
  (∀ i o, w_pc w = WAdd o i → i ∈ threads' ∨ ∃ o', w_pc w' = WAdd o' i) →
  k0 ∈ threads' ∨
  created_by (State db' arr' c' (<[k := w']> (workers st)) threads' (next_thread st) (loop st)
                (q_terminated st) l') k0.
Proof.
  intros Hk Hold Hth Hadd. unfold created_by. cbn [loop workers].
  destruct Hold as [?|[?|(k' & w0 & o & Hlt & Hk' & Hpc)]]; [by left; apply Hth|by right; left|].
  destruct (decide (k' = k)) as [->|Hk'ne].
  - assert (w0 = w) as -> by congruence. destruct (Hadd _ _ Hpc) as [?|[o' Ho']]; [by left|].
    right. right. exists k, w', o'. by rewrite lookup_insert_eq.
  - right. right. exists k', w0, o. by rewrite lookup_insert_ne.
Qed.

(** A worker that goes on: the counter for it, its job, and what it leaves in the array. *)
Lemma inv_worker st k w pc' db' arr' c' threads' l' :
  inv st → workers st !! k = Some w →
  map_Forall row_ok db' → Forall (log_ok db') l' → NoDup l' →
  NoDup (id <$> arr') → (∀ j, j ∈ arr' → j ∈ s_exec_arr st ∧ job_ok db' l' Popped j) →
  (∀ k0 w0 s j, k0 ≠ k → workers st !! k0 = Some w0 → job_of (w_pc w0) = Some (s, j) →
     job_ok db' l' s j) →
  (∀ s j, job_of pc' = Some (s, j) → job_ok db' l' s j ∧ id j ∉ id <$> arr' ∧
     (loading (loop st) = true → s ≠ Popped ∧ s ≠ Counted) ∧
     ∀ k0 w0 s0 j0, k0 ≠ k → workers st !! k0 = Some w0 → job_of (w_pc w0) = Some (s0, j0) →
       id j0 ≠ id j) →
  (if counts (Worker pc' (w_terminated w)) then 1 else 0) - (if counts w then 1 else 0)
    <= wait_for_fetch_counter c' - wait_for_fetch_counter (cnt st) ∨
    Z.of_nat (counted (<[k := Worker pc' (w_terminated w)]> (workers st)))
    <= wait_for_fetch_counter c' →
  (∀ i, i ∈ workers_thread_arr st → i ∈ threads') →
  (∀ i o, w_pc w = WAdd o i → i ∈ threads' ∨ ∃ o', pc' = WAdd o' i) → w_pc w ≠ WEnd →
  inv (State db' arr' c' (<[k := Worker pc' (w_terminated w)]> (workers st)) threads'
         (next_thread st) (loop st) (q_terminated st) l').
Proof.
  intros Hinv Hk Hrows Hlog Hnd Hnda Harr Hothers Hown Hcnt Hth Hadd Hend.
  assert (Hwk : ∀ k0 w0, <[k := Worker pc' (w_terminated w)]> (workers st) !! k0 = Some w0 →
            (k0 = k ∧ w0 = Worker pc' (w_terminated w)) ∨ (k0 ≠ k ∧ workers st !! k0 = Some w0)).
  { intros k0 w0. rewrite lookup_insert_Some. naive_solver. }
  split; cbn [db s_exec_arr cnt workers workers_thread_arr next_thread loop log]; try done.
  - intros j Hj. by apply Harr.
  - intros k0 w0 s j H0 Hj. destruct (Hwk _ _ H0) as [[-> ->]|[Hne H0']].
    + by destruct (Hown s j Hj) as (? & ? & _).
    + split; [by eapply Hothers|].
      destruct (inv_job st Hinv k0 w0 s j H0' Hj) as [_ Hn]. intros Hin. apply Hn.
      apply list_elem_of_fmap in Hin as (j' & E & Hin). rewrite E. apply list_elem_of_fmap_2.
      by apply Harr.
  - intros k1 k2 w1 w2 s1 s2 j1 j2 H1 H2 Hj1 Hj2 Hid.
    destruct (Hwk _ _ H1) as [[-> ->]|[Hne1 H1']], (Hwk _ _ H2) as [[-> ->]|[Hne2 H2']]; [done| | |].
    + destruct (Hown _ _ Hj1) as (_ & _ & _ & Ho). by destruct (Ho k2 w2 s2 j2 Hne2 H2' Hj2).
    + destruct (Hown _ _ Hj2) as (_ & _ & _ & Ho). by destruct (Ho k1 w1 s1 j1 Hne1 H1' Hj1).
    + by eapply (inv_distinct st Hinv).
  - destruct Hcnt as [Hcnt|Hcnt]; [|done]. pose proof (inv_counted st Hinv) as Hc.
    pose proof (counted_update (workers st) k w (Worker pc' (w_terminated w)) Hk) as E.
    destruct (counts w), (counts (Worker pc' (w_terminated w))); lia.
  - intros k0 w0 H0 Hne. eapply listed_after; try done.
    destruct (Hwk _ _ H0) as [[-> ->]|[Hne0 H0']]; by eapply (inv_listed st Hinv).
  - intros k0 Hle. rewrite lookup_insert_ne; [by apply (inv_next st Hinv)|].
    intros <-. by rewrite (inv_next st Hinv) in Hk.
  - intros Hl. pose proof (inv_empty st Hinv Hl) as Ha. destruct arr' as [|j arr']; [done|].
    destruct (Harr j ltac:(left)) as [Hj _]. rewrite Ha in Hj. by apply not_elem_of_nil in Hj.
  - intros Hl k0 w0 s j H0 Hj. destruct (Hwk _ _ H0) as [[-> ->]|[Hne H0']].
    + by destruct (Hown s j Hj) as (_ & _ & ? & _); auto.
    + by eapply (inv_loading st Hinv).
Qed.

Lemma no_job_other st k w (Hinv : inv st) : workers st !! k = Some w →
  ∀ s j, job_of (w_pc w) = Some (s, j) →
  ∀ k0 w0 s0 j0, k0 ≠ k → workers st !! k0 = Some w0 → job_of (w_pc w0) = Some (s0, j0) →
    id j0 ≠ id j.
Proof. intros Hk s j Hj k0 w0 s0 j0 Hne H0 Hj0 Hid. by eapply Hne, (inv_distinct st Hinv). Qed.

(** The program counter of a worker moves, its job stays or goes. *)
Lemma inv_move st k w pc' : inv st → workers st !! k = Some w →
  job_of pc' = None ∨ job_of pc' = job_of (w_pc w) → w_pc w ≠ WEnd →
  (∀ i o, w_pc w = WAdd o i → ∃ o', pc' = WAdd o' i) → inv (at_pc k w pc' st).
Proof.
  intros Hinv Hk Hj Hend Hadd.
  apply (inv_worker st k w pc' (db st) (s_exec_arr st) (cnt st) (workers_thread_arr st) (log st));
    try done; try by apply Hinv.
  - intros j Hin. split; [done|by apply Hinv].
  - intros k0 w0 s j _ H0 Hj0. by eapply (inv_job st Hinv).
  - intros s j Hj'. destruct Hj as [Hj|Hj]; rewrite Hj in Hj'; [done|].
    destruct (inv_job st Hinv k w s j Hk Hj') as [? ?]. repeat split; try done.
    + by eapply (inv_loading st Hinv).
    + by eapply (inv_loading st Hinv).
    + by eapply no_job_other.
  - left. destruct Hj as [Hj|Hj]; unfold counts; cbn [w_pc]; rewrite Hj; [|lia].
    destruct (job_of (w_pc w)) as [[[]]|]; lia.
  - intros i o Hpc. right. by apply (Hadd i o).
Qed.

Lemma inv_pop st k w j arr : inv st → workers st !! k = Some w → w_pc w = WPop →
  s_exec_arr st = j :: arr → inv (at_pc k w (WCount j) (with_arr arr st)).
Proof.
  intros Hinv Hk Hpc Ha.
  pose proof (inv_arr st Hinv) as Hnd. rewrite Ha, fmap_cons in Hnd. apply NoDup_cons in Hnd as [Hj Hnd].
  apply (inv_worker st k w (WCount j) (db st) arr (cnt st) (workers_thread_arr st) (log st));
    try done; try by apply Hinv.
  - intros j' Hin. assert (j' ∈ s_exec_arr st) by (rewrite Ha; by right). split; [done|by apply Hinv].
  - intros k0 w0 s j' _ H0 Hj0. by eapply (inv_job st Hinv).
  - intros s j' [= <- <-]. split; [apply (inv_waiting st Hinv); rewrite Ha; left|].
    split; [done|]. split.
    + intros Hl. by rewrite (inv_empty st Hinv (or_intror Hl)) in Ha.
    + intros k0 w0 s0 j0 _ H0 Hj0 Hid. destruct (inv_job st Hinv k0 w0 s0 j0 H0 Hj0) as [_ Hn].
      apply Hn. rewrite Ha, Hid. left.
  - left. unfold counts. rewrite Hpc. cbn. lia.
  - intros i o E. by rewrite Hpc in E.
  - by rewrite Hpc.
Qed.

(** A worker with a job goes on with it, over a table and a log that others do not see. *)
Lemma inv_job_step st k w s j pc' s' db' c' l' :
  inv st → workers st !! k = Some w → job_of (w_pc w) = Some (s, j) →
  job_of pc' = Some (s', j) ∧ job_ok db' l' s' j ∧ (loading (loop st) = true → s' ≠ Popped ∧ s' ≠ Counted)
    ∨ job_of pc' = None →
  map_Forall row_ok db' → Forall (log_ok db') l' → NoDup l' →
  (∀ i, i ≠ id j → db' !! i = db st !! i) → (∀ i n, i ≠ id j → (i, n) ∈ l' ↔ (i, n) ∈ log st) →
  (if counts (Worker pc' (w_terminated w)) then 1 else 0) - (if counts w then 1 else 0)
    <= wait_for_fetch_counter c' - wait_for_fetch_counter (cnt st) →
  (∀ i o, w_pc w = WAdd o i → False) →
  inv (at_pc k w pc' (with_cnt c' (with_db db' (with_log l' st)))).
Proof.
  intros Hinv Hk Hj Hj' Hrows Hlog Hnd Hdb Hl Hc Hadd.
  destruct (inv_job st Hinv k w s j Hk Hj) as [Hjok Hjarr].
  assert (Hoth : ∀ s0 j0, id j0 ≠ id j → job_ok (db st) (log st) s0 j0 → job_ok db' l' s0 j0).
  { intros s0 j0 Hne. apply (job_ok_other _ _ _ _ _ _ (id j)); [done|done|]. intros n. by apply Hl. }
  apply (inv_worker st k w pc' db' (s_exec_arr st) c' (workers_thread_arr st) l');
    try done; try by apply Hinv.
  - intros j0 Hin. split; [done|]. apply Hoth; [|by apply Hinv].
    intros E. apply Hjarr. rewrite <- E. by apply list_elem_of_fmap_2.
  - intros k0 w0 s0 j0 Hne H0 Hj0. apply Hoth; [|by eapply (inv_job st Hinv)].
    exact (no_job_other st k w Hinv Hk s j Hj k0 w0 s0 j0 Hne H0 Hj0).
  - intros s0 j0 E. destruct Hj' as [(E' & Hok & Hld)|E']; rewrite E' in E; [|done].
    injection E as <- <-. repeat split; try done; try by apply Hld. by eapply no_job_other.
  - by left.
  - intros i o E. by destruct (Hadd i o).
  - intros E. by rewrite E in Hj.
Qed.

(** ** Steps of a worker with a job *)

Lemma rows_insert (db : table) i r r' : map_Forall row_ok db → db !! i = Some r →
  row_exec r' = row_exec r → 0 <= tries r' <= last_try (row_exec r) →
  map_Forall row_ok (<[i := r']> db).
Proof.
  intros Hdb Hi He Ht. apply map_Forall_insert_2; [|done].
  destruct (Hdb i r Hi) as (Hid & Hn & _). unfold row_ok. by rewrite He.
Qed.

Lemma log_insert (db : table) l i r r' : Forall (log_ok db) l → db !! i = Some r → tries r <= tries r' →
  (tries r' = tries r → fetched_timestamp r ≠ None ∨ result_timestamp r ≠ None →
   fetched_timestamp r' ≠ None ∨ result_timestamp r' ≠ None) →
  Forall (log_ok (<[i := r']> db)) l.
Proof.
  intros Hl Hi Ht Hr. apply (Forall_impl _ _ _ Hl). intros [i' n] (r0 & Hr0 & Hn & Hd).
  unfold log_ok. cbn [fst snd] in *. destruct (decide (i' = i)) as [->|Hne].
  - assert (r0 = r) as -> by congruence. exists r'. rewrite lookup_insert_eq.
    split; [done|]. split; [lia|]. intros En. apply Hr; [lia|]. apply Hd. lia.
  - exists r0. by rewrite lookup_insert_ne.
Qed.

Lemma tries_some p t n f rt res c : tries (Row p t (Some n) f rt res c) = n.
Proof. done. Qed.

Lemma tries_exec r : retry_count (exec_of r) = tries r.
Proof. done. Qed.

Section job.
Context (st : state) (k : nat) (w : worker) (Hinv : inv st) (Hk : workers st !! k = Some w).

Lemma inv_count j now : w_pc w = WCount j →
  inv (at_pc k w (WPeek (Some j)) (with_cnt (count_job now (cnt st)) st)).
Proof using Hinv Hk.
  intros Hpc. assert (Hj : job_of (w_pc w) = Some (Popped, j)) by by rewrite Hpc.
  destruct (inv_job st Hinv k w _ _ Hk Hj) as [Hok _].
  apply (inv_job_step st k w Popped j (WPeek (Some j)) Counted (db st)
           (count_job now (cnt st)) (log st)); try done; try by apply Hinv.
  - left. split; [done|]. split; [done|]. intros Hl.
    by destruct (inv_loading st Hinv Hl k w _ _ Hk Hj).
  - unfold counts at 2. rewrite Hpc. cbn. lia.
  - intros i o E. by rewrite Hpc in E.
Qed.

Lemma inv_fetch j utc : w_pc w = WFetch j →
  let '(ok, db') := set_fetched true utc (id j) (db st) in
  inv (at_pc k w (if ok : bool then WMark j else WExecute j) (with_db db' st)).
Proof using Hinv Hk.
  intros Hpc. assert (Hj : job_of (w_pc w) = Some (Counted, j)) by by rewrite Hpc.
  destruct (inv_job st Hinv k w _ _ Hk Hj) as [(r & [Hr He] & Hf & Hn) _].
  unfold set_fetched, update_row. rewrite Hr, Hf. cbn [is_null andb].
  set (r' := Row _ _ _ _ _ _ _).
  destruct (inv_rows st Hinv _ _ Hr) as (Hid & Hnz & Ht).
  apply (inv_job_step st k w Counted j (WMark j) Marking (<[id j := r']> (db st))
           (cnt st) (log st)); try done; try by apply Hinv.
  - left. repeat split; try done. exists r'. split; [|done]. split; [by rewrite lookup_insert_eq|done].
  - by apply (rows_insert _ _ r); [apply Hinv|..].
  - apply (log_insert _ _ _ r); [apply Hinv|done|done|]. by left.
  - intros i Hi. by rewrite lookup_insert_ne.
  - unfold counts at 2. rewrite Hpc. cbn. lia.
  - intros i o E. by rewrite Hpc in E.
Qed.

Lemma inv_mark j : w_pc w = WMark j →
  inv (at_pc k w (WExecute j) (with_cnt (mark_fetched (cnt st)) st)).
Proof using Hinv Hk.
  intros Hpc. assert (Hj : job_of (w_pc w) = Some (Marking, j)) by by rewrite Hpc.
  destruct (inv_job st Hinv k w _ _ Hk Hj) as [Hok _].
  apply (inv_job_step st k w Marking j (WExecute j) Claimed (db st)
           (mark_fetched (cnt st)) (log st)); try done; try by apply Hinv.
  - left. by repeat split.
  - unfold counts at 2. rewrite Hpc. cbn. lia.
  - intros i o E. by rewrite Hpc in E.
Qed.

Lemma inv_execute j v : w_pc w = WExecute j →
  inv (at_pc k w (WApply j (execute_in parse v j).1)
         (with_log ((id j, retry_count j) :: log st) st)).
Proof using Hinv Hk.
  intros Hpc. assert (Hj : job_of (w_pc w) = Some (Claimed, j)) by by rewrite Hpc.
  destruct (inv_job st Hinv k w _ _ Hk Hj) as [(r & [Hr He] & Hf & Hn) _].
  destruct (inv_rows st Hinv _ _ Hr) as (Hid & Hnz & Ht).
  apply (inv_job_step st k w Claimed j _ (Applying (execute_in parse v j).1) (db st) (cnt st)
           ((id j, retry_count j) :: log st)); try done; try by apply Hinv.
  - left. repeat split; try done. exists r. split; [done|]. split; [done|]. split; [left|by exists v].
  - apply Forall_cons_2; [|by apply Hinv]. exists r. cbn [fst snd].
    rewrite <- He at 2 3. rewrite tries_exec. split; [done|]. split; [lia|]. by left.
  - apply NoDup_cons_2; [done|by apply Hinv].
  - intros i n Hi. rewrite elem_of_cons. naive_solver.
  - unfold counts at 2. rewrite Hpc. cbn. lia.
  - intros i o E. by rewrite Hpc in E.
Qed.

(** Retries stay below the last try. *)
Lemma retry_below v r sec : 0 <= tries r <= last_try (row_exec r) →
  (execute_in parse v (exec_of r)).1 = Some (SetRetry sec) → tries r + 1 <= last_try (row_exec r).
Proof using.
  intros Ht He. destruct (retry_allowed parse v (exec_of r) sec He) as (a & Ha & Hl).
  destruct (create_like parse v no_world (row_exec r) (exec_of r) a) as (b & Hb & [= Eb _ _]);
    [done|done|done|].
  unfold last_try in *. rewrite Hb, Eb in *. by apply Hl.
Qed.

Lemma inv_apply j o e : w_pc w = WApply j o →
  inv (at_pc k w WGet (with_db (apply_effect e j o (db st)) st)).
Proof using Hinv Hk.
  intros Hpc. assert (Hj : job_of (w_pc w) = Some (Applying o, j)) by by rewrite Hpc.
  destruct (inv_job st Hinv k w _ _ Hk Hj) as [(r & [Hr He] & Hf & Hn & v & Hv) _].
  destruct (inv_rows st Hinv _ _ Hr) as (Hid & Hnz & Ht).
  assert (Hdb : ∀ db', map_Forall row_ok db' → Forall (log_ok db') (log st) →
            (∀ i, i ≠ id j → db' !! i = db st !! i) → inv (at_pc k w WGet (with_db db' st))).
  { intros db' H1 H2 H3.
    apply (inv_job_step st k w (Applying o) j WGet Popped db' (cnt st) (log st)); try done.
    - by right.
    - by apply Hinv.
    - unfold counts at 2. rewrite Hpc. cbn. lia.
    - intros i o' E. by rewrite Hpc in E. }
  assert (Hnull : is_null (fetched_timestamp r) = false) by by destruct (fetched_timestamp r).
  destruct o as [[res|sec]|]; cbn [apply_effect]; [..|by apply Hdb; [apply Hinv..|]];
    unfold set_result, set_retry, update_row; rewrite Hr, Hnull; cbn [negb];
    (destruct (e_ok e); cbn [andb snd]; [|by apply Hdb; [apply Hinv..|]]);
    apply Hdb; try (intros i Hi; by rewrite lookup_insert_ne).
  - by apply (rows_insert _ _ r); [apply Hinv|..].
  - apply (log_insert _ _ _ r); [apply Hinv|done|done|]. by right.
  - apply (rows_insert _ _ r); [by apply Hinv|done|done|]. rewrite tries_some.
    rewrite <- He in Hv. pose proof (retry_below v r sec Ht (eq_sym Hv)). unfold tries in *. lia.
  - apply (log_insert _ _ _ r); [apply Hinv|done| |]; rewrite tries_some; unfold tries; lia.
Qed.
End job.

(** ** Steps of the loop, and of threads *)

Lemma inv_at_loop st pc : inv st →
  (∀ k, loop st = LAdd k → k ∈ workers_thread_arr st ∨ pc = LAdd k) →
  (pc = LWaitFetch ∨ loading pc = true → s_exec_arr st = []) →
  (loading pc = true → ∀ k w s j, workers st !! k = Some w → job_of (w_pc w) = Some (s, j) →
     s ≠ Popped ∧ s ≠ Counted) →
  inv (at_loop pc st).
Proof.
  intros [] Hadd Hempty Hload. split; cbn; try done.
  intros k w Hk Hne. destruct (inv_listed0 k w Hk Hne) as [?|[Hl|Hc]]; [by left| |].
  - destruct (Hadd k Hl) as [?| ->]; [by left|]. by right; left.
  - right. by right.
Qed.

Lemma inv_threads st threads' : inv st →
  (∀ k w, workers st !! k = Some w → w_pc w ≠ WEnd → k ∈ workers_thread_arr st → k ∈ threads') →
  inv (with_threads threads' st).
Proof.
  intros [] Hth. split; cbn; try done.
  intros k w Hk Hne. destruct (inv_listed0 k w Hk Hne) as [?|?]; [|by right]. left. by eapply Hth.
Qed.

Lemma inv_cnt st c' : inv st → Z.of_nat (counted (workers st)) <= wait_for_fetch_counter c' →
  inv (with_cnt c' st).
Proof. intros [] Hc. by split. Qed.

(** A thread is started when its creator is about to list it. *)
Lemma inv_run_thread st : inv st → created_by st (next_thread st) → inv (run_thread st).
Proof.
  intros Hinv Hc. pose proof (inv_next st Hinv (next_thread st) (le_n _)) as Hfresh.
  assert (Hcb : ∀ k, created_by st k → created_by (run_thread st) k).
  { intros k [?|(k' & w & o & Hlt & Hk & Hpc)]; [by left|]. right. exists k', w, o.
    split; [done|]. split; [|done]. cbn. rewrite lookup_insert_ne by congruence. done. }
  assert (Hwk : ∀ k w s j, workers (run_thread st) !! k = Some w →
            job_of (w_pc w) = Some (s, j) → workers st !! k = Some w).
  { intros k w s j Hk Hj. cbn in Hk. apply lookup_insert_Some in Hk as [[<- <-]|[_ ?]]; done. }
  split; try apply Hinv.
  - intros k w s j Hk Hj. eapply (inv_job st Hinv); [by eapply Hwk|done].
  - intros k k' w w' s s' j j' H1 H2 H3 H4. eapply (inv_distinct st Hinv); try done; by eapply Hwk.
  - cbn. rewrite counted_insert by done. by apply (inv_counted st Hinv).
  - intros k w Hk Hne. cbn in Hk. apply lookup_insert_Some in Hk as [[<- <-]|[Hn Hk]].
    + right. by apply Hcb.
    + destruct (inv_listed st Hinv k w Hk Hne); [by left|right; by apply Hcb].
  - intros k Hle. cbn in *. rewrite lookup_insert_ne by lia. apply (inv_next st Hinv). lia.
  - intros Hl k w s j Hk Hj. eapply (inv_loading st Hinv); [done| |done]. by eapply Hwk.
Qed.

Lemma clean_alive st realloc : (∀ n, realloc n = true) →
  ∀ k w, workers st !! k = Some w → w_pc w ≠ WEnd → k ∈ workers_thread_arr st →
  k ∈ workers_thread_arr (clean_threads realloc st).
Proof.
  intros Hr k w Hk Hne Hin. unfold clean_threads. cbn [workers_thread_arr with_threads].
  destruct (clean_spec realloc (is_finished st) (workers_thread_arr st) Hr) as (l & -> & Hl).
  cbn [default]. change (k ∈ l). rewrite Hl. apply list_elem_of_filter. split; [|done].
  unfold is_finished. rewrite Hk. cbn. by destruct (w_pc w).
Qed.

(** Whoever is not listed has a creator who is about to list it. *)
Lemma nobody_alive st : inv st → workers_thread_arr st = [] → (∀ k, loop st ≠ LAdd k) →
  ∀ k w, workers st !! k = Some w → w_pc w = WEnd.
Proof.
  intros Hinv Ht Hl k. induction k as [k IH] using lt_wf_ind. intros w Hk.
  assert (Hd : w_pc w = WEnd ∨ w_pc w ≠ WEnd) by (destruct (w_pc w); auto; by right).
  destruct Hd as [?|Hne]; [done|].
  destruct (inv_listed st Hinv k w Hk Hne) as [Hin|[Ha|(k' & w' & o & Hlt & Hk' & Hpc)]].
  - rewrite Ht in Hin. by apply not_elem_of_nil in Hin.
  - by destruct (Hl k).
  - by rewrite (IH k' Hlt w' Hk') in Hpc.
Qed.

(** The loop decides to load: no worker holds a row that is not marked. *)
Lemma wait_for_fetch_spec st now : inv st → loop st = LWaitFetch →
  last_get (cnt st) - now < 5 → (∀ k w j, workers st !! k = Some w → w_pc w ≠ WCount j) →
  let '(wait, c') := wait_for_fetch now (workers_thread_arr st) (cnt st) in
  Z.of_nat (counted (workers st)) <= wait_for_fetch_counter c' ∧
  (wait = false → ∀ k w s j, workers st !! k = Some w → job_of (w_pc w) = Some (s, j) →
     s ≠ Popped ∧ s ≠ Counted).
Proof.
  intros Hinv Hl Hnow Hcalm. unfold wait_for_fetch.
  set (c' := if safe_array_count _ =? 0 then _ else _).
  assert (Hc : Z.of_nat (counted (workers st)) <= wait_for_fetch_counter c' ∧
               last_get c' = last_get (cnt st)).
  { unfold c'. destruct (Z.eqb_spec (safe_array_count (workers_thread_arr st)) 0) as [E|E];
      [|by split; [apply (inv_counted st Hinv)|]].
    split; [|done]. cbn.
    assert (Ht : workers_thread_arr st = []) by (destruct (workers_thread_arr st); [done|discriminate E]).
    cut (counted (workers st) = 0%nat); [lia|]. apply counted_zero. intros k w Hk.
    unfold counts. rewrite (nobody_alive st Hinv Ht) with (k := k); [done| |done].
    intros k'. by rewrite Hl. }
  destruct Hc as [Hc Hlast]. split; [done|]. rewrite Hlast. intros Hw k w s j Hk Hj.
  assert (Hz : (counted (workers st) = 0)%nat).
  { destruct (Z.ltb_spec 0 (wait_for_fetch_counter c')); [|lia].
    destruct (Z.ltb_spec (last_get (cnt st) - now) 5); [done|lia]. }
  pose proof (proj1 (counted_zero (workers st)) Hz k w Hk) as Hcw. unfold counts in Hcw.
  rewrite Hj in Hcw. split; intros ->; [|done].
  destruct (w_pc w) eqn:Hpc; try done; [by eapply Hcalm|..]; by destruct o.
Qed.

(** Results change nothing that the invariant is about. *)
Lemma inv_results st (f : row → row) : inv st →
  (∀ r, row_exec (f r) = row_exec r ∧ row_retry_timestamp (f r) = row_retry_timestamp r ∧
        row_retry_count (f r) = row_retry_count r ∧
        fetched_timestamp (f r) = fetched_timestamp r ∧
        (result_timestamp r ≠ None → result_timestamp (f r) ≠ None)) →
  inv (with_db (f <$> db st) st).
Proof.
  intros Hinv Hf.
  assert (Hlike : rows_like (db st) (f <$> db st)).
  { intros i r Hr. exists (f r). rewrite lookup_fmap, Hr. destruct (Hf r) as (E1 & E2 & E3 & E4 & _).
    split; [done|]. unfold exec_of. by rewrite E1, E2, E3. }
  split; try apply Hinv.
  - intros i r Hr. cbn in Hr. rewrite lookup_fmap in Hr. apply fmap_Some in Hr as (r0 & Hr & ->).
    destruct (Hf r0) as (E1 & _ & E3 & _). unfold row_ok, tries. rewrite E1, E3. by apply Hinv.
  - apply (Forall_impl _ _ _ (inv_log st Hinv)). intros [i n] (r & Hr & Hn & Hd).
    exists (f r). cbn in *. rewrite lookup_fmap, Hr. destruct (Hf r) as (_ & _ & E3 & E4 & E5).
    unfold tries in *. rewrite E3, E4. split; [done|]. split; [done|]. intros E.
    destruct (Hd E); auto.
  - intros j Hj. eapply job_ok_like; [done|]. by apply (inv_waiting st Hinv).
  - intros k w s j Hk Hj. destruct (inv_job st Hinv k w s j Hk Hj). split; [|done].
    by eapply job_ok_like.
Qed.

Lemma inv_plan st p : inv st → db st !! id p = None → id p ≠ 0 →
  inv (with_db (<[id p := new_row p]> (db st)) st).
Proof.
  intros Hinv Hp Hnz.
  assert (Hlike : rows_like (db st) (<[id p := new_row p]> (db st))).
  { intros i r Hr. exists r. rewrite lookup_insert_ne by congruence. done. }
  split; try apply Hinv.
  - apply map_Forall_insert_2; [|apply Hinv]. split; [done|]. split; [done|].
    pose proof (last_try_nonneg p). by split.
  - apply (Forall_impl _ _ _ (inv_log st Hinv)). intros [i n] (r & Hr & Hn).
    exists r. cbn in *. by rewrite lookup_insert_ne by congruence.
  - intros j Hj. eapply job_ok_like; [done|]. by apply (inv_waiting st Hinv).
  - intros k w s j Hk Hj. destruct (inv_job st Hinv k w s j Hk Hj). split; [|done].
    by eapply job_ok_like.
Qed.

(** *** The query *)

Lemma add_all realloc rows : (∀ n, realloc n = true) → ∀ arr,
  foldl (λ arr r, (safe_array_add realloc arr (Some (exec_of r))).2) arr rows
  = arr ++ (exec_of <$> rows).
Proof.
  intros Hr. induction rows as [|r rows IH]; intros arr; [by rewrite app_nil_r|].
  cbn [foldl]. rewrite IH. unfold safe_array_add. rewrite Hr. cbn [snd].
  by rewrite <- app_assoc.
Qed.

(** Rows of the table that are due, each once. *)
Lemma selected_rows e (db : table) utc n : env_ok e → map_Forall row_ok db →
  let rows := take n (filter (λ r, due utc r = true) (e_order e (map_to_list db).*2)) in
  NoDup (id <$> (exec_of <$> rows)) ∧
  ∀ r, r ∈ rows → db !! id (exec_of r) = Some r ∧ fetched_timestamp r = None ∧
                  result_timestamp r = None.
Proof.
  intros [_ Ho] Hdb rows. specialize (Ho (map_to_list db).*2).
  assert (Hkeys : (λ r, id (row_exec r)) <$> (map_to_list db).*2 = (map_to_list db).*1).
  { rewrite <- list_fmap_compose. apply list_fmap_ext. intros i [k r] Hin. cbn.
    apply list_elem_of_lookup_2, elem_of_map_to_list in Hin. by apply (Hdb k r). }
  split.
  - rewrite <- list_fmap_compose.
    change (NoDup ((λ r, id (row_exec r)) <$> rows)).
    apply (sublist_NoDup _ ((λ r, id (row_exec r)) <$> e_order e (map_to_list db).*2)).
    + rewrite Ho, Hkeys. apply NoDup_fst_map_to_list.
    + apply fmap_sublist. unfold rows. etrans; [apply sublist_take|apply sublist_filter].
  - intros r Hr. apply (subseteq_take n) in Hr. apply list_elem_of_filter in Hr as [Hd Hr].
    rewrite Ho in Hr. apply list_elem_of_fmap in Hr as ([k r'] & -> & Hk%elem_of_map_to_list).
    cbn [snd] in *. destruct (Hdb k r' Hk) as (Hid & _). cbn. rewrite Hid.
    unfold due in Hd. destruct (result_timestamp r'), (fetched_timestamp r'); done.
Qed.

Lemma selected_jobs st e utc n : env_ok e → inv st →
  let rows := take n (filter (λ r, due utc r = true) (e_order e (map_to_list (db st)).*2)) in
  ∀ j, j ∈ exec_of <$> rows → job_ok (db st) (log st) Popped j.
Proof.
  intros He Hinv rows j (r & -> & Hr)%list_elem_of_fmap.
  destruct (selected_rows e (db st) utc n He (inv_rows st Hinv)) as [_ Hin].
  destruct (Hin r Hr) as (Hrow & Hf & Hres).
  exists r. split; [done|]. split; [done|]. intros Hlog.
  pose proof (inv_log st Hinv) as Hall. rewrite Forall_forall in Hall.
  destruct (Hall _ Hlog) as (r' & Hr' & _ & Hd). cbn [fst snd] in *.
  assert (r' = r) as -> by congruence. by destruct (Hd eq_refl).
Qed.

Lemma inv_select e limit st : env_ok e → inv st → loop st = LSelect limit →
  inv (loop_step max_workers max_job_per_second e st).
Proof.
  intros He Hinv Hl. unfold loop_step. rewrite Hl.
  assert (Hld : loading (loop st) = true) by by rewrite Hl.
  pose proof (inv_empty st Hinv (or_intror Hld)) as Ha. pose proof (inv_loading st Hinv Hld) as Hno.
  unfold get_s_executions. destruct (e_ok e).
  2:{ destruct st. by apply (inv_at_loop _ LStart Hinv); [intros k E; by rewrite E in Hl|intros [?|?]|]. }
  rewrite add_all by apply He. rewrite Ha. cbn [app].
  pose proof (selected_jobs st e (e_utc e) (Z.to_nat limit) He Hinv) as Hjob.
  destruct (selected_rows e (db st) (e_utc e) (Z.to_nat limit) He (inv_rows st Hinv)) as [Hnd Hin].
  set (rows := take _ _) in *.
  destruct Hinv. split; cbn [db s_exec_arr cnt workers workers_thread_arr next_thread loop log
    at_loop with_arr loading]; try done.
  - intros k w s j Hk Hj. destruct (inv_job0 k w s j Hk Hj) as [(r & [Hr Hre] & Hs) _].
    destruct (Hno k w s j Hk Hj) as [Hp Hc]. split; [by exists r|].
    intros (j' & E & (r' & -> & Hr')%list_elem_of_fmap)%list_elem_of_fmap.
    destruct (Hin r' Hr') as (Hrow & Hf & _). rewrite <- E in Hrow.
    assert (r' = r) as -> by congruence. by destruct s; try done; destruct Hs as [? _].
  - intros k w Hk Hne. destruct (inv_listed0 k w Hk Hne) as [?|[E|?]]; [by left|by rewrite Hl in E|].
    right. by right.
  - by intros [?|?].
Qed.

(** *** The end of the program *)

Lemma inv_stop st : inv st → loop st = LStop →
  inv (with_workers
         (map_imap (λ k w, Some (Worker (w_pc w)
                     (w_terminated w || bool_decide (k ∈ workers_thread_arr st))))
            (workers st)) st).
Proof.
  intros Hinv Hl. set (f := λ k w, Some _).
  assert (Hwk : ∀ k w, map_imap f (workers st) !! k = Some w →
            ∃ w0, workers st !! k = Some w0 ∧ w_pc w0 = w_pc w).
  { intros k w. rewrite map_lookup_imap. intros (w0 & Hw0 & E)%bind_Some. injection E as <-.
    by exists w0. }
  assert (Hcnt : ∀ ws, counted (map_imap f ws) = counted ws).
  { intros ws. induction ws as [|k w ws Hk IH] using map_ind; [by rewrite map_imap_empty|].
    rewrite (map_imap_insert_Some f k w ws _ eq_refl), !counted_insert; [by rewrite IH|done|].
    rewrite map_lookup_imap. by rewrite Hk. }
  destruct Hinv. split; cbn [db s_exec_arr cnt workers workers_thread_arr next_thread loop log
    with_workers]; try done.
  - intros k w s j (w0 & H0 & Hpc)%Hwk Hj. rewrite <- Hpc in Hj. by eapply inv_job0.
  - intros k k' w w' s s' j j' (w0 & H0 & Hpc)%Hwk (w0' & H0' & Hpc')%Hwk Hj Hj'.
    rewrite <- Hpc in Hj. rewrite <- Hpc' in Hj'. by eapply inv_distinct0.
  - by rewrite Hcnt.
  - intros k w (w0 & H0 & Hpc)%Hwk Hne. rewrite <- Hpc in Hne.
    destruct (inv_listed0 k w0 H0 Hne) as [?|[E|(k' & w' & o & Hlt & Hk' & Hpc')]];
      [by left|by rewrite Hl in E|].
    right. right. exists k', (Worker (w_pc w') (w_terminated w' || bool_decide (k' ∈ workers_thread_arr st))), o.
    split; [done|]. split; [|done]. cbn. rewrite map_lookup_imap, Hk'. done.
  - intros k Hle. by rewrite map_lookup_imap, inv_next0.
  - rewrite Hl. done.
Qed.

(** ** All steps *)

Lemma inv_add st k w o i : inv st → workers st !! k = Some w → w_pc w = WAdd o i →
  inv (at_pc k w (WLoop o) (with_threads (workers_thread_arr st ++ [i]) st)).
Proof.
  intros Hinv Hk Hpc.
  assert (Hj : job_of (WLoop o) = job_of (w_pc w)) by (rewrite Hpc; by destruct o).
  apply (inv_worker st k w (WLoop o) (db st) (s_exec_arr st) (cnt st)
           (workers_thread_arr st ++ [i]) (log st)); try done; try by apply Hinv.
  - intros j Hin. split; [done|by apply Hinv].
  - intros k0 w0 s j _ H0 Hj0. by eapply (inv_job st Hinv).
  - intros s j Hj'. rewrite Hj in Hj'.
    destruct (inv_job st Hinv k w s j Hk Hj') as [? ?]. repeat split; try done.
    + by eapply (inv_loading st Hinv).
    + by eapply (inv_loading st Hinv).
    + by eapply no_job_other.
  - left. unfold counts. cbn [w_pc]. rewrite Hj. lia.
  - intros i' Hi. apply elem_of_app. by left.
  - intros i' o' E. left. rewrite Hpc in E. injection E as <- <-. apply elem_of_app. right. left.
  - by rewrite Hpc.
Qed.

Lemma inv_run st k w o : inv st → workers st !! k = Some w → w_pc w = WRun o →
  inv (at_pc k w (WAdd o (next_thread st)) (run_thread st)).
Proof.
  intros Hinv Hk Hpc.
  assert (Hlt : (k < next_thread st)%nat).
  { destruct (Nat.lt_ge_cases k (next_thread st)) as [?|Hge]; [done|].
    by rewrite (inv_next st Hinv k Hge) in Hk. }
  assert (H1 : inv (at_pc k w (WAdd o (next_thread st)) st)).
  { apply inv_move; try done; [|by rewrite Hpc|intros i o' E; by rewrite Hpc in E].
    right. rewrite Hpc. by destruct o. }
  assert (Hc : created_by (at_pc k w (WAdd o (next_thread st)) st) (next_thread st)).
  { right. exists k, (Worker (WAdd o (next_thread st)) (w_terminated w)), o.
    split; [done|]. split; [|done]. apply lookup_insert_eq. }
  pose proof (inv_run_thread _ H1 Hc) as H2.
  assert (E : at_pc k w (WAdd o (next_thread st)) (run_thread st) =
              run_thread (at_pc k w (WAdd o (next_thread st)) st)).
  { unfold at_pc, run_thread, with_workers, with_next. cbn.
    rewrite insert_insert_ne by lia. done. }
  by rewrite E.
Qed.

(** Moves that keep or lose the job. *)
Ltac moves Hpc :=
  repeat case_match; subst;
  (apply inv_move; [done|done| |by rewrite Hpc|let E := fresh in intros ? ? E; by rewrite Hpc in E]);
  rewrite Hpc; first [by left|by right].

Lemma inv_worker_step e k w st : inv st → workers st !! k = Some w → calm st (EvWorker k e) →
  inv (worker_step parse max_workers max_job_per_second e k w st).
Proof.
  intros Hinv Hk [[Hr _] Hok]. unfold worker_step.
  destruct (w_pc w) as [| | |j|o|o|o|o i|[j|]|j|j|j|j o| |] eqn:Hpc; try by moves Hpc.
  - destruct (s_exec_arr st) as [|j arr] eqn:Ha.
    + rewrite pop_nil. assert (E : with_arr [] st = st) by (rewrite <- Ha; by destruct st).
      rewrite E. by moves Hpc.
    + rewrite pop_cons, Hr. cbn [orb]. by apply (inv_pop st k w j arr).
  - by apply inv_count.
  - by apply inv_run.
  - unfold safe_array_add. rewrite Hr. by apply inv_add.
  - rewrite (Hok w j Hk Hpc). pose proof (inv_fetch st k w Hinv Hk j (e_utc e) Hpc) as Hf.
    by destruct (set_fetched _ _ _ _).
  - by apply inv_mark.
  - by apply inv_execute.
  - by apply inv_apply.
  - done.
Qed.

(** The counter of the loop moves to where it does not load, or goes on loading. *)
Lemma inv_loop_move st pc : inv st → (∀ k, loop st ≠ LAdd k) →
  pc ≠ LWaitFetch → (loading pc = true → loading (loop st) = true) → inv (at_loop pc st).
Proof.
  intros Hinv Hadd Hw Hl. apply inv_at_loop; [done| | |].
  - intros k E. by destruct (Hadd k).
  - intros [?|?]; [done|]. apply (inv_empty st Hinv). by right; apply Hl.
  - intros Hp. by apply (inv_loading st Hinv), Hl.
Qed.

Lemma inv_clean st e : env_ok e → inv st → inv (clean_threads (e_realloc e) st).
Proof.
  intros [Hr _] Hinv. apply inv_threads; [done|]. intros k w Hk Hne Hin.
  by apply (clean_alive st _ Hr k w).
Qed.

Lemma inv_loop_add st k l : inv st → loop st = LAdd k → k ∈ l →
  (∀ i, i ∈ workers_thread_arr st → i ∈ l) → inv (at_loop LWait (with_threads l st)).
Proof.
  intros Hinv Hl Hk Hsub. apply inv_at_loop; [|by cbn; intros k' E; left; congruence|by intros [?|?]|done].
  apply inv_threads; [done|]. auto.
Qed.

Lemma inv_wait st e : inv st → calm st (EvLoop e) → loop st = LWaitFetch →
  inv (loop_step max_workers max_job_per_second e st).
Proof.
  intros Hinv [He Hcalm] Hl. destruct (Hcalm Hl) as [Hnow Hw]. unfold loop_step. rewrite Hl.
  pose proof (wait_for_fetch_spec st (e_now e) Hinv Hl Hnow Hw) as Hspec.
  destruct (wait_for_fetch _ _ _) as [wait c']. destruct Hspec as [Hc Hno].
  assert (H1 : inv (with_cnt c' st)) by by apply inv_cnt.
  destruct wait.
  - apply inv_loop_move; [done|cbn; by rewrite Hl|done|done].
  - apply inv_at_loop; [done|cbn; by rewrite Hl| |by intros _; apply Hno].
    intros _. apply (inv_empty st Hinv). by left.
Qed.

Lemma inv_zombie st ok utc t : inv st → inv (with_db (set_zombie_result ok utc t (db st)) st).
Proof.
  intros Hinv. destruct ok; [|by destruct st]. apply inv_results; [done|].
  intros r. destruct (fetched_timestamp r) eqn:E; [|done]. by case_match; cbn; rewrite ?E.
Qed.

Lemma inv_expired st ok utc t : inv st → inv (with_db (set_expired_result ok utc t (db st)) st).
Proof.
  intros Hinv. destruct ok; [|by destruct st]. apply inv_results; [done|].
  intros r. by case_match.
Qed.

Ltac goes Hl :=
  apply inv_loop_move;
  cbn [loop with_cnt with_db clean_threads with_threads with_workers]; rewrite ?Hl; try done.

Lemma inv_loop_step e st : inv st → calm st (EvLoop e) →
  inv (loop_step max_workers max_job_per_second e st).
Proof.
  intros Hinv Hcalm. pose proof (proj1 Hcalm) as He. pose proof (inv_counted st Hinv) as Hcnt.
  destruct (loop st) as [| | | | |l|l|l|l| | | |k| | | |] eqn:Hl;
    try (by apply inv_wait); try (by eapply inv_select); unfold loop_step; rewrite Hl;
    try by repeat case_match; goes Hl.
  - destruct (q_terminated st); [by goes Hl|]. case_match; goes Hl. by apply inv_cnt.
  - goes Hl. by apply inv_clean.
  - destruct (Z.ltb_spec 0 (safe_array_count (s_exec_arr st))) as [?|Hz]; [by goes Hl|].
    apply inv_at_loop; [done|by rewrite Hl| |done]. intros _.
    destruct (s_exec_arr st); [done|]. unfold safe_array_count in Hz. cbn [length] in Hz. lia.
  - case_match; [case_match|]; goes Hl. by apply inv_cnt.
  - goes Hl. by apply inv_zombie.
  - goes Hl. by apply inv_expired.
  - change (at_loop (LAdd (next_thread st)) (run_thread st))
      with (run_thread (at_loop (LAdd (next_thread st)) st)).
    apply inv_run_thread; [by goes Hl|by left].
  - unfold safe_array_add. rewrite (proj1 He). cbn [snd].
    apply (inv_loop_add st k); [done|done| |intros i Hi]; apply elem_of_app; [right; left|by left].
  - goes Hl. by apply inv_stop.
  - case_match; [by goes Hl|by apply inv_clean].
  - done.
Qed.

Lemma inv_event ev st : inv st → calm st ev →
  inv (do_event parse max_workers max_job_per_second ev st).
Proof.
  intros Hinv Hcalm. destruct ev as [e|k e| |p]; cbn [do_event].
  - by apply inv_loop_step.
  - destruct (workers st !! k) as [w|] eqn:Hk; [|done]. by apply inv_worker_step.
  - by destruct Hinv.
  - case_bool_decide as Hp; [|done]. destruct (Z.eqb_spec (id p) 0); [done|]. by apply inv_plan.
Qed.

Lemma inv_calm_run evs st st' :
  calm_run st evs st' → inv st → inv st'.
Proof. induction 1; [done|]. intros Hinv. by apply IHcalm_run, inv_event. Qed.

Lemma inv_initial db0 : map_Forall row_ok db0 → inv (initial db0).
Proof.
  intros Hdb. split; cbn; try done.
  - constructor.
  - constructor.
  - intros j Hj. by apply not_elem_of_nil in Hj.
Qed.

(** Different tries of one row are different numbers up to its count. *)
Lemma tries_of_row st i r : inv st → db st !! i = Some r →
  Z.of_nat (length (filter (λ x, x.1 = i) (log st))) <= tries r + 1.
Proof.
  intros Hinv Hr. set (l := filter _ _).
  assert (Hl : ∀ x, x ∈ l → x.1 = i ∧ x.2 ∈ seqZ 0 (tries r + 1)).
  { intros x (E & Hx)%list_elem_of_filter. split; [done|].
    pose proof (inv_log st Hinv) as Hall. rewrite Forall_forall in Hall.
    destruct (Hall x Hx) as (r' & Hr' & Hn & _). rewrite E in Hr'.
    assert (r' = r) as -> by congruence. apply elem_of_seqZ. lia. }
  assert (Hnd : NoDup (snd <$> l)).
  { apply NoDup_fmap_2_strong; [|by apply NoDup_filter, Hinv].
    intros [i1 n1] [i2 n2] H1 H2 E. destruct (Hl _ H1) as [E1 _], (Hl _ H2) as [E2 _].
    cbn in *. congruence. }
  destruct (inv_rows st Hinv i r Hr) as (_ & _ & Ht).
  assert (Hlen : (length (snd <$> l) <= length (seqZ 0 (tries r + 1)))%nat).
  { apply submseteq_length, NoDup_submseteq; [done|].
    intros n (x & -> & Hx)%list_elem_of_fmap. by apply Hl. }
  rewrite length_fmap, length_seqZ in Hlen. lia.
Qed.

(** C9. Every try is executed once. From any table and through any interleaving of the
    loop, the workers, new plans and the end of the program, no try of a scheduled execution
    is executed twice, and a row is executed at most twice per try of its action, provided
    that the database marks the rows it is asked to mark, and that the loop does not ask
    whether it may load while a worker is between taking a row and counting it. *)
Theorem tries_executed_once db0 evs st :
  map_Forall row_ok db0 → calm_run (initial db0) evs st →
  NoDup (log st) ∧
  ∀ i r, db st !! i = Some r →
    Z.of_nat (length (filter (λ x, x.1 = i) (log st))) <= last_try (row_exec r) + 1.
Proof.
  intros Hdb Hrun. pose proof (inv_calm_run evs _ st Hrun (inv_initial db0 Hdb)) as Hinv.
  split; [apply Hinv|]. intros i r Hr. pose proof (tries_of_row st i r Hinv Hr).
  destruct (inv_rows st Hinv i r Hr) as (_ & _ & ?). lia.
Qed.
End queue.

(** ** Runs *)

(** A clock at 1, a database that answers, and a server that is silent. *)
Definition good_env : env :=
  Env 1 1 true (λ _, true) (λ l, l) (World (λ _, None) false (λ _, None)).

Definition planned_row : row := new_row (example_exec ACTION_TURN_ON SUPLA_CHANNELFNC_LIGHTSWITCH).

Definition planned_table : table := {[ 1 := planned_row ]}.

Definition loop_events (n : nat) : list event := replicate n (EvLoop good_env).
Definition worker_events (k n : nat) : list event := replicate n (EvWorker k good_env).

(** The loop loads the row and starts a worker, which executes it. *)
Definition calm_events : list event := loop_events 11 ++ worker_events 0 9.

(** A run in good surroundings where the loop does not ask before it has started a worker. *)
Fixpoint starts_calmly (evs : list event) (st : state) : bool :=
  match evs with
  | [] => true
  | ev :: evs =>
      match ev, loop st, map_to_list (workers st) with
      | EvLoop _, LWaitFetch, _ :: _ => false
      | EvLoop _, LWaitFetch, [] => last_get (cnt st) =? 0
      | _, _, _ => true
      end
      && starts_calmly evs (do_event (λ _, None : option unit) 2 10 ev st)
  end.

Lemma starts_calmly_calm evs : ∀ st,
  Forall (λ ev, match ev with EvLoop e | EvWorker _ e => e = good_env | _ => True end) evs →
  starts_calmly evs st = true →
  calm_run (λ _, None : option unit) 2 10 st evs (run (λ _, None : option unit) 2 10 evs st).
Proof.
  induction evs as [|ev evs IH]; intros st Hall Hs; [constructor|].
  apply Forall_cons in Hall as [He Hall]. apply andb_true_iff in Hs as [Hs Hrest].
  apply calm_cons; [|by apply IH]. destruct ev as [e|k e| |p]; cbn [calm]; [subst e..| |]; [..|done|done].
  - split; [by split|]. intros E. rewrite E in Hs.
    destruct (map_to_list (workers st)) eqn:Em; [|done].
    apply Z.eqb_eq in Hs. rewrite Hs. split; [done|]. intros k w j Hk.
    apply map_to_list_empty_iff in Em. by rewrite Em, lookup_empty in Hk.
  - by repeat split.
Qed.

Lemma tries_executed_once_witness :
  NoDup (log (run (λ _, None : option unit) 2 10 calm_events (initial planned_table))) ∧
  log (run (λ _, None : option unit) 2 10 calm_events (initial planned_table)) = [(1, 0)].
Proof.
  split; [|by vm_compute].
  refine (proj1 (tries_executed_once (λ _, None : option unit) 2 10 planned_table calm_events _ _ _)).
  - apply map_Forall_singleton. split; [reflexivity|]. split; [discriminate|]. by vm_compute.
  - apply starts_calmly_calm; [by repeat constructor|by vm_compute].
Defined.

(** The loop loads the row and starts a worker; when this has taken the row, and before it
    counts it, the loop loads the row again; then both copies are executed. *)
Definition racing_events : list event :=
  loop_events 12 ++ worker_events 0 3 ++ loop_events 9
  ++ worker_events 0 9 ++ worker_events 1 8.

(** A try may be executed twice. Without the second proviso it does not hold, although
    the database, the memory and the clock serve: the worker takes the row from the array
    and counts it in two steps, and a loop that loads between them finds the row again. The
    second worker, which cannot mark the row, executes it all the same. *)
Theorem try_executed_twice :
  Forall (λ ev, match ev with EvLoop e | EvWorker _ e => e = good_env | _ => False end)
    racing_events ∧
  log (run (λ _, None : option unit) 2 10 racing_events (initial planned_table)) = [(1, 0); (1, 0)].
Proof.
  split; [|by vm_compute].
  unfold racing_events. repeat (apply Forall_app; split); by apply Forall_replicate.
Qed.
