(* ===== verification/Connection.v ===== *)
(** * Connection: from the socket to the handlers

    conn/connection.cpp of the server: the limit of registrations that wait, the thread of a
    connection with its timeouts, and which handler a call gets to
    (srpc/abstract_srpc_call_handler_collection.cpp and the collections of devices and clients);
    conn/connection_objects.cpp: the devices, or the clients, of a user that are connected. *)

From S2P Require Import Prelude Proto CallIds.

#[local] Open Scope list_scope.
#[local] Open Scope Z_scope.

(** ** Handlers *)

(** The calls that a handler can handle, and whether only for registered objects. *)
Record handler := Handler { can_handle : list Z; registration_required : bool }.

Definition can_handle_call (call_id : Z) (h : handler) : bool :=
  existsb (Z.eqb call_id) (can_handle h).

Definition guarded (call_id : Z) : handler := Handler [call_id] true.
Definition unguarded (call_id : Z) : handler := Handler [call_id] false.

(** The handlers that both collections have at their ends. *)
Definition common_handlers : list handler :=
  [unguarded SUPLA_DCS_CALL_GETVERSION; guarded SUPLA_DCS_CALL_SET_ACTIVITY_TIMEOUT;
   guarded SUPLA_DCS_CALL_PING_SERVER; guarded SUPLA_DCS_CALL_GET_USER_LOCALTIME;
   guarded SUPLA_DCS_CALL_GET_REGISTRATION_ENABLED].

Definition device_handlers : list handler :=
  [guarded SUPLA_DS_CALL_ACTIONTRIGGER; guarded SUPLA_DS_CALL_CHANNEL_SET_VALUE_RESULT;
   guarded SUPLA_DS_CALL_DEVICE_CHANNEL_VALUE_CHANGED_C;
   guarded SUPLA_DS_CALL_DEVICE_CHANNEL_VALUE_CHANGED_B;
   guarded SUPLA_DS_CALL_DEVICE_CHANNEL_VALUE_CHANGED;
   guarded SUPLA_DS_CALL_DEVICE_CHANNEL_EXTENDEDVALUE_CHANGED;
   guarded SUPLA_DSC_CALL_CHANNEL_STATE_RESULT; guarded SUPLA_DS_CALL_GET_FIRMWARE_UPDATE_URL;
   guarded SUPLA_DS_CALL_DEVICE_CALCFG_RESULT; guarded SUPLA_DS_CALL_GET_CHANNEL_FUNCTIONS;
   guarded SUPLA_DS_CALL_GET_CHANNEL_CONFIG; unguarded SUPLA_DS_CALL_REGISTER_DEVICE_G;
   unguarded SUPLA_DS_CALL_REGISTER_DEVICE_F; unguarded SUPLA_DS_CALL_REGISTER_DEVICE_E;
   unguarded SUPLA_DS_CALL_REGISTER_DEVICE_D; unguarded SUPLA_DS_CALL_REGISTER_DEVICE_C;
   unguarded SUPLA_DS_CALL_REGISTER_DEVICE_B; unguarded SUPLA_DS_CALL_REGISTER_DEVICE;
   guarded SUPLA_DS_CALL_SET_DEVICE_CONFIG; guarded SUPLA_DS_CALL_SET_DEVICE_CONFIG_RESULT;
   guarded SUPLA_DS_CALL_SET_CHANNEL_CONFIG; guarded SUPLA_DCS_CALL_SET_CHANNEL_CAPTION;
   guarded SUPLA_DS_CALL_SET_CHANNEL_CONFIG_RESULT;
   guarded SUPLA_DS_CALL_REGISTER_PUSH_NOTIFICATION; guarded SUPLA_DS_CALL_SEND_PUSH_NOTIFICATION;
   guarded SUPLA_DS_CALL_SET_SUBDEVICE_DETAILS] ++ common_handlers.

Definition client_handlers : list handler :=
  [guarded SUPLA_CS_CALL_SET_VALUE; guarded SUPLA_CS_CALL_CHANNEL_SET_VALUE_B;
   guarded SUPLA_CS_CALL_CHANNEL_SET_VALUE; unguarded SUPLA_CS_CALL_EXECUTE_ACTION_WITH_AUTH;
   guarded SUPLA_CS_CALL_EXECUTE_ACTION; guarded SUPLA_CS_CALL_TIMER_ARM;
   guarded SUPLA_CS_CALL_GET_NEXT; guarded SUPLA_CSD_CALL_GET_CHANNEL_STATE;
   unguarded SUPLA_CS_CALL_GET_CHANNEL_VALUE_WITH_AUTH;
   guarded SUPLA_CS_CALL_DEVICE_CALCFG_REQUEST_B; guarded SUPLA_CS_CALL_DEVICE_CALCFG_REQUEST;
   guarded SUPLA_CS_CALL_OAUTH_TOKEN_REQUEST;
   guarded SUPLA_CS_CALL_SUPERUSER_AUTHORIZATION_REQUEST;
   guarded SUPLA_CS_CALL_GET_SUPERUSER_AUTHORIZATION_RESULT;
   guarded SUPLA_CS_CALL_GET_CHANNEL_BASIC_CFG; Handler [SUPLA_DCS_CALL_SET_CHANNEL_CAPTION;
   SUPLA_CS_CALL_SET_CHANNEL_GROUP_CAPTION; SUPLA_CS_CALL_SET_LOCATION_CAPTION;
   SUPLA_CS_CALL_SET_SCENE_CAPTION] true; guarded SUPLA_CS_CALL_SET_CHANNEL_FUNCTION;
   guarded SUPLA_CS_CALL_CLIENTS_RECONNECT_REQUEST;
   guarded SUPLA_CS_CALL_SET_REGISTRATION_ENABLED; guarded SUPLA_CS_CALL_DEVICE_RECONNECT_REQUEST;
   unguarded SUPLA_CS_CALL_REGISTER_CLIENT_D; unguarded SUPLA_CS_CALL_REGISTER_CLIENT_C;
   unguarded SUPLA_CS_CALL_REGISTER_CLIENT_B; unguarded SUPLA_CS_CALL_REGISTER_CLIENT;
   unguarded SUPLA_CS_CALL_REGISTER_PN_CLIENT_TOKEN; guarded SUPLA_CS_CALL_GET_CHANNEL_CONFIG;
   guarded SUPLA_CS_CALL_SET_CHANNEL_CONFIG; guarded SUPLA_CS_CALL_GET_DEVICE_CONFIG] ++
   common_handlers.

(** [handle_call]: None if no handler can; whether the handler has run. *)
Definition collection_handle_call (handlers : list handler) (registered : bool) (call_id : Z)
    : option bool :=
  h ← find_first (can_handle_call call_id) handlers;
  Some (negb (registration_required h) || registered).

(** ** Objects of a connection *)

Inductive object_kind := KDevice | KClient.

#[export] Instance object_kind_eq_dec : EqDecision object_kind.
Proof. solve_decision. Defined.

Definition handlers_of (k : object_kind) : list handler :=
  match k with KDevice => device_handlers | KClient => client_handlers end.

Definition register_calls (k : object_kind) : list Z :=
  match k with
  | KDevice => [SUPLA_DS_CALL_REGISTER_DEVICE_G; SUPLA_DS_CALL_REGISTER_DEVICE_F;
                SUPLA_DS_CALL_REGISTER_DEVICE_E; SUPLA_DS_CALL_REGISTER_DEVICE_D;
                SUPLA_DS_CALL_REGISTER_DEVICE_C; SUPLA_DS_CALL_REGISTER_DEVICE_B;
                SUPLA_DS_CALL_REGISTER_DEVICE]
  | KClient => [SUPLA_CS_CALL_REGISTER_CLIENT_D; SUPLA_CS_CALL_REGISTER_CLIENT_C;
                SUPLA_CS_CALL_REGISTER_CLIENT_B; SUPLA_CS_CALL_REGISTER_CLIENT]
  end.

Record conn_object := ConnObject { o_kind : object_kind; o_registered : bool }.

(** Times are in seconds; [gettimeofday] gives the time of a call. *)
Record connection := Connection {
  c_object : option conn_object;
  c_init_time : Z;
  c_last_activity : Z;
  c_activity_timeout : Z;
  c_unhandled : Z;
  c_terminated : bool;
  c_proto_version : Z
}.

Definition REGISTER_WAIT_TIMEOUT : Z := 10.
Definition ACTIVITY_TIMEOUT : Z := 120.
Definition UNHANDLED_CALL_MAXCOUNT : Z := 5.
Definition WAIT_USEC_MIN : Z := 100000.
Definition ACTIVITY_TIMEOUT_MIN : Z := 10.
Definition ACTIVITY_TIMEOUT_MAX : Z := 240.

Definition new_connection (now : Z) : connection :=
  Connection None now now ACTIVITY_TIMEOUT 0 false SUPLA_PROTO_VERSION.

Definition with_object (o : option conn_object) (last_activity : Z) (c : connection) : connection :=
  Connection o (c_init_time c) last_activity (c_activity_timeout c) (c_unhandled c) (c_terminated c)
    (c_proto_version c).

Definition conn_terminate (c : connection) : connection :=
  Connection (c_object c) (c_init_time c) (c_last_activity c) (c_activity_timeout c)
    (c_unhandled c) true (c_proto_version c).

Definition catch_unhandled_call (c : connection) : connection :=
  let c := Connection (c_object c) (c_init_time c) (c_last_activity c) (c_activity_timeout c)
             (c_unhandled c + 1) (c_terminated c) (c_proto_version c) in
  if UNHANDLED_CALL_MAXCOUNT <=? c_unhandled c then conn_terminate c else c.

(** [supla_ch_set_activity_timeout] *)
Definition set_activity_timeout (seconds : Z) (c : connection) : connection :=
  let t := if seconds <? ACTIVITY_TIMEOUT_MIN then ACTIVITY_TIMEOUT_MIN
           else if ACTIVITY_TIMEOUT_MAX <? seconds then ACTIVITY_TIMEOUT_MAX else seconds in
  Connection (c_object c) (c_init_time c) (c_last_activity c) t (c_unhandled c) (c_terminated c)
    (c_proto_version c).

(** [srpc_set_proto_version] *)
Definition adjust_version (version : Z) (c : connection) : connection :=
  Connection (c_object c) (c_init_time c) (c_last_activity c) (c_activity_timeout c)
    (c_unhandled c) (c_terminated c)
    (if (SUPLA_PROTO_VERSION_MIN <=? version) && (version <=? SUPLA_PROTO_VERSION)
     then version else SUPLA_PROTO_VERSION).

(** A call: its identifier, the version it came with, the timeout in it if it is about that, and
    whether it registers its object if it is a registration, which RegisterDevice.v and
    RegisterClient.v decide. *)
Record srpc_call := Call {
  call_id : Z; call_proto_version : Z; call_timeout : Z; call_registers : bool
}.

(** What a handler of the object [o] that runs does to the connection; an object that registers
    once more is terminated. *)
Definition run_handler (o : conn_object) (a : srpc_call) (c : connection) : connection :=
  if existsb (Z.eqb (call_id a)) (register_calls (o_kind o))
  then if o_registered o then conn_terminate c
       else if call_registers a
       then with_object (Some (ConnObject (o_kind o) true)) (c_last_activity c) c else c
  else if call_id a =? SUPLA_DCS_CALL_SET_ACTIVITY_TIMEOUT
  then set_activity_timeout (call_timeout a) c
  else c.

(** A handler has run: of which object, whether this one was registered, and for which call. *)
Record handled := Event { ev_kind : object_kind; ev_registered : bool; ev_call : srpc_call }.

(** [handle_call] of the object [o]: None if it has no handler. *)
Definition object_handle_call (o : conn_object) (a : srpc_call) (c : connection)
    : option (list handled * connection) :=
  acts ← collection_handle_call (handlers_of (o_kind o)) (o_registered o) (call_id a);
  Some (if acts : bool
        then ([Event (o_kind o) (o_registered o) a], run_handler o a c) else ([], c)).

(** The connection tries to be a device and, if there is no handler, a client. *)
Definition new_object (now : Z) (k : object_kind) (a : srpc_call) (c : connection)
    : option (list handled * connection) :=
  let o := ConnObject k false in object_handle_call o a (with_object (Some o) now c).

Definition on_remote_call_received (now : Z) (a : srpc_call) (c : connection)
    : list handled * connection :=
  match c_object c with
  | Some o =>
      match object_handle_call o a c with
      | Some (evs, c) => (evs, with_object (c_object c) now c)
      | None => ([], catch_unhandled_call c)
      end
  | None =>
      let c := if (call_proto_version a <? SUPLA_PROTO_VERSION)
                  && negb (c_proto_version c =? call_proto_version a)
               then adjust_version (call_proto_version a) c else c in
      match new_object now KDevice a c with
      | Some result => result
      | None => match new_object now KClient a c with
                | Some result => result
                | None => ([], catch_unhandled_call c)
                end
      end
  end.

(** ** The loop of the thread *)

(** What one round meets: the calls that [srpc_iterate] gives, its result, the time, what the
    object would wait for, whether it sleeps, and whether something else - another thread, the
    [iterate] of the object, a handler - terminates the thread. *)
Record round := Round {
  r_calls : list srpc_call; r_ok : bool; r_now : Z; r_wait_time : Z; r_sleeping : bool;
  r_terminated : bool
}.

Fixpoint receive_calls (now : Z) (calls : list srpc_call) (c : connection) : list handled * connection :=
  match calls with
  | [] => ([], c)
  | a :: rest =>
      let '(evs, c) := on_remote_call_received now a c in
      let '(evs', c) := receive_calls now rest c in
      (evs ++ evs', c)
  end.

(** The body of the loop of [execute]; the time to wait next, None where the loop is left. *)
Definition loop_body (r : round) (wait_usec : Z) (c : connection)
    : list handled * connection * option Z :=
  let '(evs, c) := receive_calls (r_now r) (r_calls r) c in
  let c := if r_terminated r then conn_terminate c else c in
  if negb (r_ok r) then (evs, c, None)
  else
    match c_object c with
    | Some (ConnObject _ true) =>
        let time_to_inactive := c_activity_timeout c - i32 (r_now r - c_last_activity c) in
        if time_to_inactive <=? 0
        then (evs, if r_sleeping r then c else conn_terminate c, None)
        else
          let wait := i32 (r_wait_time r) in
          let limit := i32 (time_to_inactive * 1000000) in
          let wait := if limit <? wait then limit else wait in
          (evs, c, Some (if wait <? WAIT_USEC_MIN then WAIT_USEC_MIN else wait))
    | _ =>
        if REGISTER_WAIT_TIMEOUT <=? r_now r - c_init_time c
        then (evs, conn_terminate c, None)
        else (evs, c, Some wait_usec)
    end.

(** The rounds of the loop, until it is left: what has happened, the connection, and the time to
    wait if it goes on. *)
Fixpoint run_loop (rounds : list round) (wait_usec : Z) (c : connection)
    : list handled * connection * option Z :=
  if c_terminated c then ([], c, None)
  else match rounds with
  | [] => ([], c, Some wait_usec)
  | r :: rest =>
      let '(evs, c, wait) := loop_body r wait_usec c in
      match wait with
      | None => (evs, c, None)
      | Some wait => let '(evs', c, wait') := run_loop rest wait c in (evs ++ evs', c, wait')
      end
  end.

(** Of a sleeping device the object is kept for a while: the steps of that wait. *)
Fixpoint sleep_steps (fuel : nat) (msec : Z) : list Z :=
  match fuel with
  | O => []
  | S fuel => if msec <=? 0 then []
              else if 1000 <=? msec then 1000000 :: sleep_steps fuel (msec - 1000)
              else [msec * 1000]
  end.

Definition sleep_until_wakeup (msec : Z) : list Z := sleep_steps (S (Z.to_nat msec)) msec.

(** ** What a peer can do before it has registered *)

Definition open_calls (k : object_kind) : list Z :=
  SUPLA_DCS_CALL_GETVERSION ::
  match k with
  | KDevice => []
  | KClient => [SUPLA_CS_CALL_EXECUTE_ACTION_WITH_AUTH; SUPLA_CS_CALL_GET_CHANNEL_VALUE_WITH_AUTH;
                SUPLA_CS_CALL_REGISTER_PN_CLIENT_TOKEN]
  end ++ register_calls k.

Definition registers (e : handled) : bool :=
  existsb (Z.eqb (call_id (ev_call e))) (register_calls (ev_kind e)) && call_registers (ev_call e).

(** What sessions look like: the object is of one kind, only its handlers run, before it is registered
    only those of the open calls, and it is registered from the registration that succeeds on. *)
Definition session_step (o : option conn_object) (e : handled) : bool :=
  match o with
  | Some o => bool_decide (ev_kind e = o_kind o) && Bool.eqb (ev_registered e) (o_registered o)
  | None => negb (ev_registered e)
  end
  && existsb (can_handle_call (call_id (ev_call e))) (handlers_of (ev_kind e))
  && (ev_registered e || existsb (Z.eqb (call_id (ev_call e))) (open_calls (ev_kind e))).

Definition session_after (o : option conn_object) (e : handled) : option conn_object :=
  Some (ConnObject (ev_kind e) (ev_registered e || registers e)).

Fixpoint session_ok (o : option conn_object) (evs : list handled) : bool :=
  match evs with
  | [] => true
  | e :: rest => session_step o e && session_ok (session_after o e) rest
  end.

Lemma session_app o evs evs' :
  session_ok o (evs ++ evs') = session_ok o evs && session_ok (foldl session_after o evs) evs'.
Proof.
  revert o. induction evs as [|e evs IH]; intros o; cbn; [done|]. rewrite IH. by rewrite andb_assoc.
Qed.

(** The session so far and the object of the connection: an object may have been made without
    anything that has run. *)
Definition agree (s o : option conn_object) : Prop :=
  s = o ∨ (s = None ∧ match o with Some o => o_registered o = false | None => True end).

Lemma open_handlers k :
  forallb (λ h, registration_required h
                || forallb (λ c, existsb (Z.eqb c) (open_calls k)) (can_handle h)) (handlers_of k)
  = true.
Proof. by destruct k; vm_compute. Qed.

Lemma handled_open k registered call_id :
  collection_handle_call (handlers_of k) registered call_id = Some true →
  existsb (can_handle_call call_id) (handlers_of k) = true
  ∧ registered || existsb (Z.eqb call_id) (open_calls k) = true.
Proof.
  unfold collection_handle_call. destruct (find_first _ _) as [h|] eqn:Ef; [|done].
  apply find_first_Some in Ef as [Hc Hh]. cbn. intros [= Hr].
  split; [apply existsb_exists; exists h; by rewrite <- list_elem_of_In|].
  apply orb_true_iff in Hr as [Hr%negb_true_iff | ->]; [|done].
  pose proof (open_handlers k) as Ho. rewrite forallb_forall in Ho.
  specialize (Ho h (proj1 (list_elem_of_In _ _) Hh)). rewrite Hr in Ho. cbn in Ho.
  rewrite forallb_forall in Ho. unfold can_handle_call in Hc.
  apply existsb_exists in Hc as (c & Hc & ->%Z.eqb_eq). rewrite (Ho c Hc). by rewrite orb_true_r.
Qed.

Lemma act_object o a c :
  c_object c = Some o →
  c_object (run_handler o a c) = Some (ConnObject (o_kind o)
    (o_registered o || registers (Event (o_kind o) (o_registered o) a))).
Proof.
  intros Ho. unfold run_handler, registers. cbn. destruct o as [k reg]. cbn.
  destruct (existsb _ _); cbn.
  - destruct reg; cbn; [done|]. by destruct (call_registers a).
  - rewrite orb_false_r. by case_match.
Qed.

Lemma object_call_session s o a c evs c' :
  c_object c = Some o → agree s (Some o) → object_handle_call o a c = Some (evs, c') →
  session_ok s evs = true ∧ agree (foldl session_after s evs) (c_object c').
Proof.
  intros Ho Hs. unfold object_handle_call. destruct (collection_handle_call _ _ _) as [b|] eqn:Ec;
    [|done]. cbn. destruct b; intros [= <- <-]; [|by rewrite Ho].
  apply handled_open in Ec as [E1 E2]. destruct o as [k reg]. cbn in *. split.
  - rewrite andb_true_r. unfold session_step. cbn. rewrite E1, E2.
    destruct Hs as [-> | [-> Hr]]; cbn in *; [|by rewrite Hr].
    rewrite bool_decide_eq_true_2 by done. cbn. by rewrite eqb_reflx.
  - left. unfold session_after. cbn. by rewrite (act_object _ a c Ho).
Qed.

Lemma unhandled_object c : c_object (catch_unhandled_call c) = c_object c.
Proof. unfold catch_unhandled_call. by case_match. Qed.

Lemma received_session s now a c evs c' :
  agree s (c_object c) → on_remote_call_received now a c = (evs, c') →
  session_ok s evs = true ∧ agree (foldl session_after s evs) (c_object c').
Proof.
  intros Hs. unfold on_remote_call_received. destruct (c_object c) as [o|] eqn:Ho.
  - destruct (object_handle_call o a c) as [[evs1 c1]|] eqn:Eh; intros [= <- <-].
    + cbn. by eapply object_call_session.
    + by rewrite unhandled_object, Ho.
  - set (c0 := if _ && _ then _ else _). assert (H0 : c_object c0 = None) by (subst c0; by case_match).
    assert (Hn : ∀ k r, new_object now k a c0 = Some r →
              session_ok s r.1 = true ∧ agree (foldl session_after s r.1) (c_object r.2)).
    { intros k [evs1 c1] Hr. unfold new_object in Hr.
      eapply object_call_session; [| |exact Hr]; [done|].
      destruct Hs as [-> | [-> _]]; by right. }
    destruct (new_object now KDevice a c0) as [r|] eqn:Ed; [intros ->; by apply (Hn KDevice (evs, c'))|].
    destruct (new_object now KClient a c0) as [r|] eqn:Ek; [intros ->; by apply (Hn KClient (evs, c'))|].
    intros [= <- <-]. rewrite unhandled_object, H0. done.
Qed.

Lemma receive_session s now calls c :
  agree s (c_object c) →
  session_ok s (receive_calls now calls c).1 = true
  ∧ agree (foldl session_after s (receive_calls now calls c).1) (c_object (receive_calls now calls c).2).
Proof.
  revert s c. induction calls as [|a calls IH]; intros s c Hs; cbn; [done|].
  destruct (on_remote_call_received now a c) as [evs c1] eqn:Ea.
  destruct (received_session s now a c evs c1 Hs Ea) as [H1 H2]. destruct (IH _ _ H2) as [H3 H4].
  destruct (receive_calls now calls c1) as [evs' c2]. cbn in *.
  rewrite session_app, H1, foldl_app. done.
Qed.

Lemma loop_body_received r wait c :
  (loop_body r wait c).1.1 = (receive_calls (r_now r) (r_calls r) c).1
  ∧ ((loop_body r wait c).1.2 = (receive_calls (r_now r) (r_calls r) c).2
     ∨ (loop_body r wait c).1.2 = conn_terminate (receive_calls (r_now r) (r_calls r) c).2).
Proof.
  unfold loop_body. destruct (receive_calls (r_now r) (r_calls r) c) as [evs1 c1]. cbn [fst snd].
  assert (E : conn_terminate (conn_terminate c1) = conn_terminate c1) by done.
  destruct (r_terminated r); repeat case_match; cbn [fst snd]; rewrite ?E; auto.
Qed.

Lemma body_session s r wait c :
  agree s (c_object c) →
  session_ok s (loop_body r wait c).1.1 = true
  ∧ agree (foldl session_after s (loop_body r wait c).1.1) (c_object (loop_body r wait c).1.2).
Proof.
  intros Hs. destruct (loop_body_received r wait c) as [-> E].
  destruct (receive_session s (r_now r) (r_calls r) c Hs) as [H1 H2].
  split; [done|]. by destruct E as [-> | ->].
Qed.

(** C20. Nothing runs for whom has not registered but what is open. Whatever calls a peer sends, in
    whatever rounds: all handlers that run are those of a device, or all are those of a client;
    before a registration has succeeded only those run that need none - the version, the
    registrations, and of clients the calls that come with a key of their own - and afterwards
    the object is registered. *)
Theorem session_follows_rules rounds wait now :
  session_ok None (run_loop rounds wait (new_connection now)).1.1 = true.
Proof.
  assert (H : ∀ s c, agree s (c_object c) → ∀ wait, session_ok s (run_loop rounds wait c).1.1 = true).
  { induction rounds as [|r rounds IH]; intros s c Hs w; cbn; [by destruct (c_terminated c)|].
    destruct (c_terminated c); [done|].
    destruct (body_session s r w c Hs) as [H1 H2].
    destruct (loop_body r w c) as [[evs c1] w1].
    destruct w1 as [w1|]; [|done]. specialize (IH _ _ H2 w1). revert IH.
    cbn in *. destruct (run_loop rounds w1 c1) as [[evs' c2] w2]. cbn. intros IH. by rewrite session_app, H1. }
  apply H. by left.
Qed.

(** ** How long a connection stays open *)

(** What has been since the connection was made at [t0]: its object, if there is one, was active
    last at the time of a round that brought calls. *)
Record lived (t0 : Z) (done : list round) (c : connection) : Prop := Lived {
  lived_init : c_init_time c = t0;
  lived_timeout : ACTIVITY_TIMEOUT_MIN ≤ c_activity_timeout c ≤ ACTIVITY_TIMEOUT_MAX;
  lived_activity : c_object c = None
    ∨ ∃ r, r ∈ done ∧ r_calls r ≠ [] ∧ c_last_activity c = r_now r
}.

(** What stays, or becomes, of the same in a call at the time [now]. *)
Definition moved (now : Z) (c c' : connection) : Prop :=
  c_init_time c' = c_init_time c
  ∧ (ACTIVITY_TIMEOUT_MIN ≤ c_activity_timeout c ≤ ACTIVITY_TIMEOUT_MAX →
     ACTIVITY_TIMEOUT_MIN ≤ c_activity_timeout c' ≤ ACTIVITY_TIMEOUT_MAX)
  ∧ (c_object c' = None ∨ c_last_activity c' = now
     ∨ (c_object c ≠ None ∧ c_last_activity c' = c_last_activity c)).

Lemma act_moved now o a c : c_object c ≠ None → moved now c (run_handler o a c).
Proof.
  intros Ho. unfold moved, run_handler, set_activity_timeout, ACTIVITY_TIMEOUT_MIN, ACTIVITY_TIMEOUT_MAX.
  repeat case_match; cbn; split_and!; auto; lia.
Qed.

Lemma unhandled_moved now c : moved now c (catch_unhandled_call c).
Proof.
  unfold moved, catch_unhandled_call. destruct (c_object c) eqn:E;
    case_match; cbn; rewrite ?E; split_and!; auto; right; right; by split.
Qed.

Lemma object_call_moved now o a c evs c' :
  c_object c ≠ None → object_handle_call o a c = Some (evs, c') → moved now c c'.
Proof.
  intros Ho. unfold object_handle_call. destruct (collection_handle_call _ _ _) as [b|]; [|done].
  cbn. destruct b; intros [= <- <-]; [by apply act_moved|]. split_and!; auto.
Qed.

Lemma new_object_moved now k a c evs c' :
  new_object now k a c = Some (evs, c') → moved now c c'.
Proof.
  unfold new_object. intros H. apply (object_call_moved now) in H as (H1 & H2 & H3); [|done].
  split_and!; [done|done|]. destruct H3 as [? | [? | [_ ?]]]; auto.
Qed.

Lemma received_moved now a c : moved now c (on_remote_call_received now a c).2.
Proof.
  unfold on_remote_call_received. destruct (c_object c) as [o|] eqn:Ho.
  - destruct (object_handle_call o a c) as [[evs c']|] eqn:Eh; [|apply unhandled_moved].
    apply (object_call_moved now) in Eh as (H1 & H2 & _); [|by rewrite Ho].
    split_and!; [done|done|]. right; left. done.
  - set (c0 := if _ && _ then _ else _).
    assert (E : ∀ c', moved now c0 c' → moved now c c').
    { intros c' (H1 & H2 & H3). unfold moved. rewrite H1. rewrite Ho in *.
      subst c0. split_and!; [by case_match|by case_match|].
      destruct H3 as [? | [? | [H3 _]]]; auto. destruct H3. by case_match. }
    destruct (new_object now KDevice a c0) as [[evs1 c1]|] eqn:Ed;
      [apply E; by eapply new_object_moved|].
    destruct (new_object now KClient a c0) as [[evs1 c1]|] eqn:Ek;
      [apply E; by eapply new_object_moved|].
    apply E, unhandled_moved.
Qed.

Lemma receive_moved now calls c :
  calls ≠ [] → moved now c (receive_calls now calls c).2.
Proof.
  revert c. induction calls as [|a calls IH]; intros c Hn; [done|]. cbn.
  pose proof (received_moved now a c) as (H1 & H2 & H3).
  destruct (on_remote_call_received now a c) as [evs c1]. cbn in *.
  destruct calls as [|a' calls]; [done|].
  destruct (IH c1 ltac:(done)) as (H4 & H5 & H6).
  destruct (receive_calls now (a' :: calls) c1) as [evs' c2]. cbn in *. unfold moved. rewrite H4.
  split_and!; [done|auto|]. destruct H6 as [? | [? | [? H6]]]; auto.
  rewrite H6. tauto.
Qed.

Lemma body_lived t0 done_ r wait c :
  lived t0 done_ c → lived t0 (done_ ++ [r]) (loop_body r wait c).1.2.
Proof.
  intros [H1 H2 H3]. destruct (loop_body_received r wait c) as [_ E].
  assert (H : lived t0 (done_ ++ [r]) (receive_calls (r_now r) (r_calls r) c).2).
  { destruct (decide (r_calls r = [])) as [En | Hn].
    - rewrite En. cbn. split; [done..|]. destruct H3 as [? | (r' & Hr & ?)]; [by left|].
      right. exists r'. split; [apply elem_of_app; by left|done].
    - destruct (receive_moved (r_now r) _ c Hn) as (H4 & H5 & H6).
      split; [by rewrite H4|auto|]. destruct H6 as [? | [? | [Hc H6]]]; [by left| |].
      + right. exists r. split; [apply elem_of_app; right; by left|done].
      + destruct H3 as [? | (r' & Hr & ? & E')]; [done|]. right. exists r'.
        split; [apply elem_of_app; by left|]. by rewrite H6. }
  destruct E as [-> | ->]; [done|]. by destruct H.
Qed.

(** What holds of the last round if the loop goes on. *)
Definition goes_on (r : round) (c : connection) (wait : Z) : Prop :=
  match c_object c with
  | Some (ConnObject _ true) =>
      let left_ := c_activity_timeout c - i32 (r_now r - c_last_activity c) in
      0 < left_ ∧ WAIT_USEC_MIN ≤ wait
      ∧ (wait ≤ WAIT_USEC_MIN ∨ wait ≤ i32 (left_ * 1000000))
  | _ => r_now r - c_init_time c < REGISTER_WAIT_TIMEOUT
  end.

Lemma body_goes_on r wait c wait' :
  (loop_body r wait c).2 = Some wait' → goes_on r (loop_body r wait c).1.2 wait'.
Proof.
  unfold loop_body, goes_on. destruct (receive_calls (r_now r) (r_calls r) c) as [evs1 c1].
  set (c2 := if r_terminated r then conn_terminate c1 else c1). clearbody c2.
  destruct (r_ok r); cbn; [|done].
  destruct (c_object c2) as [[k [|]]|] eqn:Ho; cbn.
  - destruct (_ <=? 0) eqn:El; cbn; [done|]. apply Z.leb_gt in El. intros [= <-]. rewrite Ho.
    split; [done|]. generalize (i32 (r_wait_time r)). intros w.
    generalize (i32 ((c_activity_timeout c2 - i32 (r_now r - c_last_activity c2)) * 1000000)).
    intros l. repeat case_match; lia.
  - destruct (_ <=? _) eqn:El; cbn; [done|]. apply Z.leb_gt in El. intros _. by rewrite Ho.
  - destruct (_ <=? _) eqn:El; cbn; [done|]. apply Z.leb_gt in El. intros _. by rewrite Ho.
Qed.

Lemma run_goes_on t0 rounds done_ r wait c evs c' wait' :
  lived t0 done_ c → run_loop (rounds ++ [r]) wait c = (evs, c', Some wait') →
  lived t0 (done_ ++ rounds ++ [r]) c' ∧ goes_on r c' wait'.
Proof.
  revert done_ wait c evs. induction rounds as [|r1 rounds IH]; intros done_ wait c evs Hl; cbn.
  - destruct (c_terminated c); [done|]. pose proof (body_lived t0 done_ r wait c Hl) as H1.
    pose proof (body_goes_on r wait c) as H2.
    destruct (loop_body r wait c) as [[evs1 c1] [w1|]]; cbn in *; [|done].
    destruct (c_terminated c1); intros [= <- <- <-]. split; [done|]. by apply H2.
  - destruct (c_terminated c); [done|]. pose proof (body_lived t0 done_ r1 wait c Hl) as H1.
    destruct (loop_body r1 wait c) as [[evs1 c1] [w1|]]; cbn in *; [|done].
    destruct (run_loop (rounds ++ [r]) w1 c1) as [[evs2 c2] w2] eqn:Er. intros [= <- <- ->].
    destruct (IH (done_ ++ [r1]) w1 c1 evs2 H1 Er) as [H2 H3]. by rewrite <- app_assoc in H2.
Qed.

(** C21. No connection stays open without a sign of life. If the loop goes on after a round, then
    either the object is registered, some round that brought calls was at most 240 seconds ago,
    and the thread looks again before the timeout of the connection has passed since then (or
    after a tenth of a second); or the connection was made less than 10 seconds ago. *)
Theorem open_connections_alive rounds r t0 wait evs c wait' :
  (∀ r', r' ∈ rounds ++ [r] → t0 ≤ r_now r' ≤ r_now r) → r_now r - t0 < 2 ^ 31 →
  run_loop (rounds ++ [r]) wait (new_connection t0) = (evs, c, Some wait') →
  match c_object c with
  | Some (ConnObject _ true) =>
      ∃ r', r' ∈ rounds ++ [r] ∧ r_calls r' ≠ [] ∧ r_now r - r_now r' < c_activity_timeout c ≤ 240
      ∧ WAIT_USEC_MIN ≤ wait'
      ∧ (wait' ≤ WAIT_USEC_MIN
         ∨ r_now r * 1000000 + wait' ≤ (r_now r' + c_activity_timeout c) * 1000000)
  | _ => r_now r - t0 < 10
  end.
Proof.
  intros Ht Hb Hrun. assert (H0 : lived t0 [] (new_connection t0)).
  { split; [done| |by left]. unfold ACTIVITY_TIMEOUT_MIN, ACTIVITY_TIMEOUT_MAX. by cbn. }
  apply (run_goes_on t0 rounds [] r _ _ _ _ _ H0) in Hrun as [[Hi Hto Ha] Hg].
  unfold goes_on in Hg. rewrite Hi in Hg. destruct (c_object c) as [[k [|]]|]; [|done..].
  destruct Ha as [? | (r' & Hr & Hn & E)]; [done|]. exists r'. cbn in Hr, Hg.
  specialize (Ht r' Hr). rewrite E in Hg. rewrite (i32_id (r_now r - r_now r')) in Hg by (unfold is_i32; lia).
  unfold ACTIVITY_TIMEOUT_MIN, ACTIVITY_TIMEOUT_MAX, WAIT_USEC_MIN in *.
  destruct Hg as (H1 & H2 & H3). rewrite i32_id in H3 by (unfold is_i32; lia). split_and!; try done; lia.
Qed.

(** ** The limit of registrations that wait *)

Record conn_limits := Limits { alert_time : Z; exceeded_time : Z; reject_all : bool }.

Definition no_limits : conn_limits := Limits 0 0 false.

(** [log_limits] at a time, with the number of registrations that wait and the limit. *)
Definition log_limits (now pending limit : Z) (l : conn_limits) : conn_limits :=
  if (0 <? limit) && (limit <=? pending) then
    if alert_time l =? 0 then Limits now now (reject_all l)
    else if 600 <=? now - alert_time l then Limits now now true
    else Limits (alert_time l) now (reject_all l)
  else if negb (exceeded_time l =? 0) && (10 <=? now - exceeded_time l)
  then Limits 0 0 false else l.

(** [local_ipv4] has the addresses before the zero that ends the array. *)
Definition is_connection_allowed (pending limit : Z) (local_ipv4 : list Z) (ipv4 : Z) (l : conn_limits)
    : bool :=
  if reject_all l then false
  else if (0 <? limit) && (limit <=? pending)
  then existsb (Z.eqb ipv4) local_ipv4
  else true.

(** ** The objects that are connected

    An object is its pointer, its identifier and its GUID; the list has weak pointers, and [alive]
    tells which objects still exist. *)

Record object := Object { ptr : Z; obj_id : Z; guid : Z }.

#[export] Instance object_eq_dec : EqDecision object.
Proof. solve_decision. Defined.

Section objects.
Variable alive : Z → bool.

(** The loop of [add]: whether the object is in the list, the last one that is replaced, and the
    objects that stay. *)
Definition replaces (obj o : object) : bool := (obj_id o =? obj_id obj) || (guid o =? guid obj).

Fixpoint add_loop (obj : object) (l : list object) (exists_ : bool) (previous : option object)
    : bool * option object * list object :=
  match l with
  | [] => (exists_, previous, [])
  | o :: rest =>
      if negb (alive (ptr o)) then add_loop obj rest exists_ previous
      else if ptr o =? ptr obj then
        let '(e, p, r) := add_loop obj rest true previous in (e, p, o :: r)
      else if replaces obj o then add_loop obj rest exists_ (Some o)
      else let '(e, p, r) := add_loop obj rest exists_ previous in (e, p, o :: r)
  end.

(** [add]: whether the object was added, the one that is terminated, and the list; what the caller
    does with each one that is replaced, [on_previous], has no part in this. *)
Definition objects_add (obj : object) (l : list object) : bool * option object * list object :=
  let '(exists_, previous, r) := add_loop obj l false None in
  if exists_ then (false, None, r) else (true, previous, r ++ [obj]).

Definition objects_get (id : Z) (l : list object) : option object :=
  if id =? 0 then None else find_first (λ o, alive (ptr o) && (obj_id o =? id)) l.

Definition objects_count (l : list object) : nat := length (filter (λ o, alive (ptr o)) l).

(** *** No two are the same *)

Definition kept (obj o : object) : bool :=
  alive (ptr o) && ((ptr o =? ptr obj) || negb (replaces obj o)).

Definition replaced (obj o : object) : bool :=
  alive (ptr o) && negb (ptr o =? ptr obj) && replaces obj o.

Lemma add_loop_spec obj (l : list object) e p :
  add_loop obj l e p
  = (e || existsb (λ o, alive (ptr o) && (ptr o =? ptr obj)) l,
     (match last (filter (λ o, replaced obj o = true) l) with Some o => Some o | None => p end),
     filter (λ o, kept obj o = true) l).
Proof using Type.
  revert e p. induction l as [|o l IH]; intros e p; [by rewrite orb_false_r|].
  cbn [add_loop existsb]. unfold kept, replaced. rewrite !filter_cons.
  destruct (alive (ptr o)); cbn [negb andb]; [|apply IH].
  destruct (ptr o =? ptr obj); cbn [negb andb orb].
  - rewrite IH. by rewrite orb_true_l, orb_true_r.
  - destruct (replaces obj o); cbn [negb].
    + rewrite IH. rewrite decide_True, decide_False by done. f_equal. f_equal.
      rewrite last_cons. by destruct (last _).
    + rewrite IH. reflexivity.
Qed.

(** No two objects that exist have the same identifier, nor the same GUID. *)
Definition registry_ok (l : list object) : Prop :=
  let l := filter (λ o, alive (ptr o) = true) l in NoDup (obj_id <$> l) ∧ NoDup (guid <$> l).

Lemma NoDup_filter_keys {A} (key : A → Z) (P : A → Prop) `{∀ x, Decision (P x)} (l : list A) :
  NoDup (key <$> l) → NoDup (key <$> filter P l).
Proof using Type.
  clear. induction l as [|x l IH]; cbn; [done|]. intros [Hx Hl]%NoDup_cons.
  destruct (decide (P x)); [|by apply IH]. cbn. apply NoDup_cons. split; [|by apply IH].
  intros (y & Ey & Hy)%list_elem_of_fmap. apply Hx. rewrite Ey. apply list_elem_of_fmap_2.
  by apply list_elem_of_filter in Hy as [_ Hy].
Qed.

Lemma filter_alive_kept obj (l : list object) :
  filter (λ o, alive (ptr o) = true) (filter (λ o, kept obj o = true) l)
  = filter (λ o, kept obj o = true) (filter (λ o, alive (ptr o) = true) l).
Proof using Type.
  rewrite !list_filter_filter. apply list_filter_iff. intros o. tauto.
Qed.

Lemma registry_kept obj (l : list object) : registry_ok l → registry_ok (filter (λ o, kept obj o = true) l).
Proof using Type.
  intros [H1 H2]. unfold registry_ok. rewrite filter_alive_kept. cbn zeta.
  split; by apply NoDup_filter_keys.
Qed.

Lemma key_inj {A} (key : A → Z) (l : list A) x y :
  NoDup (key <$> l) → x ∈ l → y ∈ l → key x = key y → x = y.
Proof using Type.
  clear. induction l as [|z l IH]; cbn; [by intros _ ?%elem_of_nil|]. intros [Hz Hl]%NoDup_cons.
  intros [-> | Hx]%elem_of_cons [-> | Hy]%elem_of_cons E; [done| | |by apply IH].
  - exfalso. apply Hz. rewrite E. by apply list_elem_of_fmap_2.
  - exfalso. apply Hz. rewrite <- E. by apply list_elem_of_fmap_2.
Qed.

Lemma elem_of_kept obj (l : list object) o : o ∈ filter (λ o, kept obj o = true) l ↔
  o ∈ l ∧ alive (ptr o) = true ∧ (ptr o =? ptr obj) || negb (replaces obj o) = true.
Proof using Type.
  rewrite list_elem_of_filter. unfold kept. rewrite andb_true_iff. tauto.
Qed.

Lemma kept_or_replaced obj (l : list object) o : o ∈ l → alive (ptr o) = true →
  o ∈ filter (λ o, kept obj o = true) l ∨ replaces obj o = true.
Proof using Type.
  intros Ho Ha. destruct (replaces obj o) eqn:Er; [by right|]. left. apply elem_of_kept.
  rewrite Er. cbn. by rewrite orb_true_r.
Qed.

Lemma fresh_kept obj (l : list object) o :
  existsb (λ o, alive (ptr o) && (ptr o =? ptr obj)) l = false → o ∈ l → alive (ptr o) = true →
  (ptr o =? ptr obj) || negb (replaces obj o) = true → replaces obj o = false.
Proof using Type.
  intros He Ho Ha [Hp | Hr]%orb_true_iff; [|by apply negb_true_iff].
  assert (existsb (λ o, alive (ptr o) && (ptr o =? ptr obj)) l = true); [|congruence].
  apply existsb_exists. exists o. split; [by apply list_elem_of_In|]. by rewrite Ha, Hp.
Qed.

Lemma registry_app obj (l : list object) : alive (ptr obj) = true → registry_ok l →
  (∀ o, o ∈ l → replaces obj o = false) → registry_ok (l ++ [obj]).
Proof using Type.
  intros Ha [H1 H2] Hf. unfold registry_ok. cbn zeta in *. rewrite filter_app.
  assert (E : filter (λ o, alive (ptr o) = true) [obj] = [obj]).
  { cbn. by rewrite decide_True by done. }
  rewrite E, !fmap_app.
  assert (Hnot : ∀ o, o ∈ filter (λ o, alive (ptr o) = true) l →
            obj_id o ≠ obj_id obj ∧ guid o ≠ guid obj).
  { intros o [_ Ho]%list_elem_of_filter. apply Hf, orb_false_iff in Ho as [?%Z.eqb_neq ?%Z.eqb_neq].
    done. }
  split; apply NoDup_app; (split_and!; [done| |apply NoDup_singleton]);
    intros z (o & -> & Ho)%list_elem_of_fmap Hz%list_elem_of_singleton;
    by destruct (Hnot o Ho).
Qed.

Lemma get_unique obj (l : list object) : alive (ptr obj) = true → obj_id obj ≠ 0 → obj ∈ l → registry_ok l →
  objects_get (obj_id obj) l = Some obj.
Proof using Type.
  intros Ha Hid Ho [H1 _]. unfold objects_get. rewrite (proj2 (Z.eqb_neq _ _) Hid).
  destruct (find_first _ l) as [o|] eqn:Ef.
  - apply find_first_Some in Ef as [[Hao Ei%Z.eqb_eq]%andb_true_iff Hol]. f_equal.
    apply (key_inj obj_id _ o obj H1); [by apply list_elem_of_filter..|done].
  - pose proof (proj1 (find_first_None _ _) Ef obj Ho) as Hn. cbn in Hn.
    by rewrite Ha, Z.eqb_refl in Hn.
Qed.

Lemma last_replaced obj (l : list object) o : registry_ok l →
  (∀ o, o ∈ l → (obj_id o = obj_id obj ↔ guid o = guid obj)) →
  o ∈ l → alive (ptr o) = true → ptr o ≠ ptr obj → o ∉ filter (λ o, kept obj o = true) l →
  match last (filter (λ o, replaced obj o = true) l) with Some o => Some o | None => None end
  = Some o.
Proof using Type.
  intros [H1 _] Hboth Ho Ha Hp Hk.
  assert (Hr : ∀ o, o ∈ filter (λ o, replaced obj o = true) l →
            o ∈ filter (λ o, alive (ptr o) = true) l ∧ obj_id o = obj_id obj).
  { intros o' [[[Ha' _]%andb_true_iff Hr]%andb_true_iff Ho']%list_elem_of_filter.
    split; [by apply list_elem_of_filter|].
    apply orb_true_iff in Hr as [?%Z.eqb_eq | ?%Z.eqb_eq]; [done|by apply Hboth]. }
  assert (Hin : o ∈ filter (λ o, replaced obj o = true) l).
  { apply list_elem_of_filter. split; [|done]. unfold replaced.
    rewrite Ha, (proj2 (Z.eqb_neq _ _) Hp). cbn.
    by destruct (kept_or_replaced obj l o Ho Ha). }
  destruct (last (filter (λ o, replaced obj o = true) l)) as [o'|] eqn:El.
  - f_equal. apply last_Some_elem_of in El.
    apply (key_inj obj_id _ o' o H1); [by apply Hr..|].
    by rewrite (proj2 (Hr o' El)), (proj2 (Hr o Hin)).
  - apply last_None in El. rewrite El in Hin. by apply elem_of_nil in Hin.
Qed.

(** C22. An object that connects takes the place of those that were there before. Whatever objects
    come to an end, the devices (or clients) of a user that exist have different identifiers and
    GUIDs; after an object has been added it is the one that is found by its identifier; only
    objects with its identifier or its GUID are taken from the list; and of those that are taken
    away the last one is terminated, so that, as long as identifiers and GUIDs belong together,
    each of them is. (Otherwise two can be taken away, of which the first goes on:
    [only_last_terminated].) *)
Theorem registry_replaces obj (l : list object) : alive (ptr obj) = true → obj_id obj ≠ 0 → registry_ok l →
  (∀ o, o ∈ l → ptr o = ptr obj → o = obj) →
  let '(added, terminated, l') := objects_add obj l in
  registry_ok l' ∧ objects_get (obj_id obj) l' = Some obj
  ∧ (∀ o, o ∈ l → alive (ptr o) = true → o ∈ l' ∨ replaces obj o = true)
  ∧ (obj ∉ l → terminated = last (filter (λ o, replaced obj o = true) l))
  ∧ (obj ∉ l → (∀ o, o ∈ l → (obj_id o = obj_id obj ↔ guid o = guid obj)) →
     ∀ o, o ∈ l → alive (ptr o) = true → o ∉ l' → terminated = Some o).
Proof using Type.
  intros Ha Hid Hok Hptr. unfold objects_add. rewrite add_loop_spec. cbn [orb].
  destruct (existsb _ l) eqn:Ee.
  - apply existsb_exists in Ee as (o & Ho & [_ Ep%Z.eqb_eq]%andb_true_iff).
    apply list_elem_of_In in Ho. rewrite (Hptr o Ho Ep) in Ho.
    assert (Hk : obj ∈ filter (λ o, kept obj o = true) l).
    { apply elem_of_kept. by rewrite Z.eqb_refl. }
    split; [by apply registry_kept|].
    split; [apply get_unique; [done..|by apply registry_kept]|].
    split; [|by split]. intros o' Ho' Hao. by apply kept_or_replaced.
  - assert (Hfresh : ∀ o, o ∈ filter (λ o, kept obj o = true) l → replaces obj o = false).
    { intros o (Ho & Hao & Hk)%elem_of_kept. by apply (fresh_kept obj l o). }
    pose proof (registry_app obj _ Ha (registry_kept obj l Hok) Hfresh) as Hok'.
    split; [done|]. split; [apply get_unique; try done; apply elem_of_app; right; left|].
    split.
    { intros o Ho Hao. destruct (kept_or_replaced obj l o Ho Hao); [left; apply elem_of_app; by left|by right]. }
    split; [by destruct (last _)|]. intros _ Hboth o Ho Hao Hno. apply (last_replaced obj l o Hok Hboth Ho Hao).
    { intros Ep. assert (existsb (λ o, alive (ptr o) && (ptr o =? ptr obj)) l = true); [|congruence].
      apply existsb_exists. exists o. split; [by apply list_elem_of_In|].
      by rewrite Hao, Ep, Z.eqb_refl. }
    intros Hk. apply Hno, elem_of_app. by left.
Qed.

End objects.

Lemma registry_replaces_witness :
  let alive := λ p, p <? 10 in
  let l := [Object 1 5 77; Object 2 6 78; Object 11 7 79] in
  registry_ok alive l ∧
  let '(added, terminated, l') := objects_add alive (Object 3 5 77) l in
  registry_ok alive l' ∧ objects_get alive 5 l' = Some (Object 3 5 77)
  ∧ (∀ o, o ∈ l → (ptr o <? 10) = true → o ∈ l' ∨ replaces (Object 3 5 77) o = true)
  ∧ (Object 3 5 77 ∉ l →
     terminated = last (filter (λ o, replaced alive (Object 3 5 77) o = true) l))
  ∧ (Object 3 5 77 ∉ l → (∀ o, o ∈ l → (obj_id o = 5 ↔ guid o = 77)) →
     ∀ o, o ∈ l → (ptr o <? 10) = true → o ∉ l' → terminated = Some o).
Proof.
  cbn zeta. assert (H : registry_ok (λ p, p <? 10) [Object 1 5 77; Object 2 6 78; Object 11 7 79]).
  { split; apply (bool_decide_unpack _); vm_compute; exact I. }
  split; [exact H|].
  apply (registry_replaces (λ p, p <? 10) (Object 3 5 77)); [reflexivity|discriminate|exact H|].
  intros o Ho%list_elem_of_In Hp. exfalso. cbn in Ho, Hp.
  destruct Ho as [<- | [<- | [<- | []]]]; discriminate Hp.
Defined.

Definition sample_device : round :=
  Round [Call SUPLA_DS_CALL_REGISTER_DEVICE_G SUPLA_PROTO_VERSION 0 true;
         Call SUPLA_DCS_CALL_SET_ACTIVITY_TIMEOUT SUPLA_PROTO_VERSION 60 false] true 103 120000000
    false false.

Definition sample_wait : round := Round [] true 150 120000000 false false.

Lemma open_connections_alive_witness :
  ∃ r', r' ∈ [sample_device; sample_wait] ∧ r_calls r' ≠ [] ∧ 150 - r_now r' < 60 ≤ 240
  ∧ WAIT_USEC_MIN ≤ 13000000
  ∧ (13000000 ≤ WAIT_USEC_MIN ∨ 150 * 1000000 + 13000000 ≤ (r_now r' + 60) * 1000000).
Proof.
  apply (open_connections_alive [sample_device] sample_wait 100 WAIT_USEC_MIN
           (run_loop [sample_device; sample_wait] WAIT_USEC_MIN (new_connection 100)).1.1
           (run_loop [sample_device; sample_wait] WAIT_USEC_MIN (new_connection 100)).1.2).
  - intros r Hr%list_elem_of_In. cbn in Hr.
    destruct Hr as [<- | [<- | []]]; cbn; split; intros [=].
  - reflexivity.
  - vm_compute. reflexivity.
Defined.

(** ** What the definitions show *)

(** Of two objects that are taken away from the list, the first is not terminated: it still runs,
    but is not found any more. *)
Lemma only_last_terminated :
  objects_add (λ _, true) (Object 3 5 78) [Object 1 5 77; Object 2 6 78]
  = (true, Some (Object 2 6 78), [Object 3 5 78]).
Proof. reflexivity. Qed.

(** A peer that asks for the version first is a device, so that it cannot register as a client; a
    client that registers at once can ask for the version afterwards. *)
Lemma version_makes_device :
  let get := Call SUPLA_DCS_CALL_GETVERSION SUPLA_PROTO_VERSION 0 false in
  let reg := Call SUPLA_CS_CALL_REGISTER_CLIENT_D SUPLA_PROTO_VERSION 0 true in
  let run calls := (run_loop [Round calls true 0 0 false false] 0 (new_connection 0)).1.2 in
  (c_object (run [get; reg]), c_unhandled (run [get; reg])) = (Some (ConnObject KDevice false), 1)
  ∧ (c_object (run [reg; get]), c_unhandled (run [reg; get])) = (Some (ConnObject KClient true), 0).
Proof. by vm_compute. Qed.

(** Too many registrations that wait for ten minutes make the server reject all connections, the
    local ones too, until there have been fewer for ten seconds. *)
Lemma limits_recover now pending limit l :
  reject_all l = true → 10 ≤ now - exceeded_time l → exceeded_time l ≠ 0 →
  (0 <? limit) && (limit <=? pending) = false →
  log_limits now pending limit l = no_limits
  ∧ ∀ local ip, is_connection_allowed pending limit local ip l = false
                ∧ is_connection_allowed pending limit local ip (log_limits now pending limit l) = true.
Proof.
  intros Hr Ht Hn Hl. assert (E : log_limits now pending limit l = no_limits).
  { unfold log_limits. rewrite Hl, (proj2 (Z.eqb_neq _ _) Hn), (proj2 (Z.leb_le _ _) Ht). done. }
  split; [done|]. intros local ip. rewrite E. unfold is_connection_allowed. by rewrite Hr, Hl.
Qed.

(** The wait of a sleeping object takes as long as it has said. *)
Lemma sleep_steps_sum fuel msec :
  0 ≤ msec ≤ 1000 * Z.of_nat fuel → foldr Z.add 0 (sleep_steps fuel msec) = msec * 1000.
Proof.
  revert msec. induction fuel as [|fuel IH]; intros msec H; [cbn; lia|]. cbn [sleep_steps].
  destruct (Z.leb_spec msec 0); [cbn; lia|]. destruct (Z.leb_spec 1000 msec); cbn [foldr]; [|lia].
  rewrite IH; lia.
Qed.

Lemma sleep_until_wakeup_sum msec :
  0 ≤ msec → foldr Z.add 0 (sleep_until_wakeup msec) = msec * 1000.
Proof. intros H. unfold sleep_until_wakeup. apply sleep_steps_sum. lia. Qed.
