(* ===== verification/AuthkeyCache.v ===== *)
(** * AuthkeyCache: the cache of authentications
    (supla-server/src/conn/authkey_cache.cpp)

    Devices and clients authenticate with their GUID, the e-mail address of the
    account and a key; the answers of the database are kept in a list that is
    searched first.  The search and the insertion are each made under the lock
    of the list, the query of the database between them is not. *)

From S2P Require Import Prelude.

Definition SUPLA_EMAIL_MAXSIZE : nat := 256.

Record authkey_cache_item_t := Item {
  it_guid : list Z;
  it_email : list Z;
  it_authkey : list Z;
  it_user_id : Z;
  it_result : bool
}.

Definition tolower (c : Z) : Z := if (65 <=? c) && (c <=? 90) then c + 32 else c.

(** [email]: the characters before the terminating NUL. *)
Definition lc_email (email : list Z) : list Z :=
  tolower <$> take SUPLA_EMAIL_MAXSIZE email.

Definition key_matches (guid email authkey : list Z) (i : authkey_cache_item_t) : bool :=
  bool_decide (it_email i = lc_email email) && bool_decide (it_guid i = guid)
  && bool_decide (it_authkey i = authkey).

(** [limit]: the configured value. *)
Definition get_cache_size_limit (limit : Z) : Z := if 0 <=? limit then limit else 0.

(** The first locked section: the item, which moves to the front. *)
Definition cache_lookup (guid email authkey : list Z) (items : list authkey_cache_item_t)
    : option authkey_cache_item_t * list authkey_cache_item_t :=
  match find_first (key_matches guid email authkey) items with
  | Some i => (Some i, i :: erase_first (key_matches guid email authkey) items)
  | None => (None, items)
  end.

(** The second locked section: a new item, or one of the older half that is
    overwritten; [usec] is the time's microseconds. *)
Definition cache_store (limit usec : Z) (i : authkey_cache_item_t)
    (items : list authkey_cache_item_t) : list authkey_cache_item_t :=
  let count := Z.of_nat (length items) in
  if limit <=? count then
    let idx := count / 2 in
    let idx := if 0 <? idx then count - 1 - usec mod idx else idx in
    <[Z.to_nat idx := i]> items
  else items ++ [i].

(** [authkey_auth]: the result, the value written to [*user_id] if any, the
    cache. [db] is the answer of the database: the result and the user
    identifier it writes. [user_id] is the value of [*user_id] before. *)
Definition authkey_auth (limit usec : Z) (guid email authkey : list Z) (user_id : Z)
    (db : bool * option Z) (items : list authkey_cache_item_t)
    : bool * Z * list authkey_cache_item_t :=
  if 0 <? get_cache_size_limit limit then
    match cache_lookup guid email authkey items with
    | (Some i, items) => (it_result i, it_user_id i, items)
    | (None, items) =>
        let user_id := default user_id db.2 in
        (db.1, user_id,
         cache_store (get_cache_size_limit limit) usec
           (Item guid (lc_email email) authkey user_id db.1) items)
    end
  else (db.1, default user_id db.2, items).

(** ** Interleavings of the threads

    The locked sections of the calls of all threads, in any order; a store
    carries the answer the database gave to its thread. *)

Inductive cache_event :=
  | CLookup (guid email authkey : list Z)
  | CStore (usec : Z) (guid email authkey : list Z) (user_id : Z) (result : bool).

Definition cache_step (limit : Z) (e : cache_event) (items : list authkey_cache_item_t)
    : option authkey_cache_item_t * list authkey_cache_item_t :=
  match e with
  | CLookup g m k => cache_lookup g m k items
  | CStore usec g m k u r =>
      (None, cache_store (get_cache_size_limit limit) usec (Item g (lc_email m) k u r) items)
  end.

Fixpoint cache_after (limit : Z) (l : list cache_event) (items : list authkey_cache_item_t)
    : list authkey_cache_item_t :=
  match l with
  | [] => items
  | e :: l => cache_after limit l (cache_step limit e items).2
  end.

(** What the database has answered among the events. *)
Definition db_answered (l : list cache_event) (i : authkey_cache_item_t) : Prop :=
  ∃ usec m, CStore usec (it_guid i) m (it_authkey i) (it_user_id i) (it_result i) ∈ l
            ∧ lc_email m = it_email i.

(** ** Lemmas *)

Lemma elem_of_insert_list {A} (x y : A) n (l : list A) :
  y ∈ <[n := x]> l → y = x ∨ y ∈ l.
Proof.
  intros H. apply list_elem_of_lookup in H as [i Hi].
  apply list_lookup_insert_Some in Hi as [(-> & -> & _)|(_ & Hi)]; [by left|].
  right. by eapply list_elem_of_lookup_2.
Qed.

Lemma cache_lookup_perm g m k items :
  (cache_lookup g m k items).2 ≡ₚ items.
Proof.
  unfold cache_lookup. destruct (find_first _ items) as [i|] eqn:E; [|done]. cbn.
  destruct (erase_first_Some _ _ _ E) as (l1 & l2 & -> & -> & _ & _).
  apply Permutation_middle.
Qed.

Lemma cache_step_items limit e items i :
  i ∈ (cache_step limit e items).2 →
  i ∈ items ∨ ∃ usec g m k u r, e = CStore usec g m k u r ∧ i = Item g (lc_email m) k u r.
Proof.
  destruct e as [g m k|usec g m k u r]; cbn [cache_step snd].
  - rewrite cache_lookup_perm. by left.
  - unfold cache_store. destruct (_ <=? _).
    + intros [-> |?]%elem_of_insert_list; [right; by repeat eexists|by left].
    + intros [?| ->%list_elem_of_singleton]%elem_of_app; [by left|right; by repeat eexists].
Qed.

Lemma cache_step_length limit e items :
  0 < get_cache_size_limit limit →
  Z.of_nat (length items) <= get_cache_size_limit limit →
  Z.of_nat (length (cache_step limit e items).2) <= get_cache_size_limit limit.
Proof.
  intros Hl Hlen. destruct e as [g m k|usec g m k u r]; cbn [cache_step snd].
  - by rewrite (Permutation_length (cache_lookup_perm g m k items)).
  - unfold cache_store. destruct (Z.leb_spec (get_cache_size_limit limit)
      (Z.of_nat (length items))); [by rewrite length_insert|].
    rewrite length_app. cbn. lia.
Qed.

Lemma cache_after_items limit l : ∀ items i,
  i ∈ cache_after limit l items → i ∈ items ∨ db_answered l i.
Proof.
  induction l as [|e l IH]; intros items i Hi; [by left|].
  destruct (IH _ _ Hi) as [H|(usec & m & H & Hm)].
  - destruct (cache_step_items _ _ _ _ H) as [?|(usec & g & m & k & u & r & -> & ->)];
      [by left|]. right. exists usec, m. split; [apply list_elem_of_here|done].
  - right. exists usec, m. split; [by apply list_elem_of_further|done].
Qed.

Lemma cache_after_length limit l : ∀ items,
  0 < get_cache_size_limit limit →
  Z.of_nat (length items) <= get_cache_size_limit limit →
  Z.of_nat (length (cache_after limit l items)) <= get_cache_size_limit limit.
Proof.
  induction l as [|e l IH]; intros items Hl Hlen; [done|].
  cbn [cache_after]. apply IH; [done|]. by apply cache_step_length.
Qed.

(** C23. However the threads interleave, the cache never exceeds the configured
    size, and what a search finds is an answer of the database to an earlier
    request with the same GUID, key and e-mail address (without regard to case):
    the cache never authorizes what the database has not. *)
Theorem authkey_cache_sound limit events guid email authkey i
    (Hlimit : 0 < limit)
    (Hfound : (cache_lookup guid email authkey (cache_after limit events [])).1 = Some i) :
  Z.of_nat (length (cache_after limit events [])) <= limit
  ∧ it_guid i = guid ∧ it_email i = lc_email email ∧ it_authkey i = authkey
  ∧ db_answered events i.
Proof.
  assert (get_cache_size_limit limit = limit) as Hl
    by (unfold get_cache_size_limit; by replace (0 <=? limit) with true by lia).
  split; [rewrite <- Hl at 2; apply cache_after_length; cbn; lia|].
  unfold cache_lookup in Hfound.
  destruct (find_first _ _) as [x|] eqn:E; [|done]. injection Hfound as ->.
  apply find_first_Some in E as [Hk Hin].
  unfold key_matches in Hk. rewrite !andb_true_iff, !bool_decide_eq_true in Hk.
  destruct Hk as [[? ?] ?]. split_and!; [done..|].
  by destruct (cache_after_items _ _ _ _ Hin) as [?%elem_of_nil|].
Qed.

Definition events_ex : list cache_event :=
  [CLookup [1] [65; 64] [7]; CStore 5 [1] [65; 64] [7] 3 true; CLookup [2] [66] [7];
   CStore 6 [2] [66] [7] 0 false].

Lemma authkey_cache_sound_witness :
  db_answered events_ex (Item [1] [97; 64] [7] 3 true).
Proof.
  refine (proj2 (proj2 (proj2 (proj2
    (authkey_cache_sound 2 events_ex [1] [97; 64] [7] (Item [1] [97; 64] [7] 3 true) _ _))))).
  - lia.
  - reflexivity.
Defined.

Lemma lookup_after_store g m k u r limit usec items :
  find_first (key_matches g m k) items = None →
  0 < get_cache_size_limit limit →
  find_first (key_matches g m k)
    (cache_store (get_cache_size_limit limit) usec (Item g (lc_email m) k u r) items)
  = Some (Item g (lc_email m) k u r).
Proof.
  intros Hn Hl. set (i := Item _ _ _ _ _).
  assert (key_matches g m k i = true) as Hk
    by (unfold key_matches, i; cbn; by rewrite !bool_decide_true).
  unfold cache_store. destruct (Z.leb_spec (get_cache_size_limit limit) (Z.of_nat (length items))).
  - set (idx := if 0 <? _ then _ else _).
    assert (0 <= idx < Z.of_nat (length items)) as Hidx.
    { unfold idx. destruct (Z.ltb_spec 0 (Z.of_nat (length items) / 2)) as [Hp|Hz].
      - pose proof (Z.mod_pos_bound usec _ Hp).
        pose proof (Z.mul_div_le (Z.of_nat (length items)) 2). lia.
      - pose proof (Z.div_pos (Z.of_nat (length items)) 2).
        assert (Z.of_nat (length items) / 2 = 0) by lia. lia. }
    rewrite insert_take_drop by lia. rewrite find_first_app.
    assert (find_first (key_matches g m k) (take (Z.to_nat idx) items) = None) as ->.
    { apply find_first_None. intros x Hx. rewrite find_first_None in Hn. apply Hn.
      rewrite <- (take_drop (Z.to_nat idx) items). apply elem_of_app. by left. }
    cbn. by rewrite Hk.
  - rewrite find_first_app, Hn. cbn. by rewrite Hk.
Qed.

(** A refusal is kept too, without limit of time: once the database has
    refused a request (or could not be asked, which the caller cannot tell),
    the same request is refused again whatever the database would answer now. *)
Theorem authkey_refusal_kept limit usec usec' guid email authkey user_id user_id' db db' items
    (Hlimit : 0 < limit)
    (Hnew : find_first (key_matches guid email authkey) items = None)
    (Hdb : db.1 = false) :
  let after := (authkey_auth limit usec guid email authkey user_id db items).2 in
  (authkey_auth limit usec' guid email authkey user_id' db' after).1.1 = false.
Proof.
  unfold authkey_auth.
  assert (0 < get_cache_size_limit limit) as Hl
    by (unfold get_cache_size_limit; destruct (0 <=? limit) eqn:?; lia).
  rewrite (proj2 (Z.ltb_lt _ _) Hl). unfold cache_lookup at 2. rewrite Hnew. cbn zeta.
  cbn [snd]. unfold cache_lookup. rewrite lookup_after_store by done. exact Hdb.
Qed.

Lemma authkey_refusal_kept_witness :
  (authkey_auth 10 0 [1] [65] [7] 0 (true, Some 3)
     (authkey_auth 10 0 [1] [65] [7] 0 (false, None) []).2).1.1 = false.
Proof.
  apply (authkey_refusal_kept 10 0 0 [1] [65] [7] 0 0 (false, None) (true, Some 3) []).
  - lia.
  - reflexivity.
  - reflexivity.
Defined.
