(* ===== verification/RegisterObject.v ===== *)
(** * RegisterObject: what the registrations of devices and clients share
    (supla-server/src/conn/call_handler/abstract_register_object.cpp)

    The connection to the database with its transaction, the result codes, and
    the authentication with an e-mail address and a key. The tables and their
    queries are a parameter: a type of database states with the answers of the
    queries (ObjectDao here, the classes of the clients of this file there). *)

From S2P Require Import Prelude AuthkeyCache.

(** ** Constants (proto.h) *)

Definition SUPLA_RESULTCODE_TRUE : Z := 3.
Definition SUPLA_RESULTCODE_TEMPORARILY_UNAVAILABLE : Z := 4.
Definition SUPLA_RESULTCODE_BAD_CREDENTIALS : Z := 5.
Definition SUPLA_RESULTCODE_LOCATION_CONFLICT : Z := 6.
Definition SUPLA_RESULTCODE_CHANNEL_CONFLICT : Z := 7.
Definition SUPLA_RESULTCODE_DEVICE_DISABLED : Z := 8.
Definition SUPLA_RESULTCODE_ACCESSID_DISABLED : Z := 9.
Definition SUPLA_RESULTCODE_LOCATION_DISABLED : Z := 10.
Definition SUPLA_RESULTCODE_CLIENT_DISABLED : Z := 11.
Definition SUPLA_RESULTCODE_CLIENT_LIMITEXCEEDED : Z := 12.
Definition SUPLA_RESULTCODE_DEVICE_LIMITEXCEEDED : Z := 13.
Definition SUPLA_RESULTCODE_GUID_ERROR : Z := 14.
Definition SUPLA_RESULTCODE_DEVICE_LOCKED : Z := 15.
Definition SUPLA_RESULTCODE_REGISTRATION_DISABLED : Z := 17.
Definition SUPLA_RESULTCODE_ACCESSID_NOT_ASSIGNED : Z := 18.
Definition SUPLA_RESULTCODE_AUTHKEY_ERROR : Z := 19.
Definition SUPLA_RESULTCODE_NO_LOCATION_AVAILABLE : Z := 20.
Definition SUPLA_RESULTCODE_INACTIVE : Z := 31.
Definition SUPLA_RESULTCODE_CFG_MODE_REQUESTED : Z := 32.
Definition SUPLA_RESULTCODE_CLIENT_NOT_EXISTS : Z := 36.
Definition SUPLA_RESULTCODE_RESTART_REQUESTED : Z := 42.
Definition SUPLA_RESULTCODE_IDENTIFY_REQUESTED : Z := 43.

Definition SUPLA_GUID_SIZE : nat := 16.
Definition SUPLA_AUTHKEY_SIZE : nat := 16.

(** [is_valid_guid], [is_valid_authkey]: some byte is not zero. *)
Definition is_valid_guid (guid : list Z) : bool :=
  negb (bool_decide (take SUPLA_GUID_SIZE guid = replicate SUPLA_GUID_SIZE 0)).
Definition is_valid_authkey (authkey : list Z) : bool :=
  negb (bool_decide (take SUPLA_AUTHKEY_SIZE authkey = replicate SUPLA_AUTHKEY_SIZE 0)).

(** ** The connection to the database

    [saved] is the state of the database at the start of the open transaction. *)

Record dba (DB : Type) := Dba { connected : bool; db : DB; saved : option DB }.
Arguments Dba {DB} _ _ _.
Arguments connected {DB} _.
Arguments db {DB} _.
Arguments saved {DB} _.

Section connection.
Context {DB : Type}.
Implicit Types c : dba DB.

Definition connect (ok : bool) c : bool * dba DB :=
  if connected c then (true, c) else (ok, Dba ok (db c) (saved c)).
Definition start_transaction c : dba DB := Dba (connected c) (db c) (Some (db c)).
Definition commit c : dba DB := Dba (connected c) (db c) None.
Definition rollback c : dba DB := Dba (connected c) (default (db c) (saved c)) None.

(** The server of the database rolls back an open transaction. *)
Definition disconnect c : dba DB := Dba false (default (db c) (saved c)) None.

Definition write (f : DB → DB) c : dba DB := Dba (connected c) (f (db c)) (saved c).
End connection.

(** ** Handlers

    The state of a registration: the connection to the database, the fields of
    the handler, and what it has done to the rest of the server and sent. *)

Record reg (DB V E : Type) := Reg { r_dba : dba DB; r_vars : V; r_out : list E }.
Arguments Reg {DB V E} _ _ _.
Arguments r_dba {DB V E} _.
Arguments r_vars {DB V E} _.
Arguments r_out {DB V E} _.

Section state.
Context {DB V E : Type}.

Definition get_db : M (reg DB V E) DB := gets (λ s, db (r_dba s)).
Definition get_vars : M (reg DB V E) V := gets r_vars.
Definition set_dba (f : dba DB → dba DB) : M (reg DB V E) unit :=
  modify (λ s, Reg (f (r_dba s)) (r_vars s) (r_out s)).
Definition set_vars (f : V → V) : M (reg DB V E) unit :=
  modify (λ s, Reg (r_dba s) (f (r_vars s)) (r_out s)).
Definition emit (e : E) : M (reg DB V E) unit :=
  modify (λ s, Reg (r_dba s) (r_vars s) (r_out s ++ [e])).
End state.

(** ** Authentication *)

Class ObjectDao (DB : Type) := {
  get_user_id_by_email : DB → list Z → Z;
  (* [None]: the query failed; [Some 0]: there is none *)
  get_object_id : DB → Z → list Z → option Z;
  (* [None]: the query failed; [Some None]: the column is null *)
  get_authkey_hash : DB → Z → option (option (list Z));
  st_bcrypt_check : list Z → list Z → bool
}.

Definition hex_digit (d : Z) : Z := if d <? 10 then 48 + d else 55 + d.

Definition st_bin2hex (src : list Z) : list Z :=
  mjoin ((λ b, [hex_digit (b / 16 mod 16); hex_digit (b mod 16)]) <$> src).

Definition st_authkey2hex (authkey : list Z) : list Z :=
  st_bin2hex (take SUPLA_AUTHKEY_SIZE authkey).

(** The function that [authkey_auth] passes to the cache: the result, and the
    user identifier it writes. *)
Definition db_authkey_auth `{ObjectDao DB} (d : DB) (guid email authkey : list Z)
    : bool * option Z :=
  let _user_id := get_user_id_by_email d email in
  if _user_id =? 0 then (false, None)
  else
    match get_object_id d _user_id guid with
    | None => (false, None)
    | Some id =>
        if id =? 0 then (true, Some _user_id)
        else
          match get_authkey_hash d id with
          | None => (false, None)
          | Some None => (true, Some _user_id)
          | Some (Some hash) =>
              if st_bcrypt_check (st_authkey2hex authkey) hash
              then (true, Some _user_id) else (false, None)
          end
    end.

(** The configured size of the cache, the clock, and the cache. *)
Record auth_env := AuthEnv {
  ae_limit : Z;
  ae_usec : Z;
  ae_items : list authkey_cache_item_t
}.

Definition object_authkey_auth `{ObjectDao DB} (env : auth_env) (d : DB)
    (guid email authkey : list Z) (user_id : Z) : bool * Z :=
  (authkey_auth (ae_limit env) (ae_usec env) guid email authkey user_id
     (db_authkey_auth d guid email authkey) (ae_items env)).1.
