(* ===== verification/RegisterDevice.v ===== *)
(** * RegisterDevice: the registration of a device
    (supla-server/src/device/call_handler/abstract_register_device.cpp)

    The handler as a program over its fields, the connection to the database and
    the messages it sends; the queries and updates of the device tables are a
    parameter (class DeviceDao). *)

From S2P Require Import Prelude ChannelFunctions AuthkeyCache RegisterObject.

(** ** Constants (proto.h) *)

Definition SUPLA_CHANNELMAXCOUNT : nat := 128.
Definition SUPLA_DEVICE_NAME_MAXSIZE : nat := 201.
Definition SUPLA_DEVICE_FLAG_SLEEP_MODE_ENABLED : Z := 32.
Definition SUPLA_DEVICE_FLAG_DEVICE_LOCKED : Z := 256.
Definition SUPLA_CALCFG_CMD_ENTER_CFG_MODE : Z := 9000.
Definition SUPLA_CALCFG_CMD_IDENTIFY_DEVICE : Z := 9300.
Definition SUPLA_CALCFG_CMD_RESTART_DEVICE : Z := 9400.
Definition CHANNEL_REPORT_MAXSIZE : nat := 256.
Definition CHANNEL_REPORT_CHANNEL_REGISTERED : Z := 1.
Definition CHANNEL_REPORT_INCORRECT_CHANNEL_TYPE : Z := 2.

(** ** Defaults of a channel (device/devicechannel.cpp) *)

(** [(param1, param2)] *)
Definition get_defaults (type func : Z) : Z * Z :=
  let '(p1, p2) := if type =? SUPLA_CHANNELTYPE_DIGIGLASS then (7, 60) else (0, 0) in
  if (func =? 10) || (func =? 90) then (6000, p2)
  else if (func =? 30) || (func =? 20) then (500, p2) else (p1, p2).

Definition alt_icon_max (func : Z) : Z :=
  if existsb (Z.eqb func) [300; 810; 800; 310; 981] then 1
  else if existsb (Z.eqb func) [140; 20; 60] then 2
  else if existsb (Z.eqb func) [420; 410; 236; 980; 982] then 3
  else if func =? 1010 then 4
  else if func =? 970 then 5
  else if existsb (Z.eqb func) [130; 40; 45] then 7
  else if func =? 1020 then 9
  else if func =? 530 then 14
  else if existsb (Z.eqb func) [520; 700] then 45
  else 0.

Definition trim_alt_icon_index (func alt_icon : Z) : Z :=
  if alt_icon_max func <? alt_icon then 0 else alt_icon.

(** ** The request *)

(** A channel the device declares; the fields a TDS_SuplaDeviceChannel_B does
    not have are 0. *)
Record channel_decl := Chan {
  ch_number : Z;
  ch_type : Z;
  ch_func_list : Z;
  ch_default : Z;
  ch_flags : Z;
  ch_alt_icon : Z;
  ch_sub_device_id : Z
}.

(** TDS_SuplaRegisterDevice_C (with a location and its password) or
    TDS_SuplaRegisterDevice_G (with an e-mail address and a key). *)
Inductive device_credentials :=
  | CredC (location_id : Z) (location_pwd : list Z)
  | CredG (email authkey : list Z) (flags manufacturer_id product_id : Z).

Record register_request := Request {
  rq_guid : list Z;
  rq_name : list Z;
  rq_softver : list Z;
  rq_credentials : device_credentials;
  rq_channel_count : Z;
  rq_channels : list channel_decl
}.

Definition rq_authkey (rq : register_request) : option (list Z) :=
  match rq_credentials rq with CredG _ k _ _ _ => Some k | _ => None end.

(** The channels the loops visit. *)
Definition visited_channels (rq : register_request) : list channel_decl :=
  take (Nat.min SUPLA_CHANNELMAXCOUNT (Z.to_nat (rq_channel_count rq))) (rq_channels rq).

(** ** The database *)

(** What [add_device] and [add_channel] write. *)
Record device_row := DeviceRow {
  dr_location_id : Z; dr_guid : list Z; dr_authkey : option (list Z); dr_name : list Z;
  dr_ipv4 : Z; dr_softver : list Z; dr_proto_version : Z; dr_manufacturer_id : Z;
  dr_product_id : Z; dr_flags : Z; dr_user_id : Z
}.
Record channel_row := ChannelRow {
  cr_device_id : Z; cr_number : Z; cr_type : Z; cr_func : Z; cr_param1 : Z; cr_param2 : Z;
  cr_flist : Z; cr_flags : Z; cr_alt_icon : Z; cr_sub_device_id : Z; cr_user_id : Z
}.

(** What [get_device_variables] gives. *)
Record device_variables := DeviceVars {
  dv_enabled : bool; dv_original_location_id : Z; dv_location_id : Z;
  dv_location_enabled : bool; dv_flags : Z; dv_channel_addition_blocked : bool
}.

Class DeviceDao (DB : Type) := {
  device_object_dao :: ObjectDao DB;
  (* the user of the location and whether it is enabled *)
  location_auth : DB → Z → list Z → option (Z * bool);
  get_device_reg_enabled : DB → Z → bool;
  get_device_limit_left : DB → Z → Z;
  get_location_id : DB → Z → bool → Z;
  add_device_row : DB → device_row → Z * DB;
  get_device_id : DB → Z → list Z → Z;
  get_device_variables : DB → Z → option device_variables;
  (* the identifier (0 if there is none), the type and the functions *)
  get_channel_properties : DB → Z → Z → Z * Z * Z;
  add_channel : DB → channel_row → Z * DB;
  on_channel_added : DB → Z → Z → DB;
  update_channel_functions : DB → Z → Z → Z → DB;
  get_device_channel_count : DB → Z → Z;
  on_new_device : DB → Z → DB;
  update_device : DB → Z → Z → option (list Z) → list Z → Z → list Z → Z → Z → bool * DB;
  (* the numbers and the types *)
  get_channel_fragments : DB → Z → list (Z * Z);
  (* the type of the declared channel if it differs, and whether it is missing *)
  update_channel_conflict_details : DB → Z → Z → option Z → bool → DB
}.

(** ** The fields of the handler *)

Record vars := Vars {
  user_id : Z;
  location_id : Z;
  device_id : Z;
  device_flags : Z;
  location_enabled : bool;
  channel_addition_blocked : bool;
  new_device : bool;
  device_enabled : bool;
  channel_added : bool;
  _location_id : Z;
  _original_location_id : Z;
  should_rollback : bool
}.

(** What the handler does to the device and to the rest of the server. *)
Inductive reg_event :=
  | RResult (result_code : Z)
  | RResultB (result_code : Z) (channel_report_size : Z) (channel_report : list Z)
  | RHold
  | ROnSuccess
  | RAfterSuccess.

Definition dreg (DB : Type) : Type := reg DB vars reg_event.

(** The surroundings of a registration: whether the database can be reached, the
    cache of authentications, the version of the protocol of the connection, the
    address of the device, and the last command for a sleeping device. *)
Record reg_env := RegEnv {
  env_connect_ok : bool;
  env_auth : auth_env;
  env_proto_version : Z;
  env_ipv4 : Z;
  env_last_calcfg : Z
}.

(** Assignments to the fields. *)
Definition set_user_id (x : Z) (v : vars) : vars :=
  Vars x (location_id v) (device_id v) (device_flags v) (location_enabled v)
    (channel_addition_blocked v) (new_device v) (device_enabled v) (channel_added v)
    (_location_id v) (_original_location_id v) (should_rollback v).
Definition set_location_id (x : Z) (v : vars) : vars :=
  Vars (user_id v) x (device_id v) (device_flags v) (location_enabled v)
    (channel_addition_blocked v) (new_device v) (device_enabled v) (channel_added v)
    (_location_id v) (_original_location_id v) (should_rollback v).
Definition set_device_id (x : Z) (v : vars) : vars :=
  Vars (user_id v) (location_id v) x (device_flags v) (location_enabled v)
    (channel_addition_blocked v) (new_device v) (device_enabled v) (channel_added v)
    (_location_id v) (_original_location_id v) (should_rollback v).
Definition set_device_flags (x : Z) (v : vars) : vars :=
  Vars (user_id v) (location_id v) (device_id v) x (location_enabled v)
    (channel_addition_blocked v) (new_device v) (device_enabled v) (channel_added v)
    (_location_id v) (_original_location_id v) (should_rollback v).
Definition set_location_enabled (x : bool) (v : vars) : vars :=
  Vars (user_id v) (location_id v) (device_id v) (device_flags v) x
    (channel_addition_blocked v) (new_device v) (device_enabled v) (channel_added v)
    (_location_id v) (_original_location_id v) (should_rollback v).
Definition set_channel_addition_blocked (x : bool) (v : vars) : vars :=
  Vars (user_id v) (location_id v) (device_id v) (device_flags v) (location_enabled v)
    x (new_device v) (device_enabled v) (channel_added v) (_location_id v)
    (_original_location_id v) (should_rollback v).
Definition set_new_device (x : bool) (v : vars) : vars :=
  Vars (user_id v) (location_id v) (device_id v) (device_flags v) (location_enabled v)
    (channel_addition_blocked v) x (device_enabled v) (channel_added v) (_location_id v)
    (_original_location_id v) (should_rollback v).
Definition set_device_enabled (x : bool) (v : vars) : vars :=
  Vars (user_id v) (location_id v) (device_id v) (device_flags v) (location_enabled v)
    (channel_addition_blocked v) (new_device v) x (channel_added v) (_location_id v)
    (_original_location_id v) (should_rollback v).
Definition set_channel_added (x : bool) (v : vars) : vars :=
  Vars (user_id v) (location_id v) (device_id v) (device_flags v) (location_enabled v)
    (channel_addition_blocked v) (new_device v) (device_enabled v) x (_location_id v)
    (_original_location_id v) (should_rollback v).
Definition set__location_id (x : Z) (v : vars) : vars :=
  Vars (user_id v) (location_id v) (device_id v) (device_flags v) (location_enabled v)
    (channel_addition_blocked v) (new_device v) (device_enabled v) (channel_added v) x
    (_original_location_id v) (should_rollback v).
Definition set__original_location_id (x : Z) (v : vars) : vars :=
  Vars (user_id v) (location_id v) (device_id v) (device_flags v) (location_enabled v)
    (channel_addition_blocked v) (new_device v) (device_enabled v) (channel_added v)
    (_location_id v) x (should_rollback v).
Definition set_should_rollback (x : bool) (v : vars) : vars :=
  Vars (user_id v) (location_id v) (device_id v) (device_flags v) (location_enabled v)
    (channel_addition_blocked v) (new_device v) (device_enabled v) (channel_added v)
    (_location_id v) (_original_location_id v) x.

(** The codes with which the device stays connected. *)
Definition is_success (resultcode : Z) : bool :=
  (resultcode =? SUPLA_RESULTCODE_TRUE) || (resultcode =? SUPLA_RESULTCODE_CFG_MODE_REQUESTED)
  || (resultcode =? SUPLA_RESULTCODE_RESTART_REQUESTED)
  || (resultcode =? SUPLA_RESULTCODE_IDENTIFY_REQUESTED).

(** ** The handler *)

Section handler.
Context {DB : Type} {Dao : DeviceDao DB} (env : reg_env) (rq : register_request).
Open Scope handler_scope.

(** One channel of the database in [prepare_channel_report]. *)
Definition report_fragment (device : Z) (fragment : Z * Z) (report : list Z * Z)
    : M (dreg DB) (list Z * Z) :=
  let '(channel_number, frag_type) := fragment in
  let '(channel_report, size) := report in
  let declared := find_first (λ c, ch_number c =? channel_number) (visited_channels rq) in
  let wrong := match declared with
               | Some c => if negb (ch_type c =? frag_type) then Some (ch_type c) else None
               | None => None
               end in
  let missing := bool_decide (declared = None) in
  let number := u8 channel_number in
  let bits := Z.lor (channel_report !!! Z.to_nat number) CHANNEL_REPORT_CHANNEL_REGISTERED in
  let bits := if wrong then Z.lor bits CHANNEL_REPORT_INCORRECT_CHANNEL_TYPE else bits in
  when (bool_decide (wrong ≠ None) || missing)
    (set_dba (write (λ d, update_channel_conflict_details d device number wrong missing))) ;;;
  ret (<[Z.to_nat number := bits]> channel_report, if size <=? number then number + 1 else size).

Fixpoint report_fragments (device : Z) (l : list (Z * Z)) (report : list Z * Z)
    : M (dreg DB) (list Z * Z) :=
  match l with
  | [] => ret report
  | f :: l => let* report := report_fragment device f report in report_fragments device l report
  end.

Definition prepare_channel_report : M (dreg DB) (list Z * Z) :=
  let* v := get_vars in
  let* d := get_db in
  report_fragments (device_id v) (get_channel_fragments d (device_id v))
    (replicate CHANNEL_REPORT_MAXSIZE 0, 0).

Definition send_result (resultcode : Z) : M (dreg DB) unit :=
  let* v := get_vars in
  let* c := gets r_dba in
  when (connected c)
    (when (should_rollback v) (set_dba rollback) ;;; set_dba disconnect) ;;;
  when (negb (is_success resultcode)) (emit RHold) ;;;
  if resultcode =? SUPLA_RESULTCODE_CHANNEL_CONFLICT then
    let* report := prepare_channel_report in
    emit (if 25 <=? env_proto_version env then RResultB resultcode report.2 report.1
          else RResult resultcode)
  else emit (RResult resultcode).

Definition fail {A} (resultcode : Z) (a : A) : M (dreg DB) A :=
  send_result resultcode ;;; ret a.

Definition device_auth : M (dreg DB) bool :=
  let* v := get_vars in
  let* d := get_db in
  let* authorized :=
    match rq_credentials rq with
    | CredC _ pwd =>
        match location_auth d (location_id v) pwd with
        | Some (user, enabled) =>
            set_vars (λ v, set_location_enabled enabled (set_user_id user v)) ;;; ret true
        | None => set_vars (set_location_enabled false) ;;; ret false
        end
    | CredG email authkey _ _ _ =>
        let '(ok, user) :=
          object_authkey_auth (env_auth env) d (rq_guid rq) email authkey (user_id v) in
        set_vars (set_user_id user) ;;; ret ok
    end in
  let* v := get_vars in
  if negb authorized then fail SUPLA_RESULTCODE_BAD_CREDENTIALS false
  else if user_id v =? 0 then fail SUPLA_RESULTCODE_BAD_CREDENTIALS false
  else ret true.

Definition rq_flags : Z := match rq_credentials rq with CredG _ _ f _ _ => f | _ => 0 end.
Definition rq_manufacturer_id : Z :=
  match rq_credentials rq with CredG _ _ _ m _ => m | _ => 0 end.
Definition rq_product_id : Z := match rq_credentials rq with CredG _ _ _ _ p => p | _ => 0 end.

(** "unknown" *)
Definition device_name : list Z :=
  match take (SUPLA_DEVICE_NAME_MAXSIZE - 1) (rq_name rq) with
  | [] => [117; 110; 107; 110; 111; 119; 110]
  | _ => rq_name rq
  end.

(** The location a new device is put in: [false] when there is none. *)
Definition choose_location : M (dreg DB) bool :=
  let* v := get_vars in
  let* d := get_db in
  if (location_id v =? 0) && bool_decide (rq_authkey rq <> None) then
    let enabled_location := get_location_id d (user_id v) true in
    if negb (enabled_location =? 0) then
      set_vars (λ v, set_location_enabled true (set_location_id enabled_location v)) ;;; ret true
    else
      let disabled_location := get_location_id d (user_id v) false in
      set_vars (set_location_id disabled_location) ;;;
      if negb (disabled_location =? 0)
      then set_vars (set_location_enabled false) ;;; ret true
      else fail SUPLA_RESULTCODE_NO_LOCATION_AVAILABLE false
  else ret true.

Definition add_device : M (dreg DB) bool :=
  let* v := get_vars in
  let* d := get_db in
  if negb (get_device_reg_enabled d (user_id v))
  then fail SUPLA_RESULTCODE_REGISTRATION_DISABLED false
  else if get_device_limit_left d (user_id v) <=? 0
  then fail SUPLA_RESULTCODE_DEVICE_LIMITEXCEEDED false
  else
    let* chosen := choose_location in
    if negb chosen then ret false
    else
      let* v := get_vars in
      if negb (location_id v =? 0) then
        let* d := get_db in
        let '(id, d') :=
          add_device_row d (DeviceRow (location_id v) (rq_guid rq) (rq_authkey rq) device_name
            (env_ipv4 env) (rq_softver rq) (env_proto_version env) rq_manufacturer_id
            rq_product_id (device_flags v) (user_id v)) in
        set_vars (λ v, set_device_id id (set__location_id (location_id v) (set_new_device true v))) ;;;
        set_dba (write (λ _, d')) ;;;
        if id =? 0 then fail SUPLA_RESULTCODE_TEMPORARILY_UNAVAILABLE false else ret true
      else ret false.

(** The loop of [add_channels]: the count of the channels processed, -1 after a
    conflict. The result of [func_list_filter] is not used by the code. *)
Fixpoint add_channels_loop (l : list channel_decl) (processed_count : Z) : M (dreg DB) Z :=
  match l with
  | [] => ret processed_count
  | c :: l =>
      let processed_count := processed_count + 1 in
      if ch_type c =? 0 then ret processed_count
      else
        let* v := get_vars in
        let* d := get_db in
        let '(channel_id, type, db_func_list) :=
          get_channel_properties d (device_id v) (ch_number c) in
        let db_channel_type := if channel_id =? 0 then 0 else type in
        let default_func :=
          if (ch_type c =? SUPLA_CHANNELTYPE_IMPULSE_COUNTER)
             && (ch_default c =? SUPLA_CHANNELFNC_ELECTRICITY_METER)
          then SUPLA_CHANNELFNC_IC_ELECTRICITY_METER else ch_default c in
        if db_channel_type =? 0 then
          if channel_addition_blocked v then ret (-1)
          else
            let '(param1, param2) := get_defaults (ch_type c) default_func in
            let '(id, d') :=
              add_channel d (ChannelRow (device_id v) (ch_number c) (ch_type c) default_func
                param1 param2 (ch_func_list c) (ch_flags c)
                (trim_alt_icon_index default_func (ch_alt_icon c)) (ch_sub_device_id c)
                (user_id v)) in
            set_dba (write (λ _, d')) ;;;
            if id =? 0 then ret (-1)
            else
              set_vars (set_channel_added true) ;;;
              set_dba (write (λ d, on_channel_added d (device_id v) id)) ;;;
              add_channels_loop l processed_count
        else if negb (db_channel_type =? ch_type c) then ret (-1)
        else
          when (negb (Z.lor db_func_list (ch_func_list c) =? db_func_list))
            (set_dba (write (λ d, update_channel_functions d channel_id (user_id v)
                                    (Z.lor db_func_list (ch_func_list c))))) ;;;
          add_channels_loop l processed_count
  end.

Definition add_channels : M (dreg DB) bool :=
  let* processed_count := add_channels_loop (visited_channels rq) 0 in
  let* v := get_vars in
  let* d := get_db in
  if (processed_count =? -1)
     || negb (get_device_channel_count d (device_id v) =? processed_count)
  then fail SUPLA_RESULTCODE_CHANNEL_CONFLICT false
  else ret true.

(** "if (!m) { return; }" *)
Definition guard (m : M (dreg DB) bool) : M (dreg DB) unit :=
  let* ok := m in if ok then ret tt else leave.
Definition check (b : bool) (resultcode : Z) : M (dreg DB) unit :=
  if b then ret tt else send_result resultcode ;;; leave.

Definition initial_vars : vars :=
  Vars 0 (match rq_credentials rq with CredC l _ => l | _ => 0 end) 0 rq_flags
       false false false true false 0 0 true.

(** The variables of a known device; the flags it had. *)
Definition load_variables : M (dreg DB) Z :=
  let* v := get_vars in
  let* d := get_db in
  let id := get_device_id d (user_id v) (rq_guid rq) in
  set_vars (set_device_id id) ;;;
  if id =? 0 then ret 0
  else
    match get_device_variables d id with
    | None => send_result SUPLA_RESULTCODE_TEMPORARILY_UNAVAILABLE ;;; leave
    | Some dv =>
        set_vars (λ v,
          Vars (user_id v) (location_id v) (device_id v) (device_flags v)
               (dv_location_enabled dv) (dv_channel_addition_blocked dv) (new_device v)
               (dv_enabled dv) (channel_added v) (dv_location_id dv)
               (dv_original_location_id dv) (should_rollback v)) ;;;
        ret (dv_flags dv)
    end.

(** The end of the transaction: the row of a new device, or the update. *)
Definition store_device (_device_flags : Z) : M (dreg DB) unit :=
  let* v := get_vars in
  if new_device v then set_dba (write (λ d, on_new_device d (device_id v)))
  else
    set_vars (λ v,
      let v := if bool_decide (rq_authkey rq <> None) then set__original_location_id 0 v
               else if location_id v =? _location_id v
                    then set__original_location_id (location_id v) v else v in
      let flags := device_flags v in
      set_device_flags
        (if negb (Z.land _device_flags SUPLA_DEVICE_FLAG_DEVICE_LOCKED =? 0)
         then Z.lor flags SUPLA_DEVICE_FLAG_DEVICE_LOCKED
         else Z.lxor flags (Z.land flags SUPLA_DEVICE_FLAG_DEVICE_LOCKED)) v) ;;;
    let* v := get_vars in
    let* d := get_db in
    let '(ok, d') :=
      update_device d (device_id v) (_original_location_id v) (rq_authkey rq) device_name
        (env_ipv4 env) (rq_softver rq) (env_proto_version env) (device_flags v) in
    set_dba (write (λ _, d')) ;;;
    check ok SUPLA_RESULTCODE_TEMPORARILY_UNAVAILABLE.

Definition sleeper_resultcode (flags : Z) : Z :=
  if negb (Z.land flags SUPLA_DEVICE_FLAG_SLEEP_MODE_ENABLED =? 0) then
    let command := env_last_calcfg env in
    if command =? SUPLA_CALCFG_CMD_ENTER_CFG_MODE then SUPLA_RESULTCODE_CFG_MODE_REQUESTED
    else if command =? SUPLA_CALCFG_CMD_RESTART_DEVICE then SUPLA_RESULTCODE_RESTART_REQUESTED
    else if command =? SUPLA_CALCFG_CMD_IDENTIFY_DEVICE then SUPLA_RESULTCODE_IDENTIFY_REQUESTED
    else SUPLA_RESULTCODE_TRUE
  else SUPLA_RESULTCODE_TRUE.

Definition register_device : M (dreg DB) unit :=
  check (is_valid_guid (rq_guid rq)) SUPLA_RESULTCODE_GUID_ERROR ;;;
  check (match rq_authkey rq with Some k => is_valid_authkey k | None => true end)
        SUPLA_RESULTCODE_AUTHKEY_ERROR ;;;
  let* c := gets r_dba in
  let '(ok, c') := connect (env_connect_ok env) c in
  set_dba (λ _, c') ;;;
  check ok SUPLA_RESULTCODE_TEMPORARILY_UNAVAILABLE ;;;
  guard device_auth ;;;
  let* _device_flags := load_variables in
  set_vars (λ v, if location_id v =? 0 then set_location_id (_location_id v) v else v) ;;;
  set_dba start_transaction ;;;
  let* v := get_vars in
  guard (if device_id v =? 0 then add_device else ret true) ;;;
  let* v := get_vars in
  check (device_enabled v) SUPLA_RESULTCODE_DEVICE_DISABLED ;;;
  check (location_enabled v) SUPLA_RESULTCODE_LOCATION_DISABLED ;;;
  check (negb ((location_id v =? 0)
               || negb (location_id v =? _location_id v)
                  && negb (location_id v =? _original_location_id v)))
        SUPLA_RESULTCODE_LOCATION_CONFLICT ;;;
  guard add_channels ;;;
  store_device _device_flags ;;;
  set_dba commit ;;;
  set_vars (set_should_rollback false) ;;;
  let* v := get_vars in
  check (negb (negb (Z.land (device_flags v) SUPLA_DEVICE_FLAG_DEVICE_LOCKED =? 0)
               && (new_device v
                   || negb (Z.land _device_flags SUPLA_DEVICE_FLAG_DEVICE_LOCKED =? 0))))
        SUPLA_RESULTCODE_DEVICE_LOCKED ;;;
  emit ROnSuccess ;;;
  send_result (sleeper_resultcode (device_flags v)) ;;;
  emit RAfterSuccess.

Definition register_device_run (d : DB) : dreg DB :=
  run register_device (Reg (Dba false d None) initial_vars []).
End handler.

(** ** What a registration establishes *)

Definition result_of (e : reg_event) : option Z :=
  match e with RResult c | RResultB c _ _ => Some c | _ => None end.

Section proofs.
Context {DB : Type} {Dao : DeviceDao DB} (env : reg_env) (rq : register_request) (d0 : DB).
Open Scope handler_scope.

(** Databases that differ in the details of the channel conflicts. *)
Definition conflict_step (a b : DB) : Prop :=
  ∃ device number wrong missing,
    b = update_channel_conflict_details a device number wrong missing.

(** The user the credentials stand for in the initial database. *)
Definition authenticated (user : Z) : Prop :=
  user ≠ 0
  ∧ match rq_credentials rq with
    | CredC l pwd => ∃ enabled, location_auth d0 l pwd = Some (user, enabled)
    | CredG email k _ _ _ =>
        object_authkey_auth (env_auth env) d0 (rq_guid rq) email k 0 = (true, user)
    end.

(** Before a result is sent: outside a transaction nothing has been written, and
    a transaction started from the initial database. *)
Definition unsent (s : dreg DB) : Prop :=
  r_out s = [] ∧ should_rollback (r_vars s) = true
  ∧ match saved (r_dba s) with
    | None => db (r_dba s) = d0
    | Some d => d = d0 ∧ connected (r_dba s) = true
    end.

(** After a refusal. *)
Definition refused (s : dreg DB) : Prop :=
  connected (r_dba s) = false ∧ saved (r_dba s) = None ∧ rtc conflict_step d0 (db (r_dba s))
  ∧ ∃ code e, r_out s = [RHold; e] ∧ result_of e = Some code
      ∧ is_success code = false ∧ code ≠ SUPLA_RESULTCODE_DEVICE_LOCKED
      ∧ (code ≠ SUPLA_RESULTCODE_CHANNEL_CONFLICT → db (r_dba s) = d0).

Notation never := (λ _ : dreg DB, False).

(** After the connection is closed: what has been sent. *)
Definition closed (out : list reg_event) (s : dreg DB) : Prop :=
  r_out s = out ∧ connected (r_dba s) = false ∧ saved (r_dba s) = None
  ∧ rtc conflict_step d0 (db (r_dba s)).

Lemma report_fragment_ok device f report out :
  triple (closed out) (report_fragment rq device f report) (λ _, closed out) never.
Proof.
  unfold report_fragment. destruct f as [n t], report as [rep size]. cbn zeta.
  eapply (triple_bind _ _ _ _ (λ _, closed out)); [|by intros []; apply triple_ret].
  destruct (_ || _); [|by apply triple_ret].
  apply triple_modify. intros s (? & ? & ? & ?). split_and!; [done..|].
  eapply rtc_r; [done|]. by repeat eexists.
Qed.

Lemma report_fragments_ok device l out : ∀ report,
  triple (closed out) (report_fragments rq device l report) (λ _, closed out) never.
Proof.
  induction l as [|f l IH]; intros report; cbn [report_fragments]; [by apply triple_ret|].
  eapply triple_bind; [apply report_fragment_ok|]. intros r. apply IH.
Qed.

(** The result of a refusal is the last thing sent, the transaction is rolled
    back first. *)
Lemma send_result_refused code :
  is_success code = false → code ≠ SUPLA_RESULTCODE_DEVICE_LOCKED →
  triple unsent (send_result env rq code) (λ _, refused) never.
Proof.
  intros Hf Hl. unfold send_result. apply triple_read. intros v. apply triple_read. intros c.
  set (shut (out : list reg_event) := λ s : dreg DB, r_out s = out ∧ connected (r_dba s) = false
         ∧ saved (r_dba s) = None ∧ db (r_dba s) = d0).
  eapply (triple_bind _ _ _ _ (λ _, shut [])).
  { intros s [[(Ho & Hr & Hs) <-] <-].
    destruct (connected (r_dba s)) eqn:Ec; cbn [when].
    - rewrite Hr. unfold shut, bind, when. cbn.
      destruct (saved (r_dba s)) as [x|]; [by destruct Hs as [-> _]|done].
    - unfold shut, ret. destruct (saved (r_dba s)) as [x|] eqn:Es; [|done].
      destruct Hs as [_ ?]. congruence. }
  intros []. rewrite Hf. cbn [negb when].
  eapply (triple_bind _ _ _ _ (λ _, shut [RHold])).
  { apply triple_modify. intros s (-> & ? & ? & ?). done. }
  intros []. destruct (Z.eqb_spec code SUPLA_RESULTCODE_CHANNEL_CONFLICT) as [->|Hne].
  - unfold prepare_channel_report. eapply triple_bind.
    { apply triple_read. intros v'. apply triple_read. intros d.
      eapply triple_pre; [apply (report_fragments_ok _ _ [RHold])|].
      intros s [[(? & ? & ? & Hd) _] _]. split_and!; [done..|by rewrite Hd]. }
    intros report. apply triple_modify. intros s (Ho & ? & ? & ?).
    split_and!; [done..|]. cbn. rewrite Ho. eexists _, _. split; [reflexivity|].
    split; [by destruct (_ <=? _)|]. by split_and!.
  - apply triple_modify. intros s (Ho & ? & ? & Hd). split_and!; [done..|by cbn; rewrite Hd|].
    cbn. rewrite Ho. eexists _, _. split; [reflexivity|]. by split_and!.
Qed.

Lemma fail_refused code :
  is_success code = false → code ≠ SUPLA_RESULTCODE_DEVICE_LOCKED →
  triple unsent (fail env rq code false) (λ b s, b = false ∧ refused s) never.
Proof.
  intros. eapply triple_bind; [by apply send_result_refused|].
  intros []. by apply triple_ret.
Qed.
(** Before and in the transaction: [V] is what is known of the fields, [cn] says
    whether the connection is known to be open. *)
Definition idle (cn : bool) (c : dba DB) : Prop :=
  saved c = None ∧ (cn = true → connected c = true).
Definition before_tx (cn : bool) (V : vars → Prop) (s : dreg DB) : Prop :=
  r_out s = [] ∧ should_rollback (r_vars s) = true
  ∧ idle cn (r_dba s)
  ∧ db (r_dba s) = d0 ∧ V (r_vars s).
Definition in_tx (V : vars → Prop) (s : dreg DB) : Prop :=
  r_out s = [] ∧ should_rollback (r_vars s) = true
  ∧ saved (r_dba s) = Some d0 ∧ connected (r_dba s) = true ∧ V (r_vars s).

Lemma before_tx_unsent cn V s : before_tx cn V s → unsent s.
Proof. intros (? & ? & [Hs _] & ? & ?). split_and!; [done..|]. by rewrite Hs. Qed.
Lemma in_tx_unsent V s : in_tx V s → unsent s.
Proof. intros (? & ? & Hs & ? & ?). split_and!; [done..|]. by rewrite Hs. Qed.

(** The refusal of a fragment that has only read or written in the transaction. *)
Lemma refuse (P : dreg DB → Prop) code (Q : bool → dreg DB → Prop) :
  (∀ s, P s → unsent s) → is_success code = false → code ≠ SUPLA_RESULTCODE_DEVICE_LOCKED →
  (∀ s, refused s → Q false s) →
  triple P (fail env rq code false) Q never.
Proof.
  intros HP Hc Hl HQ.
  apply (triple_weaken _ _ (λ b s, b = false ∧ refused s) _ never);
    [|intros a s [-> ?]; by apply HQ|done].
  eapply triple_pre; [by apply fail_refused|done].
Qed.

Lemma refuse_leave {A} (P : dreg DB → Prop) code (Q : A → dreg DB → Prop) :
  (∀ s, P s → unsent s) → is_success code = false → code ≠ SUPLA_RESULTCODE_DEVICE_LOCKED →
  triple P (send_result env rq code ;;; leave) Q refused.
Proof.
  intros HP Hc Hl. apply (triple_bind _ _ _ _ (λ _, refused)).
  - apply (triple_weaken _ _ (λ _, refused) _ never); [|done|done].
    eapply triple_pre; [by apply send_result_refused|done].
  - intros []. by apply triple_leave.
Qed.

Lemma check_ok (P : dreg DB → Prop) b code :
  (∀ s, P s → unsent s) → is_success code = false → code ≠ SUPLA_RESULTCODE_DEVICE_LOCKED →
  triple P (check env rq b code) (λ _ s, P s ∧ b = true) refused.
Proof. intros. destruct b; [by apply triple_ret|by apply refuse_leave]. Qed.

Lemma guard_ok (P Q : dreg DB → Prop) (m : M (dreg DB) bool) :
  triple P m (λ b s, if b then Q s else refused s) never →
  triple P (guard m) (λ _, Q) refused.
Proof.
  intros Hm. eapply (triple_bind _ _ _ _ (λ (b : bool) s, if b then Q s else refused s)).
  { by eapply triple_weaken. }
  intros [|]; [by apply triple_ret|by apply triple_leave].
Qed.

(** The identity of the user, and the location given with a password. *)
Definition identified (v : vars) : Prop :=
  authenticated (user_id v)
  ∧ match rq_credentials rq with CredC l _ => location_id v = l ∧ l ≠ 0 | _ => True end.

Hypothesis no_location_0 : ∀ d pwd, location_auth d 0 pwd = None.

Lemma device_auth_ok :
  triple (before_tx true (λ v, v = initial_vars rq)) (device_auth env rq)
    (λ b s, if b then before_tx true identified s else refused s) never.
Proof using no_location_0.
  unfold device_auth. apply triple_read. intros v. apply triple_read. intros d.
  set (K (b : bool) (v : vars) := user_id v ≠ 0 → b = true → identified v).
  eapply (triple_bind _ _ _ _ (λ b, before_tx true (K b))).
  - destruct (rq_credentials rq) as [l pwd|email k fl m p] eqn:Ec.
    + destruct (location_auth d (location_id v) pwd) as [[user enabled]|] eqn:Ea.
      * eapply (triple_bind _ _ _ _ (λ _, before_tx true (K true))); [|intros []; by apply triple_ret].
        apply triple_modify. intros s [[(? & ? & ? & Hd & Hv) Hv'] Hd'].
        split_and!; [done..|]. cbn. intros Hu _. unfold identified, authenticated. rewrite Ec. cbn.
        subst v d. rewrite Hv, Hd in Ea. unfold initial_vars in Ea. rewrite Ec in Ea.
        cbn in Ea. rewrite Hv. unfold initial_vars. rewrite Ec. cbn.
        split_and!; [done|by exists enabled|done|]. intros ->. by rewrite no_location_0 in Ea.
      * eapply (triple_bind _ _ _ _ (λ _, before_tx true (K false))); [|intros []; by apply triple_ret].
        apply triple_modify. intros s [[(? & ? & ? & Hd & Hv) _] _]. split_and!; [done..|].
        by intros _ [=].
    + destruct (object_authkey_auth _ _ _ _ _ _) as [ok user] eqn:Ea.
      eapply (triple_bind _ _ _ _ (λ _, before_tx true (K ok))); [|intros []; by apply triple_ret].
      apply triple_modify. intros s [[(? & ? & ? & Hd & Hv) Hv'] Hd']. split_and!; [done..|].
      cbn. intros Hu ->. unfold identified, authenticated. rewrite Ec. cbn.
      subst v d. rewrite Hv, Hd in Ea. done.
  - intros ok. apply triple_read. intros v'.
    destruct ok; cbn [negb].
    + destruct (Z.eqb_spec (user_id v') 0) as [|Hne].
      * apply refuse; [|done|done|done]. intros s [Hs _]. by eapply before_tx_unsent.
      * apply triple_ret. intros s [(? & ? & ? & ? & HK) Hv]. split_and!; [done..|].
        apply HK; [by rewrite Hv|done].
    + apply refuse; [|done|done|done]. intros s [Hs _]. by eapply before_tx_unsent.
Qed.

Lemma load_variables_ok :
  triple (before_tx true identified) (load_variables env rq)
    (λ _, before_tx true identified) refused.
Proof.
  unfold load_variables. apply triple_read. intros v. apply triple_read. intros d. cbn zeta.
  eapply (triple_bind _ _ _ _ (λ _, before_tx true identified)).
  { apply triple_modify. by intros s [[(? & ? & ? & ? & ?) _] _]. }
  intros []. destruct (_ =? 0); [by apply triple_ret|].
  destruct (get_device_variables _ _) as [dv|].
  - eapply (triple_bind _ _ _ _ (λ _, before_tx true identified)); [|intros []; by apply triple_ret].
    apply triple_modify. by intros s (? & ? & ? & ? & ?).
  - apply refuse_leave; [|done|done]. intros s Hs. by eapply before_tx_unsent.
Qed.

Lemma choose_location_ok :
  triple (in_tx identified) (choose_location env rq)
    (λ b s, if b then in_tx (λ v, identified v ∧ location_id v ≠ 0) s else refused s) never.
Proof.
  unfold choose_location. apply triple_read. intros v. apply triple_read. intros d. cbn zeta.
  destruct (_ && _) eqn:Eb.
  - apply andb_true_iff in Eb as [_ Eg]. apply bool_decide_eq_true in Eg.
    assert (∀ v' w, identified v' → user_id w = user_id v' → identified w) as Hid.
    { unfold identified, rq_authkey in *. intros v' w [Ha Hc] Hu. rewrite Hu.
      by destruct (rq_credentials rq). }
    destruct (Z.eqb_spec (get_location_id d (user_id v) true) 0) as [|Hne]; cbn [negb].
    + eapply (triple_bind _ _ _ _ (λ _,
        in_tx (λ w, identified w ∧ location_id w = get_location_id d (user_id v) false))).
      { apply triple_modify. intros s [[(? & ? & ? & ? & Hi) _] _]. split_and!; [done..| |done].
        by eapply Hid. }
      intros []. destruct (Z.eqb_spec (get_location_id d (user_id v) false) 0) as [|Hne]; cbn [negb].
      * apply refuse; [|done|done|done]. intros s Hs. by eapply in_tx_unsent.
      * eapply (triple_bind _ _ _ _ (λ _, in_tx (λ v, identified v ∧ location_id v ≠ 0)));
          [|intros []; by apply triple_ret].
        apply triple_modify. intros s (? & ? & ? & ? & Hi & Hl). split_and!; [done..| |].
        -- by eapply Hid.
        -- cbn. by rewrite Hl.
    + eapply (triple_bind _ _ _ _ (λ _, in_tx (λ v, identified v ∧ location_id v ≠ 0)));
        [|intros []; by apply triple_ret].
      apply triple_modify. intros s [[(? & ? & ? & ? & Hi) _] _]. split_and!; [done..| |done].
      by eapply Hid.
  - apply triple_ret. intros s [[(? & ? & ? & ? & Hi) <-] _]. split_and!; [done..|].
    apply andb_false_iff in Eb as [Eb|Eb]; [lia|]. apply bool_decide_eq_false in Eb.
    destruct Hi as [_ Hc]. unfold rq_authkey in Eb. destruct (rq_credentials rq) as [l pwd|];
      [by destruct Hc as [-> ?]|by destruct Eb].
Qed.

Lemma add_device_ok :
  triple (in_tx identified) (add_device env rq)
    (λ b s, if b then in_tx identified s else refused s) never.
Proof.
  unfold add_device. apply triple_read. intros v. apply triple_read. intros d.
  destruct (negb _).
  { apply refuse; [|done|done|done]. intros s [[Hs _] _]. by eapply in_tx_unsent. }
  destruct (_ <=? 0).
  { apply refuse; [|done|done|done]. intros s [[Hs _] _]. by eapply in_tx_unsent. }
  eapply triple_bind.
  { eapply triple_pre; [apply choose_location_ok|]. by intros s [[? _] _]. }
  intros [|]; cbn [negb]; [|by apply triple_ret].
  apply triple_read. intros v'.
  destruct (Z.eqb_spec (location_id v') 0) as [E|_]; cbn [negb].
  { apply triple_ret. intros s [(? & ? & ? & ? & _ & Hl) <-]. done. }
  apply triple_read. intros d'. destruct (add_device_row _ _) as [id d''].
  eapply (triple_bind _ _ _ _ (λ _, in_tx identified)).
  { apply triple_modify. by intros s [[(? & ? & ? & ? & ? & _) _] _]. }
  intros []. eapply (triple_bind _ _ _ _ (λ _, in_tx identified)).
  { apply triple_modify. by intros s (? & ? & ? & ? & ?). }
  intros []. destruct (id =? 0).
  - apply refuse; [|done|done|done]. intros s Hs. by eapply in_tx_unsent.
  - by apply triple_ret.
Qed.
(** The channels that count: those before the first of type 0, and that one. *)
Fixpoint processed_channels (l : list channel_decl) : Z :=
  match l with
  | [] => 0
  | c :: l => 1 + if ch_type c =? 0 then 0 else processed_channels l
  end.

Lemma add_channels_loop_ok (V : vars → Prop) l :
  (∀ v, V v → V (set_channel_added true v)) →
  ∀ n, triple (in_tx V) (add_channels_loop l n)
    (λ r s, in_tx V s ∧ (r = -1 ∨ r = n + processed_channels l)) never.
Proof.
  intros HV. induction l as [|c l IH]; intros n; cbn [add_channels_loop processed_channels].
  { apply triple_ret. intros s Hs. split; [done|right; lia]. }
  destruct (ch_type c =? 0).
  { apply triple_ret. intros s Hs. split; [done|right; lia]. }
  assert (∀ P : dreg DB → Prop, (∀ s, P s → in_tx V s) →
    triple P (ret (-1)) (λ r s, in_tx V s ∧ (r = -1 ∨ r = n + (1 + processed_channels l))) never)
    as Hfail by (intros P HP; apply triple_ret; intros s Hs; split; [by apply HP|by left]).
  assert (triple (in_tx V) (add_channels_loop l (n + 1))
    (λ r s, in_tx V s ∧ (r = -1 ∨ r = n + (1 + processed_channels l))) never) as IH'.
  { eapply triple_weaken; [apply IH| |done]. intros r s [? Hr]. split; [done|].
    destruct Hr as [|]; [by left|right; lia]. }
  assert (∀ (P : dreg DB → Prop) f, (∀ s, P s → in_tx V s) →
    triple P (set_dba (write f)) (λ _, in_tx V) never) as Hwrite.
  { intros P f HP. apply triple_modify. intros s Hs. by destruct (HP s Hs) as (? & ? & ? & ? & ?). }
  apply triple_read. intros v. apply triple_read. intros d.
  destruct (get_channel_properties _ _ _) as [[channel_id type] flist]. cbn zeta.
  set (dbt := if channel_id =? 0 then 0 else type). clearbody dbt. destruct (dbt =? 0).
  - destruct (channel_addition_blocked v); [apply Hfail; by intros s [[? _] _]|].
    destruct (get_defaults _ _) as [p1 p2]. destruct (add_channel _ _) as [id d'].
    eapply triple_bind; [apply Hwrite; by intros s [[? _] _]|]. intros [].
    destruct (id =? 0); [by apply Hfail|].
    eapply (triple_bind _ _ _ _ (λ _, in_tx V)).
    { apply triple_modify. intros s (? & ? & ? & ? & ?). split_and!; [done..|]. by apply HV. }
    intros []. eapply triple_bind; [by apply Hwrite|]. intros []. apply IH'.
  - destruct (negb _); [apply Hfail; by intros s [[? _] _]|].
    eapply (triple_bind _ _ _ _ (λ _, in_tx V)); [|intros []; apply IH'].
    destruct (negb _); cbn [when]; [apply Hwrite|apply triple_ret]; by intros s [[? _] _].
Qed.

(** The database in which the channels have been counted. *)
Definition counted (v : vars) : Prop :=
  ∃ d, get_device_channel_count d (device_id v) = processed_channels (visited_channels rq).

Lemma add_channels_ok (V : vars → Prop) :
  (∀ v, V v → V (set_channel_added true v)) →
  triple (in_tx V) (add_channels env rq)
    (λ b s, if b then in_tx (λ v, V v ∧ counted v) s else refused s) never.
Proof.
  intros HV. unfold add_channels. eapply triple_bind; [by apply add_channels_loop_ok|].
  intros n. apply triple_read. intros v. apply triple_read. intros d.
  destruct (_ || _) eqn:E.
  - apply refuse; [|done|done|done]. intros s [[[Hs _] _] _]. by eapply in_tx_unsent.
  - apply triple_ret. intros s [[[(? & ? & ? & ? & ?) Hn] Hv] Hd]. split_and!; [done..|].
    apply orb_false_iff in E as [E1 E2]. apply Z.eqb_neq in E1.
    apply negb_false_iff, Z.eqb_eq in E2. exists d. rewrite Hv, E2. lia.
Qed.

(** What an accepted registration has established of its fields. *)
Definition admitted (v : vars) : Prop :=
  authenticated (user_id v) ∧ device_enabled v = true ∧ location_enabled v = true
  ∧ location_id v ≠ 0 ∧ counted v.

Lemma store_device_ok flags :
  triple (in_tx admitted) (store_device env rq flags) (λ _, in_tx admitted) refused.
Proof.
  unfold store_device. apply triple_read. intros v. destruct (new_device v).
  { apply triple_modify. by intros s [(? & ? & ? & ? & ?) _]. }
  eapply (triple_bind _ _ _ _ (λ _, in_tx admitted)).
  { apply triple_modify. intros s [(? & ? & ? & ? & ?) _].
    split_and!; cbn; (done || by repeat case_match). }
  intros []. apply triple_read. intros v'. apply triple_read. intros d.
  destruct (update_device _ _ _ _ _ _ _ _ _) as [ok d'].
  eapply (triple_bind _ _ _ _ (λ _, in_tx admitted)).
  { apply triple_modify. by intros s [[(? & ? & ? & ? & ?) _] _]. }
  intros []. eapply triple_weaken; [apply check_ok; [|done|done]| |done].
  - intros s Hs. by eapply in_tx_unsent.
  - by intros a s [? _].
Qed.

(** After an acceptance: the result, and what happened around it. *)
Definition accepted (s : dreg DB) : Prop :=
  connected (r_dba s) = false ∧ saved (r_dba s) = None ∧ admitted (r_vars s)
  ∧ (r_out s = [RHold; RResult SUPLA_RESULTCODE_DEVICE_LOCKED]
     ∨ ∃ code, is_success code = true
         ∧ r_out s = [ROnSuccess; RResult code; RAfterSuccess]).

(** After the commit. *)
Definition committed (out : list reg_event) (s : dreg DB) : Prop :=
  r_out s = out ∧ should_rollback (r_vars s) = false ∧ saved (r_dba s) = None
  ∧ connected (r_dba s) = true ∧ admitted (r_vars s).

Lemma send_result_committed out code :
  code ≠ SUPLA_RESULTCODE_CHANNEL_CONFLICT →
  triple (committed out) (send_result env rq code)
    (λ _ s, connected (r_dba s) = false ∧ saved (r_dba s) = None ∧ admitted (r_vars s)
       ∧ r_out s = out ++ (if is_success code then [] else [RHold]) ++ [RResult code]) never.
Proof.
  intros Hne s (Ho & Hr & Hs & Hc & Ha). unfold send_result, bind, when, gets.
  cbn. rewrite Hc. cbn. rewrite Hr. cbn. rewrite (proj2 (Z.eqb_neq _ _) Hne).
  destruct (is_success code); cbn; rewrite Ho, ?Hs; split_and!; try done.
  by rewrite <- app_assoc.
Qed.

Lemma sleeper_success flags : is_success (sleeper_resultcode env flags) = true.
Proof. unfold sleeper_resultcode. by repeat case_match. Qed.

Lemma finish_ok flags :
  triple (committed [])
    (let* v := get_vars in
     check env rq
       (negb (negb (Z.land (device_flags v) SUPLA_DEVICE_FLAG_DEVICE_LOCKED =? 0)
              && (new_device v || negb (Z.land flags SUPLA_DEVICE_FLAG_DEVICE_LOCKED =? 0))))
       SUPLA_RESULTCODE_DEVICE_LOCKED ;;;
     emit ROnSuccess ;;;
     send_result env rq (sleeper_resultcode env (device_flags v)) ;;;
     emit RAfterSuccess)
    (λ _, accepted) accepted.
Proof.
  apply triple_read. intros v.
  eapply (triple_bind _ _ _ _ (λ _, committed [])).
  - destruct (negb _); cbn [check]; [apply triple_ret; by intros s [? _]|].
    apply (triple_bind _ _ _ _ (λ _, accepted)); [|intros []; by apply triple_leave].
    eapply triple_weaken; [eapply triple_pre; [by apply (send_result_committed [])|
      by intros s [? _]]| |done].
    intros a s (? & ? & ? & ?). split_and!; [done..|]. by left.
  - intros []. eapply (triple_bind _ _ _ _ (λ _, committed [ROnSuccess])).
    { apply triple_modify. intros s (Ho & ? & ? & ? & ?). split_and!; try done. cbn. by rewrite Ho. }
    intros []. pose proof (sleeper_success (device_flags v)) as Hs.
    eapply (triple_bind _ _ _ _ (λ _ s, connected (r_dba s) = false ∧ saved (r_dba s) = None
      ∧ admitted (r_vars s)
      ∧ r_out s = [ROnSuccess; RResult (sleeper_resultcode env (device_flags v))])).
    { eapply triple_weaken; [apply send_result_committed| |done].
      - intros E. by rewrite E in Hs.
      - intros a s (? & ? & ? & Ho). rewrite Hs in Ho. done. }
    intros []. apply triple_modify. intros s (? & ? & ? & Ho). split_and!; [done..|].
    right. exists (sleeper_resultcode env (device_flags v)). split; [done|]. cbn. by rewrite Ho.
Qed.
(** One statement of the handler: what it establishes, or a refusal. *)
Ltac reg_step Q L :=
  eapply (triple_bind _ _ _ _ Q);
    [eapply (triple_weaken _ _ Q _ refused); [L|done|by left]|].

Lemma register_device_ok :
  triple (before_tx false (λ v, v = initial_vars rq)) (register_device env rq)
    (λ _, accepted) (λ s, refused s ∨ accepted s).
Proof using no_location_0.
  set (I := λ v, v = initial_vars rq). unfold register_device.
  reg_step (λ _ : unit, before_tx false I) ltac:(
    eapply triple_weaken; [by apply check_ok; [apply before_tx_unsent|..]|by intros a s [? _]|done]).
  intros []. reg_step (λ _ : unit, before_tx false I) ltac:(
    eapply triple_weaken; [by apply check_ok; [apply before_tx_unsent|..]|by intros a s [? _]|done]).
  intros []. apply triple_read. intros c.
  destruct (connect (env_connect_ok env) c) as [ok c'] eqn:Ec.
  eapply (triple_bind _ _ _ _ (λ _, before_tx ok I)).
  { apply triple_modify. intros s [(? & ? & [? _] & ? & ?) <-]. unfold connect in Ec.
    destruct (connected (r_dba s)) eqn:Ecn; injection Ec as <- <-;
      (split_and!; [done..|by split|done|done]). }
  intros []. reg_step (λ _ : unit, before_tx true I) ltac:(
    eapply triple_weaken; [by apply check_ok; [apply before_tx_unsent|..]|
      by intros a s [? <-]|done]).
  intros []. reg_step (λ _ : unit, before_tx true identified) ltac:(
    apply guard_ok, device_auth_ok).
  intros []. reg_step (λ _ : Z, before_tx true identified) ltac:(apply load_variables_ok).
  intros flags. eapply (triple_bind _ _ _ _ (λ _, before_tx true identified)).
  { apply triple_modify. intros s (? & ? & ? & ? & [Ha Hc]).
    destruct (Z.eqb_spec (location_id (r_vars s)) 0) as [E|]; [|by split_and!].
    split_and!; [done..|]. unfold identified. cbn. split; [done|].
    destruct (rq_credentials rq); [|done]. destruct Hc. congruence. }
  intros []. eapply (triple_bind _ _ _ _ (λ _, in_tx identified)).
  { apply triple_modify. intros s (? & ? & [? Hc] & Hd & ?). split_and!; cbn; try done.
    - by rewrite Hd.
    - by apply Hc. }
  intros []. apply triple_read. intros v.
  reg_step (λ _ : unit, in_tx identified) ltac:(apply guard_ok;
    destruct (device_id v =? 0); [eapply triple_pre; [apply add_device_ok|by intros s [? _]]|
      by apply triple_ret; intros s [? _]]).
  clear v. intros []. apply triple_read. intros v.
  set (A v' := identified v' ∧ v' = v).
  eapply (triple_pre _ (in_tx A)); [|by intros s [(? & ? & ? & ? & ?) ?]].
  reg_step (λ (_ : unit) s, in_tx A s ∧ device_enabled v = true) ltac:(
    by apply check_ok; [apply in_tx_unsent|..]).
  intros []. reg_step (λ (_ : unit) s, (in_tx A s ∧ device_enabled v = true)
    ∧ location_enabled v = true) ltac:(
    by apply check_ok; [intros s [? _]; by eapply in_tx_unsent|..]).
  intros []. set (ok_location := negb (_ || _)).
  reg_step (λ _ : unit, in_tx (λ w, authenticated (user_id w) ∧ device_enabled w = true
      ∧ location_enabled w = true ∧ location_id w ≠ 0)) ltac:(
    eapply triple_weaken; [by apply check_ok; [intros s [[? _] _]; by eapply in_tx_unsent|..]| |done]).
  { intros a s [[[(? & ? & ? & ? & [[Ha _] Hv]) He] Hle] Hok]. unfold ok_location in Hok.
    apply negb_true_iff, orb_false_iff in Hok as [Hl _]. apply Z.eqb_neq in Hl.
    rewrite <- Hv in He, Hle, Hl. by split_and!. }
  intros []. reg_step (λ _ : unit, in_tx admitted) ltac:(apply guard_ok;
    eapply triple_weaken; [by apply add_channels_ok| |done]).
  { intros [|] s; [|done]. intros (? & ? & ? & ? & (? & ? & ? & ?) & ?). by split_and!. }
  intros []. reg_step (λ _ : unit, in_tx admitted) ltac:(apply store_device_ok).
  intros []. eapply (triple_bind _ _ _ _ (λ (_ : unit) s, r_out s = []
    ∧ saved (r_dba s) = None ∧ connected (r_dba s) = true ∧ admitted (r_vars s))).
  { apply triple_modify. by intros s (? & ? & ? & ? & ?). }
  intros []. eapply (triple_bind _ _ _ _ (λ _, committed [])).
  { apply triple_modify. by intros s (? & ? & ? & ?). }
  intros []. eapply triple_weaken; [apply finish_ok|done|by right].
Qed.
End proofs.

Lemma register_device_outcome `{DeviceDao DB} env rq (d0 : DB) :
  (∀ d pwd, location_auth d 0 pwd = None) →
  let s := register_device_run env rq d0 in refused d0 s ∨ accepted env rq d0 s.
Proof.
  intros Hloc. pose proof (register_device_ok env rq d0 Hloc) as Ht.
  specialize (Ht (Reg (Dba false d0 None) (initial_vars rq) [])). unfold register_device_run, run.
  destruct (register_device env rq _) as [[[]|] s']; cbn [snd].
  - right. by apply Ht; split_and!.
  - by apply Ht; split_and!.
Qed.

(** ** Properties *)


(** Whom the server admits: when it is told of the device, the registration
    has been authenticated (the user is the owner of the location whose password
    was given, or the one the key authorizes), the device and its location are
    enabled, a location is set, and the device had as many channels in the database
    as it has declared (up to the first of type 0); the result is one of the
    successes, sent after the server was told. *)
Theorem register_device_admits `{DeviceDao DB} env rq (d0 : DB)
    (Hlocation : ∀ d pwd, location_auth d 0 pwd = None)
    (Hadmitted : ROnSuccess ∈ r_out (register_device_run env rq d0)) :
  let s := register_device_run env rq d0 in let v := r_vars s in
  authenticated env rq d0 (user_id v)
  ∧ device_enabled v = true ∧ location_enabled v = true ∧ location_id v ≠ 0
  ∧ (∃ d, get_device_channel_count d (device_id v) = processed_channels (visited_channels rq))
  ∧ ∃ code, is_success code = true ∧ r_out s = [ROnSuccess; RResult code; RAfterSuccess].
Proof.
  cbn zeta. destruct (register_device_outcome env rq d0 Hlocation)
    as [(_ & _ & _ & code & e & Ho & He & _)|(_ & _ & (? & ? & ? & ? & ?) & Ho)].
  - rewrite Ho in Hadmitted. apply elem_of_cons in Hadmitted as [|Hin]; [done|].
    apply list_elem_of_singleton in Hin as <-. done.
  - split_and!; [done..|]. destruct Ho as [Ho|?]; [|done]. rewrite Ho in Hadmitted.
    apply elem_of_cons in Hadmitted as [|Hin]; [done|]. by apply list_elem_of_singleton in Hin.
Qed.

(** A database that holds the numbers and types of the channels of one new device. *)
Definition dao_object_ex : ObjectDao (list (Z * Z)) :=
  {| get_user_id_by_email _ _ := 3; get_object_id _ _ _ := Some 0;
     get_authkey_hash _ _ := None; st_bcrypt_check _ _ := false |}.
Definition dao_ex : DeviceDao (list (Z * Z)) :=
  {| device_object_dao := dao_object_ex;
     location_auth _ _ _ := None;
     get_device_reg_enabled _ _ := true;
     get_device_limit_left _ _ := 5;
     get_location_id _ _ enabled := if enabled then 7 else 0;
     add_device_row d _ := (1, d);
     get_device_id _ _ _ := 0;
     get_device_variables _ _ := None;
     get_channel_properties d _ n :=
       match find_first (λ c, c.1 =? n) d with Some c => (n + 100, c.2, 0) | None => (0, 0, 0) end;
     add_channel d row := (cr_number row + 100, d ++ [(cr_number row, cr_type row)]);
     on_channel_added d _ _ := d;
     update_channel_functions d _ _ _ := d;
     get_device_channel_count d _ := Z.of_nat (length d);
     on_new_device d _ := d;
     update_device d _ _ _ _ _ _ _ _ := (true, d);
     get_channel_fragments d _ := d;
     update_channel_conflict_details d _ _ _ _ := d |}.
Definition env_ex : reg_env := RegEnv true (AuthEnv 10 0 []) 25 0 0.

(** Two channels; or two with the same number, of different types. *)
Definition request_ex (second : Z) : register_request :=
  Request (replicate 16 1) [] [] (CredG [65; 64; 66] (replicate 16 7) 0 0 0) 2
    [Chan 0 2900 0 130 0 0 0; Chan second 3000 0 40 0 0 0].


Lemma register_device_admits_witness :
  authenticated (Dao := dao_ex) env_ex (request_ex 1) []
    (user_id (r_vars (@register_device_run _ dao_ex env_ex (request_ex 1) []))).
Proof.
  refine (proj1 (@register_device_admits _ dao_ex env_ex (request_ex 1) [] (λ d pwd, eq_refl) _)).
  assert (r_out (@register_device_run _ dao_ex env_ex (request_ex 1) [])
    = [ROnSuccess; RResult SUPLA_RESULTCODE_TRUE; RAfterSuccess]) as E
    by (vm_compute; reflexivity).
  rewrite E. apply list_elem_of_here.
Defined.
