(* ===== verification/RegisterClient.v ===== *)
(** * RegisterClient: the registration and the authentication of a client
    (supla-server/src/client/call_handler/abstract_register_client.cpp)

    The handler over its fields, the connection to the database and what it does
    to the client; the queries and updates of the client tables are a parameter
    (class ClientDao). *)

From S2P Require Import Prelude AuthkeyCache RegisterObject.

(** ** The request *)

(** TCS_SuplaRegisterClient_B (an access identifier and its password) or
    TCS_SuplaRegisterClient_D (an e-mail address, a key and, possibly empty, the
    password of the account). *)
Inductive client_credentials :=
  | CredB (access_id : Z) (access_id_pwd : list Z)
  | CredD (email authkey password : list Z).

Record register_request := Request {
  rq_guid : list Z;
  rq_name : list Z;
  rq_softver : list Z;
  rq_credentials : client_credentials
}.

Definition rq_authkey (rq : register_request) : option (list Z) :=
  match rq_credentials rq with CredD _ k _ => Some k | _ => None end.
Definition is_d (rq : register_request) : bool := bool_decide (rq_authkey rq <> None).

(** ** The database *)

(** What [add_client] and [update_client] write. *)
Record client_row := ClientRow {
  cl_access_id : Z; cl_guid : list Z; cl_authkey : option (list Z); cl_name : list Z;
  cl_ipv4 : Z; cl_softver : list Z; cl_proto_version : Z; cl_user_id : Z
}.

(** What [get_client_variables] gives: the flags are those of the access identifier
    the client has been assigned. *)
Record client_variables := ClientVars {
  cv_enabled : bool; cv_access_id : Z; cv_accessid_enabled : bool; cv_accessid_active : bool
}.

Class ClientDao (DB : Type) := {
  client_object_dao :: ObjectDao DB;
  (* the user, whether it is enabled, whether it is active *)
  access_id_auth : DB → Z → list Z → option (Z * bool * bool);
  get_client_reg_enabled : DB → Z → bool;
  get_client_limit_left : DB → Z → Z;
  get_client_count : DB → Z → Z;
  get_access_id : DB → Z → bool → bool → Z;
  add_client_row : DB → client_row → Z * DB;
  get_client_access_id : DB → Z → Z * bool * bool;
  get_client_id : DB → Z → list Z → Z;
  get_client_variables : DB → Z → option client_variables;
  update_client_row : DB → Z → client_row → bool * DB;
  (* the check of the e-mail address and the password of the account *)
  superuser_check : DB → Z → list Z → list Z → bool
}.

(** ** The fields of the handler *)

Record vars := Vars {
  user_id : Z;
  access_id : Z;
  client_id : Z;
  accessid_enabled : bool;
  accessid_active : bool;
  client_enabled : bool;
  pwd_is_set : bool;
  should_rollback : bool;
  superuser : bool;
  resultcode : Z
}.

(** Assignments to the fields. *)
Definition set_user_id (x : Z) (v : vars) : vars :=
  Vars x (access_id v) (client_id v) (accessid_enabled v) (accessid_active v)
    (client_enabled v) (pwd_is_set v) (should_rollback v) (superuser v) (resultcode v).
Definition set_access_id (x : Z) (v : vars) : vars :=
  Vars (user_id v) x (client_id v) (accessid_enabled v) (accessid_active v)
    (client_enabled v) (pwd_is_set v) (should_rollback v) (superuser v) (resultcode v).
Definition set_client_id (x : Z) (v : vars) : vars :=
  Vars (user_id v) (access_id v) x (accessid_enabled v) (accessid_active v)
    (client_enabled v) (pwd_is_set v) (should_rollback v) (superuser v) (resultcode v).
Definition set_accessid_enabled (x : bool) (v : vars) : vars :=
  Vars (user_id v) (access_id v) (client_id v) x (accessid_active v) (client_enabled
    v) (pwd_is_set v) (should_rollback v) (superuser v) (resultcode v).
Definition set_accessid_active (x : bool) (v : vars) : vars :=
  Vars (user_id v) (access_id v) (client_id v) (accessid_enabled v) x (client_enabled
    v) (pwd_is_set v) (should_rollback v) (superuser v) (resultcode v).
Definition set_client_enabled (x : bool) (v : vars) : vars :=
  Vars (user_id v) (access_id v) (client_id v) (accessid_enabled v) (accessid_active
    v) x (pwd_is_set v) (should_rollback v) (superuser v) (resultcode v).
Definition set_pwd_is_set (x : bool) (v : vars) : vars :=
  Vars (user_id v) (access_id v) (client_id v) (accessid_enabled v) (accessid_active
    v) (client_enabled v) x (should_rollback v) (superuser v) (resultcode v).
Definition set_should_rollback (x : bool) (v : vars) : vars :=
  Vars (user_id v) (access_id v) (client_id v) (accessid_enabled v) (accessid_active
    v) (client_enabled v) (pwd_is_set v) x (superuser v) (resultcode v).
Definition set_superuser (x : bool) (v : vars) : vars :=
  Vars (user_id v) (access_id v) (client_id v) (accessid_enabled v) (accessid_active
    v) (client_enabled v) (pwd_is_set v) (should_rollback v) x (resultcode v).
Definition set_resultcode (x : Z) (v : vars) : vars :=
  Vars (user_id v) (access_id v) (client_id v) (accessid_enabled v) (accessid_active
    v) (client_enabled v) (pwd_is_set v) (should_rollback v) (superuser v) x.

(** What the handler does to the client and to the rest of the server; a result
    in one of its four formats, with the identifiers and the counts or without. *)
Inductive reg_event :=
  | CResult (format : Z) (result_code : Z) (full : bool)
  | CHold
  | CUpdateLists
  | COnSuccess.

(** The surroundings, and the mode: [restrict_to_authentication],
    [stay_connected] and [dont_send_result] are set by [authenticate]. *)
Record reg_env := RegEnv {
  env_connect_ok : bool;
  env_auth : auth_env;
  env_proto_version : Z;
  env_ipv4 : Z;
  restrict_to_authentication : bool;
  stay_connected : bool;
  dont_send_result : bool
}.

Definition creg (DB : Type) : Type := reg DB vars reg_event.

(** ** The handler *)

Section handler.
Context {DB : Type} {Dao : ClientDao DB} (env : reg_env) (rq : register_request).
Open Scope handler_scope.

Definition result_format : Z :=
  if 19 <=? env_proto_version env then 4
  else if 17 <=? env_proto_version env then 3
  else if 9 <=? env_proto_version env then 2 else 1.

Definition send_result (code : Z) : M (creg DB) unit :=
  set_vars (λ v, set_superuser false (set_resultcode code v)) ;;;
  let* v := get_vars in
  let* c := gets r_dba in
  when (connected c)
    (when (should_rollback v) (set_dba rollback) ;;;
     when (negb (stay_connected env)) (set_dba disconnect)) ;;;
  when (negb (dont_send_result env))
    (let ok := code =? SUPLA_RESULTCODE_TRUE in
     emit (CResult result_format code ok) ;;;
     emit (if ok then CUpdateLists else CHold)).

Definition fail {A} (code : Z) (a : A) : M (creg DB) A := send_result code ;;; ret a.

(** "if (!m) { return; }" *)
Definition guard (m : M (creg DB) bool) : M (creg DB) unit :=
  let* ok := m in if ok then ret tt else leave.
Definition check (b : bool) (code : Z) : M (creg DB) unit :=
  if b then ret tt else send_result code ;;; leave.

Definition client_auth : M (creg DB) bool :=
  let* v := get_vars in
  let* d := get_db in
  let* authorized :=
    match rq_credentials rq with
    | CredB _ pwd =>
        match access_id_auth d (access_id v) pwd with
        | Some (user, enabled, active) =>
            set_vars (λ v, set_accessid_active active
                             (set_accessid_enabled enabled (set_user_id user v))) ;;;
            ret true
        | None =>
            set_vars (λ v, set_accessid_active false (set_accessid_enabled false v)) ;;;
            ret false
        end
    | CredD email authkey _ =>
        let '(ok, user) :=
          object_authkey_auth (env_auth env) d (rq_guid rq) email authkey (user_id v) in
        set_vars (set_user_id user) ;;; ret ok
    end in
  let* v := get_vars in
  if negb authorized then fail SUPLA_RESULTCODE_BAD_CREDENTIALS false
  else if user_id v =? 0 then fail SUPLA_RESULTCODE_BAD_CREDENTIALS false
  else ret true.

(** [superuser_authorize] with the e-mail address and the password of the request. *)
Definition superuser_authorize : M (creg DB) unit :=
  let* v := get_vars in
  let* d := get_db in
  match rq_credentials rq with
  | CredD email _ password => set_vars (set_superuser (superuser_check d (user_id v) email password))
  | _ => ret tt
  end.

(** The access identifier of the first client of a user, or of one that gives the
    password of the account: an enabled and active one, else an active one, else
    any. *)
Definition choose_access_id : M (creg DB) unit :=
  let* v := get_vars in
  let* d := get_db in
  when ((access_id v =? 0) && is_d rq
        && ((get_client_count d (user_id v) =? 0) || superuser v))
    (let a1 := get_access_id d (user_id v) true true in
     if 0 <? a1 then
       set_vars (λ v, set_accessid_active true (set_accessid_enabled true (set_access_id a1 v)))
     else
       let a2 := get_access_id d (user_id v) false true in
       if 0 <? a2 then
         set_vars (λ v, set_accessid_active true (set_accessid_enabled false (set_access_id a2 v)))
       else
         set_vars (λ v, set_accessid_active false (set_accessid_enabled false
                          (set_access_id (get_access_id d (user_id v) false false) v)))).

Definition new_client_row (v : vars) : client_row :=
  ClientRow (access_id v) (rq_guid rq) (rq_authkey rq) (rq_name rq) (env_ipv4 env)
    (rq_softver rq) (env_proto_version env) (user_id v).

Definition add_client : M (creg DB) bool :=
  let* v := get_vars in
  when (pwd_is_set v) superuser_authorize ;;;
  let* v := get_vars in
  let* d := get_db in
  if negb (get_client_reg_enabled d (user_id v)) && negb (superuser v)
  then fail (if pwd_is_set v then SUPLA_RESULTCODE_BAD_CREDENTIALS
             else SUPLA_RESULTCODE_REGISTRATION_DISABLED) false
  else if get_client_limit_left d (user_id v) <=? 0
  then fail SUPLA_RESULTCODE_CLIENT_LIMITEXCEEDED false
  else
    choose_access_id ;;;
    let* v := get_vars in
    let* d := get_db in
    let '(id, d') := add_client_row d (new_client_row v) in
    set_vars (set_client_id id) ;;;
    set_dba (write (λ _, d')) ;;;
    if id =? 0 then fail SUPLA_RESULTCODE_TEMPORARILY_UNAVAILABLE false
    else
      set_vars (set_client_enabled true) ;;;
      let* v := get_vars in
      let* d := get_db in
      when (access_id v =? 0)
        (let '(a, enabled, active) := get_client_access_id d id in
         set_vars (λ v,
           let v := set_access_id a v in
           if negb (a =? 0) then
             let v := if (enabled : bool) then set_accessid_enabled true v else v in
             if (active : bool) then set_accessid_active true v else v
           else v)) ;;;
      ret true.

Definition update_client : M (creg DB) bool :=
  let* v := get_vars in
  when ((access_id v =? 0) && pwd_is_set v)
    (when (negb (superuser v)) superuser_authorize ;;;
     let* v := get_vars in
     let* d := get_db in
     when (superuser v)
       (let a := get_access_id d (user_id v) true true in
        set_vars (λ v,
          let v := set_access_id a v in
          if negb (a =? 0) then set_accessid_active true (set_accessid_enabled true v)
          else set_pwd_is_set false v))) ;;;
  let* v := get_vars in
  let* d := get_db in
  let '(ok, d') := update_client_row d (client_id v) (new_client_row v) in
  set_dba (write (λ _, d')) ;;;
  if (ok : bool) then ret true else fail SUPLA_RESULTCODE_TEMPORARILY_UNAVAILABLE false.

Definition initial_vars (su : bool) : vars :=
  Vars 0 (match rq_credentials rq with CredB a _ => a | _ => 0 end) 0 false false true false
       false su 0.

(** The variables of a known client: the flags of its access identifier are added
    to those of the one presented. The result is [_access_id]. *)
Definition load_variables : M (creg DB) Z :=
  let* v := get_vars in
  let* d := get_db in
  let id := get_client_id d (user_id v) (rq_guid rq) in
  set_vars (set_client_id id) ;;;
  if id =? 0 then ret (access_id v)
  else
    match get_client_variables d id with
    | None => send_result SUPLA_RESULTCODE_TEMPORARILY_UNAVAILABLE ;;; leave
    | Some cv =>
        set_vars (λ v,
          let v := set_client_enabled (cv_enabled cv) v in
          let v := if cv_accessid_enabled cv then set_accessid_enabled true v else v in
          if cv_accessid_active cv then set_accessid_active true v else v) ;;;
        ret (cv_access_id cv)
    end.

Definition full_password : bool :=
  match rq_credentials rq with CredD _ _ password => bool_decide (password <> []) | _ => false end.

(** A known client, or a new one. *)
Definition add_or_update (_access_id : Z) : M (creg DB) unit :=
  let restricted := restrict_to_authentication env in
  let* v := get_vars in
  if client_id v =? 0 then
    check (negb restricted) SUPLA_RESULTCODE_CLIENT_NOT_EXISTS ;;;
    guard add_client
  else
    set_vars (λ v, if (0 <? _access_id) && is_d rq then set_access_id _access_id v else v) ;;;
    check (client_enabled v) SUPLA_RESULTCODE_CLIENT_DISABLED ;;;
    guard (if restricted then ret true else update_client).

Definition register_client : M (creg DB) unit :=
  check (is_valid_guid (rq_guid rq)) SUPLA_RESULTCODE_GUID_ERROR ;;;
  check (match rq_authkey rq with Some k => is_valid_authkey k | None => true end)
        SUPLA_RESULTCODE_AUTHKEY_ERROR ;;;
  let* c := gets r_dba in
  let '(ok, c') := connect (env_connect_ok env) c in
  set_dba (λ _, c') ;;;
  check ok SUPLA_RESULTCODE_TEMPORARILY_UNAVAILABLE ;;;
  let restricted := restrict_to_authentication env in
  set_vars (set_pwd_is_set (negb restricted && full_password)) ;;;
  guard client_auth ;;;
  let* _access_id := load_variables in
  when (negb restricted)
    (set_vars (set_should_rollback true) ;;; set_dba start_transaction) ;;;
  add_or_update _access_id ;;;
  when (negb restricted)
    (set_dba commit ;;; set_vars (set_should_rollback false)) ;;;
  let* v := get_vars in
  check (negb (access_id v =? 0))
        (if pwd_is_set v then SUPLA_RESULTCODE_BAD_CREDENTIALS
         else SUPLA_RESULTCODE_ACCESSID_NOT_ASSIGNED) ;;;
  check (accessid_enabled v) SUPLA_RESULTCODE_ACCESSID_DISABLED ;;;
  check (accessid_active v) SUPLA_RESULTCODE_INACTIVE ;;;
  when (negb restricted) (emit COnSuccess) ;;;
  send_result SUPLA_RESULTCODE_TRUE.

(** A run, on a connection that may already be open, for a client whose superuser
    authorization is [su]. *)
Definition register_client_run (open su : bool) (d : DB) : creg DB :=
  run register_client (Reg (Dba open d None) (initial_vars su) []).
End handler.

(** [authenticate]: a registration that only checks, with the request made of the
    details given, an e-mail address and a key or an access identifier. *)
Record authorization_details := AuthDetails {
  ad_access_id : Z;
  ad_access_id_pwd : list Z;
  ad_email : list Z;
  ad_authkey : list Z;
  ad_guid : list Z
}.

Definition authenticate_request (auth : authorization_details) : register_request :=
  Request (ad_guid auth) [] []
    (if bool_decide (ad_email auth <> []) then CredD (ad_email auth) (ad_authkey auth) []
     else CredB (ad_access_id auth) (ad_access_id_pwd auth)).

Definition authenticate_env (env : reg_env) (stay : bool) : reg_env :=
  RegEnv (env_connect_ok env) (env_auth env) (env_proto_version env) 0 true stay true.

Definition authenticate `{ClientDao DB} (env : reg_env) (auth : authorization_details)
    (stay open su : bool) (d : DB) : creg DB :=
  register_client_run (authenticate_env env stay) (authenticate_request auth) open su d.

(** ** What a registration establishes *)

Section proofs.
Context {DB : Type} {Dao : ClientDao DB} (env : reg_env) (rq : register_request).
Context (su : bool) (d0 : DB).
Open Scope handler_scope.

(** The user the credentials stand for in the initial database. *)
Definition authenticated (user : Z) : Prop :=
  user ≠ 0
  ∧ match rq_credentials rq with
    | CredB a pwd => ∃ enabled active, access_id_auth d0 a pwd = Some (user, enabled, active)
    | CredD email k _ =>
        object_authkey_auth (env_auth env) d0 (rq_guid rq) email k 0 = (true, user)
    end.

(** The client is authorized as a superuser: it was before the registration, or
    the request has the e-mail address and the password of the account. *)
Definition authorized (user : Z) : Prop :=
  su = true
  ∨ match rq_credentials rq with
    | CredD email _ password => superuser_check d0 user email password = true
    | _ => False
    end.

(** The client of the request is in the database and enabled, or may be added. *)
Definition known_client (user : Z) : Prop :=
  get_client_id d0 user (rq_guid rq) ≠ 0
  ∧ ∃ cv, get_client_variables d0 (get_client_id d0 user (rq_guid rq)) = Some cv
      ∧ cv_enabled cv = true.
Definition new_client (user : Z) : Prop :=
  get_client_id d0 user (rq_guid rq) = 0 ∧ 0 < get_client_limit_left d0 user
  ∧ (get_client_reg_enabled d0 user = true ∨ authorized user)
  ∧ restrict_to_authentication env = false.

(** The codes of a refusal that keeps what the registration has written. *)
Definition is_late (code : Z) : bool :=
  (code =? SUPLA_RESULTCODE_ACCESSID_NOT_ASSIGNED) || (code =? SUPLA_RESULTCODE_BAD_CREDENTIALS)
  || (code =? SUPLA_RESULTCODE_ACCESSID_DISABLED) || (code =? SUPLA_RESULTCODE_INACTIVE).

(** What the client is sent, and what is done to it. *)
Definition result_events (code : Z) : list reg_event :=
  if dont_send_result env then []
  else let ok := code =? SUPLA_RESULTCODE_TRUE in
       [CResult (result_format env) code ok; if ok then CUpdateLists else CHold].

(** The stages of the handler before its result. *)
Inductive stage := Opening | Before | Started | Writing | Committed.

Definition stage_db (p : stage) (s : creg DB) : Prop :=
  match p with
  | Opening => saved (r_dba s) = None ∧ db (r_dba s) = d0
  | Before => saved (r_dba s) = None ∧ db (r_dba s) = d0 ∧ connected (r_dba s) = true
  | Started => saved (r_dba s) = Some d0 ∧ db (r_dba s) = d0 ∧ connected (r_dba s) = true
               ∧ should_rollback (r_vars s) = true
  | Writing => saved (r_dba s) = Some d0 ∧ connected (r_dba s) = true
               ∧ should_rollback (r_vars s) = true
  | Committed => saved (r_dba s) = None ∧ should_rollback (r_vars s) = false
                 ∧ connected (r_dba s) = true
  end.

Definition at_stage (p : stage) (V : vars → Prop) (s : creg DB) : Prop :=
  r_out s = [] ∧ stage_db p s ∧ V (r_vars s).

(** The result [code] has been sent, after the events [out]. *)
Definition sent (out : list reg_event) (code : Z) (s : creg DB) : Prop :=
  saved (r_dba s) = None ∧ (stay_connected env = false → connected (r_dba s) = false)
  ∧ superuser (r_vars s) = false ∧ resultcode (r_vars s) = code
  ∧ r_out s = out ++ result_events code.

Definition refused (s : creg DB) : Prop :=
  db (r_dba s) = d0 ∧ ∃ code, code ≠ SUPLA_RESULTCODE_TRUE ∧ sent [] code s.

Notation never := (λ _ : creg DB, False).
Definition keeps (V : vars → Prop) : Prop :=
  ∀ v code, V v → V (set_superuser false (set_resultcode code v)).

(** What [send_result] does to the connection. *)
Definition closing (v : vars) (c : dba DB) : dba DB :=
  if connected c then
    let c := if should_rollback v then rollback c else c in
    if stay_connected env then c else disconnect c
  else c.

Lemma send_result_eq code s :
  send_result env code s
  = (Some tt, Reg (closing (r_vars s) (r_dba s))
                  (set_superuser false (set_resultcode code (r_vars s)))
                  (r_out s ++ result_events code)).
Proof.
  destruct s as [c v o]. unfold send_result, closing, result_events, bind, when, gets, get_vars,
    set_vars, set_dba, emit, modify, ret. cbn.
  destruct (connected c), (should_rollback v), (stay_connected env), (dont_send_result env); cbn;
    by rewrite <- ?app_assoc, ?app_nil_r.
Qed.

(** [send_result] at any stage: what it leaves of the fields and the database. *)
Lemma send_result_ok out p V code :
  keeps V →
  triple (λ s, r_out s = out ∧ stage_db p s ∧ V (r_vars s)) (send_result env code)
    (λ _ s, sent out code s ∧ V (r_vars s) ∧ (p ≠ Committed → db (r_dba s) = d0)) never.
Proof.
  intros HV [[cn d sv] v o] (Ho & Hp & Hv). cbn in Ho. subst o. rewrite send_result_eq.
  unfold sent, closing. specialize (HV v code Hv). cbn.
  destruct p; cbn in Hp; destruct_and?; subst;
    split_and!; cbn; try done; repeat (case_match; cbn in *; try done).
Qed.

Lemma sent_refused p V code (P : creg DB → Prop) :
  (∀ s, P s → at_stage p V s) → p ≠ Committed → code ≠ SUPLA_RESULTCODE_TRUE →
  triple P (send_result env code) (λ _, refused) never.
Proof.
  intros HP Hp Hc. eapply triple_pre with (P' := at_stage p (λ _, True)).
  - eapply triple_weaken; [by apply (send_result_ok [] p (λ _, True))| |done].
    intros _ s (Hs & _ & Hd). split; [by apply Hd|by exists code].
  - intros s Hs. by destruct (HP s Hs) as (? & ? & _).
Qed.

(** A refusal as the end of an operation, and of the handler. *)
Lemma client_refuse p V code (P : creg DB → Prop) (Q : bool → creg DB → Prop) :
  (∀ s, P s → at_stage p V s) → p ≠ Committed → code ≠ SUPLA_RESULTCODE_TRUE →
  (∀ s, refused s → Q false s) →
  triple P (fail env code false) Q never.
Proof.
  intros HP Hp Hc HQ. unfold fail. eapply triple_bind; [by eapply sent_refused|].
  intros []. by apply triple_ret.
Qed.

Lemma client_refuse_leave {A} p V code (P : creg DB → Prop) (Q : A → creg DB → Prop) :
  (∀ s, P s → at_stage p V s) → p ≠ Committed → code ≠ SUPLA_RESULTCODE_TRUE →
  triple P (send_result env code ;;; leave) Q refused.
Proof.
  intros HP Hp Hc. eapply (triple_bind _ _ _ _ (λ _, refused)).
  - eapply triple_weaken; [by eapply sent_refused|done|done].
  - intros []. by apply triple_leave.
Qed.

Lemma client_check_ok p V b code :
  p ≠ Committed → code ≠ SUPLA_RESULTCODE_TRUE →
  triple (at_stage p V) (check env b code) (λ _ s, at_stage p V s ∧ b = true) refused.
Proof.
  intros Hp Hc. unfold check. destruct b; [by apply triple_ret|].
  by eapply client_refuse_leave.
Qed.

Lemma client_guard_ok (P Q : creg DB → Prop) (m : M (creg DB) bool) :
  triple P m (λ b s, if b then Q s else refused s) never →
  triple P (guard m) (λ _, Q) refused.
Proof.
  intros Hm. unfold guard. eapply (triple_bind _ _ _ _ (λ b s, if b : bool then Q s else refused s)).
  - eapply triple_weaken; [done|done|done].
  - intros [|]; [by apply triple_ret|by apply triple_leave].
Qed.

Lemma stage_modify p (V W : vars → Prop) f E :
  (∀ v, V v → W (f v)) → (∀ v, should_rollback (f v) = should_rollback v) →
  triple (at_stage p V) (set_vars f) (λ _, at_stage p W) E.
Proof.
  intros HV Hr. apply triple_modify. intros s (? & Hp & ?).
  split_and!; [done| |by apply HV]. destruct p; cbn in *; by rewrite ?Hr.
Qed.

(** The fields that have been read. *)
Lemma read_vars {B} p V (k : vars → M (creg DB) B) Q E :
  (∀ v, triple (at_stage p (λ w, V w ∧ w = v)) (k v) Q E) →
  triple (at_stage p V) (let* v := get_vars in k v) Q E.
Proof.
  intros H. apply triple_read. intros v. eapply triple_pre; [apply H|].
  by intros s [(? & ? & ?) ?].
Qed.

(** The database, before anything has been written. *)
Definition unwritten (p : stage) : bool :=
  match p with Writing | Committed => false | _ => true end.

Lemma read_db {B} p V (k : DB → M (creg DB) B) Q E :
  (∀ d, (unwritten p = true → d = d0) → triple (at_stage p V) (k d) Q E) →
  triple (at_stage p V) (let* d := get_db in k d) Q E.
Proof.
  intros H. apply triple_read. intros d s [(? & Hp & ?) Hd]. apply H; [|done].
  intros Hu. subst d. destruct p; cbn in *; by destruct_and?.
Qed.

Lemma to_writing V s : at_stage Started V s → at_stage Writing V s.
Proof. by intros (? & (? & ? & ? & ?) & ?). Qed.

(** The fields before and after the authentication, and with the variables of the
    client. *)
Definition unidentified (v : vars) : Prop :=
  user_id v = 0 ∧ superuser v = su
  ∧ access_id v = match rq_credentials rq with CredB a _ => a | _ => 0 end.
Definition identified (v : vars) : Prop :=
  authenticated (user_id v) ∧ (superuser v = true → authorized (user_id v)).
Definition loaded (v : vars) : Prop :=
  identified v ∧ client_id v = get_client_id d0 (user_id v) (rq_guid rq)
  ∧ (client_id v ≠ 0 → ∃ cv, get_client_variables d0 (client_id v) = Some cv
                          ∧ cv_enabled cv = client_enabled v).
Definition enrolled (v : vars) : Prop :=
  authenticated (user_id v) ∧ client_enabled v = true
  ∧ (known_client (user_id v) ∨ new_client (user_id v)).

Lemma client_auth_ok :
  triple (at_stage Before unidentified) (client_auth env rq)
    (λ b s, if b then at_stage Before identified s else refused s) never.
Proof.
  set (K (b : bool) (v : vars) := user_id v ≠ 0 → b = true → identified v).
  unfold client_auth. apply read_vars. intros v. apply read_db. intros d Hd.
  specialize (Hd eq_refl). subst d.
  assert (∀ f (b : bool), (∀ w, unidentified v → w = v → K b (f w)) →
    (∀ w, should_rollback (f w) = should_rollback w) →
    triple (at_stage Before (λ w, unidentified w ∧ w = v)) (set_vars f ;;; ret b)
      (λ b, at_stage Before (K b)) never) as Hset.
  { intros f b HK Hr. eapply (triple_bind _ _ _ _ (λ _, at_stage Before (K b))).
    - apply stage_modify; [|done]. intros w [Hu Hw]. apply HK; [by rewrite <- Hw|done].
    - intros []. by apply triple_ret. }
  eapply (triple_bind _ _ _ _ (λ b, at_stage Before (K b))).
  - destruct (rq_credentials rq) as [a pwd|email k password] eqn:Ec.
    + destruct (access_id_auth d0 (access_id v) pwd) as [[[user en] ac]|] eqn:Ea;
        (apply Hset; [|done]); intros w (_ & Hs & Ha) -> Hu Hb; [|done].
      unfold identified, authenticated, authorized. rewrite Ec in Ha |- *. cbn in *.
      rewrite Ha in Ea. split; [|intros Hv; left; congruence]. split; [done|]. by exists en, ac.
    + destruct (object_authkey_auth _ _ _ _ _ _) as [ok user] eqn:Ea.
      apply Hset; [|done]. intros w (H0 & Hs & _) -> Hu Hb.
      unfold identified, authenticated, authorized. rewrite Ec. cbn in *.
      rewrite H0 in Ea. subst ok. split; [done|]. intros Hv. left. congruence.
  - intros ok. apply read_vars. intros v'.
    destruct ok; cbn [negb]; [|by eapply client_refuse].
    destruct (Z.eqb_spec (user_id v') 0); [by eapply client_refuse|].
    apply triple_ret. intros s (? & ? & HK & Hw). split_and!; [done..|]. apply HK; [by rewrite Hw|done].
Qed.

Lemma client_load_variables_ok :
  triple (at_stage Before identified) (load_variables env rq)
    (λ _, at_stage Before loaded) refused.
Proof.
  unfold load_variables. apply read_vars. intros v. apply read_db. intros d Hd.
  specialize (Hd eq_refl). subst d. cbn zeta.
  set (id := get_client_id d0 (user_id v) (rq_guid rq)).
  eapply (triple_bind _ _ _ _ (λ _, at_stage Before
    (λ w, identified w ∧ user_id w = user_id v ∧ client_id w = id ∧ client_id w = get_client_id d0 (user_id w) (rq_guid rq)))).
  { apply stage_modify; [|done]. intros w [Hi ->]. by split_and!. }
  intros []. destruct (Z.eqb_spec id 0) as [Hz|Hz].
  { apply triple_ret. intros s (? & ? & Hi & Hu & Hc & Hg). split_and!; [done..|].
    unfold loaded. by rewrite <- Hg, Hc, Hz. }
  destruct (get_client_variables d0 id) as [cv|] eqn:Ev.
  - eapply (triple_bind _ _ _ _ (λ _, at_stage Before loaded)); [|intros []; by apply triple_ret].
    apply stage_modify.
    + intros w (Hi & Hu & Hc & Hg). unfold loaded, identified in *. cbn zeta.
      repeat case_match; cbn; (split_and!; [apply Hi..|done|]); intros _; exists cv; by rewrite Hc.
    + intros w. cbn zeta. by repeat case_match.
  - by eapply client_refuse_leave.
Qed.

Lemma superuser_authorize_ok V E :
  (∀ v b, V v → (b = true → authorized (user_id v)) → V (set_superuser b v)) →
  triple (at_stage Started V) (superuser_authorize rq) (λ _, at_stage Started V) E.
Proof.
  intros HV. unfold superuser_authorize. apply read_vars. intros v. apply read_db. intros d Hd.
  specialize (Hd eq_refl). subst d.
  destruct (rq_credentials rq) as [a pwd|email k password] eqn:Ec.
  - apply triple_ret. by intros s (? & ? & ? & _).
  - apply stage_modify; [|done]. intros w [Hw ->]. apply HV; [done|]. intros Hb.
    unfold authorized. rewrite Ec. by right.
Qed.

(** Conditions on the fields that do not depend on the access identifier. *)
Definition stable (V : vars → Prop) : Prop :=
  ∀ v a enabled active,
    V v → V (set_accessid_active active (set_accessid_enabled enabled (set_access_id a v))).

Lemma choose_access_id_ok V E :
  stable V →
  triple (at_stage Started V) (choose_access_id rq) (λ _, at_stage Started V) E.
Proof.
  intros HV. unfold choose_access_id. apply read_vars. intros v. apply read_db. intros d Hd.
  specialize (Hd eq_refl). subst d. unfold when. cbn zeta.
  case_match; [|by apply triple_ret; intros s (? & ? & ? & _)].
  repeat case_match; (apply stage_modify; [|done]); intros w [Hw _]; by apply HV.
Qed.

Lemma stage_write p V f E :
  p = Started ∨ p = Writing →
  triple (at_stage p V) (set_dba (write f)) (λ _, at_stage Writing V) E.
Proof.
  intros Hp. apply triple_modify. intros s (? & Hs & ?). split_and!; [done| |done].
  destruct Hp as [-> | ->]; cbn in *; by destruct_and?.
Qed.

Definition unknown (v : vars) : Prop := loaded v ∧ client_id v = 0.

Lemma add_client_ok :
  restrict_to_authentication env = false →
  triple (at_stage Started unknown) (add_client env rq)
    (λ b s, if b then at_stage Writing enrolled s else refused s) never.
Proof.
  intros Hr. unfold add_client. apply read_vars. intros v0.
  eapply (triple_bind _ _ _ _ (λ _, at_stage Started unknown)).
  { eapply triple_pre with (P' := at_stage Started unknown); [|by intros s (? & ? & ? & _)].
    unfold when. case_match; [|by apply triple_ret]. apply superuser_authorize_ok.
    intros v b ([[Ha Hs] [Hc Hv]] & Hz) Hb. done. }
  intros []. apply read_vars. intros v. apply read_db. intros d Hd.
  specialize (Hd eq_refl). subst d.
  destruct (negb _ && _) eqn:Ereg.
  { eapply client_refuse; [done|done| |done]. by case_match. }
  destruct (get_client_limit_left d0 (user_id v) <=? 0) eqn:Elim; [by eapply client_refuse|].
  apply Z.leb_gt in Elim.
  set (W (w : vars) := authenticated (user_id w) ∧ new_client (user_id w)).
  eapply triple_pre with (P' := at_stage Started W).
  2: { intros s (? & ? & ([[Ha Hs] [Hc _]] & Hz) & Hv). split_and!; [done..|].
       unfold W, new_client. rewrite Hv in Ha, Hs, Hc, Hz |- *. split_and!; [done|by rewrite <- Hc|done| |done].
       destruct (get_client_reg_enabled _ _); [by left|]. right. apply Hs.
       by destruct (superuser v). }
  eapply (triple_bind _ _ _ _ (λ _, at_stage Started W)).
  { apply choose_access_id_ok. by intros w a en ac. }
  intros []. apply read_vars. intros v'. apply read_db. intros d _.
  destruct (add_client_row d _) as [id d'].
  eapply (triple_bind _ _ _ _ (λ _, at_stage Started W)).
  { apply stage_modify; [|done]. by intros w [Hw _]. }
  intros []. eapply (triple_bind _ _ _ _ (λ _, at_stage Writing W)); [by apply stage_write; left|].
  intros []. destruct (id =? 0); [by eapply client_refuse|].
  eapply (triple_bind _ _ _ _ (λ _, at_stage Writing enrolled)).
  { apply stage_modify; [|done]. intros w [Ha Hn]. split_and!; [done|done|by right]. }
  intros []. apply read_vars. intros v2. apply read_db. intros d2 _.
  eapply (triple_bind _ _ _ _ (λ _, at_stage Writing enrolled)); [|intros []; by apply triple_ret].
  unfold when. case_match; [|by apply triple_ret; intros s (? & ? & ? & _)].
  destruct (get_client_access_id d2 id) as [[a en] ac].
  apply stage_modify.
  - intros w [Hw _]. cbn zeta. by repeat case_match.
  - intros w. cbn zeta. by repeat case_match.
Qed.

Lemma update_client_ok :
  triple (at_stage Started enrolled) (update_client env rq)
    (λ b s, if b then at_stage Writing enrolled s else refused s) never.
Proof.
  unfold update_client. apply read_vars. intros v.
  eapply triple_pre with (P' := at_stage Started enrolled); [|by intros s (? & ? & ? & _)].
  eapply (triple_bind _ _ _ _ (λ _, at_stage Started enrolled)).
  { unfold when at 1. case_match; [|by apply triple_ret].
    eapply (triple_bind _ _ _ _ (λ _, at_stage Started enrolled)).
    { unfold when. case_match; [|by apply triple_ret]. by apply superuser_authorize_ok. }
    intros []. apply read_vars. intros v1. apply read_db. intros d1 _.
    unfold when. case_match; [|by apply triple_ret; intros s (? & ? & ? & _)].
    apply stage_modify; [intros w [Hw _]|intros w]; cbn zeta; by case_match. }
  intros []. apply read_vars. intros v1. apply read_db. intros d1 _.
  destruct (update_client_row d1 _ _) as [ok d'].
  eapply (triple_bind _ _ _ _ (λ _, at_stage Writing enrolled)).
  { eapply triple_pre; [by apply (stage_write Started enrolled); left|by intros s (? & ? & ? & _)]. }
  intros []. destruct ok; [by apply triple_ret|by eapply client_refuse].
Qed.

(** The stage in which the handler works on the client. *)
Definition working : stage := if restrict_to_authentication env then Before else Started.
Definition worked : stage := if restrict_to_authentication env then Before else Writing.

Lemma enable_ok {A} p v f (k : M (creg DB) A) Q :
  p ≠ Committed →
  (∀ w, f w = w ∨ ∃ a, f w = set_access_id a w) →
  triple (at_stage p enrolled) k Q refused →
  triple (at_stage p (λ w, loaded w ∧ w = v ∧ client_id v ≠ 0))
    (set_vars f ;;; check env (client_enabled v) SUPLA_RESULTCODE_CLIENT_DISABLED ;;; k) Q refused.
Proof.
  intros Hp Hf Hk.
  set (R w := loaded w ∧ client_id w ≠ 0 ∧ client_enabled w = client_enabled v).
  eapply (triple_bind _ _ _ _ (λ _, at_stage p R)).
  { apply stage_modify.
    - intros w (Hl & -> & Hz). by destruct (Hf v) as [-> |[a ->]].
    - intros w. by destruct (Hf w) as [-> |[a ->]]. }
  intros []. eapply (triple_bind _ _ _ _ (λ _, at_stage p enrolled)); [|by intros []].
  eapply triple_weaken; [by apply client_check_ok| |done].
  intros _ s [(? & ? & ([[Ha _] [Hc Hv]] & Hz & He)) Hen]. split_and!; [done|done|].
  rewrite Hen in He. split_and!; [done|done|]. left. split; rewrite <- Hc; [done|].
  destruct (Hv Hz) as (cv & ? & Hcv). exists cv. split; [done|]. by rewrite Hcv.
Qed.

Lemma add_or_update_ok a :
  triple (at_stage working loaded) (add_or_update env rq a)
    (λ _, at_stage worked enrolled) refused.
Proof.
  unfold add_or_update. cbn zeta. apply read_vars. intros v.
  assert (∀ (b : bool) (w : vars), (if b then set_access_id a w else w) = w
            ∨ ∃ x, (if b then set_access_id a w else w) = set_access_id x w) as Hf.
  { intros [] w; [right; by exists a|by left]. }
  destruct (Z.eqb_spec (client_id v) 0) as [Ez|Ez].
  - unfold working, worked. destruct (restrict_to_authentication env) eqn:Er; cbn [negb].
    + apply (triple_bind _ _ _ _ (λ _ _, False)); [|by intros [] ? []].
      eapply triple_weaken; [by apply client_check_ok|by intros ? s [_ ?]|done].
    + eapply (triple_bind _ _ _ _ (λ _, at_stage Started unknown)).
      { unfold check. cbn. apply triple_ret. intros s (? & ? & ? & <-). by split_and!. }
      intros []. apply client_guard_ok. by apply add_client_ok.
  - eapply triple_pre; [apply (enable_ok working)|].
    + unfold working. by case_match.
    + intros w. apply Hf.
    + apply client_guard_ok. unfold working, worked.
      destruct (restrict_to_authentication env); [by apply triple_ret|apply update_client_ok].
    + by intros s (? & ? & ? & ?).
Qed.

Definition done_stage : stage := if restrict_to_authentication env then Before else Committed.

(** The fields of an accepted registration. *)
Definition admitted (v : vars) : Prop :=
  enrolled v ∧ access_id v ≠ 0 ∧ accessid_enabled v = true ∧ accessid_active v = true.

(** The result of a registration that has finished its work on the client. *)
Definition finished (s : creg DB) : Prop :=
  enrolled (r_vars s) ∧ (restrict_to_authentication env = true → db (r_dba s) = d0)
  ∧ (admitted (r_vars s)
     ∧ sent (if restrict_to_authentication env then [] else [COnSuccess])
            SUPLA_RESULTCODE_TRUE s
     ∨ ∃ code, is_late code = true ∧ sent [] code s).

Lemma done_db : restrict_to_authentication env = true → done_stage ≠ Committed.
Proof. unfold done_stage. by intros ->. Qed.

Lemma late_check_ok V b code :
  keeps V → is_late code = true → (∀ v, V v → enrolled v) →
  triple (at_stage done_stage V) (check env b code)
    (λ _ s, at_stage done_stage V s ∧ b = true) finished.
Proof.
  intros HV Hc He. unfold check. destruct b; [by apply triple_ret|].
  eapply (triple_bind _ _ _ _ (λ _, finished)); [|intros []; by apply triple_leave].
  eapply triple_weaken; [by apply (send_result_ok [] done_stage V)| |done].
  intros _ s (Hs & Hv & Hd). split_and!; [by apply He|intros Hr; by apply Hd, done_db|].
  right. by exists code.
Qed.

Lemma accept_ok :
  triple (at_stage done_stage admitted)
    (when (negb (restrict_to_authentication env)) (emit COnSuccess) ;;;
     send_result env SUPLA_RESULTCODE_TRUE)
    (λ _, finished) never.
Proof.
  set (out := if restrict_to_authentication env then [] else [COnSuccess]).
  eapply (triple_bind _ _ _ _ (λ _ s, r_out s = out ∧ stage_db done_stage s
                                        ∧ admitted (r_vars s))).
  - subst out. destruct (restrict_to_authentication env); [by apply triple_ret|].
    apply triple_modify. intros s (Ho & Hp & Hv). cbn. by rewrite Ho.
  - intros []. eapply triple_weaken; [apply (send_result_ok out done_stage admitted); by intros v code| |done].
    intros _ s (Hs & Hv & Hd). split_and!; [apply Hv|intros Hr; by apply Hd, done_db|].
    by left.
Qed.

(** The end of the handler: the checks of the access identifier. *)
Lemma client_finish_ok :
  triple (at_stage done_stage enrolled)
    (let* v := get_vars in
     check env (negb (access_id v =? 0))
        (if pwd_is_set v then SUPLA_RESULTCODE_BAD_CREDENTIALS
         else SUPLA_RESULTCODE_ACCESSID_NOT_ASSIGNED) ;;;
     check env (accessid_enabled v) SUPLA_RESULTCODE_ACCESSID_DISABLED ;;;
     check env (accessid_active v) SUPLA_RESULTCODE_INACTIVE ;;;
     when (negb (restrict_to_authentication env)) (emit COnSuccess) ;;;
     send_result env SUPLA_RESULTCODE_TRUE)
    (λ _, finished) finished.
Proof.
  apply read_vars. intros v.
  set (V w := enrolled w ∧ access_id w = access_id v ∧ accessid_enabled w = accessid_enabled v
              ∧ accessid_active w = accessid_active v).
  eapply triple_pre with (P' := at_stage done_stage V).
  2: { intros s (? & ? & ? & Hv). split_and!; [done..|]. unfold V. by rewrite <- Hv. }
  eapply (triple_bind _ _ _ _ (λ _ s, at_stage done_stage V s ∧ negb (access_id v =? 0) = true)).
  { apply late_check_ok; [by intros w code|by case_match|by intros w [? _]]. }
  intros []. apply triple_pure. intros Hz.
  eapply (triple_bind _ _ _ _ (λ _ s, at_stage done_stage V s ∧ accessid_enabled v = true)).
  { apply late_check_ok; [by intros w code|done|by intros w [? _]]. }
  intros []. apply triple_pure. intros Hen.
  eapply (triple_bind _ _ _ _ (λ _ s, at_stage done_stage V s ∧ accessid_active v = true)).
  { apply late_check_ok; [by intros w code|done|by intros w [? _]]. }
  intros []. apply triple_pure. intros Hac.
  eapply triple_weaken; [eapply triple_pre; [apply accept_ok|]|done|by intros ? []].
  intros s (? & ? & ? & Ha & He & Hc). split_and!; [done..|].
  split_and!; [done| |by rewrite He|by rewrite Hc].
  rewrite Ha. by apply negb_true_iff, Z.eqb_neq in Hz.
Qed.

(** One statement of the handler: what it establishes, or a refusal. *)
Ltac reg_step Q L :=
  eapply (triple_bind _ _ _ _ Q);
    [eapply (triple_weaken _ _ Q _ refused); [L|done|by left]|].

Lemma register_client_ok :
  triple (at_stage Opening unidentified) (register_client env rq)
    (λ _, finished) (λ s, refused s ∨ finished s).
Proof.
  unfold register_client. cbn zeta.
  reg_step (λ _ : unit, at_stage Opening unidentified) ltac:(
    eapply triple_weaken; [by apply client_check_ok|by intros a s [? _]|done]).
  intros []. reg_step (λ _ : unit, at_stage Opening unidentified) ltac:(
    eapply triple_weaken; [by apply client_check_ok|by intros a s [? _]|done]).
  intros []. apply triple_read. intros c.
  destruct (connect (env_connect_ok env) c) as [ok c'] eqn:Ec.
  eapply (triple_bind _ _ _ _ (λ _, at_stage (if ok then Before else Opening) unidentified)).
  { apply triple_modify. intros s [(? & [? ?] & ?) <-]. unfold connect in Ec.
    destruct (connected (r_dba s)) eqn:Ecn; injection Ec as <- <-; (split_and!; [done| |done]);
      [done|]. by destruct (env_connect_ok env). }
  intros []. reg_step (λ _ : unit, at_stage Before unidentified) ltac:(
    eapply triple_weaken; [apply client_check_ok; [by case_match|done]|by intros a s [? ->]|done]).
  intros []. eapply (triple_bind _ _ _ _ (λ _, at_stage Before unidentified)).
  { by apply stage_modify. }
  intros []. reg_step (λ _ : unit, at_stage Before identified) ltac:(apply client_guard_ok, client_auth_ok).
  intros []. reg_step (λ _ : Z, at_stage Before loaded) ltac:(apply client_load_variables_ok).
  intros a. eapply (triple_bind _ _ _ _ (λ _, at_stage working loaded)).
  { unfold working, when. destruct (restrict_to_authentication env); [by apply triple_ret|].
    apply (triple_bind _ _ _ _ (λ _ s, at_stage Before loaded s ∧ should_rollback (r_vars s) = true)).
    - by apply triple_modify.
    - intros []. apply triple_modify. intros s [(? & (? & Hd & ?) & ?) ?].
      split_and!; [done| |done]. cbn. by rewrite Hd. }
  intros []. reg_step (λ _ : unit, at_stage worked enrolled) ltac:(apply add_or_update_ok).
  intros []. eapply (triple_bind _ _ _ _ (λ _, at_stage done_stage enrolled)).
  { unfold worked, done_stage, when. destruct (restrict_to_authentication env);
      [by apply triple_ret|].
    apply (triple_bind _ _ _ _ (λ _ s, r_out s = [] ∧ saved (r_dba s) = None
             ∧ connected (r_dba s) = true ∧ enrolled (r_vars s))).
    - apply triple_modify. by intros s (? & (? & ? & ?) & ?).
    - intros []. apply triple_modify. by intros s (? & ? & ? & ?). }
  intros []. eapply triple_weaken; [apply client_finish_ok|done|by right].
Qed.
End proofs.

(** ** The result of an authentication, as a decision list *)

Section reference.
Context {DB : Type} {Dao : ClientDao DB} (env : reg_env) (rq : register_request) (d : DB).

(** The user, and the flags of the access identifier of the request. *)
Definition credentials_user : option (Z * bool * bool) :=
  match rq_credentials rq with
  | CredB a pwd =>
      match access_id_auth d a pwd with
      | Some (user, enabled, active) => if user =? 0 then None else Some (user, enabled, active)
      | None => None
      end
  | CredD email k _ =>
      let '(ok, user) := object_authkey_auth (env_auth env) d (rq_guid rq) email k 0 in
      if ok && negb (user =? 0) then Some (user, false, false) else None
  end.

(** The access identifier of the request, or the one the client has been assigned. *)
Definition effective_access_id (cv : client_variables) : Z :=
  match rq_credentials rq with
  | CredB a _ => a
  | CredD _ _ _ => if 0 <? cv_access_id cv then cv_access_id cv else 0
  end.

Definition authenticate_code (reachable : bool) : Z :=
  if negb (is_valid_guid (rq_guid rq)) then SUPLA_RESULTCODE_GUID_ERROR
  else if negb (match rq_authkey rq with Some k => is_valid_authkey k | None => true end)
  then SUPLA_RESULTCODE_AUTHKEY_ERROR
  else if negb reachable then SUPLA_RESULTCODE_TEMPORARILY_UNAVAILABLE
  else
    match credentials_user with
    | None => SUPLA_RESULTCODE_BAD_CREDENTIALS
    | Some (user, enabled, active) =>
        let id := get_client_id d user (rq_guid rq) in
        if id =? 0 then SUPLA_RESULTCODE_CLIENT_NOT_EXISTS
        else
          match get_client_variables d id with
          | None => SUPLA_RESULTCODE_TEMPORARILY_UNAVAILABLE
          | Some cv =>
              if negb (cv_enabled cv) then SUPLA_RESULTCODE_CLIENT_DISABLED
              else if effective_access_id cv =? 0 then SUPLA_RESULTCODE_ACCESSID_NOT_ASSIGNED
              else if negb (enabled || cv_accessid_enabled cv) then SUPLA_RESULTCODE_ACCESSID_DISABLED
              else if negb (active || cv_accessid_active cv) then SUPLA_RESULTCODE_INACTIVE
              else SUPLA_RESULTCODE_TRUE
          end
    end.
End reference.

(** What is left of a run: the result code, the database and what was sent. *)
Definition summary {DB} (s : creg DB) : Z * DB * option DB * list reg_event :=
  (resultcode (r_vars s), db (r_dba s), saved (r_dba s), r_out s).

Lemma closing_unwritten {DB} (env : reg_env) v (cn : bool) (d : DB) :
  db (closing env v (Dba cn d None)) = d ∧ saved (closing env v (Dba cn d None)) = None.
Proof. unfold closing. by destruct cn, (should_rollback v), (stay_connected env). Qed.

Lemma summary_sent {DB} (env : reg_env) code cn (d : DB) v :
  dont_send_result env = true →
  summary (Reg (closing env v (Dba cn d None)) (set_superuser false (set_resultcode code v))
             (result_events env code)) = (code, d, None, []).
Proof.
  intros Hq. unfold summary, result_events. rewrite Hq. cbn.
  by destruct (closing_unwritten env v cn d) as [-> ->].
Qed.

(** The rest of an authentication once the variables of the client are known. *)
Definition restricted_tail `{ClientDao DB} (env : reg_env) rq (a : Z) : M (creg DB) unit :=
  (add_or_update env rq a ;;;
   when false (set_dba commit ;;; set_vars (set_should_rollback false)) ;;;
   let* v := get_vars in
   check env (negb (access_id v =? 0))
     (if pwd_is_set v then SUPLA_RESULTCODE_BAD_CREDENTIALS
      else SUPLA_RESULTCODE_ACCESSID_NOT_ASSIGNED) ;;;
   check env (accessid_enabled v) SUPLA_RESULTCODE_ACCESSID_DISABLED ;;;
   check env (accessid_active v) SUPLA_RESULTCODE_INACTIVE ;;;
   when false (emit COnSuccess) ;;;
   send_result env SUPLA_RESULTCODE_TRUE)%handler.

Lemma register_client_restricted `{ClientDao DB} env rq :
  restrict_to_authentication env = true →
  register_client env rq =
  (check env (is_valid_guid (rq_guid rq)) SUPLA_RESULTCODE_GUID_ERROR ;;;
   check env (match rq_authkey rq with Some k => is_valid_authkey k | None => true end)
         SUPLA_RESULTCODE_AUTHKEY_ERROR ;;;
   let* c := gets r_dba in
   let '(ok, c') := connect (env_connect_ok env) c in
   set_dba (λ _, c') ;;;
   check env ok SUPLA_RESULTCODE_TEMPORARILY_UNAVAILABLE ;;;
   set_vars (set_pwd_is_set false) ;;;
   guard (client_auth env rq) ;;;
   let* a := load_variables env rq in
   when false (set_vars (set_should_rollback true) ;;; set_dba start_transaction) ;;;
   restricted_tail env rq a)%handler.
Proof. intros Hr. unfold register_client, restricted_tail. by rewrite Hr. Qed.

(** Runs the handler to its next decision; a result ends it. *)
Ltac run_handler :=
  unfold client_auth, load_variables, add_or_update, check, guard, fail, when, connect,
    bind, gets, get_vars, get_db, set_vars, set_dba, modify, emit, ret, leave;
  cbn -[send_result closing result_events summary add_client update_client
         restricted_tail];
  rewrite ?send_result_eq;
  cbn -[send_result closing result_events summary add_client update_client
         restricted_tail].

Lemma restricted_tail_summary `{ClientDao DB} env rq a (d : DB) v :
  restrict_to_authentication env = true → dont_send_result env = true →
  pwd_is_set v = false →
  summary (restricted_tail env rq a (Reg (Dba true d None) v [])).2
  = (if client_id v =? 0 then SUPLA_RESULTCODE_CLIENT_NOT_EXISTS
     else if negb (client_enabled v) then SUPLA_RESULTCODE_CLIENT_DISABLED
     else if (if (0 <? a) && is_d rq then a else access_id v) =? 0
     then SUPLA_RESULTCODE_ACCESSID_NOT_ASSIGNED
     else if negb (accessid_enabled v) then SUPLA_RESULTCODE_ACCESSID_DISABLED
     else if negb (accessid_active v) then SUPLA_RESULTCODE_INACTIVE
     else SUPLA_RESULTCODE_TRUE, d, None, []).
Proof.
  intros Hr Hq Hp. unfold restricted_tail. destruct v as [u ai ci ae aa ce ps sr su rc].
  cbn in Hp. subst ps. run_handler. rewrite Hr.
  destruct (ci =? 0) eqn:Ei, ce; run_handler; try by apply summary_sent.
  destruct ((0 <? a) && is_d rq); run_handler.
  - destruct (a =? 0), ae, aa; run_handler; by apply summary_sent.
  - destruct (ai =? 0), ae, aa; run_handler; by apply summary_sent.
Qed.

Lemma authenticate_summary `{ClientDao DB} env rq open su (d : DB) :
  restrict_to_authentication env = true → dont_send_result env = true →
  summary (register_client_run env rq open su d)
  = (authenticate_code env rq d (open || env_connect_ok env), d, None, []).
Proof.
  intros Hr Hq. unfold register_client_run, run, authenticate_code.
  rewrite register_client_restricted by done. unfold credentials_user, effective_access_id, initial_vars.
  destruct (is_valid_guid _); cbn [negb]; [|run_handler; by apply summary_sent].
  destruct (match rq_authkey rq with Some _ => _ | _ => _ end); cbn [negb];
    [|run_handler; by apply summary_sent].
  assert (∃ cn, open || env_connect_ok env = cn ∧ connect (env_connect_ok env) (Dba open d None)
    = (cn, Dba cn d None)) as (cn & -> & Ec) by (exists (open || env_connect_ok env); by destruct open).
  unfold bind at 1, check at 1, ret at 1. unfold bind at 1, check at 1, ret at 1.
  unfold bind at 1, gets at 1. cbn [r_dba]. rewrite Ec. clear Ec.
  destruct cn; cbn [negb]; [|run_handler; by apply summary_sent].
  destruct (rq_credentials rq) as [a pwd|email k password] eqn:Er.
  - run_handler. rewrite Er. cbn -[send_result closing result_events summary restricted_tail].
    destruct (access_id_auth d a pwd) as [[[u en] ac]|]; run_handler; [|by apply summary_sent].
    destruct (u =? 0); run_handler; [by apply summary_sent|].
    destruct (get_client_id d u (rq_guid rq) =? 0) eqn:Ei; run_handler.
    { rewrite restricted_tail_summary by done. cbn. by rewrite Ei. }
    destruct (get_client_variables d _) as [[cen ca caen caac]|]; run_handler; [|by apply summary_sent].
    rewrite restricted_tail_summary by (try done; by destruct caac, caen).
    unfold is_d, rq_authkey. rewrite Er, andb_false_r.
    destruct caac, caen, en, ac; cbn; by rewrite Ei.
  - run_handler. rewrite Er. cbn -[send_result closing result_events summary restricted_tail].
    destruct (object_authkey_auth _ _ _ _ _ _) as [ok u]; run_handler.
    destruct ok; run_handler; [|by apply summary_sent].
    destruct (u =? 0); run_handler; [by apply summary_sent|].
    destruct (get_client_id d u (rq_guid rq) =? 0) eqn:Ei; run_handler.
    { rewrite restricted_tail_summary by done. cbn. by rewrite Ei. }
    destruct (get_client_variables d _) as [[cen ca caen caac]|]; run_handler; [|by apply summary_sent].
    rewrite restricted_tail_summary by (try done; by destruct caac, caen).
    unfold is_d, rq_authkey. rewrite Er, andb_true_r.
    destruct caac, caen; cbn; by rewrite Ei.
Qed.

Lemma register_client_outcome `{ClientDao DB} env rq open su (d0 : DB) :
  let s := register_client_run env rq open su d0 in
  refused env d0 s ∨ finished env rq su d0 s.
Proof.
  pose proof (register_client_ok env rq su d0) as Ht.
  specialize (Ht (Reg (Dba open d0 None) (initial_vars rq su) [])).
  unfold register_client_run, run.
  destruct (register_client env rq _) as [[[]|] s']; cbn [snd].
  - right. by apply Ht; split_and!.
  - by apply Ht; split_and!.
Qed.

(** ** Properties *)

(** C3. The registration of a client is atomic and always answered: whatever the
    request, the mode and the database, no transaction is left open, the
    connection is closed unless it is to stay, the superuser authorization is
    revoked, and exactly one result is sent with the code the handler keeps (none
    in the quiet mode), with the callbacks of an acceptance before it and those of
    every outcome after it. A refusal leaves the database as it was, but for those
    found only after the commit (no access identifier, a disabled or inactive one,
    or a password of the account that gave none); an authentication never
    changes it. *)
Theorem register_client_atomic `{ClientDao DB} env rq open su (d0 : DB) :
  let s := register_client_run env rq open su d0 in
  let code := resultcode (r_vars s) in
  let accepted := (code =? SUPLA_RESULTCODE_TRUE) && negb (restrict_to_authentication env) in
  saved (r_dba s) = None ∧ (stay_connected env = false → connected (r_dba s) = false)
  ∧ superuser (r_vars s) = false
  ∧ r_out s = (if accepted then [COnSuccess] else [])
              ++ (if dont_send_result env then []
                  else [CResult (result_format env) code (code =? SUPLA_RESULTCODE_TRUE);
                        if code =? SUPLA_RESULTCODE_TRUE then CUpdateLists else CHold])
  ∧ (restrict_to_authentication env = true
     ∨ code ≠ SUPLA_RESULTCODE_TRUE ∧ is_late code = false → db (r_dba s) = d0).
Proof.
  cbn zeta. set (s := register_client_run env rq open su d0).
  destruct (register_client_outcome env rq open su d0)
    as [(Hd & code & Hc & Hs & Hn & Hu & Hr & Ho)|
        (_ & Hd & [[_ (Hs & Hn & Hu & Hr & Ho)]|(code & Hl & Hs & Hn & Hu & Hr & Ho)])];
    fold s in Hd, Hs, Hn, Hu, Hr, Ho; rewrite Hr, Ho; unfold result_events.
  - split_and!; [done..| |done]. by rewrite (proj2 (Z.eqb_neq _ _) Hc).
  - split_and!; [done..| |by intros [?|[? ?]]; [apply Hd|]].
    by destruct (restrict_to_authentication env).
  - assert ((code =? SUPLA_RESULTCODE_TRUE) = false) as Hf.
    { destruct (Z.eqb_spec code SUPLA_RESULTCODE_TRUE) as [-> |]; done. }
    split_and!; [done..| |by intros [?|[? ?]]; [apply Hd|congruence]].
    by rewrite Hf.
Qed.

(** Whom the server admits as a client: after a result SUPLA_RESULTCODE_TRUE the
    user is the one the credentials authenticate, the client is enabled and was
    either known or could be added (the registration is enabled or the client is
    authorized as a superuser, the limit was not reached, and the run was not a
    mere authentication), and it has an access identifier with both flags set. *)
Theorem register_client_admits `{ClientDao DB} env rq open su (d0 : DB)
    (Hcode : resultcode (r_vars (register_client_run env rq open su d0))
             = SUPLA_RESULTCODE_TRUE) :
  let v := r_vars (register_client_run env rq open su d0) in
  authenticated env rq d0 (user_id v) ∧ client_enabled v = true
  ∧ (known_client rq d0 (user_id v) ∨ new_client env rq su d0 (user_id v))
  ∧ access_id v ≠ 0 ∧ accessid_enabled v = true ∧ accessid_active v = true.
Proof.
  cbn zeta. destruct (register_client_outcome env rq open su d0)
    as [(_ & code & Hc & _ & _ & _ & Hr & _)|(_ & _ & [[Ha _]|(code & Hl & _ & _ & _ & Hr & _)])].
  - congruence.
  - destruct Ha as ((? & ? & ?) & ? & ? & ?). done.
  - rewrite Hcode in Hr. by subst code.
Qed.

(** C4. [authenticate] computes a decision list: the result code of the handler is
    the first that applies of the reference definition (identifiers, connection,
    credentials, client, access identifier), nothing is sent, and the database is
    not changed. *)
Theorem authenticate_decides `{ClientDao DB} env auth stay open su (d : DB) :
  let s := authenticate env auth stay open su d in
  resultcode (r_vars s)
    = authenticate_code env (authenticate_request auth) d (open || env_connect_ok env)
  ∧ db (r_dba s) = d ∧ saved (r_dba s) = None ∧ r_out s = [].
Proof.
  cbn zeta. pose proof (authenticate_summary (authenticate_env env stay)
    (authenticate_request auth) open su d eq_refl eq_refl) as Hs. by injection Hs.
Qed.

(** A database with the number of its clients. *)
Definition dao_object_ex : ObjectDao Z :=
  {| get_user_id_by_email _ _ := 3; get_object_id _ _ _ := Some 0;
     get_authkey_hash _ _ := None; st_bcrypt_check _ _ := false |}.
Definition dao_ex : ClientDao Z :=
  {| client_object_dao := dao_object_ex;
     access_id_auth _ _ _ := None;
     get_client_reg_enabled _ _ := false;
     get_client_limit_left _ _ := 5;
     get_client_count d _ := d;
     get_access_id _ _ enabled active := if enabled && active then 7 else 0;
     add_client_row d _ := (d + 1, d + 1);
     get_client_access_id _ _ := (0, false, false);
     get_client_id _ _ _ := 0;
     get_client_variables _ _ := None;
     update_client_row d _ _ := (true, d);
     superuser_check _ _ _ password := bool_decide (password = [112]) |}.
Definition env_ex : reg_env := RegEnv true (AuthEnv 10 0 []) 25 0 false false false.
Definition request_ex : register_request :=
  Request (replicate 16 1) [] [] (CredD [65; 64; 66] (replicate 16 7) [112]).

(** The registration is disabled, but the request has the password of the account. *)
Lemma register_client_admits_witness :
  authenticated (Dao := dao_ex) env_ex request_ex 0
    (user_id (r_vars (@register_client_run _ dao_ex env_ex request_ex false false 0))).
Proof.
  refine (proj1 (@register_client_admits _ dao_ex env_ex request_ex false false 0 _)).
  vm_compute. reflexivity.
Defined.
